(* ===== verification/_CoqProject ===== *)
-Q . S2P
Prelude.v
Order.v
Utf8.v
Str.v
Net.v
Tunnel.v
Bypass.v
SharePolicy.v
ShareDns.v
ShareLimiter.v
ShareSocks.v
ShareHttp.v
ShareServer.v
ShareProps.v
Vendor.v
Instances.v
Cbor.v
Locator.v
Capsule.v
Text.v
Invite.v
InviteProps.v
Allowance.v
Grant.v
Strategy.v
Routes.v
LeakGuard.v
Broker.v
Model.v
Activity.v
Meter.v
GrantAdmin.v
Service.v
ServiceInv.v
ServiceDemo.v
ServiceProps.v
ServiceGrants.v
ServiceUsage.v
Update.v
UpdateProps.v
Seal.v
Contract.v
Control.v
Validation.v
Client.v
Gateway.v
SealedDemo.v
ClientProps.v
SealedProps.v
ControlProps.v
ServiceEnds.v
FloatBounds.v
StdText.v
Config.v
ConfigProps.v
Engines.v
DataPlane.v
EngineControls.v
DataPlaneProps.v
Api.v
ApiTransports.v
ApiDemo.v
ApiLogic.v
ApiManifest.v
ApiProps.v
ApiTasks.v
ApiWitness.v
Agents.v
WireGuardAgent.v
WireGuardProps.v
OpenVpnAgent.v
OpenVpnProps.v
ClientEngines.v
ClientEngineProps.v
BridgeDiagnostics.v
FullRoute.v
Adapters.v
AdaptersProps.v
SystemDns.v
SystemDnsProps.v
