(* ===== verification/Prelude.v ===== *)
(** * Ket: a verified model of a private VPN's server, client and tools

    Ket hands out access to a private VPN node.  An operator's server
    (crates/ket-server) keeps _grants_: access codes with a device limit, an
    end, a choice of protocols and a data allowance.  A grant reaches its user
    as a signed _invite_ (crates/invite-capsule, crates/ket-invite): text that
    carries the access code, the node's public key and the places where the
    node answers.  The app (crates/ket-client-core) enrolls with the code, in
    requests sealed to the node's key (crates/ket-seal) or against a signed
    answer, and gets a _session_: a lease on one of the node's slots, with a
    token for the control API and one for the data plane.  It picks a
    transport, has the privileged tunnel service (crates/ket-tunnel-service,
    crates/ket-tunnel-protocol) start it, keeps the routes and firewall rules
    around it, and maintains the lease; it can share the tunnel with nearby
    devices (crates/ket-share).  The server counts what the engines report per
    session against the allowance of the grant, ends sessions whose lease,
    grant or allowance has run out, keeps its state in one JSON file, and tells
    apps whether they must update (crates/ket-update).

    ** What models what

    Shared:
    - Prelude: [Result] and [?], machine integers, bytes, big-endian numbers,
      list lemmas, the tactics and the [ket] hint database.
    - Order: [Ord] as a class with its laws, stable sorting, [min_by_key].
    - Utf8, Str: Rust's [str] - validity, [chars], trimming, splitting,
      prefixes, decimal numbers.  Net: [std::net] addresses with their parser
      and [Display].
    - Vendor: third-party code as classes of functions, each with a class of
      laws that states its documented behaviour: ed25519-dalek, sha2 and sha3,
      the RFC 4648 encodings, url.  Instances: executable instances of all of
      them, on which the witnesses run.  Further such classes stand next to the
      code that uses them: JSON and HMAC in Tunnel, HPKE, HKDF and the AEAD in
      Seal, the url crate's setters and header values in Control.

    Invites:
    - Cbor (cbor.rs, error.rs): canonical CBOR encoders and the strict decoder,
      with the [Codec] interface that pairs an encoder with its decoder.
    - Locator (locator/): locators, DNS-name, public-URL, onion and i2p policy.
    - Capsule (profile.rs, signature.rs, node_key.rs, capsule.rs, signed.rs):
      invites over any [InviteProfile], which is the source's trait.
    - Text (text/): Base64URL text and the hand-typeable Crockford form.
    - Invite (ket-invite: profile.rs, enrollment.rs): Ket's profile and the
      signed enrollment response.
    - InviteProps: theorems and witnesses.

    Access service:
    - Allowance (ket-core allowance.rs), Grant (ket-core grant.rs, secret.rs,
      the grant and transport types of contract.rs; the client's transport.rs).
    - Model (ket-server model.rs, allowance.rs, repository.rs): the persisted
      state with its validation, and the state file.
    - Activity (activity.rs), Meter (meter.rs; theorems on periods, the meter
      and the activity log), GrantAdmin (grant_admin.rs).
    - Service (service.rs): all operations of the access service in a state and
      error monad [M] over the record [Service] of memory state, file, activity
      log, the time usage was last stored and the count of refused crypto work.
    - ServiceInv: a Hoare logic for [M], the invariant [Inv], and the step
      relation: [Op] lists the critical sections, [exec] runs one, and
      [reachable] closes the loaded states under all of them.
    - ServiceDemo: a concrete node.  ServiceProps, ServiceGrants, ServiceUsage:
      theorems and witnesses.  ServiceEnds: every operation
      accounts for the sessions it ends, which its caller must kick.

    Server:
    - StdText: the standard library's parsing of integers, floats and socket
      addresses, [lines] and [split_whitespace]; load, memory and uptime of the
      host (system.rs).  FloatBounds: rounding keeps a share between 0 and 100
      percent.
    - Config (config.rs, updates.rs): [from_env], setting by setting, over an
      environment and files; the transports it advertises and the port or
      address of a resource slot.  ConfigProps: what accepted settings satisfy.
    - Engines (wireguard.rs, shadowsocks.rs, xray.rs, hysteria.rs, openvpn.rs):
      keys and credentials of a session, the configurations of the engines.
    - DataPlane (data_plane.rs): the trait [DataPlaneControl] as a record of
      operations, actions [act] over a world of engines, and the composite of
      several controls.  EngineControls: the control of each engine, over the
      answers of HTTP managers, a UDP manager and child processes; Xray's JSON.
      DataPlaneProps: the classes [ClockRuns], [TrafficSound] and [EngineLaws]
      state what a control promises; every engine's control is an instance of
      the first two.
    - Api (api/mod.rs, api/grants.rs): every handler as a function on the
      record [App] of access service, engines, readiness and counters, the
      background tasks and the session routes.  ApiLogic: triples for handlers,
      the engines with a record of what they were told, and the invariant
      [AppInv], which every handler keeps.  ApiTransports and ApiManifest
      connect the server's documents with the app's Validation.  ApiProps has
      other theorems.  ApiTasks cuts every handler and background task into the
      turns between its awaits ([Work]) and has the server with any number of
      them in progress ([happens], [server_reachable]).  ApiDemo is a concrete
      server, ApiWitness what it does and the status documents it sends.

    Engine agents, which run beside the engines and take orders from the server:
    - Agents: HTTP requests, errors and child processes as the agents see them,
      in the monad [task].  WireGuardAgent (wireguard_agent.rs) and
      OpenVpnAgent (openvpn_agent.rs, bin/ket-openvpn-auth.rs): settings,
      handlers, the management interface and the sign-in program.
      The WireGuard interface is the documented behaviour of wg.
    - WireGuardProps and OpenVpnProps: the server's controls and its sign-in put
      together with the agents, and an interface and an OpenVPN in memory.

    Updates: Update (ket-update, ket-core update.rs, [is_required] of the
    server's updates.rs) and UpdateProps.

    Sealed control:
    - Seal (ket-seal): keys, sealing and opening of requests and responses.
    - Contract (ket-core contract.rs, update.rs, sealed.rs; the client's
      error.rs): the session API's types and the client's errors.
    - Control (the client's api.rs, sealed_control.rs, invite.rs): endpoints
      and calls, over a world that tells the time, draws random bytes and
      answers requests; [Plane] is that world, the requests sent so far and the
      clock offset.
    - Gateway (ket-server invite.rs, api/sealed.rs): the invite issuer, the
      replay window and the gateway over any session router.
    - SealedDemo: concrete instances.  SealedProps puts app and gateway
      together; ControlProps has the app against any network.

    Client:
    - Strategy (strategy.rs, transport_memory.rs), Validation (validation.rs).
    - Client (state.rs, client.rs): every operation of [KetClient] as a function
      on the record [Client] of runtime, snapshot, environment, the tunnels
      that run, and of those the ones a failed or cancelled connect left behind
      ([strays]), which the engines may do as the tunnel service goes on when
      the app stops waiting.  The control plane, the engines, the route check, the clock and
      the transport memory are the operations of the class [ClientEnv].
    - ClientProps: the reachable clients, theorems and witnesses.
    - Routes (route_keeper/plan.rs, mod.rs) and LeakGuard (leak_guard/).
    - ClientEngines (hysteria.rs, xray.rs, openvpn.rs, shadowsocks.rs,
      wireguard.rs): what each engine of the desktop app demands of a transport
      and the configuration it renders, and OpenVPN key material between the
      two programs.  ClientEngineProps puts the server's settings and the app's
      checks together and runs them.
    - BridgeDiagnostics and FullRoute (full_route.rs): the bridge, settling and
      supervision; values that own processes, files, routes and rules are the
      locals of [Frame], dropped in the language's order, and what begins and
      ends is a log.  Adapters: probing and connecting of the five engines.
      AdaptersProps: a logic of frames and the theorems.
    - SystemDns (system_dns/): the system resolver, each call into the system
      with an event that lets it succeed, fail or be the last.  SystemDnsProps:
      a logic of interrupted runs and the theorems.

    Tunnel service:
    - Bypass (bypass.rs), Tunnel (ket-tunnel-protocol lib.rs): prefixes, the
      bypass list, frames, the installation token.
    - Broker (ket-tunnel-service lib.rs): requests, leases and reaping, as
      functions between awaits and as the step relation [broker_step].

    Connection sharing (ket-share):
    - SharePolicy (policy.rs, target.rs, credentials.rs), ShareDns (dns.rs),
      ShareLimiter (limiter.rs), ShareSocks (socks5.rs, handshake.rs),
      ShareHttp (http.rs), ShareServer (server.rs, egress.rs): one connection
      as a function of what the device sends, all of them as [share_step].
    - ShareProps: theorems and witnesses.

    ** How the code is modelled

    A fallible function returns [result]; [let*] is [?] and [require] an early
    return.  A [u8] to [u64] is a [Z] with saturation and wrap-around written
    out where the source has them; [usize] has 64 bits, as on the platforms Ket
    is built for.  Floats are IEEE values ([spec_float]).  Strings and byte
    vectors are lists of bytes; maps are [gmap]s, and the order a hash map is
    walked in is a parameter where it matters.  Readings of the clock, random
    draws, the answers of the operating system, the network and the bounded
    worker pool are arguments or operations of an environment, so a theorem
    holds for all of them.

    The access service keeps its state behind one lock and releases it between
    looking a record up and committing.  Operations are cut at those points:
    the second half takes the records found before as arguments.  [reachable]
    lets any other critical section run in between, with any such arguments,
    which covers every interleaving; [operations_are_runs] shows that the
    operations run alone are among the runs.  The tunnel service and the share
    are cut at their awaits in the same way.  The client holds one operation
    lock over each public operation, so its operations run one after another;
    the few that do not take it ([set_connect_options] and the like, and
    [network_moved]) are operations of their own, and a cancelled connection
    attempt is an answer of the environment.  A handler of the server is one
    function in Api and a sequence of turns, one per lock of the service or call
    of an engine, in ApiTasks; the two agree where nothing interrupts.  A lock
    held over a write of the file is one turn.

    Recursion that is not structural has fuel that provably or evidently
    suffices: a decoder loop has one unit per input byte; the Crockford encoder
    emits at most two digits per byte and has three units; reading from the
    OpenVPN management socket has one unit per byte an answer may have
    ([management_read_ends]); decimal printing
    has 20 digits for a [u64] and 5 for a port; skipping a DNS name has one
    unit more than the packet has bytes ([skip_name_terminates]); trimming a
    history or the transport memory has one round per entry
    ([history_bounded]); splitting a list of users into commands and reading
    Xray's output as lossy text have one unit per element; reconciliation tries
    20 times, as the source does; the search for a free slot has one unit more than
    there are slots in use, and is proved to find one when there is one
    ([free_slot_exists]).  A loop that waits is a function of the rounds it
    makes, and still waits when they run out; [waits_end] shows that each has an
    answer by the round at which its time is up.

    ** What the theorems show

    - Invites: decoding accepts exactly the canonical encodings of valid
      capsules; what is signed decodes back, what is accepted is authentic,
      unexpired and not malleable; errors come in a fixed order; both text
      forms round-trip, and typing mistakes of case and look-alikes do no harm.
      Only public HTTPS names and loopback hosts become locators.  An
      enrollment response is bound to its nonce and body.
    - Access service: the invariant of every reachable state; failed sections
      change nothing; the file always restores the state; tokens are accepted
      only when session, lease and grant allow it, and those of a new session
      do work; admission keeps all limits and succeeds when they leave room;
      exact effects of revoking, changing, renewing, expiring and counting.
    - Counting: periods partition time, the calendar conversions are inverse,
      the meter neither counts twice nor loses bytes, the activity log is
      bounded, deduplicated and in order.
    - Updates: exactly when an app is refused, that advice gets only more
      urgent, that deadlines are kept, and round trips of versions and headers.
    - Sealed control: required sealing sends nothing in the clear; a sealed
      request runs once and its answer comes back unchanged, also for a device
      whose clock is off; a replay is refused; an enrollment is taken only from
      the pinned node; an issued invite pins the app to the node that issued
      it; what the app shows of an error is bounded and printable.
    - Client: documents are accepted exactly when well formed; at every moment
      the tunnels that run are the one the client holds and those a failed or
      cancelled connect left behind; disconnecting leaves
      nothing; no network at all takes no tunnel down; transports are tried
      best first, and what was learnt on a network is found there again.
    - Client transports: every transport the server advertises is one the app
      takes, with the exact condition for OpenVPN; at no moment of any tunnel's
      life does the bridge run without its resolver lease, guard and routes,
      and nothing outlives the tunnel but a resolver whose restore failed
      twice; a tunnel is reported stopped exactly when asked and restored; the
      resolver survives a failed takeover, and a crash that tears no write;
      the bridge's output is understood however it is cut.
    - Engine agents: what the server orders reaches the WireGuard interface as
      if it were told directly; OpenVPN admits only sessions the access service
      admits; the agent ends only the sessions it was told to.
    - Routes and rules: the route keeper converges to the best physical routes
      and owns up to every route it made, where a refused action may still have
      removed the route it was about and the system may drop routes; the leak
      guard of the Windows build blocks exactly what would leak.
    - Tunnel service: never two tunnels, leases renewed or reaped, nothing
      without the token; frames, prefixes and bypass lists round-trip.
    - Sharing: connections only for signed-in devices and only to the public
      Internet; both handshakes understood exactly; DNS answers read exactly;
      the sign-in limiter is its full history; the counts are true.
    - Server: with requests and background tasks interleaved at every await
      and any of them cut off, the engines serve only sessions of the access
      service, ones about to be kicked, ones that ended before the engines were
      told of them, and ones whose kick was cut off; a refused enrollment
      leaves nothing behind; what the server answers to an enrollment, a status
      request or a renewal is what the app accepts; administration takes the
      admin token, and the order to update is told only to holders of a valid
      credential; accepted settings give each slot a port and an address of its
      own; several engines refuse a session as one; the bytes counted against
      an allowance are those shown.
    - Places where the code does not do what it means to:
      [manual_text_max_refused], [renewal_race_exceeds_limit],
      [redundant_connect_forgets_request], [provision_race_outlives_session],
      [no_protocol_counted_twice], [obfuscation_password_unchecked],
      [lease_reuse_stops_agent], [pending_client_stops_agent],
      [openvpn_usable_exactly] (two) and [torn_write_loses_resolver].

    The theorems on cryptography use only the laws of the classes named above
    (lengths, decoding inverts encoding, a key verifies what it signed, opening
    inverts sealing); they do not claim that forging is hard.

    ** What is not modelled

    axum and tower around the handlers (body limits, rejected extractors, caught
    panics; a handler that a timeout or a lost connection cancels is a task cut
    off between two turns, not within one), start-up and signals of the
    processes, the writing of engine configurations to disk, the supervision of
    the engines by the agents, the client's broker connection (sockets), the
    platform parts of routes and filters, the choice of an interface to share
    on, ket-qr, the Android bindings and the desktop app.  Of the client's
    processes only whether they run, exit or answer is modelled; losing power
    between a write and its [sync_all] is not.  Zeroizing of secrets and
    redacted [Debug] output have no counterpart here. *)


From Stdlib Require Import ZArith Lia Strings.Byte Strings.Ascii.
From stdpp Require Export base tactics option list numbers sets gmap.
From stdpp Require Import countable strings.

Global Open Scope Z_scope.

Declare Scope ket_scope.
Delimit Scope ket_scope with ket.
Global Open Scope ket_scope.

Create HintDb ket.

(** * Results *)

(** Rust's [Result<A, E>]. *)
Inductive result (E A : Type) : Type :=
| Ok (a : A)
| Err (e : E).
Arguments Ok {E A} a.
Arguments Err {E A} e.

(** [let* x := m in k] is [let x = m?; k]. *)
Notation "'let*' x ':=' m 'in' k" :=
  (match m with Ok x => k | Err e => Err e end)
  (at level 200, x pattern, m at level 100, k at level 200,
   format "'[v' 'let*'  x  ':='  m  'in' '/' k ']'") : ket_scope.

(** [require c e k] is [if !c { return Err(e) } k]. *)
Notation "'require' c 'else' e 'in' k" :=
  (if c then k else Err e)
  (at level 200, c at level 100, e at level 100, k at level 200,
   format "'[v' 'require'  c  'else'  e  'in' '/' k ']'") : ket_scope.

(** [Option::ok_or]. *)
Definition ok_or {E A} (o : option A) (e : E) : result E A :=
  match o with Some a => Ok a | None => Err e end.

(** [Result::map_err]. *)
Definition map_err {E F A} (f : E -> F) (r : result E A) : result F A :=
  match r with Ok a => Ok a | Err e => Err (f e) end.

Definition is_ok {E A} (r : result E A) : bool :=
  match r with Ok _ => true | Err _ => false end.

Global Instance result_eq_dec {E A} `{EqDecision E, EqDecision A} : EqDecision (result E A).
Proof. solve_decision. Defined.

(** [iter().map(f).collect::<Result<Vec<_>, _>>()]. *)
Fixpoint collect {E A B} (f : A -> result E B) (l : list A) : result E (list B) :=
  match l with
  | [] => Ok []
  | x :: l => let* y := f x in let* ys := collect f l in Ok (y :: ys)
  end.

(** Case analysis on the scrutinee of a [match] or [if] in a hypothesis or in
    the goal, with the contradictory cases closed. *)
Ltac break_hyp H :=
  match type of H with
  | context [match ?x with _ => _ end] =>
      lazymatch x with
      | context [match _ with _ => _ end] => fail
      | _ => let E := fresh "E" in destruct x eqn:E; try discriminate H
      end
  end.

Ltac break_in H := repeat (break_hyp H).

Ltac break_goal :=
  match goal with
  | |- context [match ?x with _ => _ end] =>
      lazymatch x with
      | context [match _ with _ => _ end] => fail
      | _ => let E := fresh "E" in destruct x eqn:E
      end
  end.

(** Turns the boolean tests of the code into propositions. *)
Ltac bool_prop :=
  repeat match goal with
  | H : andb _ _ = true |- _ => apply andb_true_iff in H as [? ?]
  | H : orb _ _ = false |- _ => apply orb_false_iff in H as [? ?]
  | H : negb _ = true |- _ => apply negb_true_iff in H
  | H : negb _ = false |- _ => apply negb_false_iff in H
  | H : bool_decide _ = true |- _ => apply bool_decide_eq_true_1 in H
  | H : bool_decide _ = false |- _ => apply bool_decide_eq_false_1 in H
  | H : (_ =? _) = true |- _ => apply Z.eqb_eq in H
  | H : (_ =? _) = false |- _ => apply Z.eqb_neq in H
  | H : (_ <=? _) = true |- _ => apply Z.leb_le in H
  | H : (_ <=? _) = false |- _ => apply Z.leb_gt in H
  | H : (_ <? _) = true |- _ => apply Z.ltb_lt in H
  | H : (_ <? _) = false |- _ => apply Z.ltb_ge in H
  | H : (_ =? _)%nat = true |- _ => apply Nat.eqb_eq in H
  | H : (_ =? _)%nat = false |- _ => apply Nat.eqb_neq in H
  | H : (_ <=? _)%nat = true |- _ => apply Nat.leb_le in H
  | H : (_ <=? _)%nat = false |- _ => apply Nat.leb_gt in H
  | H : (_ <? _)%nat = true |- _ => apply Nat.ltb_lt in H
  | H : (_ <? _)%nat = false |- _ => apply Nat.ltb_ge in H
  end.

Section results.
Context {E A B : Type} (f : A -> result E B).

Lemma collect_ok_forall2 l ys :
  collect f l = Ok ys <-> Forall2 (fun x y => f x = Ok y) l ys.
Proof.
  revert ys; induction l as [|x l IH]; intros ys; simpl.
  - split; [intros [= <-]; constructor | by inversion 1].
  - split.
    + intros H. break_in H. injection H as <-. constructor; [done|]. by apply IH.
    + intros H. inversion H as [|? y ? ys' Hx Hl]; subst.
      rewrite Hx. apply IH in Hl. by rewrite Hl.
Qed.

Lemma collect_total l :
  (forall x, x ∈ l -> exists y, f x = Ok y) -> exists ys, collect f l = Ok ys.
Proof.
  induction l as [|x l IH]; intros H; [by eexists|]. simpl.
  destruct (H x) as [y ->]; [left|].
  destruct IH as [ys ->]; [intros z Hz; apply H; by right|]. by eexists.
Qed.
End results.

(** * Machine integers *)

Definition u8_max : Z := 255.
Definition u16_max : Z := 65535.
Definition u32_max : Z := 4294967295.
Definition u64_max : Z := 18446744073709551615.

Definition in_u16 (z : Z) : Prop := 0 <= z <= u16_max.
Definition in_u32 (z : Z) : Prop := 0 <= z <= u32_max.
Definition in_u64 (z : Z) : Prop := 0 <= z <= u64_max.

(** [saturating_add], [saturating_sub] and [saturating_mul] on [u64]. *)
Definition sat_add64 (a b : Z) : Z := Z.min (a + b) u64_max.
Definition sat_sub64 (a b : Z) : Z := Z.max (a - b) 0.
Definition sat_mul64 (a b : Z) : Z := Z.min (a * b) u64_max.

(** [usize::try_from] and [as usize] lengths are taken on a 64-bit target. *)
Definition usize_max : Z := u64_max.

Definition zlen {A} (l : list A) : Z := Z.of_nat (length l).

Lemma zlen_nonneg {A} (l : list A) : 0 <= zlen l.
Proof. unfold zlen. lia. Qed.

Lemma zlen_nil A : zlen (@nil A) = 0.
Proof. done. Qed.

Lemma zlen_app {A} (l k : list A) : zlen (l ++ k) = zlen l + zlen k.
Proof. unfold zlen. rewrite length_app. lia. Qed.

(** * Bytes *)

Notation byte := Byte.byte.

Global Instance byte_eq_dec : EqDecision byte := Byte.byte_eq_dec.

Definition byte_to_nat (b : byte) : nat := N.to_nat (Byte.to_N b).

Global Program Instance byte_countable : Countable byte :=
  inj_countable Byte.to_N Byte.of_N _.
Next Obligation. intros b. apply Byte.of_to_N. Qed.

(** A [u8] as an integer, and [as u8] of a wider integer. *)
Definition b2z (b : byte) : Z := Z.of_N (Byte.to_N b).
Definition z2b (z : Z) : byte :=
  match Byte.of_N (Z.to_N (z mod 256)) with Some b => b | None => Byte.x00 end.

Lemma b2z_bound b : 0 <= b2z b < 256.
Proof. unfold b2z. pose proof (Byte.to_N_bounded b). lia. Qed.

Lemma z2b_b2z b : z2b (b2z b) = b.
Proof.
  unfold z2b. rewrite Z.mod_small by apply b2z_bound.
  unfold b2z. rewrite N2Z.id, Byte.of_to_N. done.
Qed.

Lemma b2z_z2b z : b2z (z2b z) = z mod 256.
Proof.
  unfold z2b, b2z. pose proof (Z.mod_pos_bound z 256 ltac:(lia)) as Hb.
  destruct (Byte.of_N (Z.to_N (z mod 256))) as [b|] eqn:E.
  - apply Byte.to_of_N in E. rewrite E. lia.
  - apply Byte.of_N_None_iff in E. lia.
Qed.

Lemma b2z_z2b_small z : 0 <= z < 256 -> b2z (z2b z) = z.
Proof. intros. rewrite b2z_z2b. by apply Z.mod_small. Qed.

Lemma b2z_inj a b : b2z a = b2z b -> a = b.
Proof. intros H. by rewrite <- (z2b_b2z a), <- (z2b_b2z b), H. Qed.

Global Instance b2z_Inj : Inj eq eq b2z := b2z_inj.

#[export] Hint Resolve b2z_bound zlen_nonneg : ket.

(** Rust string and byte-string literals. *)
Definition str (s : string) : list byte := String.list_byte_of_string s.

(** Decimal digits, as [format!] prints an unsigned integer of at most
    [fuel] digits. *)
Fixpoint dec_digits (fuel : nat) (n : Z) (acc : list byte) : list byte :=
  match fuel with
  | O => acc
  | S fuel =>
    let acc := z2b (48 + n mod 10) :: acc in
    if n <? 10 then acc else dec_digits fuel (n / 10) acc
  end.

(** [format!] of a [u64] with [{}], which has at most 20 digits, and padded
    with zeros as with [{:0w}]. *)
Definition show_u64 (n : Z) : list byte := dec_digits 20 n [].
Definition show_pad (w : nat) (n : Z) : list byte :=
  repeat Byte.x30 (w - length (show_u64 n)) ++ show_u64 n.

(** [to_be_bytes] of an [n]-byte integer and [from_be_bytes]. *)
Fixpoint to_be (n : nat) (v : Z) : list byte :=
  match n with
  | O => []
  | S n => to_be n (v / 256) ++ [z2b v]
  end.

Definition from_be (l : list byte) : Z :=
  fold_left (fun acc b => acc * 256 + b2z b) l 0.

Lemma length_to_be n v : length (to_be n v) = n.
Proof. revert v; induction n as [|n IH]; intros v; simpl; [done|]. rewrite length_app, IH. simpl. lia. Qed.

Lemma from_be_snoc l b : from_be (l ++ [b]) = from_be l * 256 + b2z b.
Proof. unfold from_be. by rewrite fold_left_app. Qed.

Lemma from_be_bound l : 0 <= from_be l < 256 ^ zlen l.
Proof.
  induction l as [|b l IH] using rev_ind; [done|].
  rewrite from_be_snoc, zlen_app. change (zlen [b]) with 1.
  rewrite Z.pow_add_r by (unfold zlen; lia). change (256 ^ 1) with 256.
  pose proof (b2z_bound b). lia.
Qed.

Lemma from_be_to_be n v : 0 <= v < 256 ^ Z.of_nat n -> from_be (to_be n v) = v.
Proof.
  revert v; induction n as [|n IH]; intros v Hv.
  - change (256 ^ Z.of_nat 0) with 1 in Hv. cbn. lia.
  - rewrite Nat2Z.inj_succ, Z.pow_succ_r in Hv by lia.
    cbn [to_be]. rewrite from_be_snoc, b2z_z2b, IH.
    + pose proof (Z.div_mod v 256). lia.
    + split; [apply Z.div_pos; lia | apply Z.div_lt_upper_bound; lia].
Qed.

Lemma to_be_from_be l : to_be (length l) (from_be l) = l.
Proof.
  induction l as [|b l IH] using rev_ind; [done|].
  rewrite length_app, Nat.add_comm, from_be_snoc. cbn [length Nat.add to_be].
  pose proof (b2z_bound b).
  rewrite Z.div_add_l, (Z.div_small (b2z b)), Z.add_0_r, IH by lia.
  f_equal. f_equal. rewrite <- (z2b_b2z b) at 2. unfold z2b.
  by rewrite Z.add_comm, Z_mod_plus_full.
Qed.

(** * Lists *)

Lemma forallb_Forall {A} (p : A -> bool) l :
  forallb p l = true <-> Forall (fun x => p x = true) l.
Proof.
  induction l as [|x l IH]; simpl; [split; [constructor|done]|].
  rewrite andb_true_iff, IH, Forall_cons. done.
Qed.

Lemma existsb_Exists {A} (p : A -> bool) l :
  existsb p l = true <-> exists x, x ∈ l /\ p x = true.
Proof.
  rewrite existsb_exists. split; intros (x & Hx & ?); exists x; (split; [by apply list_elem_of_In|done]).
Qed.

Lemma existsb_false {A} (p : A -> bool) l :
  existsb p l = false <-> Forall (fun x => p x = false) l.
Proof.
  induction l as [|x l IH]; simpl; [split; [constructor|done]|].
  rewrite orb_false_iff, IH, Forall_cons. done.
Qed.

Lemma from_be_app l k : from_be (l ++ k) = from_be l * 256 ^ zlen k + from_be k.
Proof.
  induction k as [|b k IH] using rev_ind.
  - rewrite app_nil_r. change (zlen (@nil byte)) with 0. change (from_be []) with 0. lia.
  - rewrite (assoc_L (++)), !from_be_snoc, IH, zlen_app. change (zlen [b]) with 1.
    rewrite Z.pow_add_r by (unfold zlen; lia). lia.
Qed.

Lemma from_be_cons b l : from_be (b :: l) = b2z b * 256 ^ zlen l + from_be l.
Proof. change (b :: l) with ([b] ++ l). by rewrite from_be_app. Qed.

(** Byte strings of one length that denote the same number are equal. *)
Lemma from_be_inj l k : length l = length k -> from_be l = from_be k -> l = k.
Proof. intros Hl E. by rewrite <- (to_be_from_be l), <- (to_be_from_be k), Hl, E. Qed.

(** Equality of closed data by evaluation. *)
Lemma decide_by_bool {A} `{EqDecision A} (x y : A) : bool_decide (x = y) = true -> x = y.
Proof. apply bool_decide_eq_true_1. Qed.
Ltac by_compute := apply decide_by_bool; vm_compute; reflexivity.

(** Selecting records keeps what holds of all of them and of their keys. *)
Lemma sublist_map {A B} (f : A -> B) l k : l `sublist_of` k -> map f l `sublist_of` map f k.
Proof. induction 1; cbn; by constructor. Qed.

Lemma sublist_omap {A B} (f : A -> option B) l k : l `sublist_of` k -> omap f l `sublist_of` omap f k.
Proof. induction 1 as [|x l k _ IH|x l k _ IH]; cbn; [done| |]; destruct (f x); cbn; try done; by constructor. Qed.

Lemma sublist_Forall {A} (P : A -> Prop) l k : l `sublist_of` k -> Forall P k -> Forall P l.
Proof. intros Hs HF. rewrite Forall_forall in *. intros x Hx. apply HF. by eapply elem_of_sublist. Qed.

Lemma sublist_NoDup_map {A B} (f : A -> B) l k : l `sublist_of` k -> NoDup (map f k) -> NoDup (map f l).
Proof. intros Hs HN. eapply sublist_NoDup; [exact HN|]. by apply sublist_map. Qed.

Lemma sublist_NoDup_omap {A B} (f : A -> option B) l k : l `sublist_of` k -> NoDup (omap f k) -> NoDup (omap f l).
Proof. intros Hs HN. eapply sublist_NoDup; [exact HN|]. by apply sublist_omap. Qed.

#[export] Hint Resolve sublist_filter sublist_map sublist_omap sublist_Forall
  sublist_NoDup_map sublist_NoDup_omap : ket.

Lemma filter_ext_elem {A} (P Q : A -> Prop) `{!∀ x, Decision (P x), !∀ x, Decision (Q x)} (l : list A) :
  (forall x, x ∈ l -> P x <-> Q x) -> filter P l = filter Q l.
Proof.
  induction l as [|x l IH]; intros HE; [done|]. rewrite !filter_cons, IH by (intros y Hy; apply HE; by right).
  destruct (HE x); [left|]. by destruct (decide (P x)), (decide (Q x)); naive_solver.
Qed.

(** Splitting a list on a test loses nothing. *)
Lemma filter_all {A} (P : A -> Prop) `{!∀ x, Decision (P x)} (l : list A) : Forall P l -> filter P l = l.
Proof.
  induction 1 as [|x l Hx HF IH]; [done|]. by rewrite filter_cons_True, IH.
Qed.

Lemma elem_of_map {A B} (f : A -> B) (l : list A) y : y ∈ map f l <-> exists x, y = f x /\ x ∈ l.
Proof. apply list_elem_of_fmap. Qed.
