(* ===== verification/Order.v ===== *)
(** Orders as Rust's [Ord] gives them - integers, booleans, strings and tuples
    of them - and the stable sort of [slice::sort_by_key]. *)

From Stdlib Require Import ZArith Lia.
From stdpp Require Import sorting.
From S2P Require Import Prelude.

(** * Comparisons *)

(** [Ord::cmp]. *)
Class Cmp (A : Type) := cmp : A -> A -> comparison.

(** A total order of keys: swapping the operands mirrors the answer, and "not
    after" is transitive. *)
Class CmpLaws A `{Cmp A} : Prop := {
  cmp_antisym : forall x y, cmp y x = CompOpp (cmp x y);
  cmp_trans : forall x y z, cmp x y <> Gt -> cmp y z <> Gt -> cmp x z <> Gt;
}.

(** Only equal keys compare equal. *)
Class CmpEq A `{Cmp A} : Prop := cmp_eq : forall x y, cmp x y = Eq -> x = y.

Section laws.
Context `{CmpLaws A}.

Lemma cmp_refl x : cmp x x = Eq.
Proof. pose proof (cmp_antisym x x) as Hx. by destruct (cmp x x). Qed.

Lemma cmp_eq_trans x y z : cmp x y = Eq -> cmp y z = Eq -> cmp x z = Eq.
Proof.
  intros Hxy Hyz. pose proof (cmp_antisym x y) as Hyx. pose proof (cmp_antisym y z) as Hzy.
  rewrite Hxy in Hyx. rewrite Hyz in Hzy. pose proof (cmp_trans x y z) as H1. pose proof (cmp_trans z y x) as H2.
  rewrite Hxy, Hyz in H1. rewrite Hyx, Hzy, (cmp_antisym x z) in H2.
  destruct (cmp x z); cbn in *; [done|exfalso; by apply H2|exfalso; by apply H1].
Qed.

(** Keys that compare equal compare alike to any third. *)
Lemma cmp_eq_l x y z : cmp x y = Eq -> cmp x z = cmp y z.
Proof.
  intros Hxy. pose proof (cmp_antisym x y) as Hyx. rewrite Hxy in Hyx. cbn in Hyx.
  pose proof (cmp_trans x y z) as H1. pose proof (cmp_trans y x z) as H2. rewrite Hxy in H1. rewrite Hyx in H2.
  pose proof (cmp_eq_trans x y z Hxy) as H3. pose proof (cmp_eq_trans y x z Hyx) as H4.
  destruct (cmp x z), (cmp y z); try done.
  - by specialize (H4 eq_refl).
  - by specialize (H4 eq_refl).
  - by specialize (H3 eq_refl).
  - exfalso. by apply H2.
  - by specialize (H3 eq_refl).
  - exfalso. by apply H1.
Qed.
End laws.

#[export] Instance Z_cmp : Cmp Z := Z.compare.
#[export] Instance Z_cmp_laws : CmpLaws Z.
Proof.
  split; unfold cmp, Z_cmp; [intros x y; apply Z.compare_antisym|]. intros x y z.
  change (x <= y -> y <= z -> x <= z). lia.
Qed.
#[export] Instance Z_cmp_eq : CmpEq Z.
Proof. intros x y. apply Z.compare_eq. Qed.

(** [false] before [true]. *)
#[export] Instance bool_cmp : Cmp bool := fun a b =>
  match a, b with false, true => Lt | true, false => Gt | _, _ => Eq end.
#[export] Instance bool_cmp_laws : CmpLaws bool.
Proof. split; [by intros [] []|by intros [] [] []]. Qed.
#[export] Instance bool_cmp_eq : CmpEq bool.
Proof. by intros [] []. Qed.

(** [String]'s order: bytes, lexicographically. *)
Fixpoint bytes_cmp (a b : list byte) : comparison :=
  match a, b with
  | [], [] => Eq
  | [], _ => Lt
  | _, [] => Gt
  | x :: a, y :: b => match Z.compare (b2z x) (b2z y) with Eq => bytes_cmp a b | c => c end
  end.
#[export] Instance bytes_Cmp : Cmp (list byte) := bytes_cmp.
#[export] Instance bytes_cmp_laws : CmpLaws (list byte).
Proof.
  split.
  - intros a. induction a as [|x a IH]; intros [|y b]; cbn; try done.
    rewrite Z.compare_antisym. destruct (b2z x ?= b2z y); cbn; auto.
  - intros a. induction a as [|x a IH]; intros [|y b] [|z c]; cbn; try done.
    destruct (Z.compare_spec (b2z x) (b2z y)), (Z.compare_spec (b2z y) (b2z z)), (Z.compare_spec (b2z x) (b2z z));
      try done; try lia. apply IH.
Qed.
#[export] Instance bytes_cmp_eq : CmpEq (list byte).
Proof.
  intros a. induction a as [|x a IH]; intros [|y b]; cbn; try done.
  destruct (Z.compare_spec (b2z x) (b2z y)) as [E%b2z_inj| |]; [|done|done]. intros ->%IH. by subst.
Qed.

(** Tuples compare component by component. *)
#[export] Instance pair_cmp `{Cmp A, Cmp B} : Cmp (A * B) := fun x y =>
  match cmp x.1 y.1 with Eq => cmp x.2 y.2 | c => c end.
#[export] Instance pair_cmp_laws `{CmpLaws A, CmpLaws B} : CmpLaws (A * B).
Proof.
  split.
  - intros [x x'] [y y']. unfold cmp, pair_cmp. cbn. rewrite (cmp_antisym x y).
    destruct (cmp x y) eqn:E; cbn; try done. apply cmp_antisym.
  - intros [x x'] [y y'] [z z']. unfold cmp, pair_cmp. cbn. intros Hxy Hyz.
    pose proof (cmp_trans x y z) as HT. destruct (cmp x y) eqn:E1.
    + rewrite (cmp_eq_l _ _ z E1). destruct (cmp y z) eqn:E2; [|done|done]. by eapply cmp_trans.
    + destruct (cmp y z) eqn:E2; [| |done].
      * assert (cmp z x = Gt) as Ezx.
        { rewrite <- (cmp_eq_l _ _ x E2), (cmp_antisym x y), E1. done. }
        rewrite (cmp_antisym z x), Ezx. done.
      * destruct (cmp x z) eqn:E3; [|done|by apply HT].
        rewrite (cmp_eq_l _ _ y E3), (cmp_antisym y z), E2 in E1. done.
    + done.
Qed.
#[export] Instance pair_cmp_eq `{CmpEq A, CmpEq B} : CmpEq (A * B).
Proof.
  intros [x x'] [y y']. unfold cmp, pair_cmp. cbn. destruct (cmp x y) eqn:E; try done.
  apply cmp_eq in E as ->. intros ->%cmp_eq. done.
Qed.

(** Comparing by a key. *)
Definition key_le {A K} `{Cmp K} (key : A -> K) (x y : A) : bool :=
  match cmp (key x) (key y) with Gt => false | _ => true end.

#[export] Instance key_le_total {A} `{CmpLaws K} (key : A -> K) : Total (fun x y => key_le key x y = true).
Proof.
  intros x y. unfold key_le. rewrite (cmp_antisym (key x) (key y)). destruct (cmp (key x) (key y)); cbn; auto.
Qed.
#[export] Instance key_le_trans {A} `{CmpLaws K} (key : A -> K) : Transitive (fun x y => key_le key x y = true).
Proof.
  intros x y z. unfold key_le. pose proof (cmp_trans (key x) (key y) (key z)) as HT.
  destruct (cmp (key x) (key y)), (cmp (key y) (key z)), (cmp (key x) (key z)); try done; intros; exfalso; by apply HT.
Qed.

(** * Stable sorting *)

(** A new element goes before the first one it may precede. *)
Fixpoint insert_by {A} (le : A -> A -> bool) (x : A) (l : list A) : list A :=
  match l with
  | [] => [x]
  | y :: l => if le x y then x :: y :: l else y :: insert_by le x l
  end.

(** [sort_by], stable: equal elements keep their order. *)
Definition sort_by {A} (le : A -> A -> bool) (l : list A) : list A := foldr (insert_by le) [] l.

(** [sort_by_key]. *)
Definition sort_by_key {A K} `{Cmp K} (key : A -> K) (l : list A) : list A := sort_by (key_le key) l.

Section sorting.
Context {A : Type} (le : A -> A -> bool).

Lemma insert_by_perm x l : insert_by le x l ≡ₚ x :: l.
Proof. induction l as [|y l IH]; cbn; [done|]. destruct (le x y); [done|]. rewrite IH. apply Permutation_swap. Qed.

Lemma sort_by_perm l : sort_by le l ≡ₚ l.
Proof. induction l as [|x l IH]; cbn; [done|]. by rewrite insert_by_perm, IH. Qed.

Lemma elem_of_sort_by x l : x ∈ sort_by le l <-> x ∈ l.
Proof. by rewrite sort_by_perm. Qed.

Lemma sort_by_fixed l : StronglySorted (fun x y => le x y = true) l -> sort_by le l = l.
Proof.
  induction 1 as [|x l HS IH HF]; [done|]. cbn. fold (sort_by le l). rewrite IH.
  destruct HF as [|y l Hy HF]; [done|]. cbn. by rewrite Hy.
Qed.

Context `{!Total (fun x y => le x y = true), !Transitive (fun x y => le x y = true)}.

Lemma sort_by_sorted l : StronglySorted (fun x y => le x y = true) (sort_by le l).
Proof.
  induction l as [|x l IH]; [constructor|]. cbn. fold (sort_by le l).
  revert IH. generalize (sort_by le l). intros k0.
  induction 1 as [|y k HS IH HF]; cbn; [repeat constructor|].
  destruct (le x y) eqn:E.
  - constructor; [by constructor|]. constructor; [done|]. eapply Forall_impl; [exact HF|]. cbn. intros u. exact (transitivity (R := fun x y => le x y = true) E).
  - constructor; [done|]. rewrite Forall_forall in *. intros u Hu. rewrite insert_by_perm in Hu.
    apply elem_of_cons in Hu as [->|Hu]; [|by apply HF]. destruct (total (fun x y => le x y = true) x y); [congruence|done].
Qed.

(** The first element comes before every other. *)
Lemma sort_by_head x k l : sort_by le l = x :: k -> forall y, y ∈ l -> le x y = true.
Proof.
  intros E y Hy. rewrite <- elem_of_sort_by, E in Hy. pose proof (sort_by_sorted l) as HS. rewrite E in HS.
  apply StronglySorted_inv in HS as [_ HF]. apply elem_of_cons in Hy as [->|Hy].
  - by destruct (total (fun x y => le x y = true) x x).
  - rewrite Forall_forall in HF. by apply HF.
Qed.
End sorting.

#[export] Hint Resolve sort_by_perm sort_by_sorted : ket.

(** [Iterator::min_by_key]: the first of the least elements. *)
Fixpoint min_by_key {A K} `{Cmp K} (key : A -> K) (l : list A) : option A :=
  match l with
  | [] => None
  | x :: l =>
    match min_by_key key l with
    | None => Some x
    | Some y => if key_le key x y then Some x else Some y
    end
  end.

Section min.
Context {A : Type} `{CmpLaws K} (key : A -> K).

Lemma min_by_key_none l : min_by_key key l = None <-> l = [].
Proof. destruct l as [|x l]; cbn; [done|]. destruct (min_by_key key l); [destruct (key_le key x a)|]; done. Qed.

Lemma min_by_key_some l x :
  min_by_key key l = Some x -> x ∈ l /\ forall y, y ∈ l -> key_le key x y = true.
Proof.
  revert x; induction l as [|y l IH]; intros x; cbn; [done|].
  destruct (min_by_key key l) as [z|] eqn:E.
  - destruct (IH z eq_refl) as [Hz HF]. destruct (key_le key y z) eqn:Ek; intros [= <-].
    + split; [left|]. intros u [->|Hu]%elem_of_cons; [by destruct (key_le_total key y y)|].
      eapply (key_le_trans key); [exact Ek|by apply HF].
    + split; [by right|]. intros u [->|Hu]%elem_of_cons; [|by apply HF].
      destruct (key_le_total key y z); [congruence|done].
  - intros [= <-]. apply min_by_key_none in E as ->. split; [left|]. intros u [->|Hu]%elem_of_cons; [|by apply not_elem_of_nil in Hu].
    by destruct (key_le_total key y y).
Qed.
End min.

(** [Vec::dedup]: of neighbours that are equal, the first stays. *)
Fixpoint dedup {A} `{EqDecision A} (l : list A) : list A :=
  match l with
  | [] => []
  | x :: l =>
    match dedup l with
    | [] => [x]
    | y :: k => if bool_decide (x = y) then y :: k else x :: y :: k
    end
  end.

Section dedup.
Context {A : Type} `{EqDecision A}.

Lemma dedup_elem (l : list A) x : x ∈ dedup l <-> x ∈ l.
Proof.
  induction l as [|y l IH]; cbn; [done|].
  destruct (dedup l) as [|z k]; [|case_bool_decide]; set_solver.
Qed.

Lemma dedup_sublist (l : list A) : dedup l `sublist_of` l.
Proof.
  induction l as [|y l IH]; cbn; [done|]. destruct (dedup l) as [|z k]; [by apply sublist_skip, sublist_nil_l|].
  case_bool_decide; [by apply sublist_cons|by apply sublist_skip].
Qed.

(** A sorted list has no duplicate left. *)
Lemma dedup_strict (R : A -> A -> Prop) (l : list A) :
  (forall x y, R x y -> R y x -> x = y) -> StronglySorted R l -> NoDup (dedup l).
Proof.
  intros HA HS. induction HS as [|x l HS IH HF]; cbn; [constructor|].
  assert (forall y, y ∈ dedup l -> R x y) as HR.
  { intros y Hy. rewrite dedup_elem in Hy. rewrite Forall_forall in HF. by apply HF. }
  destruct (dedup l) as [|z k] eqn:E; [apply NoDup_singleton|].
  case_bool_decide as Hxz; [done|]. apply NoDup_cons. split; [|done]. intros [?|Hk]%elem_of_cons; [done|].
  apply Hxz. apply HA; [apply HR; left|].
  assert (StronglySorted R (dedup l)) as HS'.
  { clear -HS. induction HS as [|u l HS IH HF]; cbn; [constructor|]. destruct (dedup l) as [|v m] eqn:E; [repeat constructor|].
    case_bool_decide; [done|]. constructor; [done|]. rewrite Forall_forall in *. intros w Hw. apply HF.
    rewrite <- dedup_elem, E. done. }
  rewrite E in HS'. apply StronglySorted_inv in HS' as [_ HF']. rewrite Forall_forall in HF'. by apply HF'.
Qed.
End dedup.
