(* ===== verification/Utf8.v ===== *)
(** Rust's [str] as UTF-8 bytes: the validity test of [std::str::from_utf8],
    the code points of a string, and the character classes the sources use. *)

From Stdlib Require Import ZArith Lia.
From S2P Require Import Prelude.

(** One well-formed UTF-8 sequence at the front of [s]: the code point and
    what follows it.  The ranges are those [core::str] validates: no overlong
    form, no surrogate, nothing above U+10FFFF. *)
Definition next_char (s : list byte) : option (Z * list byte) :=
  let cont b := (0x80 <=? b) && (b <=? 0xbf) in
  match s with
  | [] => None
  | a :: s1 =>
    let a := b2z a in
    if a <? 0x80 then Some (a, s1)
    else match s1 with
    | [] => None
    | b :: s2 =>
      let b := b2z b in
      if (0xc2 <=? a) && (a <=? 0xdf) then
        if cont b then Some ((a - 0xc0) * 64 + (b - 0x80), s2) else None
      else match s2 with
      | [] => None
      | c :: s3 =>
        let c := b2z c in
        if (0xe0 <=? a) && (a <=? 0xef) then
          if cont b && cont c &&
             ((negb (a =? 0xe0)) || (0xa0 <=? b)) &&
             ((negb (a =? 0xed)) || (b <=? 0x9f))
          then Some ((a - 0xe0) * 4096 + (b - 0x80) * 64 + (c - 0x80), s3) else None
        else match s3 with
        | [] => None
        | d :: s4 =>
          let d := b2z d in
          if (0xf0 <=? a) && (a <=? 0xf4) && cont b && cont c && cont d &&
             ((negb (a =? 0xf0)) || (0x90 <=? b)) &&
             ((negb (a =? 0xf4)) || (b <=? 0x8f))
          then Some ((a - 0xf0) * 262144 + (b - 0x80) * 4096 + (c - 0x80) * 64 + (d - 0x80), s4)
          else None
        end
      end
    end
  end.

Fixpoint decode_fuel (fuel : nat) (s : list byte) : option (list Z) :=
  match fuel with
  | O => match s with [] => Some [] | _ => None end
  | S fuel =>
    match s with
    | [] => Some []
    | _ =>
      match next_char s with
      | Some (c, s) => match decode_fuel fuel s with Some cs => Some (c :: cs) | None => None end
      | None => None
      end
    end
  end.

(** [str::from_utf8] followed by [chars()]: every sequence has at least one
    byte, so as many rounds as there are bytes suffice. *)
Definition chars (s : list byte) : option (list Z) := decode_fuel (length s) s.

(** [std::str::from_utf8(..).is_ok()]. *)
Definition valid_utf8 (s : list byte) : bool :=
  match chars s with Some _ => true | None => false end.

(** [char::len_utf8] and the bytes of one [char]. *)
Definition encode_char (c : Z) : list byte :=
  if c <? 0x80 then [z2b c]
  else if c <? 0x800 then [z2b (0xc0 + c / 64); z2b (0x80 + c mod 64)]
  else if c <? 0x10000 then
    [z2b (0xe0 + c / 4096); z2b (0x80 + c / 64 mod 64); z2b (0x80 + c mod 64)]
  else [z2b (0xf0 + c / 262144); z2b (0x80 + c / 4096 mod 64);
        z2b (0x80 + c / 64 mod 64); z2b (0x80 + c mod 64)].

Definition encode_chars (cs : list Z) : list byte := flat_map encode_char cs.

(** A Unicode scalar value, the range of [char]. *)
Definition is_char (c : Z) : bool :=
  ((0 <=? c) && (c <? 0xd800)) || ((0xe000 <=? c) && (c <=? 0x10ffff)).

(** [char::is_control]: general category Cc. *)
Definition is_control (c : Z) : bool := (c <=? 0x1f) || ((0x7f <=? c) && (c <=? 0x9f)).

(** [char::is_whitespace]: the White_Space property. *)
Definition is_whitespace (c : Z) : bool :=
  ((9 <=? c) && (c <=? 13)) || (c =? 0x20) || (c =? 0x85) || (c =? 0xa0) ||
  (c =? 0x1680) || ((0x2000 <=? c) && (c <=? 0x200a)) ||
  (c =? 0x2028) || (c =? 0x2029) || (c =? 0x202f) || (c =? 0x205f) || (c =? 0x3000).

(** ASCII classes of [u8]. *)
Definition is_ascii_digit (b : byte) : bool := (48 <=? b2z b) && (b2z b <=? 57).
Definition is_ascii_lowercase (b : byte) : bool := (97 <=? b2z b) && (b2z b <=? 122).
Definition is_ascii_uppercase (b : byte) : bool := (65 <=? b2z b) && (b2z b <=? 90).
Definition is_ascii_alphabetic (b : byte) : bool := is_ascii_lowercase b || is_ascii_uppercase b.
Definition is_ascii_alphanumeric (b : byte) : bool := is_ascii_alphabetic b || is_ascii_digit b.
Definition is_ascii (b : byte) : bool := b2z b <? 128.
(** U+0020, U+0009, U+000A, U+000C and U+000D. *)
Definition is_ascii_whitespace (b : byte) : bool :=
  (b2z b =? 32) || (b2z b =? 9) || (b2z b =? 10) || (b2z b =? 12) || (b2z b =? 13).
Definition to_ascii_uppercase (b : byte) : byte :=
  if is_ascii_lowercase b then z2b (b2z b - 32) else b.
Definition to_ascii_lowercase (b : byte) : byte :=
  if is_ascii_uppercase b then z2b (b2z b + 32) else b.

(** [str::trim]: leading and trailing White_Space characters removed. *)
Fixpoint trim_start (cs : list Z) : list Z :=
  match cs with
  | c :: cs => if is_whitespace c then trim_start cs else c :: cs
  | [] => []
  end.
Definition trim_chars (cs : list Z) : list Z := rev (trim_start (rev (trim_start cs))).
Definition trim (s : list byte) : list byte :=
  match chars s with Some cs => encode_chars (trim_chars cs) | None => s end.

(** * Round trips *)

#[local] Ltac Zify.zify_post_hook ::= Z.div_mod_to_equations.

Lemma next_char_encode c r :
  is_char c = true -> next_char (encode_char c ++ r) = Some (c, r).
Proof.
  unfold is_char, encode_char. intros H.
  repeat case_match; bool_prop;
    repeat match goal with Hx : orb _ _ = true |- _ => apply orb_true_iff in Hx as [?|?]; bool_prop end;
    cbn [app next_char]; rewrite ?b2z_z2b_small by lia;
    repeat match goal with
    | |- context [?a <? ?b] => destruct (Z.ltb_spec a b); try lia
    | |- context [?a <=? ?b] => destruct (Z.leb_spec a b); try lia
    | |- context [?a =? ?b] => destruct (Z.eqb_spec a b); try lia
    end; cbn [andb orb negb]; f_equal; f_equal; lia.
Qed.

Lemma next_char_inv s c r :
  next_char s = Some (c, r) -> is_char c = true /\ s = encode_char c ++ r.
Proof.
  intros H. destruct s as [|a s]; [done|]. cbn [next_char] in H.
  pose proof (b2z_bound a).
  break_in H; injection H as <- <-; bool_prop;
    repeat match goal with b : byte |- _ =>
      lazymatch goal with
      | _ : 0 <= b2z b < 256 |- _ => fail
      | _ => pose proof (b2z_bound b)
      end end;
    repeat match goal with Hx : orb _ _ = true |- _ => apply orb_true_iff in Hx as [?|?]; bool_prop end;
    unfold is_char, encode_char;
    repeat match goal with
    | |- context [?a <? ?b] => destruct (Z.ltb_spec a b); try lia
    | |- context [?a <=? ?b] => destruct (Z.leb_spec a b); try lia
    end; (split; [done|]); cbn [app];
    repeat (apply (f_equal2 cons); [apply b2z_inj; rewrite b2z_z2b_small by lia; lia|]); done.
Qed.

Lemma encode_char_length c : (1 <= length (encode_char c))%nat.
Proof. unfold encode_char. repeat case_match; simpl; lia. Qed.

Lemma decode_fuel_encode cs n :
  Forall (fun c => is_char c = true) cs -> (length (encode_chars cs) <= n)%nat ->
  decode_fuel n (encode_chars cs) = Some cs.
Proof.
  intros Hcs. revert n; induction Hcs as [|c cs Hc _ IH]; intros n Hn; [by destruct n|].
  simpl in *. rewrite length_app in Hn. pose proof (encode_char_length c).
  destruct n as [|n]; [lia|]. simpl.
  destruct (encode_char c ++ encode_chars cs) as [|b s] eqn:E.
  { destruct (encode_char c); simpl in *; [lia|done]. }
  rewrite <- E, next_char_encode by done. by rewrite IH by lia.
Qed.

(** Decoding the UTF-8 encoding of scalar values gives them back. *)
Lemma chars_encode cs :
  Forall (fun c => is_char c = true) cs -> chars (encode_chars cs) = Some cs.
Proof. intros. by apply decode_fuel_encode. Qed.

Lemma decode_fuel_inv n s cs :
  decode_fuel n s = Some cs ->
  Forall (fun c => is_char c = true) cs /\ s = encode_chars cs.
Proof.
  revert s cs; induction n as [|n IH]; intros s cs H; simpl in H.
  - destruct s; [|done]. injection H as <-. done.
  - destruct s as [|b s]; [by injection H as <-|].
    destruct (next_char (b :: s)) as [[c r]|] eqn:Hc; [|done].
    destruct (decode_fuel n r) as [cs'|] eqn:Hr; [|done]. injection H as <-.
    apply next_char_inv in Hc as [? ->]. apply IH in Hr as [? ->].
    split; [by constructor|done].
Qed.

(** Every valid UTF-8 string is the encoding of its characters. *)
Lemma chars_inv s cs :
  chars s = Some cs -> Forall (fun c => is_char c = true) cs /\ s = encode_chars cs.
Proof. apply decode_fuel_inv. Qed.

Lemma encode_chars_app cs ds : encode_chars (cs ++ ds) = encode_chars cs ++ encode_chars ds.
Proof. unfold encode_chars. by rewrite flat_map_app. Qed.

Lemma chars_ascii s :
  forallb is_ascii s = true -> chars s = Some (map b2z s).
Proof.
  intros Hs. assert (encode_chars (map b2z s) = s /\ Forall (fun c => is_char c = true) (map b2z s)) as [He Hf].
  { induction s as [|b s IH]; [done|]. simpl in Hs. apply andb_true_iff in Hs as [Hb Hs].
    unfold is_ascii in Hb. bool_prop. destruct (IH Hs) as [IH1 IH2]. pose proof (b2z_bound b). split.
    - simpl. rewrite IH1. unfold encode_char. rewrite (proj2 (Z.ltb_lt _ _)) by lia.
      simpl. by rewrite z2b_b2z.
    - constructor; [|done]. unfold is_char.
      by rewrite (proj2 (Z.leb_le _ _)), (proj2 (Z.ltb_lt _ _)) by lia. }
  rewrite <- He at 1. by apply chars_encode.
Qed.

Lemma valid_utf8_ascii s : forallb is_ascii s = true -> valid_utf8 s = true.
Proof. intros. unfold valid_utf8. by rewrite chars_ascii. Qed.

Lemma alphanumeric_ascii b : is_ascii_alphanumeric b = true -> is_ascii b = true.
Proof.
  unfold is_ascii_alphanumeric, is_ascii_alphabetic, is_ascii_lowercase, is_ascii_uppercase, is_ascii_digit, is_ascii.
  intros H. repeat (apply orb_true_iff in H as [H|H]); bool_prop; apply Z.ltb_lt; lia.
Qed.

Lemma forallb_impl {A} (p q : A -> bool) l :
  (forall x, p x = true -> q x = true) -> forallb p l = true -> forallb q l = true.
Proof. rewrite !forallb_forall. eauto. Qed.

(** * Splitting *)

(** [str::split(sep)]: always at least one piece. *)
Fixpoint split_on (sep : byte) (s : list byte) : list (list byte) :=
  match s with
  | [] => [[]]
  | b :: s =>
    if bool_decide (b = sep) then [] :: split_on sep s
    else match split_on sep s with
         | l :: ls => (b :: l) :: ls
         | [] => [[b]]
         end
  end.

Definition dot : byte := z2b 46.
Definition hyphen : byte := z2b 45.
Definition colon : byte := z2b 58.

(** The pieces joined by the separator. *)
Fixpoint join (sep : byte) (pieces : list (list byte)) : list byte :=
  match pieces with
  | [] => []
  | [p] => p
  | p :: ps => p ++ sep :: join sep ps
  end.

Lemma split_on_nonempty sep s : split_on sep s <> [].
Proof. destruct s as [|b s]; cbn; [done|]. case_bool_decide; [done|]. by destruct (split_on sep s). Qed.

Lemma join_split sep s : join sep (split_on sep s) = s.
Proof.
  induction s as [|b s IH]; [done|]. cbn [split_on]. pose proof (split_on_nonempty sep s) as Hne.
  case_bool_decide as Hb.
  - subst b. destruct (split_on sep s) as [|p ps]; [done|].
    change (join sep ([] :: p :: ps)) with (sep :: join sep (p :: ps)). by rewrite IH.
  - destruct (split_on sep s) as [|p [|q ps]]; [done|cbn in *; by rewrite IH|].
    change (join sep ((b :: p) :: q :: ps)) with (b :: join sep (p :: q :: ps)). by rewrite IH.
Qed.

Lemma split_on_app sep p s : sep ∉ p -> split_on sep (p ++ sep :: s) = p :: split_on sep s.
Proof.
  induction p as [|b p IH]; intros Hp; cbn [app split_on].
  - by rewrite bool_decide_true.
  - rewrite bool_decide_false by (intros ->; apply Hp; left). rewrite IH by (intros ?; apply Hp; by right). done.
Qed.

Lemma split_on_single sep p : sep ∉ p -> split_on sep p = [p].
Proof.
  induction p as [|b p IH]; intros Hp; cbn [split_on]; [done|].
  rewrite bool_decide_false by (intros ->; apply Hp; left). rewrite IH by (intros ?; apply Hp; by right). done.
Qed.
