(* ===== verification/Str.v ===== *)
(** Operations of Rust's [str] the sources use - prefixes, suffixes, splitting,
    boundaries, comparison without case - and decimal numbers as text. *)

From Stdlib Require Import ZArith Lia.
From S2P Require Import Prelude Utf8.

(** * Prefixes and suffixes *)

(** [str::starts_with] and [ends_with] of an ASCII character. *)
Definition starts_with (b : byte) (s : list byte) : bool :=
  match s with c :: _ => bool_decide (c = b) | [] => false end.
Definition ends_with_byte (b : byte) (s : list byte) : bool :=
  match last s with Some c => bool_decide (c = b) | None => false end.
(** [str::ends_with] and [str::strip_suffix]. *)
Definition ends_with (s suffix : list byte) : bool :=
  bool_decide (drop (length s - length suffix) s = suffix).
Definition strip_suffix (s suffix : list byte) : option (list byte) :=
  if ends_with s suffix then Some (take (length s - length suffix) s) else None.

(** [str::is_char_boundary], [get(..n)] and [get(n..)]. *)
Definition is_char_boundary (s : list byte) (n : nat) : bool :=
  match s !! n with
  | Some b => negb ((0x80 <=? b2z b) && (b2z b <? 0xc0))
  | None => (n =? length s)%nat
  end.
Definition get_to (s : list byte) (n : nat) : option (list byte) :=
  if is_char_boundary s n then Some (take n s) else None.
Definition get_from (s : list byte) (n : nat) : option (list byte) :=
  if is_char_boundary s n then Some (drop n s) else None.

(** [str::strip_prefix(..).unwrap_or(input)]. *)
Definition strip_prefix_or (prefix s : list byte) : list byte :=
  if bool_decide (take (length prefix) s = prefix) then drop (length prefix) s else s.

(** [str::eq_ignore_ascii_case]. *)
Definition eq_ignore_ascii_case (a b : list byte) : bool :=
  bool_decide (map to_ascii_lowercase a = map to_ascii_lowercase b).

(** * Splitting *)

(** [trim_start_matches], [trim_end_matches] and [trim_matches] of a set of
    ASCII bytes. *)
Fixpoint trim_start_matches (p : byte -> bool) (s : list byte) : list byte :=
  match s with b :: r => if p b then trim_start_matches p r else s | [] => [] end.
Definition trim_end_matches (p : byte -> bool) (s : list byte) : list byte := rev (trim_start_matches p (rev s)).
Definition trim_matches (p : byte -> bool) (s : list byte) : list byte :=
  trim_end_matches p (trim_start_matches p s).

Lemma trim_start_matches_suffix p s : exists a, s = a ++ trim_start_matches p s.
Proof.
  induction s as [|b s [a IH]]; [by exists []|]. cbn. destruct (p b); [exists (b :: a); cbn; by rewrite <- IH|by exists []].
Qed.

Lemma trim_matches_inside p s : exists a b, s = a ++ trim_matches p s ++ b.
Proof.
  destruct (trim_start_matches_suffix p s) as [a Ha]. destruct (trim_start_matches_suffix p (rev (trim_start_matches p s))) as [c Hc].
  exists a, (rev c). rewrite Ha at 1. f_equal. unfold trim_matches, trim_end_matches. rewrite <- rev_app_distr, <- Hc. by rewrite rev_involutive.
Qed.

(** [str::split_once]. *)
Fixpoint split_once (sep : byte) (s : list byte) : option (list byte * list byte) :=
  match s with
  | [] => None
  | b :: s =>
    if bool_decide (b = sep) then Some ([], s)
    else match split_once sep s with Some (l, r) => Some (b :: l, r) | None => None end
  end.

Lemma split_once_app sep a b : sep ∉ a -> split_once sep (a ++ sep :: b) = Some (a, b).
Proof.
  induction a as [|x a IH]; intros Ha; cbn.
  - by rewrite bool_decide_true.
  - rewrite bool_decide_false by (intros ->; apply Ha; left). rewrite IH by (intros ?; apply Ha; by right). done.
Qed.

(** Splitting at a separator, wherever it is. *)
Lemma split_on_sep sep p s : split_on sep (p ++ sep :: s) = split_on sep p ++ split_on sep s.
Proof.
  induction p as [|b p IH]; cbn [app split_on]; [by rewrite bool_decide_true|]. rewrite IH. case_bool_decide; [done|].
  pose proof (split_on_nonempty sep p). by destruct (split_on sep p).
Qed.

Lemma split_on_last sep p s : sep ∉ s -> last (split_on sep (p ++ sep :: s)) = Some s.
Proof. intros Hs. by rewrite split_on_sep, (split_on_single sep s), last_snoc. Qed.

(** No piece has the separator. *)
Lemma split_on_free sep s x : x ∈ split_on sep s -> sep ∉ x.
Proof.
  revert x; induction s as [|b s IH]; intros x; cbn [split_on]; [rewrite list_elem_of_singleton; intros ->; apply not_elem_of_nil|].
  case_bool_decide as Hb.
  - intros [->|Hx]%elem_of_cons; [apply not_elem_of_nil|by apply IH].
  - destruct (split_on sep s) as [|y l]; [rewrite list_elem_of_singleton; intros ->; set_solver|].
    intros [->|Hx]%elem_of_cons; [|apply IH; by right]. rewrite not_elem_of_cons. split; [done|]. apply IH. left.
Qed.

(** * Decimal numbers *)

(** The number a string of digits denotes. *)
Definition parse_digits (s : list byte) : Z := fold_left (fun acc b => acc * 10 + (b2z b - 48)) s 0.
(** [parse::<u8>] and the like, of a string already known to be digits: the
    value, unless it exceeds the type's largest. *)
Definition parse_unsigned (max : Z) (s : list byte) : option Z :=
  if bool_decide (s = []) then None
  else if forallb is_ascii_digit s then (if parse_digits s <=? max then Some (parse_digits s) else None) else None.

#[local] Ltac Zify.zify_post_hook ::= Z.div_mod_to_equations.

(** Digits without a needless leading zero. *)
Definition canonical_digits (s : list byte) : Prop :=
  s <> [] /\ forallb is_ascii_digit s = true /\ (1 < zlen s -> exists b r, s = b :: r /\ b2z b <> 48).

Lemma digit_value b : is_ascii_digit b = true -> 0 <= b2z b - 48 <= 9.
Proof. unfold is_ascii_digit. lia. Qed.

Lemma parse_digits_snoc s b : parse_digits (s ++ [b]) = parse_digits s * 10 + (b2z b - 48).
Proof. unfold parse_digits. by rewrite fold_left_app. Qed.

Lemma parse_digits_bound s : forallb is_ascii_digit s = true -> 0 <= parse_digits s < 10 ^ zlen s.
Proof.
  induction s as [|b s IH] using rev_ind; [done|]. rewrite forallb_app. cbn. rewrite andb_true_r.
  intros [Hs Hb]%andb_true_iff. specialize (IH Hs). apply digit_value in Hb.
  rewrite parse_digits_snoc, zlen_app. change (zlen [b]) with 1. rewrite Z.pow_add_r by (unfold zlen; lia). lia.
Qed.

Lemma parse_digits_pos b s :
  forallb is_ascii_digit (b :: s) = true -> b2z b <> 48 -> 1 <= parse_digits (b :: s).
Proof.
  induction s as [|c s IH] using rev_ind; intros HF Hb.
  - cbn in *. rewrite andb_true_r in HF. apply digit_value in HF. lia.
  - change (b :: s ++ [c]) with ((b :: s) ++ [c]) in *. rewrite forallb_app in HF. apply andb_true_iff in HF as [HF Hc].
    rewrite parse_digits_snoc. specialize (IH HF Hb). cbn in Hc. rewrite andb_true_r in Hc. apply digit_value in Hc. lia.
Qed.

(** Printing the value of canonical digits gives them back. *)
Lemma dec_digits_parse fuel s acc :
  canonical_digits s -> zlen s <= Z.of_nat fuel -> dec_digits fuel (parse_digits s) acc = s ++ acc.
Proof.
  revert s acc. induction fuel as [|fuel IH]; intros s acc (Hne & HF & Hlead) Hl.
  - destruct s; [done|]. unfold zlen in Hl. cbn in Hl. lia.
  - destruct s as [|b s _] using rev_ind; [done|]. rewrite forallb_app in HF. apply andb_true_iff in HF as [HF Hb].
    cbn in Hb. rewrite andb_true_r in Hb. pose proof (digit_value b Hb) as Hd. rewrite parse_digits_snoc. cbn [dec_digits].
    assert ((parse_digits s * 10 + (b2z b - 48)) mod 10 = b2z b - 48) as -> by lia.
    replace (48 + (b2z b - 48)) with (b2z b) by lia. rewrite z2b_b2z.
    assert ((parse_digits s * 10 + (b2z b - 48)) / 10 = parse_digits s) as -> by lia.
    destruct s as [|c s].
    + cbn. rewrite (proj2 (Z.ltb_lt _ _)) by lia. done.
    + assert (canonical_digits (c :: s)) as Hc.
      { split_and!; [done|done|]. intros _. destruct Hlead as (x & r & [= <- _] & Hx).
        - unfold zlen. rewrite length_app. cbn. lia.
        - by exists c, s. }
      assert (1 <= parse_digits (c :: s)) as Hp.
      { apply parse_digits_pos; [done|]. destruct Hlead as (x & r & [= <- _] & Hx); [|done].
        unfold zlen. rewrite length_app. cbn. lia. }
      rewrite (proj2 (Z.ltb_ge _ _)) by lia. rewrite IH; [by rewrite <- app_assoc|done|].
      rewrite zlen_app in Hl. change (zlen [b]) with 1 in Hl. lia.
Qed.

(** Every number has canonical digits. *)
Lemma canonical_digits_exist (k : nat) n :
  0 <= n < 10 ^ Z.of_nat (S k) -> exists s, canonical_digits s /\ zlen s <= Z.of_nat (S k) /\ parse_digits s = n.
Proof.
  revert n. induction k as [|k IH]; intros n Hn.
  - change (10 ^ Z.of_nat 1) with 10 in Hn. exists [z2b (48 + n)].
    assert (b2z (z2b (48 + n)) = 48 + n) as E by (apply b2z_z2b_small; lia).
    unfold canonical_digits, parse_digits, is_ascii_digit, zlen. cbn -[b2z z2b]. rewrite E. split_and!; [done|lia|lia|lia|lia].
  - destruct (Z.lt_ge_cases n 10) as [Hs|Hs].
    + exists [z2b (48 + n)]. assert (b2z (z2b (48 + n)) = 48 + n) as E by (apply b2z_z2b_small; lia).
      unfold canonical_digits, parse_digits, is_ascii_digit, zlen. cbn -[b2z z2b Z.of_nat]. rewrite E. split_and!; [done|lia|lia|lia|lia].
    + rewrite Nat2Z.inj_succ, Z.pow_succ_r in Hn by lia.
      destruct (IH (n / 10)) as (s & (Hne & HF & Hlead) & Hl & Hp); [lia|].
      exists (s ++ [z2b (48 + n mod 10)]).
      assert (b2z (z2b (48 + n mod 10)) = 48 + n mod 10) as E by (apply b2z_z2b_small; lia).
      unfold canonical_digits. split_and!.
      * by intros [_ ?]%app_nil.
      * rewrite forallb_app, HF. cbn -[b2z z2b]. unfold is_ascii_digit. rewrite E. lia.
      * intros _. destruct s as [|b s]; [done|]. exists b, (s ++ [z2b (48 + n mod 10)]). split; [done|].
        destruct s as [|c s]; [|destruct Hlead as (x & r & [= <- _] & Hx); [unfold zlen; cbn; lia|done]].
        cbn in Hp. intros Hb. lia.
      * rewrite zlen_app. change (zlen [_]) with 1. lia.
      * rewrite parse_digits_snoc, Hp, E. lia.
Qed.

(** A number below 10^9 prints as canonical digits that read back as it. *)
Lemma show_u64_digits n :
  0 <= n < 10 ^ 9 -> canonical_digits (show_u64 n) /\ zlen (show_u64 n) <= 9 /\ parse_digits (show_u64 n) = n.
Proof.
  intros Hn. destruct (canonical_digits_exist 8 n Hn) as (s & Hc & Hl & <-).
  unfold show_u64. rewrite dec_digits_parse; [|done|]; [|lia]. rewrite app_nil_r. done.
Qed.

Lemma show_u64_parse s : canonical_digits s -> zlen s <= 9 -> show_u64 (parse_digits s) = s.
Proof. intros Hc Hl. unfold show_u64. rewrite dec_digits_parse; [apply app_nil_r|done|lia]. Qed.

