(* ===== verification/Net.v ===== *)
(** IP addresses as the standard library has them: [std::net::IpAddr] with its
    classes, the parser of [core::net::parser] and [Display], and that what is
    displayed is parsed back. *)

From Stdlib Require Import ZArith Lia.
From stdpp Require Import strings.
From S2P Require Import Prelude Order Utf8 Str.

(** * Addresses *)

(** An address is its number: [u32::from] of an [Ipv4Addr], [u128::from] of an
    [Ipv6Addr]. *)
Inductive IpAddr := V4 (bits : Z) | V6 (bits : Z).

Global Instance IpAddr_eq_dec : EqDecision IpAddr.
Proof. solve_decision. Defined.
Global Instance IpAddr_countable : Countable IpAddr.
Proof.
  refine (inj_countable' (fun a => match a with V4 n => inl n | V6 n => inr n end)
    (fun s => match s with inl n => V4 n | inr n => V6 n end) _). by intros [].
Defined.

Definition width (a : IpAddr) : Z := match a with V4 _ => 32 | V6 _ => 128 end.
Definition bits (a : IpAddr) : Z := match a with V4 n | V6 n => n end.
Definition same_family (a b : IpAddr) : bool := match a, b with V4 _, V4 _ | V6 _, V6 _ => true | _, _ => false end.
Definition is_ipv4 (a : IpAddr) : bool := match a with V4 _ => true | V6 _ => false end.
Definition addr_ok (a : IpAddr) : Prop := 0 <= bits a < 2 ^ width a.

(** [Ipv4Addr::new] and [octets], [Ipv6Addr::segments] and back. *)
Definition ipv4 (a b c d : Z) : Z := ((a * 256 + b) * 256 + c) * 256 + d.
Definition octet (i : Z) (n : Z) : Z := n / 256 ^ (3 - i) mod 256.
Definition segment (n i : Z) : Z := n / 65536 ^ (7 - i) mod 65536.
Definition segments (n : Z) : list Z := map (segment n) [0; 1; 2; 3; 4; 5; 6; 7].
Definition from_segments (l : list Z) : Z := fold_left (fun acc s => acc * 65536 + s) l 0.

(** [to_ipv4_mapped]: ::ffff:a.b.c.d. *)
Definition to_ipv4_mapped (n : Z) : option Z := if n / 2 ^ 32 =? 0xffff then Some (n mod 2 ^ 32) else None.

(** [is_loopback], [is_multicast], [is_unspecified], [is_broadcast] and
    [is_private]. *)
Definition v4_loopback (n : Z) : bool := octet 0 n =? 127.
Definition v4_multicast (n : Z) : bool := (224 <=? octet 0 n) && (octet 0 n <=? 239).
Definition v4_unspecified (n : Z) : bool := n =? 0.
Definition v4_broadcast (n : Z) : bool := n =? ipv4 255 255 255 255.
Definition v4_private (n : Z) : bool :=
  (octet 0 n =? 10) || ((octet 0 n =? 172) && (16 <=? octet 1 n) && (octet 1 n <=? 31))
  || ((octet 0 n =? 192) && (octet 1 n =? 168)).
Definition v6_loopback (n : Z) : bool := n =? 1.
Definition v6_multicast (n : Z) : bool := Z.land (segment n 0) 0xff00 =? 0xff00.
Definition v6_unspecified (n : Z) : bool := n =? 0.

(** [IpAddr]'s order: IPv4 first, then by number. *)
Global Instance IpAddr_cmp : Cmp IpAddr := fun a b =>
  cmp (negb (is_ipv4 a), bits a) (negb (is_ipv4 b), bits b).
Global Instance IpAddr_cmp_laws : CmpLaws IpAddr.
Proof.
  split.
  - intros a b. apply (cmp_antisym (_, _) (_, _)).
  - intros a b c. apply (cmp_trans (_, _) (_, _) (_, _)).
Qed.
Global Instance IpAddr_cmp_eq : CmpEq IpAddr.
Proof. intros a b E. apply (cmp_eq (_, _) (_, _)) in E. destruct a, b; by simplify_eq/=. Qed.

(** * Parsing *)

(** A parser consumes a prefix of the text; [None] leaves it unread, as
    [read_atomically] does. *)
Definition parser (A : Type) := list byte -> option (A * list byte).

Definition read_given_char (c : byte) : parser unit := fun s =>
  match s with b :: s => if bool_decide (b = c) then Some (tt, s) else None | [] => None end.

(** [char::to_digit] for radix 10 and 16. *)
Definition to_digit (radix : Z) (b : byte) : option Z :=
  let v := if is_ascii_digit b then b2z b - 48
           else if is_ascii_lowercase b then b2z b - 87
           else if is_ascii_uppercase b then b2z b - 55 else radix in
  if v <? radix then Some v else None.

(** The digits at the front of [s]: their number, their value, and the rest. *)
Fixpoint read_digits (radix : Z) (s : list byte) (count value : Z) : Z * Z * list byte :=
  match s with
  | b :: s' => match to_digit radix b with
               | Some d => read_digits radix s' (count + 1) (value * radix + d)
               | None => (count, value, s)
               end
  | [] => (count, value, s)
  end.

(** [read_number] with [max_digits] digits for an integer of at most [max]. *)
Definition read_number (radix max_digits max : Z) (allow_zero_prefix : bool) : parser Z := fun s =>
  let '(count, value, rest) := read_digits radix s 0 0 in
  let has_leading_zero := match s with b :: _ => bool_decide (b = z2b 48) | [] => false end in
  if max_digits <? count then None
  else if count =? 0 then None
  else if negb allow_zero_prefix && has_leading_zero && (1 <? count) then None
  else if max <? value then None
  else Some (value, rest).

(** [read_separator]: the separator comes before every item but the first. *)
Definition read_separator {A} (sep : byte) (index : nat) (inner : parser A) : parser A := fun s =>
  match index with
  | O => inner s
  | S _ => match read_given_char sep s with Some (_, s) => inner s | None => None end
  end.

Definition read_octet (index : nat) : parser Z := read_separator dot index (read_number 10 3 255 false).

(** [read_ipv4_addr]. *)
Definition read_ipv4_addr : parser Z := fun s =>
  match read_octet 0 s with
  | Some (a, s) => match read_octet 1 s with
    | Some (b, s) => match read_octet 2 s with
      | Some (c, s) => match read_octet 3 s with
        | Some (d, s) => Some (ipv4 a b c d, s)
        | None => None end
      | None => None end
    | None => None end
  | None => None
  end.

(** [read_groups] for the [limit] groups from the [i]th on: the groups, whether
    they end in an IPv4 address, and the rest. *)
Fixpoint read_groups (limit i : nat) (s : list byte) : list Z * bool * list byte :=
  match limit with
  | O => ([], false, s)
  | S limit =>
    match (match limit with O => None | S _ => read_separator colon i read_ipv4_addr s end) with
    | Some (v4, s) => ([v4 / 65536; v4 mod 65536], true, s)
    | None =>
      match read_separator colon i (read_number 16 4 u16_max true) s with
      | Some (g, s) => let '(gs, v4, s) := read_groups limit (S i) s in (g :: gs, v4, s)
      | None => ([], false, s)
      end
    end
  end.

(** [read_ipv6_addr]. *)
Definition read_ipv6_addr : parser Z := fun s =>
  let '(head, head_ipv4, s) := read_groups 8 0 s in
  if (length head =? 8)%nat then Some (from_segments head, s)
  else if head_ipv4 then None
  else match read_given_char colon s with
  | None => None
  | Some (_, s) =>
    match read_given_char colon s with
    | None => None
    | Some (_, s) =>
      let '(tail, _, s) := read_groups (8 - (length head + 1)) 0 s in
      Some (from_segments (head ++ replicate (8 - length head - length tail) 0 ++ tail), s)
    end
  end.

(** [parse::<Ipv6Addr>()] and [parse::<IpAddr>()]. *)
Definition parse_with {A} (p : parser A) (s : list byte) : option A :=
  match p s with Some (a, []) => Some a | _ => None end.
Definition parse_ipv6 (s : list byte) : option Z := parse_with read_ipv6_addr s.
Definition read_ip_addr : parser IpAddr := fun s =>
  match read_ipv4_addr s with
  | Some (n, s) => Some (V4 n, s)
  | None => match read_ipv6_addr s with Some (n, s) => Some (V6 n, s) | None => None end
  end.
Definition parse_ip (s : list byte) : option IpAddr := parse_with read_ip_addr s.

(** * Display *)

Definition hex_digit (d : Z) : byte := if d <? 10 then z2b (48 + d) else z2b (87 + d).

(** [{:x}] of a [u16]. *)
Fixpoint hex_digits (fuel : nat) (n : Z) (acc : list byte) : list byte :=
  match fuel with
  | O => acc
  | S fuel =>
    let acc := hex_digit (n mod 16) :: acc in
    if n <? 16 then acc else hex_digits fuel (n / 16) acc
  end.
Definition show_hex (n : Z) : list byte := hex_digits 4 n [].

Definition show_octet (n : Z) : list byte := dec_digits 3 n [].
Definition show_ipv4 (n : Z) : list byte := join dot (map (fun i => show_octet (octet i n)) [0; 1; 2; 3]).

(** The longest run of zero segments, the first of that length: start and
    length. *)
Definition span_step (acc : (nat * nat) * (nat * nat) * nat) (segment : Z) : (nat * nat) * (nat * nat) * nat :=
  let '(longest, current, i) := acc in
  if segment =? 0 then
    let start := match current.2 with O => i | S _ => current.1 end in
    let current := (start, S current.2) in
    (if (longest.2 <? current.2)%nat then current else longest, current, S i)
  else (longest, (O, O), S i).
Definition zero_span (l : list Z) : nat * nat := (fold_left span_step l ((O, O), (O, O), O)).1.1.

(** [fmt_subslice]. *)
Definition fmt_subslice (l : list Z) : list byte := join colon (map show_hex l).

Definition show_ipv6 (n : Z) : list byte :=
  match to_ipv4_mapped n with
  | Some v4 => str "::ffff:" ++ show_ipv4 v4
  | None =>
    let l := segments n in
    let '(start, len) := zero_span l in
    if (1 <? len)%nat
    then fmt_subslice (take start l) ++ [colon; colon] ++ fmt_subslice (drop (start + len) l)
    else fmt_subslice l
  end.
Definition show_ip (a : IpAddr) : list byte := match a with V4 n => show_ipv4 n | V6 n => show_ipv6 n end.

Example show_examples :
  map show_ip [V4 (ipv4 192 0 2 1); V6 0; V6 1; V6 (from_segments [0x2001; 0xdb8; 0; 0; 1; 0; 0; 1]);
               V6 (from_segments [0; 0; 0; 0; 0; 0xffff; 0xc000; 0x201]); V6 (from_segments [1; 0; 2; 3; 4; 5; 6; 7])] =
  map str ["192.0.2.1"%string; "::"%string; "::1"%string; "2001:db8::1:0:0:1"%string; "::ffff:192.0.2.1"%string; "1:0:2:3:4:5:6:7"%string].
Proof. vm_compute. reflexivity. Qed.

Example parse_examples :
  map (fun s => parse_ip (str s)) ["01.2.3.4"%string; "1.2.3"%string; "1.2.3.256"%string; "1::2::3"%string; "::1.2.3.4"%string; "1:2:3:4:5:6:7:8"%string; "12345::"%string; "1.2.3.4x"%string] =
  [None; None; None; None; Some (V6 (ipv4 1 2 3 4)); Some (V6 (from_segments [1; 2; 3; 4; 5; 6; 7; 8])); None; None].
Proof. vm_compute. reflexivity. Qed.

(** * What is displayed is parsed back *)

#[local] Ltac Zify.zify_post_hook ::= Z.div_mod_to_equations.

Lemma read_given_char_same c s : read_given_char c (c :: s) = Some (tt, s).
Proof. cbn. by rewrite bool_decide_true. Qed.

(** ** Digits *)

(** A text on which a number ends. *)
Definition ends_number (radix : Z) (s : list byte) : Prop :=
  match s with b :: _ => to_digit radix b = None | [] => True end.

Lemma read_digits_stop radix s c v : ends_number radix s -> read_digits radix s c v = (c, v, s).
Proof. destruct s as [|b s]; cbn; [done|]. by intros ->. Qed.

Lemma byte_tests d k : 0 <= d < 10 -> k = 48 -> is_ascii_digit (z2b (k + d)) = true.
Proof. intros Hd ->. unfold is_ascii_digit. rewrite b2z_z2b_small by lia. lia. Qed.

Lemma to_digit_hex d : 0 <= d < 16 -> to_digit 16 (hex_digit d) = Some d.
Proof.
  intros Hd. unfold to_digit, hex_digit, is_ascii_digit, is_ascii_lowercase, is_ascii_uppercase.
  destruct (Z.ltb_spec d 10); rewrite b2z_z2b_small by lia;
    repeat match goal with |- context [?a <=? ?b] => destruct (Z.leb_spec a b); try lia end; cbn;
    match goal with |- context [?a <? 16] => destruct (Z.ltb_spec a 16) end; try lia; f_equal; lia.
Qed.

Lemma to_digit_dec d : 0 <= d < 10 -> to_digit 10 (z2b (48 + d)) = Some d.
Proof.
  intros Hd. unfold to_digit. rewrite byte_tests, b2z_z2b_small by lia.
  destruct (Z.ltb_spec (48 + d - 48) 10); [f_equal; lia|lia].
Qed.

(** Printing [n] in front of [acc] reads as the digits of [n], then [acc]. *)
Lemma hex_digits_spec fuel n acc :
  0 <= n < 16 ^ Z.of_nat fuel ->
  exists p, hex_digits fuel n acc = p ++ acc /\ (length p <= fuel)%nat /\ (fuel <> 0%nat -> p <> []) /\
    forall c v s, read_digits 16 (p ++ s) c v = read_digits 16 s (c + zlen p) (v * 16 ^ zlen p + n).
Proof.
  revert n acc; induction fuel as [|fuel IH]; intros n acc Hn.
  - exists []. cbn in *. split_and!; [done|lia|done|]. intros c v s. change (zlen []) with 0. f_equal; lia.
  - rewrite Nat2Z.inj_succ, Z.pow_succ_r in Hn by lia. cbn [hex_digits]. destruct (Z.ltb_spec n 16) as [Hlt|Hge].
    + exists [hex_digit (n mod 16)]. split_and!; [done|cbn; lia|done|]. intros c v s. cbn [app read_digits].
      rewrite to_digit_hex by lia. change (zlen [hex_digit (n mod 16)]) with 1. change (16 ^ 1) with 16. f_equal; lia.
    + destruct (IH (n / 16) (hex_digit (n mod 16) :: acc)) as (p & -> & Hl & Hp & HR); [lia|].
      exists (p ++ [hex_digit (n mod 16)]). rewrite <- (assoc_L (++)). split_and!; [done|rewrite length_app; cbn; lia| |].
      { intros _. by destruct p. }
      intros c v s. rewrite <- (assoc_L (++)), HR. cbn [app read_digits]. rewrite to_digit_hex by lia.
      rewrite zlen_app, Z.pow_add_r by (unfold zlen; lia). change (zlen [hex_digit (n mod 16)]) with 1. f_equal; [lia|].
      change (16 ^ 1) with 16. lia.
Qed.

Lemma dec_digits_spec fuel n acc :
  0 <= n < 10 ^ Z.of_nat fuel ->
  exists p, dec_digits fuel n acc = p ++ acc /\ (length p <= fuel)%nat /\ (fuel <> 0%nat -> p <> []) /\
    (zlen p > 1 -> exists b q, p = b :: q /\ b <> z2b 48) /\
    forall c v s, read_digits 10 (p ++ s) c v = read_digits 10 s (c + zlen p) (v * 10 ^ zlen p + n).
Proof.
  revert n acc; induction fuel as [|fuel IH]; intros n acc Hn.
  - exists []. cbn in *. split_and!; [done|lia|done|done|]. intros c v s. change (zlen []) with 0. f_equal; lia.
  - rewrite Nat2Z.inj_succ, Z.pow_succ_r in Hn by lia. cbn [dec_digits]. destruct (Z.ltb_spec n 10) as [Hlt|Hge].
    + exists [z2b (48 + n mod 10)]. split_and!; [done|cbn; lia|done|unfold zlen; cbn; lia|]. intros c v s. cbn [app read_digits].
      rewrite to_digit_dec by lia. change (zlen [z2b (48 + n mod 10)]) with 1. change (10 ^ 1) with 10. f_equal; lia.
    + destruct (IH (n / 10) (z2b (48 + n mod 10) :: acc)) as (p & -> & Hl & Hp & H0 & HR); [lia|].
      exists (p ++ [z2b (48 + n mod 10)]). rewrite <- (assoc_L (++)). split_and!; [done|rewrite length_app; cbn; lia| | |].
      { intros _. by destruct p. }
      { intros _. destruct fuel as [|fuel]; [cbn in Hn; lia|].
        destruct p as [|b q]; [by destruct Hp|]. exists b, (q ++ [z2b (48 + n mod 10)]). split; [done|].
        destruct q as [|b' q]; [|destruct H0 as (? & ? & [= <- _] & ?); [unfold zlen; cbn; lia|done]].
        pose proof (HR 0 0 []) as HR0. intros ->.
        change (read_digits 10 ([z2b 48] ++ []) 0 0) with (1, 0, @nil byte) in HR0. injection HR0 as HR0. lia. }
      intros c v s. rewrite <- (assoc_L (++)), HR. cbn [app read_digits]. rewrite to_digit_dec by lia.
      rewrite zlen_app, Z.pow_add_r by (unfold zlen; lia). change (zlen [z2b (48 + n mod 10)]) with 1. f_equal; [lia|].
      change (10 ^ 1) with 10. lia.
Qed.

Lemma read_number_hex n s :
  0 <= n < 65536 -> ends_number 16 s -> read_number 16 4 u16_max true (show_hex n ++ s) = Some (n, s).
Proof.
  intros Hn Hs. unfold show_hex. destruct (hex_digits_spec 4 n []) as (p & -> & Hl & Hp & HR); [lia|].
  unfold read_number. rewrite app_nil_r, HR, read_digits_stop by done. cbn [negb andb].
  assert (0 < zlen p <= 4) by (destruct p; [by destruct Hp|unfold zlen; cbn in *; lia]).
  unfold u16_max.
  repeat match goal with |- context [?a <? ?b] => destruct (Z.ltb_spec a b); try lia end.
  destruct (Z.eqb_spec (0 + zlen p) 0); [lia|]. f_equal; f_equal; lia.
Qed.

Lemma read_number_dec n s :
  0 <= n < 256 -> ends_number 10 s -> read_number 10 3 255 false (show_octet n ++ s) = Some (n, s).
Proof.
  intros Hn Hs. unfold show_octet. destruct (dec_digits_spec 3 n []) as (p & -> & Hl & Hp & H0 & HR); [lia|].
  unfold read_number. rewrite app_nil_r, HR, read_digits_stop by done.
  assert (0 < zlen p <= 3) by (destruct p; [by destruct Hp|unfold zlen; cbn in *; lia]).
  destruct (Z.ltb_spec 3 (0 + zlen p)); [lia|]. destruct (Z.eqb_spec (0 + zlen p) 0); [lia|].
  replace (negb false && _ && _) with false; [destruct (Z.ltb_spec 255 (0 * 10 ^ zlen p + n)); [lia|f_equal; f_equal; lia]|].
  symmetry. destruct (Z.ltb_spec 1 (0 + zlen p)); [|by rewrite andb_false_r].
  destruct H0 as (b & q & -> & Hb); [lia|]. cbn [app]. by rewrite bool_decide_false.
Qed.

(** ** IPv4 *)

Lemma ends_dot s : ends_number 10 (dot :: s).
Proof. done. Qed.

Lemma read_octet_show i n s : 0 <= n < 256 -> ends_number 10 s ->
  read_octet i ((match i with O => [] | S _ => [dot] end) ++ show_octet n ++ s) = Some (n, s).
Proof. intros Hn Hs. destruct i; by apply read_number_dec. Qed.

Lemma octets_join n : 0 <= n < 2 ^ 32 -> ipv4 (octet 0 n) (octet 1 n) (octet 2 n) (octet 3 n) = n.
Proof. unfold ipv4, octet. cbn [Z.sub Z.pow Z.pow_pos Pos.iter]. intros. change (256 ^ (3 - 0)) with 16777216.
  change (256 ^ (3 - 1)) with 65536. change (256 ^ (3 - 2)) with 256. change (256 ^ (3 - 3)) with 1. lia. Qed.

Lemma octet_range i n : 0 <= octet i n < 256.
Proof. apply Z.mod_pos_bound. lia. Qed.

Lemma read_ipv4_show n s : 0 <= n < 2 ^ 32 -> ends_number 10 s -> read_ipv4_addr (show_ipv4 n ++ s) = Some (n, s).
Proof.
  intros Hn Hs. unfold show_ipv4, read_ipv4_addr. cbn [map join]. rewrite <- !(assoc_L (++)). cbn [app].
  rewrite <- !(assoc_L (++)). cbn [app]. rewrite <- !(assoc_L (++)). cbn [app].
  pose proof octet_range. unfold read_octet, read_separator, read_given_char.
  rewrite read_number_dec by (done || apply ends_dot). rewrite bool_decide_true by done.
  rewrite read_number_dec by (done || apply ends_dot). rewrite bool_decide_true by done.
  rewrite read_number_dec by (done || apply ends_dot). rewrite bool_decide_true by done.
  rewrite read_number_dec by done. by rewrite octets_join.
Qed.

Lemma read_digits_suffix radix s c v c' v' r : read_digits radix s c v = (c', v', r) -> exists p, s = p ++ r.
Proof.
  revert c v; induction s as [|b s IH]; cbn; intros c v HR; [injection HR as <- <- <-; by exists []|].
  destruct (to_digit radix b); [|injection HR as <- <- <-; by exists []].
  apply IH in HR as [p ->]. by exists (b :: p).
Qed.

(** An IPv4 address has a dot. *)
Lemma read_ipv4_no_dot s : dot ∉ s -> read_ipv4_addr s = None.
Proof.
  intros Hd. unfold read_ipv4_addr, read_octet at 1. cbn [read_separator].
  destruct (read_number _ _ _ _ s) as [[a r]|] eqn:E; [|done].
  assert (exists p, s = p ++ r) as [p ->].
  { unfold read_number in E. destruct (read_digits 10 s 0 0) as [[c v] r'] eqn:ER. apply read_digits_suffix in ER as [p ->].
    break_in E; injection E as _ <-; by exists p. }
  unfold read_octet at 1, read_separator, read_given_char. destruct r as [|b r]; [done|].
  rewrite bool_decide_false; [done|]. intros ->. apply Hd. rewrite elem_of_app, elem_of_cons. auto.
Qed.

(** ** IPv6 *)

(** What follows a run of groups: nothing, or the [::]. *)
Definition stops (s : list byte) : Prop := s = [] \/ exists r, s = colon :: colon :: r.

(** Groups as [read_groups] reads them from the [i]th on. *)
Definition groups_text (i : nat) (l : list Z) : list byte :=
  match i with O => fmt_subslice l | S _ => flat_map (fun g => colon :: show_hex g) l end.

Lemma join_cons_flat (l : list Z) g : fmt_subslice (g :: l) = show_hex g ++ flat_map (fun g => colon :: show_hex g) l.
Proof.
  unfold fmt_subslice. revert g; induction l as [|h l IH]; intros g; cbn [map join flat_map]; [by rewrite app_nil_r|].
  f_equal. cbn [app]. f_equal. exact (IH h).
Qed.

(** The only bytes of a printed address are digits, colons and dots. *)
Lemma hex_free c n : to_digit 16 c = None -> c ∉ show_hex n.
Proof.
  intros Hc. unfold show_hex. generalize 4%nat as fuel. intros fuel.
  assert (forall acc, c ∉ acc -> c ∉ hex_digits fuel n acc) as HH; [|by apply HH, not_elem_of_nil].
  revert n; induction fuel as [|fuel IH]; intros n acc Ha; cbn; [done|].
  assert (c ∉ hex_digit (n mod 16) :: acc) as Hn.
  { apply not_elem_of_cons. split; [|done]. intros ->. by rewrite to_digit_hex in Hc by lia. }
  destruct (n <? 16); [done|]. by apply IH.
Qed.

Lemma read_number_stop radix m max a s : ends_number radix s -> read_number radix m max a s = None.
Proof.
  intros Hs. unfold read_number. rewrite read_digits_stop by done. destruct (m <? 0); [done|]. by rewrite Z.eqb_refl.
Qed.

Lemma stops_ends s : stops s -> ends_number 16 s /\ ends_number 10 s.
Proof. by intros [->|[r ->]]. Qed.

Lemma groups_free c l : to_digit 16 c = None -> c <> colon -> c ∉ flat_map (fun g => colon :: show_hex g) l.
Proof.
  intros Hd Hc. induction l as [|g l IH]; cbn [flat_map]; [apply not_elem_of_nil|]. cbn [app]. rewrite not_elem_of_cons, elem_of_app.
  split; [done|]. intros [Hx|Hx]; [exact (hex_free c g Hd Hx)|done].
Qed.

Lemma no_dot_groups l : dot ∉ flat_map (fun g => colon :: show_hex g) l.
Proof. by apply groups_free. Qed.

Lemma read_groups_stop limit i s : stops s -> dot ∉ s -> read_groups limit i s = ([], false, s).
Proof.
  intros Hs Hd. destruct limit as [|limit]; [done|]. cbn.
  assert (read_separator colon i read_ipv4_addr s = None) as ->.
  { destruct i; cbn; [by apply read_ipv4_no_dot|]. destruct s as [|b s]; [done|]. cbn. case_bool_decide; [|done].
    apply read_ipv4_no_dot. set_solver. }
  assert (read_separator colon i (read_number 16 4 u16_max true) s = None) as ->.
  { destruct i; cbn; [by apply read_number_stop, stops_ends|]. destruct Hs as [->|[r ->]]; [done|]. cbn.
    by apply read_number_stop. }
  by destruct limit.
Qed.

Lemma read_groups_show l limit i s :
  Forall (fun g => 0 <= g < 65536) l -> (length l <= limit)%nat -> stops s -> dot ∉ s ->
  read_groups limit i (groups_text i l ++ s) = (l, false, s).
Proof.
  intros HF. revert limit i. induction HF as [|g l Hg HF IH]; intros limit i Hl Hs Hd.
  { destruct i; cbn [groups_text fmt_subslice map join flat_map app]; by apply read_groups_stop. }
  destruct limit as [|limit]; cbn in Hl; [lia|].
  set (rest := flat_map (fun g => colon :: show_hex g) l ++ s).
  assert (groups_text i (g :: l) ++ s = match i with O => [] | S _ => [colon] end ++ show_hex g ++ rest) as ->.
  { unfold rest. destruct i; cbn [groups_text]; [by rewrite join_cons_flat, <- (assoc_L (++))|]. cbn. by rewrite <- (assoc_L (++)). }
  assert (dot ∉ show_hex g ++ rest) as Hdr.
  { unfold rest. rewrite !elem_of_app. intros [Hx|[Hx|Hx]]; [exact (hex_free dot _ eq_refl Hx)|exact (no_dot_groups _ Hx)|done]. }
  assert (ends_number 16 rest) as Hends.
  { unfold rest. destruct l as [|h l]; cbn; [|done]. apply stops_ends, Hs. }
  cbn [read_groups].
  assert (read_separator colon i read_ipv4_addr (match i with O => [] | S _ => [colon] end ++ show_hex g ++ rest) = None) as ->.
  { destruct i; cbn; by apply read_ipv4_no_dot. }
  assert (read_separator colon i (read_number 16 4 u16_max true) (match i with O => [] | S _ => [colon] end ++ show_hex g ++ rest)
    = Some (g, rest)) as ->.
  { destruct i; cbn; by apply read_number_hex. }
  specialize (IH limit (S i) ltac:(lia) Hs Hd). cbn [groups_text] in IH. fold rest in IH. rewrite IH. by destruct limit.
Qed.

Lemma segment_step n k : 0 <= k -> n / 65536 ^ (k + 1) * 65536 + n / 65536 ^ k mod 65536 = n / 65536 ^ k.
Proof.
  intros Hk. rewrite Z.pow_add_r, <- Z.div_div by lia. change (65536 ^ 1) with 65536.
  pose proof (Z.div_mod (n / 65536 ^ k) 65536). lia.
Qed.

Lemma segments_join n : 0 <= n < 2 ^ 128 -> from_segments (segments n) = n.
Proof.
  intros Hn. unfold from_segments, segments, segment. cbn [map fold_left].
  change (7 - 0) with 7; change (7 - 1) with 6; change (7 - 2) with 5; change (7 - 3) with 4;
    change (7 - 4) with 3; change (7 - 5) with 2; change (7 - 6) with 1; change (7 - 7) with 0.
  assert (n / 65536 ^ (7 + 1) = 0) as H8 by (apply Z.div_small; exact Hn).
  pose proof (segment_step n 7) as H7. rewrite H8 in H7. rewrite H7 by lia.
  change (n / 65536 ^ 7) with (n / 65536 ^ (6 + 1)). rewrite segment_step by lia.
  change (n / 65536 ^ 6) with (n / 65536 ^ (5 + 1)). rewrite segment_step by lia.
  change (n / 65536 ^ 5) with (n / 65536 ^ (4 + 1)). rewrite segment_step by lia.
  change (n / 65536 ^ 4) with (n / 65536 ^ (3 + 1)). rewrite segment_step by lia.
  change (n / 65536 ^ 3) with (n / 65536 ^ (2 + 1)). rewrite segment_step by lia.
  change (n / 65536 ^ 2) with (n / 65536 ^ (1 + 1)). rewrite segment_step by lia.
  change (n / 65536 ^ 1) with (n / 65536 ^ (0 + 1)). rewrite segment_step by lia. apply Z.div_1_r.
Qed.

Lemma segments_range n : Forall (fun g => 0 <= g < 65536) (segments n).
Proof. apply Forall_fmap, Forall_forall. intros i _. apply Z.mod_pos_bound. lia. Qed.

(** The span found is a run of zeros. *)
Definition zero_run (l : list Z) (span : nat * nat) : Prop :=
  (span.1 + span.2 <= length l)%nat /\ forall k, (span.1 <= k < span.1 + span.2)%nat -> l !! k = Some 0.

Lemma zero_run_snoc l g span : zero_run l span -> zero_run (l ++ [g]) span.
Proof.
  intros [Hl Hz]. split; [rewrite length_app; lia|]. intros k Hk. rewrite lookup_app_l by lia. by apply Hz.
Qed.

Lemma span_fold l :
  let '(longest, current, i) := fold_left span_step l ((O, O), (O, O), O) in
  i = length l /\ zero_run l longest /\ zero_run l current /\ (current.2 <> O -> current.1 + current.2 = length l)%nat.
Proof.
  induction l as [|g l IH] using rev_ind; [cbn; split_and!; (done || by split; [cbn; lia|cbn; lia])|].
  rewrite fold_left_app. destruct (fold_left span_step l _) as [[longest [cs cn]] i]. destruct IH as (-> & HL & HC & Hend).
  cbn [fold_left span_step]. cbn in Hend. destruct (Z.eqb_spec g 0) as [->|Hg].
  - assert (zero_run (l ++ [0]) (match cn with O => length l | S _ => cs end, S cn)) as HC'.
    { split; cbn; [rewrite length_app; cbn; destruct cn; [lia|specialize (Hend ltac:(done)); lia]|]. intros k Hk.
      destruct (decide (k = length l)) as [->|Hne]; [by rewrite lookup_app_r, Nat.sub_diag by lia|].
      destruct cn as [|cn]; [lia|]. specialize (Hend ltac:(done)). rewrite lookup_app_l by lia. apply HC. cbn. lia. }
    split_and!; [rewrite length_app; cbn; lia|destruct (_ <? _)%nat; [exact HC'|by apply zero_run_snoc]|exact HC'|].
    intros _. cbn. rewrite length_app. cbn. destruct cn; [lia|specialize (Hend ltac:(done)); lia].
  - split_and!; [rewrite length_app; cbn; lia|by apply zero_run_snoc|split; cbn; lia|done].
Qed.

Lemma zero_span_split l start len :
  zero_span l = (start, len) ->
  (start + len <= length l)%nat /\ l = take start l ++ replicate len 0 ++ drop (start + len) l.
Proof.
  unfold zero_span. pose proof (span_fold l) as HF. destruct (fold_left span_step l _) as [[longest c] i].
  cbn. intros ->. destruct HF as (_ & [Hl Hz] & _). cbn in *. split; [done|].
  rewrite <- (take_drop start l) at 1. f_equal. rewrite <- (take_drop len (drop start l)), drop_drop. f_equal.
  apply list_eq. intros k. destruct (decide (k < len)%nat) as [Hk|Hk].
  - rewrite lookup_take_lt, lookup_drop, Hz by lia. symmetry.
    by apply lookup_replicate_2.
  - rewrite lookup_take_ge by lia. symmetry. apply lookup_ge_None_2. rewrite length_replicate. lia.
Qed.

Lemma subslice_free c l : to_digit 16 c = None -> c <> colon -> c ∉ fmt_subslice l.
Proof.
  intros Hd Hc. destruct l as [|g l]; [apply not_elem_of_nil|]. rewrite join_cons_flat, elem_of_app.
  intros [Hx|Hx]; [exact (hex_free c g Hd Hx)|exact (groups_free c l Hd Hc Hx)].
Qed.

Lemma no_dot_subslice l : dot ∉ fmt_subslice l.
Proof. by apply subslice_free. Qed.

Lemma mapped_parts n v4 :
  0 <= n < 2 ^ 128 -> to_ipv4_mapped n = Some v4 -> 0 <= v4 < 2 ^ 32 /\ n = from_segments [0; 0; 0; 0; 0; 0xffff; v4 / 65536; v4 mod 65536].
Proof.
  unfold to_ipv4_mapped. intros Hn. destruct (Z.eqb_spec (n / 2 ^ 32) 0xffff) as [Hm|]; [|done]. intros [= <-].
  change (2 ^ 32) with 4294967296 in *. unfold from_segments. cbn [fold_left]. lia.
Qed.

Lemma parse_show_ipv6 n : 0 <= n < 2 ^ 128 -> parse_ipv6 (show_ipv6 n) = Some n.
Proof.
  intros Hn. unfold parse_ipv6, parse_with, show_ipv6. destruct (to_ipv4_mapped n) as [v4|] eqn:Em.
  { destruct (mapped_parts _ _ Hn Em) as [Hv Hnv].
    assert (read_ipv6_addr (str "::ffff:" ++ show_ipv4 v4) = Some (n, [])) as ->; [|done].
    pose proof (read_ipv4_show v4 [] Hv I) as HR. rewrite app_nil_r in HR.
    change (str "::ffff:" ++ show_ipv4 v4) with (colon :: colon :: (str "ffff:" ++ show_ipv4 v4)).
    assert (read_ipv4_addr (str "ffff:" ++ show_ipv4 v4) = None) as H4 by reflexivity.
    assert (read_number 16 4 u16_max true (str "ffff:" ++ show_ipv4 v4) = Some (0xffff, colon :: show_ipv4 v4)) as H6
      by reflexivity.
    revert H4 H6. generalize (str "ffff:" ++ show_ipv4 v4). intros t H4 H6.
    unfold read_ipv6_addr. change (read_groups 8 0 (colon :: colon :: t)) with (@nil Z, false, colon :: colon :: t).
    cbn [length Nat.eqb Nat.sub Nat.add read_groups read_separator]. rewrite !read_given_char_same, H4, H6.
    rewrite read_given_char_same, HR, Hnv. reflexivity. }
  destruct (zero_span (segments n)) as [start len] eqn:Ez. destruct (zero_span_split _ _ _ Ez) as [Hsl Hsplit].
  change (length (segments n)) with 8%nat in Hsl. pose proof (segments_range n) as HF.
  destruct (Nat.ltb_spec 1 len) as [Hlen|Hlen].
  - assert (length (take start (segments n)) = start) as Hts by (rewrite length_take; change (length (segments n)) with 8%nat; lia).
    set (tl := drop (start + len) (segments n)) in *.
    assert (length tl = 8 - (start + len))%nat as Htl by (unfold tl; by rewrite length_drop).
    unfold read_ipv6_addr.
    pose proof (read_groups_show (take start (segments n)) 8 0 ([colon; colon] ++ fmt_subslice tl)
      (Forall_take _ _ _ HF) ltac:(lia) (or_intror (ex_intro _ _ eq_refl))) as HR. cbn [groups_text] in HR. rewrite HR.
    2: { cbn. rewrite !not_elem_of_cons. split_and!; [done|done|apply no_dot_subslice]. }
    rewrite Hts. destruct (Nat.eqb_spec start 8); [lia|]. cbn [app]. rewrite !read_given_char_same.
    pose proof (read_groups_show tl (8 - (start + 1)) 0 [] (Forall_drop _ _ _ HF) ltac:(lia) (or_introl eq_refl)
      ltac:(apply not_elem_of_nil)) as HR2. cbn [groups_text] in HR2. rewrite app_nil_r in HR2. rewrite HR2.
    f_equal. rewrite <- (segments_join n Hn) at 2. rewrite Hsplit at 2. f_equal. f_equal. f_equal. f_equal. lia.
  - pose proof (read_groups_show (segments n) 8 0 [] HF ltac:(done) (or_introl eq_refl) ltac:(apply not_elem_of_nil)) as HR.
    cbn [groups_text] in HR. rewrite app_nil_r in HR. unfold read_ipv6_addr. rewrite HR.
    change ((length (segments n) =? 8)%nat) with true. by rewrite segments_join.
Qed.

Lemma show_ipv6_not_v4 n : read_ipv4_addr (show_ipv6 n) = None.
Proof.
  unfold show_ipv6. destruct (to_ipv4_mapped n); [done|]. destruct (zero_span (segments n)) as [start len].
  destruct (1 <? len)%nat; apply read_ipv4_no_dot; [|apply no_dot_subslice].
  rewrite !elem_of_app, !elem_of_cons. intros [Hx|[[Hx|[Hx|Hx]]|Hx]]; try done; [..|by apply not_elem_of_nil in Hx|];
    exact (no_dot_subslice _ Hx).
Qed.

(** [a.to_string().parse() == Ok(a)]. *)
Lemma parse_show_ip a : addr_ok a -> parse_ip (show_ip a) = Some a.
Proof.
  unfold parse_ip, parse_with, read_ip_addr. destruct a as [n|n]; cbn [show_ip]; unfold addr_ok; cbn [bits width]; intros Hn.
  - pose proof (read_ipv4_show n [] Hn I) as HR. rewrite app_nil_r in HR. by rewrite HR.
  - rewrite show_ipv6_not_v4. pose proof (parse_show_ipv6 n Hn) as HP. unfold parse_ipv6, parse_with in HP.
    destruct (read_ipv6_addr (show_ipv6 n)) as [[m [|]]|]; by simplify_eq.
Qed.

Lemma octet_free c i n : to_digit 16 c = None -> c ∉ show_octet (octet i n).
Proof.
  intros Hd Hx. pose proof (octet_range i n). unfold show_octet in Hx.
  destruct (canonical_digits_exist 2 (octet i n)) as (s & Hc & Hl & Hs); [lia|].
  rewrite <- Hs, dec_digits_parse, app_nil_r in Hx; [|done|lia]. destruct Hc as (_ & HF & _).
  apply forallb_Forall in HF. rewrite Forall_forall in HF. specialize (HF _ Hx). unfold to_digit in Hd. rewrite HF in Hd.
  apply digit_value in HF. destruct (Z.ltb_spec (b2z c - 48) 16); [done|lia].
Qed.

Lemma show_ipv4_free c n : to_digit 16 c = None -> c <> dot -> c ∉ show_ipv4 n.
Proof.
  intros Hd Hc. unfold show_ipv4. cbn [map join]. repeat rewrite ?elem_of_app, ?elem_of_cons.
  intros [Hx|[Hx|[Hx|[Hx|[Hx|[Hx|Hx]]]]]]; solve [done | exact (octet_free _ _ _ Hd Hx)].
Qed.

Lemma show_ip_free c a : to_digit 16 c = None -> c <> colon -> c <> dot -> c ∉ show_ip a.
Proof.
  intros Hd Hc Hp. destruct a as [n|n]; cbn [show_ip]; [by apply show_ipv4_free|]. unfold show_ipv6.
  destruct (to_ipv4_mapped n) as [v4|].
  - change (str "::ffff:") with ([colon; colon] ++ show_hex 0xffff ++ [colon]). rewrite !elem_of_app, !elem_of_cons.
    intros [[[Hx|[Hx|Hx]]|[Hx|[Hx|Hx]]]|Hx]; try done;
      solve [by apply not_elem_of_nil in Hx | exact (hex_free c _ Hd Hx) | exact (show_ipv4_free c _ Hd Hp Hx)].
  - destruct (zero_span (segments n)) as [start len]. destruct (1 <? len)%nat; [|by apply subslice_free].
    rewrite !elem_of_app, !elem_of_cons. intros [Hx|[[Hx|[Hx|Hx]]|Hx]]; try done;
      solve [by apply not_elem_of_nil in Hx | exact (subslice_free c _ Hd Hc Hx)].
Qed.

(** ** What is parsed is an address *)

Lemma read_digits_nonneg radix s c v c' v' r :
  1 < radix -> 0 <= v -> read_digits radix s c v = (c', v', r) -> 0 <= v'.
Proof.
  intros Hr. revert c v; induction s as [|b s IH]; cbn; intros c v Hv HR; [by simplify_eq|].
  destruct (to_digit radix b) as [d|] eqn:Ed; [|by simplify_eq]. eapply IH, HR.
  unfold to_digit, is_ascii_digit, is_ascii_lowercase, is_ascii_uppercase in Ed. pose proof (b2z_bound b).
  break_in Ed; injection Ed as <-; bool_prop; nia.
Qed.

Lemma read_number_range radix m max a s v r : 1 < radix -> read_number radix m max a s = Some (v, r) -> 0 <= v <= max.
Proof.
  unfold read_number. intros Hr. destruct (read_digits radix s 0 0) as [[c w] q] eqn:E. intros HR.
  pose proof (read_digits_nonneg _ _ _ _ _ _ _ Hr ltac:(reflexivity) E). break_in HR; injection HR as <- <-; bool_prop; lia.
Qed.

Lemma read_octet_range i s v r : read_octet i s = Some (v, r) -> 0 <= v <= 255.
Proof.
  unfold read_octet, read_separator. destruct i; [by apply read_number_range|].
  destruct (read_given_char dot s) as [[[] s']|]; [by apply read_number_range|done].
Qed.

Lemma read_ipv4_range s n r : read_ipv4_addr s = Some (n, r) -> 0 <= n < 2 ^ 32.
Proof.
  unfold read_ipv4_addr. intros HR. break_in HR. injection HR as <- _.
  repeat match goal with E : read_octet _ _ = _ |- _ => apply read_octet_range in E end. unfold ipv4. lia.
Qed.

Lemma read_groups_range limit i s gs v4 r :
  read_groups limit i s = (gs, v4, r) -> Forall (fun g => 0 <= g < 65536) gs /\ (length gs <= limit)%nat.
Proof.
  revert i s gs v4 r; induction limit as [|limit IH]; intros i s gs v4 r; cbn; [by intros [= <- _ _]|].
  destruct (match limit with O => None | S _ => _ end) as [[n s']|] eqn:E4.
  - destruct limit as [|limit]; [done|].
    assert (0 <= n < 2 ^ 32).
    { unfold read_separator in E4. destruct i; [by eapply read_ipv4_range|]. destruct (read_given_char colon s) as [[[] ?]|]; [|done].
      by eapply read_ipv4_range. }
    intros [= <- _ _]. split; [repeat constructor; lia|cbn; lia].
  - destruct (read_separator colon i (read_number 16 4 u16_max true) s) as [[g s']|] eqn:E6; [|intros HE; simplify_eq; split; [constructor|cbn; lia]].
    destruct (read_groups limit (S i) s') as [[gs' v4'] r'] eqn:ER. apply IH in ER as [HF Hl]. intros [= <- _ _].
    split; [|cbn; lia]. constructor; [|done].
    assert (0 <= g <= u16_max); [|unfold u16_max in *; lia].
    unfold read_separator in E6. destruct i; [by eapply read_number_range, E6|].
    destruct (read_given_char colon s) as [[[] ?]|]; [|done]. by eapply read_number_range, E6.
Qed.

Lemma from_segments_range l : Forall (fun g => 0 <= g < 65536) l -> 0 <= from_segments l < 65536 ^ zlen l.
Proof.
  unfold from_segments. induction l as [|g l IH] using rev_ind; intros HF; [done|]. apply Forall_app in HF as [HF Hg].
  apply Forall_inv in Hg. rewrite fold_left_app, zlen_app. cbn [fold_left]. specialize (IH HF).
  rewrite Z.pow_add_r by (unfold zlen; lia). change (zlen [g]) with 1. change (65536 ^ 1) with 65536. nia.
Qed.

Lemma read_ipv6_range s n r : read_ipv6_addr s = Some (n, r) -> 0 <= n < 2 ^ 128.
Proof.
  unfold read_ipv6_addr. destruct (read_groups 8 0 s) as [[head hv4] s1] eqn:EH. apply read_groups_range in EH as [HF Hl].
  destruct (Nat.eqb_spec (length head) 8) as [E8|E8].
  { intros [= <- _]. pose proof (from_segments_range _ HF) as HR. unfold zlen in HR. by rewrite E8 in HR. }
  destruct hv4; [done|]. destruct (read_given_char colon s1) as [[[] s2]|]; [|done].
  destruct (read_given_char colon s2) as [[[] s3]|]; [|done].
  destruct (read_groups (8 - (length head + 1)) 0 s3) as [[tl tv4] s4] eqn:ET. apply read_groups_range in ET as [HFt Hlt].
  intros [= <- _].
  assert (Forall (fun g => 0 <= g < 65536) (head ++ replicate (8 - length head - length tl) 0 ++ tl)) as HA.
  { rewrite !Forall_app. split_and!; [done|apply Forall_replicate; lia|done]. }
  apply from_segments_range in HA. replace (zlen _) with 8 in HA; [exact HA|].
  unfold zlen. rewrite !length_app, length_replicate. lia.
Qed.

Lemma parse_ip_ok s a : parse_ip s = Some a -> addr_ok a.
Proof.
  unfold parse_ip, parse_with, read_ip_addr, addr_ok. intros HP. break_in HP; simplify_eq; cbn [bits width];
    [by eapply read_ipv4_range|by eapply read_ipv6_range].
Qed.
