(* ===== verification/Tunnel.v ===== *)
(** Byte streams to a peer, as the sources read and write them.

    Model of crates/ket-tunnel-protocol/src/lib.rs: the frames between the app
    and the tunnel service, the installation token and the proof of knowing
    it. *)

From Stdlib Require Import ZArith Lia.
From stdpp Require Import strings.
From S2P Require Import Prelude.

(** A connection: what the peer has yet to send (until it closes or breaks),
    what it has been sent, and the number of writes it will still take, if not
    all. *)
Record Stream := mkStream { incoming : list byte; outgoing : list (list byte); room : option nat }.

(** [write_all]: whether the peer took the bytes. *)
Definition write_all (bytes : list byte) (s : Stream) : bool * Stream :=
  match room s with
  | Some O => (false, s)
  | Some (S n) => (true, mkStream (incoming s) (outgoing s ++ [bytes]) (Some n))
  | None => (true, mkStream (incoming s) (outgoing s ++ [bytes]) None)
  end.

(** [read_exact]: the bytes, unless the peer ends first. *)
Definition take_exact (n : nat) (s : Stream) : option (list byte) * Stream :=
  if (n <=? length (incoming s))%nat
  then (Some (take n (incoming s)), mkStream (drop n (incoming s)) (outgoing s) (room s))
  else (None, mkStream [] (outgoing s) (room s)).

Lemma take_exact_app n x r o w : length x = n -> take_exact n (mkStream (x ++ r) o w) = (Some x, mkStream r o w).
Proof.
  intros <-. unfold take_exact. cbn [incoming outgoing room]. rewrite length_app, (proj2 (Nat.leb_le _ _)) by lia.
  by rewrite take_app_length, drop_app_length.
Qed.

(** [s] gave the bytes [x] and was sent [ws] on the way to [s']. *)
Definition consumed (s : Stream) (x : list byte) (ws : list (list byte)) (s' : Stream) : Prop :=
  incoming s = x ++ incoming s' /\ outgoing s' = outgoing s ++ ws.

Lemma consumed_trans s x ws s1 y vs s2 : consumed s x ws s1 -> consumed s1 y vs s2 -> consumed s (x ++ y) (ws ++ vs) s2.
Proof. intros [E1 W1] [E2 W2]. split; [by rewrite E1, E2, (assoc_L (++))|by rewrite W2, W1, (assoc_L (++))]. Qed.

Lemma take_exact_ok n s x s' : take_exact n s = (Some x, s') -> consumed s x [] s' /\ length x = n.
Proof.
  unfold take_exact. destruct (Nat.leb_spec n (length (incoming s))); [|done]. intros [= <- <-]. split.
  - split; cbn; [by rewrite take_drop|by rewrite app_nil_r].
  - rewrite length_take. lia.
Qed.

Lemma write_all_ok bytes s s' : write_all bytes s = (true, s') -> consumed s [] [bytes] s'.
Proof. unfold write_all. destruct (room s) as [[|n]|]; [done|..]; intros [= <-]; split; done. Qed.

Definition BROKER_PROTOCOL_VERSION : Z := 1.
Definition MAX_FRAME_BYTES : Z := 128 * 1024.
Definition TOKEN_BYTES : nat := 32.
Definition PROOF_CONTEXT : list byte := str "ket-tunnel-broker-v1".

(** serde_json of a message type: [to_vec] and [from_slice]. *)
Class Json (T : Type) := { json_to_vec : T -> option (list byte); json_from_slice : list byte -> option T }.
(** What was written reads back, and is not empty. *)
Class JsonLaws (T : Type) `{Json T} : Prop :=
  json_roundtrip v bytes : json_to_vec v = Some bytes -> json_from_slice bytes = Some v /\ bytes <> [].

(** HMAC-SHA-256 of the hmac and sha2 crates, and [OpenOptions] on a file
    system, which the token is kept in. *)
Class Hmac := hmac_sha256 : list byte -> list byte -> list byte.
Class HmacLaws `{Hmac} : Prop := hmac_length key m : length (hmac_sha256 key m) = 32%nat.

(** * Frames *)

Inductive FrameError := TooLarge | FrameIo | FrameInvalid.

Section frames.
Context {T : Type} `{Json T}.

(** [write_frame]: the length and the message, in two writes. *)
Definition write_frame (value : T) (s : Stream) : result FrameError unit * Stream :=
  match json_to_vec value with
  | None => (Err FrameInvalid, s)
  | Some encoded =>
    if MAX_FRAME_BYTES <? zlen encoded then (Err TooLarge, s)
    else
      let '(ok, s) := write_all (to_be 4 (zlen encoded)) s in
      if negb ok then (Err FrameIo, s)
      else let '(ok, s) := write_all encoded s in (if ok then Ok tt else Err FrameIo, s)
  end.

(** [read_frame]. *)
Definition read_frame (s : Stream) : result FrameError T * Stream :=
  let '(length, s) := take_exact 4 s in
  match length with
  | None => (Err FrameIo, s)
  | Some length =>
    let length := from_be length in
    if (length =? 0) || (MAX_FRAME_BYTES <? length) then (Err TooLarge, s)
    else
      let '(encoded, s) := take_exact (Z.to_nat length) s in
      match encoded with
      | None => (Err FrameIo, s)
      | Some encoded => (ok_or (json_from_slice encoded) FrameInvalid, s)
      end
  end.

(** The bytes of a frame. *)
Definition frame_bytes (encoded : list byte) : list byte := to_be 4 (zlen encoded) ++ encoded.

Lemma write_frame_ok v s s' : write_frame v s = (Ok tt, s') ->
  exists encoded, json_to_vec v = Some encoded /\ zlen encoded <= MAX_FRAME_BYTES /\
    incoming s' = incoming s /\ concat (outgoing s') = concat (outgoing s) ++ frame_bytes encoded.
Proof.
  unfold write_frame. destruct (json_to_vec v) as [encoded|]; [|done]. destruct (Z.ltb_spec MAX_FRAME_BYTES (zlen encoded)); [done|].
  destruct (write_all (to_be 4 (zlen encoded)) s) as [[] s1] eqn:E1; [|done]. cbn [negb].
  destruct (write_all encoded s1) as [[] s2] eqn:E2; [|done]. intros [= <-].
  apply write_all_ok in E1 as [I1 O1], E2 as [I2 O2]. cbn in I1, I2. exists encoded. split_and!; [done..|congruence|].
  rewrite O2, O1, !concat_app. unfold frame_bytes. cbn [concat]. by rewrite !app_nil_r, <- (assoc_L (++)).
Qed.

Lemma read_frame_app `{!JsonLaws T} v encoded r o w : json_to_vec v = Some encoded -> zlen encoded <= MAX_FRAME_BYTES ->
  read_frame (mkStream (frame_bytes encoded ++ r) o w) = (Ok v, mkStream r o w).
Proof.
  intros Hv Hl. destruct (json_roundtrip v encoded Hv) as [HR Hne]. unfold read_frame, frame_bytes. unfold MAX_FRAME_BYTES in *.
  rewrite <- (assoc_L (++)), take_exact_app by apply length_to_be. pose proof (zlen_nonneg encoded).
  rewrite from_be_to_be by (change (256 ^ Z.of_nat 4) with 4294967296; lia).
  assert (zlen encoded <> 0) by (destruct encoded; [done|unfold zlen; cbn; lia]).
  rewrite (proj2 (Z.eqb_neq _ _)), (proj2 (Z.ltb_ge _ _)) by lia. cbn [orb].
  unfold zlen. rewrite Nat2Z.id, take_exact_app by done. by rewrite HR.
Qed.

(** A frame takes no more memory than the limit. *)
Lemma read_frame_bound s v s' : read_frame s = (Ok v, s') ->
  exists encoded, incoming s = frame_bytes encoded ++ incoming s' /\ 0 < zlen encoded <= MAX_FRAME_BYTES /\ json_from_slice encoded = Some v.
Proof.
  unfold read_frame. destruct (take_exact 4 s) as [[len|] s1] eqn:E1; [|done]. apply take_exact_ok in E1 as [[I1 _] L1].
  destruct (_ || _) eqn:EB; [done|]. destruct (take_exact _ s1) as [[encoded|] s2] eqn:E2; [|done].
  apply take_exact_ok in E2 as [[I2 _] L2]. destruct (json_from_slice encoded) as [x|] eqn:EJ; [|done]. intros [= -> ->].
  bool_prop. pose proof (from_be_bound len) as Hb. assert (zlen encoded = from_be len) as Hz by (unfold zlen; rewrite L2; lia).
  exists encoded. unfold frame_bytes. rewrite Hz, <- L1, to_be_from_be, <- (assoc_L (++)), <- I2, <- I1.
  split_and!; [done|lia|lia|done].
Qed.
End frames.

(** * The token *)

Inductive TokenError := TokenIo | InvalidLength | InsecurePermissions.

(** What a path holds: nothing, a file with its mode, or a symbolic link. *)
Inductive Node := Absent | FileNode (mode : Z) (content : list byte) | Symlink.

(** [open_token] refuses a link; [validate_permissions] a mode that lets others in
    or the group write. *)
Definition open_token (n : Node) : result TokenError (Z * list byte) :=
  match n with FileNode mode content => Ok (mode, content) | _ => Err TokenIo end.
Definition validate_permissions (mode : Z) : result TokenError unit :=
  if negb (Z.land mode 0x1f =? 0) then Err InsecurePermissions else Ok tt.

(** [BrokerToken::load] and [write_new] under a [umask]. *)
Definition token_load (n : Node) : result TokenError (list byte) :=
  let* file := open_token n in
  let '(mode, content) := file in
  let* _ := validate_permissions mode in
  let bytes := take (TOKEN_BYTES + 1) content in
  require (length bytes =? TOKEN_BYTES)%nat else InvalidLength in
  Ok bytes.
Definition token_write_new (umask : Z) (token : list byte) (n : Node) : result TokenError Node :=
  match n with
  | Absent => Ok (FileNode (Z.ldiff 0x1a0 umask) token)
  | _ => Err TokenIo
  end.

(** [proof], [prove], [verify_proof] and [verify]. *)
Definition proof `{Hmac} (token nonce : list byte) : list byte := hmac_sha256 token (PROOF_CONTEXT ++ nonce).
Definition verify_proof `{Hmac} (token nonce candidate : list byte) : bool :=
  bool_decide (hmac_sha256 token (PROOF_CONTEXT ++ nonce) = candidate).

(** What was written loads, whatever the umask. *)
Lemma token_roundtrip umask token n n' : length token = TOKEN_BYTES -> token_write_new umask token n = Ok n' -> token_load n' = Ok token.
Proof.
  intros Hl. unfold token_write_new. destruct n; [|done..]. intros HE.
  assert (n' = FileNode (Z.ldiff 0x1a0 umask) token) as -> by congruence. clear HE. unfold token_load, open_token, validate_permissions. cbv beta iota.
  assert (Z.land (Z.ldiff 0x1a0 umask) 0x1f = 0) as ->.
  { apply Z.bits_inj'. intros i Hi. rewrite Z.land_spec, Z.ldiff_spec, Z.bits_0.
    destruct (Z.ltb_spec i 5); [|rewrite (Z.bits_above_log2 0x1f i) by (change (Z.log2 0x1f) with 4; lia); by rewrite andb_false_r].
    assert (Z.testbit 0x1a0 i = false) as ->; [|done].
    assert (i = 0 \/ i = 1 \/ i = 2 \/ i = 3 \/ i = 4) as Hi5 by lia. by repeat destruct Hi5 as [->|Hi5]; subst. }
  cbn [Z.eqb negb]. rewrite take_ge by lia. by rewrite Hl.
Qed.

(** * Properties *)

(** A message written as a frame reads back as itself, from whatever stands
    before it in the stream's output and with what follows left unread; what
    is written is never over the limit the reader allows, and the reader never
    takes in more than that. *)
Theorem frame_roundtrip {T} `{JsonLaws T} (v : T) s s' rest out w :
  write_frame v s = (Ok tt, s') ->
  (exists frame, concat (outgoing s') = concat (outgoing s) ++ frame /\ zlen frame <= 4 + MAX_FRAME_BYTES /\
     read_frame (mkStream (frame ++ rest) out w) = (Ok v, mkStream rest out w)) /\
  (forall r (x : T) r', read_frame r = (Ok x, r') ->
     exists encoded, incoming r = frame_bytes encoded ++ incoming r' /\ 0 < zlen encoded <= MAX_FRAME_BYTES).
Proof.
  intros HW. split.
  - apply write_frame_ok in HW as (encoded & Hv & Hl & _ & Ho). exists (frame_bytes encoded).
    split_and!; [done| |by apply read_frame_app]. unfold frame_bytes. rewrite zlen_app. unfold zlen at 1. rewrite length_to_be. lia.
  - intros r x r' (encoded & ? & ? & _)%read_frame_bound. by exists encoded.
Qed.

Definition demo_bytes_json : Json (list byte) := {| json_to_vec := fun l => Some (z2b 34 :: l); json_from_slice := fun l => Some (drop 1 l) |}.
Lemma demo_bytes_laws : @JsonLaws (list byte) demo_bytes_json.
Proof. intros v bytes [= <-]. done. Qed.

Lemma frame_roundtrip_witness :
  exists frame, concat [to_be 4 3; z2b 34 :: str "ok"] = concat [] ++ frame /\ zlen frame <= 4 + MAX_FRAME_BYTES /\
    @read_frame _ demo_bytes_json (mkStream (frame ++ str "more") [] None) = (Ok (str "ok"), mkStream (str "more") [] None).
Proof.
  exact (proj1 (@frame_roundtrip (list byte) demo_bytes_json demo_bytes_laws (str "ok") (mkStream [] [] None)
    (mkStream [] [to_be 4 3; z2b 34 :: str "ok"] None) (str "more") [] None eq_refl)).
Defined.
