(* ===== verification/SharePolicy.v ===== *)
(** Model of three modules of crates/ket-share/src: policy.rs (the addresses a
    nearby device may reach), target.rs (the hosts it may name) and
    credentials.rs (the password it signs in with). *)

From Stdlib Require Import ZArith Lia.
From stdpp Require Import strings.
From S2P Require Import Prelude Utf8 Str Net Bypass.

(** * policy.rs *)

(** [Ipv4Range], [contains] for a length of at most 32. *)
Record Ipv4Range := mkRange { r_network : Z; r_length : Z }.

Global Instance Ipv4Range_eq_dec : EqDecision Ipv4Range.
Proof. solve_decision. Defined.

Definition range_contains (r : Ipv4Range) (address : Z) : bool :=
  let mask := if r_length r =? 0 then 0 else Z.shiftl u32_max (32 - r_length r) mod 2 ^ 32 in
  Z.land address mask =? Z.land (r_network r) mask.

Definition RESERVED_IPV4 : list Ipv4Range := [
  mkRange (ipv4 0 0 0 0) 8;
  mkRange (ipv4 10 0 0 0) 8;
  mkRange (ipv4 100 64 0 0) 10;
  mkRange (ipv4 127 0 0 0) 8;
  mkRange (ipv4 169 254 0 0) 16;
  mkRange (ipv4 172 16 0 0) 12;
  mkRange (ipv4 192 0 0 0) 24;
  mkRange (ipv4 192 0 2 0) 24;
  mkRange (ipv4 192 168 0 0) 16;
  mkRange (ipv4 198 18 0 0) 15;
  mkRange (ipv4 198 51 100 0) 24;
  mkRange (ipv4 203 0 113 0) 24;
  mkRange (ipv4 224 0 0 0) 4;
  mkRange (ipv4 240 0 0 0) 4].

Inductive Origin := Requested | Resolved.

Global Instance Origin_eq_dec : EqDecision Origin.
Proof. solve_decision. Defined.

Definition public_ipv6 (address : Z) : bool :=
  (Z.land (segment address 0) 0xe000 =? 0x2000)
  && negb ((segment address 0 =? 0x2001) && (segment address 1 =? 0x0db8))
  && negb (segment address 0 =? 0x2002).

(** [allowed] for an IPv4 address, and for either kind: an IPv4-mapped address
    is judged as the IPv4 address it stands for. *)
Definition allowed_ipv4 (address : Z) (origin : Origin) (synthetic : option Ipv4Range) : bool :=
  if bool_decide (origin = Resolved) && match synthetic with Some r => range_contains r address | None => false end
  then true
  else negb (existsb (fun r => range_contains r address) RESERVED_IPV4).
Definition allowed (address : IpAddr) (origin : Origin) (synthetic : option Ipv4Range) : bool :=
  match address with
  | V4 address => allowed_ipv4 address origin synthetic
  | V6 address =>
    match to_ipv4_mapped address with
    | Some mapped => allowed_ipv4 mapped origin synthetic
    | None => public_ipv6 address
    end
  end.

(** * target.rs *)

Definition MAX_NAME_LENGTH : Z := 253.
Definition MAX_LABEL_LENGTH : Z := 63.

Inductive Host := HostName (name : list byte) | HostAddress (address : IpAddr).
Record Target := mkTarget { t_host : Host; t_port : Z }.
Inductive TargetError := TargetInvalid | LocalName.

Global Instance Host_eq_dec : EqDecision Host.
Proof. solve_decision. Defined.
Global Instance Target_eq_dec : EqDecision Target.
Proof. solve_decision. Defined.
Global Instance TargetError_eq_dec : EqDecision TargetError.
Proof. solve_decision. Defined.

Definition underscore : byte := z2b 95.
Definition open_bracket : byte := z2b 91.
Definition close_bracket : byte := z2b 93.

Definition label_byte (b : byte) : bool :=
  is_ascii_alphanumeric b || bool_decide (b = hyphen) || bool_decide (b = underscore).
Definition valid_label (label : list byte) : bool :=
  negb (bool_decide (label = [])) && (zlen label <=? MAX_LABEL_LENGTH)
  && negb (starts_with hyphen label) && negb (ends_with_byte hyphen label)
  && forallb label_byte label.

Definition local_suffixes : list (list byte) :=
  map str ["localhost"%string; "local"%string; "internal"%string; "lan"%string; "home"%string; "arpa"%string].

(** The text between brackets, if [text] is in brackets. *)
Definition bracketed (text : list byte) : option (list byte) :=
  match text with
  | b :: rest => if bool_decide (b = open_bracket) then strip_suffix rest [close_bracket] else None
  | [] => None
  end.

(** [Host::parse]. *)
Definition host_parse (text : list byte) : result TargetError Host :=
  match bracketed text with
  | Some inner =>
    match parse_ipv6 inner with Some a => Ok (HostAddress (V6 a)) | None => Err TargetInvalid end
  | None =>
    match parse_ip text with
    | Some a => Ok (HostAddress a)
    | None =>
      let name := map to_ascii_lowercase (default text (strip_suffix text [dot])) in
      require negb (bool_decide (name = [])) && (zlen name <=? MAX_NAME_LENGTH) else TargetInvalid in
      let labels := split_on dot name in
      require forallb valid_label labels else TargetInvalid in
      let last := default [] (last labels) in
      require negb ((length labels =? 1)%nat || bool_decide (last ∈ local_suffixes)) else LocalName in
      require negb (forallb is_ascii_digit last) else TargetInvalid in
      Ok (HostName name)
    end
  end.

(** [Display for Host]. *)
Definition host_display (h : Host) : list byte :=
  match h with
  | HostName name => name
  | HostAddress (V6 a) => open_bracket :: show_ipv6 a ++ [close_bracket]
  | HostAddress a => show_ip a
  end.

Example host_examples :
  map (fun s => host_parse (str s))
    ["Example.COM."%string; "[2001:db8::1]"%string; "198.51.100.7"%string; "router"%string; "printer.local"%string;
     "1.2.3"%string; "a..b"%string; "-a.org"%string] =
  [Ok (HostName (str "example.com")); Ok (HostAddress (V6 (from_segments [0x2001; 0xdb8; 0; 0; 0; 0; 0; 1])));
   Ok (HostAddress (V4 (ipv4 198 51 100 7))); Err LocalName; Err LocalName; Err TargetInvalid; Err TargetInvalid; Err TargetInvalid].
Proof. vm_compute. reflexivity. Qed.

(** * credentials.rs *)

Definition USERNAME : list byte := str "ket".
Definition PASSWORD_LENGTH : nat := 12.
Definition ALPHABET : list byte := str "abcdefghjkmnpqrstuvwxyz23456789".

Record Credentials := mkCredentials { username : list byte; password : list byte }.

(** [Credentials::new], [generate] from twelve draws of [gen_range], and
    [matches]. *)
Definition credentials_new (username password : list byte) : Credentials := mkCredentials username password.
Definition credentials_generate (draw : nat -> nat) : Credentials :=
  credentials_new USERNAME (map (fun i => nth (draw i) ALPHABET (z2b 0)) (seq 0 PASSWORD_LENGTH)).
Definition credentials_match (c : Credentials) (user pass : list byte) : bool :=
  bool_decide (username c = user) && bool_decide (password c = pass).

(** * Lemmas on the policy *)

Lemma range_contains_block r n :
  0 <= r_length r <= 32 -> 0 <= n < 2 ^ 32 -> 0 <= r_network r < 2 ^ 32 ->
  range_contains r n = (n / 2 ^ (32 - r_length r) =? r_network r / 2 ^ (32 - r_length r)).
Proof.
  intros Hl Hn Hr. unfold range_contains.
  assert ((if r_length r =? 0 then 0 else Z.shiftl u32_max (32 - r_length r) mod 2 ^ 32) = shl_max 32 (32 - r_length r)) as ->.
  { unfold shl_max. destruct (Z.eqb_spec (r_length r) 0) as [->|]; [done|].
    by rewrite (proj2 (Z.ltb_lt _ _)) by lia. }
  rewrite !shl_max_land by lia. set (size := 2 ^ (32 - r_length r)).
  assert (0 < size) by (apply Z.pow_pos_nonneg; lia). apply eq_bool_prop_intro. rewrite !Is_true_true, !Z.eqb_eq. nia.
Qed.

(** The ranges of the table, as intervals of addresses. *)
Definition range_first (r : Ipv4Range) : Z := r_network r.
Definition range_last (r : Ipv4Range) : Z := r_network r + 2 ^ (32 - r_length r) - 1.
Definition range_wf (r : Ipv4Range) : Prop :=
  0 <= r_length r <= 32 /\ 0 <= r_network r < 2 ^ 32 /\ r_network r mod 2 ^ (32 - r_length r) = 0.

Lemma range_contains_interval r n :
  range_wf r -> 0 <= n < 2 ^ 32 -> range_contains r n = (range_first r <=? n) && (n <=? range_last r).
Proof.
  intros (Hl & Hr & Hm) Hn. rewrite range_contains_block by done. unfold range_first, range_last.
  set (size := 2 ^ (32 - r_length r)) in *. assert (0 < size) as Hs by (apply Z.pow_pos_nonneg; lia).
  apply eq_bool_prop_intro. rewrite !Is_true_true, andb_true_iff, Z.eqb_eq, !Z.leb_le.
  pose proof (Z.div_mod (r_network r) size ltac:(lia)). pose proof (Z.div_mod n size ltac:(lia)).
  pose proof (Z.mod_pos_bound n size Hs). nia.
Qed.

Lemma reserved_wf : Forall range_wf RESERVED_IPV4.
Proof. repeat (constructor; [split_and!; vm_compute; try done; intros; discriminate|]). constructor. Qed.

(** The special-purpose networks as intervals. *)
Definition special_ipv4 (n : Z) : Prop :=
  exists r, r ∈ RESERVED_IPV4 /\ range_first r <= n <= range_last r.

Lemma reserved_special n : 0 <= n < 2 ^ 32 ->
  existsb (fun r => range_contains r n) RESERVED_IPV4 = true <-> special_ipv4 n.
Proof.
  intros Hn. rewrite existsb_Exists. unfold special_ipv4.
  split; intros (r & Hr & H); exists r; (split; [done|]); revert H;
    rewrite range_contains_interval by (try done; by eapply Forall_forall in Hr; [|apply reserved_wf]);
    rewrite andb_true_iff, !Z.leb_le; done.
Qed.

Lemma mapped_range n m : 0 <= n < 2 ^ 128 -> to_ipv4_mapped n = Some m -> 0 <= m < 2 ^ 32.
Proof. unfold to_ipv4_mapped. intros _ H. break_in H. injection H as <-. apply Z.mod_pos_bound. lia. Qed.

(** The IPv4 address an address stands for, if it does. *)
Definition as_ipv4 (a : IpAddr) : option Z :=
  match a with V4 n => Some n | V6 n => to_ipv4_mapped n end.

(** The public Internet, by intervals: no special-purpose IPv4 network, and
    2000::/3 less 2001:db8::/32 and 2002::/16. *)
Definition public_address (a : IpAddr) : Prop :=
  match as_ipv4 a with
  | Some n => ~ special_ipv4 n
  | None => 2 ^ 125 <= bits a < 2 ^ 126 /\ bits a / 2 ^ 96 <> 0x20010db8 /\ bits a / 2 ^ 112 <> 0x2002
  end.

Lemma segment_first n : 0 <= n < 2 ^ 128 -> segment n 0 = n / 2 ^ 112.
Proof.
  intros. unfold segment. change (65536 ^ (7 - 0)) with (2 ^ 112). apply Z.mod_small.
  split; [apply Z.div_pos; lia|apply Z.div_lt_upper_bound; lia].
Qed.

Lemma segment_pair n : 0 <= n < 2 ^ 128 -> n / 2 ^ 96 = segment n 0 * 65536 + segment n 1.
Proof.
  intros Hn. rewrite segment_first by done. unfold segment. change (65536 ^ (7 - 1)) with (2 ^ 96).
  assert (n / 2 ^ 112 = n / 2 ^ 96 / 65536) as -> by (rewrite Z.div_div by lia; done).
  rewrite (Z.mul_comm _ 65536). apply Z.div_mod. lia.
Qed.

Lemma land_top s : 0 <= s < 65536 -> Z.land s 0xe000 = s / 8192 * 8192.
Proof.
  intros Hs. change 0xe000 with (shl_max 16 13). by apply (shl_max_land 16 s 13).
Qed.

Lemma public_ipv6_spec n : 0 <= n < 2 ^ 128 ->
  public_ipv6 n = true <-> 2 ^ 125 <= n < 2 ^ 126 /\ n / 2 ^ 96 <> 0x20010db8 /\ n / 2 ^ 112 <> 0x2002.
Proof.
  intros Hn. unfold public_ipv6. rewrite segment_pair by done.
  pose proof (segments_range n) as HF. rewrite Forall_forall in HF.
  assert (0 <= segment n 0 < 65536 /\ 0 <= segment n 1 < 65536) as [H0 H1] by (split; apply HF; cbn; set_solver).
  rewrite !andb_true_iff, !negb_true_iff, andb_false_iff, !Z.eqb_neq, Z.eqb_eq, land_top by done.
  rewrite segment_first in * by done. set (s := n / 2 ^ 112) in *.
  assert (s / 8192 = n / 2 ^ 125) as E by (subst s; rewrite Z.div_div by lia; done). rewrite E.
  pose proof (Z.div_mod n (2 ^ 125) ltac:(lia)). pose proof (Z.mod_pos_bound n (2 ^ 125) ltac:(lia)). lia.
Qed.

Lemma allowed_ipv4_spec n o s : 0 <= n < 2 ^ 32 ->
  allowed_ipv4 n o s = true <->
  (o = Resolved /\ exists r, s = Some r /\ range_contains r n = true) \/ ~ special_ipv4 n.
Proof.
  intros Hn. unfold allowed_ipv4. pose proof (reserved_special n Hn) as HR.
  destruct (existsb _ _); destruct (bool_decide_reflect (o = Resolved)) as [->|Ho]; cbn;
    destruct s as [r|]; try destruct (range_contains r n) eqn:E; naive_solver.
Qed.

Lemma allowed_spec a o s : addr_ok a ->
  allowed a o s = true <->
  (o = Resolved /\ exists r n, s = Some r /\ as_ipv4 a = Some n /\ range_contains r n = true) \/ public_address a.
Proof.
  unfold addr_ok, public_address. intros Ha. destruct a as [n|n]; cbn in *.
  - rewrite allowed_ipv4_spec by done. naive_solver.
  - destruct (to_ipv4_mapped n) as [m|] eqn:E.
    + rewrite allowed_ipv4_spec by by eapply mapped_range. naive_solver.
    + rewrite public_ipv6_spec by done. naive_solver.
Qed.

(** The classes of address that mean this device, its network, or many. *)
Definition v4_link_local (n : Z) : bool := (octet 0 n =? 169) && (octet 1 n =? 254).
Definition v6_unique_local (n : Z) : bool := Z.land (segment n 0) 0xfe00 =? 0xfc00.
Definition v6_link_local (n : Z) : bool := Z.land (segment n 0) 0xffc0 =? 0xfe80.
Definition local_class (a : IpAddr) : bool :=
  match as_ipv4 a, a with
  | Some n, _ => v4_loopback n || v4_private n || v4_link_local n || v4_multicast n || v4_unspecified n || v4_broadcast n
  | None, V6 n => v6_loopback n || v6_unspecified n || v6_multicast n || v6_unique_local n || v6_link_local n
  | None, V4 _ => false
  end.

Lemma special_in n r : In r RESERVED_IPV4 -> range_first r <= n <= range_last r -> special_ipv4 n.
Proof. intros Hr H. exists r. split; [by apply list_elem_of_In|done]. Qed.

Lemma octet_first n : 0 <= n < 2 ^ 32 -> octet 0 n = n / 2 ^ 24.
Proof.
  intros. unfold octet. change (256 ^ (3 - 0)) with (2 ^ 24). apply Z.mod_small.
  split; [apply Z.div_pos; lia|apply Z.div_lt_upper_bound; lia].
Qed.

Lemma octet_pair n : 0 <= n < 2 ^ 32 -> n / 2 ^ 16 = octet 0 n * 256 + octet 1 n.
Proof.
  intros Hn. rewrite octet_first by done. unfold octet. change (256 ^ (3 - 1)) with (2 ^ 16).
  assert (n / 2 ^ 24 = n / 2 ^ 16 / 256) as -> by (rewrite Z.div_div by lia; done).
  rewrite (Z.mul_comm _ 256). apply Z.div_mod. lia.
Qed.

Ltac special_range k := eapply (special_in _ (nth k RESERVED_IPV4 (mkRange 0 0))); [cbn [In nth RESERVED_IPV4]; tauto|
  unfold range_first, range_last, ipv4; cbn [nth RESERVED_IPV4 r_network r_length]; unfold ipv4; lia].

Lemma local_ipv4_special n : 0 <= n < 2 ^ 32 ->
  v4_loopback n || v4_private n || v4_link_local n || v4_multicast n || v4_unspecified n || v4_broadcast n = true ->
  special_ipv4 n.
Proof.
  intros Hn. unfold v4_loopback, v4_private, v4_link_local, v4_multicast, v4_unspecified, v4_broadcast.
  pose proof (octet_pair n Hn) as E1. pose proof (octet_first n Hn) as E0.
  pose proof (Z.div_mod n (2 ^ 16) ltac:(lia)). pose proof (Z.mod_pos_bound n (2 ^ 16) ltac:(lia)).
  pose proof (Z.div_mod n (2 ^ 24) ltac:(lia)). pose proof (Z.mod_pos_bound n (2 ^ 24) ltac:(lia)).
  change (ipv4 255 255 255 255) with (2 ^ 32 - 1).
  rewrite !orb_true_iff, !andb_true_iff, !Z.eqb_eq, !Z.leb_le.
  intros [[[[[?|[[?|[[? ?] ?]]|[? ?]]]|[? ?]]|[? ?]]|?]|?].
  - special_range 3%nat.
  - special_range 1%nat.
  - special_range 5%nat.
  - special_range 8%nat.
  - special_range 4%nat.
  - special_range 12%nat.
  - special_range 0%nat.
  - special_range 13%nat.
Qed.

Lemma land_small s m k : 0 <= s < 16384 -> Z.testbit k 15 = true -> Z.land s m <> k.
Proof.
  intros Hs Hk <-. rewrite Z.land_spec, Z.testbit_eqb, Z.div_small in Hk by lia. done.
Qed.

Lemma public_not_local a : addr_ok a -> public_address a -> local_class a = false.
Proof.
  unfold addr_ok, public_address, local_class. intros Ha. destruct (as_ipv4 a) as [n|] eqn:E.
  - intros Hp. apply not_true_is_false. intros Hl. apply Hp, local_ipv4_special; [|done].
    destruct a as [m|m]; cbn in *; [by simplify_eq|by eapply mapped_range].
  - destruct a as [n|n]; [done|]. cbn in *. intros (Hn & _ & _).
    pose proof (segment_first n ltac:(lia)) as Es.
    assert (0 <= segment n 0 < 16384) as Hs.
    { rewrite Es. split; [apply Z.div_pos; lia|apply Z.div_lt_upper_bound; lia]. }
    unfold v6_loopback, v6_unspecified, v6_multicast, v6_unique_local, v6_link_local.
    rewrite !orb_false_iff, !Z.eqb_neq. split_and!; [lia|lia|by apply land_small..].
Qed.

(** * Lemmas on hosts *)

(** Dotted text ends in digits, and IPv6 text has a colon: what [host_parse]
    takes for a name is neither. *)
Lemma read_digits_consumed radix s c v c' v' r :
  read_digits radix s c v = (c', v', r) -> exists p, s = p ++ r /\ Forall (fun b => is_Some (to_digit radix b)) p.
Proof.
  revert c v; induction s as [|b s IH]; intros c v; cbn; [intros [= <- <- <-]; by exists []|].
  destruct (to_digit radix b) as [d|] eqn:E.
  - intros (p & -> & HF)%IH. exists (b :: p). split; [done|]. by constructor; [rewrite E|].
  - intros [= <- <- <-]. by exists [].
Qed.

Lemma read_number_consumed radix m max a s v r :
  read_number radix m max a s = Some (v, r) -> exists p, s = p ++ r /\ Forall (fun b => is_Some (to_digit radix b)) p.
Proof.
  unfold read_number. destruct (read_digits radix s 0 0) as [[c w] q] eqn:E. apply read_digits_consumed in E.
  intros HR. break_in HR; by injection HR as _ <-.
Qed.

Lemma to_digit_10 b : is_Some (to_digit 10 b) -> is_ascii_digit b = true.
Proof.
  unfold to_digit, is_ascii_lowercase, is_ascii_uppercase. pose proof (b2z_bound b). destruct (is_ascii_digit b); [done|]. intros [d Hd].
  break_in Hd; bool_prop; lia.
Qed.

Lemma read_octet_consumed i s v r : read_octet (S i) s = Some (v, r) ->
  exists p, s = dot :: p ++ r /\ forallb is_ascii_digit p = true.
Proof.
  unfold read_octet, read_separator, read_given_char. destruct s as [|b s]; [done|]. case_bool_decide; [|done]. subst b.
  intros (p & -> & HF)%read_number_consumed. exists p. split; [done|]. rewrite forallb_Forall.
  eapply Forall_impl; [exact HF|]. apply to_digit_10.
Qed.

(** A number in dotted form ends in a label of digits. *)
Lemma read_ipv4_ends s n : read_ipv4_addr s = Some (n, []) ->
  exists p d, s = p ++ dot :: d /\ forallb is_ascii_digit d = true.
Proof.
  unfold read_ipv4_addr. destruct (read_octet 0 s) as [[a s1]|] eqn:E0; [|done].
  destruct (read_octet 1 s1) as [[b s2]|] eqn:E1; [|done]. destruct (read_octet 2 s2) as [[c s3]|] eqn:E2; [|done].
  destruct (read_octet 3 s3) as [[d s4]|] eqn:E3; [|done]. intros [= _ ->].
  apply read_octet_consumed in E1 as (p1 & -> & _), E2 as (p2 & -> & _), E3 as (p3 & -> & HF).
  apply read_number_consumed in E0 as (p0 & -> & _). rewrite app_nil_r.
  exists (p0 ++ dot :: p1 ++ dot :: p2), p3. split; [|done]. by rewrite <- (assoc_L (++)), <- app_comm_cons, <- (assoc_L (++)).
Qed.

Lemma read_groups_no_colon limit i s : colon ∉ s -> read_groups limit (S i) s = ([], false, s).
Proof.
  intros Hc. destruct limit as [|limit]; [done|]. cbn [read_groups].
  assert (forall A (p : parser A), read_separator colon (S i) p s = None) as HN.
  { intros A p. cbn. destruct s as [|b s]; [done|]. cbn. rewrite bool_decide_false; [done|]. intros ->. apply Hc. left. }
  rewrite !HN. by destruct limit.
Qed.

Lemma read_ipv6_no_colon s : colon ∉ s -> read_ipv6_addr s = None.
Proof.
  intros Hc. assert (forall r, (exists p, s = p ++ r) -> read_given_char colon r = None) as HG.
  { intros r [p ->]. destruct r as [|b r]; [done|]. cbn. rewrite bool_decide_false; [done|]. intros ->.
    apply Hc. rewrite elem_of_app, elem_of_cons. auto. }
  unfold read_ipv6_addr. assert (read_groups 8 0 s =
    match read_ipv4_addr s with
    | Some (v4, s) => ([v4 / 65536; v4 mod 65536], true, s)
    | None => match read_number 16 4 u16_max true s with
              | Some (g, s) => let '(gs, v4, s) := read_groups 7 1 s in (g :: gs, v4, s)
              | None => ([], false, s)
              end
    end) as -> by reflexivity.
  destruct (read_ipv4_addr s) as [[v r]|]; [done|].
  destruct (read_number 16 4 u16_max true s) as [[g r]|] eqn:E.
  - apply read_number_consumed in E as (p & -> & _). rewrite read_groups_no_colon by (intros ?; apply Hc; rewrite elem_of_app; auto).
    cbn. rewrite HG; [done|eauto].
  - cbn. rewrite HG; [done|by exists []].
Qed.

Lemma lowercase_idem b : to_ascii_lowercase (to_ascii_lowercase b) = to_ascii_lowercase b.
Proof. destruct b; reflexivity. Qed.

Lemma strip_suffix_some s x r : strip_suffix s x = Some r <-> s = r ++ x.
Proof.
  unfold strip_suffix, ends_with. split.
  - case_bool_decide as H; [|done]. intros [= <-]. rewrite <- H at 2. by rewrite take_drop.
  - intros ->. rewrite length_app. replace (length r + length x - length x)%nat with (length r) by lia.
    rewrite drop_app_length, bool_decide_true by done. by rewrite take_app_length.
Qed.

Lemma strip_suffix_none s x : (forall r, s <> r ++ x) -> strip_suffix s x = None.
Proof. intros H. destruct (strip_suffix s x) as [r|] eqn:E; [|done]. apply strip_suffix_some in E. by apply H in E. Qed.

(** What [host_parse] keeps as a name. *)
Definition good_name (name : list byte) : Prop :=
  map to_ascii_lowercase name = name /\ name <> [] /\ zlen name <= MAX_NAME_LENGTH /\
  forallb valid_label (split_on dot name) = true /\
  (1 < length (split_on dot name))%nat /\
  (forall l, last (split_on dot name) = Some l -> l ∉ local_suffixes /\ forallb is_ascii_digit l = false).

Lemma map_lowercase_idem s : map to_ascii_lowercase (map to_ascii_lowercase s) = map to_ascii_lowercase s.
Proof. rewrite map_map. apply map_ext. apply lowercase_idem. Qed.

Lemma host_parse_cases text h : host_parse text = Ok h ->
  match h with
  | HostName name => good_name name
  | HostAddress a => addr_ok a
  end.
Proof.
  unfold host_parse. destruct (bracketed text) as [inner|].
  - destruct (parse_ipv6 inner) as [a|] eqn:E; [|done]. intros [= <-]. unfold parse_ipv6, parse_with in E. break_in E; simplify_eq.
    by eapply read_ipv6_range.
  - destruct (parse_ip text) as [a|] eqn:E; [intros [= <-]; by eapply parse_ip_ok|]. intros HP. break_in HP. injection HP as <-.
    bool_prop. unfold good_name. rewrite map_lowercase_idem. split_and!; try done.
    + pose proof (split_on_nonempty dot (map to_ascii_lowercase (default text (strip_suffix text [dot])))).
      destruct (split_on dot _) as [|x [|y l]]; [done| |cbn; lia]. done.
    + intros l Hl. by rewrite Hl in *.
Qed.

(** A name is not an address, nor in brackets, nor ends in a dot. *)
Lemma valid_label_bytes l : valid_label l = true -> forallb label_byte l = true.
Proof. unfold valid_label. intros H. by bool_prop. Qed.

Lemma name_bytes name b : forallb valid_label (split_on dot name) = true -> b ∈ name -> b = dot \/ label_byte b = true.
Proof.
  rewrite forallb_Forall, Forall_forall. intros HF Hb. rewrite <- (join_split dot name) in Hb.
  assert (exists l, l ∈ split_on dot name /\ b ∈ l \/ b = dot) as (l & [[Hl Hbl]| -> ]); [|right|by left].
  - revert Hb. clear. induction (split_on dot name) as [|x [|y l] IH]; cbn [join]; [set_solver|set_solver|].
    rewrite elem_of_app, elem_of_cons. intros [?|[->|Hb]]; [exists x; left; set_solver|exists []; by right|].
    destruct (IH Hb) as (z & [[? ?]|?]); exists z; [left; set_solver|by right].
  - specialize (HF l Hl). apply valid_label_bytes in HF. rewrite forallb_Forall, Forall_forall in HF. by apply HF.
Qed.

Lemma label_byte_not b : label_byte b = true -> b <> open_bracket /\ b <> colon /\ b <> dot.
Proof. intros H. split_and!; intros ->; by vm_compute in H. Qed.

Lemma name_not_bracketed name : forallb valid_label (split_on dot name) = true -> bracketed name = None.
Proof.
  intros HL. destruct name as [|b name]; [done|]. cbn. rewrite bool_decide_false; [done|]. intros ->.
  destruct (name_bytes _ _ HL ltac:(left)) as [|H]; [done|]. by apply label_byte_not in H as (? & _).
Qed.

Lemma name_not_address name :
  forallb valid_label (split_on dot name) = true ->
  (forall l, last (split_on dot name) = Some l -> forallb is_ascii_digit l = false) -> parse_ip name = None.
Proof.
  intros HL Hlast. unfold parse_ip, parse_with, read_ip_addr.
  assert (colon ∉ name) as Hc by (intros [|H]%(name_bytes _ _ HL); [done|by apply label_byte_not in H as (_ & ? & _)]).
  rewrite (read_ipv6_no_colon name) by done.
  destruct (read_ipv4_addr name) as [[n r]|] eqn:E; [|done]. destruct r as [|b r]; [|done].
  apply read_ipv4_ends in E as (p & d & -> & Hd). rewrite (Hlast d) in Hd; [done|]. apply split_on_last.
  intros H. rewrite forallb_Forall, Forall_forall in Hd. apply Hd in H. by vm_compute in H.
Qed.

Lemma name_no_final_dot name : forallb valid_label (split_on dot name) = true -> strip_suffix name [dot] = None.
Proof.
  intros HL. apply strip_suffix_none. intros r ->. rewrite split_on_sep, forallb_app in HL. bool_prop. done.
Qed.

Lemma host_parse_name name : good_name name -> host_parse name = Ok (HostName name).
Proof.
  intros (Hlow & Hne & Hlen & HL & Hcount & Hlast). unfold host_parse.
  rewrite name_not_bracketed, name_not_address, name_no_final_dot by (try done; intros l Hl; by apply Hlast).
  cbn [default from_option id]. rewrite Hlow, HL, (bool_decide_false (name = [])), (proj2 (Z.leb_le _ _)) by done. cbn [negb andb].
  rewrite (proj2 (Nat.eqb_neq _ _)) by lia. cbn [orb].
  destruct (last (split_on dot name)) as [l|] eqn:E; [|by apply last_None, split_on_nonempty in E].
  destruct (Hlast l eq_refl) as [Hn Hd]. cbn [default from_option id]. by rewrite bool_decide_false, Hd by done.
Qed.

Lemma bracketed_show n : bracketed (open_bracket :: show_ipv6 n ++ [close_bracket]) = Some (show_ipv6 n).
Proof. cbn [bracketed]. rewrite bool_decide_true by done. by apply strip_suffix_some. Qed.

(** Dotted text does not open with a bracket. *)
Lemma show_ipv4_not_bracketed n : bracketed (show_ipv4 n) = None.
Proof.
  destruct (show_ipv4 n) as [|b s] eqn:E; [done|]. cbn. rewrite bool_decide_false; [done|]. intros ->.
  apply (show_ipv4_free open_bracket n); [done..|]. rewrite E. left.
Qed.

Lemma host_display_parse h :
  match h with HostName name => good_name name | HostAddress a => addr_ok a end ->
  host_parse (host_display h) = Ok h.
Proof.
  destruct h as [name|[n|n]]; cbn [host_display]; [apply host_parse_name| |]; intros Ha; unfold host_parse.
  - cbn [show_ip]. rewrite show_ipv4_not_bracketed. pose proof (parse_show_ip (V4 n) Ha) as HP. cbn [show_ip] in HP. by rewrite HP.
  - by rewrite bracketed_show, parse_show_ipv6.
Qed.
