(* ===== verification/ShareDns.v ===== *)
(** Model of crates/ket-share/src/dns.rs: the query for a name's IPv4
    addresses, the reading of a response, and the lookup that sends one and
    waits for the other; with the error type of egress.rs. *)

From Stdlib Require Import ZArith Lia.
From stdpp Require Import strings.
From S2P Require Import Prelude Utf8 Str Net SharePolicy.

(** [EgressError] and [from_connect] of an [io::ErrorKind]. *)
Inductive EgressError := NoTunnel | Unresolved | TimedOut | Refused | Unreachable.
Inductive IoErrorKind := ConnectionRefused | IoTimedOut | IoOther.
Definition from_connect (kind : IoErrorKind) : EgressError :=
  match kind with ConnectionRefused => Refused | IoTimedOut => TimedOut | IoOther => Unreachable end.

Global Instance EgressError_eq_dec : EqDecision EgressError.
Proof. solve_decision. Defined.

Definition TRIES : nat := 2.
Definition HEADER : nat := 12.
Definition TYPE_A : Z := 1.
Definition CLASS_IN : Z := 1.

(** The labels of a name as a packet has them. *)
Definition label_bytes (label : list byte) : list byte := z2b (zlen label) :: label.

(** [query]. *)
Definition query (id : Z) (name : list byte) : list byte :=
  to_be 2 id ++ map z2b [1; 0; 0; 1; 0; 0; 0; 0; 0; 0]
  ++ flat_map label_bytes (split_on dot name) ++ [z2b 0]
  ++ to_be 2 TYPE_A ++ to_be 2 CLASS_IN.

Inductive Answer := Addresses (l : list Z) | NotFound | Ignored.

(** [slice.get(from..from + count)]. *)
Definition get_range (l : list byte) (from count : nat) : option (list byte) :=
  if (from + count <=? length l)%nat then Some (take count (drop from l)) else None.

(** [skip_name] within a number of steps: [None] if they do not suffice. *)
Fixpoint skip_name_fuel (fuel : nat) (packet : list byte) (offset : nat) : option (option nat) :=
  match fuel with
  | O => None
  | S fuel =>
    match packet !! offset with
    | None => Some None
    | Some length =>
      let length := b2z length in
      if length =? 0 then Some (Some (offset + 1)%nat)
      else if Z.land length 0xc0 =? 0xc0 then
        match packet !! (offset + 1)%nat with
        | Some _ => Some (Some (offset + 2)%nat)
        | None => Some None
        end
      else if Z.land length 0xc0 =? 0 then skip_name_fuel fuel packet (offset + 1 + Z.to_nat length)
      else Some None
    end
  end.
(** Each step leaves bytes behind, so as many as the packet has suffice. *)
Definition skip_name (packet : list byte) (offset : nat) : option nat :=
  default None (skip_name_fuel (S (length packet)) packet offset).

(** The two big-endian bytes at [i]. *)
Definition u16_at (l : list byte) (i : nat) : Z := from_be (take 2 (drop i l)).

(** The loop of [read_answer] over the records. *)
Fixpoint read_records (answers : nat) (response : list byte) (offset : nat) (addresses : list Z) : option (list Z) :=
  match answers with
  | O => Some addresses
  | S answers =>
    match skip_name response offset with
    | None => None
    | Some offset =>
      match get_range response offset 10 with
      | None => None
      | Some fixed =>
        let kind := u16_at fixed 0 in
        let class := u16_at fixed 2 in
        let length := Z.to_nat (u16_at fixed 8) in
        let offset := (offset + 10)%nat in
        match get_range response offset length with
        | None => None
        | Some data =>
          let addresses := if (kind =? TYPE_A) && (class =? CLASS_IN) && (length =? 4)%nat
                           then addresses ++ [from_be data] else addresses in
          read_records answers response (offset + length) addresses
        end
      end
    end
  end.

(** [read_answer] and [answer]. *)
Definition read_answer (id : Z) (name response : list byte) : option Answer :=
  match get_range response 0 HEADER with
  | None => None
  | Some header =>
    if negb (u16_at header 0 =? id) || (Z.land (b2z (nth 2 header (z2b 0))) 0x80 =? 0) then None
    else
      let questions := u16_at header 4 in
      let answers := u16_at header 6 in
      if negb (questions =? 1) then None
      else
        let asked := drop HEADER (query id name) in
        match get_range response HEADER (length asked) with
        | None => None
        | Some got =>
          if negb (eq_ignore_ascii_case got asked) then None
          else
            let rcode := Z.land (b2z (nth 3 header (z2b 0))) 0x0f in
            if rcode =? 3 then Some NotFound
            else if negb (rcode =? 0) then None
            else
              match read_records (Z.to_nat answers) response (HEADER + length asked) [] with
              | None => None
              | Some [] => Some NotFound
              | Some addresses => Some (Addresses addresses)
              end
        end
  end.
Definition answer (id : Z) (name response : list byte) : Answer := default Ignored (read_answer id name response).

(** [lookup] over what the socket does: for each try whether the query could
    be sent, and the packets received before the try times out ([None] for a
    failed receive).  A packet is read into 1500 bytes. *)
Definition Received := list (option (list byte)).
Fixpoint receive_loop (id : Z) (name : list byte) (received : Received) : option (result EgressError (list IpAddr)) :=
  match received with
  | [] => None
  | None :: _ => Some (Err NoTunnel)
  | Some packet :: received =>
    match answer id name (take 1500 packet) with
    | Addresses addresses => Some (Ok (map V4 addresses))
    | NotFound => Some (Err Unresolved)
    | Ignored => receive_loop id name received
    end
  end.
Fixpoint lookup_tries (tries : nat) (id : Z) (name : list byte) (socket : list (bool * Received)) : result EgressError (list IpAddr) :=
  match tries with
  | O => Err TimedOut
  | S tries =>
    match socket with
    | [] => Err TimedOut
    | (sent, received) :: socket =>
      if sent then
        match receive_loop id name received with
        | Some result => result
        | None => lookup_tries tries id name socket
        end
      else Err NoTunnel
    end
  end.
Definition lookup_name (id : Z) (name : list byte) (socket : list (bool * Received)) : result EgressError (list IpAddr) :=
  lookup_tries TRIES id name socket.

(** * The packets *)

Lemma get_range_app l m k n : n = length m -> get_range (l ++ m ++ k) (length l) n = Some m.
Proof.
  intros ->. unfold get_range. rewrite !length_app, (proj2 (Nat.leb_le _ _)) by lia.
  by rewrite drop_app_length, take_app_length.
Qed.

(** [skip_name] always ends: a step moves the offset on. *)
Lemma skip_name_fuel_enough fuel packet offset :
  (length packet - offset < fuel)%nat -> exists r, skip_name_fuel fuel packet offset = Some r.
Proof.
  revert offset; induction fuel as [|fuel IH]; intros offset Hf; cbn [skip_name_fuel]; [lia|].
  destruct (packet !! offset) as [b|] eqn:E; [|eauto]. apply lookup_lt_Some in E. pose proof (b2z_bound b).
  destruct (b2z b =? 0); [eauto|]. destruct (_ =? 0xc0); [destruct (packet !! (offset + 1)%nat); eauto|].
  destruct (_ =? 0); [|eauto]. apply IH. lia.
Qed.

Lemma skip_name_fuel_mono fuel more packet offset r :
  skip_name_fuel fuel packet offset = Some r -> (fuel <= more)%nat -> skip_name_fuel more packet offset = Some r.
Proof.
  revert more offset; induction fuel as [|fuel IH]; intros [|more] offset HS Hm; cbn [skip_name_fuel] in *; try done; [lia|].
  break_in HS; try done. apply IH; [done|lia].
Qed.

Lemma skip_name_unfuelled fuel packet offset r :
  skip_name_fuel fuel packet offset = Some r -> skip_name packet offset = r.
Proof.
  intros HS. unfold skip_name. destruct (skip_name_fuel_enough (S (length packet)) packet offset) as [q Hq]; [lia|].
  rewrite Hq. cbn. apply (skip_name_fuel_mono _ (max fuel (S (length packet)))) in HS, Hq; [congruence|lia..].
Qed.

(** Names as a server writes them: labels, then the root or a pointer. *)
Inductive NameEnd := Root | Pointer (high low : byte).
Definition encode_end (e : NameEnd) : list byte := match e with Root => [z2b 0] | Pointer a b => [a; b] end.
Definition encode_name (labels : list (list byte)) (e : NameEnd) : list byte := flat_map label_bytes labels ++ encode_end e.
Definition name_ok (labels : list (list byte)) (e : NameEnd) : Prop :=
  Forall (fun l => 1 <= zlen l <= MAX_LABEL_LENGTH) labels /\
  match e with Root => True | Pointer a _ => Z.land (b2z a) 0xc0 = 0xc0 end.

Lemma small_label_bits n : 0 <= n <= 63 -> Z.land n 0xc0 = 0.
Proof.
  intros Hn. change 0xc0 with (Z.shiftl 3 6). apply Z.bits_inj'. intros i Hi. rewrite Z.land_spec, Z.bits_0.
  destruct (Z.ltb_spec i 6); [by rewrite Z.shiftl_spec_low, andb_false_r by lia|].
  rewrite Z.testbit_eqb, Z.div_small by (pose proof (Z.pow_le_mono_r 2 6 i); lia). done.
Qed.

Lemma label_step fuel pre l post : 1 <= zlen l <= MAX_LABEL_LENGTH ->
  skip_name_fuel (S fuel) (pre ++ label_bytes l ++ post) (length pre) =
  skip_name_fuel fuel ((pre ++ label_bytes l) ++ post) (length (pre ++ label_bytes l)).
Proof.
  unfold MAX_LABEL_LENGTH. intros Hl. unfold label_bytes. rewrite <- (app_comm_cons l post). cbn [skip_name_fuel].
  rewrite list_lookup_middle by done. rewrite b2z_z2b_small by lia. rewrite (proj2 (Z.eqb_neq _ _)) by lia.
  rewrite small_label_bits by lia. cbn [Z.eqb]. rewrite <- (assoc_L (++)). f_equal. unfold zlen in *. rewrite length_app. cbn [length]. lia.
Qed.

Lemma skip_encoded labels e pre post : name_ok labels e ->
  skip_name_fuel (S (length labels)) (pre ++ encode_name labels e ++ post) (length pre) =
  Some (Some (length pre + length (encode_name labels e))%nat).
Proof.
  intros [HF He]. revert pre. induction HF as [|l labels Hl HF IH]; intros pre.
  - unfold encode_name. cbn [flat_map app length]. destruct e as [|a b]; cbn [encode_end app length skip_name_fuel].
    + by rewrite list_lookup_middle by done.
    + rewrite list_lookup_middle, He by done. destruct (Z.eqb_spec (b2z a) 0) as [E|_]; [by rewrite E in He|]. cbn [Z.eqb Pos.eqb].
      assert ((pre ++ a :: b :: post) !! (length pre + 1)%nat = Some b) as ->; [|done].
      rewrite (cons_middle a), (assoc_L (++)). apply list_lookup_middle. rewrite length_app. done.
  - unfold encode_name in *. cbn [flat_map length]. rewrite <- (assoc_L (++) (label_bytes l)), <- (assoc_L (++) (label_bytes l)).
    rewrite label_step, IH by done. rewrite !length_app. do 2 f_equal. lia.
Qed.

Lemma skip_name_encoded labels e pre post : name_ok labels e ->
  skip_name (pre ++ encode_name labels e ++ post) (length pre) = Some (length pre + length (encode_name labels e))%nat.
Proof. intros H. eapply skip_name_unfuelled, skip_encoded, H. Qed.

(** Resource records. *)
Record Resource := mkResource {
  rr_labels : list (list byte); rr_end : NameEnd; rr_kind : Z; rr_class : Z; rr_ttl : list byte; rr_data : list byte;
}.
Definition rr_fixed (r : Resource) : list byte :=
  to_be 2 (rr_kind r) ++ to_be 2 (rr_class r) ++ rr_ttl r ++ to_be 2 (zlen (rr_data r)).
Definition encode_resource (r : Resource) : list byte := encode_name (rr_labels r) (rr_end r) ++ rr_fixed r ++ rr_data r.
Definition resource_ok (r : Resource) : Prop :=
  name_ok (rr_labels r) (rr_end r) /\ in_u16 (rr_kind r) /\ in_u16 (rr_class r) /\ length (rr_ttl r) = 4%nat /\ in_u16 (zlen (rr_data r)).
(** The address a record gives, if it is an IPv4 address record. *)
Definition rr_address (r : Resource) : option Z :=
  if (rr_kind r =? TYPE_A) && (rr_class r =? CLASS_IN) && (length (rr_data r) =? 4)%nat then Some (from_be (rr_data r)) else None.

Lemma u16_at_app l a k i : length l = i -> in_u16 a -> u16_at (l ++ to_be 2 a ++ k) i = a.
Proof.
  intros <- Ha. unfold u16_at. rewrite drop_app_length.
  assert (take 2 (to_be 2 a ++ k) = to_be 2 a) as -> by (rewrite take_app_le by (by rewrite length_to_be); by rewrite take_ge by by rewrite length_to_be).
  apply from_be_to_be. unfold in_u16, u16_max in Ha. change (256 ^ Z.of_nat 2) with 65536. lia.
Qed.

Lemma fixed_fields r : resource_ok r ->
  length (rr_fixed r) = 10%nat /\ u16_at (rr_fixed r) 0 = rr_kind r /\ u16_at (rr_fixed r) 2 = rr_class r /\
  u16_at (rr_fixed r) 8 = zlen (rr_data r).
Proof.
  intros (_ & Hk & Hc & Ht & Hd). unfold rr_fixed. split_and!.
  - rewrite !length_app, !length_to_be, Ht. done.
  - by apply (u16_at_app []).
  - apply u16_at_app; [by rewrite length_to_be|done].
  - rewrite !(assoc_L (++)). rewrite <- (app_nil_r (to_be 2 (zlen (rr_data r)))).
    apply u16_at_app; [rewrite !length_app, !length_to_be, Ht; done|done].
Qed.

Lemma read_record answers r pre post acc : resource_ok r ->
  read_records (S answers) (pre ++ encode_resource r ++ post) (length pre) acc =
  read_records answers ((pre ++ encode_resource r) ++ post) (length (pre ++ encode_resource r)) (acc ++ from_option (fun a => [a]) [] (rr_address r)).
Proof.
  intros Hr. destruct (fixed_fields r Hr) as (Hlen & Hk & Hc & Hd). destruct Hr as (Hname & _ & _ & _ & Hu).
  cbn [read_records]. unfold encode_resource. rewrite <- !(assoc_L (++)).
  rewrite skip_name_encoded by done. rewrite <- length_app, (assoc_L (++) pre), get_range_app by done.
  rewrite Hk, Hc, Hd. replace (length (pre ++ encode_name (rr_labels r) (rr_end r)) + 10)%nat
    with (length ((pre ++ encode_name (rr_labels r) (rr_end r)) ++ rr_fixed r)) by (rewrite length_app, Hlen; done).
  rewrite (assoc_L (++) (pre ++ _)). unfold zlen. rewrite get_range_app by by rewrite Nat2Z.id.
  rewrite Nat2Z.id. unfold rr_address. f_equal; [rewrite !length_app; lia|].
  destruct ((rr_kind r =? TYPE_A) && _ && _); cbn; [done|by rewrite app_nil_r].
Qed.

Lemma read_encoded rs pre post acc : Forall resource_ok rs ->
  read_records (length rs) (pre ++ flat_map encode_resource rs ++ post) (length pre) acc = Some (acc ++ omap rr_address rs).
Proof.
  intros HF. revert pre acc; induction HF as [|r rs Hr HF IH]; intros pre acc; [by rewrite app_nil_r|].
  cbn [flat_map length]. rewrite <- (assoc_L (++) (encode_resource r)), read_record, IH by done.
  rewrite <- (assoc_L (++)). cbn [omap list_omap]. by destruct (rr_address r).
Qed.

(** A response: its header, a question, and records. *)
Definition response_packet (id : Z) (flags : list byte) (counts : list byte) (rs : list Resource) (question rest : list byte) : list byte :=
  (to_be 2 id ++ flags ++ to_be 2 1 ++ to_be 2 (zlen rs) ++ counts) ++ question ++ flat_map encode_resource rs ++ rest.

Lemma read_answer_response id a b counts rs question rest name :
  in_u16 id -> in_u16 (zlen rs) -> length counts = 4%nat ->
  Z.land (b2z a) 0x80 <> 0 -> Z.land (b2z b) 0x0f = 0 ->
  length question = length (drop HEADER (query id name)) ->
  eq_ignore_ascii_case question (drop HEADER (query id name)) = true -> Forall resource_ok rs ->
  read_answer id name (response_packet id [a; b] counts rs question rest) =
  Some (match omap rr_address rs with [] => NotFound | l => Addresses l end).
Proof.
  intros Hid Hn Hc Ha Hb Hl HE HF. unfold read_answer, response_packet.
  set (header := to_be 2 id ++ [a; b] ++ to_be 2 1 ++ to_be 2 (zlen rs) ++ counts).
  assert (length header = 12%nat) as Hh by (subst header; rewrite !length_app, !length_to_be, Hc; done).
  pose proof (get_range_app [] header (question ++ flat_map encode_resource rs ++ rest) HEADER (eq_sym Hh)) as HG.
  cbn [app length] in HG. rewrite HG.
  assert (u16_at header 0 = id) as -> by by apply (u16_at_app []).
  assert (u16_at header 4 = 1) as -> by (apply (u16_at_app (to_be 2 id ++ [a; b]) 1); [by rewrite length_app, length_to_be|done]).
  assert (u16_at header 6 = zlen rs) as ->
    by (apply (u16_at_app (to_be 2 id ++ [a; b] ++ to_be 2 1)); [by rewrite !length_app, !length_to_be|done]).
  assert (nth 2 header (z2b 0) = a /\ nth 3 header (z2b 0) = b) as [-> ->] by (split; reflexivity).
  rewrite Z.eqb_refl, (proj2 (Z.eqb_neq _ 0) Ha), Hb. cbn [negb orb Z.eqb Pos.eqb].
  change HEADER with 12%nat in *. rewrite <- Hh at 1. rewrite get_range_app by done. rewrite HE. cbn [negb].
  replace (12 + length (drop 12 (query id name)))%nat with (length (header ++ question)) by (rewrite length_app; lia).
  rewrite (assoc_L (++) header). unfold zlen. rewrite Nat2Z.id, read_encoded by done. cbn [app]. by destruct (omap rr_address rs).
Qed.

(** ** What is read as an answer *)

Lemma get_range_some l from n m : get_range l from n = Some m ->
  l = take from l ++ m ++ drop (from + n) l /\ length m = n /\ length (take from l) = from.
Proof.
  unfold get_range. intros H. break_in H. injection H as <-. bool_prop. rewrite !length_take, length_drop. split_and!; [|lia..].
  by rewrite <- drop_drop, take_drop, take_drop.
Qed.

Lemma read_records_range answers response offset acc l :
  Forall (fun a => 0 <= a < 2 ^ 32) acc -> read_records answers response offset acc = Some l -> Forall (fun a => 0 <= a < 2 ^ 32) l.
Proof.
  revert offset acc; induction answers as [|answers IH]; intros offset acc HA; cbn [read_records]; [by intros [= <-]|].
  destruct (skip_name response offset) as [o|]; [|done]. destruct (get_range response o 10) as [fixed|]; [|done].
  destruct (get_range response (o + 10) _) as [data|] eqn:E; [|done]. apply IH.
  destruct (_ && _) eqn:Ec; [|done]. apply andb_true_iff in Ec as [_ E4]. apply Nat.eqb_eq in E4.
  apply Forall_app. split; [done|]. constructor; [|done]. apply get_range_some in E as (_ & Hl & _).
  pose proof (from_be_bound data) as HB. unfold zlen in HB. rewrite Hl, E4 in HB. exact HB.
Qed.

(** A packet that answers the query [id] for [name]. *)
Definition answers_query (id : Z) (name packet : list byte) : Prop :=
  exists header question rest,
    packet = header ++ question ++ rest /\ length header = HEADER /\ u16_at header 0 = id /\
    Z.land (b2z (nth 2 header (z2b 0))) 0x80 <> 0 /\ u16_at header 4 = 1 /\
    eq_ignore_ascii_case question (drop HEADER (query id name)) = true.

Lemma read_answer_ours id name response a :
  read_answer id name response = Some a ->
  answers_query id name response /\
  match a with Addresses l => l <> [] /\ Forall (fun n => 0 <= n < 2 ^ 32) l | _ => True end.
Proof.
  unfold read_answer. destruct (get_range response 0 HEADER) as [header|] eqn:EH; [|done].
  destruct (negb (u16_at header 0 =? id) || _) eqn:Eid; [done|]. destruct (negb (u16_at header 4 =? 1)) eqn:Eq; [done|].
  destruct (get_range response HEADER _) as [got|] eqn:EG; [|done]. destruct (negb (eq_ignore_ascii_case _ _)) eqn:EE; [done|].
  bool_prop. intros HA. split.
  - exists header, got, (drop (HEADER + length (drop HEADER (query id name))) response).
    apply get_range_some in EG as (EG & _ & Hl'). apply get_range_some in EH as HL. destruct HL as (_ & Hl & _).
    unfold get_range in EH. break_in EH. injection EH as <-. by split_and!.
  - break_in HA; injection HA as <-; try done. split; [done|]. by eapply read_records_range, E1.
Qed.

(** ** The query *)

Lemma flat_labels_length labels : labels <> [] ->
  length (flat_map label_bytes labels) = S (length (join dot labels)).
Proof.
  induction labels as [|l [|m labels] IH]; intros Hne; [done|cbn; rewrite app_nil_r; done|].
  assert (length (flat_map label_bytes (l :: m :: labels)) = (S (length l) + length (flat_map label_bytes (m :: labels)))%nat) as ->
    by (cbn [flat_map label_bytes]; rewrite length_app; done).
  rewrite IH by done. change (join dot (l :: m :: labels)) with (l ++ dot :: join dot (m :: labels)).
  rewrite length_app. cbn [length]. lia.
Qed.

Lemma query_length id name : zlen (query id name) = zlen name + 18.
Proof.
  unfold query, zlen. rewrite !length_app, !length_to_be, flat_labels_length, join_split by apply split_on_nonempty.
  cbn [map length]. lia.
Qed.

Lemma good_labels name : good_name name -> name_ok (split_on dot name) Root.
Proof.
  intros (_ & _ & _ & HL & _). split; [|done]. rewrite forallb_Forall in HL. eapply Forall_impl; [exact HL|]. intros l Hl.
  unfold valid_label in Hl. bool_prop. destruct l; [done|]. unfold zlen in *. cbn [length] in *. lia.
Qed.

Lemma query_skip id name : good_name name -> skip_name (query id name) HEADER = Some (length (query id name) - 4)%nat.
Proof.
  intros Hn. unfold query. set (pre := to_be 2 id ++ map z2b [1; 0; 0; 1; 0; 0; 0; 0; 0; 0]).
  pose proof (skip_name_encoded (split_on dot name) Root pre (to_be 2 TYPE_A ++ to_be 2 CLASS_IN) (good_labels _ Hn)) as HS.
  assert (length pre = HEADER) as Hp by (subst pre; rewrite length_app, length_to_be; done).
  unfold encode_name, encode_end in HS. rewrite <- (assoc_L (++) (flat_map _ _)) in HS. subst pre. rewrite <- (assoc_L (++)) in HS.
  rewrite Hp in HS. rewrite HS. f_equal. rewrite !length_app, !length_to_be in *. cbn [length map] in *. lia.
Qed.

Lemma receive_loop_sound id name received addresses :
  receive_loop id name received = Some (Ok addresses) ->
  exists packet l, Some packet ∈ received /\ answers_query id name (take 1500 packet) /\
    answer id name (take 1500 packet) = Addresses l /\ addresses = map V4 l /\ l <> [] /\ Forall (fun n => 0 <= n < 2 ^ 32) l.
Proof.
  induction received as [|[packet|] received IH]; cbn [receive_loop]; [done| |done].
  destruct (answer id name (take 1500 packet)) as [l| |] eqn:EA; [|done|].
  - intros [= <-]. unfold answer in EA. destruct (read_answer id name (take 1500 packet)) as [a|] eqn:ER; [|done].
    cbn in EA. subst a. apply read_answer_ours in ER as HO. destruct HO as (HO & Hl & HF).
    exists packet, l. unfold answer. rewrite ER. split_and!; try done. left.
  - intros (p & l & Hp & HR)%IH. exists p, l. split; [by right|done].
Qed.

Lemma lookup_sound id name socket addresses :
  lookup_name id name socket = Ok addresses ->
  exists received packet l, (true, received) ∈ socket /\ Some packet ∈ received /\ answers_query id name (take 1500 packet) /\
    answer id name (take 1500 packet) = Addresses l /\ addresses = map V4 l /\ l <> [] /\ Forall (fun n => 0 <= n < 2 ^ 32) l.
Proof.
  unfold lookup_name. generalize TRIES as tries. intros tries. revert socket; induction tries as [|tries IH]; intros socket; cbn [lookup_tries]; [done|].
  destruct socket as [|[[] received] socket]; [done| |done].
  destruct (receive_loop id name received) as [r|] eqn:E.
  - intros ->. apply receive_loop_sound in E as (p & l & HR). exists received, p, l. split; [left|done].
  - intros (rc & p & l & H & HR)%IH. exists rc, p, l. split; [by right|done].
Qed.
