(* ===== verification/ShareLimiter.v ===== *)
(** Model of crates/ket-share/src/limiter.rs: the sign-in limiter, and the
    history of wrong passwords it abbreviates. *)

From Stdlib Require Import ZArith Lia.
From stdpp Require Import gmap sorting.
From S2P Require Import Prelude Order Net.

(** Instants and durations, in nanoseconds of the monotonic clock. *)
Definition Instant := Z.
Definition saturating_duration_since (now earlier : Instant) : Z := Z.max 0 (now - earlier).

Definition MAX_FAILURES : Z := 5.
Definition MAX_TOTAL_FAILURES : Z := 30.
Definition WINDOW : Z := 60 * 10 ^ 9.
Definition MAX_TRACKED : Z := 1024.

Record Failures := mkFailures { f_count : Z; f_last : Instant }.
Record SignInLimiter := mkLimiter { l_devices : gmap IpAddr Failures; l_recent : list Instant }.

Definition limiter_default : SignInLimiter := mkLimiter ∅ [].

(** The order a hash map is walked in, which may be any. *)
Class HashOrder := hash_iter : gmap IpAddr Failures -> list (IpAddr * Failures).
Class HashOrderLaws `{HashOrder} : Prop := hash_iter_perm m : hash_iter m ≡ₚ map_to_list m.

Definition within (now at_ : Instant) : bool := saturating_duration_since now at_ <? WINDOW.

(** [forget_before]. *)
Definition forget_before (now : Instant) (s : SignInLimiter) : SignInLimiter :=
  mkLimiter (filter (fun p => within now (f_last p.2) = true) (l_devices s))
    (filter (fun t => within now t = true) (l_recent s)).

(** [turns_away]. *)
Definition turns_away (device : IpAddr) (signed_in : bool) (now : Instant) (s : SignInLimiter) : SignInLimiter * bool :=
  let s := forget_before now s in
  (s, match l_devices s !! device with
      | Some failures =>
        if MAX_FAILURES <=? f_count failures then true
        else negb signed_in && (MAX_TOTAL_FAILURES <=? zlen (l_recent s))
      | None => negb signed_in && (MAX_TOTAL_FAILURES <=? zlen (l_recent s))
      end).

(** [failed]. *)
Definition failed `{HashOrder} (device : IpAddr) (now : Instant) (s : SignInLimiter) : SignInLimiter :=
  let s := forget_before now s in
  let failures := default (mkFailures 0 now) (l_devices s !! device) in
  let devices := <[device := mkFailures (f_count failures + 1) now]> (l_devices s) in
  let recent := if zlen (l_recent s) <? MAX_TOTAL_FAILURES then l_recent s ++ [now]
                else drop 1 (l_recent s) ++ [now] in
  let devices := if MAX_TRACKED <? Z.of_nat (size devices) then
                   match min_by_key (fun p => f_last p.2) (hash_iter devices) with
                   | Some oldest => delete oldest.1 devices
                   | None => devices
                   end
                 else devices in
  mkLimiter devices recent.

(** [succeeded]. *)
Definition succeeded (device : IpAddr) (s : SignInLimiter) : SignInLimiter :=
  mkLimiter (delete device (l_devices s)) (l_recent s).

(** ** Sequences of operations *)

Inductive LimiterOp := OpTurnsAway (device : IpAddr) (signed_in : bool) (now : Instant)
  | OpFailed (device : IpAddr) (now : Instant) | OpSucceeded (device : IpAddr) (now : Instant).

Definition op_time (o : LimiterOp) : Instant :=
  match o with OpTurnsAway _ _ t | OpFailed _ t | OpSucceeded _ t => t end.

Definition limiter_step `{HashOrder} (s : SignInLimiter) (o : LimiterOp) : SignInLimiter :=
  match o with
  | OpTurnsAway d b t => (turns_away d b t s).1
  | OpFailed d t => failed d t s
  | OpSucceeded d _ => succeeded d s
  end.
Definition limiter_run `{HashOrder} (ops : list LimiterOp) : SignInLimiter := fold_left limiter_step ops limiter_default.

(** The operations happen in the order of the clock. *)
Definition in_time (ops : list LimiterOp) : Prop := StronglySorted (fun a b => op_time a <= op_time b) ops.

(** ** The history *)

(** The times of the wrong passwords. *)
Definition failure_times (ops : list LimiterOp) : list Instant :=
  omap (fun o => match o with OpFailed _ t => Some t | _ => None end) ops.
(** The devices that ever gave one. *)
Definition failing_devices (ops : list LimiterOp) : list IpAddr :=
  omap (fun o => match o with OpFailed d _ => Some d | _ => None end) ops.
(** The wrong passwords of [device] in a row, each within a window of the one
    before and with no right one between. *)
Definition streak_step (device : IpAddr) (acc : option Failures) (o : LimiterOp) : option Failures :=
  match o with
  | OpTurnsAway _ _ _ => acc
  | OpFailed d t =>
    if bool_decide (d = device) then
      match acc with
      | Some f => Some (mkFailures (if within t (f_last f) then f_count f + 1 else 1) t)
      | None => Some (mkFailures 1 t)
      end
    else acc
  | OpSucceeded d _ => if bool_decide (d = device) then None else acc
  end.
Definition streak (ops : list LimiterOp) (device : IpAddr) : option Failures := fold_left (streak_step device) ops None.

Definition live (now : Instant) (o : option Failures) : option Failures :=
  match o with Some f => if within now (f_last f) then Some f else None | None => None end.

(** Whether the history calls for turning a device away. *)
Definition must_turn_away (ops : list LimiterOp) (device : IpAddr) (signed_in : bool) (now : Instant) : bool :=
  match live now (streak ops device) with Some f => MAX_FAILURES <=? f_count f | None => false end
  || negb signed_in && (MAX_TOTAL_FAILURES <=? zlen (filter (fun t => within now t = true) (failure_times ops))).

(** ** Windows move forward *)

Lemma within_later now later t : now <= later -> within later t = true -> within now t = true.
Proof. unfold within, saturating_duration_since, WINDOW. rewrite !Z.ltb_lt. lia. Qed.

Lemma within_earlier now t u : t <= u -> within now t = true -> within now u = true.
Proof. unfold within, saturating_duration_since, WINDOW. rewrite !Z.ltb_lt. lia. Qed.

Lemma within_self now : within now now = true.
Proof. unfold within, saturating_duration_since, WINDOW. apply Z.ltb_lt. lia. Qed.

Lemma live_later now later o : now <= later -> live later (live now o) = live later o.
Proof.
  intros Hl. destruct o as [f|]; [|done]. cbn. destruct (within now (f_last f)) eqn:E; [done|]. cbn.
  destruct (within later (f_last f)) eqn:E'; [|done]. apply (within_later now) in E'; [congruence|done].
Qed.

Lemma filter_later now later (l : list Instant) : now <= later ->
  filter (fun t => within later t = true) (filter (fun t => within now t = true) l) = filter (fun t => within later t = true) l.
Proof.
  intros Hl. rewrite list_filter_filter_l; [done|]. intros t. by apply within_later.
Qed.

(** The newest of a list in time order are those of the window. *)
Lemma filter_suffix now (l : list Instant) : StronglySorted Z.le l ->
  exists k, filter (fun t => within now t = true) l = drop k l.
Proof.
  induction 1 as [|t l HS [k IH] HF]; [by exists 0%nat|]. destruct (within now t) eqn:E.
  - exists 0%nat. rewrite filter_cons_True by done. cbn. f_equal. apply filter_all. eapply Forall_impl; [exact HF|].
    cbn beta. intros u Hu. by eapply within_earlier.
  - exists (S k). rewrite filter_cons_False by congruence. done.
Qed.

Lemma forget_lookup now s d : l_devices (forget_before now s) !! d = live now (l_devices s !! d).
Proof.
  cbn. destruct (l_devices s !! d) as [f|] eqn:E; cbn.
  - destruct (within now (f_last f)) eqn:Ew.
    + by apply map_lookup_filter_Some.
    + apply map_lookup_filter_None. right. intros g Hg. simplify_eq. cbn. congruence.
  - apply map_lookup_filter_None. by left.
Qed.

(** ** The last of a list *)

Definition lastn {A} (m : nat) (l : list A) : list A := drop (length l - m) l.

Lemma length_lastn {A} m (l : list A) : length (lastn m l) = min m (length l).
Proof. unfold lastn. rewrite length_drop. lia. Qed.

Lemma lastn_all {A} m (l : list A) : (length l <= m)%nat -> lastn m l = l.
Proof. intros H. unfold lastn. by replace (length l - m)%nat with 0%nat by lia. Qed.

Lemma lastn_app {A} m (k l : list A) : length l = m -> lastn m (k ++ l) = l.
Proof. intros H. unfold lastn. rewrite length_app. replace (length k + length l - m)%nat with (length k) by lia. apply drop_app_length. Qed.

Lemma lastn_push {A} m (l : list A) x : (0 < m)%nat ->
  lastn m (l ++ [x]) = (if (length (lastn m l) <? m)%nat then lastn m l else drop 1 (lastn m l)) ++ [x].
Proof.
  intros Hm. rewrite length_lastn. unfold lastn. rewrite length_app. cbn [length].
  destruct (Nat.ltb_spec (min m (length l)) m).
  - replace (length l + 1 - m)%nat with 0%nat by lia. by replace (length l - m)%nat with 0%nat by lia.
  - rewrite drop_drop, drop_app_le by lia. f_equal. f_equal. lia.
Qed.

Lemma sorted_snoc (l : list Instant) t : StronglySorted Z.le l -> Forall (fun u => u <= t) l -> StronglySorted Z.le (l ++ [t]).
Proof.
  induction 1 as [|u l HS IH HF]; intros Ht; cbn; [repeat constructor|]. apply Forall_cons in Ht as [Hu Ht].
  constructor; [by apply IH|]. apply Forall_app. split; [done|by constructor].
Qed.

Lemma sorted_app (k l : list Instant) : StronglySorted Z.le (k ++ l) -> Forall (fun t => Forall (Z.le t) l) k.
Proof.
  induction k as [|t k IH]; cbn; [constructor|]. intros [HS HF]%StronglySorted_inv. apply Forall_app in HF as [_ HF].
  constructor; [done|by apply IH].
Qed.

(** Taking the last and taking those of the window commute. *)
Lemma filter_lastn now m (l : list Instant) : StronglySorted Z.le l ->
  filter (fun t => within now t = true) (lastn m l) = lastn m (filter (fun t => within now t = true) l).
Proof.
  intros HS. destruct (Nat.le_gt_cases (length l) m) as [Hm|Hm].
  { rewrite (lastn_all m l) by done. rewrite lastn_all; [done|]. etrans; [apply length_filter|done]. }
  unfold lastn at 1. set (k := (length l - m)%nat). rewrite <- (take_drop k l) at 2. rewrite filter_app.
  destruct (filter _ (take k l)) as [|t f] eqn:E.
  - rewrite lastn_all; [done|]. etrans; [apply length_filter|]. rewrite length_drop. lia.
  - rewrite <- E. rewrite (filter_all _ (drop k l)); [rewrite lastn_app; [done|rewrite length_drop; lia]|].
    assert (t ∈ filter (fun t => within now t = true) (take k l)) as [Ht Hk]%list_elem_of_filter by (rewrite E; left).
    rewrite <- (take_drop k l) in HS. apply sorted_app in HS. rewrite Forall_forall in HS. specialize (HS t Hk).
    eapply Forall_impl; [exact HS|]. intros u Hu. by eapply within_earlier.
Qed.

Section refinement.
Context `{HashOrderLaws}.

Lemma failure_times_snoc ops o : failure_times (ops ++ [o]) = failure_times ops ++ failure_times [o].
Proof. unfold failure_times. apply omap_app. Qed.

Lemma streak_snoc ops o d : streak (ops ++ [o]) d = streak_step d (streak ops d) o.
Proof. unfold streak. by rewrite fold_left_app. Qed.

Lemma limiter_run_snoc ops o : limiter_run (ops ++ [o]) = limiter_step (limiter_run ops) o.
Proof. unfold limiter_run. by rewrite fold_left_app. Qed.

Lemma in_time_snoc ops o : in_time (ops ++ [o]) -> in_time ops /\ Forall (fun a => op_time a <= op_time o) ops.
Proof.
  unfold in_time. induction ops as [|a ops IH]; cbn; [split; constructor|]. intros [HS HF]%StronglySorted_inv.
  apply IH in HS as [HS HA]. apply Forall_app in HF as [HF Ho]. apply Forall_inv in Ho. split; constructor; done.
Qed.

Lemma failure_times_le ops t : Forall (fun a => op_time a <= t) ops -> Forall (fun u => u <= t) (failure_times ops).
Proof.
  rewrite !Forall_forall. intros HF u (o & Ho & Eo)%list_elem_of_omap. specialize (HF o Ho). destruct o; by simplify_eq/=.
Qed.

Lemma failure_times_sorted ops : in_time ops -> StronglySorted Z.le (failure_times ops).
Proof.
  induction ops as [|o ops IH] using rev_ind; intros HT; [constructor|]. apply in_time_snoc in HT as [HT HF].
  rewrite failure_times_snoc. destruct o as [|d t|]; cbn; rewrite ?app_nil_r; try by apply IH.
  apply sorted_snoc; [by apply IH|by apply failure_times_le].
Qed.

(** What the limiter keeps of the times is what the window still holds. *)
Lemma recent_spec ops now : in_time ops -> Forall (fun o => op_time o <= now) ops ->
  filter (fun t => within now t = true) (l_recent (limiter_run ops)) =
  lastn 30 (filter (fun t => within now t = true) (failure_times ops)).
Proof.
  revert now; induction ops as [|o ops IH] using rev_ind; intros now HT HN; [done|].
  apply Forall_app in HN as [_ HN]. apply Forall_inv in HN. pose proof (failure_times_sorted _ HT) as HS.
  apply in_time_snoc in HT as [HT HF]. rewrite limiter_run_snoc. rewrite failure_times_snoc in *.
  assert (Forall (fun a => op_time a <= now) ops) as HF' by (eapply Forall_impl; [exact HF|]; cbn beta; lia).
  destruct o as [d b t|d t|d t]; cbn -[lastn] in *; rewrite ?app_nil_r in *.
  - rewrite filter_later by done. by apply IH.
  - set (X := filter (fun u => within t u = true) (failure_times ops)).
    assert (filter (fun u => within now u = true) (failure_times ops ++ [t]) = filter (fun u => within now u = true) (X ++ [t])) as ->.
    { rewrite !filter_app. f_equal. symmetry. by apply filter_later. }
    rewrite <- filter_lastn; [|apply sorted_snoc; [subst X|]].
    + rewrite lastn_push by lia. rewrite IH by done. fold X. unfold zlen, MAX_TOTAL_FAILURES.
      destruct (Z.ltb_spec (Z.of_nat (length (lastn 30 X))) 30), (Nat.ltb_spec (length (lastn 30 X)) 30); (done || lia).
    + apply failure_times_sorted in HT. destruct (filter_suffix t (failure_times ops) HT) as [k ->].
      clear -HT. revert k; induction HT as [|u l HS IH HF]; intros [|k]; cbn; try constructor; done || apply IH.
    + subst X. eapply sublist_Forall; [apply sublist_filter|by apply failure_times_le].
  - by apply IH.
Qed.

(** ** Bounds *)

Definition limiter_wf (s : SignInLimiter) : Prop :=
  Z.of_nat (size (l_devices s)) <= MAX_TRACKED /\ zlen (l_recent s) <= MAX_TOTAL_FAILURES /\
  map_Forall (fun _ f => 1 <= f_count f) (l_devices s).

Lemma forget_wf now s : limiter_wf s -> limiter_wf (forget_before now s).
Proof.
  intros (Hd & Hr & Hc). split_and!; cbn.
  - etrans; [|exact Hd]. apply inj_le. apply map_size_filter.
  - etrans; [|exact Hr]. unfold zlen. apply inj_le, length_filter.
  - intros d f (Hf & _)%map_lookup_filter_Some. by apply (Hc d).
Qed.

Lemma oldest_tracked m : m <> ∅ -> exists d f,
  min_by_key (fun p => f_last p.2) (hash_iter m) = Some (d, f) /\ m !! d = Some f /\ map_Forall (fun _ g => f_last f <= f_last g) m.
Proof.
  intros Hm. destruct (min_by_key (fun p => f_last p.2) (hash_iter m)) as [[d f]|] eqn:E.
  - exists d, f. apply (min_by_key_some (fun p : IpAddr * Failures => f_last p.2)) in E as [Hin Hle]. rewrite hash_iter_perm in Hin.
    apply elem_of_map_to_list in Hin. split_and!; [done..|]. intros e g Hg.
    assert ((e, g) ∈ hash_iter m) as Hg' by (rewrite hash_iter_perm; by apply elem_of_map_to_list). specialize (Hle _ Hg').
    unfold key_le, cmp, Z_cmp in Hle. cbn in Hle. destruct (Z.compare_spec (f_last f) (f_last g)); (lia || done).
  - apply (min_by_key_none (fun p : IpAddr * Failures => f_last p.2)) in E.
    pose proof (hash_iter_perm m) as HP. rewrite E in HP. apply Permutation_nil_l in HP. symmetry in HP.
    by apply map_to_list_empty_iff in HP.
Qed.

Lemma step_wf s o : limiter_wf s -> limiter_wf (limiter_step s o).
Proof.
  intros Hs. destruct o as [d b t|d t|d t]; cbn [limiter_step turns_away fst].
  - by apply forget_wf.
  - unfold failed. destruct (forget_wf t s Hs) as (Hd & Hr & Hc). set (s1 := forget_before t s) in *. clearbody s1.
    set (devices := <[d := _]> (l_devices s1)).
    assert (Z.of_nat (size devices) <= MAX_TRACKED + 1) as Hsize.
    { subst devices. destruct (l_devices s1 !! d) eqn:E; [rewrite map_size_insert_Some by eauto|rewrite map_size_insert_None by done]; lia. }
    assert (map_Forall (fun _ f => 1 <= f_count f) devices) as Hcount.
    { apply map_Forall_insert_2; [|done]. cbn [f_count]. destruct (l_devices s1 !! d) as [f|] eqn:E; cbn; [|lia]. pose proof (Hc _ _ E) as HE. cbn in HE. lia. }
    split_and!; cbn [l_devices l_recent].
    + destruct (Z.ltb_spec MAX_TRACKED (Z.of_nat (size devices))); [|lia].
      destruct (oldest_tracked devices) as (e & f & -> & He & _). { apply insert_non_empty. }
      cbn. rewrite map_size_delete_Some by eauto. lia.
    + unfold zlen, MAX_TOTAL_FAILURES in *. destruct (Z.ltb_spec (Z.of_nat (length (l_recent s1))) 30); rewrite length_app, ?length_drop; cbn; lia.
    + destruct (MAX_TRACKED <? _); [|done]. destruct (min_by_key _ _) as [[e f]|]; [|done]. by apply map_Forall_delete.
  - destruct Hs as (Hd & Hr & Hc). split_and!; cbn; [|done|by apply map_Forall_delete].
    destruct (l_devices s !! d) eqn:E; [rewrite map_size_delete_Some by eauto|rewrite delete_id by done]; lia.
Qed.

Lemma run_wf ops : limiter_wf (limiter_run ops).
Proof.
  induction ops as [|o ops IH] using rev_ind; [split_and!; [done..|apply map_Forall_empty]|]. rewrite limiter_run_snoc. by apply step_wf.
Qed.

(** ** The streaks *)

Lemma tracked_failing ops : dom (l_devices (limiter_run ops)) ⊆ list_to_set (failing_devices ops).
Proof.
  induction ops as [|o ops IH] using rev_ind; [done|]. rewrite limiter_run_snoc. unfold failing_devices in *. rewrite omap_app, list_to_set_app_L.
  assert (forall t, dom (l_devices (forget_before t (limiter_run ops))) ⊆ dom (l_devices (limiter_run ops))) as HF.
  { intros t. cbn. apply dom_filter_subseteq. }
  destruct o as [d b t|d t|d t]; cbn [limiter_step turns_away fst omap list_omap list_to_set foldr].
  - specialize (HF t). set_solver.
  - specialize (HF t). unfold failed. set (s1 := forget_before t (limiter_run ops)) in *. cbn [l_devices].
    set (devices := <[d := _]> (l_devices s1)). assert (dom devices ⊆ {[d]} ∪ dom (l_devices s1)) by (subst devices; set_solver).
    destruct (MAX_TRACKED <? _); [|set_solver]. destruct (min_by_key _ _); set_solver.
  - cbn. set_solver.
Qed.

(** With no more failing devices than are tracked, none is dropped. *)
Lemma no_eviction ops d t now x : (length (remove_dups (failing_devices (ops ++ [OpFailed d t]))) <= 1024)%nat ->
  (MAX_TRACKED <? Z.of_nat (size (<[d := x]> (l_devices (forget_before now (limiter_run ops)))))) = false.
Proof.
  intros Hl. apply Z.ltb_ge. unfold MAX_TRACKED. change 1024 with (Z.of_nat 1024). apply inj_le. etrans; [|exact Hl].
  rewrite <- size_dom, dom_insert_L. rewrite <- (size_list_to_set (C := gset IpAddr) (remove_dups _)) by apply NoDup_remove_dups.
  apply subseteq_size. pose proof (tracked_failing ops) as HT.
  assert (dom (l_devices (forget_before now (limiter_run ops))) ⊆ dom (l_devices (limiter_run ops))) as HF by (cbn; apply dom_filter_subseteq).
  intros y. rewrite elem_of_list_to_set, elem_of_remove_dups.
  unfold failing_devices in *. rewrite omap_app, elem_of_app. set_solver.
Qed.

Lemma failing_devices_snoc ops o n :
  (length (remove_dups (failing_devices (ops ++ [o]))) <= n)%nat -> (length (remove_dups (failing_devices ops)) <= n)%nat.
Proof.
  intros Hn. etrans; [|exact Hn]. rewrite <- !(size_list_to_set (C := gset IpAddr) (remove_dups _)) by apply NoDup_remove_dups.
  apply subseteq_size. intros y. rewrite !elem_of_list_to_set, !elem_of_remove_dups. unfold failing_devices. rewrite omap_app, elem_of_app. auto.
Qed.

(** What the limiter keeps of a device is its streak, while that is live. *)
Lemma streak_spec ops d now :
  in_time ops -> Forall (fun o => op_time o <= now) ops -> (length (remove_dups (failing_devices ops)) <= 1024)%nat ->
  live now (l_devices (limiter_run ops) !! d) = live now (streak ops d).
Proof.
  revert now; induction ops as [|o ops IH] using rev_ind; intros now HT HN HD; [done|].
  apply Forall_app in HN as [_ HN]. apply Forall_inv in HN. apply in_time_snoc in HT as [HT HF].
  assert (Forall (fun a => op_time a <= now) ops) as HF' by (eapply Forall_impl; [exact HF|]; cbn beta; lia).
  apply failing_devices_snoc in HD as HD'. rewrite limiter_run_snoc, streak_snoc.
  destruct o as [e b t|e t|e t]; cbn [limiter_step turns_away fst streak_step op_time] in *.
  - rewrite forget_lookup, live_later by done. by apply IH.
  - unfold failed. rewrite no_eviction with (t := t) by done. cbn [l_devices].
    specialize (IH t HT HF HD') as IHt. rewrite <- forget_lookup in IHt. case_bool_decide as Ed.
    + subst e. rewrite lookup_insert_eq, IHt. f_equal. destruct (streak ops d) as [f|]; cbn; [|done].
      by destruct (within t (f_last f)).
    + rewrite lookup_insert_ne by done. rewrite forget_lookup, live_later by done. by apply IH.
  - unfold succeeded. cbn [l_devices]. case_bool_decide as Ed; [subst e; by rewrite lookup_delete_eq|].
    rewrite lookup_delete_ne by done. by apply IH.
Qed.

(** The limiter's answer is the history's. *)
Lemma turns_away_spec ops d b now :
  in_time (ops ++ [OpTurnsAway d b now]) -> (length (remove_dups (failing_devices ops)) <= 1024)%nat ->
  (turns_away d b now (limiter_run ops)).2 = must_turn_away ops d b now.
Proof.
  intros [HT HF]%in_time_snoc HD. cbn [op_time] in HF. unfold turns_away, must_turn_away. cbn [snd].
  rewrite forget_lookup, streak_spec by done.
  assert ((MAX_TOTAL_FAILURES <=? zlen (l_recent (forget_before now (limiter_run ops)))) =
    (MAX_TOTAL_FAILURES <=? zlen (filter (fun t => within now t = true) (failure_times ops)))) as ->.
  { cbn [forget_before l_recent]. rewrite recent_spec by done. unfold zlen, MAX_TOTAL_FAILURES. rewrite length_lastn.
    apply eq_bool_prop_intro. rewrite !Is_true_true, !Z.leb_le. lia. }
  destruct (live now (streak ops d)) as [f|]; [|done]. by destruct (MAX_FAILURES <=? f_count f).
Qed.
End refinement.

(** An instance of the iteration order, for witnesses. *)
Global Instance map_order : HashOrder := map_to_list.
Global Instance map_order_laws : HashOrderLaws.
Proof. intros m. done. Qed.
