(* ===== verification/ShareSocks.v ===== *)
(** Model of crates/ket-share/src/socks5.rs and handshake.rs: the SOCKS5
    handshake with a nearby device, over the bytes it sends. *)

From Stdlib Require Import ZArith Lia.
From stdpp Require Import strings.
From S2P Require Import Prelude Utf8 Str Net Tunnel SharePolicy.

(** [Refusal]. *)
Inductive Refusal := BadCredentials | NoCredentials | Malformed | Unsupported | RefusedTarget (e : TargetError).

Global Instance Refusal_eq_dec : EqDecision Refusal.
Proof. solve_decision. Defined.

(** Code that reads and writes a stream and may refuse. *)
Definition Session (A : Type) : Type := Stream -> result Refusal A * Stream.
Global Instance session_ret : MRet Session := fun _ a s => (Ok a, s).
Global Instance session_bind : MBind Session := fun _ _ f m s =>
  match m s with (Ok a, s) => f a s | (Err e, s) => (Err e, s) end.
Definition refuse {A} (e : Refusal) : Session A := fun s => (Err e, s).

(** [read_exact], with its errors as a refusal. *)
Definition read_exact (n : nat) : Session (list byte) := fun s =>
  let '(x, s) := take_exact n s in (ok_or x Malformed, s).

Definition VERSION : Z := 0x05.
Definition PASSWORD_METHOD : Z := 0x02.
Definition NO_ACCEPTABLE_METHOD : Z := 0xff.
Definition PASSWORD_VERSION : Z := 0x01.
Definition CONNECT : Z := 0x01.
Definition IPV4 : Z := 0x01.
Definition NAME : Z := 0x03.
Definition IPV6 : Z := 0x04.

(** [Reply] and its code. *)
Inductive Reply := Succeeded | GeneralFailure | ReplyNotAllowed | NetworkUnreachable | HostUnreachable
  | ReplyConnectionRefused | ReplyTimedOut | CommandNotSupported | AddressNotSupported.
Definition reply_code (r : Reply) : Z :=
  match r with
  | Succeeded => 0x00 | GeneralFailure => 0x01 | ReplyNotAllowed => 0x02 | NetworkUnreachable => 0x03 | HostUnreachable => 0x04
  | ReplyConnectionRefused => 0x05 | ReplyTimedOut => 0x06 | CommandNotSupported => 0x07 | AddressNotSupported => 0x08
  end.

(** [reply]: ten bytes; a device that does not take them is let be. *)
Definition reply_bytes (r : Reply) : list byte := map z2b [VERSION; reply_code r; 0; IPV4; 0; 0; 0; 0; 0; 0].
Definition reply (r : Reply) : Session unit := fun s => (Ok tt, (write_all (reply_bytes r) s).2).
Definition refusal_reply (e : TargetError) : Reply :=
  match e with LocalName => ReplyNotAllowed | TargetInvalid => GeneralFailure end.

(** [write], [read_u8] and [read_field]. *)
Definition write (bytes : list byte) : Session unit := fun s =>
  let '(ok, s) := write_all bytes s in (if ok then Ok tt else Err Malformed, s).
Definition write_ignore (bytes : list byte) : Session unit := fun s => (Ok tt, (write_all bytes s).2).
Definition read_u8 : Session Z := bytes ← read_exact 1; mret (from_be bytes).
Definition read_field : Session (list byte) :=
  length ← read_u8;
  if length =? 0 then refuse Malformed else read_exact (Z.to_nat length).

(** The host of a [CONNECT], by its address type. *)
Definition read_host (kind : Z) : Session Host :=
  if kind =? IPV4 then octets ← read_exact 4; mret (HostAddress (V4 (from_be octets)))
  else if kind =? IPV6 then octets ← read_exact 16; mret (HostAddress (V6 (from_be octets)))
  else if kind =? NAME then
    name ← read_field;
    match (if valid_utf8 name then host_parse name else Err TargetInvalid) with
    | Ok host => mret host
    | Err error => _ ← reply (refusal_reply error); refuse (RefusedTarget error)
    end
  else _ ← reply AddressNotSupported; refuse Unsupported.

(** [negotiate]. *)
Definition negotiate (credentials : Credentials) : Session Target :=
  count ← read_u8;
  methods ← read_exact (Z.to_nat count);
  if negb (existsb (fun m => b2z m =? PASSWORD_METHOD) methods) then
    _ ← write_ignore (map z2b [VERSION; NO_ACCEPTABLE_METHOD]);
    refuse NoCredentials
  else
  _ ← write (map z2b [VERSION; PASSWORD_METHOD]);
  version ← read_u8;
  if negb (version =? PASSWORD_VERSION) then refuse Malformed else
  username ← read_field;
  password ← read_field;
  if negb (credentials_match credentials username password) then
    _ ← write_ignore (map z2b [PASSWORD_VERSION; 0x01]);
    refuse BadCredentials
  else
  _ ← write (map z2b [PASSWORD_VERSION; 0x00]);
  header ← read_exact 4;
  let at_ i := b2z (nth i header (z2b 0)) in
  if negb (at_ 0%nat =? VERSION) || negb (at_ 2%nat =? 0) then refuse Malformed else
  if negb (at_ 1%nat =? CONNECT) then
    _ ← reply CommandNotSupported;
    refuse Unsupported
  else
  host ← read_host (at_ 3%nat);
  port ← read_exact 2;
  if from_be port =? 0 then
    _ ← reply GeneralFailure;
    refuse (RefusedTarget TargetInvalid)
  else
  mret (mkTarget host (from_be port)).

(** ** What a device sends *)

Definition field (bytes : list byte) : list byte := z2b (zlen bytes) :: bytes.
Definition field_ok (bytes : list byte) : Prop := 1 <= zlen bytes <= 255.
Definition greeting (methods : list byte) : list byte := field methods.
Definition sign_in (username password : list byte) : list byte := z2b PASSWORD_VERSION :: field username ++ field password.
(** A host as the request carries it: the address type and the rest. *)
Definition host_bytes (h : Host) (text : list byte) : list byte :=
  match h with
  | HostAddress (V4 n) => z2b IPV4 :: to_be 4 n
  | HostAddress (V6 n) => z2b IPV6 :: to_be 16 n
  | HostName _ => z2b NAME :: field text
  end.
Definition connect_request (h : Host) (text : list byte) (port : Z) : list byte :=
  map z2b [VERSION; CONNECT; 0] ++ host_bytes h text ++ to_be 2 port.

Definition demo_credentials : Credentials := credentials_new USERNAME (str "abcdefgh2345").
Definition demo_bytes (pass : list byte) : list byte :=
  greeting (map z2b [0; 2]) ++ sign_in USERNAME pass ++
  connect_request (HostName (str "example.com")) (str "Example.com") 443 ++ str "payload".

Example negotiate_examples :
  negotiate demo_credentials (mkStream (demo_bytes (str "abcdefgh2345")) [] None) =
    (Ok (mkTarget (HostName (str "example.com")) 443),
     mkStream (str "payload") [map z2b [5; 2]; map z2b [1; 0]] None) /\
  (negotiate demo_credentials (mkStream (demo_bytes (str "wrong")) [] None)).1 = Err BadCredentials /\
  (negotiate demo_credentials (mkStream (take 4 (demo_bytes (str "wrong"))) [] None)).1 = Err Malformed /\
  (negotiate demo_credentials (mkStream (demo_bytes (str "abcdefgh2345")) [] (Some 1%nat))).1 = Err Malformed.
Proof. vm_compute. repeat split; reflexivity. Qed.

(** ** Reasoning about sessions *)

Lemma bind_step {A B} (m : Session A) (f : A -> Session B) s a s' : m s = (Ok a, s') -> (m ≫= f) s = f a s'.
Proof. intros E. unfold mbind, session_bind. by rewrite E. Qed.

Lemma bind_ok {A B} (m : Session A) (f : A -> Session B) s b s' :
  (m ≫= f) s = (Ok b, s') -> exists a s1, m s = (Ok a, s1) /\ f a s1 = (Ok b, s').
Proof. unfold mbind, session_bind. destruct (m s) as [[a|e] s1]; [eauto|done]. Qed.

Lemma read_exact_app n x r o w : length x = n -> read_exact n (mkStream (x ++ r) o w) = (Ok x, mkStream r o w).
Proof. intros Hx. unfold read_exact. by rewrite take_exact_app. Qed.

Lemma read_exact_ok n s x s' : read_exact n s = (Ok x, s') -> consumed s x [] s' /\ length x = n.
Proof.
  unfold read_exact. destruct (take_exact n s) as [[y|] s1] eqn:E; [|done]. intros [= -> ->]. by apply take_exact_ok.
Qed.

Lemma write_ok bytes s u s' : write bytes s = (Ok u, s') -> consumed s [] [bytes] s'.
Proof.
  unfold write. destruct (write_all bytes s) as [[] s1] eqn:E; [|done]. intros [= _ ->]. by apply write_all_ok.
Qed.

Lemma read_u8_ok s v s' : read_u8 s = (Ok v, s') -> consumed s [z2b v] [] s' /\ 0 <= v < 256.
Proof.
  unfold read_u8. intros (x & s1 & (HC & Hl)%read_exact_ok & [= <- <-])%bind_ok.
  destruct x as [|b [|? ?]]; try done. unfold from_be. cbn. rewrite Z.add_0_l, z2b_b2z. split; [done|apply b2z_bound].
Qed.

Lemma read_field_ok s x s' : read_field s = (Ok x, s') -> consumed s (field x) [] s' /\ field_ok x.
Proof.
  unfold read_field. intros (n & s1 & (HC & Hn)%read_u8_ok & HR)%bind_ok. destruct (Z.eqb_spec n 0) as [|Hz]; [done|].
  apply read_exact_ok in HR as [HR Hl]. unfold field, field_ok, zlen. rewrite Hl, Z2Nat.id by lia. split; [|lia].
  by eapply (consumed_trans _ [_] []) in HR.
Qed.

Lemma read_u8_app v r o w : 0 <= v < 256 -> read_u8 (mkStream (z2b v :: r) o w) = (Ok v, mkStream r o w).
Proof.
  intros Hv. unfold read_u8. erewrite bind_step by by apply (read_exact_app 1 [z2b v]).
  unfold from_be. cbn. unfold mret, session_ret. by rewrite Z.add_0_l, b2z_z2b_small.
Qed.

Lemma read_field_app x r o w : field_ok x -> read_field (mkStream (field x ++ r) o w) = (Ok x, mkStream r o w).
Proof.
  unfold field_ok, field. intros Hx. unfold read_field. rewrite <- app_comm_cons.
  erewrite bind_step by (apply read_u8_app; lia). rewrite (proj2 (Z.eqb_neq _ _)) by lia.
  apply read_exact_app. unfold zlen. by rewrite Nat2Z.id.
Qed.

Lemma write_app bytes r o : write bytes (mkStream r o None) = (Ok tt, mkStream r (o ++ [bytes]) None).
Proof. done. Qed.

(** The hosts a request can name, with the text it names them by. *)
Definition requested (h : Host) (text : list byte) : Prop :=
  match h with
  | HostAddress a => addr_ok a
  | HostName _ => field_ok text /\ valid_utf8 text = true /\ host_parse text = Ok h
  end.

Lemma from_be_range n x : length x = n -> 0 <= from_be x < 256 ^ Z.of_nat n.
Proof. intros <-. apply from_be_bound. Qed.

(** A host written by name may turn out to be an address. *)
Definition host_form (h : Host) (bytes : list byte) : Prop :=
  (exists a, h = HostAddress a /\ addr_ok a /\ bytes = host_bytes h []) \/
  (exists text, field_ok text /\ valid_utf8 text = true /\ host_parse text = Ok h /\ bytes = z2b NAME :: field text).

Lemma read_host_ok kind s h s' : 0 <= kind < 256 -> read_host kind s = (Ok h, s') ->
  exists bytes, consumed s bytes [] s' /\ host_form h (z2b kind :: bytes).
Proof.
  intros Hk. unfold read_host, IPV4, IPV6, NAME. destruct (Z.eqb_spec kind 1) as [->|]; [|destruct (Z.eqb_spec kind 4) as [->|];
    [|destruct (Z.eqb_spec kind 3) as [->|]]].
  - intros (x & s1 & (HC & Hl)%read_exact_ok & [= <- <-])%bind_ok. exists x. split; [done|]. left. exists (V4 (from_be x)).
    split_and!; [done|by apply (from_be_range 4)|]. cbn [host_bytes]. rewrite <- Hl, to_be_from_be. done.
  - intros (x & s1 & (HC & Hl)%read_exact_ok & [= <- <-])%bind_ok. exists x. split; [done|]. left. exists (V6 (from_be x)).
    split_and!; [done|by apply (from_be_range 16)|]. cbn [host_bytes]. rewrite <- Hl, to_be_from_be. done.
  - intros (x & s1 & (HC & Hf)%read_field_ok & HR)%bind_ok. exists (field x).
    destruct (valid_utf8 x) eqn:EU; [|by apply bind_ok in HR as (? & ? & _ & ?)].
    destruct (host_parse x) as [h'|] eqn:EP; [|by apply bind_ok in HR as (? & ? & _ & ?)].
    injection HR as <- <-. split; [done|]. right. by exists x.
  - intros HR. by apply bind_ok in HR as (? & ? & _ & ?).
Qed.

(** A handshake succeeds only on the right sign-in followed by a request. *)
Lemma negotiate_sound c s t s' : negotiate c s = (Ok t, s') ->
  exists methods host,
    consumed s (greeting methods ++ sign_in (username c) (password c) ++ map z2b [VERSION; CONNECT; 0] ++ host ++ to_be 2 (t_port t))
      [map z2b [VERSION; PASSWORD_METHOD]; map z2b [PASSWORD_VERSION; 0]] s' /\
    zlen methods <= 255 /\ z2b PASSWORD_METHOD ∈ methods /\ host_form (t_host t) host /\ 0 < t_port t <= u16_max.
Proof.
  unfold negotiate. intros (n & s1 & (C1 & Hn)%read_u8_ok & H)%bind_ok.
  apply bind_ok in H as (methods & s2 & (C2 & Hm)%read_exact_ok & H).
  destruct (existsb _ methods) eqn:EM; cbn [negb] in H; [|by apply bind_ok in H as (? & ? & _ & ?)].
  apply bind_ok in H as (u1 & s3 & C3%write_ok & H). apply bind_ok in H as (v & s4 & (C4 & Hv)%read_u8_ok & H).
  destruct (Z.eqb_spec v PASSWORD_VERSION) as [->|]; cbn [negb] in H; [|done].
  apply bind_ok in H as (user & s5 & (C5 & Hu)%read_field_ok & H). apply bind_ok in H as (pass & s6 & (C6 & Hp)%read_field_ok & H).
  destruct (credentials_match c user pass) eqn:EC; cbn [negb] in H; [|by apply bind_ok in H as (? & ? & _ & ?)].
  apply bind_ok in H as (u2 & s7 & C7%write_ok & H). apply bind_ok in H as (header & s8 & (C8 & Hh)%read_exact_ok & H).
  destruct header as [|b0 [|b1 [|b2 [|b3 [|? ?]]]]]; try done. cbn [nth] in H.
  destruct (Z.eqb_spec (b2z b0) VERSION) as [E0|], (Z.eqb_spec (b2z b2) 0) as [E2|]; cbn [negb orb] in H; try done.
  destruct (Z.eqb_spec (b2z b1) CONNECT) as [E1|]; cbn [negb] in H; [|by apply bind_ok in H as (? & ? & _ & ?)].
  apply bind_ok in H as (h & s9 & HR & H). apply read_host_ok in HR as (host & C9 & Hhost); [|apply b2z_bound].
  apply bind_ok in H as (port & s10 & (C10 & Hport)%read_exact_ok & H).
  destruct (Z.eqb_spec (from_be port) 0) as [|Hz]; [by apply bind_ok in H as (? & ? & _ & ?)|]. injection H as <- <-.
  cbn [t_host t_port]. rewrite z2b_b2z in Hhost. exists methods, (b3 :: host).
  pose proof (from_be_range 2 port Hport) as Hb. change (256 ^ Z.of_nat 2) with 65536 in Hb.
  unfold credentials_match in EC. bool_prop. rewrite <- Hport, to_be_from_be. split_and!.
  - assert (z2b n :: methods = greeting methods) as EG by (unfold greeting, field, zlen; rewrite Hm, Z2Nat.id by lia; done).
    pose proof (consumed_trans _ _ _ _ _ _ _ C1 (consumed_trans _ _ _ _ _ _ _ C2 (consumed_trans _ _ _ _ _ _ _ C3
      (consumed_trans _ _ _ _ _ _ _ C4 (consumed_trans _ _ _ _ _ _ _ C5 (consumed_trans _ _ _ _ _ _ _ C6 (consumed_trans _ _ _ _ _ _ _ C7
      (consumed_trans _ _ _ _ _ _ _ C8 (consumed_trans _ _ _ _ _ _ _ C9 C10))))))))) as HC.
    assert (b0 = z2b VERSION /\ b1 = z2b CONNECT /\ b2 = z2b 0) as (-> & -> & ->) by (rewrite <- E0, <- E1, <- E2, !z2b_b2z; done).
    subst user pass. rewrite <- EG. unfold sign_in. cbn [app map] in HC |- *. rewrite <- (assoc_L (++) (field (username c))). exact HC.
  - unfold zlen. lia.
  - apply existsb_Exists in EM as (m & Hin & EM). apply Z.eqb_eq in EM. by rewrite <- EM, z2b_b2z.
  - done.
  - lia.
  - unfold u16_max. lia.
Qed.

(** The right sign-in and a good request succeed. *)
Lemma read_host_app h text r o : requested h text ->
  exists kind bytes, 0 <= kind < 256 /\ host_bytes h text = z2b kind :: bytes /\
    read_host kind (mkStream (bytes ++ r) o None) = (Ok h, mkStream r o None).
Proof.
  destruct h as [name|[n|n]]; cbn [requested host_bytes].
  - intros (Hf & HU & HP). exists NAME, (field text). split_and!; [done..|]. unfold read_host. cbn.
    erewrite bind_step by by apply read_field_app. by rewrite HU, HP.
  - intros Ha. exists IPV4, (to_be 4 n). split_and!; [done..|]. unfold read_host. cbn -[to_be].
    erewrite bind_step by (apply read_exact_app; apply length_to_be). unfold mret, session_ret. by rewrite from_be_to_be.
  - intros Ha. exists IPV6, (to_be 16 n). split_and!; [done..|]. unfold read_host. cbn -[to_be].
    erewrite bind_step by (apply read_exact_app; apply length_to_be). unfold mret, session_ret. by rewrite from_be_to_be.
Qed.

Lemma negotiate_complete c methods h text port rest out :
  z2b PASSWORD_METHOD ∈ methods -> zlen methods <= 255 -> field_ok (username c) -> field_ok (password c) ->
  requested h text -> 0 < port <= u16_max ->
  negotiate c (mkStream (greeting methods ++ sign_in (username c) (password c) ++ connect_request h text port ++ rest) out None) =
  (Ok (mkTarget h port), mkStream rest (out ++ [map z2b [VERSION; PASSWORD_METHOD]; map z2b [PASSWORD_VERSION; 0]]) None).
Proof.
  intros HM Hlen Hu Hp Hr Hport. unfold negotiate, greeting, field at 1. pose proof (zlen_nonneg methods).
  rewrite <- app_comm_cons. erewrite bind_step by (apply read_u8_app; lia).
  erewrite bind_step by (apply read_exact_app; unfold zlen; by rewrite Nat2Z.id).
  assert (existsb (fun m => b2z m =? PASSWORD_METHOD) methods = true) as -> by (apply existsb_Exists; by exists (z2b PASSWORD_METHOD)).
  cbn [negb]. erewrite bind_step by apply write_app. unfold sign_in. rewrite <- app_comm_cons, <- (assoc_L (++)).
  erewrite bind_step by by apply read_u8_app. cbn [negb Z.eqb PASSWORD_VERSION Pos.eqb].
  erewrite bind_step by by apply read_field_app. erewrite bind_step by by apply read_field_app.
  unfold credentials_match. rewrite !bool_decide_true by done. cbn [andb negb].
  erewrite bind_step by apply write_app. unfold connect_request. rewrite <- !(assoc_L (++)). cbn [app].
  destruct (read_host_app h text (to_be 2 port ++ rest) (out ++ [map z2b [VERSION; PASSWORD_METHOD]; map z2b [PASSWORD_VERSION; 0]]) Hr)
    as (kind & bytes & Hk & -> & HR).
  rewrite <- app_comm_cons. erewrite bind_step
    by (apply (read_exact_app 4 (map z2b [VERSION; CONNECT; 0] ++ [z2b kind]) (bytes ++ to_be 2 port ++ rest)); done).
  cbn [map app nth]. rewrite !b2z_z2b_small by (done || lia). cbn [Z.eqb Pos.eqb negb orb VERSION CONNECT].
  erewrite bind_step by exact HR. erewrite bind_step by (apply read_exact_app; apply length_to_be).
  unfold u16_max in Hport. rewrite from_be_to_be by (change (256 ^ Z.of_nat 2) with 65536; lia).
  by rewrite (proj2 (Z.eqb_neq _ _)) by lia.
Qed.
