(* ===== verification/ShareHttp.v ===== *)
(** Model of crates/ket-share/src/http.rs: the heads of HTTP requests and
    responses as the share reads and rewrites them. *)

From Stdlib Require Import ZArith Lia.
From stdpp Require Import strings.
From S2P Require Import Prelude Utf8 Str Net Tunnel SharePolicy ShareSocks.

(** [STANDARD.decode] of the base64 crate. *)
Class Base64Standard := base64_decode : list byte -> option (list byte).

Definition MAX_HEAD : Z := 16 * 1024.
Definition CR : byte := z2b 13.
Definition LF : byte := z2b 10.
Definition CRLF : list byte := [CR; LF].
Definition END_OF_HEAD : list byte := CRLF ++ CRLF.
Definition HOP_HEADERS : list (list byte) :=
  map str ["proxy-authorization"%string; "proxy-connection"%string; "connection"%string; "keep-alive"%string].

Inductive Kind := Tunnel | Forward (head : list byte).
Record Request := mkRequest { q_target : Target; q_kind : Kind; q_authorization : option (list byte * list byte) }.

(** [Request::authorize]. *)
Definition authorize (c : Credentials) (q : Request) : result Refusal unit :=
  match q_authorization q with
  | None => Err NoCredentials
  | Some (username, password) => if credentials_match c username password then Ok tt else Err BadCredentials
  end.

(** [find]: where [needle] first occurs. *)
Fixpoint find (haystack needle : list byte) : option nat :=
  if bool_decide (take (length needle) haystack = needle) then Some 0%nat
  else match haystack with
       | [] => None
       | _ :: haystack => option_map S (find haystack needle)
       end.

(** [read_head] over what the connection gives, one piece per read; after the
    last it ends or breaks. *)
Fixpoint read_head_loop (buffer : list byte) (chunks : list (list byte)) : result Refusal (list byte * list byte) :=
  match find buffer END_OF_HEAD with
  | Some end_ => Ok (take (end_ + length END_OF_HEAD) buffer, drop (end_ + length END_OF_HEAD) buffer)
  | None =>
    if MAX_HEAD <? zlen buffer then Err Malformed
    else match chunks with
         | [] => Err Malformed
         | [] :: _ => Err Malformed
         | chunk :: chunks => read_head_loop (buffer ++ chunk) chunks
         end
  end.
Definition read_head (first : option byte) (chunks : list (list byte)) : result Refusal (list byte * list byte) :=
  read_head_loop (from_option (fun b => [b]) [] first) chunks.

(** [split("\r\n")]. *)
Definition push_first (b : byte) (pieces : list (list byte)) : list (list byte) :=
  match pieces with p :: ps => (b :: p) :: ps | [] => [[b]] end.
Fixpoint split_crlf (s : list byte) : list (list byte) :=
  match s with
  | [] => [[]]
  | b :: s1 =>
    match s1 with
    | c :: s2 => if bool_decide (b = CR) && bool_decide (c = LF) then [] :: split_crlf s2 else push_first b (split_crlf s1)
    | [] => push_first b (split_crlf s1)
    end
  end.

Definition space : byte := z2b 32.
Definition tab : byte := z2b 9.
Definition at_sign : byte := z2b 64.
Definition question_mark : byte := z2b 63.

(** [header]. *)
Definition token_byte (b : byte) : bool :=
  is_ascii_alphanumeric b || bool_decide (b ∈ str "!#$%&'*+-.^_`|~").
Definition header (line : list byte) : result Refusal (list byte * list byte) :=
  let* parts := ok_or (split_once colon line) Malformed in
  let '(name, value) := parts in
  require negb (bool_decide (name = [])) && forallb token_byte name else Malformed in
  Ok (name, trim_matches (fun b => bool_decide (b = space) || bool_decide (b = tab)) value).

(** [basic]. *)
Definition basic `{Base64Standard} (value : list byte) : result Refusal (list byte * list byte) :=
  let* parts := ok_or (split_once space value) Malformed in
  let '(scheme, encoded) := parts in
  require eq_ignore_ascii_case scheme (str "basic") else Malformed in
  let* decoded := ok_or (base64_decode (trim encoded)) Malformed in
  ok_or (split_once colon decoded) Malformed.

(** The text before and after the last [b] ([rfind]). *)
Definition rsplit_once (b : byte) (s : list byte) : option (list byte * list byte) :=
  match split_once b (rev s) with Some (r, l) => Some (rev l, rev r) | None => None end.

(** [authority]. *)
Definition authority (text : list byte) (default_port : option Z) : result Refusal Target :=
  require negb (bool_decide (at_sign ∈ text)) else Malformed in
  let* parts :=
    match rsplit_once colon text with
    | Some (before, digits) =>
      if bool_decide (close_bracket ∈ digits) then ok_or (option_map (fun p => (text, p)) default_port) Malformed
      else if bool_decide (digits = []) || negb (forallb is_ascii_digit digits) then Err Malformed
      else ok_or (option_map (fun p => (before, p)) (parse_unsigned u16_max digits)) Malformed
    | None => ok_or (option_map (fun p => (text, p)) default_port) Malformed
    end in
  let '(host, port) := parts in
  require negb (port =? 0) else RefusedTarget TargetInvalid in
  require negb (bool_decide (colon ∈ host) && negb (starts_with open_bracket host)) else Malformed in
  let* host := map_err RefusedTarget (host_parse host) in
  Ok (mkTarget host port).

(** [strip_prefix_ignore_case]. *)
Definition strip_prefix_ignore_case (text prefix : list byte) : option (list byte) :=
  match get_to text (length prefix) with
  | Some head => if eq_ignore_ascii_case head prefix then Some (drop (length prefix) text) else None
  | None => None
  end.

Definition slash : byte := z2b 47.

(** [rest.split_at(rest.find(['/', '?']).unwrap_or(rest.len()))]. *)
Fixpoint split_path (rest : list byte) : list byte * list byte :=
  match rest with
  | b :: r => if bool_decide (b = slash) || bool_decide (b = question_mark) then ([], rest)
              else let '(host, path) := split_path r in (b :: host, path)
  | [] => ([], [])
  end.

Definition is_hop (name : list byte) : bool := existsb (eq_ignore_ascii_case name) HOP_HEADERS.
Definition header_line (h : list byte * list byte) : list byte := h.1 ++ str ": " ++ h.2.

(** The head sent to the site. *)
Definition forward_head (method path version host_port : list byte) (headers : list (list byte * list byte)) : list byte :=
  let kept := filter (fun h => is_hop h.1 = false) headers in
  let has_host := existsb (fun h => eq_ignore_ascii_case h.1 (str "host")) kept in
  (method ++ [space] ++ path ++ [space] ++ version ++ CRLF)
  ++ flat_map (fun h => header_line h ++ CRLF) kept
  ++ (if has_host then [] else str "Host: " ++ host_port ++ CRLF)
  ++ str "Connection: close" ++ CRLF ++ CRLF.

(** [parse_request]. *)
Definition parse_request `{Base64Standard} (head : list byte) : result Refusal Request :=
  require valid_utf8 head else Malformed in
  let* text := ok_or (strip_suffix head END_OF_HEAD) Malformed in
  match split_crlf text with
  | [] => Err Malformed
  | request_line :: lines =>
    match split_on space request_line with
    | [method; uri; version] =>
      require negb (bool_decide (method = [])) && forallb is_ascii_uppercase method else Malformed in
      require bool_decide (version = str "HTTP/1.1") || bool_decide (version = str "HTTP/1.0") else Malformed in
      let* headers := collect header lines in
      let* authorization :=
        match List.find (fun h => eq_ignore_ascii_case h.1 (str "proxy-authorization")) headers with
        | Some (_, value) => let* c := basic value in Ok (Some c)
        | None => Ok None
        end in
      if bool_decide (method = str "CONNECT") then
        let* target := authority uri None in
        Ok (mkRequest target Tunnel authorization)
      else
        let* rest := ok_or (strip_prefix_ignore_case uri (str "http://")) Unsupported in
        let '(host_port, path) := split_path rest in
        let* target := authority host_port (Some 80) in
        let path := match path with
                    | [] => str "/"
                    | b :: _ => if bool_decide (b = question_mark) then str "/" ++ path else path
                    end in
        Ok (mkRequest target (Forward (forward_head method path version host_port headers)) authorization)
    | _ => Err Malformed
    end
  end.

(** [rewrite_response]. *)
Fixpoint rewrite_lines (lines : list (list byte)) : option (list byte) :=
  match lines with
  | [] => Some []
  | line :: lines =>
    match split_once colon line with
    | None => None
    | Some (name, _) =>
      match rewrite_lines lines with
      | None => None
      | Some rest =>
        if eq_ignore_ascii_case name (str "connection") || eq_ignore_ascii_case name (str "keep-alive")
        then Some rest else Some (line ++ CRLF ++ rest)
      end
    end
  end.
Definition rewrite_response (head : list byte) : option (list byte) :=
  if valid_utf8 head then
    match strip_suffix head END_OF_HEAD with
    | None => None
    | Some text =>
      match split_crlf text with
      | [] => None
      | status :: lines =>
        if bool_decide (take 7 status = str "HTTP/1.") then
          match rewrite_lines lines with
          | Some rest => Some (status ++ CRLF ++ rest ++ str "Connection: close" ++ CRLF ++ CRLF)
          | None => None
          end
        else None
      end
    end
  else None.

(** [Status] and [response]. *)
Inductive Status := Established | SignInRequired | BadRequest | NotForwarded | StatusNotAllowed | NotConnected | BadGateway | GatewayTimeout.

Global Instance Status_eq_dec : EqDecision Status.
Proof. solve_decision. Defined.

Definition quote : byte := z2b 34.
Definition line_break : list byte := [LF].
Definition status_parts (s : Status) : Z * list byte * list byte :=
  match s with
  | Established => (200, str "Connection established", [])
  | SignInRequired => (407, str "Proxy Authentication Required", str "Sign in with the user name and password Ket shows." ++ line_break)
  | BadRequest => (400, str "Bad Request", str "Ket could not read this request." ++ line_break)
  | NotForwarded => (400, str "Bad Request",
      str "This is a Ket share. Set it as the proxy in your device's Wi-Fi or proxy settings instead of opening it here." ++ line_break)
  | StatusNotAllowed => (403, str "Forbidden", str "Ket shares the Internet, not this device or its network." ++ line_break)
  | NotConnected => (503, str "Service Unavailable", str "Ket is not connected right now. Try again in a moment." ++ line_break)
  | BadGateway => (502, str "Bad Gateway", str "The site could not be reached through Ket." ++ line_break)
  | GatewayTimeout => (504, str "Gateway Timeout", str "The site did not answer in time." ++ line_break)
  end.
Definition http_response (status : Status) : list byte :=
  let '(code, reason, text) := status_parts status in
  match status with
  | Established => str "HTTP/1.1 200 Connection established" ++ CRLF ++ CRLF
  | _ =>
    let challenge := if bool_decide (status = SignInRequired)
      then str "Proxy-Authenticate: Basic realm=" ++ [quote] ++ str "Ket" ++ [quote] ++ str ", charset=" ++ [quote] ++ str "UTF-8" ++ [quote] ++ CRLF
      else [] in
    str "HTTP/1.1 " ++ show_u64 code ++ [space] ++ reason ++ CRLF ++ challenge
    ++ str "Content-Type: text/plain; charset=utf-8" ++ CRLF ++ str "Content-Length: " ++ show_u64 (zlen text) ++ CRLF
    ++ str "Connection: close" ++ CRLF ++ CRLF ++ text
  end.

Definition head_of (lines : list (list byte)) : list byte := flat_map (fun l => l ++ CRLF) lines ++ CRLF.

(** A stand-in decoder for the examples, which leaves text as it is. *)
Definition plain_base64 : Base64Standard := Some.

Example parse_request_examples :
  (@parse_request plain_base64 (head_of (map str ["CONNECT Example.com:443 HTTP/1.1"%string; "Proxy-Authorization: Basic ket:abc"%string])) =
    Ok (mkRequest (mkTarget (HostName (str "example.com")) 443) Tunnel (Some (str "ket", str "abc")))) /\
  (@parse_request plain_base64 (head_of (map str ["GET http://example.com?q=1 HTTP/1.1"%string; "Proxy-Authorization: Basic ket:abc"%string;
      "Accept: */*"%string; "Connection: keep-alive"%string])) =
    Ok (mkRequest (mkTarget (HostName (str "example.com")) 80)
      (Forward (head_of (map str ["GET /?q=1 HTTP/1.1"%string; "Accept: */*"%string; "Host: example.com"%string; "Connection: close"%string])))
      (Some (str "ket", str "abc")))) /\
  @parse_request plain_base64 (head_of (map str ["GET https://example.com/ HTTP/1.1"%string])) = Err Unsupported /\
  @parse_request plain_base64 (head_of (map str ["GET http://printer.local/ HTTP/1.1"%string])) = Err (RefusedTarget LocalName) /\
  @parse_request plain_base64 (head_of (map str ["CONNECT a@b.org:1 HTTP/1.1"%string])) = Err Malformed /\
  rewrite_response (head_of (map str ["HTTP/1.1 200 OK"%string; "Keep-Alive: timeout=5"%string; "Server: x"%string])) =
    Some (head_of (map str ["HTTP/1.1 200 OK"%string; "Server: x"%string; "Connection: close"%string])).
Proof. vm_compute. repeat split; reflexivity. Qed.

(** ** Lines *)

(** Text without a line break inside. *)
Definition crlf_free (s : list byte) : Prop := split_crlf s = [s].

Lemma split_crlf_app x y : crlf_free x -> split_crlf (x ++ CRLF ++ y) = x :: split_crlf y.
Proof.
  unfold crlf_free. induction x as [|b x IH]; intros Hx; [done|]. cbn [app split_crlf] in *.
  destruct x as [|c x]; cbn [app] in *.
  - destruct (bool_decide (b = CR)); reflexivity.
  - destruct (bool_decide (b = CR) && bool_decide (c = LF)) eqn:E; [by destruct (split_crlf x)|].
    assert (split_crlf (c :: x) = [c :: x]) as Hc. { destruct (split_crlf (c :: x)) as [|p [|q ps]]; cbn in Hx; congruence. }
    by rewrite (IH Hc).
Qed.

Definition no_crlf (s : list byte) : Prop := forall a b, s <> a ++ CRLF ++ b.

Lemma no_crlf_mid a s b : no_crlf (a ++ s ++ b) -> no_crlf s.
Proof. intros H x y ->. apply (H (a ++ x) (y ++ b)). by rewrite <- !(assoc_L (++)). Qed.

Lemma no_crlf_prefix s b : no_crlf (s ++ b) -> no_crlf s.
Proof. exact (no_crlf_mid [] s b). Qed.

Lemma no_crlf_suffix a s : no_crlf (a ++ s) -> no_crlf s.
Proof. intros H. apply (no_crlf_mid a s []). by rewrite app_nil_r. Qed.

Lemma no_crlf_nil : no_crlf [].
Proof. by intros [|x a] y. Qed.

Lemma no_crlf_cons b s : no_crlf s -> ~ (b = CR /\ exists r, s = LF :: r) -> no_crlf (b :: s).
Proof.
  intros Hs Hb [|x a] y E; simplify_eq/=.
  - apply Hb. split; [done|]. by eexists.
  - by apply (Hs a y).
Qed.

(** Joining texts makes no break when a byte other than CR comes before. *)
Lemma no_crlf_join x c y : no_crlf (x ++ [c]) -> c <> CR -> no_crlf y -> no_crlf (x ++ c :: y).
Proof.
  induction x as [|b x IH]; intros Hx Hc Hy; cbn [app] in *.
  - apply no_crlf_cons; [done|]. by intros [? _].
  - apply no_crlf_cons; [apply IH; [|done..]; by apply (no_crlf_suffix [b])|].
    intros [-> [r E]]. destruct x as [|z x]; simplify_eq/=; [by apply (Hx [] [])|by apply (Hx [] (x ++ [c]))].
Qed.

Lemma split_crlf_many n a b : (length a <= n)%nat -> (2 <= length (split_crlf (a ++ CRLF ++ b)))%nat.
Proof.
  assert (forall s, 1 <= length (split_crlf s))%nat as Hne.
  { assert (forall x p, 1 <= length (push_first x p))%nat as HP by (intros x [|]; cbn; lia).
    intros s. destruct s as [|x [|y s]]; cbn [split_crlf]; [done|done|].
    destruct (_ && _); [cbn; lia|apply HP]. }
  assert (forall x p, length (split_crlf p) <= length (push_first x (split_crlf p)))%nat as Hp.
  { intros x p. destruct (split_crlf p); cbn; lia. }
  revert a; induction n as [|n IH]; intros [|x [|y a]] Hl; cbn [length] in Hl; try lia.
  - apply le_n_S, (Hne b).
  - apply le_n_S, (Hne b).
  - change ([x] ++ CRLF ++ b) with (x :: [] ++ CRLF ++ b). specialize (IH [] ltac:(cbn; lia)). cbn [split_crlf app CRLF] in *.
    rewrite (bool_decide_false (CR = LF)) by done. rewrite andb_false_r. etrans; [exact IH|]. apply (Hp x (CR :: LF :: b)).
  - specialize (IH (y :: a) ltac:(cbn; lia)) as IH1. cbn [app split_crlf] in *.
    destruct (bool_decide (x = CR) && bool_decide (y = LF)).
    + specialize (Hne (a ++ CRLF ++ b)). cbn [length]. lia.
    + etrans; [exact IH1|]. apply (Hp x (y :: a ++ CRLF ++ b)).
Qed.

Lemma crlf_free_iff s : crlf_free s <-> no_crlf s.
Proof.
  unfold crlf_free. split.
  - intros E a b ->. pose proof (split_crlf_many _ a b (le_n _)) as H. rewrite E in H. cbn in H. lia.
  - induction s as [|b s IH]; intros Hs; [done|]. specialize (IH (no_crlf_suffix [b] s Hs)). cbn [split_crlf].
    destruct s as [|c s]; [done|]. destruct (bool_decide (b = CR) && bool_decide (c = LF)) eqn:E; [|by rewrite IH].
    bool_prop. subst. by exfalso; apply (Hs [] s).
Qed.

Lemma split_crlf_free n s : (length s <= n)%nat -> Forall no_crlf (split_crlf s) /\
  match s, split_crlf s with c :: _, p :: _ => p = [] \/ exists r, p = c :: r | _, _ => True end.
Proof.
  revert s; induction n as [|n IH]; intros [|b s] Hl; cbn [length] in Hl; try lia; try (split; [by repeat constructor; apply no_crlf_nil|done]).
  cbn [split_crlf]. destruct s as [|c s].
  - cbn. split; [|by right; eexists]. constructor; [|constructor]. by apply no_crlf_cons; [apply no_crlf_nil|intros [_ [? ?]]].
  - destruct (bool_decide (b = CR) && bool_decide (c = LF)) eqn:E.
    + split; [|by left]. constructor; [apply no_crlf_nil|]. apply IH. cbn in Hl. lia.
    + destruct (IH (c :: s) ltac:(lia)) as [HF HH]. destruct (split_crlf (c :: s)) as [|p ps] eqn:ES.
      { cbn. split; [|by right; eexists]. constructor; [|constructor]. by apply no_crlf_cons; [apply no_crlf_nil|intros [_ [? ?]]]. }
      cbn [push_first]. split; [|right; by eexists]. apply Forall_cons in HF as [Hp HF]. constructor; [|done].
      apply no_crlf_cons; [done|]. intros [-> [r ->]]. destruct HH as [|[r' [= <- _]]]; [done|].
      by rewrite !bool_decide_true in E.
Qed.

Lemma split_crlf_pieces s x : x ∈ split_crlf s -> no_crlf x.
Proof. intros Hx. destruct (split_crlf_free _ s (le_n _)) as [HF _]. rewrite Forall_forall in HF. by apply HF. Qed.

Lemma join_crlf n s : (length s <= n)%nat -> flat_map (fun l => l ++ CRLF) (split_crlf s) = s ++ CRLF.
Proof.
  assert (forall b p q, flat_map (fun l => l ++ CRLF) p = q -> p <> [] -> flat_map (fun l => l ++ CRLF) (push_first b p) = b :: q) as HP.
  { intros b [|x p] q Hq Hne; [done|]. cbn in *. by rewrite Hq. }
  assert (forall s, split_crlf s <> []) as Hne.
  { assert (forall b p, push_first b p <> []) as HN by (by intros b [|]).
    intros [|x [|y t]]; cbn [split_crlf]; [done|done|]. destruct (_ && _); [done|apply HN]. }
  revert s; induction n as [|n IH]; intros [|b s] Hl; cbn [length] in Hl; try lia; try done. cbn [split_crlf].
  destruct s as [|c s]; [done|]. destruct (bool_decide (b = CR) && bool_decide (c = LF)) eqn:E.
  - cbn [flat_map]. rewrite IH by (cbn in Hl; lia). bool_prop. by subst.
  - apply HP; [|apply Hne]. apply IH. lia.
Qed.

Lemma split_lines lines rest : Forall no_crlf lines -> split_crlf (flat_map (fun l => l ++ CRLF) lines ++ rest) = lines ++ split_crlf rest.
Proof.
  induction 1 as [|l lines Hl HF IH]; [done|]. cbn [flat_map]. rewrite <- !(assoc_L (++)).
  rewrite split_crlf_app by by apply crlf_free_iff. by rewrite IH.
Qed.

(** ** The head of a request *)

Lemma find_some s n i : find s n = Some i -> exists a b, s = a ++ n ++ b /\ length a = i.
Proof.
  revert i; induction s as [|c s IH]; intros i; cbn [find]; case_bool_decide as E.
  - intros [= <-]. exists [], []. split; [|done]. rewrite app_nil_r. by rewrite take_nil in E.
  - done.
  - intros [= <-]. exists [], (drop (length n) (c :: s)). split; [|done]. pose proof (take_drop (length n) (c :: s)) as Ht. by rewrite E in Ht.
  - destruct (find s n) as [j|] eqn:EF; [|done]. intros [= <-]. destruct (IH j eq_refl) as (a & b & -> & <-). by exists (c :: a), b.
Qed.

(** Where the needle is whole, the first place of it is within. *)
Lemma find_least s n i a b : find s n = Some i -> s = a ++ n ++ b -> (i <= length a)%nat.
Proof.
  revert i a; induction s as [|c s IH]; intros i a; cbn [find]; case_bool_decide as E; try (intros [= <-]; lia).
  destruct (find s n) as [j|] eqn:EF; [|done]. intros [= <-] Es. destruct a as [|x a]; cbn [app] in Es.
  - exfalso. apply E. rewrite Es. by rewrite take_app_length.
  - injection Es as _ ->. specialize (IH j a eq_refl eq_refl). cbn [length]. lia.
Qed.

Lemma find_none s n a b : find s n = None -> s <> a ++ n ++ b.
Proof.
  revert a; induction s as [|c s IH]; intros a; cbn [find]; case_bool_decide as E; try done.
  - intros _ Es. symmetry in Es. apply app_nil in Es as [-> [-> ->]%app_nil]. done.
  - destruct (find s n) as [j|] eqn:EF; [done|]. intros _ Es. destruct a as [|x a]; cbn [app] in Es.
    + apply E. rewrite Es. by rewrite take_app_length.
    + injection Es as _ ->. by eapply (IH a).
Qed.

(** A head: text that ends in the first blank line it has. *)
Definition is_head (h : list byte) : Prop := exists a, h = a ++ END_OF_HEAD /\ forall x y, h = x ++ END_OF_HEAD ++ y -> y = [].

Lemma find_head buffer i : find buffer END_OF_HEAD = Some i -> is_head (take (i + length END_OF_HEAD) buffer).
Proof.
  intros HF. apply find_some in HF as Hs. destruct Hs as (a & b & E & Hi).
  assert (take (i + length END_OF_HEAD) buffer = a ++ END_OF_HEAD) as ->.
  { rewrite E, (assoc_L (++)). rewrite <- Hi, <- length_app. apply take_app_length. }
  exists a. split; [done|]. intros x y Exy.
  assert (length x + length y = length a)%nat as Hl by (apply (f_equal length) in Exy; rewrite !length_app in Exy; lia).
  assert (i <= length x)%nat as Hle.
  { eapply find_least; [exact HF|]. rewrite E, (assoc_L (++)), Exy, <- !(assoc_L (++)). reflexivity. }
  destruct y; [done|]. cbn in Hl. lia.
Qed.

Lemma is_head_unique h k t u : is_head h -> is_head k -> h ++ t = k ++ u -> h = k.
Proof.
  assert (forall h k t u, is_head h -> is_head k -> h ++ t = k ++ u -> (length h <= length k)%nat -> h = k) as HW.
  { intros h' k' t' u' (a & -> & _) (c & -> & Hk) E Hl.
    assert (c ++ END_OF_HEAD = (a ++ END_OF_HEAD) ++ drop (length (a ++ END_OF_HEAD)) (c ++ END_OF_HEAD)) as Ek.
    { rewrite <- (take_drop (length (a ++ END_OF_HEAD)) (c ++ END_OF_HEAD)) at 1. f_equal.
      apply (f_equal (take (length (a ++ END_OF_HEAD)))) in E. rewrite take_app_length, take_app_le in E by done. done. }
    rewrite <- (assoc_L (++)) in Ek. specialize (Hk _ _ Ek). rewrite Hk, app_nil_r in Ek. done. }
  intros Hh Hk E. destruct (Nat.le_ge_cases (length h) (length k)); [by eapply HW|]. symmetry. by eapply HW.
Qed.

Lemma read_head_sound buffer chunks h r : read_head_loop buffer chunks = Ok (h, r) ->
  is_head h /\ exists more, buffer ++ concat chunks = h ++ r ++ more.
Proof.
  revert buffer; induction chunks as [|chunk chunks IH]; intros buffer; cbn [read_head_loop];
    (destruct (find buffer END_OF_HEAD) as [i|] eqn:EF;
     [intros [= <- <-]; split; [by apply find_head|]; eexists; rewrite (assoc_L (++)), take_drop; reflexivity|]);
    destruct (_ <? _); try done.
  destruct chunk as [|b chunk]; [done|]. intros (Hh & more & E)%IH. split; [done|]. exists more. by rewrite <- E, <- (assoc_L (++)).
Qed.

Lemma read_head_complete buffer chunks h tail :
  is_head h -> zlen h <= MAX_HEAD -> Forall (fun c => c <> []) chunks -> buffer ++ concat chunks = h ++ tail ->
  exists r, read_head_loop buffer chunks = Ok (h, r) /\ r `prefix_of` tail.
Proof.
  intros Hh Hm. revert buffer; induction chunks as [|chunk chunks IH]; intros buffer HC E; cbn [read_head_loop].
  all: destruct (find buffer END_OF_HEAD) as [i|] eqn:EF.
  1, 3: pose proof (find_head _ _ EF) as Hk; rewrite <- (take_drop (i + length END_OF_HEAD) buffer), <- (assoc_L (++)) in E;
    pose proof (is_head_unique _ _ _ _ Hk Hh E) as Eh; rewrite Eh in *; eexists; split; [reflexivity|]; apply app_inv_head in E;
    rewrite <- E; by apply prefix_app_r.
  all: assert (length buffer < length h)%nat as Hl.
  1, 3: destruct (Nat.lt_ge_cases (length buffer) (length h)) as [|Hge]; [done|exfalso]; destruct Hh as (a & -> & _);
    apply (f_equal (take (length (a ++ END_OF_HEAD)))) in E; rewrite take_app_length, take_app_le in E by done;
    eapply (find_none buffer END_OF_HEAD a (drop (length (a ++ END_OF_HEAD)) buffer) EF);
    rewrite (assoc_L (++)); rewrite <- E at 1; by rewrite take_drop.
  - rewrite app_nil_r in E. apply (f_equal length) in E. rewrite length_app in E. lia.
  - rewrite (proj2 (Z.ltb_ge _ _)) by (unfold zlen in *; lia). apply Forall_cons in HC as [Hc HC].
    destruct chunk as [|b chunk]; [done|]. apply IH; [done|]. by rewrite <- E, <- (assoc_L (++)).
Qed.

(** ** What is passed on *)

Lemma split_once_some sep s a b : split_once sep s = Some (a, b) -> s = a ++ sep :: b /\ sep ∉ a.
Proof.
  revert a; induction s as [|c s IH]; intros a; cbn; [done|]. case_bool_decide as E.
  - intros [= <- <-]. subst. split; [done|apply not_elem_of_nil].
  - destruct (split_once sep s) as [[x y]|]; [|done]. intros [= <- <-]. destruct (IH x eq_refl) as [-> Hx].
    split; [done|]. by rewrite not_elem_of_cons.
Qed.

Lemma header_no_crlf line h : no_crlf line -> header line = Ok h -> no_crlf (header_line h) /\ colon ∉ h.1.
Proof.
  unfold header. intros Hl HH. destruct (split_once colon line) as [[name value]|] eqn:E; [|done]. cbn in HH.
  apply split_once_some in E as [-> Hc]. break_in HH. injection HH as <-. split; [|done]. unfold header_line. cbn [fst snd].
  change (str ": " ++ ?v) with (colon :: space :: v). apply no_crlf_join; [|done|].
  - apply (no_crlf_prefix _ value). by rewrite <- (assoc_L (++)).
  - apply no_crlf_cons; [|by intros [? _]]. assert (no_crlf value) as Hv by (apply (no_crlf_suffix (name ++ [colon])); by rewrite <- (assoc_L (++))).
    destruct (trim_matches_inside (fun b => bool_decide (b = space) || bool_decide (b = tab)) value) as (a & b & Ev).
    rewrite Ev in Hv. by eapply no_crlf_mid.
Qed.

Lemma split_path_app rest : rest = (split_path rest).1 ++ (split_path rest).2.
Proof.
  induction rest as [|b r IH]; [done|]. cbn. destruct (_ || _); [done|]. destruct (split_path r) as [h p]. cbn in *. by rewrite <- IH.
Qed.

(** The header lines of a forwarded request. *)
Definition forwarded_headers (host_port : list byte) (headers : list (list byte * list byte)) : list (list byte * list byte) :=
  let kept := filter (fun h => is_hop h.1 = false) headers in
  kept ++ (if existsb (fun h => eq_ignore_ascii_case h.1 (str "host")) kept then [] else [(str "Host", host_port)]).

Lemma flat_map_map {A B C} (f : B -> list C) (g : A -> B) l : flat_map f (map g l) = flat_map (fun x => f (g x)) l.
Proof. induction l as [|x l IH]; cbn; by rewrite ?IH. Qed.

Lemma forward_head_lines method path version host_port headers :
  forward_head method path version host_port headers =
  head_of ((method ++ [space] ++ path ++ [space] ++ version) :: map header_line (forwarded_headers host_port headers) ++ [str "Connection: close"]).
Proof.
  unfold forward_head, head_of, forwarded_headers. set (kept := filter _ headers). cbn [flat_map].
  rewrite map_app, !flat_map_app, !flat_map_map. cbn [flat_map].
  rewrite !app_nil_r, <- !(assoc_L (++)). do 6 f_equal. destruct (existsb _ kept); cbn [map flat_map app]; [done|].
  rewrite app_nil_r. unfold header_line. cbn [fst snd]. by rewrite <- !(assoc_L (++)).
Qed.

Lemma forwarded_not_hop host_port headers : Forall (fun h => is_hop h.1 = false) (forwarded_headers host_port headers).
Proof.
  unfold forwarded_headers. apply Forall_app. split.
  - rewrite Forall_forall. by intros h [Hh _]%list_elem_of_filter.
  - destruct (existsb _ _); [constructor|]. by constructor.
Qed.

Lemma split_head_of lines : Forall no_crlf lines -> split_crlf (head_of lines) = lines ++ [[]; []].
Proof. intros HF. unfold head_of. by rewrite split_lines. Qed.

Lemma no_crlf_bytes (p : byte -> bool) s : p CR = false -> forallb p s = true -> no_crlf s.
Proof.
  intros Hp HF a b ->. rewrite forallb_Forall, Forall_app in HF. destruct HF as [_ HF]. apply Forall_cons in HF as [H _]. congruence.
Qed.

Lemma collect_headers lines headers : Forall no_crlf lines -> collect header lines = Ok headers ->
  Forall (fun h => no_crlf (header_line h) /\ colon ∉ h.1) headers.
Proof.
  intros HL HC%collect_ok_forall2. induction HC as [|l h ls hs Hh HC IH]; [constructor|]. apply Forall_cons in HL as [Hl HL].
  constructor; [by eapply header_no_crlf|by apply IH].
Qed.

(** What is sent to the site: the request line, the device's headers but the
    hop-by-hop ones, and [Connection: close]. *)
Lemma forwarded_lines head_text request_line lines method uri version path host_port rest headers :
  split_crlf head_text = request_line :: lines -> split_on space request_line = [method; uri; version] ->
  strip_prefix_ignore_case uri (str "http://") = Some rest -> split_path rest = (host_port, path) ->
  collect header lines = Ok headers ->
  let path := match path with [] => str "/" | b :: _ => if bool_decide (b = question_mark) then str "/" ++ path else path end in
  split_crlf (forward_head method path version host_port headers) =
  (method ++ [space] ++ path ++ [space] ++ version) :: map header_line (forwarded_headers host_port headers) ++ [str "Connection: close"; []; []].
Proof.
  intros Hsplit Hline Hrest Hpath Hheaders. cbn zeta. set (p := match path with [] => _ | _ => _ end).
  assert (Forall no_crlf (request_line :: lines)) as HL.
  { rewrite <- Hsplit, Forall_forall. intros x. apply split_crlf_pieces. }
  apply Forall_cons in HL as [Hr HL]. pose proof (join_split space request_line) as HJ. rewrite Hline in HJ. cbn [join] in HJ.
  rewrite <- HJ in Hr. pose proof (collect_headers _ _ HL Hheaders) as HH.
  assert (no_crlf (uri ++ space :: version)) as Hur by (apply (no_crlf_suffix (method ++ [space])); by rewrite <- (assoc_L (++))).
  assert (exists a, uri = a ++ rest) as [a ->].
  { unfold strip_prefix_ignore_case in Hrest. break_in Hrest. injection Hrest as <-. exists (take (length (str "http://")) uri). by rewrite take_drop. }
  pose proof (split_path_app rest) as Hrp. rewrite Hpath in Hrp. cbn in Hrp. subst rest.
  assert (no_crlf (host_port ++ path ++ space :: version)) as Hhp
    by (apply (no_crlf_suffix a); by rewrite !(assoc_L (++)) in *).
  assert (no_crlf (path ++ space :: version)) as Hpv by by eapply no_crlf_suffix.
  assert (no_crlf host_port) as Hh by by eapply no_crlf_prefix.
  assert (no_crlf (p ++ space :: version)) as Hp.
  { subst p. assert (no_crlf (space :: version)) by by eapply no_crlf_suffix.
    destruct path as [|b path]; [apply (no_crlf_join [] (z2b 47)); [|done|done]; by apply (no_crlf_bytes (fun b => negb (bool_decide (b = CR))))|].
    destruct (bool_decide (b = question_mark)); [|done]. apply (no_crlf_join [] (z2b 47)); [|done|done].
    by apply (no_crlf_bytes (fun b => negb (bool_decide (b = CR)))). }
  rewrite forward_head_lines, split_head_of; [cbn [app]; by rewrite <- (assoc_L (++))|]. constructor.
  - apply no_crlf_join; [|done|done]. apply (no_crlf_prefix _ ((a ++ host_port ++ path) ++ space :: version)). by rewrite <- (assoc_L (++)).
  - apply Forall_app. split; [|constructor; [by apply (no_crlf_bytes (fun b => negb (bool_decide (b = CR))))|constructor]].
    apply Forall_fmap. unfold forwarded_headers. apply Forall_app. split.
    + eapply sublist_Forall; [apply sublist_filter|]. eapply Forall_impl; [exact HH|]. by intros h [? _].
    + destruct (existsb _ _); [constructor|]. constructor; [|constructor]. cbn.
      change (no_crlf (str "Host:" ++ space :: host_port)). apply no_crlf_join; [|done|done].
      by apply (no_crlf_bytes (fun b => negb (bool_decide (b = CR)))).
Qed.

(** The parts of a parsed request. *)
Lemma parse_request_parts `{Base64Standard} head q : parse_request head = Ok q ->
  exists text request_line lines method uri version headers,
    head = text ++ END_OF_HEAD /\ split_crlf text = request_line :: lines /\ split_on space request_line = [method; uri; version] /\
    collect header lines = Ok headers /\
    match q_kind q with
    | Tunnel => method = str "CONNECT" /\ authority uri None = Ok (q_target q)
    | Forward f => exists rest host_port path,
        strip_prefix_ignore_case uri (str "http://") = Some rest /\ split_path rest = (host_port, path) /\
        authority host_port (Some 80) = Ok (q_target q) /\
        f = forward_head method
              (match path with [] => str "/" | b :: _ => if bool_decide (b = question_mark) then str "/" ++ path else path end)
              version host_port headers
    end.
Proof.
  unfold parse_request. destruct (valid_utf8 head); [|done]. destruct (strip_suffix head END_OF_HEAD) as [text|] eqn:ES; [|done].
  cbn [ok_or]. apply strip_suffix_some in ES. destruct (split_crlf text) as [|request_line lines] eqn:EL; [done|].
  destruct (split_on space request_line) as [|method [|uri [|version [|? ?]]]] eqn:EP; try done.
  destruct (_ && _); [|done]. destruct (_ || _); [|done]. destruct (collect header lines) as [headers|] eqn:EH; [|done].
  destruct (match List.find _ headers with Some _ => _ | None => _ end) as [auth|]; [|done].
  intros HQ. exists text, request_line, lines, method, uri, version, headers. split_and!; try done.
  destruct (bool_decide (method = str "CONNECT")) eqn:EM.
  - destruct (authority uri None) as [t|] eqn:EA; [|done]. injection HQ as <-. cbn. bool_prop. done.
  - destruct (strip_prefix_ignore_case uri (str "http://")) as [rest|] eqn:ER; [|done]. cbn [ok_or] in HQ.
    destruct (split_path rest) as [host_port path] eqn:EPath. destruct (authority host_port (Some 80)) as [t|] eqn:EA; [|done].
    injection HQ as <-. cbn. by exists rest, host_port, path.
Qed.

Lemma authority_ok text d t : authority text d = Ok t ->
  (forall p, d = Some p -> p <= u16_max) -> (forall p, d = Some p -> 0 <= p) ->
  0 < t_port t <= u16_max /\ exists host, host_parse host = Ok (t_host t).
Proof.
  unfold authority. intros HA Hd Hd0. destruct (negb _); [|done].
  match type of HA with context [match ?m with Ok _ => _ | Err _ => _ end] => destruct m as [[host port]|] eqn:EM; [|done] end.
  destruct (port =? 0) eqn:EZ; [done|]. cbn [negb] in HA. destruct (negb (bool_decide (colon ∈ host) && _)); [|done].
  destruct (host_parse host) as [h|] eqn:EH; [|done]. injection HA as <-. cbn [t_port t_host]. split; [|by exists host].
  apply Z.eqb_neq in EZ. assert (0 <= port <= u16_max); [|lia].
  assert (forall p, d = Some p -> 0 <= p <= u16_max) as HD by (intros p Hp; split; [by apply Hd0|by apply Hd]).
  assert (forall digits p, parse_unsigned u16_max digits = Some p -> 0 <= p <= u16_max) as HP.
  { intros digits p Hp. unfold parse_unsigned in Hp. break_in Hp. injection Hp as <-. apply parse_digits_bound in E0. bool_prop. lia. }
  destruct (rsplit_once colon text) as [[before digits]|]; [|destruct d; simplify_eq/=; by apply HD].
  destruct (bool_decide _); [destruct d; simplify_eq/=; by apply HD|]. destruct (_ || _); [done|].
  destruct (parse_unsigned u16_max digits) as [p|] eqn:EP; simplify_eq/=. by eapply HP.
Qed.

(** The response passed back keeps the site's lines but those about the
    connection. *)
Definition is_connection_line (line : list byte) : bool :=
  match split_once colon line with
  | Some (name, _) => eq_ignore_ascii_case name (str "connection") || eq_ignore_ascii_case name (str "keep-alive")
  | None => false
  end.

Lemma rewrite_lines_spec lines rest : rewrite_lines lines = Some rest ->
  rest = flat_map (fun l => l ++ CRLF) (filter (fun l => is_connection_line l = false) lines) /\
  Forall (fun l => is_Some (split_once colon l)) lines.
Proof.
  revert rest; induction lines as [|l lines IH]; intros rest; cbn [rewrite_lines]; [by intros [= <-]|].
  destruct (split_once colon l) as [[name v]|] eqn:E; [|done]. destruct (rewrite_lines lines) as [r|]; [|done].
  destruct (IH r eq_refl) as [-> HF]. rewrite filter_cons.
  assert (is_connection_line l = eq_ignore_ascii_case name (str "connection") || eq_ignore_ascii_case name (str "keep-alive")) as EL
    by (unfold is_connection_line; by rewrite E).
  destruct (_ || _) eqn:EC; intros [= <-]; (split; [|constructor; [rewrite E; by eexists|done]]).
  - destruct (decide _); [congruence|done].
  - destruct (decide _); [|done]. cbn [flat_map]. by rewrite <- (assoc_L (++)).
Qed.

Lemma rewrite_response_lines head out : rewrite_response head = Some out ->
  exists status lines, split_crlf head = status :: lines ++ [[]; []] /\ take 7 status = str "HTTP/1." /\
    split_crlf out = status :: filter (fun l => is_connection_line l = false) lines ++ [str "Connection: close"; []; []].
Proof.
  unfold rewrite_response. destruct (valid_utf8 head); [|done]. destruct (strip_suffix head END_OF_HEAD) as [text|] eqn:ES; [|done].
  apply strip_suffix_some in ES as ->. destruct (split_crlf text) as [|status lines] eqn:EL; [done|].
  case_bool_decide as Es; [|done]. destruct (rewrite_lines lines) as [rest|] eqn:ER; [|done]. intros HO. apply (inj Some) in HO as <-.
  assert (Forall no_crlf (status :: lines)) as HF by (rewrite <- EL, Forall_forall; intros x; apply split_crlf_pieces).
  exists status, lines. apply rewrite_lines_spec in ER as [-> _]. apply Forall_cons in HF as [Hs HF]. split_and!; [|done|].
  - assert (text ++ END_OF_HEAD = head_of (status :: lines)) as ->.
    { unfold head_of. rewrite <- EL, (join_crlf _ text (le_n _)). by rewrite <- (assoc_L (++)). }
    by rewrite split_head_of by by constructor.
  - rewrite split_crlf_app by by apply crlf_free_iff. f_equal.
    rewrite split_lines by (eapply sublist_Forall; [apply sublist_filter|done]). done.
Qed.
