(* ===== verification/ShareServer.v ===== *)
(** Model of crates/ket-share/src/server.rs: what the share keeps of its
    connections and devices, how it serves one connection, and how it dials
    the destination through the tunnel ([Egress] of egress.rs). *)

From Stdlib Require Import ZArith Lia.
From stdpp Require Import gmap.
From S2P Require Import Prelude Utf8 Net Tunnel SharePolicy ShareDns ShareLimiter ShareSocks ShareHttp.

Definition MAX_ADDRESSES_TRIED : nat := 2.
Definition MAX_CONNECTIONS : Z := 256.

(** * Dialling *)

(** A connection to a site: what it sends, piece by piece, what it was sent,
    and the number of writes it will take, if not all. *)
Record Site := mkSite { site_chunks : list (list byte); site_sent : list (list byte); site_room : option nat }.

(** The trait [Egress]: name lookup, connection and stand-in range. *)
Class Egress := {
  resolve : list byte -> result EgressError (list IpAddr);
  connect : IpAddr -> Z -> result EgressError Site;
  synthetic_range : option Ipv4Range;
}.

Inductive DialFailure := DialNotAllowed | DialNoTunnel | DialUnresolved | DialTimedOut | DialRefused | DialUnreachable.

(** [From<EgressError>], [socks_reply] and [http_status]. *)
Definition dial_failure (e : EgressError) : DialFailure :=
  match e with
  | NoTunnel => DialNoTunnel | Unresolved => DialUnresolved | TimedOut => DialTimedOut | Refused => DialRefused
  | Unreachable => DialUnreachable
  end.
Definition socks_reply (f : DialFailure) : Reply :=
  match f with
  | DialNotAllowed => ReplyNotAllowed
  | DialNoTunnel => NetworkUnreachable
  | DialUnresolved | DialUnreachable => HostUnreachable
  | DialTimedOut => ReplyTimedOut
  | DialRefused => ReplyConnectionRefused
  end.
Definition http_status (f : DialFailure) : Status :=
  match f with
  | DialNotAllowed => StatusNotAllowed
  | DialNoTunnel => NotConnected
  | DialTimedOut => GatewayTimeout
  | DialUnresolved | DialRefused | DialUnreachable => BadGateway
  end.

Section serving.
Context `{Egress}.

(** The connections of [dial], with the addresses tried. *)
Fixpoint dial_each (addresses : list IpAddr) (port : Z) (failure : DialFailure) : result DialFailure Site * list (IpAddr * Z) :=
  match addresses with
  | [] => (Err failure, [])
  | address :: addresses =>
    match connect address port with
    | Ok site => (Ok site, [(address, port)])
    | Err NoTunnel => (Err DialNoTunnel, [(address, port)])
    | Err error => let '(r, tried) := dial_each addresses port (dial_failure error) in (r, (address, port) :: tried)
    end
  end.

(** [dial]; [cut] is the number of connections begun when time ran out, if it
    did. *)
Definition dial_attempt (target : Target) : result DialFailure Site * list (IpAddr * Z) :=
  let found := match t_host target with
               | HostAddress address => Ok ([address], Requested)
               | HostName name => match resolve name with Ok l => Ok (l, Resolved) | Err e => Err (dial_failure e) end
               end in
  match found with
  | Err failure => (Err failure, [])
  | Ok (addresses, origin) =>
    let permitted := take MAX_ADDRESSES_TRIED (filter (fun a => allowed a origin synthetic_range = true) addresses) in
    if bool_decide (permitted = []) then (Err DialNotAllowed, [])
    else dial_each permitted (t_port target) DialUnreachable
  end.
Definition dial (target : Target) (cut : option nat) : result DialFailure Site * list (IpAddr * Z) :=
  let '(result, tried) := dial_attempt target in
  match cut with
  | None => (result, tried)
  | Some k => (Err DialTimedOut, take k tried)
  end.

(** * One connection *)

(** What serving a connection came to: the bytes sent to the device, a refusal
    if there was one, whether the device signed in, the addresses tried, and
    the site it was joined with. *)
Record Outcome := mkOutcome {
  o_sent : list (list byte); o_refusal : option Refusal; o_signed_in : bool; o_tried : list (IpAddr * Z); o_site : option Site;
}.

(** Time: whether the handshake ran out of it, and the dial. *)
Record Clock := mkClock { handshake_late : bool; dial_cut : option nat; site_late : bool }.

(** [serve_socks], on what the device sent after the version byte. *)
Definition serve_socks (credentials : Credentials) (clock : Clock) (stream : Stream) : Outcome :=
  let '(negotiated, stream) := negotiate credentials stream in
  if handshake_late clock then mkOutcome (outgoing stream) None false [] None
  else match negotiated with
  | Err refusal => mkOutcome (outgoing stream) (Some refusal) false [] None
  | Ok target =>
    let '(dialled, tried) := dial target (dial_cut clock) in
    match dialled with
    | Ok site => mkOutcome (outgoing (reply Succeeded stream).2) None true tried (Some site)
    | Err failure => mkOutcome (outgoing (reply (socks_reply failure) stream).2) None true tried None
    end
  end.

(** [refusal_status] and [answer]. *)
Definition refusal_status (r : Refusal) : Status :=
  match r with
  | BadCredentials | NoCredentials => SignInRequired
  | RefusedTarget LocalName => StatusNotAllowed
  | Unsupported => NotForwarded
  | Malformed | RefusedTarget _ => BadRequest
  end.
Definition answer_status (status : Status) (stream : Stream) : Stream := (write_all (http_response status) stream).2.

(** Writes to a site. *)
Definition site_write (bytes : list byte) (s : Site) : bool * Site :=
  match site_room s with
  | Some O => (false, s)
  | Some (S n) => (true, mkSite (site_chunks s) (site_sent s ++ [bytes]) (Some n))
  | None => (true, mkSite (site_chunks s) (site_sent s ++ [bytes]) None)
  end.

(** The end of [serve_http], with the site connected. *)
Definition serve_site (kind : Kind) (rest : list byte) (late : bool) (tried : list (IpAddr * Z)) (stream : Stream) (site : Site) : Outcome :=
  let gateway (site : Site) (stream : Stream) := mkOutcome (outgoing (answer_status BadGateway stream)) None true tried None in
  match kind with
  | Tunnel =>
    let '(told, stream) := write_all (http_response Established) stream in
    if negb told then mkOutcome (outgoing stream) None true tried None
    else let '(taken, site) := site_write rest site in
      mkOutcome (outgoing stream) None true tried (if taken then Some site else None)
  | Forward head =>
    let '(taken, site) := site_write head site in
    if negb taken then gateway site stream else
    let '(taken, site) := site_write rest site in
    if negb taken then gateway site stream else
    if late then gateway site stream else
    match read_head None (site_chunks site) with
    | Err _ => gateway site stream
    | Ok (response, body) =>
      match rewrite_response response with
      | None => gateway site stream
      | Some response =>
        let '(told, stream) := write_all response stream in
        if negb told then mkOutcome (outgoing stream) None true tried None else
        let '(told, stream) := write_all body stream in
        mkOutcome (outgoing stream) None true tried (if told then Some site else None)
      end
    end
  end.

(** [serve_http], on the first byte and the pieces that follow. *)
Definition serve_http `{Base64Standard} (credentials : Credentials) (clock : Clock) (first : byte) (chunks : list (list byte)) (room : option nat) : Outcome :=
  let stream := mkStream [] [] room in
  if handshake_late clock then mkOutcome [] None false [] None else
  let parsed := let* parts := read_head (Some first) chunks in
                let* request := parse_request parts.1 in
                Ok (request, parts.2) in
  match parsed with
  | Err refusal => mkOutcome (outgoing (answer_status (refusal_status refusal) stream)) (Some refusal) false [] None
  | Ok (request, rest) =>
    match authorize credentials request with
    | Err refusal => mkOutcome (outgoing (answer_status SignInRequired stream)) (Some refusal) false [] None
    | Ok _ =>
      let '(dialled, tried) := dial (q_target request) (dial_cut clock) in
      match dialled with
      | Err failure => mkOutcome (outgoing (answer_status (http_status failure) stream)) None true tried None
      | Ok site => serve_site (q_kind request) rest (site_late clock) tried stream site
      end
    end
  end.

(** [serve]: the first byte tells SOCKS from HTTP.  The device's bytes come in
    pieces of at least one. *)
Definition nothing : Outcome := mkOutcome [] None false [] None.
Definition serve `{Base64Standard} (credentials : Credentials) (clock : Clock) (chunks : list (list byte)) (room : option nat) : Outcome :=
  match chunks with
  | [] | [] :: _ => nothing
  | (first :: chunk) :: chunks =>
    let chunks := match chunk with [] => chunks | _ => chunk :: chunks end in
    if b2z first =? VERSION then serve_socks credentials clock (mkStream (concat chunks) [] room)
    else if is_ascii_uppercase first then serve_http credentials clock first chunks room
    else nothing
  end.

(** ** Where a connection may lead *)

(** An address [dial] may try for a target. *)
Definition dialable (target : Target) (a : IpAddr) : Prop :=
  match t_host target with
  | HostAddress b => a = b /\ allowed a Requested synthetic_range = true
  | HostName name => allowed a Resolved synthetic_range = true /\ exists l, resolve name = Ok l /\ a ∈ l
  end.

Lemma dial_each_tried addresses port failure r tried :
  dial_each addresses port failure = (r, tried) -> tried `prefix_of` map (fun a => (a, port)) addresses.
Proof.
  revert failure r tried; induction addresses as [|a addresses IH]; intros failure r tried; cbn [dial_each map].
  - intros [= _ <-]. done.
  - assert (forall l : list (IpAddr * Z), [(a, port)] `prefix_of` (a, port) :: l) as H1 by (intros l; apply prefix_cons, prefix_nil).
    destruct (connect a port) as [site|[]]; [by intros [= _ <-]..| | | |];
      (destruct (dial_each addresses port _) as [r' t'] eqn:E; intros [= _ <-]; apply prefix_cons; by eapply IH).
Qed.

Lemma dial_attempt_tried target r tried : dial_attempt target = (r, tried) ->
  (length tried <= MAX_ADDRESSES_TRIED)%nat /\ Forall (fun t => t.2 = t_port target /\ dialable target t.1) tried.
Proof.
  unfold dial_attempt, dialable.
  assert (forall addresses origin, dial_each (take MAX_ADDRESSES_TRIED (filter (fun a => allowed a origin synthetic_range = true) addresses))
      (t_port target) DialUnreachable = (r, tried) ->
    (length tried <= MAX_ADDRESSES_TRIED)%nat /\
    Forall (fun t => t.2 = t_port target /\ t.1 ∈ addresses /\ allowed t.1 origin synthetic_range = true) tried) as HD.
  { intros addresses origin HP%dial_each_tried. split.
    - apply prefix_length in HP. rewrite length_map, length_take in HP. lia.
    - rewrite Forall_forall. intros t Ht. destruct HP as [more HP].
      assert (t ∈ map (fun a => (a, t_port target)) (take MAX_ADDRESSES_TRIED (filter (fun a => allowed a origin synthetic_range = true) addresses)))
        as (a & -> & Ha)%elem_of_map by (rewrite HP; apply elem_of_app; by left). cbn [fst snd].
      apply elem_of_take in Ha as (i & Hi%list_elem_of_lookup_2 & _). by apply list_elem_of_filter in Hi as [? ?]. }
  destruct (t_host target) as [name|b].
  - destruct (resolve name) as [l|e]; [|intros [= _ <-]; split; [cbn; lia|constructor]].
    case_bool_decide; [intros [= _ <-]; split; [cbn; lia|constructor]|]. intros [Hl HF]%HD. split; [done|].
    eapply Forall_impl; [exact HF|]. cbn beta. intros t (Hp & Ha & Hq). split_and!; [done..|]. by exists l.
  - case_bool_decide; [intros [= _ <-]; split; [cbn; lia|constructor]|]. intros [Hl HF]%HD. split; [done|].
    eapply Forall_impl; [exact HF|]. cbn beta. intros t (Hp & Ha & Hq). rewrite list_elem_of_singleton in Ha. by split_and!.
Qed.

Lemma dial_tried target cut r tried : dial target cut = (r, tried) ->
  (length tried <= MAX_ADDRESSES_TRIED)%nat /\ Forall (fun t => t.2 = t_port target /\ dialable target t.1) tried.
Proof.
  unfold dial. destruct (dial_attempt target) as [r' t'] eqn:E. apply dial_attempt_tried in E as [Hl HF].
  destruct cut as [k|]; intros [= _ <-]; [|done]. split; [rewrite length_take; lia|by apply Forall_take].
Qed.

(** ** Who is served *)

(** The bytes sign in with [c], as SOCKS or HTTP carry it, for a [target]. *)
Definition signs_in `{Base64Standard} (c : Credentials) (bytes : list byte) (target : Target) : Prop :=
  (exists methods host rest,
     bytes = z2b VERSION :: (greeting methods ++ sign_in (username c) (password c) ++ map z2b [VERSION; CONNECT; 0] ++ host ++ to_be 2 (t_port target)) ++ rest /\
     host_form (t_host target) host) \/
  (exists head rest q,
     bytes = head ++ rest /\ is_head head /\ parse_request head = Ok q /\
     q_authorization q = Some (username c, password c) /\ q_target q = target).

Lemma authorize_ok c q u : authorize c q = Ok u -> q_authorization q = Some (username c, password c).
Proof.
  unfold authorize, credentials_match. destruct (q_authorization q) as [[user pass]|]; [|done]. intros HA. break_in HA. bool_prop. by subst.
Qed.

Lemma serve_site_tried kind rest late tried stream site : o_tried (serve_site kind rest late tried stream site) = tried.
Proof.
  unfold serve_site. destruct kind as [|head].
  - destruct (write_all _ _) as [[] ?]; [|done]. by destruct (site_write rest site) as [[] ?].
  - destruct (site_write head site) as [[] s1]; [|done]. cbn [negb]. destruct (site_write rest s1) as [[] s2]; [|done]. cbn [negb].
    destruct late; [done|]. destruct (read_head None (site_chunks s2)) as [[response body]|]; [|done].
    destruct (rewrite_response response); [|done]. destruct (write_all _ stream) as [[] s3]; [|done]. cbn [negb].
    by destruct (write_all body s3).
Qed.

Lemma serve_tried `{Base64Standard} c clock chunks room :
  let o := serve c clock chunks room in
  o_tried o = [] \/ exists target r, dial target (dial_cut clock) = (r, o_tried o) /\ signs_in c (concat chunks) target.
Proof.
  cbn zeta. unfold serve. destruct chunks as [|[|first chunk] chunks]; [by left..|].
  set (rest := match chunk with [] => chunks | _ => chunk :: chunks end).
  assert (concat ((first :: chunk) :: chunks) = first :: concat rest) as Ec by (subst rest; by destruct chunk).
  rewrite Ec. clearbody rest. destruct (Z.eqb_spec (b2z first) VERSION) as [Ev|_].
  - unfold serve_socks. destruct (negotiate c _) as [[target|refusal] s'] eqn:EN; destruct (handshake_late clock); try by left.
    destruct (dial target (dial_cut clock)) as [r tried] eqn:ED. right. exists target, r. split; [by destruct r|]. left.
    apply negotiate_sound in EN as (methods & host & [Hin _] & _ & _ & Hh & _). cbn [incoming] in Hin.
    exists methods, host, (incoming s'). split; [|done]. by rewrite <- Hin, <- Ev, z2b_b2z.
  - destruct (is_ascii_uppercase first); [|by left]. unfold serve_http. destruct (handshake_late clock); [by left|].
    destruct (read_head (Some first) rest) as [[head body]|] eqn:EH; [|by left]. cbn [fst snd].
    destruct (parse_request head) as [q|] eqn:EP; [|by left]. destruct (authorize c q) as [u|] eqn:EA; [|by left].
    destruct (dial (q_target q) (dial_cut clock)) as [r tried] eqn:ED. right. exists (q_target q), r.
    split; [destruct r; [by rewrite serve_site_tried|done]|]. right. apply read_head_sound in EH as (Hh & more & Em).
    exists head, (body ++ more), q. split_and!; try done. by apply authorize_ok in EA.
Qed.
End serving.

(** * The share's state *)

Record ShareState := mkShare {
  listening : bool; sh_devices : gmap IpAddr Z; connections : Z; refused_sign_ins : Z; limiter : SignInLimiter;
}.
Record ShareStats := mkStats { st_devices : Z; st_connections : Z; st_refused_sign_ins : Z }.

(** The state [start] creates, and [stats]. *)
Definition share_start : ShareState := mkShare true ∅ 0 0 limiter_default.
Definition stats (s : ShareState) : ShareStats := mkStats (Z.of_nat (size (sh_devices s))) (connections s) (refused_sign_ins s).

(** [accept_loop] on an accepted connection: whether it is served. *)
Definition accept_connection (device : IpAddr) (now : Instant) (s : ShareState) : ShareState * bool :=
  let signed_in := bool_decide (is_Some (sh_devices s !! device)) in
  if MAX_CONNECTIONS <=? connections s then (s, false)
  else
    let '(l, away) := turns_away device signed_in now (limiter s) in
    let s := mkShare (listening s) (sh_devices s) (connections s) (refused_sign_ins s) l in
    if away then (s, false)
    else (mkShare (listening s) (sh_devices s) (connections s + 1) (refused_sign_ins s) (limiter s), true).
(** [accept_loop] when it is told to stop. *)
Definition stop_listening (s : ShareState) : ShareState :=
  mkShare false (sh_devices s) (connections s) (refused_sign_ins s) (limiter s).
(** The end of a connection's task. *)
Definition connection_ended (s : ShareState) : ShareState :=
  mkShare (listening s) (sh_devices s) (connections s - 1) (refused_sign_ins s) (limiter s).
(** [SignedIn::new] and its [Drop]. *)
Definition signed_in_new (device : IpAddr) (s : ShareState) : ShareState :=
  mkShare (listening s) (<[device := default 0 (sh_devices s !! device) + 1]> (sh_devices s)) (connections s) (refused_sign_ins s)
    (succeeded device (limiter s)).
Definition signed_in_drop (device : IpAddr) (s : ShareState) : ShareState :=
  let devices := match sh_devices s !! device with
                 | Some count => if count - 1 =? 0 then delete device (sh_devices s) else <[device := count - 1]> (sh_devices s)
                 | None => sh_devices s
                 end in
  mkShare (listening s) devices (connections s) (refused_sign_ins s) (limiter s).
(** [note_refusal]. *)
Definition note_refusal `{HashOrder} (refusal : Refusal) (device : IpAddr) (now : Instant) (s : ShareState) : ShareState :=
  if bool_decide (refusal = BadCredentials)
  then mkShare (listening s) (sh_devices s) (connections s) (refused_sign_ins s + 1) (failed device now (limiter s))
  else s.
(** What [closed] waits for. *)
Definition is_closed (s : ShareState) : bool := negb (listening s) && (connections s =? 0).

(** ** Runs of the share *)

(** A connection being served: its device, and how far it has come. *)
Inductive Stage := Handshaking | SignedInStage | Turned.
Global Instance Stage_eq_dec : EqDecision Stage.
Proof. solve_decision. Defined.
Record Conn := mkConn { c_id : nat; c_device : IpAddr; c_stage : Stage }.

(** The state with the connections open, by the tasks' own accounts. *)
Record World := mkWorld { w_share : ShareState; w_open : list Conn }.
Definition world_start : World := mkWorld share_start [].

Definition signed_count (device : IpAddr) (l : list Conn) : Z :=
  zlen (filter (fun c => c_device c = device /\ c_stage c = SignedInStage) l).

Inductive share_step `{HashOrder} : World -> World -> Prop :=
| step_accept w device now id s' :
    listening (w_share w) = true -> id ∉ map c_id (w_open w) ->
    accept_connection device now (w_share w) = (s', true) ->
    share_step w (mkWorld s' (mkConn id device Handshaking :: w_open w))
| step_turned_away w device now s' :
    listening (w_share w) = true -> accept_connection device now (w_share w) = (s', false) ->
    share_step w (mkWorld s' (w_open w))
| step_stop w : share_step w (mkWorld (stop_listening (w_share w)) (w_open w))
| step_signed_in w id device l k :
    w_open w = l ++ mkConn id device Handshaking :: k ->
    share_step w (mkWorld (signed_in_new device (w_share w)) (l ++ mkConn id device SignedInStage :: k))
| step_refused w id device l k refusal now :
    w_open w = l ++ mkConn id device Handshaking :: k ->
    share_step w (mkWorld (note_refusal refusal device now (w_share w)) (l ++ mkConn id device Turned :: k))
| step_end w id device stage l k :
    w_open w = l ++ mkConn id device stage :: k ->
    share_step w (mkWorld (connection_ended (if bool_decide (stage = SignedInStage) then signed_in_drop device (w_share w) else w_share w)) (l ++ k)).

Definition share_reachable `{HashOrder} (w : World) : Prop := rtc share_step world_start w.

(** What the share counts is what there is. *)
Record share_inv (w : World) : Prop := {
  inv_connections : connections (w_share w) = zlen (w_open w);
  inv_bound : connections (w_share w) <= MAX_CONNECTIONS;
  inv_devices d : sh_devices (w_share w) !! d =
    if signed_count d (w_open w) =? 0 then None else Some (signed_count d (w_open w));
  inv_limiter : limiter_wf (limiter (w_share w));
  inv_refused : 0 <= refused_sign_ins (w_share w);
}.

Lemma signed_count_cons d c l :
  signed_count d (c :: l) = (if bool_decide (c_device c = d /\ c_stage c = SignedInStage) then 1 else 0) + signed_count d l.
Proof.
  unfold signed_count. rewrite filter_cons. case_bool_decide; destruct (decide _); try done; unfold zlen; cbn [length]; lia.
Qed.

Lemma signed_count_app d l k : signed_count d (l ++ k) = signed_count d l + signed_count d k.
Proof. unfold signed_count. by rewrite filter_app, zlen_app. Qed.

Lemma signed_count_nonneg d l : 0 <= signed_count d l.
Proof. apply zlen_nonneg. Qed.

Lemma zlen_cons {A} (x : A) l : zlen (x :: l) = zlen l + 1.
Proof. unfold zlen. cbn [length]. lia. Qed.

Section invariant.
Context `{HashOrderLaws}.

Lemma accept_cases device now s s' b : accept_connection device now s = (s', b) ->
  s' = mkShare (listening s) (sh_devices s) (connections s + if b then 1 else 0) (refused_sign_ins s)
         (if MAX_CONNECTIONS <=? connections s then limiter s else forget_before now (limiter s)) /\
  (b = true -> connections s < MAX_CONNECTIONS).
Proof.
  unfold accept_connection. destruct (Z.leb_spec MAX_CONNECTIONS (connections s)).
  - intros [= <- <-]. rewrite Z.add_0_r. by destruct s.
  - destruct (turns_away _ _ _ _) as [l away] eqn:ET. apply (f_equal fst) in ET. cbn in ET. subst l.
    destruct away; intros [= <- <-]; rewrite ?Z.add_0_r; done.
Qed.

Lemma accept_inv device now w s' b : accept_connection device now (w_share w) = (s', b) -> share_inv w ->
  forall open, zlen open = zlen (w_open w) + (if b then 1 else 0) -> (forall d, signed_count d open = signed_count d (w_open w)) ->
  share_inv (mkWorld s' open).
Proof.
  intros (-> & Hb)%accept_cases [HC HB HD HL HR] open Hopen Hs. split; cbn.
  - by rewrite HC, Hopen.
  - destruct b; [specialize (Hb eq_refl)|]; lia.
  - intros d. by rewrite Hs, HD.
  - destruct (_ <=? _); [done|by apply forget_wf].
  - done.
Qed.

Lemma devices_after (w : World) d device open (devices : gmap IpAddr Z) :
  share_inv w -> (forall e, e <> device -> signed_count e open = signed_count e (w_open w)) ->
  devices !! device = (if signed_count device open =? 0 then None else Some (signed_count device open)) ->
  (forall e, e <> device -> devices !! e = sh_devices (w_share w) !! e) ->
  devices !! d = if signed_count d open =? 0 then None else Some (signed_count d open).
Proof.
  intros [_ _ HD _ _] Hs Hd He. destruct (decide (d = device)) as [->|Hne]; [done|]. rewrite He, Hs, HD by done. done.
Qed.

(** Exchanging one connection of the open ones. *)
Lemma signed_count_middle d c l k : signed_count d (l ++ c :: k) =
  (if bool_decide (c_device c = d /\ c_stage c = SignedInStage) then 1 else 0) + signed_count d (l ++ k).
Proof. rewrite !signed_count_app, signed_count_cons. lia. Qed.

Lemma zlen_middle {A} (x : A) l k : zlen (l ++ x :: k) = zlen (l ++ k) + 1.
Proof. rewrite !zlen_app, zlen_cons. lia. Qed.

Lemma not_signed_count d id device stage l k : stage <> SignedInStage ->
  signed_count d (l ++ mkConn id device stage :: k) = signed_count d (l ++ k).
Proof. intros Hs. rewrite signed_count_middle. rewrite bool_decide_false; [lia|]. cbn. by intros [_ ?]. Qed.

Lemma signed_in_count d id device l k :
  signed_count d (l ++ mkConn id device SignedInStage :: k) = (if bool_decide (d = device) then 1 else 0) + signed_count d (l ++ k).
Proof. rewrite signed_count_middle. cbn. f_equal. repeat case_bool_decide; naive_solver. Qed.

Lemma sign_in_inv w id device l k : share_inv w -> w_open w = l ++ mkConn id device Handshaking :: k ->
  share_inv (mkWorld (signed_in_new device (w_share w)) (l ++ mkConn id device SignedInStage :: k)).
Proof.
  intros HI Ho. pose proof HI as [HC HB HD HL HR]. rewrite Ho in *. split; cbn.
  - rewrite HC, !zlen_middle. done.
  - done.
  - intros d. specialize (HD device) as Hdev. rewrite not_signed_count in Hdev by done. pose proof (signed_count_nonneg device (l ++ k)).
    eapply (devices_after w d device); [done|..].
    + intros e He. by rewrite Ho, signed_in_count, not_signed_count, bool_decide_false.
    + rewrite lookup_insert_eq, Hdev, signed_in_count, bool_decide_true by done.
      rewrite (proj2 (Z.eqb_neq (1 + _) 0)) by lia. destruct (Z.eqb_spec (signed_count device (l ++ k)) 0) as [->|]; cbn; [done|f_equal; lia].
    + intros e He. by apply lookup_insert_ne.
  - exact (step_wf (limiter (w_share w)) (OpSucceeded device 0) HL).
  - done.
Qed.

Lemma refused_inv w id device l k refusal now : share_inv w -> w_open w = l ++ mkConn id device Handshaking :: k ->
  share_inv (mkWorld (note_refusal refusal device now (w_share w)) (l ++ mkConn id device Turned :: k)).
Proof.
  intros [HC HB HD HL HR] Ho. rewrite Ho in *. unfold note_refusal.
  assert (zlen (l ++ mkConn id device Turned :: k) = zlen (l ++ mkConn id device Handshaking :: k)) as Hz by by rewrite !zlen_middle.
  split; cbn; destruct (bool_decide (refusal = BadCredentials)); cbn; rewrite ?Hz; try done; try lia.
  - intros d. rewrite HD, !not_signed_count by done. done.
  - intros d. rewrite HD, !not_signed_count by done. done.
  - exact (step_wf (limiter (w_share w)) (OpFailed device now) HL).
Qed.

Lemma end_inv w id device stage l k : share_inv w -> w_open w = l ++ mkConn id device stage :: k ->
  share_inv (mkWorld (connection_ended (if bool_decide (stage = SignedInStage) then signed_in_drop device (w_share w) else w_share w)) (l ++ k)).
Proof.
  intros HI Ho. pose proof HI as [HC HB HD HL HR]. rewrite Ho in *. rewrite zlen_middle in HC.
  split; cbn; case_bool_decide as Es; cbn; try done; try lia; intros d.
  - subst stage. specialize (HD device) as Hdev. rewrite signed_in_count, bool_decide_true in Hdev by done.
    pose proof (signed_count_nonneg device (l ++ k)). rewrite (proj2 (Z.eqb_neq (1 + _) 0)) in Hdev by lia. rewrite Hdev.
    eapply (devices_after w d device); [done|..].
    + intros e He. by rewrite Ho, signed_in_count, bool_decide_false.
    + replace (1 + signed_count device (l ++ k) - 1) with (signed_count device (l ++ k)) by lia.
      destruct (signed_count device (l ++ k) =? 0); [apply lookup_delete_eq|apply lookup_insert_eq].
    + intros e He. destruct (_ =? 0); [by apply lookup_delete_ne|by apply lookup_insert_ne].
  - rewrite HD. by rewrite not_signed_count.
Qed.

Lemma share_step_inv w w' : share_step w w' -> share_inv w -> share_inv w'.
Proof.
  intros HS HI. destruct HS as [w device now id s' _ _ HA|w device now s' _ HA|w|w id device l k Ho|w id device l k refusal now Ho|w id device stage l k Ho].
  - eapply accept_inv; [done..| |]; [by rewrite zlen_cons|]. intros d. rewrite signed_count_cons, bool_decide_false; [done|]. by intros [_ ?].
  - eapply accept_inv; [done..| |done]. cbn; lia.
  - by destruct HI.
  - by apply sign_in_inv.
  - by apply refused_inv.
  - by eapply end_inv.
Qed.

Lemma share_reachable_inv w : share_reachable w -> share_inv w.
Proof.
  intros HR. unfold share_reachable in HR. assert (share_inv world_start) as Hstart.
  { split; cbn; try done. }
  induction HR as [|x y z HS _ IH]; [done|]. apply IH. by eapply share_step_inv.
Qed.
End invariant.
