(* ===== verification/ShareProps.v ===== *)
(** The properties of connection sharing: what the policy lets through, who is
    served and where a connection may lead, what is passed on, and the bounds
    on guessing. *)

From Stdlib Require Import ZArith Lia.
From stdpp Require Import gmap strings.
From S2P Require Import Prelude Utf8 Str Net Tunnel SharePolicy ShareDns ShareLimiter ShareSocks ShareHttp ShareServer.

(** * The policy *)

(** The policy lets through exactly the public Internet, as intervals of
    addresses - besides stand-in addresses that came from the tunnel's own
    resolver - judging an IPv4-mapped address as the IPv4 address it stands
    for; and nothing public is a loopback, private, link-local, unique-local,
    multicast, broadcast or unspecified address. *)
Theorem share_policy_exact a o s : addr_ok a ->
  (allowed a o s = true <->
   (o = Resolved /\ exists r n, s = Some r /\ as_ipv4 a = Some n /\ range_contains r n = true) \/ public_address a) /\
  (public_address a -> local_class a = false).
Proof. intros Ha. split; [by apply allowed_spec|by apply public_not_local]. Qed.

Lemma share_policy_exact_witness :
  addr_ok (V6 (from_segments [0; 0; 0; 0; 0; 0xffff; 0x7f00; 1])) /\
  allowed (V6 (from_segments [0; 0; 0; 0; 0; 0xffff; 0x7f00; 1])) Requested None = false /\
  ~ public_address (V6 (from_segments [0; 0; 0; 0; 0; 0xffff; 0x7f00; 1])).
Proof.
  split; [split; vm_compute; done|]. split; [vm_compute; done|].
  intros Hp. destruct (share_policy_exact (V6 (from_segments [0; 0; 0; 0; 0; 0xffff; 0x7f00; 1])) Requested None
    ltac:(split; vm_compute; done)) as [HE _]. apply or_intror with (A := Requested = Resolved /\ exists r n, @None Ipv4Range = Some r /\
    as_ipv4 (V6 (from_segments [0; 0; 0; 0; 0; 0xffff; 0x7f00; 1])) = Some n /\ range_contains r n = true) in Hp.
  apply HE in Hp. by vm_compute in Hp.
Defined.

(** A host a device names is kept as it is written back: what was read of
    a name, an address or an address in brackets reads the same from its
    display, and a name that is kept is one DNS can carry. *)
Theorem host_roundtrip text h : host_parse text = Ok h ->
  host_parse (host_display h) = Ok h /\
  match h with
  | HostName name => zlen name <= MAX_NAME_LENGTH /\ name_ok (split_on dot name) Root /\ (1 < length (split_on dot name))%nat
  | HostAddress a => addr_ok a
  end.
Proof.
  intros HP%host_parse_cases. split; [by apply host_display_parse|]. destruct h as [name|a]; [|done].
  pose proof (good_labels name HP). destruct HP as (_ & _ & ? & _ & ? & _). done.
Qed.

Lemma host_roundtrip_witness :
  host_parse (str "WWW.Example.org.") = Ok (HostName (str "www.example.org")) /\
  host_parse (host_display (HostName (str "www.example.org"))) = Ok (HostName (str "www.example.org")).
Proof.
  assert (host_parse (str "WWW.Example.org.") = Ok (HostName (str "www.example.org"))) as E by (vm_compute; reflexivity).
  split; [exact E|]. exact (proj1 (host_roundtrip _ _ E)).
Defined.

(** * Names *)

(** reading past a name in a packet ends, whatever the packet: as many
    steps as it has bytes suffice, more change nothing, and a query's own
    question is passed over whole. *)
Theorem skip_name_terminates packet offset :
  (exists r, skip_name_fuel (S (length packet)) packet offset = Some r /\ skip_name packet offset = r /\
     forall fuel, (length packet < fuel)%nat -> skip_name_fuel fuel packet offset = Some r) /\
  (forall id name, good_name name -> skip_name (query id name) HEADER = Some (length (query id name) - 4)%nat).
Proof.
  split; [|intros id name; apply query_skip].
  destruct (skip_name_fuel_enough (S (length packet)) packet offset) as [r Hr]; [lia|].
  exists r. split_and!; [done|by eapply skip_name_unfuelled|]. intros fuel Hf. eapply skip_name_fuel_mono; [exact Hr|lia].
Qed.

(** a response to the query for a name gives exactly the addresses of its
    IPv4 records, in order, past records of other kinds and compressed names;
    with none of them the name counts as not found. *)
Theorem dns_answer_exact id a b counts rs question rest name :
  in_u16 id -> in_u16 (zlen rs) -> length counts = 4%nat ->
  Z.land (b2z a) 0x80 <> 0 -> Z.land (b2z b) 0x0f = 0 ->
  length question = length (drop HEADER (query id name)) ->
  eq_ignore_ascii_case question (drop HEADER (query id name)) = true -> Forall resource_ok rs ->
  answer id name (response_packet id [a; b] counts rs question rest) =
  match omap rr_address rs with [] => NotFound | l => Addresses l end.
Proof. intros. unfold answer. by rewrite read_answer_response. Qed.

Definition demo_records : list Resource := [
  mkResource [] (Pointer (z2b 0xc0) (z2b 12)) 5 1 (map z2b [0; 0; 0; 60]) (str "alias");
  mkResource [str "edge"] (Pointer (z2b 0xc0) (z2b 16)) 1 1 (map z2b [0; 0; 0; 60]) (map z2b [198; 18; 0; 7])].

Lemma dns_answer_exact_witness :
  answer 7 (str "example.com") (response_packet 7 [z2b 0x81; z2b 0x80] (map z2b [0; 0; 0; 0]) demo_records
    (drop HEADER (query 7 (str "example.com"))) []) = Addresses [ipv4 198 18 0 7].
Proof.
  refine (dns_answer_exact 7 (z2b 0x81) (z2b 0x80) (map z2b [0; 0; 0; 0]) demo_records (drop HEADER (query 7 (str "example.com"))) []
    (str "example.com") _ _ _ _ _ _ _ _); try by vm_compute. all: try (split; vm_compute; done).
  repeat constructor; vm_compute; done.
Defined.

(** * Signing in *)

(** a SOCKS device that offers passwords, signs in with the share's and
    asks for an allowed kind of host is understood exactly: the share reads
    its target and no byte beyond, having answered the two steps of the
    handshake; and nothing else succeeds - whatever is read as a target came
    after the share's own user name and password. *)
Theorem socks_handshake_exact c :
  (forall methods h text port rest out,
     z2b PASSWORD_METHOD ∈ methods -> zlen methods <= 255 -> field_ok (username c) -> field_ok (password c) ->
     requested h text -> 0 < port <= u16_max ->
     negotiate c (mkStream (greeting methods ++ sign_in (username c) (password c) ++ connect_request h text port ++ rest) out None) =
     (Ok (mkTarget h port), mkStream rest (out ++ [map z2b [VERSION; PASSWORD_METHOD]; map z2b [PASSWORD_VERSION; 0]]) None)) /\
  (forall s t s', negotiate c s = (Ok t, s') ->
     exists methods host,
       incoming s = (greeting methods ++ sign_in (username c) (password c) ++ map z2b [VERSION; CONNECT; 0] ++ host ++ to_be 2 (t_port t)) ++ incoming s' /\
       z2b PASSWORD_METHOD ∈ methods /\ host_form (t_host t) host /\ 0 < t_port t <= u16_max).
Proof.
  split; [intros; by apply negotiate_complete|].
  intros s t s' (methods & host & [Hin _] & _ & ? & ? & ?)%negotiate_sound. by exists methods, host.
Qed.

Lemma socks_handshake_exact_witness :
  negotiate demo_credentials (mkStream (demo_bytes (str "abcdefgh2345")) [] None) =
  (Ok (mkTarget (HostName (str "example.com")) 443),
   mkStream (str "payload") ([] ++ [map z2b [VERSION; PASSWORD_METHOD]; map z2b [PASSWORD_VERSION; 0]]) None).
Proof.
  refine (proj1 (socks_handshake_exact demo_credentials) (map z2b [0; 2]) (HostName (str "example.com")) (str "Example.com") 443
    (str "payload") [] _ _ _ _ _ _); [right; left|by vm_compute|by vm_compute|by vm_compute| |by vm_compute].
  split; [by vm_compute|]. split; by vm_compute.
Defined.

(** * HTTP heads *)

(** the head of a request is read the same however the network cuts it
    into pieces: the text up to its first blank line, with the bytes that had
    already come after it. *)
Theorem head_any_pieces first chunks h tail :
  is_head h -> zlen h <= MAX_HEAD -> Forall (fun c => c <> []) chunks ->
  from_option (fun b => [b]) [] first ++ concat chunks = h ++ tail ->
  (exists r, read_head first chunks = Ok (h, r) /\ r `prefix_of` tail) /\
  (forall chunks' h' r', read_head first chunks' = Ok (h', r') -> concat chunks' = concat chunks -> h' = h).
Proof.
  intros Hh Hm HC E. split; [by apply read_head_complete|]. intros chunks' h' r' (Hh' & more & E')%read_head_sound Ec.
  rewrite Ec, E in E'. symmetry. by eapply is_head_unique.
Qed.

Definition demo_head : list byte := head_of (map str ["GET http://example.com/a HTTP/1.1"%string; "Proxy-Authorization: Basic ket:abc"%string]).

Lemma demo_is_head : is_head demo_head.
Proof.
  assert (find demo_head END_OF_HEAD = Some (length demo_head - 4)%nat) as E by (vm_compute; reflexivity).
  apply find_head in E. by vm_compute in E |- *.
Qed.

Lemma head_any_pieces_witness :
  exists r, read_head (Some (z2b 71)) [take 30 (drop 1 demo_head); drop 31 demo_head ++ str "body"] = Ok (demo_head, r) /\ r `prefix_of` str "body".
Proof.
  refine (proj1 (head_any_pieces (Some (z2b 71)) [take 30 (drop 1 demo_head); drop 31 demo_head ++ str "body"] demo_head (str "body")
    demo_is_head _ _ _)); [by vm_compute| |by vm_compute].
  repeat constructor; by vm_compute.
Defined.

(** what a forwarded request sends to the site is the request line and the
    device's own headers, in order, without those of the hop to the share:
    neither the share's password nor a word on keeping the connection reaches
    the site, and the line the share adds closes the connection. *)
Theorem forward_drops_hop_headers `{Base64Standard} head q f :
  parse_request head = Ok q -> q_kind q = Forward f ->
  exists text request_line lines method uri version headers path host_port,
    head = text ++ END_OF_HEAD /\ split_crlf text = request_line :: lines /\ split_on space request_line = [method; uri; version] /\
    collect header lines = Ok headers /\ authority host_port (Some 80) = Ok (q_target q) /\
    split_crlf f = (method ++ [space] ++ path ++ [space] ++ version) ::
      map header_line (forwarded_headers host_port headers) ++ [str "Connection: close"; []; []] /\
    Forall (fun h => is_hop h.1 = false) (forwarded_headers host_port headers) /\
    filter (fun h => is_hop h.1 = false) headers `prefix_of` forwarded_headers host_port headers.
Proof.
  intros HP HK. apply parse_request_parts in HP as (text & request_line & lines & method & uri & version & headers & -> & Hs & Hl & HC & HF).
  rewrite HK in HF. destruct HF as (rest & host_port & path & Hr & Hpath & HA & ->).
  eexists text, request_line, lines, method, uri, version, headers, _, host_port. split_and!; try done.
  - exact (forwarded_lines _ _ _ _ _ _ _ _ _ _ Hs Hl Hr Hpath HC).
  - apply forwarded_not_hop.
  - unfold forwarded_headers. by apply prefix_app_r.
Qed.

Lemma forward_drops_hop_headers_witness :
  exists f, (exists q, @parse_request plain_base64 demo_head = Ok q /\ q_kind q = Forward f) /\
    exists text request_line lines method uri version headers path host_port,
    demo_head = text ++ END_OF_HEAD /\ split_crlf text = request_line :: lines /\ split_on space request_line = [method; uri; version] /\
    collect header lines = Ok headers /\ authority host_port (Some 80) = Ok (mkTarget (HostName (str "example.com")) 80) /\
    split_crlf f = (method ++ [space] ++ path ++ [space] ++ version) ::
      map header_line (forwarded_headers host_port headers) ++ [str "Connection: close"; []; []] /\
    Forall (fun h => is_hop h.1 = false) (forwarded_headers host_port headers) /\
    filter (fun h => is_hop h.1 = false) headers `prefix_of` forwarded_headers host_port headers.
Proof.
  pose (q := mkRequest (mkTarget (HostName (str "example.com")) 80)
    (Forward (head_of (map str ["GET /a HTTP/1.1"%string; "Host: example.com"%string; "Connection: close"%string]))) (Some (str "ket", str "abc"))).
  assert (@parse_request plain_base64 demo_head = Ok q) as E by (vm_compute; reflexivity).
  eexists. split; [exists q; split; [exact E|reflexivity]|].
  exact (@forward_drops_hop_headers plain_base64 demo_head q _ E eq_refl).
Defined.

(** * Who is served, and where to *)

Lemma signs_in_host `{Base64Standard} c bytes t : signs_in c bytes t ->
  match t_host t with HostName name => good_name name | HostAddress a => addr_ok a end.
Proof.
  intros [(methods & host & rest & _ & [(a & -> & Ha & _)|(text & _ & _ & HP & _)])|(head & rest & q & _ & _ & HP & _ & <-)]; [done|by apply host_parse_cases in HP|].
  apply parse_request_parts in HP as (text & request_line & lines & method & uri & version & headers & _ & _ & _ & _ & HK).
  assert (exists text d, authority text d = Ok (q_target q) /\ (forall p, d = Some p -> p <= u16_max) /\ (forall p, d = Some p -> 0 <= p)) as (x & d & HA & Hd & Hd0).
  { destruct (q_kind q); [destruct HK as [_ HA]; by exists uri, None|]. destruct HK as (r & hp & path & _ & _ & HA & _).
    exists hp, (Some 80). split; [done|]. split; intros p [= <-]; done. }
  destruct (authority_ok _ _ _ HA Hd Hd0) as [_ [host Hh]]. by apply host_parse_cases in Hh.
Qed.

Section served.
Context `{Egress} `{Base64Standard}.
(** A resolver gives addresses. *)
Context (resolve_addresses : forall name l, resolve name = Ok l -> Forall addr_ok l).

(** C7: whatever a nearby device sends, the share opens connections only to
    where a target asked for after its own user name and password leads: to an
    address of the public Internet, or to a stand-in address its tunnel's
    resolver gave for the name asked for; with the port asked for, and to two
    addresses at most. *)
Theorem share_serves_public_only c clock chunks room a port :
  (a, port) ∈ o_tried (serve c clock chunks room) ->
  (length (o_tried (serve c clock chunks room)) <= 2)%nat /\
  exists target, signs_in c (concat chunks) target /\ port = t_port target /\
    match t_host target with
    | HostAddress b => a = b /\ public_address a
    | HostName name => exists l, resolve name = Ok l /\ a ∈ l /\
        (public_address a \/ exists r n, synthetic_range = Some r /\ as_ipv4 a = Some n /\ range_contains r n = true)
    end.
Proof.
  intros Hin. destruct (serve_tried c clock chunks room) as [E|(target & r & HD & HS)]; [rewrite E in Hin; by apply not_elem_of_nil in Hin|].
  apply dial_tried in HD as [Hl HF]. split; [done|]. exists target. rewrite Forall_forall in HF. destruct (HF _ Hin) as [Hp Hd].
  split_and!; [done..|]. pose proof (signs_in_host _ _ _ HS) as Hh. unfold dialable in Hd. cbn [fst snd] in *.
  destruct (t_host target) as [name|b].
  - destruct Hd as [Ha (l & Hr & Hal)]. exists l. split_and!; [done..|].
    assert (addr_ok a) as Hok by (eapply Forall_forall in Hal; [|by eapply resolve_addresses]; done).
    apply allowed_spec in Ha as [(_ & HA)|HA]; [by right|by left|done].
  - destruct Hd as [-> Ha]. split; [done|]. apply allowed_spec in Ha as [[? _]|HA]; [done|done|done].
Qed.
End served.

Definition demo_egress : Egress := {|
  resolve := fun _ => Ok [V4 (ipv4 192 168 1 1); V4 (ipv4 198 18 0 7)];
  connect := fun _ _ => Ok (mkSite [] [] None);
  synthetic_range := Some (mkRange (ipv4 198 18 0 0) 15);
|}.

Lemma share_serves_public_only_witness :
  o_tried (@serve demo_egress plain_base64 demo_credentials (mkClock false None false) [z2b 5 :: demo_bytes (str "abcdefgh2345")] None) =
    [(V4 (ipv4 198 18 0 7), 443)] /\
  exists target, @signs_in plain_base64 demo_credentials (concat [z2b 5 :: demo_bytes (str "abcdefgh2345")]) target /\ 443 = t_port target.
Proof.
  assert (o_tried (@serve demo_egress plain_base64 demo_credentials (mkClock false None false) [z2b 5 :: demo_bytes (str "abcdefgh2345")] None) =
    [(V4 (ipv4 198 18 0 7), 443)]) as E by (vm_compute; reflexivity).
  split; [exact E|].
  destruct (@share_serves_public_only demo_egress plain_base64
    ltac:(intros name l [= <-]; repeat constructor; vm_compute; done) demo_credentials (mkClock false None false)
    [z2b 5 :: demo_bytes (str "abcdefgh2345")] None (V4 (ipv4 198 18 0 7)) 443 ltac:(rewrite E; left)) as [_ (t & Ht & Hp & _)].
  exact (ex_intro _ t (conj Ht Hp)).
Defined.

(** * Bounds on guessing *)



(** In every run of the share its counts are true: it has as many
    connections open as it says and never more than 256, it counts a device
    as signed in exactly while one of its connections is, with as many as are,
    and the limiter's memory stays bounded. *)
Theorem share_counts_true `{HashOrderLaws} w : share_reachable w ->
  connections (w_share w) = zlen (w_open w) /\ connections (w_share w) <= MAX_CONNECTIONS /\
  (forall d, sh_devices (w_share w) !! d = if signed_count d (w_open w) =? 0 then None else Some (signed_count d (w_open w))) /\
  Z.of_nat (size (l_devices (limiter (w_share w)))) <= MAX_TRACKED /\ zlen (l_recent (limiter (w_share w))) <= MAX_TOTAL_FAILURES.
Proof. intros [HC HB HD [HL1 [HL2 _]] _]%share_reachable_inv. done. Qed.

Definition demo_world : World :=
  mkWorld (mkShare true {[V4 1 := 1]} 1 0 (mkLimiter ∅ [])) [mkConn 0 (V4 1) SignedInStage].

Lemma demo_world_reachable : share_reachable demo_world.
Proof.
  eapply rtc_l; [by eapply (step_accept world_start (V4 1) 5 0); [done|apply not_elem_of_nil|vm_compute; reflexivity]|].
  eapply rtc_l; [apply (step_signed_in _ 0 (V4 1) [] []); reflexivity|].
  match goal with |- rtc _ ?x _ => replace x with demo_world by (vm_compute; reflexivity) end. apply rtc_refl.
Qed.

Lemma share_counts_true_witness :
  share_reachable demo_world /\ connections (w_share demo_world) = zlen (w_open demo_world).
Proof. split; [exact demo_world_reachable|]. exact (proj1 (share_counts_true demo_world demo_world_reachable)). Defined.
