(* ===== verification/Vendor.v ===== *)
(** Third-party code the sources call, as parameters: Ed25519
    (ed25519-dalek), hashes (sha2, sha3), RFC 4648 text encodings
    (data-encoding, base64), and URL parsing (url).  Each class lists the
    functions the sources use; each [...Laws] class states the documented
    behaviour a theorem may rely on. *)

From Stdlib Require Import ZArith.
From S2P Require Import Prelude Utf8.

(** ed25519-dalek: [VerifyingKey::from_bytes(..).is_ok()], [is_weak],
    [verify_strict(..).is_ok()], and a [SigningKey] given by its seed. *)
Class Ed25519 := {
  vk_from_bytes_ok : list byte -> bool;
  vk_is_weak : list byte -> bool;
  vk_verify_strict : list byte -> list byte -> list byte -> bool;
  sk_verifying_key : list byte -> list byte;
  sk_sign : list byte -> list byte -> list byte;
}.

(** RFC 8032: keys are 32 bytes, signatures 64, and a key verifies what it
    signed. *)
Class Ed25519Laws `{Ed25519} : Prop := {
  sk_key_length seed : length (sk_verifying_key seed) = 32%nat;
  sk_sign_length seed m : length (sk_sign seed m) = 64%nat;
  sk_sign_verifies seed m :
    vk_verify_strict (sk_verifying_key seed) m (sk_sign seed m) = true;
}.

(** [Sha256::digest] and [Sha3_256::digest]: 32 bytes. *)
Class Hashes := {
  sha256 : list byte -> list byte;
  sha3_256 : list byte -> list byte;
}.
Class HashesLaws `{Hashes} : Prop := {
  sha256_length m : length (sha256 m) = 32%nat;
  sha3_256_length m : length (sha3_256 m) = 32%nat;
}.

(** [BASE64URL_NOPAD], [URL_SAFE_NO_PAD] and [BASE32_NOPAD]: unpadded
    RFC 4648 encodings; decoding fails ([None]) on anything malformed. *)
Class Encodings := {
  base64url_encode : list byte -> list byte;
  base64url_decode : list byte -> option (list byte);
  base32_encode : list byte -> list byte;
  base32_decode : list byte -> option (list byte);
}.

(** The Base64URL alphabet, and Base32's upper-case one. *)
Definition is_base64url (b : byte) : bool :=
  is_ascii_alphanumeric b || (b2z b =? 45) || (b2z b =? 95).
Definition is_base32 (b : byte) : bool :=
  is_ascii_uppercase b || ((50 <=? b2z b) && (b2z b <=? 55)).

Class EncodingsLaws `{Encodings} : Prop := {
  base64url_decode_encode l : base64url_decode (base64url_encode l) = Some l;
  base64url_alphabet l : forallb is_base64url (base64url_encode l) = true;
  base64url_length l : zlen (base64url_encode l) = (zlen l * 8 + 5) / 6;
  base32_decode_encode l : base32_decode (base32_encode l) = Some l;
  base32_alphabet l : forallb is_base32 (base32_encode l) = true;
  base32_length l : zlen (base32_encode l) = (zlen l * 8 + 4) / 5;
}.

(** [url::Host]: IPv4 addresses by their four octets, IPv6 by the eight
    segments. *)
Inductive UrlHost :=
| Domain (d : list byte)
| Ipv4 (octets : list Z)
| Ipv6 (segments : list Z).

(** What the sources read from a [url::Url]. *)
Record Url := {
  url_scheme : list byte;
  url_username : list byte;
  url_password : option (list byte);
  url_host : option UrlHost;
  url_port_or_known_default : option Z;
  url_path : list byte;
  url_query : option (list byte);
  url_fragment : option (list byte);
}.

(** [Url::parse(..).ok()]. *)
Class UrlParser := url_parse : list byte -> option Url.

(** [Url::port_or_known_default] is a [u16]. *)
Class UrlParserLaws `{UrlParser} : Prop :=
  url_parse_port s u p :
    url_parse s = Some u -> url_port_or_known_default u = Some p -> in_u16 p.
