(* ===== verification/Instances.v ===== *)
(** Executable instances of the third-party classes of Vendor.v.  Base64URL
    and Base32 are the RFC 4648 encodings computed as numbers; the Ed25519 and
    hash instances are stand-ins that satisfy the stated laws.  The witnesses
    of the development run on these. *)

From Stdlib Require Import ZArith Lia.
From stdpp Require Import strings.
From S2P Require Import Prelude Utf8 Vendor.

(** * Numbers in base [2^k] *)

Fixpoint to_base (base : Z) (n : nat) (v : Z) : list Z :=
  match n with
  | O => []
  | S n => to_base base n (v / base) ++ [v mod base]
  end.
Definition from_base (base : Z) (l : list Z) : Z := fold_left (fun acc d => acc * base + d) l 0.

Lemma length_to_base base n v : length (to_base base n v) = n.
Proof.
  revert v; induction n as [|n IH]; intros v; simpl; [done|]. rewrite length_app, IH. simpl. lia.
Qed.

Lemma to_base_digits base n v : 0 < base -> Forall (fun d => 0 <= d < base) (to_base base n v).
Proof.
  intros Hb. revert v; induction n as [|n IH]; intros v; simpl; [constructor|].
  apply Forall_app. split; [done|]. constructor; [|done]. by apply Z.mod_pos_bound.
Qed.

Lemma from_base_to_base base n v :
  0 < base -> 0 <= v < base ^ Z.of_nat n -> from_base base (to_base base n v) = v.
Proof.
  intros Hb. revert v; induction n as [|n IH]; intros v Hv.
  - change (base ^ Z.of_nat 0) with 1 in Hv. cbn. lia.
  - rewrite Nat2Z.inj_succ, Z.pow_succ_r in Hv by lia. cbn [to_base].
    unfold from_base. rewrite fold_left_app. cbn [fold_left].
    change (fold_left _ ?l 0) with (from_base base l). rewrite IH.
    + pose proof (Z.div_mod v base). lia.
    + split; [apply Z.div_pos; lia | apply Z.div_lt_upper_bound; lia].
Qed.

(** * RFC 4648 without padding *)

Fixpoint index_of (b : byte) (l : list byte) (i : Z) : option Z :=
  match l with
  | [] => None
  | c :: l => if bool_decide (c = b) then Some i else index_of b l (i + 1)
  end.

Fixpoint map_opt {A B} (f : A -> option B) (l : list A) : option (list B) :=
  match l with
  | [] => Some []
  | x :: l => match f x, map_opt f l with Some y, Some ys => Some (y :: ys) | _, _ => None end
  end.

Section rfc4648.
Context (k : Z) (alphabet : list byte).

Definition rfc_encode (l : list byte) : list byte :=
  let d := (zlen l * 8 + (k - 1)) / k in
  let pad := k * d - 8 * zlen l in
  map (fun v => nth (Z.to_nat v) alphabet (z2b 0)) (to_base (2 ^ k) (Z.to_nat d) (from_be l * 2 ^ pad)).

Definition rfc_decode (s : list byte) : option (list byte) :=
  match map_opt (fun b => index_of b alphabet 0) s with
  | None => None
  | Some vs =>
    let bits := k * zlen vs in
    let n := bits / 8 in
    let pad := bits - 8 * n in
    let v := from_base (2 ^ k) vs in
    if (pad <? k) && (v mod 2 ^ pad =? 0) then Some (to_be (Z.to_nat n) (v / 2 ^ pad)) else None
  end.

Context (Hk : 0 < k <= 8)
  (Halpha : forall v, 0 <= v < 2 ^ k -> index_of (nth (Z.to_nat v) alphabet (z2b 0)) alphabet 0 = Some v).

Lemma rfc_sizes (l : list byte) :
  let d := (zlen l * 8 + (k - 1)) / k in
  0 <= d /\ 0 <= k * d - 8 * zlen l < k.
Proof.
  cbn zeta. pose proof (zlen_nonneg l).
  pose proof (Z.div_mod (zlen l * 8 + (k - 1)) k). pose proof (Z.mod_pos_bound (zlen l * 8 + (k - 1)) k).
  split; [apply Z.div_pos; lia|lia].
Qed.

Lemma rfc_length l : zlen (rfc_encode l) = (zlen l * 8 + (k - 1)) / k.
Proof.
  unfold rfc_encode, zlen at 1. rewrite length_map, length_to_base.
  destruct (rfc_sizes l). lia.
Qed.

Lemma map_opt_digits vs :
  Forall (fun d => 0 <= d < 2 ^ k) vs ->
  map_opt (fun b => index_of b alphabet 0) (map (fun v => nth (Z.to_nat v) alphabet (z2b 0)) vs) = Some vs.
Proof.
  induction 1 as [|v vs Hv _ IH]; [done|]. cbn [map map_opt]. by rewrite Halpha, IH.
Qed.

Lemma rfc_decode_encode l : rfc_decode (rfc_encode l) = Some l.
Proof.
  pose proof (rfc_sizes l) as [Hd Hpad]. pose proof (from_be_bound l) as Hb.
  pose proof (zlen_nonneg l) as Hn.
  unfold rfc_decode, rfc_encode. cbn zeta in *.
  set (d := (zlen l * 8 + (k - 1)) / k) in *. set (pad := k * d - 8 * zlen l) in *.
  assert (0 < 2 ^ k) by (apply Z.pow_pos_nonneg; lia).
  assert (0 < 2 ^ pad) as Hp by (apply Z.pow_pos_nonneg; lia).
  rewrite map_opt_digits by by apply to_base_digits.
  assert (forall v, zlen (to_base (2 ^ k) (Z.to_nat d) v) = d) as Hz.
  { intros v. unfold zlen. rewrite length_to_base. lia. }
  rewrite !Hz, from_base_to_base.
  2: done.
  2: { rewrite Z2Nat.id, <- Z.pow_mul_r by lia. replace (k * d) with (8 * zlen l + pad) by lia.
       rewrite Z.pow_add_r by lia. rewrite Z.pow_mul_r by lia. change (2 ^ 8) with 256. nia. }
  assert (k * d / 8 = zlen l) as ->.
  { replace (k * d) with (pad + zlen l * 8) by lia. rewrite Z.div_add by lia.
    rewrite Z.div_small by lia. lia. }
  fold pad. rewrite Z.mod_mul, Z.div_mul by lia.
  rewrite (proj2 (Z.ltb_lt pad k)) by lia. cbn [andb Z.eqb].
  unfold zlen. by rewrite Nat2Z.id, to_be_from_be.
Qed.
End rfc4648.

Definition base64url_alphabet_bytes : list byte :=
  str "ABCDEFGHIJKLMNOPQRSTUVWXYZabcdefghijklmnopqrstuvwxyz0123456789-_".
Definition base32_alphabet_bytes : list byte := str "ABCDEFGHIJKLMNOPQRSTUVWXYZ234567".

Global Instance rfc_encodings : Encodings := {|
  base64url_encode := rfc_encode 6 base64url_alphabet_bytes;
  base64url_decode := rfc_decode 6 base64url_alphabet_bytes;
  base32_encode := rfc_encode 5 base32_alphabet_bytes;
  base32_decode := rfc_decode 5 base32_alphabet_bytes;
|}.

Lemma alphabet_index k alphabet :
  forallb (fun v => bool_decide (index_of (nth (Z.to_nat v) alphabet (z2b 0)) alphabet 0 = Some v))
    (seqZ 0 (2 ^ k)) = true ->
  forall v, 0 <= v < 2 ^ k -> index_of (nth (Z.to_nat v) alphabet (z2b 0)) alphabet 0 = Some v.
Proof.
  rewrite forallb_Forall, Forall_forall. intros HF v Hv.
  specialize (HF v ltac:(apply elem_of_seqZ; lia)). by bool_prop.
Qed.

Lemma encode_alphabet k alphabet p l :
  0 < 2 ^ k -> forallb (fun v => p (nth (Z.to_nat v) alphabet (z2b 0))) (seqZ 0 (2 ^ k)) = true ->
  forallb p (rfc_encode k alphabet l) = true.
Proof.
  rewrite !forallb_Forall, Forall_forall. intros Hk HF. unfold rfc_encode. apply Forall_fmap.
  eapply Forall_impl; [by apply (to_base_digits (2 ^ k))|]. cbn beta. intros v Hv. apply HF, elem_of_seqZ. lia.
Qed.

Global Instance rfc_encodings_laws : EncodingsLaws.
Proof.
  split; intros l.
  - apply rfc_decode_encode; [lia|]. apply alphabet_index. vm_compute. reflexivity.
  - apply encode_alphabet; [lia|]. vm_compute. reflexivity.
  - by apply rfc_length.
  - apply rfc_decode_encode; [lia|]. apply alphabet_index. vm_compute. reflexivity.
  - apply encode_alphabet; [lia|]. vm_compute. reflexivity.
  - by apply rfc_length.
Qed.

(** * Stand-ins for the cryptography *)

Definition pad_to (n : nat) (l : list byte) : list byte := take n (l ++ replicate n (z2b 7)).

Lemma length_pad_to n l : length (pad_to n l) = n.
Proof. unfold pad_to. rewrite length_take, length_app, length_replicate. lia. Qed.

Definition mix (m : list byte) : Z := fold_left (fun acc b => (acc * 257 + b2z b + 1) mod 2 ^ 128) m 0.

Global Instance demo_hashes : Hashes := {|
  sha256 m := to_be 32 (mix m);
  sha3_256 m := to_be 32 (mix (z2b 3 :: m));
|}.
Global Instance demo_hashes_laws : HashesLaws.
Proof. split; intros m; apply length_to_be. Qed.

Global Instance demo_ed25519 : Ed25519 := {|
  vk_from_bytes_ok k := (length k =? 32)%nat;
  vk_is_weak k := bool_decide (k = replicate 32 (z2b 1));
  vk_verify_strict k m s := bool_decide (s = pad_to 64 (to_be 16 (mix (k ++ m))));
  sk_verifying_key seed := pad_to 32 seed;
  sk_sign seed m := pad_to 64 (to_be 16 (mix (pad_to 32 seed ++ m)));
|}.
Global Instance demo_ed25519_laws : Ed25519Laws.
Proof.
  split; intros; cbn [sk_verifying_key sk_sign vk_verify_strict demo_ed25519].
  - apply length_pad_to.
  - apply length_pad_to.
  - by apply bool_decide_eq_true_2.
Qed.

(** A parser for [scheme://host] URLs, enough to run the locator policy. *)
Definition find_at (pat s : list byte) : option (list byte * list byte) :=
  (fix go (n : nat) (pre s : list byte) :=
     if bool_decide (take (length pat) s = pat) then Some (rev pre, drop (length pat) s)
     else match n, s with
          | S n, b :: s => go n (b :: pre) s
          | _, _ => None
          end) (length s) [] s.

Global Instance demo_url : UrlParser := fun s =>
  match find_at (str "://") s with
  | Some (scheme, host) =>
    let port := if bool_decide (scheme = str "https") then Some 443
                else if bool_decide (scheme = str "http") then Some 80 else None in
    let h := if bool_decide (host = str "127.0.0.1") then Ipv4 [127; 0; 0; 1]
             else if bool_decide (host = str "8.8.8.8") then Ipv4 [8; 8; 8; 8] else Domain host in
    Some {| url_scheme := scheme; url_username := []; url_password := None; url_host := Some h;
            url_port_or_known_default := port; url_path := str "/"; url_query := None;
            url_fragment := None |}
  | None => None
  end.
Global Instance demo_url_laws : UrlParserLaws.
Proof.
  intros s u p Hu Hp. unfold url_parse, demo_url in Hu.
  destruct (find_at _ s) as [[scheme host]|]; [|done]. injection Hu as <-. cbn [url_port_or_known_default] in Hp.
  repeat case_bool_decide; simplify_eq; done.
Qed.

(** * Values as bytes *)

(** Bits of a positive number, one per byte. *)
Fixpoint pos_bytes (p : positive) : list byte :=
  match p with xH => [] | xO p => Byte.x00 :: pos_bytes p | xI p => Byte.x01 :: pos_bytes p end.
Fixpoint bytes_pos (l : list byte) : positive :=
  match l with [] => xH | Byte.x00 :: l => xO (bytes_pos l) | _ :: l => xI (bytes_pos l) end.

Lemma bytes_pos_bytes p : bytes_pos (pos_bytes p) = p.
Proof. induction p as [p IH|p IH|]; cbn; congruence. Qed.
