(* ===== verification/Cbor.v ===== *)
(** Model of crates/invite-capsule/src/cbor.rs and error.rs: the minimal
    deterministic CBOR that invites are written in.  Encoders append to a
    byte vector; their model is the bytes they append.  The decoder is the
    record of its input and offset, threaded through each read. *)

From Stdlib Require Import ZArith Lia.
From stdpp Require Import strings.
From S2P Require Import Prelude Utf8.

(** [CapsuleError] of error.rs. *)
Inductive CapsuleError :=
| Invalid
| TooLarge
| UnsupportedVersion
| WrongApplication
| UnsupportedCapability
| InvalidSignature
| Expired
| UnsupportedLocator
| UnsafeLocator
| InvalidNodeKey
| NodeIdentityMismatch
| InvalidChecksum.

Global Instance CapsuleError_eq_dec : EqDecision CapsuleError.
Proof. solve_decision. Defined.

(** [CapsuleError::code]: the stable code of each rejection. *)
Definition code (e : CapsuleError) : list byte :=
  match e with
  | Invalid => str "invalid_invite"
  | TooLarge => str "invite_too_large"
  | UnsupportedVersion => str "unsupported_invite_version"
  | WrongApplication => str "wrong_application"
  | UnsupportedCapability => str "unsupported_capability"
  | InvalidSignature => str "invalid_invite_signature"
  | Expired => str "invite_expired"
  | UnsupportedLocator => str "unsupported_locator"
  | UnsafeLocator => str "unsafe_locator"
  | InvalidNodeKey => str "invalid_node_key"
  | NodeIdentityMismatch => str "node_identity_mismatch"
  | InvalidChecksum => str "invalid_invite_checksum"
  end.

Definition MAJOR_UINT : Z := 0.
Definition MAJOR_BYTES : Z := 2.
Definition MAJOR_TEXT : Z := 3.
Definition MAJOR_ARRAY : Z := 4.
Definition NULL : byte := z2b 0xf6.

(** * Decoder *)

Record Decoder := mkDecoder { input : list byte; offset : nat }.

Abbreviation dec_result A := (result CapsuleError (A * Decoder)).

Definition new (bytes : list byte) : Decoder := mkDecoder bytes 0.

(** [Decoder::finish]. *)
Definition finish (d : Decoder) : result CapsuleError unit :=
  require bool_decide (offset d = length (input d)) else Invalid in Ok tt.

(** [Decoder::take]: slices are bounds-checked after the size policy. *)
Definition take_bytes (d : Decoder) (len max : Z) : dec_result (list byte) :=
  require len <=? max else TooLarge in
  require (Z.of_nat (offset d) + len <=? usize_max) &&
          (Z.of_nat (offset d) + len <=? zlen (input d)) else Invalid in
  let e := (offset d + Z.to_nat len)%nat in
  Ok (take (e - offset d) (drop (offset d) (input d)), mkDecoder (input d) e).

(** [Decoder::byte]. *)
Definition next_byte (d : Decoder) : dec_result byte :=
  let* b := ok_or (input d !! offset d) Invalid in
  Ok (b, mkDecoder (input d) (S (offset d))).

(** [Decoder::fixed::<N>]. *)
Definition fixed (n : Z) (d : Decoder) : dec_result (list byte) := take_bytes d n n.

(** [Decoder::argument]: any form longer than the shortest one is refused. *)
Definition argument (d : Decoder) (additional : Z) : dec_result Z :=
  let shortest (value minimum : Z) (d : Decoder) : dec_result Z :=
    require minimum <=? value else Invalid in Ok (value, d) in
  if additional <=? 23 then Ok (additional, d)
  else if additional =? 24 then
    let* (b, d) := next_byte d in shortest (b2z b) 24 d
  else if additional =? 25 then
    let* (l, d) := fixed 2 d in shortest (from_be l) 0x100 d
  else if additional =? 26 then
    let* (l, d) := fixed 4 d in shortest (from_be l) 0x10000 d
  else if additional =? 27 then
    let* (l, d) := fixed 8 d in shortest (from_be l) 0x100000000 d
  else Err Invalid.

(** The head shared by [Decoder::uint] and [Decoder::length]. *)
Definition head (d : Decoder) (major : Z) : dec_result Z :=
  let* (b, d) := next_byte d in
  require Z.shiftr (b2z b) 5 =? major else Invalid in
  argument d (Z.land (b2z b) 0x1f).

(** [Decoder::uint]. *)
Definition uint (d : Decoder) : dec_result Z := head d MAJOR_UINT.

(** [Decoder::length]. *)
Definition length_of (d : Decoder) (major : Z) : dec_result Z :=
  let* (v, d) := head d major in
  require v <=? usize_max else TooLarge in Ok (v, d).

(** [Decoder::array_len] and [Decoder::array]. *)
Definition array_len (d : Decoder) : dec_result Z := length_of d MAJOR_ARRAY.

Definition array (d : Decoder) (expected : Z) : dec_result unit :=
  let* (n, d) := array_len d in
  require n =? expected else Invalid in Ok (tt, d).

(** [Decoder::optional_uint]. *)
Definition optional_uint (d : Decoder) : dec_result (option Z) :=
  if bool_decide (input d !! offset d = Some NULL)
  then Ok (None, mkDecoder (input d) (S (offset d)))
  else let* (v, d) := uint d in Ok (Some v, d).

(** [Decoder::bytes]. *)
Definition bytes (d : Decoder) (max : Z) : dec_result (list byte) :=
  let* (n, d) := length_of d MAJOR_BYTES in
  take_bytes d n max.

(** [Decoder::text]. *)
Definition text (d : Decoder) (max : Z) : dec_result (list byte) :=
  let* (n, d) := length_of d MAJOR_TEXT in
  let* (s, d) := take_bytes d n max in
  require valid_utf8 s else Invalid in Ok (s, d).

(** * Encoders *)

(** [encode_head]. *)
Definition encode_head (major value : Z) : list byte :=
  let prefix := Z.shiftl major 5 mod 256 in
  if value <=? 23 then [z2b (Z.lor prefix value)]
  else if value <=? 0xff then [z2b (Z.lor prefix 24); z2b value]
  else if value <=? 0xffff then z2b (Z.lor prefix 25) :: to_be 2 value
  else if value <=? 0xffffffff then z2b (Z.lor prefix 26) :: to_be 4 value
  else z2b (Z.lor prefix 27) :: to_be 8 value.

Definition encode_array (n : Z) : list byte := encode_head MAJOR_ARRAY n.
Definition encode_uint (v : Z) : list byte := encode_head MAJOR_UINT v.

Definition encode_optional_uint (v : option Z) : list byte :=
  match v with
  | Some v => encode_uint v
  | None => [NULL]
  end.

Definition encode_bytes (l : list byte) : list byte :=
  encode_head MAJOR_BYTES (zlen l) ++ l.

Definition encode_text (l : list byte) : list byte :=
  encode_head MAJOR_TEXT (zlen l) ++ l.

(** * Correctness *)

(** A decoder that has consumed [pre] and has [r] left. *)
Definition at_ (pre r : list byte) : Decoder := mkDecoder (pre ++ r) (length pre).

Lemma new_at s : new s = at_ [] s.
Proof. done. Qed.

Lemma finish_at pre r : finish (at_ pre r) = if decide (r = []) then Ok tt else Err Invalid.
Proof.
  unfold finish, at_; simpl. rewrite length_app.
  destruct r; case_bool_decide; case_decide; simpl in *; done || lia.
Qed.

Section steps.
(** Inputs are vectors, so their length is within [usize]. *)
Implicit Types (pre r s : list byte).

Lemma next_byte_at pre b r :
  next_byte (at_ pre (b :: r)) = Ok (b, at_ (pre ++ [b]) r).
Proof.
  unfold next_byte, at_; simpl.
  rewrite lookup_app_r, Nat.sub_diag by lia. simpl.
  rewrite <- (assoc_L (++)), length_app. simpl. by rewrite Nat.add_1_r.
Qed.

Lemma next_byte_inv pre s b d :
  next_byte (at_ pre s) = Ok (b, d) ->
  exists r, s = b :: r /\ d = at_ (pre ++ [b]) r.
Proof.
  destruct s as [|c s].
  - unfold next_byte, at_; simpl. rewrite app_nil_r, lookup_ge_None_2; done.
  - rewrite next_byte_at. intros [= -> <-]. eauto.
Qed.

Lemma take_at pre l r max :
  zlen (pre ++ l ++ r) <= usize_max -> zlen l <= max ->
  take_bytes (at_ pre (l ++ r)) (zlen l) max = Ok (l, at_ (pre ++ l) r).
Proof.
  intros Hsz Hmax. unfold take_bytes, at_; simpl.
  rewrite !zlen_app in *. pose proof (zlen_nonneg r).
  rewrite (proj2 (Z.leb_le (zlen l) max)) by lia.
  fold (zlen pre).
  rewrite (proj2 (Z.leb_le _ usize_max)), (proj2 (Z.leb_le _ (_ + (_ + _)))) by lia.
  simpl. unfold zlen at 1. rewrite Nat2Z.id, drop_app_length.
  replace (length pre + length l - length pre)%nat with (length l) by lia.
  unfold zlen. rewrite take_app_length, Nat2Z.id, (assoc_L (++)), length_app. done.
Qed.

Lemma take_inv pre s n max l d :
  0 <= n -> take_bytes (at_ pre s) n max = Ok (l, d) ->
  n <= max /\ exists r, s = l ++ r /\ zlen l = n /\ d = at_ (pre ++ l) r.
Proof.
  intros Hn H. unfold take_bytes, at_ in H; simpl in H. break_in H. bool_prop.
  split; [done|]. injection H as <- <-. rewrite zlen_app in *.
  rewrite drop_app_length.
  replace (length pre + Z.to_nat n - length pre)%nat with (Z.to_nat n) by lia.
  exists (drop (Z.to_nat n) s). rewrite take_drop. split; [done|].
  fold (zlen pre) in *.
  assert (length (take (Z.to_nat n) s) = Z.to_nat n) as Hl.
  { rewrite length_take. unfold zlen in *. lia. }
  split; [unfold zlen; lia|].
  unfold at_. rewrite <- (assoc_L (++)), take_drop, length_app, Hl. done.
Qed.
End steps.

(** * Head bytes *)

Lemma head_byte_split m low :
  0 <= m < 8 -> 0 <= low < 32 ->
  let b := b2z (z2b (Z.lor (Z.shiftl m 5 mod 256) low)) in
  Z.shiftr b 5 = m /\ Z.land b 0x1f = low.
Proof.
  intros Hm Hl. cbn zeta.
  rewrite Z.shiftl_mul_pow2 by lia. change (2 ^ 5) with 32.
  rewrite (Z.mod_small (m * 32)) by lia.
  assert (Z.lor (m * 32) low = m * 32 + low) as ->.
  { change 32 with (2 ^ 5). rewrite <- Z.shiftl_mul_pow2 by lia.
    symmetry. rewrite <- Z.lxor_lor, <- Z.add_nocarry_lxor; [done| |];
      apply Z.bits_inj'; intros i Hi; rewrite Z.land_spec, Z.bits_0, Z.shiftl_spec by lia;
      (destruct (Z.ltb_spec i 5);
        [rewrite (Z.testbit_neg_r m) by lia; done
        |rewrite (Z.bits_above_log2 low i), andb_false_r; [done|lia|];
         destruct (Z.eq_dec low 0) as [->|]; [simpl; lia|];
         apply Z.log2_lt_pow2; [lia|]; apply Z.lt_le_trans with (2^5); [lia|];
         apply Z.pow_le_mono_r; lia]). }
  rewrite b2z_z2b_small by lia. split.
  - rewrite Z.shiftr_div_pow2 by lia. change (2 ^ 5) with 32.
    rewrite Z.div_add_l, Z.div_small by lia. lia.
  - change 0x1f with (Z.ones 5). rewrite Z.land_ones by lia. change (2 ^ 5) with 32.
    rewrite Z.add_comm, Z_mod_plus_full. by apply Z.mod_small.
Qed.

Lemma head_byte_join b :
  let v := b2z b in
  b = z2b (Z.lor (Z.shiftl (Z.shiftr v 5) 5 mod 256) (Z.land v 0x1f)).
Proof. destruct b; reflexivity. Qed.

Lemma fixed_at n pre v r :
  zlen (pre ++ to_be n v ++ r) <= usize_max ->
  fixed (Z.of_nat n) (at_ pre (to_be n v ++ r)) = Ok (to_be n v, at_ (pre ++ to_be n v) r).
Proof.
  intros Hsz. unfold fixed.
  assert (Z.of_nat n = zlen (to_be n v)) as -> by (unfold zlen; by rewrite length_to_be).
  by apply take_at.
Qed.

Lemma fixed_inv n pre s l d :
  fixed (Z.of_nat n) (at_ pre s) = Ok (l, d) ->
  exists r, s = l ++ r /\ length l = n /\ d = at_ (pre ++ l) r.
Proof.
  intros H. apply take_inv in H as (_ & r & -> & Hl & ->); [|lia].
  exists r. unfold zlen in Hl. split_and!; [done|lia|done].
Qed.

Section heads.
Context (major : Z) (Hmajor : 0 <= major < 8).

(** The five shapes of a head, by the size of its argument. *)
Lemma encode_head_cases value :
  0 <= value <= u64_max ->
  (0 <= value <= 23 /\ encode_head major value = [z2b (Z.lor (Z.shiftl major 5 mod 256) value)]) \/
  (exists low n lo hi, 0 < Z.of_nat n /\ lo <= value <= hi /\ 256 ^ Z.of_nat n = Z.succ hi /\
     (low, n, lo) ∈ [(24, 1%nat, 24); (25, 2%nat, 0x100); (26, 4%nat, 0x10000); (27, 8%nat, 0x100000000)] /\
     encode_head major value = z2b (Z.lor (Z.shiftl major 5 mod 256) low) :: to_be n value).
Proof.
  intros Hv. unfold encode_head.
  destruct (Z.leb_spec value 23); [left; split; [lia|done]|right].
  destruct (Z.leb_spec value 0xff); [exists 24, 1%nat, 24, 0xff|].
  2: destruct (Z.leb_spec value 0xffff); [exists 25, 2%nat, 0x100, 0xffff|].
  3: destruct (Z.leb_spec value 0xffffffff); [exists 26, 4%nat, 0x10000, 0xffffffff|
       exists 27, 8%nat, 0x100000000, u64_max].
  all: split_and!; try done; try lia; set_solver.
Qed.

(** Reading the argument that follows each multi-byte head. *)
Lemma argument_be low n lo pre v r :
  (low, n, lo) ∈ [(24, 1%nat, 24); (25, 2%nat, 0x100); (26, 4%nat, 0x10000); (27, 8%nat, 0x100000000)] ->
  lo <= v < 256 ^ Z.of_nat n -> zlen (pre ++ to_be n v ++ r) <= usize_max ->
  argument (at_ pre (to_be n v ++ r)) low = Ok (v, at_ (pre ++ to_be n v) r).
Proof.
  intros Hin Hv Hsz.
  assert (from_be (to_be n v) = v) as Hbe by (apply from_be_to_be; set_unfold; naive_solver lia).
  pose proof (fixed_at n pre v r Hsz) as Hfix.
  unfold argument. set_unfold. destruct_or! Hin; simplify_eq; cbn -[to_be fixed next_byte at_ Z.pow].
  1: change (to_be 1 v ++ r) with (z2b v :: r); rewrite next_byte_at, b2z_z2b_small by lia.
  2-4: (replace (Z.of_nat _) with 2 in Hfix by done) || (replace (Z.of_nat _) with 4 in Hfix by done) || (replace (Z.of_nat _) with 8 in Hfix by done); rewrite Hfix, Hbe.
  all: by rewrite (proj2 (Z.leb_le _ _)) by lia.
Qed.

Lemma head_at pre value r :
  0 <= value <= u64_max ->
  zlen (pre ++ encode_head major value ++ r) <= usize_max ->
  head (at_ pre (encode_head major value ++ r)) major
    = Ok (value, at_ (pre ++ encode_head major value) r).
Proof.
  intros Hv Hsz. unfold head.
  destruct (encode_head_cases value Hv) as [[Hs ->]|(low & n & lo & hi & Hn & Hr & Hp & Hin & E)].
  - simpl. rewrite next_byte_at.
    destruct (head_byte_split major value Hmajor ltac:(lia)) as [-> ->].
    rewrite Z.eqb_refl. unfold argument. by rewrite (proj2 (Z.leb_le _ _)) by lia.
  - rewrite E in *. simpl in *. rewrite next_byte_at.
    destruct (head_byte_split major low Hmajor) as [-> ->]; [set_unfold; naive_solver lia|].
    rewrite Z.eqb_refl, (argument_be low n lo); [by rewrite <- (assoc_L (++))|done|lia|].
    rewrite !zlen_app in *. unfold zlen in *. simpl in *. rewrite ?length_app in *. lia.
Qed.

(** The argument is in the shortest form its value has. *)
Lemma argument_inv pre s low v d :
  0 <= low < 32 -> argument (at_ pre s) low = Ok (v, d) ->
  0 <= v <= u64_max /\
  exists tl r, s = tl ++ r /\ d = at_ (pre ++ tl) r /\
    encode_head major v = z2b (Z.lor (Z.shiftl major 5 mod 256) low) :: tl.
Proof.
  intros Hlow H. unfold argument in H.
  destruct (Z.leb_spec low 23).
  { injection H as <- <-. split; [unfold u64_max; lia|]. exists [], s.
    rewrite app_nil_r. unfold encode_head. by rewrite (proj2 (Z.leb_le _ _)) by lia. }
  destruct (Z.eqb_spec low 24) as [->|];
    [|destruct (Z.eqb_spec low 25) as [->|];
      [|destruct (Z.eqb_spec low 26) as [->|];
        [|destruct (Z.eqb_spec low 27) as [->|]; [|done]]]];
    break_in H; injection H as <- <-; bool_prop.
  - apply next_byte_inv in E as (r & -> & ->). pose proof (b2z_bound b).
    split; [unfold u64_max; lia|]. exists [b], r. split_and!; [done..|].
    unfold encode_head. rewrite (proj2 (Z.leb_gt _ 23)), (proj2 (Z.leb_le _ 0xff)) by lia.
    by rewrite z2b_b2z.
  - apply (fixed_inv 2) in E as (r & -> & Hl & ->). pose proof (from_be_bound l) as Hb.
    unfold zlen in Hb. rewrite Hl in Hb. simpl in Hb.
    split; [unfold u64_max; lia|]. exists l, r. split_and!; [done..|].
    unfold encode_head. rewrite (proj2 (Z.leb_gt _ 23)), (proj2 (Z.leb_gt _ 0xff)), (proj2 (Z.leb_le _ 0xffff)) by lia.
    by rewrite <- Hl, to_be_from_be.
  - apply (fixed_inv 4) in E as (r & -> & Hl & ->). pose proof (from_be_bound l) as Hb.
    unfold zlen in Hb. rewrite Hl in Hb. simpl in Hb.
    split; [unfold u64_max; lia|]. exists l, r. split_and!; [done..|].
    unfold encode_head. rewrite (proj2 (Z.leb_gt _ 23)), (proj2 (Z.leb_gt _ 0xff)), (proj2 (Z.leb_gt _ 0xffff)), (proj2 (Z.leb_le _ 0xffffffff)) by lia.
    by rewrite <- Hl, to_be_from_be.
  - apply (fixed_inv 8) in E as (r & -> & Hl & ->). pose proof (from_be_bound l) as Hb.
    unfold zlen in Hb. rewrite Hl in Hb. simpl in Hb.
    split; [unfold u64_max; lia|]. exists l, r. split_and!; [done..|].
    unfold encode_head. rewrite (proj2 (Z.leb_gt _ 23)), (proj2 (Z.leb_gt _ 0xff)), (proj2 (Z.leb_gt _ 0xffff)), (proj2 (Z.leb_gt _ 0xffffffff)) by lia.
    by rewrite <- Hl, to_be_from_be.
Qed.

Lemma head_inv pre s v d :
  head (at_ pre s) major = Ok (v, d) ->
  0 <= v <= u64_max /\
  exists r, s = encode_head major v ++ r /\ d = at_ (pre ++ encode_head major v) r.
Proof.
  unfold head. intros H. break_in H. bool_prop.
  apply next_byte_inv in E as (s1 & -> & ->).
  pose proof (head_byte_join b) as Hb. cbn zeta in Hb. rewrite E1 in Hb.
  assert (0 <= Z.land (b2z b) 0x1f < 32).
  { change 0x1f with (Z.ones 5). rewrite Z.land_ones by lia. apply Z.mod_pos_bound. lia. }
  apply argument_inv in H as (Hv & tl & r & -> & -> & Henc); [|done].
  split; [done|]. exists r. rewrite Henc, <- Hb, <- (assoc_L (++)). done.
Qed.
End heads.

(** * Canonical codecs *)

(** What a reader promises about its writer: every accepted value is read
    back from its encoding, leaving what follows untouched ([complete]), and
    whatever is accepted was exactly the encoding of an accepted value
    ([sound]), so each value has a single encoding. *)
Class Codec {A} (ok : A -> Prop) (enc : A -> list byte) (dec : Decoder -> dec_result A) : Prop := {
  codec_complete pre a r :
    ok a -> zlen (pre ++ enc a ++ r) <= usize_max ->
    dec (at_ pre (enc a ++ r)) = Ok (a, at_ (pre ++ enc a) r);
  codec_sound pre s a d :
    dec (at_ pre s) = Ok (a, d) ->
    ok a /\ exists r, s = enc a ++ r /\ d = at_ (pre ++ enc a) r;
}.

Lemma codec_unique {A} {ok : A -> Prop} {enc dec} `{!Codec ok enc dec} pre s s' a d d' :
  dec (at_ pre s) = Ok (a, d) -> dec (at_ pre s') = Ok (a, d') ->
  enc a `prefix_of` s /\ enc a `prefix_of` s'.
Proof.
  intros (_ & r & -> & _)%codec_sound (_ & r' & -> & _)%codec_sound.
  split; by apply prefix_app_r.
Qed.

Global Instance uint_codec : Codec in_u64 encode_uint uint.
Proof.
  split.
  - intros pre a r Ha Hsz. by apply head_at.
  - intros pre s a d (? & r & -> & ->)%head_inv. eauto.
Qed.

Lemma length_of_at major pre v r :
  0 <= major < 8 -> in_u64 v -> zlen (pre ++ encode_head major v ++ r) <= usize_max ->
  length_of (at_ pre (encode_head major v ++ r)) major = Ok (v, at_ (pre ++ encode_head major v) r).
Proof.
  intros Hm Hv Hsz. unfold length_of. rewrite head_at by done.
  by rewrite (proj2 (Z.leb_le _ _)) by (unfold in_u64, usize_max in *; lia).
Qed.

Lemma length_of_inv major pre s v d :
  length_of (at_ pre s) major = Ok (v, d) ->
  in_u64 v /\ exists r, s = encode_head major v ++ r /\ d = at_ (pre ++ encode_head major v) r.
Proof.
  intros H. unfold length_of in H. break_in H. injection H as <- <-.
  apply head_inv in E as (? & r & -> & ->). unfold in_u64. eauto.
Qed.

Global Instance array_len_codec : Codec in_u64 encode_array array_len.
Proof.
  split.
  - intros pre a r Ha Hsz. by apply length_of_at.
  - intros pre s a d H. by apply length_of_inv in H.
Qed.

Lemma array_at pre n r :
  in_u64 n -> zlen (pre ++ encode_array n ++ r) <= usize_max ->
  array (at_ pre (encode_array n ++ r)) n = Ok (tt, at_ (pre ++ encode_array n) r).
Proof. intros. unfold array. rewrite codec_complete by done. by rewrite Z.eqb_refl. Qed.

Lemma array_inv pre s n u d :
  array (at_ pre s) n = Ok (u, d) ->
  exists r, s = encode_array n ++ r /\ d = at_ (pre ++ encode_array n) r.
Proof.
  unfold array. intros H. break_in H. injection H as <- <-. bool_prop; subst.
  by apply codec_sound in E as [_ ?].
Qed.

(** A head that counts the bytes after it. *)
Lemma sized_at major pre l r max :
  0 <= major < 8 -> zlen l <= max ->
  zlen (pre ++ (encode_head major (zlen l) ++ l) ++ r) <= usize_max ->
  length_of (at_ pre ((encode_head major (zlen l) ++ l) ++ r)) major
    = Ok (zlen l, at_ (pre ++ encode_head major (zlen l)) (l ++ r)) /\
  take_bytes (at_ (pre ++ encode_head major (zlen l)) (l ++ r)) (zlen l) max
    = Ok (l, at_ (pre ++ encode_head major (zlen l) ++ l) r).
Proof.
  intros Hm Hmax Hsz. rewrite <- !(assoc_L (++)) in *.
  assert (in_u64 (zlen l)).
  { rewrite !zlen_app in Hsz. unfold in_u64, usize_max in *.
    pose proof (zlen_nonneg pre). pose proof (zlen_nonneg r). pose proof (zlen_nonneg l).
    pose proof (zlen_nonneg (encode_head major (zlen l))). lia. }
  split.
  - by rewrite length_of_at.
  - rewrite take_at; [by rewrite <- (assoc_L (++))| |done]. by rewrite <- (assoc_L (++)).
Qed.

Global Instance bytes_codec max : Codec (fun l => zlen l <= max) encode_bytes (fun d => bytes d max).
Proof.
  split.
  - intros pre l r Hmax Hsz. unfold bytes, encode_bytes in *.
    destruct (sized_at MAJOR_BYTES pre l r max) as [-> ->]; done.
  - intros pre s l d H. unfold bytes, encode_bytes in *. break_in H.
    apply length_of_inv in E as (Hz & r & -> & ->).
    apply take_inv in H as (? & r' & -> & <- & ->); [|unfold in_u64 in *; lia].
    split; [done|]. exists r'. by rewrite !(assoc_L (++)).
Qed.

Global Instance text_codec max :
  Codec (fun l => zlen l <= max /\ valid_utf8 l = true) encode_text (fun d => text d max).
Proof.
  split.
  - intros pre l r [Hmax Hu] Hsz. unfold text, encode_text in *.
    destruct (sized_at MAJOR_TEXT pre l r max) as [-> ->]; try done. by rewrite Hu.
  - intros pre s l d H. unfold text, encode_text in *.
    destruct (length_of _ _) as [[n d1]|] eqn:E; [|done].
    destruct (take_bytes _ _ _) as [[l1 d2]|] eqn:E2; [|done].
    break_in H. injection H as <- <-.
    apply length_of_inv in E as (Hz & r & -> & ->).
    apply take_inv in E2 as (? & r' & -> & <- & ->); [|unfold in_u64 in *; lia].
    split; [done|]. exists r'. by rewrite !(assoc_L (++)).
Qed.

Lemma encode_uint_head_not_null v r pre :
  in_u64 v -> at_ pre (encode_uint v ++ r) = mkDecoder (pre ++ encode_uint v ++ r) (length pre) /\
  (pre ++ encode_uint v ++ r) !! length pre <> Some NULL.
Proof.
  intros Hv. split; [done|]. rewrite lookup_app_r, Nat.sub_diag by lia.
  destruct (encode_head_cases MAJOR_UINT ltac:(done) v Hv) as [[Hs E]|(low & n & lo & hi & _ & _ & _ & Hin & E)];
    unfold encode_uint; rewrite E; simpl; intros [= Hb]; apply (f_equal b2z) in Hb;
    rewrite b2z_z2b in Hb; change (Z.shiftl MAJOR_UINT 5 mod 256) with 0 in Hb;
    rewrite Z.lor_0_l in Hb; change (b2z NULL) with 246 in Hb.
  - rewrite Z.mod_small in Hb by lia. lia.
  - set_unfold. destruct_or! Hin; simplify_eq; done.
Qed.

Global Instance optional_uint_codec :
  Codec (fun o => match o with Some v => in_u64 v | None => True end) encode_optional_uint optional_uint.
Proof.
  split.
  - intros pre [v|] r Hv Hsz; simpl in *; unfold optional_uint.
    + destruct (encode_uint_head_not_null v r pre Hv) as [_ Hn].
      rewrite bool_decide_eq_false_2 by done. by rewrite codec_complete.
    + rewrite bool_decide_eq_true_2.
      * unfold at_; simpl. by rewrite <- (assoc_L (++)), length_app, Nat.add_1_r.
      * unfold at_; simpl. by rewrite lookup_app_r, Nat.sub_diag by lia.
  - intros pre s o d H. unfold optional_uint in H. case_bool_decide as Hb.
    + injection H as <- <-. split; [done|]. unfold at_ in *; simpl in *.
      rewrite lookup_app_r, Nat.sub_diag in Hb by lia. destruct s as [|b s]; [done|].
      injection Hb as ->. exists s. by rewrite <- (assoc_L (++)), length_app, Nat.add_1_r.
    + break_in H. injection H as <- <-. by apply codec_sound in E.
Qed.

(** The readers at a known position, as rewrite rules. *)
Section rules.
Implicit Types (pre r l : list byte).

Lemma uint_at pre v r :
  in_u64 v -> zlen (pre ++ encode_uint v ++ r) <= usize_max ->
  uint (at_ pre (encode_uint v ++ r)) = Ok (v, at_ (pre ++ encode_uint v) r).
Proof. apply codec_complete. Qed.

Lemma array_len_at pre v r :
  in_u64 v -> zlen (pre ++ encode_array v ++ r) <= usize_max ->
  array_len (at_ pre (encode_array v ++ r)) = Ok (v, at_ (pre ++ encode_array v) r).
Proof. apply codec_complete. Qed.

Lemma bytes_at max pre l r :
  zlen l <= max -> zlen (pre ++ encode_bytes l ++ r) <= usize_max ->
  bytes (at_ pre (encode_bytes l ++ r)) max = Ok (l, at_ (pre ++ encode_bytes l) r).
Proof. exact (@codec_complete _ _ _ _ (bytes_codec max) pre l r). Qed.

Lemma text_at max pre l r :
  zlen l <= max /\ valid_utf8 l = true -> zlen (pre ++ encode_text l ++ r) <= usize_max ->
  text (at_ pre (encode_text l ++ r)) max = Ok (l, at_ (pre ++ encode_text l) r).
Proof. exact (@codec_complete _ _ _ _ (text_codec max) pre l r). Qed.

Lemma optional_uint_at pre o r :
  match o with Some v => in_u64 v | None => True end ->
  zlen (pre ++ encode_optional_uint o ++ r) <= usize_max ->
  optional_uint (at_ pre (encode_optional_uint o ++ r)) = Ok (o, at_ (pre ++ encode_optional_uint o) r).
Proof. exact (@codec_complete _ _ _ _ optional_uint_codec pre o r). Qed.

Lemma uint_inv pre s v d :
  uint (at_ pre s) = Ok (v, d) ->
  in_u64 v /\ exists r, s = encode_uint v ++ r /\ d = at_ (pre ++ encode_uint v) r.
Proof. apply codec_sound. Qed.

Lemma array_len_inv pre s v d :
  array_len (at_ pre s) = Ok (v, d) ->
  in_u64 v /\ exists r, s = encode_array v ++ r /\ d = at_ (pre ++ encode_array v) r.
Proof. apply codec_sound. Qed.

Lemma bytes_inv max pre s l d :
  bytes (at_ pre s) max = Ok (l, d) ->
  zlen l <= max /\ exists r, s = encode_bytes l ++ r /\ d = at_ (pre ++ encode_bytes l) r.
Proof. exact (@codec_sound _ _ _ _ (bytes_codec max) pre s l d). Qed.

Lemma text_inv max pre s l d :
  text (at_ pre s) max = Ok (l, d) ->
  (zlen l <= max /\ valid_utf8 l = true) /\
  exists r, s = encode_text l ++ r /\ d = at_ (pre ++ encode_text l) r.
Proof. exact (@codec_sound _ _ _ _ (text_codec max) pre s l d). Qed.

Lemma optional_uint_inv pre s o d :
  optional_uint (at_ pre s) = Ok (o, d) ->
  match o with Some v => in_u64 v | None => True end /\
  exists r, s = encode_optional_uint o ++ r /\ d = at_ (pre ++ encode_optional_uint o) r.
Proof. exact (@codec_sound _ _ _ _ optional_uint_codec pre s o d). Qed.
End rules.

(** Discharges the size side condition of a reader: the list is the whole
    input, regrouped. *)
Ltac cbor_size := rewrite ?zlen_app in *; rewrite ?(zlen_nil byte) in *; lia.

(** Splits a successful sequence of reads: the first read that is not yet
    destructed is named and its failing branch closed. *)
Ltac read_step H :=
  match type of H with
  | (match ?x with Ok _ => _ | Err _ => _ end) = Ok _ =>
      let E := fresh "R" in
      lazymatch type of x with
      | result _ (_ * _) => destruct x as [[? ?]|] eqn:E
      | _ => destruct x eqn:E
      end; [|discriminate H]
  | (if ?c then _ else _) = Ok _ =>
      let E := fresh "C" in destruct c eqn:E; try discriminate H
  end.

Ltac unit_vars := repeat match goal with x : unit |- _ => destruct x end.

(** A vector no longer than an invite is far below [usize::MAX]. *)
Lemma small_size n : n <= 4096 -> n <= usize_max.
Proof. unfold usize_max, u64_max. lia. Qed.

Arguments encode_head : simpl never.
Arguments encode_uint : simpl never.
Arguments encode_array : simpl never.
Arguments encode_bytes : simpl never.
Arguments encode_text : simpl never.
Arguments encode_optional_uint : simpl never.
Arguments array : simpl never.
Arguments uint : simpl never.
Arguments bytes : simpl never.
Arguments text : simpl never.
Arguments optional_uint : simpl never.
Arguments at_ : simpl never.

(** Inverts every successful read at a known position; clients extend
    [cbor_inv_hook] with the readers they define. *)
Ltac cbor_inv_hook := fail.
Ltac cbor_inv :=
  repeat match goal with
  | H : array (at_ _ _) _ = Ok _ |- _ => apply array_inv in H as (? & -> & ->)
  | H : uint (at_ _ _) = Ok _ |- _ => apply uint_inv in H as (? & ? & -> & ->)
  | H : array_len (at_ _ _) = Ok _ |- _ => apply array_len_inv in H as (? & ? & -> & ->)
  | H : bytes (at_ _ _) _ = Ok _ |- _ => apply bytes_inv in H as (? & ? & -> & ->)
  | H : text (at_ _ _) _ = Ok _ |- _ => apply text_inv in H as (? & ? & -> & ->)
  | H : optional_uint (at_ _ _) = Ok _ |- _ => apply optional_uint_inv in H as (? & ? & -> & ->)
  | _ => cbor_inv_hook
  end.
