(* ===== verification/Locator.v ===== *)
(** Model of crates/invite-capsule/src/locator (mod.rs, host.rs, private.rs):
    where a client reaches a node, which hosts are acceptable, and the CBOR
    form of a locator. *)

From Stdlib Require Import ZArith Lia.
From stdpp Require Import strings.
From S2P Require Import Prelude Utf8 Str Vendor Cbor.

Definition MAX_LOCATORS : Z := 4.
Definition LOCATOR_FIELDS : Z := 3.
Definition TAG_HTTPS : Z := 1.
Definition TAG_LOOPBACK_DEVELOPMENT : Z := 2.
Definition TAG_ONION_V3 : Z := 3.
Definition TAG_I2P_B32 : Z := 4.
Definition MAX_HOST_BYTES : Z := 253.
Definition MAX_PUBLIC_URL_BYTES : Z := 512.

(** [LoopbackHost]. *)
Inductive LoopbackHost := Localhost | LoopIpv4 | LoopIpv6 | AndroidEmulator.

Global Instance LoopbackHost_eq_dec : EqDecision LoopbackHost.
Proof. solve_decision. Defined.

(** [LoopbackHost::as_str], [tag] and [from_tag]. *)
Definition loopback_as_str (h : LoopbackHost) : list byte :=
  match h with
  | Localhost => str "localhost"
  | LoopIpv4 => str "127.0.0.1"
  | LoopIpv6 => str "::1"
  | AndroidEmulator => str "10.0.2.2"
  end.

Definition loopback_tag (h : LoopbackHost) : Z :=
  match h with Localhost => 1 | LoopIpv4 => 2 | LoopIpv6 => 3 | AndroidEmulator => 4 end.

Definition loopback_from_tag (t : Z) : result CapsuleError LoopbackHost :=
  if t =? 1 then Ok Localhost
  else if t =? 2 then Ok LoopIpv4
  else if t =? 3 then Ok LoopIpv6
  else if t =? 4 then Ok AndroidEmulator
  else Err UnsafeLocator.

Lemma loopback_from_tag_tag h : loopback_from_tag (loopback_tag h) = Ok h.
Proof. by destruct h. Qed.

Lemma loopback_from_tag_inv t h : loopback_from_tag t = Ok h -> t = loopback_tag h.
Proof.
  unfold loopback_from_tag. intros H. repeat (case_match; bool_prop; simplify_eq; try done).
Qed.

(** [Locator]; the 32-byte arrays are byte lists, their length part of
    [locator_sized] below. *)
Inductive Locator :=
| Https (host : list byte) (port : Z)
| LoopbackDevelopment (host : LoopbackHost) (port : Z)
| OnionV3 (service_identity : list byte) (port : Z)
| I2pB32 (destination_hash : list byte) (port : Z).

Global Instance Locator_eq_dec : EqDecision Locator.
Proof. solve_decision. Defined.

(** [LocatorKinds]. *)
Record LocatorKinds := {
  https : bool;
  loopback_development : bool;
  onion_v3 : bool;
  i2p_b32 : bool;
}.

Definition CLEARNET : LocatorKinds :=
  {| https := true; loopback_development := true; onion_v3 := false; i2p_b32 := false |}.
Definition ALL : LocatorKinds :=
  {| https := true; loopback_development := true; onion_v3 := true; i2p_b32 := true |}.

(** * Host policy (host.rs) *)

Definition NON_PUBLIC_SUFFIXES : list (list byte) :=
  [str "local"; str "localhost"; str "internal"; str "onion"; str "i2p";
   str "home.arpa"; str "test"; str "example"; str "invalid"].

Definition label_byte (b : byte) : bool :=
  is_ascii_lowercase b || is_ascii_digit b || bool_decide (b = hyphen).

Definition valid_label (label : list byte) : bool :=
  (1 <=? zlen label) && (zlen label <=? 63) &&
  negb (starts_with hyphen label) && negb (ends_with_byte hyphen label) &&
  forallb label_byte label.

(** [valid_public_dns_name]. *)
Definition valid_public_dns_name (host : list byte) : bool :=
  if bool_decide (host = []) || (MAX_HOST_BYTES <? zlen host) then false
  else
    let labels := split_on dot host in
    let valid_labels :=
      (2 <=? zlen labels) && forallb valid_label labels &&
      match last labels with Some l => existsb is_ascii_lowercase l | None => false end in
    valid_labels &&
    negb (existsb (fun suffix => bool_decide (host = suffix) || ends_with host (dot :: suffix))
            NON_PUBLIC_SUFFIXES).

(** [Ipv4Addr::is_loopback] and [Ipv6Addr::is_loopback]. *)
Definition ipv4_is_loopback (octets : list Z) : bool :=
  match octets with o :: _ => o =? 127 | [] => false end.
Definition ipv6_is_loopback (segments : list Z) : bool :=
  bool_decide (segments = [0; 0; 0; 0; 0; 0; 0; 1]).

(** [loopback]. *)
Definition loopback (host : UrlHost) : result CapsuleError LoopbackHost :=
  match host with
  | Domain d => if bool_decide (d = str "localhost") then Ok Localhost else Err UnsafeLocator
  | Ipv4 a =>
    if ipv4_is_loopback a then Ok LoopIpv4
    else if bool_decide (a = [10; 0; 2; 2]) then Ok AndroidEmulator
    else Err UnsafeLocator
  | Ipv6 a => if ipv6_is_loopback a then Ok LoopIpv6 else Err UnsafeLocator
  end.

(** [require_plain_http]. *)
Definition require_plain_http (scheme : list byte) : result CapsuleError unit :=
  if bool_decide (scheme = str "http") then Ok tt else Err UnsupportedLocator.

Section locator.
Context `{Ed25519, Hashes, Encodings, UrlParser}.

(** * Onion and I2P addresses (private.rs) *)

(** [valid_onion_key]. *)
Definition valid_onion_key (key : list byte) : bool :=
  vk_from_bytes_ok key && negb (vk_is_weak key).

(** [onion_checksum]: the first two bytes of the SHA3-256 digest. *)
Definition onion_checksum (key : list byte) : list byte :=
  take 2 (sha3_256 (str ".onion checksum" ++ key ++ [z2b 3])).

(** [onion_host]. *)
Definition onion_host (key : list byte) : list byte :=
  map to_ascii_lowercase (base32_encode (key ++ onion_checksum key ++ [z2b 3])) ++ str ".onion".

(** [decode_base32::<N>]. *)
Definition decode_base32 (n : Z) (text : list byte) : result CapsuleError (list byte) :=
  if negb (zlen text =? (n * 8 + 4) / 5) ||
     negb (forallb (fun c => is_ascii_lowercase c || ((50 <=? b2z c) && (b2z c <=? 55))) text)
  then Err UnsafeLocator
  else
    let* bytes := ok_or (base32_decode (map to_ascii_uppercase text)) UnsafeLocator in
    require bool_decide (map to_ascii_lowercase (base32_encode bytes) = text) else UnsafeLocator in
    require zlen bytes =? n else UnsafeLocator in
    Ok bytes.

(** [parse_onion_host]. *)
Definition parse_onion_host (host : list byte) : result CapsuleError (list byte) :=
  let* label := ok_or (strip_suffix host (str ".onion")) UnsafeLocator in
  let* bytes := decode_base32 35 label in
  let key := take 32 bytes in
  if negb (bool_decide (bytes !! 34%nat = Some (z2b 3))) ||
     negb (bool_decide (take 2 (drop 32 bytes) = onion_checksum key))
  then Err UnsafeLocator
  else require valid_onion_key key else UnsafeLocator in Ok key.

(** [i2p_host] and [parse_i2p_host]. *)
Definition i2p_host (hash : list byte) : list byte :=
  map to_ascii_lowercase (base32_encode hash) ++ str ".b32.i2p".

Definition zero32 : list byte := replicate 32 (z2b 0).

Definition parse_i2p_host (host : list byte) : result CapsuleError (list byte) :=
  let* label := ok_or (strip_suffix host (str ".b32.i2p")) UnsafeLocator in
  let* hash := decode_base32 32 label in
  require negb (bool_decide (hash = zero32)) else UnsafeLocator in
  Ok hash.

(** * Locators (mod.rs) *)

(** [Locator::validate]. *)
Definition validate (l : Locator) : result CapsuleError unit :=
  let valid :=
    match l with
    | Https host port => negb (port =? 0) && valid_public_dns_name host
    | LoopbackDevelopment _ port => negb (port =? 0)
    | OnionV3 service_identity port => negb (port =? 0) && valid_onion_key service_identity
    | I2pB32 destination_hash port => negb (port =? 0) && negb (bool_decide (destination_hash = zero32))
    end in
  require valid else UnsafeLocator in Ok tt.

(** [locator_from_public_url]. *)
Definition locator_from_public_url (value : list byte) : result CapsuleError Locator :=
  if bool_decide (value = []) || (MAX_PUBLIC_URL_BYTES <? zlen value) ||
     negb (forallb is_ascii value) ||
     existsb (fun b => (b2z b =? 0) || is_ascii_whitespace b) value
  then Err UnsafeLocator
  else
    let* url := ok_or (url_parse value) UnsafeLocator in
    if negb (bool_decide (url_username url = [])) ||
       bool_decide (is_Some (url_password url)) ||
       bool_decide (is_Some (url_query url)) ||
       bool_decide (is_Some (url_fragment url)) ||
       negb (bool_decide (url_path url = []) || bool_decide (url_path url = str "/"))
    then Err UnsafeLocator
    else
      let* host := ok_or (url_host url) UnsafeLocator in
      let* port := ok_or (url_port_or_known_default url) UnsafeLocator in
      let scheme := url_scheme url in
      let is_https := bool_decide (scheme = str "https") in
      let is_http := bool_decide (scheme = str "http") in
      let fallback :=
        if is_http then let* h := loopback host in Ok (LoopbackDevelopment h port)
        else if is_https then Err UnsafeLocator
        else Err UnsupportedLocator in
      let* locator :=
        match host with
        | Domain domain =>
          if ends_with domain (str ".onion") then
            let* _ := require_plain_http scheme in
            let* key := parse_onion_host domain in Ok (OnionV3 key port)
          else if ends_with domain (str ".i2p") then
            let* _ := require_plain_http scheme in
            let* hash := parse_i2p_host domain in Ok (I2pB32 hash port)
          else if is_https then Ok (Https domain port)
          else fallback
        | _ => fallback
        end in
      let* _ := validate locator in
      Ok locator.

(** [Locator::https]. *)
Definition https_locator (host : list byte) (port : Z) : result CapsuleError Locator :=
  let* _ := validate (Https host port) in Ok (Https host port).

Definition show_port (n : Z) : list byte := dec_digits 5 n [].

(** [authority]. *)
Definition authority (host : list byte) (port default_port : Z) : list byte :=
  let host := if bool_decide (colon ∈ host) then str "[" ++ host ++ str "]" else host in
  if port =? default_port then host else host ++ [colon] ++ show_port port.

(** [Locator::display_host]. *)
Definition display_host (l : Locator) : list byte :=
  match l with
  | Https host port => authority host port 443
  | LoopbackDevelopment host port => authority (loopback_as_str host) port 80
  | OnionV3 service_identity port => authority (onion_host service_identity) port 80
  | I2pB32 destination_hash port => authority (i2p_host destination_hash) port 80
  end.

(** [Locator::scheme], [origin], [base_url] and [websocket_origin]. *)
Definition scheme_of (l : Locator) (tls plain : list byte) : list byte :=
  match l with Https _ _ => tls | _ => plain end.
Definition origin (l : Locator) : list byte :=
  scheme_of l (str "https") (str "http") ++ str "://" ++ display_host l.
Definition base_url (l : Locator) : list byte := origin l ++ str "/".
Definition websocket_origin (l : Locator) : list byte :=
  scheme_of l (str "wss") (str "ws") ++ str "://" ++ display_host l.

(** [Locator::is_development]. *)
Definition is_development (l : Locator) : bool :=
  match l with LoopbackDevelopment _ _ => true | _ => false end.

(** [Locator::tag]. *)
Definition tag (l : Locator) : Z :=
  match l with
  | Https _ _ => TAG_HTTPS
  | LoopbackDevelopment _ _ => TAG_LOOPBACK_DEVELOPMENT
  | OnionV3 _ _ => TAG_ONION_V3
  | I2pB32 _ _ => TAG_I2P_B32
  end.

(** [LocatorKinds::accepts_tag] and [accepts]. *)
Definition accepts_tag (k : LocatorKinds) (t : Z) : bool :=
  if t =? TAG_HTTPS then https k
  else if t =? TAG_LOOPBACK_DEVELOPMENT then loopback_development k
  else if t =? TAG_ONION_V3 then onion_v3 k
  else if t =? TAG_I2P_B32 then i2p_b32 k
  else false.
Definition accepts (k : LocatorKinds) (l : Locator) : bool := accepts_tag k (tag l).

(** [Locator::encode]. *)
Definition encode (l : Locator) : list byte :=
  encode_array LOCATOR_FIELDS ++ encode_uint (tag l) ++
  match l with
  | Https host port => encode_text host ++ encode_uint port
  | LoopbackDevelopment host port => encode_uint (loopback_tag host) ++ encode_uint port
  | OnionV3 service_identity port => encode_bytes service_identity ++ encode_uint port
  | I2pB32 destination_hash port => encode_bytes destination_hash ++ encode_uint port
  end.

(** [decode_port] and [exact_32]. *)
Definition decode_port (d : Decoder) : dec_result Z :=
  let* (v, d) := uint d in
  require v <=? u16_max else UnsafeLocator in Ok (v, d).

Definition exact_32 (d : Decoder) : dec_result (list byte) :=
  let* (l, d) := bytes d 32 in
  require zlen l =? 32 else Invalid in Ok (l, d).

(** [Locator::decode]. *)
Definition decode (accepted : LocatorKinds) (d : Decoder) : dec_result Locator :=
  let* (_, d) := array d LOCATOR_FIELDS in
  let* (t, d) := uint d in
  require accepts_tag accepted t else UnsupportedLocator in
  let* (locator, d) :=
    (if t =? TAG_HTTPS then
       let* (host, d) := text d MAX_HOST_BYTES in
       let* (port, d) := decode_port d in Ok (Https host port, d)
     else if t =? TAG_LOOPBACK_DEVELOPMENT then
       let* (h, d) := uint d in
       let* host := loopback_from_tag h in
       let* (port, d) := decode_port d in Ok (LoopbackDevelopment host port, d)
     else if t =? TAG_ONION_V3 then
       let* (key, d) := exact_32 d in
       let* (port, d) := decode_port d in Ok (OnionV3 key port, d)
     else if t =? TAG_I2P_B32 then
       let* (hash, d) := exact_32 d in
       let* (port, d) := decode_port d in Ok (I2pB32 hash port, d)
     else Err UnsupportedLocator) in
  let* _ := validate locator in
  Ok (locator, d).

(** [validate_locator_set]: [seen] is the hash set of the loop. *)
Fixpoint validate_each (accepted : LocatorKinds) (seen ls : list Locator) : result CapsuleError unit :=
  match ls with
  | [] => Ok tt
  | l :: ls =>
    require accepts accepted l else UnsupportedLocator in
    let* _ := validate l in
    require negb (bool_decide (l ∈ seen)) else Invalid in
    validate_each accepted (l :: seen) ls
  end.

Definition validate_locator_set (ls : list Locator) (accepted : LocatorKinds) : result CapsuleError unit :=
  if bool_decide (ls = []) || (MAX_LOCATORS <? zlen ls) then Err Invalid
  else validate_each accepted [] ls.
End locator.

(** * The locator codec *)

Lemma in_u16_u64 p : in_u16 p -> in_u64 p.
Proof. unfold in_u16, in_u64, u16_max, u64_max. lia. Qed.
#[export] Hint Resolve in_u16_u64 : ket.

Global Instance decode_port_codec : Codec in_u16 encode_uint decode_port.
Proof.
  split.
  - intros pre p r Hp Hsz. unfold decode_port. rewrite uint_at by eauto with ket.
    unfold in_u16 in Hp. by rewrite (proj2 (Z.leb_le _ _)) by lia.
  - intros pre s p d H. unfold decode_port in H. repeat read_step H. injection H as <- <-.
    apply uint_inv in R as [[? _] ?]. bool_prop. by split.
Qed.

Global Instance exact_32_codec : Codec (fun l => length l = 32%nat) encode_bytes exact_32.
Proof.
  split.
  - intros pre l r Hl Hsz. unfold exact_32.
    assert (zlen l = 32) as Hz by (unfold zlen; lia).
    rewrite bytes_at by (done || lia). by rewrite Hz.
  - intros pre s l d H. unfold exact_32 in H. repeat read_step H. injection H as <- <-.
    apply bytes_inv in R as [? ?]. bool_prop. split; [|done]. unfold zlen in *. lia.
Qed.

Lemma split_on_bytes sep s b :
  b ∈ s -> b = sep \/ exists l, l ∈ split_on sep s /\ b ∈ l.
Proof.
  induction s as [|c s IH]; intros Hb; [set_solver|]. simpl.
  case_bool_decide as Hc.
  - apply elem_of_cons in Hb as [->|Hb]; [by left|].
    destruct (IH Hb) as [?|(l & ? & ?)]; [by left|]. right. exists l. set_solver.
  - destruct (split_on sep s) as [|l ls] eqn:E.
    + apply elem_of_cons in Hb as [->|Hb]; [right; exists [c]; set_solver|].
      destruct (IH Hb) as [?|(l & ? & ?)]; [by left|set_solver].
    + apply elem_of_cons in Hb as [->|Hb]; [right; exists (c :: l); set_solver|].
      destruct (IH Hb) as [?|(k & Hk & ?)]; [by left|].
      apply elem_of_cons in Hk as [->|Hk]; right; [exists (c :: l)|exists k]; set_solver.
Qed.

Lemma label_byte_ascii b : label_byte b = true -> is_ascii b = true.
Proof.
  unfold label_byte, is_ascii_lowercase, is_ascii_digit, is_ascii. intros H.
  repeat (apply orb_true_iff in H as [H|H]); bool_prop; subst; apply Z.ltb_lt; [lia..|done].
Qed.

Lemma valid_dns_inv host :
  valid_public_dns_name host = true ->
  host <> [] /\ zlen host <= MAX_HOST_BYTES /\ 2 <= zlen (split_on dot host) /\
  Forall (fun l => valid_label l = true) (split_on dot host) /\
  (exists l, last (split_on dot host) = Some l /\ existsb is_ascii_lowercase l = true) /\
  Forall (fun sfx => host <> sfx /\ ends_with host (dot :: sfx) = false) NON_PUBLIC_SUFFIXES.
Proof.
  unfold valid_public_dns_name. intros H.
  destruct (_ || _) eqn:E; [done|]. bool_prop. split_and!; try done.
  - by apply forallb_Forall.
  - destruct (last _) as [l|] eqn:El; [|done]. eauto.
  - match goal with Hx : existsb _ _ = false |- _ => apply existsb_false in Hx; eapply Forall_impl; [exact Hx|] end.
    cbn beta. intros sfx Hs. by bool_prop.
Qed.

Lemma valid_dns_utf8 host : valid_public_dns_name host = true -> valid_utf8 host = true.
Proof.
  intros (_ & _ & _ & Hl & _)%valid_dns_inv. apply valid_utf8_ascii, forallb_forall.
  intros b Hb%list_elem_of_In. destruct (split_on_bytes dot host b Hb) as [->|(l & Hin & Hbl)]; [done|].
  rewrite Forall_forall in Hl. specialize (Hl l Hin). unfold valid_label in Hl. bool_prop.
  apply label_byte_ascii. match goal with Hx : forallb _ _ = true |- _ =>
    rewrite forallb_forall in Hx; apply Hx end. by apply list_elem_of_In.
Qed.

Ltac cbor_inv_hook ::=
  match goal with
  | H : decode_port (at_ _ _) = Ok _ |- _ =>
      apply (codec_sound (dec:=decode_port)) in H as (? & ? & -> & ->)
  | H : exact_32 (at_ _ _) = Ok _ |- _ =>
      apply (codec_sound (dec:=exact_32)) in H as (? & ? & -> & ->)
  end.

Section codec.
Context `{Ed25519, Hashes, Encodings, UrlParser}.

(** What the Rust types guarantee: ports are [u16], keys and hashes arrays of
    32 bytes. *)
Definition locator_sized (l : Locator) : Prop :=
  match l with
  | Https _ port | LoopbackDevelopment _ port => in_u16 port
  | OnionV3 b port | I2pB32 b port => in_u16 port /\ length b = 32%nat
  end.

(** A well-typed locator that passes its policy and is of an accepted kind. *)
Definition locator_ok (k : LocatorKinds) (l : Locator) : Prop :=
  locator_sized l /\ validate l = Ok tt /\ accepts k l = true.

Lemma tag_u64 l : in_u64 (tag l).
Proof. by destruct l. Qed.

Global Instance locator_codec k : Codec (locator_ok k) encode (decode k).
Proof.
  split.
  - intros pre l r (Hs & Hv & Ha) Hsz. unfold decode, encode in *.
    rewrite <- !(assoc_L (++)) in *. rewrite array_at by (done || cbor_size).
    rewrite uint_at by (apply tag_u64 || cbor_size).
    unfold accepts in Ha. rewrite Ha.
    destruct l as [host port|host port|key port|hash port]; cbn [tag locator_sized] in *;
      cbv [TAG_HTTPS TAG_LOOPBACK_DEVELOPMENT TAG_ONION_V3 TAG_I2P_B32] in *; cbn [Z.eqb Pos.eqb];
      rewrite <- ?(assoc_L (++)) in *.
    + rewrite text_at.
      3: cbor_size.
      2: { unfold validate in Hv. break_in Hv. bool_prop.
           split; [by apply valid_dns_inv | by apply valid_dns_utf8]. }
      rewrite (codec_complete (dec:=decode_port)) by (done || cbor_size).
      rewrite Hv. by rewrite !(assoc_L (++)).
    + rewrite uint_at by first [by destruct host | cbor_size].
      rewrite loopback_from_tag_tag.
      rewrite (codec_complete (dec:=decode_port)) by (done || cbor_size).
      rewrite Hv. by rewrite !(assoc_L (++)).
    + rewrite (codec_complete (dec:=exact_32)) by (first [cbor_size | tauto]).
      rewrite (codec_complete (dec:=decode_port)) by (first [cbor_size | tauto]).
      rewrite Hv. by rewrite !(assoc_L (++)).
    + rewrite (codec_complete (dec:=exact_32)) by (first [cbor_size | tauto]).
      rewrite (codec_complete (dec:=decode_port)) by (first [cbor_size | tauto]).
      rewrite Hv. by rewrite !(assoc_L (++)).
  - intros pre s l d HD. unfold decode in HD.
    read_step HD. apply array_inv in R as (r1 & -> & ->).
    read_step HD. apply uint_inv in R as (_ & r2 & -> & ->).
    read_step HD. read_step HD. read_step HD. injection HD as <- <-. destruct a.
    assert (exists tl r3, r2 = tl ++ r3 /\ d0 = at_ ((pre ++ encode_array LOCATOR_FIELDS) ++ encode_uint z ++ tl) r3
       /\ z = tag l0 /\ encode l0 = encode_array LOCATOR_FIELDS ++ encode_uint (tag l0) ++ tl /\ locator_sized l0)
      as (tl & r3 & -> & -> & -> & He & Hs).
    { repeat (case_match; bool_prop; subst; try discriminate R); injection R as <- <-; cbor_inv;
        try match goal with Hx : loopback_from_tag _ = Ok _ |- _ => apply loopback_from_tag_inv in Hx as -> end;
        eexists (_ ++ _), _; (split; [by rewrite <- (assoc_L (++))|]); rewrite <- !(assoc_L (++)); done. }
    split; [split_and!; [done|by destruct u|done]|].
    exists r3. rewrite He. by rewrite <- !(assoc_L (++)).
Qed.
End codec.

(** * Locator sets and public URLs *)

Section sets.
Context `{Ed25519, Hashes, Encodings, UrlParser}.

Lemma validate_each_ok k seen ls :
  validate_each k seen ls = Ok tt <->
  Forall (fun l => validate l = Ok tt /\ accepts k l = true) ls /\
  NoDup ls /\ (forall l, l ∈ ls -> l ∉ seen).
Proof.
  revert seen; induction ls as [|l ls IH]; intros seen; simpl.
  { split; [intros _; split_and!; [constructor|constructor|set_solver]|done]. }
  destruct (accepts k l) eqn:Ha; [|split; [done|]; intros ([[??]]%Forall_cons & _); congruence].
  destruct (validate l) as [[]|e] eqn:Hv; [|split; [done|]; intros ([[??]]%Forall_cons & _); congruence].
  case_bool_decide as Hs; simpl.
  { split; [done|]. intros (_ & _ & Hd). exfalso. apply (Hd l); set_solver. }
  rewrite IH, Forall_cons, NoDup_cons. set_solver.
Qed.

Lemma validate_set_ok k ls :
  validate_locator_set ls k = Ok tt <->
  ls <> [] /\ zlen ls <= MAX_LOCATORS /\ NoDup ls /\
  Forall (fun l => validate l = Ok tt /\ accepts k l = true) ls.
Proof.
  unfold validate_locator_set.
  destruct (bool_decide _ || _) eqn:E.
  - split; [done|]. intros (? & ? & _). apply orb_true_iff in E as [E|E]; bool_prop; [done|lia].
  - bool_prop. rewrite validate_each_ok. set_solver.
Qed.

(** What [locator_from_public_url] read from the URL it accepted. *)
Lemma from_public_url_inv value l :
  locator_from_public_url value = Ok l ->
  validate l = Ok tt /\
  exists u host, url_parse value = Some u /\ url_host u = Some host /\
    url_username u = [] /\ url_password u = None /\ url_query u = None /\ url_fragment u = None /\
    match l with
    | Https h p => url_scheme u = str "https" /\ host = Domain h /\ url_port_or_known_default u = Some p
    | LoopbackDevelopment h p =>
        url_scheme u = str "http" /\ loopback host = Ok h /\ url_port_or_known_default u = Some p
    | OnionV3 k p => url_scheme u = str "http" /\ url_port_or_known_default u = Some p /\
        exists d, host = Domain d /\ parse_onion_host d = Ok k
    | I2pB32 k p => url_scheme u = str "http" /\ url_port_or_known_default u = Some p /\
        exists d, host = Domain d /\ parse_i2p_host d = Ok k
    end.
Proof.
  unfold locator_from_public_url. intros HU. read_step HU. unfold ok_or in HU.
  destruct (url_parse value) as [u|] eqn:Hu; [|done].
  destruct (_ || _ || _ || _ || _) eqn:Hc in HU; [done|]. bool_prop.
  destruct (url_host u) as [host|] eqn:Hh; [|done].
  destruct (url_port_or_known_default u) as [p|] eqn:Hp; [|done].
  read_step HU. read_step HU. injection HU as <-. unit_vars.
  split; [done|]. exists u, host.
  repeat match goal with Hx : ~ is_Some _ |- _ => apply eq_None_not_Some in Hx; rewrite Hx end.
  split_and!; [done..|]. clear R0.
  unfold require_plain_http in R.
  repeat (case_match; bool_prop; simplify_eq; try done); eauto 8.
Qed.
End sets.
