(* ===== verification/Capsule.v ===== *)
(** Model of crates/invite-capsule/src: profile.rs, node_key.rs,
    signature.rs, capsule.rs and signed.rs - the authenticated content of an
    invite, its canonical payload, and the node-signed invite. *)

From Stdlib Require Import ZArith Lia.
From stdpp Require Import strings.
From S2P Require Import Prelude Utf8 Vendor Cbor Locator.

Definition INVITE_FORMAT_VERSION : Z := 1.
Definition MAX_APPLICATION_ID_BYTES : Z := 64.
Definition PAYLOAD_FIELDS : Z := 10.
Definition FLAGS : Z := 0.
Definition MAX_BINARY_INVITE_BYTES : Z := 1024.
Definition MAX_ENCODED_INVITE_TEXT_BYTES : Z := 2048.
Definition SIGNED_FIELDS : Z := 2.
Definition SIGNATURE_BYTES : Z := 64.

(** [ManualText]: the optional hand-typeable form. *)
Record ManualText := {
  manual_prefix : list byte;
  checksum_domain : list byte;
}.

(** The [Capability] trait: one canonical CBOR item.  [cap_ok] is what the
    implementing type guarantees of its values. *)
Class Capability (C : Type) := {
  cap_ok : C -> Prop;
  cap_encode : C -> list byte;
  cap_decode : Decoder -> dec_result C;
  cap_codec :: Codec cap_ok cap_encode cap_decode;
  cap_eq_dec :: EqDecision C;
}.

(** The [InviteProfile] trait. *)
Class InviteProfile := {
  APPLICATION_ID : list byte;
  SIGNATURE_DOMAIN : list byte;
  CAPABILITY_TYPE : Z;
  LOCATORS : LocatorKinds;
  TEXT_PREFIX : list byte;
  MANUAL_TEXT : option ManualText;
  CapabilityT : Type;
  capability_impl :: Capability CapabilityT;
}.

(** The bounds the trait documents for its constants. *)
Class InviteProfileLaws (P : InviteProfile) : Prop := {
  application_id_bound : zlen APPLICATION_ID <= MAX_APPLICATION_ID_BYTES;
  application_id_utf8 : valid_utf8 APPLICATION_ID = true;
  capability_type_u64 : in_u64 CAPABILITY_TYPE;
}.

(** [signature_input] of signature.rs:
    [domain || u16be(len(application_id)) || application_id || payload]. *)
Definition signature_input (domain application_id payload : list byte) : list byte :=
  let len := if zlen application_id <=? u16_max then zlen application_id else u16_max in
  domain ++ to_be 2 len ++ application_id ++ payload.

Section capsule.
Context `{Ed25519, Hashes, Encodings, UrlParser, !InviteProfile}.

(** * Node keys (node_key.rs) *)

(** [NodePublicKey::from_bytes]: nonzero and a valid curve point. *)
Definition from_bytes (bytes : list byte) : result CapsuleError (list byte) :=
  if bool_decide (bytes = zero32) then Err InvalidNodeKey
  else require vk_from_bytes_ok bytes else InvalidNodeKey in Ok bytes.

(** [NodePublicKey::verify]. *)
Definition verify_key (key message signature : list byte) : bool :=
  vk_from_bytes_ok key && vk_verify_strict key message signature.

(** [decode_exact::<N>]: exactly [n] bytes of canonical unpadded Base64URL. *)
Definition decode_exact (n : Z) (value : list byte) : option (list byte) :=
  match base64url_decode value with
  | None => None
  | Some decoded =>
    if negb (bool_decide (base64url_encode decoded = value)) then None
    else if zlen decoded =? n then Some decoded else None
  end.

(** [NodePublicKey::to_base64url] and [from_base64url]. *)
Definition to_base64url (key : list byte) : list byte := base64url_encode key.
Definition from_base64url (value : list byte) : result CapsuleError (list byte) :=
  let* bytes := ok_or (decode_exact 32 value) InvalidNodeKey in
  from_bytes bytes.

(** [NodeSigningKey::from_base64url]: the seed. *)
Definition signing_key_from_base64url (value : list byte) : result CapsuleError (list byte) :=
  ok_or (decode_exact 32 value) InvalidNodeKey.

(** [key_fingerprint]: sixteen digest bytes as colon-separated pairs. *)
Definition hex_digit (n : Z) : byte := if n <? 10 then z2b (48 + n) else z2b (55 + n).
Definition hex2 (b : byte) : list byte := [hex_digit (b2z b / 16); hex_digit (b2z b mod 16)].
Fixpoint chunks2 (l : list byte) : list (list byte) :=
  match l with
  | a :: b :: l => (hex2 a ++ hex2 b) :: chunks2 l
  | [a] => [hex2 a]
  | [] => []
  end.
Fixpoint join (sep : list byte) (ls : list (list byte)) : list byte :=
  match ls with
  | [] => []
  | [l] => l
  | l :: ls => l ++ sep ++ join sep ls
  end.
Definition key_fingerprint (domain key : list byte) : list byte :=
  join [colon] (chunks2 (take 16 (sha256 (domain ++ key)))).

(** * The capsule (capsule.rs) *)

(** [InviteCapsule<P>]. *)
Record InviteCapsule := mkCapsule {
  node_public_key : list byte;
  locators : list Locator;
  capability : CapabilityT;
  protocol_min : Z;
  protocol_max : Z;
  expires_at_epoch_seconds : option Z;
}.

Global Instance InviteCapsule_eq_dec : EqDecision InviteCapsule.
Proof. solve_decision. Defined.

(** [supports_protocol] and [is_expired_at] (expiry is exclusive). *)
Definition supports_protocol (c : InviteCapsule) (version : Z) : bool :=
  (protocol_min c <=? version) && (version <=? protocol_max c).
Definition is_expired_at (c : InviteCapsule) (now : Z) : bool :=
  match expires_at_epoch_seconds c with Some expiry => expiry <=? now | None => false end.

(** [InviteCapsule::validate]: structure first, then expiry. *)
Definition validate (c : InviteCapsule) (now : option Z) : result CapsuleError unit :=
  if (protocol_min c =? 0) || (protocol_max c <? protocol_min c) then Err Invalid
  else
    let* _ := validate_locator_set (locators c) LOCATORS in
    if match now with Some now => is_expired_at c now | None => false end then Err Expired
    else Ok tt.

(** [InviteCapsule::new]. *)
Definition new (key : list byte) (ls : list Locator) (cap : CapabilityT) (pmin pmax : Z)
    (expires : option Z) : result CapsuleError InviteCapsule :=
  let c := mkCapsule key ls cap pmin pmax expires in
  let* _ := validate c None in Ok c.

(** [InviteCapsule::canonical_payload]. *)
Definition payload_bytes (c : InviteCapsule) : list byte :=
  encode_array PAYLOAD_FIELDS ++
  encode_uint INVITE_FORMAT_VERSION ++
  encode_text APPLICATION_ID ++
  encode_uint CAPABILITY_TYPE ++
  encode_bytes (node_public_key c) ++
  encode_array (zlen (locators c)) ++
  flat_map encode (locators c) ++
  cap_encode (capability c) ++
  encode_uint (protocol_min c) ++
  encode_uint (protocol_max c) ++
  encode_uint FLAGS ++
  encode_optional_uint (expires_at_epoch_seconds c).

Definition canonical_payload (c : InviteCapsule) : result CapsuleError (list byte) :=
  let* _ := validate c None in Ok (payload_bytes c).

(** [protocol_version]. *)
Definition protocol_version (d : Decoder) : dec_result Z :=
  let* (v, d) := uint d in
  require v <=? u16_max else Invalid in Ok (v, d).

(** [(0..n).map(|_| Locator::decode(..)).collect()]. *)
Fixpoint decode_locators (n : nat) (d : Decoder) : dec_result (list Locator) :=
  match n with
  | O => Ok ([], d)
  | S n =>
    let* (l, d) := decode LOCATORS d in
    let* (ls, d) := decode_locators n d in Ok (l :: ls, d)
  end.

(** [InviteCapsule::decode_payload]: the fields, in order, then the
    requirement that the payload is their canonical encoding. *)
Definition decode_fields (payload : list byte) : result CapsuleError InviteCapsule :=
  let* (_, d) := array (Cbor.new payload) PAYLOAD_FIELDS in
  let* (version, d) := uint d in
  require version =? INVITE_FORMAT_VERSION else UnsupportedVersion in
  let* (app, d) := text d MAX_APPLICATION_ID_BYTES in
  require bool_decide (app = APPLICATION_ID) else WrongApplication in
  let* (cap_type, d) := uint d in
  require cap_type =? CAPABILITY_TYPE else UnsupportedCapability in
  let* (node_key, d) := bytes d 32 in
  require zlen node_key =? 32 else Invalid in
  let* key := from_bytes node_key in
  let* (locator_count, d) := array_len d in
  require negb ((locator_count =? 0) || (MAX_LOCATORS <? locator_count)) else Invalid in
  let* (ls, d) := decode_locators (Z.to_nat locator_count) d in
  let* (cap, d) := cap_decode d in
  let* (pmin, d) := protocol_version d in
  let* (pmax, d) := protocol_version d in
  let* (flags, d) := uint d in
  require flags =? FLAGS else Invalid in
  let* (expires, d) := optional_uint d in
  let* _ := finish d in
  Ok (mkCapsule key ls cap pmin pmax expires).

Definition decode_payload (payload : list byte) : result CapsuleError InviteCapsule :=
  let* c := decode_fields payload in
  let* canonical := canonical_payload c in
  require bool_decide (canonical = payload) else Invalid in
  Ok c.

(** [InviteCapsule::signature_input]. *)
Definition capsule_signature_input (c : InviteCapsule) : result CapsuleError (list byte) :=
  let* payload := canonical_payload c in
  Ok (signature_input SIGNATURE_DOMAIN APPLICATION_ID payload).

(** * Signed invites (signed.rs) *)

(** [SignedInvite<P>]. *)
Record SignedInvite := mkSigned { capsule : InviteCapsule; signature : list byte }.

Global Instance SignedInvite_eq_dec : EqDecision SignedInvite.
Proof. solve_decision. Defined.

(** [SignedInvite::sign]: the key is given by its seed. *)
Definition sign (c : InviteCapsule) (seed : list byte) : result CapsuleError SignedInvite :=
  require bool_decide (sk_verifying_key seed = node_public_key c) else NodeIdentityMismatch in
  let* message := capsule_signature_input c in
  Ok (mkSigned c (sk_sign seed message)).

(** [SignedInvite::verify]. *)
Definition verify (s : SignedInvite) (now : option Z) : result CapsuleError unit :=
  let* message := capsule_signature_input (capsule s) in
  require verify_key (node_public_key (capsule s)) message (signature s) else InvalidSignature in
  validate (capsule s) now.

(** [SignedInvite::from_parts]. *)
Definition from_parts (c : InviteCapsule) (sig : list byte) (now : option Z) : result CapsuleError SignedInvite :=
  let s := mkSigned c sig in
  let* _ := verify s now in Ok s.

(** [SignedInvite::canonical_binary]. *)
Definition canonical_binary (s : SignedInvite) : result CapsuleError (list byte) :=
  let* payload := canonical_payload (capsule s) in
  let output := encode_array SIGNED_FIELDS ++ encode_bytes payload ++ encode_bytes (signature s) in
  require zlen output <=? MAX_BINARY_INVITE_BYTES else TooLarge in Ok output.

(** [SignedInvite::decode]. *)
Definition decode_signed (binary : list byte) (now : option Z) : result CapsuleError SignedInvite :=
  if bool_decide (binary = []) || (MAX_BINARY_INVITE_BYTES <? zlen binary) then Err TooLarge
  else
    let* (_, d) := array (Cbor.new binary) SIGNED_FIELDS in
    let* (payload, d) := bytes d MAX_BINARY_INVITE_BYTES in
    let* (sig, d) := bytes d SIGNATURE_BYTES in
    require zlen sig =? SIGNATURE_BYTES else Invalid in
    let* _ := finish d in
    let* c := decode_payload payload in
    let s := mkSigned c sig in
    let* _ := verify s now in
    let* canonical := canonical_binary s in
    require bool_decide (canonical = binary) else Invalid in
    Ok s.
End capsule.

(** * Correctness *)

Section correctness.
Context `{Ed25519, Hashes, Encodings, UrlParser, !InviteProfile}.

Global Instance protocol_version_codec : Codec in_u16 encode_uint protocol_version.
Proof.
  split.
  - intros pre p r Hp Hsz. unfold protocol_version. rewrite uint_at by eauto with ket.
    unfold in_u16 in Hp. by rewrite (proj2 (Z.leb_le _ _)) by lia.
  - intros pre s p d HD. unfold protocol_version in HD. repeat read_step HD. injection HD as <- <-.
    apply uint_inv in R as [[? _] ?]. bool_prop. by split.
Qed.

Global Instance decode_locators_codec n :
  Codec (fun ls => length ls = n /\ Forall (locator_ok LOCATORS) ls) (flat_map encode) (decode_locators n).
Proof.
  induction n as [|n IH]; split.
  - intros pre [|] r [? _] _; [|done]. simpl. by rewrite app_nil_r.
  - intros pre s ls d HD. injection HD as <- <-. split; [done|]. exists s. simpl. by rewrite app_nil_r.
  - intros pre ls r [Hn Hf] Hsz. destruct Hf as [|l ls Hl Hls]; [done|]. cbn [flat_map decode_locators length] in *.
    rewrite <- !(assoc_L (++)) in *.
    rewrite (codec_complete (dec:=decode LOCATORS)) by (done || cbor_size).
    rewrite (codec_complete (dec:=decode_locators n)); [by rewrite <- !(assoc_L (++))| |cbor_size].
    split; [lia|done].
  - intros pre s ls d HD. cbn [decode_locators] in HD. repeat read_step HD. injection HD as <- <-.
    apply (codec_sound (dec:=decode LOCATORS)) in R as (? & r & -> & ->).
    apply codec_sound in R0 as ([Hl ?] & r' & -> & ->).
    split; [by split; [simpl; lia|constructor]|].
    exists r'. cbn [flat_map]. by rewrite <- !(assoc_L (++)).
Qed.

(** What the types and [InviteCapsule::new] guarantee of a capsule. *)
Definition capsule_ok (c : InviteCapsule) : Prop :=
  length (node_public_key c) = 32%nat /\
  from_bytes (node_public_key c) = Ok (node_public_key c) /\
  Forall locator_sized (locators c) /\
  cap_ok (capability c) /\
  in_u16 (protocol_min c) /\ in_u16 (protocol_max c) /\
  match expires_at_epoch_seconds c with Some t => in_u64 t | None => True end /\
  validate c None = Ok tt.

Lemma validate_none c :
  validate c None = Ok tt <->
  protocol_min c <> 0 /\ protocol_min c <= protocol_max c /\
  validate_locator_set (locators c) LOCATORS = Ok tt.
Proof.
  unfold validate. destruct (_ || _) eqn:E.
  - split; [done|]. intros (? & ? & _). apply orb_true_iff in E as [E|E]; bool_prop; lia.
  - bool_prop. destruct (validate_locator_set _ _) as [[]|]; naive_solver.
Qed.

Lemma validate_some c now :
  validate c (Some now) =
    match validate c None with
    | Ok tt => if is_expired_at c now then Err Expired else Ok tt
    | Err e => Err e
    end.
Proof. unfold validate. repeat case_match; simplify_eq; done. Qed.

Lemma capsule_locators_ok c : capsule_ok c -> Forall (locator_ok LOCATORS) (locators c).
Proof.
  intros (_ & _ & Hs & _ & _ & _ & _ & (_ & _ & (_ & _ & _ & Hv)%validate_set_ok)%validate_none).
  apply Forall_and in Hv as [Hv Ha].
  repeat (apply Forall_and; split); done.
Qed.

Lemma capsule_count_ok c : capsule_ok c -> 1 <= zlen (locators c) <= MAX_LOCATORS.
Proof.
  intros (_ & _ & _ & _ & _ & _ & _ & (_ & _ & (Hne & ? & _)%validate_set_ok)%validate_none).
  destruct (locators c); [done|]. unfold zlen in *. simpl in *. lia.
Qed.

Lemma decode_payload_complete `{!InviteProfileLaws _} c :
  capsule_ok c -> zlen (payload_bytes c) <= usize_max ->
  decode_payload (payload_bytes c) = Ok c.
Proof.
  intros Hc Hsz. pose proof (capsule_locators_ok c Hc) as Hl. pose proof (capsule_count_ok c Hc) as Hn.
  destruct Hc as (Hk & Hkb & _ & Hcap & Hmin & Hmax & Hexp & Hv).
  assert (zlen (node_public_key c) = 32) as Hkz by (unfold zlen; lia).
  unfold decode_payload, decode_fields. rewrite new_at. unfold payload_bytes in *.
  rewrite array_at by (done || cbor_size).
  rewrite uint_at by (done || cbor_size). rewrite Z.eqb_refl.
  rewrite text_at by (first [split; [apply application_id_bound | apply application_id_utf8] | cbor_size]).
  rewrite bool_decide_eq_true_2 by done.
  rewrite uint_at by (first [apply capability_type_u64 | cbor_size]). rewrite Z.eqb_refl.
  rewrite bytes_at by (first [lia | cbor_size]). rewrite Hkz, Z.eqb_refl, Hkb.
  assert (in_u64 (zlen (locators c))).
  { unfold in_u64, MAX_LOCATORS, u64_max in *. lia. }
  rewrite array_len_at by (done || cbor_size).
  rewrite (proj2 (Z.eqb_neq _ 0)), (proj2 (Z.ltb_ge _ _)) by lia. cbn [orb negb].
  rewrite (codec_complete (dec:=decode_locators _))
    by (first [split; [unfold zlen; lia|done] | cbor_size]).
  rewrite (codec_complete (dec:=cap_decode)) by (done || cbor_size).
  rewrite (codec_complete (dec:=protocol_version)) by (done || cbor_size).
  rewrite (codec_complete (dec:=protocol_version)) by (done || cbor_size).
  rewrite uint_at by (done || cbor_size). rewrite Z.eqb_refl.
  rewrite <- (app_nil_r (encode_optional_uint _)).
  rewrite optional_uint_at by (rewrite ?app_nil_r; done || cbor_size).
  rewrite finish_at, decide_True by done.
  unfold canonical_payload. destruct c; cbn [node_public_key locators capability protocol_min protocol_max
    expires_at_epoch_seconds] in *. rewrite Hv.
  rewrite bool_decide_eq_true_2; [done|]. by rewrite app_nil_r.
Qed.

Lemma from_bytes_inv b k : from_bytes b = Ok k -> k = b.
Proof. unfold from_bytes. intros HB. repeat case_match; simplify_eq; done. Qed.

Lemma finish_inv pre r u : finish (at_ pre r) = Ok u -> r = [].
Proof. rewrite finish_at. case_decide; done. Qed.

(** Whatever the field-by-field decoder accepts is the canonical encoding of
    what it read. *)
Lemma decode_fields_sound p c :
  decode_fields p = Ok c ->
  p = payload_bytes c /\ length (node_public_key c) = 32%nat /\
  from_bytes (node_public_key c) = Ok (node_public_key c) /\
  Forall (locator_ok LOCATORS) (locators c) /\ cap_ok (capability c) /\
  in_u16 (protocol_min c) /\ in_u16 (protocol_max c) /\
  match expires_at_epoch_seconds c with Some t => in_u64 t | None => True end.
Proof.
  unfold decode_fields. rewrite new_at. intros HD. repeat read_step HD. injection HD as <-.
  cbor_inv. bool_prop; subst.
  match goal with Hf : from_bytes _ = Ok _ |- _ => pose proof (from_bytes_inv _ _ Hf) as -> end.
  repeat match goal with
  | Hx : decode_locators _ (at_ _ _) = Ok _ |- _ =>
      apply (codec_sound (dec:=decode_locators _)) in Hx as ([Hlen Hls] & ? & -> & ->)
  | Hx : cap_decode (at_ _ _) = Ok _ |- _ => apply (codec_sound (dec:=cap_decode)) in Hx as (? & ? & -> & ->)
  | Hx : protocol_version (at_ _ _) = Ok _ |- _ =>
      apply (codec_sound (dec:=protocol_version)) in Hx as (? & ? & -> & ->)
  | _ => progress cbor_inv
  end.
  match goal with Hf : finish _ = Ok _ |- _ => apply finish_inv in Hf as -> end.
  unfold payload_bytes. simpl. rewrite app_nil_r.
  match goal with Hz : in_u64 z1 |- _ => rename Hz into Hcount end.
  assert (z1 = zlen l1) as -> by (unfold zlen, in_u64 in *; lia).
  split_and!; try done. unfold zlen in *. lia.
Qed.

Lemma decode_payload_sound p c :
  decode_payload p = Ok c -> capsule_ok c /\ payload_bytes c = p.
Proof.
  unfold decode_payload, canonical_payload. intros HD. repeat read_step HD. injection HD as <-.
  rename a into c. destruct (decode_fields_sound _ _ R) as (-> & ? & ? & Hl & ? & ? & ? & ?).
  destruct (validate c None) as [[]|] eqn:Hv; [|done]. split; [|done].
  unfold capsule_ok. split_and!; try done.
  eapply Forall_impl; [exact Hl|]. by intros l [? _].
Qed.

Lemma canonical_payload_ok c : capsule_ok c -> canonical_payload c = Ok (payload_bytes c).
Proof. intros (_ & _ & _ & _ & _ & _ & _ & Hv). unfold canonical_payload. by rewrite Hv. Qed.

Lemma verify_spec s now :
  validate (capsule s) None = Ok tt ->
  verify s now =
    if verify_key (node_public_key (capsule s))
         (signature_input SIGNATURE_DOMAIN APPLICATION_ID (payload_bytes (capsule s))) (signature s)
    then validate (capsule s) now else Err InvalidSignature.
Proof. intros Hv. unfold verify, capsule_signature_input, canonical_payload. by rewrite Hv. Qed.

Lemma canonical_binary_inv s b :
  canonical_binary s = Ok b ->
  validate (capsule s) None = Ok tt /\ zlen b <= MAX_BINARY_INVITE_BYTES /\
  b = encode_array SIGNED_FIELDS ++ encode_bytes (payload_bytes (capsule s)) ++ encode_bytes (signature s).
Proof.
  unfold canonical_binary, canonical_payload. intros HB. repeat read_step HB.
  injection HB as <-. bool_prop. destruct (validate _ None) as [[]|]; [|done]. by simplify_eq.
Qed.

(** A signed invite that verifies at [now] is decoded from its binary form. *)
Lemma decode_signed_complete `{!InviteProfileLaws _} s now b :
  capsule_ok (capsule s) -> length (signature s) = 64%nat ->
  verify s now = Ok tt -> canonical_binary s = Ok b ->
  decode_signed b now = Ok s.
Proof.
  intros Hc Hsig Hver Hb. pose proof (canonical_binary_inv s b Hb) as (Hv & Hsz & E).
  assert (zlen b <= usize_max) as Hu by (unfold MAX_BINARY_INVITE_BYTES, usize_max, u64_max in *; lia).
  assert (zlen (signature s) = SIGNATURE_BYTES) as Hsg by (unfold zlen, SIGNATURE_BYTES; lia).
  assert (zlen (payload_bytes (capsule s)) <= zlen b) as Hp.
  { rewrite E. unfold encode_bytes. rewrite !zlen_app.
    pose proof (zlen_nonneg (encode_array SIGNED_FIELDS)). pose proof (zlen_nonneg (signature s)).
    pose proof (zlen_nonneg (encode_head MAJOR_BYTES (zlen (payload_bytes (capsule s))))).
    pose proof (zlen_nonneg (encode_head MAJOR_BYTES (zlen (signature s)))). lia. }
  assert (zlen (payload_bytes (capsule s)) <= usize_max) as Hpu by lia.
  unfold decode_signed. destruct (bool_decide (b = []) || _) eqn:Hg.
  { apply orb_true_iff in Hg as [Hg|Hg]; bool_prop; [|lia]. subst b.
    apply (f_equal (@length byte)) in Hg. rewrite !length_app in Hg.
    change (length (encode_array SIGNED_FIELDS)) with 1%nat in Hg. simpl in Hg. lia. }
  rewrite new_at. rewrite E in Hu |- * at 1.
  rewrite array_at by (done || cbor_size).
  rewrite bytes_at by (first [lia | cbor_size]).
  rewrite <- (app_nil_r (encode_bytes (signature s))).
  rewrite bytes_at by (rewrite ?app_nil_r; first [lia | cbor_size]).
  rewrite Hsg, Z.eqb_refl, finish_at, decide_True by done.
  rewrite decode_payload_complete by (done || lia).
  destruct s; cbn [capsule signature] in *. rewrite Hver, Hb.
  by rewrite bool_decide_eq_true_2.
Qed.

(** What acceptance of a binary invite establishes. *)
Lemma decode_signed_sound b now s :
  decode_signed b now = Ok s ->
  capsule_ok (capsule s) /\ length (signature s) = 64%nat /\
  verify s now = Ok tt /\ canonical_binary s = Ok b.
Proof.
  unfold decode_signed. intros HD. read_step HD. rewrite new_at in HD.
  repeat read_step HD. injection HD as <-. unit_vars. bool_prop. subst.
  match goal with Hx : decode_payload _ = Ok _ |- _ => apply decode_payload_sound in Hx as [? _] end.
  split_and!; try done. unfold zlen, SIGNATURE_BYTES in *. cbn [signature]. lia.
Qed.

Lemma verify_inv s now :
  verify s now = Ok tt ->
  validate (capsule s) None = Ok tt /\ validate (capsule s) now = Ok tt /\
  verify_key (node_public_key (capsule s))
    (signature_input SIGNATURE_DOMAIN APPLICATION_ID (payload_bytes (capsule s))) (signature s) = true.
Proof.
  unfold verify, capsule_signature_input, canonical_payload. intros HV.
  destruct (validate (capsule s) None) as [[]|]; [|done].
  destruct (verify_key _ _ _) eqn:E; [|done]. done.
Qed.

Lemma sign_verifies `{!Ed25519Laws} c seed s now :
  capsule_ok c -> sign c seed = Ok s -> validate c now = Ok tt -> verify s now = Ok tt.
Proof.
  intros Hc Hs Hn. unfold sign, capsule_signature_input in Hs.
  rewrite canonical_payload_ok in Hs by done. repeat read_step Hs. bool_prop. injection Hs as <-.
  rewrite verify_spec by apply Hc. cbn [capsule signature].
  assert (vk_from_bytes_ok (node_public_key c) = true) as Hk.
  { destruct Hc as (_ & Hb & _). unfold from_bytes in Hb. by repeat case_match. }
  unfold verify_key. rewrite Hk. rewrite <- C. by rewrite sk_sign_verifies.
Qed.

(** [signature_input] determines the application ID and the payload. *)
Lemma signature_input_inj d a p a' p' :
  zlen a <= u16_max -> zlen a' <= u16_max ->
  signature_input d a p = signature_input d a' p' -> a = a' /\ p = p'.
Proof.
  unfold signature_input. intros Ha Ha' E.
  rewrite (proj2 (Z.leb_le _ _)), (proj2 (Z.leb_le (zlen a') _)) in E by lia.
  apply app_inv_head in E. apply app_inj_1 in E as [El E]; [|by rewrite !length_to_be].
  apply (f_equal from_be) in El. unfold u16_max in *.
  pose proof (zlen_nonneg a). pose proof (zlen_nonneg a').
  rewrite !from_be_to_be in El by (change (256 ^ Z.of_nat 2) with 65536; lia).
  apply app_inj_1 in E; [done|]. unfold zlen in El. lia.
Qed.
End correctness.
