(* ===== verification/Text.v ===== *)
(** Model of crates/invite-capsule/src/text (mod.rs, manual.rs) and of the
    text forms of signed.rs: strict Base64URL, and the hand-typeable
    Crockford Base32 form with its checksum. *)

From Stdlib Require Import ZArith Lia.
From stdpp Require Import strings.
From S2P Require Import Prelude Utf8 Str Vendor Cbor Locator Capsule.

Definition CHECKSUM_BYTES : Z := 4.
Definition GROUP : Z := 5.
Definition CROCKFORD : list byte := str "0123456789ABCDEFGHJKMNPQRSTVWXYZ".

(** [has_prefix]: case-insensitive prefix test for the manual form. *)
Definition has_prefix (input prefix : list byte) : bool :=
  match get_to input (length prefix) with
  | Some start => eq_ignore_ascii_case start prefix
  | None => false
  end.

(** * Crockford Base32 (manual.rs) *)

Definition shl16 (v k : Z) : Z := Z.shiftl v k mod 65536.
(** [(1_u16 << bits).saturating_sub(1)]. *)
Definition mask16 (bits : Z) : Z := Z.max (shl16 1 bits - 1) 0.

Definition symbol (v : Z) : byte := nth (Z.to_nat v) CROCKFORD (z2b 0).

(** The inner [while bits >= 5] of [crockford_encode]; two rounds empty the
    at most twelve bits it starts with. *)
Fixpoint emit (fuel : nat) (buffer bits : Z) (out : list byte) : Z * Z * list byte :=
  match fuel with
  | O => (buffer, bits, out)
  | S fuel =>
    if 5 <=? bits then
      let bits := bits - 5 in
      let out := out ++ [symbol (Z.land (Z.shiftr buffer bits) 0x1f)] in
      emit fuel (Z.land buffer (mask16 bits)) bits out
    else (buffer, bits, out)
  end.

Fixpoint encode_loop (value : list byte) (buffer bits : Z) (out : list byte) : Z * Z * list byte :=
  match value with
  | [] => (buffer, bits, out)
  | byte :: value =>
    let buffer := Z.lor (shl16 buffer 8) (b2z byte) in
    let '(buffer, bits, out) := emit 3 buffer (bits + 8) out in
    encode_loop value buffer bits out
  end.

(** [crockford_encode]. *)
Definition crockford_encode (value : list byte) : list byte :=
  let '(buffer, bits, out) := encode_loop value 0 0 [] in
  if 0 <? bits then out ++ [symbol (Z.land (shl16 buffer (5 - bits)) 0x1f)] else out.

(** [crockford_value]. *)
Fixpoint position (b : byte) (l : list byte) (i : Z) : option Z :=
  match l with
  | [] => None
  | c :: l => if bool_decide (c = b) then Some i else position b l (i + 1)
  end.
Definition crockford_value (byte : byte) : option Z :=
  let v := to_ascii_uppercase byte in
  if bool_decide (v = z2b 79) then Some 0
  else if bool_decide (v = z2b 73) || bool_decide (v = z2b 76) then Some 1
  else position v CROCKFORD 0.

Fixpoint decode_loop (value : list byte) (buffer bits : Z) (out : list byte)
    : result CapsuleError (Z * Z * list byte) :=
  match value with
  | [] => Ok (buffer, bits, out)
  | byte :: value =>
    match crockford_value byte with
    | None => Err Invalid
    | Some decoded =>
      let buffer := Z.lor (shl16 buffer 5) decoded in
      let bits := bits + 5 in
      if 8 <=? bits then
        let bits := bits - 8 in
        decode_loop value (Z.land buffer (mask16 bits)) bits (out ++ [z2b (Z.shiftr buffer bits)])
      else decode_loop value buffer bits out
    end
  end.

(** [crockford_decode]. *)
Definition crockford_decode (value : list byte) : result CapsuleError (list byte) :=
  let max_bytes := (sat_mul64 (zlen value) 5 + 7) / 8 in
  if MAX_BINARY_INVITE_BYTES + CHECKSUM_BYTES <? max_bytes then Err TooLarge
  else
    let* state := decode_loop value 0 0 [] in
    let '(buffer, bits, out) := state in
    if (0 <? bits) && negb (buffer =? 0) then Err Invalid else Ok out.

Section forms.
Context `{Ed25519, Hashes, Encodings, UrlParser}.

(** [checksum]: four bytes of SHA-256. *)
Definition checksum (form : ManualText) (value : list byte) : list byte :=
  take 4 (sha256 (checksum_domain form ++ value)).

(** The grouping loop of [encode_manual]. *)
Fixpoint group_from (index : Z) (encoded : list byte) : list byte :=
  match encoded with
  | [] => []
  | c :: encoded =>
    (if (0 <? index) && (index mod GROUP =? 0) then [hyphen] else []) ++ c :: group_from (index + 1) encoded
  end.

(** [encode_manual]. *)
Definition encode_manual (form : ManualText) (binary : list byte) : list byte :=
  manual_prefix form ++ group_from 0 (crockford_encode (binary ++ checksum form binary)).

Fixpoint contains_double (b : byte) (s : list byte) : bool :=
  match s with
  | c :: ((d :: _) as s) => (bool_decide (c = b) && bool_decide (d = b)) || contains_double b s
  | _ => false
  end.

(** The constant-time comparison of [decode_manual]. *)
Definition difference (l r : list byte) : Z :=
  fold_left (fun acc '(a, b) => Z.lor acc (Z.lxor (b2z a) (b2z b))) (zip l r) 0.

(** [decode_manual]. *)
Definition decode_manual (form : ManualText) (input : list byte) : result CapsuleError (list byte) :=
  let* body := ok_or (get_from input (length (manual_prefix form))) Invalid in
  if bool_decide (body = []) || starts_with hyphen body || ends_with_byte hyphen body ||
     contains_double hyphen body ||
     negb (forallb (fun b => is_ascii_alphanumeric b || bool_decide (b = hyphen)) body)
  then Err Invalid
  else
    let compact := List.filter (fun b => negb (bool_decide (b = hyphen))) body in
    let* decoded := crockford_decode compact in
    if (zlen decoded <=? CHECKSUM_BYTES) || (MAX_BINARY_INVITE_BYTES + CHECKSUM_BYTES <? zlen decoded)
    then Err Invalid
    else
      let split := (length decoded - Z.to_nat CHECKSUM_BYTES)%nat in
      let expected := checksum form (take split decoded) in
      if negb (difference (drop split decoded) expected =? 0) then Err InvalidChecksum
      else Ok (take split decoded).

(** [encode_base64url] and [decode_base64url] of text/mod.rs. *)
Definition encode_base64url (prefix binary : list byte) : list byte :=
  prefix ++ base64url_encode binary.

Definition decode_base64url (prefix input : list byte) : result CapsuleError (list byte) :=
  let encoded := strip_prefix_or prefix input in
  if bool_decide (encoded = []) || negb (forallb is_base64url encoded) then Err Invalid
  else
    let* binary := ok_or (base64url_decode encoded) Invalid in
    require zlen binary <=? MAX_BINARY_INVITE_BYTES else TooLarge in
    require bool_decide (base64url_encode binary = encoded) else Invalid in
    Ok binary.

Context `{!InviteProfile}.

(** [SignedInvite::to_text], [to_manual_text] and [from_text]. *)
Definition to_text (s : SignedInvite) : result CapsuleError (list byte) :=
  let* binary := canonical_binary s in
  Ok (encode_base64url TEXT_PREFIX binary).

Definition to_manual_text (s : SignedInvite) : result CapsuleError (list byte) :=
  let* form := ok_or MANUAL_TEXT Invalid in
  let* binary := canonical_binary s in
  Ok (encode_manual form binary).

Definition from_text (input : list byte) (now : option Z) : result CapsuleError SignedInvite :=
  if bool_decide (input = []) || (MAX_ENCODED_INVITE_TEXT_BYTES <? zlen input) then Err TooLarge
  else
    let* binary :=
      match MANUAL_TEXT with
      | Some form =>
        if has_prefix input (manual_prefix form) then decode_manual form input
        else decode_base64url TEXT_PREFIX input
      | None => decode_base64url TEXT_PREFIX input
      end in
    decode_signed binary now.
End forms.

(** * Crockford Base32 is a faithful number conversion *)

(** The number a list of 5-bit digits denotes. *)
Definition from32 (vs : list Z) : Z := fold_left (fun acc v => acc * 32 + v) vs 0.

Lemma from32_snoc vs v : from32 (vs ++ [v]) = from32 vs * 32 + v.
Proof. unfold from32. by rewrite fold_left_app. Qed.

Lemma land_ones_mod a n : 0 <= n -> Z.land a (2 ^ n - 1) = a mod 2 ^ n.
Proof. intros. rewrite <- Z.land_ones by lia. by rewrite Z.ones_equiv, Z.sub_1_r. Qed.

Lemma mask16_pow bits : 0 <= bits < 16 -> mask16 bits = 2 ^ bits - 1.
Proof.
  intros Hb. unfold mask16, shl16. rewrite Z.shiftl_1_l.
  assert (0 < 2 ^ bits < 65536) as Hp.
  { split; [apply Z.pow_pos_nonneg; lia|]. change 65536 with (2 ^ 16). apply Z.pow_lt_mono_r; lia. }
  rewrite Z.mod_small by lia. lia.
Qed.

(** Appending [k] low bits to a buffer that has room for them. *)
Lemma push_bits buffer low k :
  0 <= k -> 0 <= buffer -> buffer * 2 ^ k < 65536 -> 0 <= low < 2 ^ k ->
  Z.lor (shl16 buffer k) low = buffer * 2 ^ k + low.
Proof.
  intros Hk Hb Hfit Hl. unfold shl16. rewrite Z.shiftl_mul_pow2 by lia.
  assert (0 < 2 ^ k) by (apply Z.pow_pos_nonneg; lia).
  rewrite (Z.mod_small (buffer * 2 ^ k)) by nia.
  rewrite <- Z.shiftl_mul_pow2 by lia. symmetry.
  rewrite <- Z.lxor_lor, <- Z.add_nocarry_lxor; [done| |];
    apply Z.bits_inj'; intros i Hi; rewrite Z.land_spec, Z.bits_0, Z.shiftl_spec by lia;
    (destruct (Z.ltb_spec i k);
      [rewrite (Z.testbit_neg_r buffer) by lia; done|
       rewrite <- (Z.mod_small low (2 ^ k)) by lia;
       rewrite Z.mod_pow2_bits_high by lia; by rewrite andb_false_r]).
Qed.

Lemma symbol_value v : 0 <= v < 32 -> crockford_value (symbol v) = Some v.
Proof.
  intros Hv.
  assert (forallb (fun v => bool_decide (crockford_value (symbol v) = Some v)) (seqZ 0 32) = true) as HF
    by (vm_compute; reflexivity).
  rewrite forallb_Forall, Forall_forall in HF.
  specialize (HF v ltac:(apply elem_of_seqZ; lia)). by bool_prop.
Qed.

Lemma from32_app vs ws : from32 (vs ++ ws) = from32 vs * 32 ^ zlen ws + from32 ws.
Proof.
  induction ws as [|w ws IH] using rev_ind.
  - rewrite app_nil_r. change (zlen (@nil Z)) with 0. change (from32 []) with 0. lia.
  - rewrite (assoc_L (++)), !from32_snoc, IH, zlen_app. change (zlen [w]) with 1.
    rewrite Z.pow_add_r by (unfold zlen; lia). lia.
Qed.

Definition digit (v : Z) : Prop := 0 <= v < 32.

(** One round of the inner loop moves the top five bits to the output. *)
Lemma take_digit buffer bits :
  0 <= bits < 16 -> 0 <= buffer < 2 ^ (bits + 5) ->
  digit (Z.land (Z.shiftr buffer bits) 0x1f) /\
  0 <= Z.land buffer (mask16 bits) < 2 ^ bits /\
  Z.land (Z.shiftr buffer bits) 0x1f * 2 ^ bits + Z.land buffer (mask16 bits) = buffer.
Proof.
  intros Hb Hlt. rewrite mask16_pow by lia.
  rewrite land_ones_mod by lia. change 0x1f with (2 ^ 5 - 1). rewrite land_ones_mod by lia.
  rewrite Z.shiftr_div_pow2 by lia.
  assert (0 < 2 ^ bits) by (apply Z.pow_pos_nonneg; lia).
  rewrite Z.pow_add_r in Hlt by lia.
  assert (0 <= buffer / 2 ^ bits < 2 ^ 5).
  { split; [apply Z.div_pos; lia|]. apply Z.div_lt_upper_bound; lia. }
  rewrite (Z.mod_small (buffer / 2 ^ bits)) by lia.
  pose proof (Z.mod_pos_bound buffer (2 ^ bits)). pose proof (Z.div_mod buffer (2 ^ bits)).
  unfold digit. change (2 ^ 5) with 32 in *. lia.
Qed.

Lemma emit_spec fuel buffer bits out :
  0 <= bits < 5 * (Z.of_nat fuel + 1) -> bits < 16 -> 0 <= buffer < 2 ^ bits ->
  exists vs b k, emit fuel buffer bits out = (b, k, out ++ map symbol vs) /\
    Forall digit vs /\ 0 <= k < 5 /\ k + 5 * zlen vs = bits /\
    0 <= b < 2 ^ k /\ from32 vs * 2 ^ k + b = buffer.
Proof.
  revert buffer bits out; induction fuel as [|fuel IH]; intros buffer bits out Hb Hs Hlt; cbn [emit].
  - exists [], buffer, bits. cbn [map]. rewrite app_nil_r. change (zlen (@nil Z)) with 0.
    change (from32 []) with 0. split_and!; try done; lia.
  - destruct (Z.leb_spec 5 bits).
    + destruct (take_digit buffer (bits - 5)) as (Hd & Hl & Hv);
        [lia|by replace (bits - 5 + 5) with bits by lia|].
      edestruct (IH (Z.land buffer (mask16 (bits - 5))) (bits - 5)) as (vs & b & k & E & ? & ? & Hk & ? & Hn);
        [lia|lia|done|].
      exists (Z.land (Z.shiftr buffer (bits - 5)) 0x1f :: vs), b, k. rewrite E.
      change (?x :: vs) with ([x] ++ vs). rewrite zlen_app, from32_app. change (zlen [_]) with 1.
      split_and!; try done; try lia.
      * cbn [map app]. by rewrite <- (assoc_L (++)).
      * by constructor.
      * assert (32 ^ zlen vs * 2 ^ k = 2 ^ (bits - 5)) as Hp.
        { change 32 with (2 ^ 5). rewrite <- Z.pow_mul_r, <- Z.pow_add_r by (unfold zlen in *; lia).
          f_equal. lia. }
        change (from32 [?x]) with (0 * 32 + x).
        match goal with |- ((0 * 32 + ?x) * ?p + ?f) * ?q + ?r = _ =>
          replace (((0 * 32 + x) * p + f) * q + r) with (x * (p * q) + (f * q + r)) by ring end.
        by rewrite Hp, Hn.
    + exists [], buffer, bits. cbn [map]. rewrite app_nil_r. change (zlen (@nil Z)) with 0.
      change (from32 []) with 0. split_and!; try done; lia.
Qed.

Lemma encode_loop_spec value buffer bits out :
  0 <= bits < 5 -> 0 <= buffer < 2 ^ bits ->
  exists vs b k, encode_loop value buffer bits out = (b, k, out ++ map symbol vs) /\
    Forall digit vs /\ 0 <= k < 5 /\ k + 5 * zlen vs = bits + 8 * zlen value /\
    0 <= b < 2 ^ k /\ from32 vs * 2 ^ k + b = buffer * 256 ^ zlen value + from_be value.
Proof.
  revert buffer bits out; induction value as [|x value IH]; intros buffer bits out Hb Hlt; cbn [encode_loop].
  - exists [], buffer, bits. cbn [map]. rewrite app_nil_r. change (zlen (@nil Z)) with 0.
    change (zlen (@nil byte)) with 0. change (from32 []) with 0. change (from_be []) with 0.
    split_and!; try done; lia.
  - pose proof (b2z_bound x).
    assert (2 ^ bits <= 2 ^ 4) as Hp by (apply Z.pow_le_mono_r; lia). change (2 ^ 4) with 16 in Hp.
    rewrite push_bits by (change (2 ^ 8) with 256; lia). change (2 ^ 8) with 256.
    edestruct (emit_spec 3 (buffer * 256 + b2z x) (bits + 8) out) as (vs & b & k & E & Hvs & Hk & Hkl & Hbl & Hn).
    { lia. } { lia. }
    { rewrite Z.pow_add_r by lia. change (2 ^ 8) with 256. lia. }
    rewrite E. edestruct (IH b k (out ++ map symbol vs)) as (ws & b' & k' & E' & Hws & Hk' & Hkl' & Hbl' & Hn');
      [lia|lia|].
    exists (vs ++ ws), b', k'. rewrite E', map_app, (assoc_L (++)). split_and!; try done; try lia.
    + by apply Forall_app.
    + change (x :: value) with ([x] ++ value). rewrite !zlen_app. change (zlen [x]) with 1. lia.
    + rewrite from32_app, from_be_cons.
      change (zlen (x :: value)) with (zlen ([x] ++ value)). rewrite zlen_app. change (zlen [x]) with 1.
      rewrite Z.pow_add_r by (unfold zlen; lia). change (256 ^ 1) with 256.
      assert (32 ^ zlen ws * 2 ^ k' = 2 ^ k * 256 ^ zlen value) as Hpow.
      { change 32 with (2 ^ 5). change 256 with (2 ^ 8).
        rewrite <- !Z.pow_mul_r, <- !Z.pow_add_r by (unfold zlen in *; lia). f_equal. lia. }
      replace ((from32 vs * 32 ^ zlen ws + from32 ws) * 2 ^ k' + b')
        with (from32 vs * (32 ^ zlen ws * 2 ^ k') + (from32 ws * 2 ^ k' + b')) by ring.
      rewrite Hpow, Hn'. replace (b2z x) with (from32 vs * 2 ^ k + b - buffer * 256) by lia. ring.
Qed.

(** The digits [crockford_encode] prints: the bytes as a number, padded with
    zero bits to a multiple of five. *)
Lemma crockford_encode_spec value :
  exists vs pad, crockford_encode value = map symbol vs /\ Forall digit vs /\
    0 <= pad < 5 /\ 5 * zlen vs = 8 * zlen value + pad /\
    from32 vs = from_be value * 2 ^ pad.
Proof.
  unfold crockford_encode.
  destruct (encode_loop_spec value 0 0 []) as (vs & b & k & -> & Hvs & Hk & Hkl & Hb & Hn); [lia|simpl; lia|].
  rewrite app_nil_l. destruct (Z.ltb_spec 0 k).
  - assert (2 ^ k * 2 ^ (5 - k) = 32) as Hp.
    { rewrite <- Z.pow_add_r by lia. by replace (k + (5 - k)) with 5 by lia. }
    assert (0 < 2 ^ (5 - k)) by (apply Z.pow_pos_nonneg; lia).
    assert (Z.land (shl16 b (5 - k)) 0x1f = b * 2 ^ (5 - k)) as ->.
    { unfold shl16. rewrite Z.shiftl_mul_pow2 by lia. rewrite Z.mod_small by nia.
      change 0x1f with (2 ^ 5 - 1). rewrite land_ones_mod by lia.
      apply Z.mod_small. change (2 ^ 5) with 32. nia. }
    exists (vs ++ [b * 2 ^ (5 - k)]), (5 - k).
    rewrite map_app, zlen_app, from32_snoc. change (zlen [_]) with 1. split_and!; try done; try lia.
    + apply Forall_app. split; [done|]. constructor; [|done]. unfold digit. nia.
    + rewrite <- Hp. replace (from_be value) with (from32 vs * 2 ^ k + b) by lia. ring.
  - assert (k = 0) as -> by lia. change (2 ^ 0) with 1 in *.
    exists vs, 0. split_and!; try done; lia.
Qed.

Lemma decode_loop_spec vs buffer bits out :
  Forall digit vs -> 0 <= bits < 8 -> 0 <= buffer < 2 ^ bits ->
  exists bs b k, decode_loop (map symbol vs) buffer bits out = Ok (b, k, out ++ bs) /\
    0 <= k < 8 /\ k + 8 * zlen bs = bits + 5 * zlen vs /\ 0 <= b < 2 ^ k /\
    from_be bs * 2 ^ k + b = buffer * 32 ^ zlen vs + from32 vs.
Proof.
  intros Hvs. revert buffer bits out; induction Hvs as [|v vs Hv _ IH]; intros buffer bits out Hb Hlt;
    cbn [map decode_loop].
  - exists [], buffer, bits. rewrite app_nil_r. change (zlen (@nil Z)) with 0.
    change (zlen (@nil byte)) with 0. change (from32 []) with 0. change (from_be []) with 0.
    split_and!; try done; lia.
  - rewrite symbol_value by done. unfold digit in Hv.
    assert (2 ^ bits <= 2 ^ 7) as Hp by (apply Z.pow_le_mono_r; lia). change (2 ^ 7) with 128 in Hp.
    rewrite push_bits by (change (2 ^ 5) with 32; lia). change (2 ^ 5) with 32.
    change (v :: vs) with ([v] ++ vs). rewrite from32_app, zlen_app. change (zlen [v]) with 1.
    change (from32 [v]) with (0 * 32 + v). rewrite Z.pow_add_r by (unfold zlen; lia). change (32 ^ 1) with 32.
    assert (buffer * 32 + v < 2 ^ (bits + 5)) as Hw.
    { rewrite Z.pow_add_r by lia. change (2 ^ 5) with 32. lia. }
    destruct (Z.leb_spec 8 (bits + 5)).
    + set (w := buffer * 32 + v) in *. set (k := bits + 5 - 8) in *.
      assert (0 < 2 ^ k) by (apply Z.pow_pos_nonneg; lia).
      assert (0 <= w / 2 ^ k < 256).
      { split; [apply Z.div_pos; lia|]. apply Z.div_lt_upper_bound; [lia|].
        replace (bits + 5) with (k + 8) in Hw by lia. by rewrite Z.pow_add_r in Hw by lia. }
      rewrite mask16_pow, land_ones_mod, Z.shiftr_div_pow2 by lia.
      pose proof (Z.mod_pos_bound w (2 ^ k)). pose proof (Z.div_mod w (2 ^ k)).
      edestruct (IH (w mod 2 ^ k) k) as (bs & b & k' & E & Hk & Hkl & Hbl & Hn); [lia|lia|].
      exists (z2b (w / 2 ^ k) :: bs), b, k'. rewrite E. split_and!; try done; try lia.
      * by rewrite <- (assoc_L (++)).
      * change (?x :: bs) with ([x] ++ bs). rewrite zlen_app. change (zlen [_]) with 1. lia.
      * rewrite from_be_cons, b2z_z2b_small by lia.
        assert (256 ^ zlen bs * 2 ^ k' = 2 ^ k * 32 ^ zlen vs) as Hpow.
        { change 32 with (2 ^ 5). change 256 with (2 ^ 8).
          rewrite <- !Z.pow_mul_r, <- !Z.pow_add_r by (unfold zlen in *; lia). f_equal. lia. }
        replace ((w / 2 ^ k * 256 ^ zlen bs + from_be bs) * 2 ^ k' + b)
          with (w / 2 ^ k * (256 ^ zlen bs * 2 ^ k') + (from_be bs * 2 ^ k' + b)) by ring.
        rewrite Hpow, Hn. replace (w mod 2 ^ k) with (w - 2 ^ k * (w / 2 ^ k)) by lia. unfold w. ring.
    + edestruct (IH (buffer * 32 + v) (bits + 5) out) as (bs & b & k' & E & Hk & Hkl & Hbl & Hn); [lia|lia|].
      exists bs, b, k'. rewrite E. split_and!; try done; try lia.
Qed.

(** [crockford_decode] inverts [crockford_encode] up to the size cap. *)
Lemma crockford_roundtrip value :
  zlen value < MAX_BINARY_INVITE_BYTES + CHECKSUM_BYTES ->
  crockford_decode (crockford_encode value) = Ok value.
Proof.
  intros Hsz. destruct (crockford_encode_spec value) as (vs & pad & -> & Hvs & Hpad & Hlen & Hn).
  unfold crockford_decode. unfold MAX_BINARY_INVITE_BYTES, CHECKSUM_BYTES in *.
  assert (zlen (map symbol vs) = zlen vs) as -> by (unfold zlen; by rewrite length_map).
  assert (0 <= zlen value) by apply zlen_nonneg.
  unfold sat_mul64. rewrite Z.min_l by (unfold u64_max; lia).
  rewrite (proj2 (Z.ltb_ge _ _)).
  2: { apply Z.lt_succ_r, Z.div_lt_upper_bound; lia. }
  destruct (decode_loop_spec vs 0 0 []) as (bs & b & k & -> & Hk & Hkl & Hb & Hd); [done|lia|simpl; lia|].
  assert (k = pad /\ zlen bs = zlen value) as [-> Hz] by lia.
  assert (0 < 2 ^ pad) by (apply Z.pow_pos_nonneg; lia).
  rewrite Hn in Hd. assert (from_be bs = from_be value) as Hv by nia. assert (b = 0) as -> by nia.
  rewrite andb_false_r. rewrite app_nil_l. f_equal. apply from_be_inj; [unfold zlen in Hz; lia|done].
Qed.

(** The one size above the cap: a digit string for the largest checksummed
    invite is refused. *)
Lemma crockford_too_large value :
  zlen value = MAX_BINARY_INVITE_BYTES + CHECKSUM_BYTES ->
  crockford_decode (crockford_encode value) = Err TooLarge.
Proof.
  intros Hsz. destruct (crockford_encode_spec value) as (vs & pad & -> & _ & Hpad & Hlen & _).
  unfold crockford_decode. unfold MAX_BINARY_INVITE_BYTES, CHECKSUM_BYTES in *.
  assert (zlen (map symbol vs) = zlen vs) as -> by (unfold zlen; by rewrite length_map).
  unfold sat_mul64. rewrite Z.min_l by (unfold u64_max; lia).
  rewrite (proj2 (Z.ltb_lt _ _)); [done|].
  apply Z.lt_le_trans with 1029; [lia|]. apply Z.div_le_lower_bound; lia.
Qed.

(** * The manual form *)

Definition no_hyphen (s : list byte) : Prop := Forall (fun b => b <> hyphen) s.

Lemma symbol_alphanumeric v : digit v -> is_ascii_alphanumeric (symbol v) = true /\ symbol v <> hyphen.
Proof.
  intros Hv.
  assert (forallb (fun v => is_ascii_alphanumeric (symbol v) && negb (bool_decide (symbol v = hyphen)))
            (seqZ 0 32) = true) as HF by (vm_compute; reflexivity).
  rewrite forallb_Forall, Forall_forall in HF.
  specialize (HF v ltac:(apply elem_of_seqZ; unfold digit in Hv; lia)). by bool_prop.
Qed.

Lemma crockford_encode_symbols value :
  Forall (fun b => is_ascii_alphanumeric b = true /\ b <> hyphen) (crockford_encode value).
Proof.
  destruct (crockford_encode_spec value) as (vs & pad & -> & Hvs & _).
  apply Forall_fmap. eapply Forall_impl; [exact Hvs|]. apply symbol_alphanumeric.
Qed.

Lemma filter_group i s :
  no_hyphen s -> List.filter (fun b => negb (bool_decide (b = hyphen))) (group_from i s) = s.
Proof.
  intros Hs. revert i; induction Hs as [|c s Hc _ IH]; intros i; [done|]. cbn [group_from].
  rewrite List.filter_app. cbn [List.filter]. rewrite bool_decide_eq_false_2 by done. cbn [negb].
  rewrite IH. by case_match.
Qed.

Lemma forallb_group p i s :
  p hyphen = true -> forallb p s = true -> forallb p (group_from i s) = true.
Proof.
  intros Hh. revert i; induction s as [|c s IH]; intros i Hs; [done|]. simpl in Hs. bool_prop.
  cbn [group_from]. rewrite forallb_app. cbn [forallb]. rewrite IH by done.
  match goal with Hx : p c = true |- _ => rewrite Hx end. case_match; simpl; by rewrite ?Hh.
Qed.

Lemma last_group i s : s <> [] -> last (group_from i s) = last s.
Proof.
  revert i; induction s as [|c s IH]; intros i Hs; [done|]. cbn [group_from].
  rewrite last_app, !last_cons. destruct s as [|c' s]; [done|]. rewrite IH by done.
  destruct (last (c' :: s)) eqn:E; [done|]. by apply last_None in E.
Qed.

Lemma contains_double_cons b c s :
  c <> b -> contains_double b (c :: s) = contains_double b s.
Proof. intros Hc. destruct s; [done|]. simpl. by rewrite bool_decide_eq_false_2. Qed.

Lemma contains_double_cons2 b c d s :
  contains_double b (c :: d :: s) =
    (bool_decide (c = b) && bool_decide (d = b)) || contains_double b (d :: s).
Proof. done. Qed.

Lemma contains_double_group i s : no_hyphen s -> contains_double hyphen (group_from i s) = false.
Proof.
  intros Hs. revert i; induction Hs as [|c s Hc _ IH]; intros i; [done|]. cbn [group_from].
  case_match; cbn [app].
  - rewrite contains_double_cons2, (bool_decide_eq_false_2 (c = hyphen)) by done.
    rewrite andb_false_r. cbn [orb]. by rewrite contains_double_cons.
  - by rewrite contains_double_cons.
Qed.

Lemma fold_difference acc l r :
  0 <= acc -> length l = length r ->
  fold_left (fun acc '(a, b) => Z.lor acc (Z.lxor (b2z a) (b2z b))) (zip l r) acc = 0 <->
  acc = 0 /\ l = r.
Proof.
  revert acc r; induction l as [|a l IH]; intros acc [|b r] Ha Hl; simplify_eq/=; [naive_solver|].
  pose proof (b2z_bound a). pose proof (b2z_bound b).
  assert (0 <= Z.lxor (b2z a) (b2z b)) by (apply Z.lxor_nonneg; lia).
  rewrite IH by (done || (apply Z.lor_nonneg; lia)).
  rewrite Z.lor_eq_0_iff, Z.lxor_eq_0_iff. split.
  - intros [[? Hab%b2z_inj] ?]. by subst.
  - intros [? [= -> ->]]. done.
Qed.

(** The constant-time comparison is equality. *)
Lemma difference_zero l r : length l = length r -> difference l r = 0 <-> l = r.
Proof. intros Hl. unfold difference. rewrite fold_difference by (done || lia). naive_solver. Qed.

Section manual.
Context `{Ed25519, Hashes, Encodings, UrlParser, !HashesLaws}.

Lemma checksum_length form v : length (checksum form v) = 4%nat.
Proof. unfold checksum. rewrite length_take, sha256_length. done. Qed.

Lemma get_from_app prefix body :
  Forall (fun b => is_ascii b = true) body ->
  get_from (prefix ++ body) (length prefix) = Some body.
Proof.
  intros Hb. unfold get_from, is_char_boundary.
  rewrite lookup_app_r, Nat.sub_diag by lia.
  destruct Hb as [|b body Hb Hbody]; simpl.
  - rewrite app_nil_r, Nat.eqb_refl, drop_all. done.
  - unfold is_ascii in Hb. bool_prop. rewrite (proj2 (Z.leb_gt _ _)) by lia. simpl.
    by rewrite drop_app_length.
Qed.

Lemma decode_manual_encode form binary :
  binary <> [] -> zlen binary < MAX_BINARY_INVITE_BYTES ->
  decode_manual form (encode_manual form binary) = Ok binary.
Proof.
  intros Hne Hsz. unfold decode_manual, encode_manual.
  pose proof (crockford_encode_symbols (binary ++ checksum form binary)) as Hsym.
  set (enc := crockford_encode (binary ++ checksum form binary)) in *.
  assert (zlen (binary ++ checksum form binary) = zlen binary + 4) as Hlen.
  { rewrite zlen_app. unfold zlen at 2. by rewrite checksum_length. }
  assert (0 < zlen binary) as Hpos by (destruct binary; [done|unfold zlen; simpl; lia]).
  assert (enc <> []) as Henc.
  { intros E0. destruct (crockford_encode_spec (binary ++ checksum form binary)) as (vs & pad & E1 & _ & ? & Hv & _).
    unfold enc in E0. rewrite E0 in E1. destruct vs; [|done]. rewrite zlen_nil in Hv. lia. }
  assert (no_hyphen enc) as Hh by (eapply Forall_impl; [exact Hsym|]; by intros ? []).
  assert (forallb (fun b => is_ascii_alphanumeric b || bool_decide (b = hyphen)) (group_from 0 enc) = true) as Hal.
  { apply forallb_group; [done|]. apply forallb_Forall. eapply Forall_impl; [exact Hsym|].
    cbn beta. by intros b [-> _]. }
  rewrite get_from_app.
  2: { apply forallb_Forall. revert Hal. apply forallb_impl. intros b Hb.
       apply orb_true_iff in Hb as [Hb|Hb]; [by apply alphanumeric_ascii|bool_prop; by subst]. }
  cbn [ok_or]. rewrite Hal. rewrite contains_double_group by done.
  unfold ends_with_byte. rewrite last_group by done.
  destruct (last enc) as [z|] eqn:Hz; [|by apply last_None in Hz].
  rewrite (bool_decide_eq_false_2 (z = hyphen)).
  2: { apply last_Some in Hz as [l' ->]. unfold no_hyphen in Hh. apply Forall_app in Hh as [_ Hh].
       by inversion Hh. }
  rewrite filter_group by done.
  rewrite bool_decide_eq_false_2 by (destruct enc; done).
  assert (starts_with hyphen (group_from 0 enc) = false) as ->.
  { destruct enc as [|c enc']; [done|]. inversion Hh; subst. simpl. by rewrite bool_decide_eq_false_2. }
  cbn [orb negb]. unfold enc. rewrite crockford_roundtrip by (rewrite Hlen; unfold MAX_BINARY_INVITE_BYTES, CHECKSUM_BYTES in *; lia).
  rewrite Hlen. rewrite (proj2 (Z.leb_gt _ _)), (proj2 (Z.ltb_ge _ _)) by (unfold MAX_BINARY_INVITE_BYTES, CHECKSUM_BYTES in *; lia).
  cbn [orb].
  replace (length (binary ++ checksum form binary) - Z.to_nat CHECKSUM_BYTES)%nat with (length binary).
  2: { rewrite length_app, checksum_length. unfold CHECKSUM_BYTES. lia. }
  rewrite take_app_length, drop_app_length.
  rewrite (proj2 (difference_zero _ _ eq_refl)) by done. done.
Qed.

(** What acceptance of the manual form establishes. *)
Lemma decode_manual_inv form input b :
  decode_manual form input = Ok b ->
  1 <= zlen b <= MAX_BINARY_INVITE_BYTES /\
  exists body, get_from input (length (manual_prefix form)) = Some body /\
    crockford_decode (List.filter (fun b => negb (bool_decide (b = hyphen))) body)
      = Ok (b ++ checksum form b).
Proof.
  unfold decode_manual, ok_or. intros HD.
  destruct (get_from _ _) as [body|] eqn:Hg; [|done]. read_step HD. read_step HD. read_step HD.
  destruct (negb _) eqn:Hd in HD; [done|]. injection HD as <-. bool_prop.
  rename a into dec. unfold CHECKSUM_BYTES, MAX_BINARY_INVITE_BYTES, zlen in *.
  set (n := (length dec - Z.to_nat 4)%nat) in *.
  apply difference_zero in Hd; [|rewrite checksum_length, length_drop; lia].
  split; [rewrite length_take; lia|].
  exists body. split; [done|]. by rewrite <- Hd, take_drop.
Qed.

(** Reading depends only on the Crockford value of each symbol. *)
Lemma decode_loop_values l k buffer bits out :
  Forall2 (fun a b => crockford_value a = crockford_value b) l k ->
  decode_loop l buffer bits out = decode_loop k buffer bits out.
Proof.
  intros Hlk. revert buffer bits out; induction Hlk as [|a b l k Hab _ IH]; intros; [done|].
  cbn [decode_loop]. rewrite Hab. repeat case_match; done.
Qed.
End manual.

(** * Text forms of a signed invite *)

Section text_forms.
Context `{Ed25519, Hashes, Encodings, UrlParser, !EncodingsLaws}.

Lemma base64url_nonempty b : b <> [] -> base64url_encode b <> [].
Proof.
  intros Hb E. pose proof (base64url_length b) as Hl. rewrite E in Hl.
  assert (1 <= zlen b) by (destruct b; [done|unfold zlen; simpl; lia]).
  assert (2 <= (zlen b * 8 + 5) / 6) by (apply Z.div_le_lower_bound; lia).
  rewrite zlen_nil in Hl. lia.
Qed.

Lemma strip_prefix_app prefix s : strip_prefix_or prefix (prefix ++ s) = s.
Proof.
  unfold strip_prefix_or. rewrite take_app_length, bool_decide_eq_true_2 by done.
  by rewrite drop_app_length.
Qed.

Lemma decode_base64url_body prefix input b :
  strip_prefix_or prefix input = base64url_encode b ->
  b <> [] -> zlen b <= MAX_BINARY_INVITE_BYTES ->
  decode_base64url prefix input = Ok b.
Proof.
  intros E Hb Hsz. unfold decode_base64url. rewrite E.
  rewrite bool_decide_eq_false_2 by by apply base64url_nonempty.
  rewrite base64url_alphabet, base64url_decode_encode. cbn [orb negb ok_or].
  rewrite (proj2 (Z.leb_le _ _)), bool_decide_eq_true_2 by done. done.
Qed.

(** Accepted text is exactly the canonical encoding, with or without the
    prefix. *)
Lemma decode_base64url_inv prefix input b :
  decode_base64url prefix input = Ok b ->
  strip_prefix_or prefix input = base64url_encode b /\ zlen b <= MAX_BINARY_INVITE_BYTES.
Proof.
  unfold decode_base64url, ok_or. intros HD. read_step HD.
  destruct (base64url_decode _) as [b'|]; [|done]. repeat read_step HD. injection HD as ->.
  bool_prop. done.
Qed.

Context `{!InviteProfile}.

Lemma canonical_binary_nonempty s b : canonical_binary s = Ok b -> b <> [].
Proof.
  intros (_ & _ & ->)%canonical_binary_inv. intros E. apply (f_equal (@length byte)) in E.
  rewrite length_app in E. change (length (encode_array SIGNED_FIELDS)) with 1%nat in E. simpl in E. lia.
Qed.

Lemma from_text_base64 s b input now :
  canonical_binary s = Ok b -> decode_signed b now = Ok s ->
  strip_prefix_or TEXT_PREFIX input = base64url_encode b ->
  input <> [] -> zlen input <= MAX_ENCODED_INVITE_TEXT_BYTES ->
  match MANUAL_TEXT with Some f => has_prefix input (manual_prefix f) = false | None => True end ->
  from_text input now = Ok s.
Proof.
  intros Hb Hd Hi Hne Hsz Hm. unfold from_text.
  rewrite bool_decide_eq_false_2, (proj2 (Z.ltb_ge _ _)) by done. cbn [orb].
  assert (decode_base64url TEXT_PREFIX input = Ok b) as Hx.
  { apply decode_base64url_body; [done|by eapply canonical_binary_nonempty|].
    by apply canonical_binary_inv in Hb as (_ & ? & _). }
  destruct MANUAL_TEXT as [f|]; rewrite ?Hm, Hx; done.
Qed.

Lemma has_prefix_app prefix s :
  Forall (fun b => is_ascii b = true) s -> has_prefix (prefix ++ s) prefix = true.
Proof.
  intros Hs. unfold has_prefix, get_to, is_char_boundary.
  rewrite lookup_app_r, Nat.sub_diag by lia.
  assert (take (length prefix) (prefix ++ s) = prefix) as -> by apply take_app_length.
  destruct Hs as [|b s Hb _]; simpl.
  - rewrite app_nil_r, Nat.eqb_refl. unfold eq_ignore_ascii_case. by rewrite bool_decide_eq_true_2.
  - unfold is_ascii in Hb. bool_prop. rewrite (proj2 (Z.leb_gt _ _)) by lia. simpl.
    unfold eq_ignore_ascii_case. by rewrite bool_decide_eq_true_2.
Qed.

Lemma from_text_manual `{!HashesLaws} s b form now :
  MANUAL_TEXT = Some form -> canonical_binary s = Ok b -> zlen b < MAX_BINARY_INVITE_BYTES ->
  decode_signed b now = Ok s -> zlen (encode_manual form b) <= MAX_ENCODED_INVITE_TEXT_BYTES ->
  from_text (encode_manual form b) now = Ok s.
Proof.
  intros Hf Hb Hlt Hd Hsz. unfold from_text.
  assert (b <> []) as Hne by by eapply canonical_binary_nonempty.
  pose proof (decode_manual_encode form b Hne Hlt) as Hm.
  rewrite (proj2 (Z.ltb_ge _ _)) by done.
  rewrite bool_decide_eq_false_2.
  2: { intros E. rewrite E in Hm. unfold decode_manual, get_from, is_char_boundary in Hm.
       rewrite lookup_nil in Hm. destruct (_ =? _)%nat; [|done]. by rewrite drop_nil in Hm. }
  cbn [orb]. rewrite Hf. unfold encode_manual at 1. rewrite has_prefix_app.
  - by rewrite Hm.
  - apply forallb_Forall. apply forallb_group; [done|].
    pose proof (crockford_encode_symbols (b ++ checksum form b)) as Hs.
    apply forallb_Forall. eapply Forall_impl; [exact Hs|]. cbn beta.
    intros x [Hx _]. by apply alphanumeric_ascii.
Qed.
End text_forms.

(** * Tolerance of the manual form *)

Section tolerant.
Context `{Ed25519, Hashes, Encodings, UrlParser}.

(** Two symbols a reader may confuse: the same byte, or letters and digits
    with one Crockford value. *)
Definition same_symbol (a b : byte) : Prop :=
  a = b \/ is_ascii_alphanumeric a = true /\ is_ascii_alphanumeric b = true /\
           crockford_value a = crockford_value b.

Lemma alphanumeric_not_hyphen b : is_ascii_alphanumeric b = true -> b <> hyphen.
Proof. intros Hb ->. by vm_compute in Hb. Qed.

Lemma same_symbol_hyphen a b : same_symbol a b -> bool_decide (a = hyphen) = bool_decide (b = hyphen).
Proof.
  intros [->|(Ha & Hb & _)]; [done|].
  by rewrite !bool_decide_eq_false_2 by by apply alphanumeric_not_hyphen.
Qed.

Lemma same_filter l k :
  Forall2 same_symbol l k ->
  Forall2 (fun a b => crockford_value a = crockford_value b)
    (List.filter (fun b => negb (bool_decide (b = hyphen))) l)
    (List.filter (fun b => negb (bool_decide (b = hyphen))) k).
Proof.
  induction 1 as [|a b l k Hab _ IH]; [constructor|]. simpl.
  rewrite (same_symbol_hyphen a b Hab). destruct (negb _); [|done].
  constructor; [|done]. by destruct Hab as [->|(_ & _ & ?)].
Qed.

Lemma same_contains_double l k :
  Forall2 same_symbol l k -> contains_double hyphen l = contains_double hyphen k.
Proof.
  induction 1 as [|a b l k Hab Hlk IH]; [done|]. destruct Hlk as [|c d l k Hcd Hlk]; [done|].
  rewrite !contains_double_cons2, IH, (same_symbol_hyphen a b), (same_symbol_hyphen c d) by done. done.
Qed.

Lemma same_class l k :
  Forall2 same_symbol l k ->
  forallb (fun b => is_ascii_alphanumeric b || bool_decide (b = hyphen)) l =
  forallb (fun b => is_ascii_alphanumeric b || bool_decide (b = hyphen)) k.
Proof.
  induction 1 as [|a b l k Hab _ IH]; [done|]. simpl. rewrite IH, (same_symbol_hyphen a b) by done.
  destruct Hab as [->|(-> & -> & _)]; done.
Qed.

Lemma same_last l k :
  Forall2 same_symbol l k -> ends_with_byte hyphen l = ends_with_byte hyphen k.
Proof.
  intros Hlk. unfold ends_with_byte. destruct (decide (l = [])) as [->|Hl]; [by inversion Hlk|].
  destruct l as [|a l _] using rev_ind; [done|].
  apply Forall2_app_inv_l in Hlk as (k1 & k2 & _ & Ha & ->).
  inversion Ha as [|? b ? ? Hab Hn]; subst. inversion Hn; subst.
  rewrite !last_snoc. by apply same_symbol_hyphen.
Qed.

Lemma same_boundary p l k :
  Forall2 same_symbol l k -> is_char_boundary (p ++ l) (length p) = is_char_boundary (p ++ k) (length p).
Proof.
  intros Hlk. unfold is_char_boundary. rewrite !lookup_app_r, Nat.sub_diag by lia.
  destruct Hlk as [|a b l k Hab _]; simpl; [done|].
  destruct Hab as [->|(Ha%alphanumeric_ascii & Hb%alphanumeric_ascii & _)]; [done|].
  unfold is_ascii in *. bool_prop. by rewrite !(proj2 (Z.leb_gt _ _)) by lia.
Qed.

Lemma decode_manual_tolerant form body body' :
  Forall2 same_symbol body body' ->
  decode_manual form (manual_prefix form ++ body) = decode_manual form (manual_prefix form ++ body').
Proof.
  intros Hb. unfold decode_manual, get_from. rewrite (same_boundary _ body body'), !drop_app_length by done.
  destruct (is_char_boundary _ _); [|done]. cbn [ok_or].
  rewrite (same_contains_double body body'), (same_class body body'), (same_last body body') by done.
  assert (starts_with hyphen body = starts_with hyphen body') as ->.
  { destruct Hb as [|a b l k Hab _]; [done|]. by apply same_symbol_hyphen. }
  assert (bool_decide (body = []) = bool_decide (body' = [])) as -> by by destruct Hb.
  destruct (_ || _); [done|].
  apply same_filter in Hb. unfold crockford_decode, zlen.
  rewrite (Forall2_length _ _ _ Hb), (decode_loop_values _ _ _ _ _ Hb). done.
Qed.
End tolerant.
