(* ===== verification/Invite.v ===== *)
(** Model of crates/ket-invite/src (profile.rs, enrollment.rs): Ket's profile
    of the shared invite format, and node-authenticated enrollment. *)

From Stdlib Require Import ZArith Lia.
From stdpp Require Import strings.
From S2P Require Import Prelude Utf8 Str Vendor Cbor Locator Capsule Text.

Definition KET_APPLICATION_ID : list byte := str "org.ket.access".
Definition CONTROL_API_VERSION : Z := 1.
Definition SEALED_CONTROL_API_VERSION : Z := 2.
Definition ACCESS_CODE_BYTES : Z := 32.
Definition INVITE_TEXT_PREFIX : list byte := str "ket:invite:".
Definition NODE_FINGERPRINT_DOMAIN : list byte := str "KET-NODE-FINGERPRINT-V1".
Definition CAPABILITY_ACCESS_GRANT : Z := 1.

(** [AccessCode]: the string inside. *)
Record AccessCode := mkAccessCode { expose : list byte }.

Global Instance AccessCode_eq_dec : EqDecision AccessCode.
Proof. solve_decision. Defined.

(** [AccessCode::new]. *)
Definition access_code_new (code : list byte) : result CapsuleError AccessCode :=
  if negb (zlen code =? ACCESS_CODE_BYTES) || negb (forallb is_ascii_alphanumeric code)
  then Err Invalid else Ok (mkAccessCode code).

(** [Capability for AccessCode]. *)
Definition access_code_encode (c : AccessCode) : list byte := encode_text (expose c).
Definition access_code_decode (d : Decoder) : dec_result AccessCode :=
  let* (s, d) := text d ACCESS_CODE_BYTES in
  let* c := access_code_new s in Ok (c, d).

Definition access_code_ok (c : AccessCode) : Prop := access_code_new (expose c) = Ok c.

Lemma access_code_new_inv s c : access_code_new s = Ok c -> expose c = s /\ access_code_ok c.
Proof.
  unfold access_code_ok, access_code_new. intros HN.
  destruct (_ || _) eqn:E; [done|]. injection HN as <-. simpl. by rewrite E.
Qed.

Global Instance access_code_codec : Codec access_code_ok access_code_encode access_code_decode.
Proof.
  split.
  - intros pre c r Hc Hsz. unfold access_code_decode, access_code_encode in *.
    rewrite text_at; [by rewrite Hc| |done].
    unfold access_code_ok, access_code_new in Hc. destruct (_ || _) eqn:E; [done|]. bool_prop.
    split; [lia|]. apply valid_utf8_ascii. by eapply forallb_impl; [apply alphanumeric_ascii|].
  - intros pre s c d HD. unfold access_code_decode in HD. repeat read_step HD. injection HD as <- <-.
    apply text_inv in R as (_ & r & -> & ->). apply access_code_new_inv in R0 as [<- ?].
    split; [done|]. by exists r.
Qed.

Global Instance access_code_capability : Capability AccessCode := {|
  cap_ok := access_code_ok;
  cap_encode := access_code_encode;
  cap_decode := access_code_decode;
|}.

(** [InviteProfile for KetInvite]. *)
Definition KetInvite : InviteProfile := {|
  APPLICATION_ID := KET_APPLICATION_ID;
  SIGNATURE_DOMAIN := str "KET-INVITE-CAPSULE-V1";
  CAPABILITY_TYPE := CAPABILITY_ACCESS_GRANT;
  LOCATORS := CLEARNET;
  TEXT_PREFIX := INVITE_TEXT_PREFIX;
  MANUAL_TEXT := None;
  CapabilityT := AccessCode;
  capability_impl := access_code_capability;
|}.
Global Existing Instance KetInvite.

Global Instance KetInvite_laws : InviteProfileLaws KetInvite.
Proof. split; [by vm_compute|by vm_compute|by vm_compute]. Qed.

(** * Enrollment (enrollment.rs) *)

Definition ENROLLMENT_NONCE_BYTES : Z := 32.
Definition ENROLLMENT_SIGNATURE_DOMAIN : list byte := str "KET-ENROLLMENT-V1".
Definition ENROLLMENT_SIGNATURE_BYTES : Z := 64.

(** [signature_input]: [domain || nonce || u32be(len(body)) || body]. *)
Definition enrollment_signature_input (nonce body : list byte) : list byte :=
  let len := if zlen body <=? u32_max then zlen body else u32_max in
  ENROLLMENT_SIGNATURE_DOMAIN ++ nonce ++ to_be 4 len ++ body.

Section ket.
Context `{Ed25519, Hashes, Encodings, UrlParser}.

(** [KetInvite::capsule]. *)
Definition ket_capsule (key : list byte) (ls : list Locator) (access_code : list byte)
    (expires : option Z) : result CapsuleError InviteCapsule :=
  let* code := access_code_new access_code in
  Capsule.new key ls code CONTROL_API_VERSION SEALED_CONTROL_API_VERSION expires.

(** [KetInvite::locator_from_public_url]. *)
Definition ket_locator_from_public_url (value : list byte) : result CapsuleError Locator :=
  let* locator := locator_from_public_url value in
  require accepts CLEARNET locator else UnsupportedLocator in Ok locator.

(** [encode_invite_text] and [decode_invite_text]. *)
Definition encode_invite_text (s : SignedInvite) : result CapsuleError (list byte) := to_text s.
Definition decode_invite_text (input : list byte) (now : option Z) : result CapsuleError SignedInvite :=
  from_text input now.

(** [node_fingerprint]. *)
Definition node_fingerprint (key : list byte) : list byte := key_fingerprint NODE_FINGERPRINT_DOMAIN key.

(** [decode_exact::<N>] of enrollment.rs. *)
Definition enrollment_decode_exact (n : Z) (value : list byte) : result CapsuleError (list byte) :=
  let* decoded := ok_or (base64url_decode value) Invalid in
  require zlen decoded =? n else Invalid in
  require bool_decide (base64url_encode decoded = value) else Invalid in
  Ok decoded.

(** [EnrollmentNonce::header_value] and [from_header_value]. *)
Definition header_value (nonce : list byte) : list byte := base64url_encode nonce.
Definition from_header_value (value : list byte) : result CapsuleError (list byte) :=
  enrollment_decode_exact ENROLLMENT_NONCE_BYTES value.

(** [EnrollmentProof::sign] and [verify]. *)
Definition proof_sign (seed nonce body : list byte) : list byte :=
  base64url_encode (sk_sign seed (enrollment_signature_input nonce body)).

Definition proof_verify (key nonce body : list byte) (header : option (list byte)) : result CapsuleError unit :=
  let* signature :=
    ok_or (match header with
           | Some v => match enrollment_decode_exact ENROLLMENT_SIGNATURE_BYTES v with
                       | Ok s => Some s | Err _ => None end
           | None => None
           end) NodeIdentityMismatch in
  require verify_key key (enrollment_signature_input nonce body) signature else NodeIdentityMismatch in
  Ok tt.
End ket.
