(* ===== verification/InviteProps.v ===== *)
(** Properties of the invite components: canonical payloads, signed invites
    and their text forms, locator policy, and enrollment proofs. *)

From Stdlib Require Import ZArith Lia.
From stdpp Require Import strings.
From S2P Require Import Prelude Utf8 Str Vendor Instances Cbor Locator Capsule Text Invite.

(** * A concrete invite, for the witnesses *)

Definition demo_seed : list byte := str "node-seed".
Definition demo_key : list byte := sk_verifying_key demo_seed.
Definition demo_code : list byte := str "abcdefghij0123456789ABCDEFGHIJ01".
Definition demo_locators : list Locator :=
  [Https (str "vpn.ket-node.net") 443; LoopbackDevelopment Localhost 8080].
Definition demo_capsule : InviteCapsule :=
  mkCapsule demo_key demo_locators (mkAccessCode demo_code) 1 2 (Some 2000).

Lemma demo_capsule_ok : capsule_ok demo_capsule.
Proof.
  unfold capsule_ok. split_and!; try (vm_compute; done); try (vm_compute; reflexivity).
  repeat constructor; vm_compute; done.
Qed.

Definition demo_signed : SignedInvite :=
  match sign demo_capsule demo_seed with Ok s => s | Err _ => mkSigned demo_capsule [] end.

Section props.
Context `{Ed25519, Hashes, Encodings, UrlParser, !InviteProfile}.

(** a payload is accepted as capsule [c] exactly when it is the canonical
    payload of the valid capsule [c]: every valid capsule decodes from its
    encoding, and nothing else decodes to it. *)
Theorem payload_canonical `{!InviteProfileLaws _} p c :
  zlen p <= usize_max ->
  decode_payload p = Ok c <-> capsule_ok c /\ canonical_payload c = Ok p.
Proof.
  intros Hsz. split.
  - intros [Hc <-]%decode_payload_sound. split; [done|]. by apply canonical_payload_ok.
  - intros [Hc Hp]. rewrite canonical_payload_ok in Hp by done. injection Hp as <-.
    by apply decode_payload_complete.
Qed.

(** The re-encoding check at the end of [decode_payload] never refuses
    anything: the field-by-field decoder already accepts only canonical
    bytes, so it agrees with [decode_payload] on every structurally valid
    capsule. *)
Theorem payload_check_redundant p c :
  decode_fields p = Ok c -> validate c None = Ok tt -> decode_payload p = Ok c.
Proof.
  intros Hf Hv. unfold decode_payload, canonical_payload. rewrite Hf, Hv.
  destruct (decode_fields_sound p c Hf) as [-> _]. by rewrite bool_decide_eq_true_2.
Qed.

(** Every invite the node can sign and encode is decoded back to exactly
    itself while it is unexpired. *)
Theorem signed_roundtrip `{!InviteProfileLaws _, !Ed25519Laws} c seed s b now :
  capsule_ok c -> validate c now = Ok tt -> sign c seed = Ok s -> canonical_binary s = Ok b ->
  decode_signed b now = Ok s.
Proof.
  intros Hc Hn Hs Hb. pose proof (sign_verifies c seed s now Hc Hs Hn) as Hver.
  unfold sign in Hs. repeat read_step Hs. injection Hs as <-.
  apply decode_signed_complete; try done. apply sk_sign_length.
Qed.

(** C14: an accepted binary invite is within the size limit, its signature
    verifies under the key it names over the domain-separated canonical
    payload, it has not expired, and it is the only binary form of the
    decoded value. *)
Theorem signed_sound b now s :
  decode_signed b (Some now) = Ok s ->
  zlen b <= MAX_BINARY_INVITE_BYTES /\
  vk_verify_strict (node_public_key (capsule s))
    (signature_input SIGNATURE_DOMAIN APPLICATION_ID (payload_bytes (capsule s))) (signature s) = true /\
  is_expired_at (capsule s) now = false /\
  (forall b' now', decode_signed b' now' = Ok s -> b' = b).
Proof.
  intros (Hc & _ & Hver & Hbin)%decode_signed_sound.
  pose proof (canonical_binary_inv _ _ Hbin) as (_ & Hsz & _).
  apply verify_inv in Hver as (Hv & Hn & [_ Hk]%andb_true_iff).
  rewrite validate_some, Hv in Hn. split_and!; [done|done|by destruct (is_expired_at _ _)|].
  intros b' now' (_ & _ & _ & Hbin')%decode_signed_sound. congruence.
Qed.

(** Verification reports structure, then the signature, then expiry: a
    forged invite is reported as forged whether or not it has expired, and
    only an authentic one as expired. *)
Theorem verify_order s now :
  verify s (Some now) =
    match validate (capsule s) None with
    | Err e => Err e
    | Ok _ =>
      if verify_key (node_public_key (capsule s))
           (signature_input SIGNATURE_DOMAIN APPLICATION_ID (payload_bytes (capsule s))) (signature s)
      then if is_expired_at (capsule s) now then Err Expired else Ok tt
      else Err InvalidSignature
    end.
Proof.
  destruct (validate (capsule s) None) as [[]|e] eqn:Hv.
  - rewrite verify_spec, validate_some, Hv by done. done.
  - unfold verify, capsule_signature_input, canonical_payload. by rewrite Hv.
Qed.
End props.

Definition demo_binary : list byte :=
  match canonical_binary demo_signed with Ok b => b | Err _ => [] end.

Lemma demo_decodes : decode_signed demo_binary (Some 1999) = Ok demo_signed.
Proof. by_compute. Qed.

Lemma payload_canonical_witness :
  decode_payload (payload_bytes demo_capsule) = Ok demo_capsule.
Proof.
  apply payload_canonical; [vm_compute; discriminate|].
  split; [apply demo_capsule_ok | by_compute].
Defined.

Lemma payload_check_redundant_witness :
  decode_payload (payload_bytes demo_capsule) = Ok demo_capsule.
Proof. apply payload_check_redundant; by_compute. Defined.

Lemma signed_roundtrip_witness : decode_signed demo_binary (Some 1999) = Ok demo_signed.
Proof.
  apply (signed_roundtrip demo_capsule demo_seed); [apply demo_capsule_ok | by_compute..].
Defined.

Lemma signed_sound_witness : zlen demo_binary <= MAX_BINARY_INVITE_BYTES.
Proof. exact (proj1 (signed_sound _ _ _ demo_decodes)). Defined.

(** * Text forms, locators and enrollment *)

Section text_props.
Context `{Ed25519, Hashes, Encodings, UrlParser, !Ed25519Laws, !EncodingsLaws}.

(** The Base64URL text of an invite never holds the prefix's colon. *)
Lemma strip_prefix_base64 b :
  strip_prefix_or INVITE_TEXT_PREFIX (base64url_encode b) = base64url_encode b.
Proof.
  unfold strip_prefix_or. case_bool_decide as E; [|done]. exfalso.
  pose proof (base64url_alphabet b) as Ha. rewrite forallb_Forall, Forall_forall in Ha.
  assert (z2b 58 ∈ base64url_encode b) as Hin.
  { eapply list.subseteq_take. rewrite E. apply list_elem_of_lookup. by exists 3%nat. }
  by apply Ha in Hin.
Qed.

(** What the node issues, the app reads; stated once for the text and its
    composition with the issuer. *)
Lemma issued_text_decodes key ls access_code expires c seed s t now :
  length key = 32%nat -> from_bytes key = Ok key -> Forall locator_sized ls ->
  match expires with Some e => in_u64 e | None => True end ->
  ket_capsule key ls access_code expires = Ok c -> sign c seed = Ok s ->
  encode_invite_text s = Ok t ->
  (forall n, now = Some n -> is_expired_at c n = false) ->
  decode_invite_text t now = Ok s /\
  decode_invite_text (drop (length INVITE_TEXT_PREFIX) t) now = Ok s.
Proof.
  intros Hk Hkb Hls He Hc Hs Ht Hexp.
  unfold ket_capsule, Capsule.new in Hc. repeat read_step Hc. injection Hc as <-. unit_vars.
  apply access_code_new_inv in R as [_ Hcode].
  set (c := mkCapsule key ls _ _ _ _) in *.
  assert (capsule_ok c) as Hok by (unfold capsule_ok; split_and!; done).
  assert (validate c now = Ok tt) as Hv.
  { destruct now as [n|]; [|done]. rewrite validate_some, R0. by rewrite (Hexp n). }
  unfold encode_invite_text, to_text in Ht. read_step Ht. injection Ht as <-. rename a0 into b, a into code0.
  assert (decode_signed b now = Ok s) as Hd.
  { pose proof (sign_verifies c seed s now Hok Hs Hv) as Hver.
    unfold sign in Hs. repeat read_step Hs. injection Hs as <-.
    apply decode_signed_complete; try done. apply sk_sign_length. }
  assert (zlen (base64url_encode b) <= 1366) as Hlen.
  { rewrite base64url_length. apply canonical_binary_inv in R as (_ & Hb & _).
    unfold MAX_BINARY_INVITE_BYTES in Hb. apply Z.lt_succ_r, Z.div_lt_upper_bound; lia. }
  pose proof (base64url_nonempty b (canonical_binary_nonempty _ _ R)) as Hne.
  unfold encode_base64url, decode_invite_text. change TEXT_PREFIX with INVITE_TEXT_PREFIX.
  rewrite drop_app_length. split; (eapply from_text_base64; [done..| | | |done]).
  - apply strip_prefix_app.
  - by intros [? ?]%app_nil.
  - rewrite zlen_app. change (zlen INVITE_TEXT_PREFIX) with 11. unfold MAX_ENCODED_INVITE_TEXT_BYTES. lia.
  - apply strip_prefix_base64.
  - done.
  - unfold MAX_ENCODED_INVITE_TEXT_BYTES. lia.
Qed.

(** An invite Ket issues - built from an access code and locators, signed
    with the node's key, printed as text - is read back as the same invite
    until it expires, with or without the [ket:invite:] prefix. *)
Theorem ket_invite_text_roundtrip key ls access_code expires c seed s t now :
  length key = 32%nat -> from_bytes key = Ok key -> Forall locator_sized ls ->
  match expires with Some e => in_u64 e | None => True end ->
  ket_capsule key ls access_code expires = Ok c -> sign c seed = Ok s ->
  encode_invite_text s = Ok t ->
  (forall n, now = Some n -> is_expired_at c n = false) ->
  decode_invite_text t now = Ok s /\
  decode_invite_text (drop (length INVITE_TEXT_PREFIX) t) now = Ok s.
Proof. apply issued_text_decodes. Qed.

(** Invite text is not malleable: two accepted texts of one invite agree
    up to the optional prefix. *)
Theorem invite_text_unique t t' now now' s :
  decode_invite_text t now = Ok s -> decode_invite_text t' now' = Ok s ->
  strip_prefix_or INVITE_TEXT_PREFIX t = strip_prefix_or INVITE_TEXT_PREFIX t'.
Proof.
  unfold decode_invite_text, from_text. cbn [MANUAL_TEXT KetInvite]. intros D1 D2.
  read_step D1. read_step D1. read_step D2. read_step D2.
  apply decode_base64url_inv in R as [E1 _], R0 as [E2 _].
  change TEXT_PREFIX with INVITE_TEXT_PREFIX in E1, E2. rewrite E1, E2.
  apply decode_signed_sound in D1 as (_ & _ & _ & D1), D2 as (_ & _ & _ & D2). congruence.
Qed.

(** The hand-typeable form of any binary invite below 1024 bytes is read
    back exactly, whatever the checksum hash. *)
Theorem manual_text_roundtrip `{!HashesLaws} form binary :
  binary <> [] -> zlen binary < MAX_BINARY_INVITE_BYTES ->
  decode_manual form (encode_manual form binary) = Ok binary.
Proof. apply decode_manual_encode. Qed.

(** C31: at exactly the largest binary size the hand-typeable digits are
    refused as too large, although the invite itself is within its limit. *)
Theorem manual_text_max_refused `{!HashesLaws} form binary :
  zlen binary = MAX_BINARY_INVITE_BYTES ->
  crockford_decode (crockford_encode (binary ++ checksum form binary)) = Err TooLarge.
Proof.
  intros Hb. apply crockford_too_large. rewrite zlen_app, Hb.
  unfold zlen at 1. by rewrite checksum_length.
Qed.

(** Typing an invite in another case, or with O for 0 and I or L for 1,
    decodes to the same result, errors included. *)
Theorem manual_text_tolerant form body body' :
  Forall2 (fun a b => a = b \/
      is_ascii_alphanumeric a = true /\ is_ascii_alphanumeric b = true /\
      crockford_value a = crockford_value b) body body' ->
  decode_manual form (manual_prefix form ++ body) = decode_manual form (manual_prefix form ++ body').
Proof. apply decode_manual_tolerant. Qed.

(** A locator set is accepted exactly when it has one to four distinct
    locators, each of an accepted kind and valid on its own. *)
Theorem locator_set_policy k ls :
  validate_locator_set ls k = Ok tt <->
  1 <= zlen ls <= MAX_LOCATORS /\ NoDup ls /\
  Forall (fun l => Locator.validate l = Ok tt /\ accepts k l = true) ls.
Proof.
  rewrite validate_set_ok. unfold zlen. destruct ls; simpl; [naive_solver lia|].
  split; intros; destruct_and!; split_and!; done || lia.
Qed.

(** A control locator taken from a server's public URL is either HTTPS to
    a public DNS name - at least two labels, no reserved suffix, never an IP
    literal - or plain HTTP to a loopback host. *)
Theorem public_url_policy value l :
  ket_locator_from_public_url value = Ok l ->
  (exists host port, l = Https host port /\ port <> 0 /\ 2 <= zlen (split_on dot host) /\
     Forall (fun sfx => host <> sfx /\ ends_with host (dot :: sfx) = false) NON_PUBLIC_SUFFIXES /\
     exists u, url_parse value = Some u /\ url_scheme u = str "https" /\ url_host u = Some (Domain host)) \/
  (exists h port, l = LoopbackDevelopment h port /\ port <> 0 /\
     exists u uh, url_parse value = Some u /\ url_scheme u = str "http" /\
       url_host u = Some uh /\ loopback uh = Ok h).
Proof.
  unfold ket_locator_from_public_url. intros HU. repeat read_step HU. injection HU as <-.
  apply from_public_url_inv in R as (Hv & u & host & Hu & Hh & _ & _ & _ & _ & Hl).
  unfold Locator.validate in Hv. repeat read_step Hv. destruct a; try done; bool_prop.
  - destruct Hl as (Hs & -> & _). left. eexists _, _. split; [done|].
    match goal with Hx : valid_public_dns_name _ = true |- _ => apply valid_dns_inv in Hx end.
    destruct_and!. split_and!; try done. by exists u.
  - destruct Hl as (Hs & Hlo & _). right. eexists _, _. split_and!; try done. by exists u, host.
Qed.

(** An enrollment response is accepted exactly when its header is the
    canonical Base64URL of a 64-byte signature that the pinned node key
    verifies over this nonce and this body. *)
Theorem enrollment_verify_iff key nonce body header :
  proof_verify key nonce body header = Ok tt <->
  exists sig, header = Some (base64url_encode sig) /\ length sig = 64%nat /\
    verify_key key (enrollment_signature_input nonce body) sig = true.
Proof.
  unfold proof_verify, enrollment_decode_exact, ENROLLMENT_SIGNATURE_BYTES, ok_or. split.
  - intros HV. repeat (case_match; simplify_eq; try done). bool_prop. subst.
    eexists. split_and!; [done| |done]. unfold zlen in *. lia.
  - intros (sig & -> & Hl & Hv). rewrite base64url_decode_encode.
    replace (zlen sig =? 64) with true by (symmetry; apply Z.eqb_eq; unfold zlen; lia).
    rewrite bool_decide_eq_true_2 by done. by rewrite Hv.
Qed.

(** What an enrollment signature covers determines the nonce and the
    body, so a response signed for one challenge never verifies as another
    response's message. *)
Theorem enrollment_binding nonce nonce' body body' :
  length nonce = 32%nat -> length nonce' = 32%nat ->
  zlen body <= u32_max -> zlen body' <= u32_max ->
  enrollment_signature_input nonce body = enrollment_signature_input nonce' body' ->
  nonce = nonce' /\ body = body'.
Proof.
  intros Hn Hn' Hb Hb'. unfold enrollment_signature_input. intros E.
  rewrite (proj2 (Z.leb_le _ _)), (proj2 (Z.leb_le (zlen body') _)) in E by done.
  apply app_inv_head in E. apply app_inj_1 in E as [-> E]; [|congruence].
  apply app_inj_1 in E as [_ ->]; [done|]. by rewrite !length_to_be.
Qed.
End text_props.

(** ** Witnesses *)

Definition demo_text : list byte :=
  match encode_invite_text demo_signed with Ok t => t | Err _ => [] end.

Lemma ket_invite_text_roundtrip_witness : decode_invite_text demo_text (Some 1999) = Ok demo_signed.
Proof.
  assert (from_bytes demo_key = Ok demo_key) as Hk by by_compute.
  assert (Forall locator_sized demo_locators) as Hl by (repeat constructor; vm_compute; done).
  assert (ket_capsule demo_key demo_locators demo_code (Some 2000) = Ok demo_capsule) as Hc by by_compute.
  assert (sign demo_capsule demo_seed = Ok demo_signed) as Hs by by_compute.
  assert (encode_invite_text demo_signed = Ok demo_text) as Ht by by_compute.
  assert (in_u64 2000) as He by (unfold in_u64, u64_max; lia).
  assert (forall n, Some 1999 = Some n -> is_expired_at demo_capsule n = false) as Hn
    by (intros n [= <-]; vm_compute; reflexivity).
  exact (proj1 (ket_invite_text_roundtrip demo_key demo_locators demo_code (Some 2000) demo_capsule demo_seed
    demo_signed demo_text (Some 1999) eq_refl Hk Hl He Hc Hs Ht Hn)).
Defined.

Lemma invite_text_unique_witness :
  strip_prefix_or INVITE_TEXT_PREFIX demo_text =
  strip_prefix_or INVITE_TEXT_PREFIX (drop (length INVITE_TEXT_PREFIX) demo_text).
Proof. apply (invite_text_unique _ _ (Some 1999) None demo_signed); by_compute. Defined.

Definition demo_manual : ManualText := {| manual_prefix := str "demo1"; checksum_domain := str "demo-checksum" |}.

Lemma manual_text_roundtrip_witness :
  decode_manual demo_manual (encode_manual demo_manual (str "binary invite")) = Ok (str "binary invite").
Proof. apply manual_text_roundtrip; [discriminate|vm_compute; reflexivity]. Defined.

Lemma manual_text_max_refused_witness :
  crockford_decode (crockford_encode (repeat Byte.x41 1024 ++ checksum demo_manual (repeat Byte.x41 1024))) = Err TooLarge.
Proof. apply manual_text_max_refused. vm_compute. reflexivity. Defined.

Lemma manual_text_tolerant_witness :
  decode_manual demo_manual (manual_prefix demo_manual ++ str "oIl-AB") =
  decode_manual demo_manual (manual_prefix demo_manual ++ str "011-ab").
Proof.
  apply manual_text_tolerant.
  repeat (constructor; [first [left; reflexivity | right; split_and!; vm_compute; reflexivity]|]). constructor.
Defined.

Lemma public_url_policy_witness :
  exists host port, Https (str "vpn.ket-node.net") 443 = Https host port /\ port <> 0.
Proof.
  assert (ket_locator_from_public_url (str "https://vpn.ket-node.net") = Ok (Https (str "vpn.ket-node.net") 443)) as HU by by_compute.
  destruct (public_url_policy _ _ HU) as [(host & port & E & Hp & _)|(h & port & E & _)]; [|discriminate E].
  exists host, port. split; [exact E|exact Hp].
Defined.

Lemma enrollment_binding_witness : str "ok" = str "ok".
Proof.
  exact (proj2 (enrollment_binding (repeat Byte.x01 32) (repeat Byte.x01 32) (str "ok") (str "ok") eq_refl eq_refl
    ltac:(vm_compute; discriminate) ltac:(vm_compute; discriminate) eq_refl)).
Defined.

Lemma enrollment_verify_iff_witness :
  proof_verify demo_key (repeat Byte.x01 32) (str "ok") (Some (proof_sign demo_seed (repeat Byte.x01 32) (str "ok"))) = Ok tt.
Proof.
  apply (enrollment_verify_iff demo_key). eexists. split; [reflexivity|]. split; vm_compute; reflexivity.
Defined.
