(* ===== verification/Allowance.v ===== *)
(** Model of crates/ket-core/src/allowance.rs: data allowances, their UTC
    calendar periods, and the proleptic Gregorian day count behind them.
    Times are Unix seconds ([u64]). *)

From Stdlib Require Import ZArith Lia.
From stdpp Require Import strings.
From S2P Require Import Prelude.

Definition MIN_ALLOWANCE_BYTES : Z := Z.shiftl 1 20.
Definition MAX_ALLOWANCE_BYTES : Z := Z.shiftl 1 50.
Definition SECONDS_PER_DAY : Z := 86400.

Inductive AllowancePeriod := Day | Week | Month.

Global Instance AllowancePeriod_eq_dec : EqDecision AllowancePeriod.
Proof. solve_decision. Defined.

Record DataAllowance := mkAllowance { allowance_bytes : Z; period : AllowancePeriod }.

Global Instance DataAllowance_eq_dec : EqDecision DataAllowance.
Proof. solve_decision. Defined.

(** [DataAllowance::is_valid]. *)
Definition allowance_is_valid (a : DataAllowance) : bool :=
  (MIN_ALLOWANCE_BYTES <=? allowance_bytes a) && (allowance_bytes a <=? MAX_ALLOWANCE_BYTES).

Record AllowanceStatus := mkStatus {
  status_allowance : DataAllowance;
  status_used_bytes : Z;
  resets_at_epoch_seconds : Z;
}.

(** [AllowanceStatus::is_used_up]. *)
Definition is_used_up (s : AllowanceStatus) : bool :=
  allowance_bytes (status_allowance s) <=? status_used_bytes s.

(** [civil_from_days]. *)
Definition civil_from_days (days : Z) : Z * Z * Z :=
  let z := days + 719468 in
  let era := z / 146097 in
  let day_of_era := z mod 146097 in
  let year_of_era :=
    (day_of_era - day_of_era / 1460 + day_of_era / 36524 - day_of_era / 146096) / 365 in
  let day_of_year := day_of_era - (365 * year_of_era + year_of_era / 4 - year_of_era / 100) in
  let shifted_month := (5 * day_of_year + 2) / 153 in
  let day := day_of_year - (153 * shifted_month + 2) / 5 + 1 in
  let month := if shifted_month <? 10 then shifted_month + 3 else shifted_month - 9 in
  let year := year_of_era + era * 400 + (if month <=? 2 then 1 else 0) in
  (year, month, day).

(** [days_from_civil]. *)
Definition days_from_civil (year month day : Z) : Z :=
  let year := if month <=? 2 then year - 1 else year in
  let era := year / 400 in
  let year_of_era := year mod 400 in
  let shifted_month := if 2 <? month then month - 3 else month + 9 in
  let day_of_year := (153 * shifted_month + 2) / 5 + day - 1 in
  let day_of_era := year_of_era * 365 + year_of_era / 4 - year_of_era / 100 + day_of_year in
  era * 146097 + day_of_era - 719468.

(** [AllowancePeriod::start]. *)
Definition period_start (p : AllowancePeriod) (now : Z) : Z :=
  let day := now / SECONDS_PER_DAY in
  let first :=
    match p with
    | Day => day
    | Week => sat_sub64 day ((day + 3) mod 7)
    | Month => let '(year, month, _) := civil_from_days day in days_from_civil year month 1
    end in
  first * SECONDS_PER_DAY.

(** [AllowancePeriod::end]. *)
Definition period_end (p : AllowancePeriod) (now : Z) : Z :=
  match p with
  | Day => period_start p now + SECONDS_PER_DAY
  | Week => period_start p now + 7 * SECONDS_PER_DAY
  | Month =>
    let '(year, month, _) := civil_from_days (now / SECONDS_PER_DAY) in
    let '(year, month) := if month =? 12 then (year + 1, 1) else (year, month + 1) in
    days_from_civil year month 1 * SECONDS_PER_DAY
  end.

(** [utc_minute]: the form refusals give the reset time in. *)
Definition utc_minute (epoch_seconds : Z) : list byte :=
  let '(year, month, day) := civil_from_days (epoch_seconds / SECONDS_PER_DAY) in
  let minutes := epoch_seconds mod SECONDS_PER_DAY / 60 in
  show_pad 4 year ++ str "-" ++ show_pad 2 month ++ str "-" ++ show_pad 2 day ++ str " "
  ++ show_pad 2 (minutes / 60) ++ str ":" ++ show_pad 2 (minutes mod 60) ++ str " UTC".

Example utc_minute_demo : utc_minute 1793491200 = str "2026-11-01 00:00 UTC".
Proof. by_compute. Qed.

(** * The calendar *)

#[local] Ltac Zify.zify_post_hook ::= Z.div_mod_to_equations.

(** The first day of year [y] of an era, counted from its March. *)
Definition year_start (y : Z) : Z := 365 * y + y / 4 - y / 100.

(** The year formula finds the year that holds the day. *)
Lemma year_of_era_spec doe :
  0 <= doe < 146097 ->
  let y := (doe - doe / 1460 + doe / 36524 - doe / 146096) / 365 in
  0 <= y < 400 /\ year_start y <= doe < year_start (y + 1) + (if y =? 399 then 1 else 0).
Proof.
  intros Hd. cbn zeta. unfold year_start. destruct (Z.eqb_spec ((doe - doe / 1460 + doe / 36524 - doe / 146096) / 365) 399); lia.
Qed.

(** A month as era, year of the era and month, both counted from March. *)
Definition civil_month (mp : Z) : Z := if mp <? 10 then mp + 3 else mp - 9.
Definition civil_year (era yoe mp : Z) : Z := yoe + era * 400 + (if civil_month mp <=? 2 then 1 else 0).
Definition month_first (era yoe mp : Z) : Z :=
  era * 146097 + year_start yoe + (153 * mp + 2) / 5 - 719468.
Definition month_limit (era yoe mp : Z) : Z :=
  if mp =? 11 then if yoe =? 399 then month_first (era + 1) 0 0 else month_first era (yoe + 1) 0
  else month_first era yoe (mp + 1).

(** The month that holds a day. *)
Definition in_month (era yoe mp d : Z) : Prop :=
  0 <= yoe < 400 /\ 0 <= mp < 12 /\ month_first era yoe mp <= d < month_limit era yoe mp.

Lemma civil_from_days_month d :
  -719468 <= d ->
  exists era yoe mp, in_month era yoe mp d /\
    civil_from_days d = (civil_year era yoe mp, civil_month mp, d - month_first era yoe mp + 1).
Proof.
  intros Hd. unfold civil_from_days.
  set (era := (d + 719468) / 146097). set (doe := (d + 719468) mod 146097).
  assert (0 <= doe < 146097) as Hdoe by (apply Z.mod_pos_bound; lia).
  assert (d + 719468 = era * 146097 + doe) as Hz by (unfold era, doe; lia).
  clearbody era doe.
  pose proof (year_of_era_spec doe Hdoe) as Hy. cbn zeta in Hy.
  set (yoe := (doe - doe / 1460 + doe / 36524 - doe / 146096) / 365) in *. clearbody yoe.
  destruct Hy as [Hy Hys]. fold (year_start yoe).
  set (doy := doe - year_start yoe) in *.
  assert (0 <= doy < 366) as Hdoy by (unfold doy, year_start in *; destruct (Z.eqb_spec yoe 399); lia).
  exists era, yoe, ((5 * doy + 2) / 153).
  assert (0 <= (5 * doy + 2) / 153 < 12) as Hmp by lia.
  split; [|unfold civil_year, civil_month, month_first; f_equal; lia].
  split_and!; try lia; unfold month_limit, month_first.
  - unfold doy in *. lia.
  - destruct (Z.eqb_spec ((5 * doy + 2) / 153) 11), (Z.eqb_spec yoe 399); unfold doy in *.
    + subst yoe. unfold year_start in *. lia.
    + unfold year_start in *. lia.
    + lia.
    + lia.
Qed.

Lemma days_from_civil_month era yoe mp k :
  0 <= yoe < 400 -> 0 <= mp < 12 ->
  days_from_civil (civil_year era yoe mp) (civil_month mp) k = month_first era yoe mp + k - 1.
Proof.
  intros Hy Hm. unfold days_from_civil, civil_year, civil_month, month_first, year_start.
  assert ((yoe + era * 400) / 400 = era) as He by lia.
  assert ((yoe + era * 400) mod 400 = yoe) as Hyo by lia.
  destruct (Z.ltb_spec mp 10).
  - rewrite (proj2 (Z.leb_gt _ _)), (proj2 (Z.ltb_lt _ _)) by lia. rewrite Z.add_0_r, He, Hyo.
    replace (mp + 3 - 3) with mp by lia. lia.
  - rewrite (proj2 (Z.leb_le _ _)), (proj2 (Z.ltb_ge _ _)) by lia.
    replace (yoe + era * 400 + 1 - 1) with (yoe + era * 400) by lia. rewrite He, Hyo.
    replace (mp - 9 + 9) with mp by lia. lia.
Qed.

Lemma year_start_mono y y' : y < y' -> year_start (y + 1) <= year_start y'.
Proof. unfold year_start. lia. Qed.

(** The last day of a March-based year is bounded by the next one's start. *)
Lemma month_limit_year era yoe mp :
  0 <= yoe < 400 -> 0 <= mp < 12 ->
  month_limit era yoe mp <= era * 146097 + year_start (yoe + 1) + (if yoe =? 399 then 1 else 0) - 719468.
Proof.
  intros Hy Hm. unfold month_limit, month_first.
  destruct (Z.eqb_spec mp 11), (Z.eqb_spec yoe 399); subst; unfold year_start; lia.
Qed.

(** A day lies in one month only. *)
Lemma in_month_unique era yoe mp era' yoe' mp' d :
  in_month era yoe mp d -> in_month era' yoe' mp' d -> era = era' /\ yoe = yoe' /\ mp = mp'.
Proof.
  intros (Hy & Hm & Hd) (Hy' & Hm' & Hd').
  pose proof (month_limit_year era yoe mp Hy Hm). pose proof (month_limit_year era' yoe' mp' Hy' Hm').
  assert (month_first era yoe mp >= era * 146097 + year_start yoe - 719468) by (unfold month_first; lia).
  assert (month_first era' yoe' mp' >= era' * 146097 + year_start yoe' - 719468) by (unfold month_first; lia).
  assert (0 <= year_start yoe) by (unfold year_start; lia).
  assert (0 <= year_start yoe') by (unfold year_start; lia).
  assert (forall y, 0 <= y < 400 -> year_start (y + 1) + (if y =? 399 then 1 else 0) <= 146097) as Hlim.
  { intros y ?. unfold year_start. destruct (Z.eqb_spec y 399); lia. }
  pose proof (Hlim yoe Hy). pose proof (Hlim yoe' Hy').
  assert (era = era') as -> by lia.
  assert (yoe = yoe') as ->.
  { destruct (Z.lt_trichotomy yoe yoe') as [Hlt|[?|Hlt]]; [|done|]; apply year_start_mono in Hlt as Hs;
      destruct (Z.eqb_spec yoe 399), (Z.eqb_spec yoe' 399); lia. }
  split_and!; [done..|]. unfold month_limit, month_first in Hd, Hd'.
  destruct (Z.eqb_spec mp 11), (Z.eqb_spec mp' 11); lia.
Qed.

(** [(year, month)] of the following month. *)
Lemma month_limit_civil era yoe mp :
  0 <= yoe < 400 -> 0 <= mp < 12 ->
  (let '(year, month) := if civil_month mp =? 12 then (civil_year era yoe mp + 1, 1)
                         else (civil_year era yoe mp, civil_month mp + 1) in
   days_from_civil year month 1) = month_limit era yoe mp.
Proof.
  intros Hy Hm.
  assert (exists era' yoe' mp', 0 <= yoe' < 400 /\ 0 <= mp' < 12 /\
    month_limit era yoe mp = month_first era' yoe' mp' /\
    (if civil_month mp =? 12 then (civil_year era yoe mp + 1, 1)
     else (civil_year era yoe mp, civil_month mp + 1)) = (civil_year era' yoe' mp', civil_month mp'))
    as (era' & yoe' & mp' & ? & ? & -> & ->).
  2: { rewrite days_from_civil_month by done. lia. }
  unfold month_limit. destruct (Z.eqb_spec mp 11) as [->|].
  - destruct (Z.eqb_spec yoe 399) as [->|]; [exists (era + 1), 0, 0|exists era, (yoe + 1), 0];
      (split_and!; [lia..|done|]); unfold civil_year, civil_month; simpl; f_equal; lia.
  - exists era, yoe, (mp + 1). split_and!; [lia..|done|].
    unfold civil_year, civil_month.
    destruct (Z.ltb_spec mp 10), (Z.ltb_spec (mp + 1) 10); try lia.
    + rewrite (proj2 (Z.eqb_neq _ _)), !(proj2 (Z.leb_gt _ _)) by lia. f_equal; lia.
    + assert (mp = 9) as -> by lia. simpl. f_equal; lia.
    + rewrite (proj2 (Z.eqb_neq _ _)), !(proj2 (Z.leb_le _ _)) by lia. f_equal; lia.
Qed.

Lemma month_bounds now :
  0 <= now ->
  exists era yoe mp, in_month era yoe mp (now / SECONDS_PER_DAY) /\
    period_start Month now = month_first era yoe mp * SECONDS_PER_DAY /\
    period_end Month now = month_limit era yoe mp * SECONDS_PER_DAY.
Proof.
  intros Hn. destruct (civil_from_days_month (now / SECONDS_PER_DAY)) as (era & yoe & mp & Hin & E).
  { unfold SECONDS_PER_DAY. lia. }
  exists era, yoe, mp. split; [done|]. destruct Hin as (Hy & Hm & _).
  unfold period_start, period_end. rewrite E. split.
  - rewrite days_from_civil_month by done. f_equal. lia.
  - rewrite <- month_limit_civil by done.
    destruct (if civil_month mp =? 12 then _ else _) as [y m] eqn:E2. done.
Qed.

(** The day of a date is the date of the day. *)
Lemma civil_day_roundtrip d :
  -719468 <= d -> let '(y, m, k) := civil_from_days d in days_from_civil y m k = d.
Proof.
  intros Hd. destruct (civil_from_days_month d Hd) as (era & yoe & mp & (Hy & Hm & _) & ->).
  rewrite days_from_civil_month by done. lia.
Qed.

Lemma month_first_limit era yoe mp :
  0 <= yoe < 400 -> 0 <= mp < 12 -> month_first era yoe mp + 28 <= month_limit era yoe mp <= month_first era yoe mp + 31.
Proof.
  intros Hy Hm. unfold month_limit, month_first, year_start.
  destruct (Z.eqb_spec mp 11), (Z.eqb_spec yoe 399); subst; lia.
Qed.

(** Every instant lies in its period. *)
Lemma period_holds p now : 0 <= now -> period_start p now <= now < period_end p now.
Proof.
  intros Hn. destruct p.
  - unfold period_end, period_start, SECONDS_PER_DAY. lia.
  - unfold period_end, period_start, SECONDS_PER_DAY, sat_sub64. lia.
  - destruct (month_bounds now Hn) as (era & yoe & mp & (_ & _ & Hd) & -> & ->).
    unfold SECONDS_PER_DAY in *. lia.
Qed.

Lemma period_start_nonneg p now : 0 <= now -> 0 <= period_start p now.
Proof.
  intros Hn. destruct p.
  - unfold period_start, SECONDS_PER_DAY. lia.
  - unfold period_start, SECONDS_PER_DAY, sat_sub64. lia.
  - destruct (month_bounds now Hn) as (era & yoe & mp & (Hy & Hm & Hd) & -> & _).
    cut (0 <= month_first era yoe mp); [unfold SECONDS_PER_DAY; lia|].
    assert (0 <= now / SECONDS_PER_DAY) by (unfold SECONDS_PER_DAY; lia).
    destruct (Z.le_gt_cases 0 (month_first era yoe mp)) as [|Hneg]; [done|exfalso].
    assert (in_month 4 369 10 0) as H0 by (repeat split; vm_compute; congruence).
    pose proof (month_first_limit era yoe mp Hy Hm) as Hl.
    assert (in_month era yoe mp 0) as H1 by (unfold in_month; lia).
    destruct (in_month_unique _ _ _ _ _ _ _ H0 H1) as (<- & <- & <-).
    unfold month_first, year_start in Hneg. simpl in Hneg. lia.
Qed.

(** Instants of one period agree on it: after the first week of the epoch for
    weeks, which 1970-01-05 starts. *)
Lemma period_start_stable p now t :
  0 <= now -> (p = Week -> 4 * SECONDS_PER_DAY <= now) ->
  period_start p now <= t < period_end p now -> period_start p t = period_start p now.
Proof.
  intros Hn Hw Ht. pose proof (period_start_nonneg p now Hn). destruct p.
  - unfold period_end, period_start, SECONDS_PER_DAY in *. lia.
  - specialize (Hw eq_refl). unfold period_end, period_start, SECONDS_PER_DAY, sat_sub64 in *. lia.
  - destruct (month_bounds now Hn) as (era & yoe & mp & (Hy & Hm & Hd) & Es & Ee).
    destruct (month_bounds t ltac:(lia)) as (era' & yoe' & mp' & Hin & -> & _).
    rewrite Es, Ee in Ht.
    assert (in_month era yoe mp (t / SECONDS_PER_DAY)) as Hin'
      by (unfold in_month, SECONDS_PER_DAY in *; lia).
    destruct (in_month_unique _ _ _ _ _ _ _ Hin Hin') as (-> & -> & ->). done.
Qed.

(** The end of a period starts the next one. *)
Lemma period_end_next p now :
  0 <= now -> (p = Week -> 4 * SECONDS_PER_DAY <= now) ->
  period_start p (period_end p now) = period_end p now.
Proof.
  intros Hn Hw. destruct p.
  - unfold period_end, period_start, SECONDS_PER_DAY. lia.
  - specialize (Hw eq_refl). unfold period_end, period_start, SECONDS_PER_DAY, sat_sub64 in *. lia.
  - pose proof (period_holds Month now Hn) as Hh. pose proof (period_start_nonneg Month now Hn).
    destruct (month_bounds now Hn) as (era & yoe & mp & (Hy & Hm & Hd) & Es & Ee). rewrite Ee in *.
    destruct (month_bounds (month_limit era yoe mp * SECONDS_PER_DAY) ltac:(lia)) as (era' & yoe' & mp' & Hin & -> & _).
    assert (month_limit era yoe mp * SECONDS_PER_DAY / SECONDS_PER_DAY = month_limit era yoe mp) as E
      by (unfold SECONDS_PER_DAY; lia).
    rewrite E in Hin. f_equal.
    assert (exists e y m, 0 <= y < 400 /\ 0 <= m < 12 /\ month_limit era yoe mp = month_first e y m)
      as (e & y & m & Hy' & Hm' & Em).
    { unfold month_limit. destruct (Z.eqb_spec mp 11), (Z.eqb_spec yoe 399).
      - exists (era + 1), 0, 0; lia.
      - exists era, (yoe + 1), 0; lia.
      - exists era, yoe, (mp + 1); lia.
      - exists era, yoe, (mp + 1); lia. }
    rewrite Em in *. assert (in_month e y m (month_first e y m)) as Hin'
      by (pose proof (month_first_limit e y m Hy' Hm'); unfold in_month; lia).
    destruct (in_month_unique _ _ _ _ _ _ _ Hin Hin') as (-> & -> & ->). done.
Qed.

(** No period overflows [u64] until 32 days before the end of its range. *)
Lemma period_end_bound p now : 0 <= now -> period_end p now <= now + 31 * SECONDS_PER_DAY.
Proof.
  intros Hn. destruct p.
  - unfold period_end, period_start, SECONDS_PER_DAY. lia.
  - unfold period_end, period_start, SECONDS_PER_DAY, sat_sub64. lia.
  - destruct (month_bounds now Hn) as (era & yoe & mp & (Hy & Hm & Hd) & _ & ->).
    pose proof (month_first_limit era yoe mp Hy Hm). unfold SECONDS_PER_DAY in *. lia.
Qed.
