(* ===== verification/Grant.v ===== *)
(** Model of crates/ket-core/src/grant.rs and secret.rs with the grant
    requests of contract.rs: protocols and which of them a grant allows,
    activity events, access codes and session tokens, and the hashing policy
    for secrets at rest.

    Data the client's components share: transport profiles and session
    transports of crates/ket-core/src/contract.rs, and the transport interface
    of crates/ket-client-core/src/transport.rs with the options and reports of
    crates/ket-tunnel-protocol/src/lib.rs. *)

From Stdlib Require Import ZArith Lia.
From stdpp Require Import strings gmap.
From S2P Require Import Prelude Utf8 Net Bypass Allowance.

(** * Protocols *)

Inductive TransportProtocol :=
| Hysteria2 | Ikev2 | OpenVpnStunnel | Shadowsocks2022
| Stealth | VlessXtlsReality | WireGuard | XorScrambled.

Global Instance TransportProtocol_eq_dec : EqDecision TransportProtocol.
Proof. solve_decision. Defined.

Definition protocol_index (p : TransportProtocol) : nat :=
  match p with
  | Hysteria2 => 0 | Ikev2 => 1 | OpenVpnStunnel => 2 | Shadowsocks2022 => 3
  | Stealth => 4 | VlessXtlsReality => 5 | WireGuard => 6 | XorScrambled => 7
  end%nat.
Definition all_protocols : list TransportProtocol :=
  [Hysteria2; Ikev2; OpenVpnStunnel; Shadowsocks2022; Stealth; VlessXtlsReality; WireGuard; XorScrambled].

Global Program Instance TransportProtocol_countable : Countable TransportProtocol :=
  inj_countable protocol_index (fun n => all_protocols !! n) _.
Next Obligation. by intros []. Qed.

(** [TransportProtocol::short_name]. *)
Definition short_name (p : TransportProtocol) : list byte :=
  match p with
  | Hysteria2 => str "hysteria" | Ikev2 => str "ikev2" | OpenVpnStunnel => str "openvpn"
  | Shadowsocks2022 => str "shadowsocks" | Stealth => str "stealth"
  | VlessXtlsReality => str "reality" | WireGuard => str "wireguard"
  | XorScrambled => str "hysteria-xor"
  end.

Inductive ProtocolAccess :=
| All
| Only (protocols : gset TransportProtocol).

Global Instance ProtocolAccess_eq_dec : EqDecision ProtocolAccess.
Proof. solve_decision. Defined.

(** [ProtocolAccess::allows], [is_all] and [is_valid]. *)
Definition allows (a : ProtocolAccess) (p : TransportProtocol) : bool :=
  match a with All => true | Only ps => bool_decide (p ∈ ps) end.
Definition is_all (a : ProtocolAccess) : bool :=
  match a with All => true | Only _ => false end.
Definition access_is_valid (a : ProtocolAccess) : bool :=
  match a with All => true | Only ps => negb (bool_decide (ps = ∅)) end.

(** * Requests and summaries *)

Record CreateAccessGrantRequest := {
  create_label : list byte;
  create_max_connections : Z;
  create_valid_for_minutes : Z;
  create_protocols : ProtocolAccess;
  create_allowance : option DataAllowance;
}.

Record CreateAccessGrantBatchRequest := {
  batch_label_prefix : list byte;
  batch_count : Z;
  batch_max_connections : Z;
  batch_valid_for_minutes : Z;
  batch_protocols : ProtocolAccess;
  batch_allowance : option DataAllowance;
}.

Record CreateAccessGrantResponse := {
  response_id : list byte;
  response_access_code : list byte;
  response_label : list byte;
  response_max_connections : Z;
  response_valid_for_minutes : Z;
  response_expires_at : Z;
  response_created_at : Z;
  response_protocols : ProtocolAccess;
  response_allowance : option DataAllowance;
}.

Record AccessGrantSummary := {
  summary_id : list byte;
  summary_label : list byte;
  summary_max_connections : Z;
  active_connections : Z;
  summary_expires_at : option Z;
  summary_created_at : Z;
  summary_paused : bool;
  summary_protocols : ProtocolAccess;
  summary_allowance : option AllowanceStatus;
}.

(** An absent field ([None]) leaves the value as it is; for the allowance,
    [Some None] removes it. *)
Record UpdateAccessGrantRequest := mkUpdate {
  new_label : option (list byte);
  new_max_connections : option Z;
  new_expires_at : option Z;
  new_paused : option bool;
  new_protocols : option ProtocolAccess;
  new_allowance : option (option DataAllowance);
  reset_usage : bool;
}.

Global Instance UpdateAccessGrantRequest_eq_dec : EqDecision UpdateAccessGrantRequest.
Proof. solve_decision. Defined.

Definition update_default : UpdateAccessGrantRequest := mkUpdate None None None None None None false.

(** [UpdateAccessGrantRequest::is_empty]. *)
Definition update_is_empty (u : UpdateAccessGrantRequest) : bool := bool_decide (u = update_default).

Definition MAX_ACCESS_GRANT_VALIDITY_MINUTES : Z := 365 * 24 * 60.

(** * Activity *)

Inductive GrantActivityEvent :=
| Enrolled | CheckedIn | Left | LeaseEnded | EndedByChange | EndedAllowanceUsed
| RefusedWrongCode | RefusedExpired | RefusedPaused | RefusedAllowanceUsed
| RefusedDeviceLimit | RefusedServerFull | RefusedUpdateRequired | RefusedNoProtocol
| RefusedServerUnavailable | SignedIn | SignInRefused | SignInRefusedProtocol.

Global Instance GrantActivityEvent_eq_dec : EqDecision GrantActivityEvent.
Proof. solve_decision. Defined.

Record GrantActivity := mkGrantActivity {
  ga_event : GrantActivityEvent;
  ga_session_id : option (list byte);
  ga_client_name : list byte;
  ga_protocol : option TransportProtocol;
  ga_count : Z;
  first_at_epoch_seconds : Z;
  last_at_epoch_seconds : Z;
}.

(** * Secrets *)

(** A parsed PHC string ([password_hash::PasswordHash]): each parameter with
    the decimal its value denotes, if it denotes one. *)
Record Phc := mkPhc {
  phc_algorithm : list byte;
  phc_version : option Z;
  phc_params : list (list byte * option Z);
  phc_salt : option (list byte);
  phc_hash : option (list byte);
}.

(** argon2 and password_hash: [PasswordHash::new], [Argon2::default()] hashing
    with a salt and verifying a secret against an encoded hash.  blake2:
    [Blake2s256::digest]. *)
Class SecretHashing := {
  phc_parse : list byte -> option Phc;
  argon2_hash : list byte -> list byte -> option (list byte);
  argon2_verify : list byte -> list byte -> bool;
  blake2s256 : list byte -> list byte;
}.

Definition ACCESS_CODE_LENGTH : Z := 32.
Definition SESSION_TOKEN_LENGTH : Z := 44.
Definition ACCESS_ID_LENGTH : nat := 10.
Definition SESSION_ID_LENGTH : nat := 12.
Definition SESSION_SECRET_LENGTH : Z := SESSION_TOKEN_LENGTH - Z.of_nat SESSION_ID_LENGTH.

Inductive SecretError := InvalidFormat | HashFailed.

Record SecretParts := mkParts { part_id : list byte; part_secret : list byte }.

(** [validate_alphanumeric]. *)
Definition validate_alphanumeric (value : list byte) (expected_length : Z) : result SecretError unit :=
  if negb (zlen value =? expected_length) || negb (forallb is_ascii_alphanumeric value)
  then Err InvalidFormat else Ok tt.

(** [split_access_code] and [split_session_token]. *)
Definition split_access_code (value : list byte) : result SecretError SecretParts :=
  let* _ := validate_alphanumeric value ACCESS_CODE_LENGTH in
  Ok (mkParts (take ACCESS_ID_LENGTH value) (drop ACCESS_ID_LENGTH value)).
Definition split_session_token (value : list byte) : result SecretError SecretParts :=
  let* _ := validate_alphanumeric value SESSION_TOKEN_LENGTH in
  Ok (mkParts (take SESSION_ID_LENGTH value) (drop SESSION_ID_LENGTH value)).

(** [generate_scoped_token]: [random] is what the generator draws. *)
Definition generate_scoped_token (session_id random : list byte) : result SecretError (list byte) :=
  let* _ := validate_alphanumeric session_id (Z.of_nat SESSION_ID_LENGTH) in
  Ok (session_id ++ random).

Section hashing.
Context `{SecretHashing}.

(** [hash_secret], with the salt the generator draws. *)
Definition hash_secret (salt secret : list byte) : result SecretError (list byte) :=
  ok_or (argon2_hash salt secret) HashFailed.

(** [verify_secret]. *)
Definition verify_secret (secret encoded_hash : list byte) : bool :=
  match phc_parse encoded_hash with
  | None => false
  | Some _ => argon2_verify secret encoded_hash
  end.

(** [Params::get_decimal]. *)
Definition get_decimal (name : list byte) (params : list (list byte * option Z)) : option Z :=
  match list_find (fun p => p.1 = name) params with Some (_, (_, v)) => v | None => None end.

(** [is_supported_secret_hash]. *)
Definition is_supported_secret_hash (encoded_hash : list byte) : bool :=
  match phc_parse encoded_hash with
  | None => false
  | Some hash =>
    bool_decide (phc_algorithm hash = str "argon2id")
    && bool_decide (phc_version hash = Some 19)
    && (zlen (phc_params hash) =? 3)
    && bool_decide (get_decimal (str "m") (phc_params hash) = Some (19 * 1024))
    && bool_decide (get_decimal (str "t") (phc_params hash) = Some 2)
    && bool_decide (get_decimal (str "p") (phc_params hash) = Some 1)
    && bool_decide (is_Some (phc_salt hash))
    && match phc_hash hash with Some output => zlen output =? 32 | None => false end
  end.

(** [hash_token_secret] and [verify_token_secret]. *)
Definition hash_token_secret (secret : list byte) : list byte := blake2s256 secret.
Definition verify_token_secret (secret expected_hash : list byte) : bool :=
  bool_decide (hash_token_secret secret = expected_hash).
End hashing.

(** The documented output of [Argon2::default()]: a PHC string of printable
    ASCII with the default parameters, the salt and 32 output bytes, which
    verifies the secret it was made from. *)
Class SecretHashingLaws `{SecretHashing} : Prop := {
  argon2_hash_profile salt secret h :
    argon2_hash salt secret = Some h ->
    exists salt' out, length out = 32%nat /\
    phc_parse h = Some (mkPhc (str "argon2id") (Some 19)
      [(str "m", Some 19456); (str "t", Some 2); (str "p", Some 1)] (Some salt') (Some out));
  argon2_hash_text salt secret h :
    argon2_hash salt secret = Some h ->
    1 <= zlen h <= 512 /\ forallb (fun b => (33 <=? b2z b) && (b2z b <=? 126)) h = true;
  argon2_hash_verifies salt secret h :
    argon2_hash salt secret = Some h -> argon2_verify secret h = true;
}.

(** ** Facts *)

Lemma short_name_inj p q : short_name p = short_name q -> p = q.
Proof. destruct p, q; solve [done | by vm_compute]. Qed.

Lemma validate_alphanumeric_ok value n :
  is_ok (validate_alphanumeric value n) = true <->
  zlen value = n /\ forallb is_ascii_alphanumeric value = true.
Proof.
  unfold validate_alphanumeric. destruct (Z.eqb_spec (zlen value) n), (forallb _ value); simpl; naive_solver.
Qed.

Lemma split_parts (n : nat) (total : Z) value parts :
  Z.of_nat n <= total ->
  (let* _ := validate_alphanumeric value total in Ok (mkParts (take n value) (drop n value))) = Ok parts ->
  value = part_id parts ++ part_secret parts /\ length (part_id parts) = n /\
  zlen (part_secret parts) = total - Z.of_nat n /\
  forallb is_ascii_alphanumeric (part_id parts) = true /\
  forallb is_ascii_alphanumeric (part_secret parts) = true.
Proof.
  intros Hn HS. pose proof (validate_alphanumeric_ok value total) as HV.
  destruct (validate_alphanumeric value total) as [[]|]; [|done].
  destruct HV as [HV _]. destruct HV as [Hl Ha]; [done|]. injection HS as <-. cbn [part_id part_secret].
  rewrite <- (take_drop n value) in Ha. rewrite forallb_app in Ha. apply andb_true_iff in Ha as [? ?].
  unfold zlen in *. rewrite length_take, length_drop, take_drop. split_and!; try done; lia.
Qed.

Lemma split_session_token_inv token parts :
  split_session_token token = Ok parts ->
  token = part_id parts ++ part_secret parts /\ length (part_id parts) = SESSION_ID_LENGTH /\
  zlen (part_secret parts) = SESSION_SECRET_LENGTH /\
  forallb is_ascii_alphanumeric (part_id parts) = true /\
  forallb is_ascii_alphanumeric (part_secret parts) = true.
Proof. apply split_parts. done. Qed.

Lemma split_access_code_inv code parts :
  split_access_code code = Ok parts ->
  code = part_id parts ++ part_secret parts /\ length (part_id parts) = ACCESS_ID_LENGTH /\
  zlen (part_secret parts) = ACCESS_CODE_LENGTH - Z.of_nat ACCESS_ID_LENGTH /\
  forallb is_ascii_alphanumeric (part_id parts) = true /\
  forallb is_ascii_alphanumeric (part_secret parts) = true.
Proof. apply split_parts. done. Qed.

(** What the generators draw always splits. *)
Lemma split_session_token_total token :
  zlen token = SESSION_TOKEN_LENGTH -> forallb is_ascii_alphanumeric token = true ->
  split_session_token token = Ok (mkParts (take SESSION_ID_LENGTH token) (drop SESSION_ID_LENGTH token)).
Proof. intros Hl Ha. unfold split_session_token, validate_alphanumeric. by rewrite Hl, Ha. Qed.

Lemma split_access_code_total code :
  zlen code = ACCESS_CODE_LENGTH -> forallb is_ascii_alphanumeric code = true ->
  split_access_code code = Ok (mkParts (take ACCESS_ID_LENGTH code) (drop ACCESS_ID_LENGTH code)).
Proof. intros Hl Ha. unfold split_access_code, validate_alphanumeric. by rewrite Hl, Ha. Qed.

(** A token scoped to a session splits into that session and its own secret. *)
Lemma scoped_token_splits id random token :
  zlen random = SESSION_SECRET_LENGTH -> forallb is_ascii_alphanumeric random = true ->
  generate_scoped_token id random = Ok token -> split_session_token token = Ok (mkParts id random).
Proof.
  intros Hl Ha HG. unfold generate_scoped_token in HG.
  pose proof (validate_alphanumeric_ok id (Z.of_nat SESSION_ID_LENGTH)) as HV.
  destruct (validate_alphanumeric _ _) as [[]|]; [|done]. destruct HV as [HV _].
  destruct HV as [Hi Hai]; [done|]. injection HG as <-.
  rewrite split_session_token_total.
  - rewrite take_app_length', drop_app_length' by (unfold zlen in Hi; lia). done.
  - rewrite zlen_app, Hl, Hi. done.
  - by rewrite forallb_app, Hai, Ha.
Qed.

Lemma argon2_supported `{SecretHashingLaws} salt secret h :
  hash_secret salt secret = Ok h -> is_supported_secret_hash h = true.
Proof.
  unfold hash_secret. intros HH. destruct (argon2_hash salt secret) as [h'|] eqn:E; [|done].
  injection HH as ->. destruct (argon2_hash_profile _ _ _ E) as (salt' & out & Hl & Hp).
  unfold is_supported_secret_hash. rewrite Hp. cbn [phc_algorithm phc_version phc_params phc_salt phc_hash].
  rewrite (bool_decide_true (is_Some (Some salt'))) by done. unfold zlen. rewrite Hl. by vm_compute.
Qed.

(** [Network]. *)
Inductive Network := Tcp | Udp | TcpAndUdp.

(** [TransportProfile], [TransportCredential] and [SessionTransport]. *)
Record TransportProfile := mkProfile {
  tp_id : list byte; tp_display_name : list byte; tp_protocol : TransportProtocol; tp_endpoint : list byte; tp_port : Z;
  tp_network : Network; tp_priority : Z; tp_tls_server_name : option (list byte); tp_options : gmap (list byte) (list byte);
}.
Record TransportCredential := mkCredential { tc_auth : list byte; tc_secrets : gmap (list byte) (list byte) }.
Record SessionTransport := mkTransport { st_profile : TransportProfile; st_credential : option TransportCredential }.

(** [SocketAddr]. *)
Record SocketAddr := mkSocket { sa_ip : IpAddr; sa_port : Z }.

(** [ConnectOptions] and [NetworkReport]. *)
Record ConnectOptions := mkOptions { split_tls_hello : bool; bypass : list IpPrefix }.
Record NetworkReport := mkReport { generation : Z; offline : bool }.
Definition network_default : NetworkReport := mkReport 0 false.

Global Instance NetworkReport_eq_dec : EqDecision NetworkReport.
Proof. solve_decision. Defined.

(** [TunnelStatus]. *)
Inductive TunnelStatus := Connected | Stopped | Failed (message : list byte).

(** [ProbeReport]; durations are in nanoseconds. *)
Record ProbeReport := mkProbe { resolved_addresses : list SocketAddr; elapsed : Z }.

(** The part of [TransportAdapter] that depends on the transport alone. *)
Record TransportAdapter := mkAdapter { adapter_supports : SessionTransport -> bool }.
