(* ===== verification/Strategy.v ===== *)
(** Model of crates/ket-client-core/src/strategy.rs (how each transport fared,
    and the order a connection tries them in) and transport_memory.rs (a
    history for each network, in one file). *)

From Stdlib Require Import ZArith Lia.
From stdpp Require Import gmap sorting strings.
From S2P Require Import Prelude Order Vendor Grant Tunnel.

(** * strategy.rs *)

Record SelectionPolicy := mkPolicy {
  max_attempts : Z; preferred_protocol : option TransportProtocol; failure_cooldown_seconds : Z;
}.
Definition policy_default : SelectionPolicy := mkPolicy 3 None 15.

Definition MAX_RECORDS : nat := 32.

Record TransportRecord := mkRecord {
  consecutive_failures : Z; last_latency_ms : option Z; cooldown_until : Z; worked : bool;
}.
Definition record_default : TransportRecord := mkRecord 0 None 0 false.

(** [TransportHistory]: records by transport identifier, in the order of the
    identifiers. *)
Notation TransportHistory := (gmap (list byte) TransportRecord).

(** [records.keys().next()]. *)
Definition first_key {A} (m : gmap (list byte) A) : option (list byte) := min_by_key (fun k => k) (map fst (map_to_list m)).

(** The loop of [bound] for a number of rounds. *)
Fixpoint bound_loop (rounds : nat) (records : TransportHistory) : TransportHistory :=
  match rounds with
  | O => records
  | S rounds =>
    if (MAX_RECORDS <? size records)%nat then
      match first_key records with
      | Some oldest => bound_loop rounds (delete oldest records)
      | None => records
      end
    else records
  end.
(** Each round drops a record. *)
Definition bound (records : TransportHistory) : TransportHistory := bound_loop (size records) records.

(** [record_success] and [record_failure]. *)
Definition record_success (id : list byte) (latency_ms : Z) (h : TransportHistory) : TransportHistory :=
  bound (<[id := mkRecord 0 (Some latency_ms) 0 true]> h).
Definition record_failure (id : list byte) (now base_cooldown_seconds : Z) (h : TransportHistory) : TransportHistory :=
  let record := default record_default (h !! id) in
  let failures := Z.min (consecutive_failures record + 1) u32_max in
  let multiplier := Z.shiftl 1 (Z.min (Z.max (failures - 1) 0) 3) in
  let cooldown := sat_add64 now (Z.min (sat_mul64 base_cooldown_seconds multiplier) 120) in
  bound (<[id := mkRecord failures (last_latency_ms record) cooldown (worked record)]> h).

(** The key [rank_for] sorts by. *)
Notation RankKey := (bool * bool * Z * bool * Z * Z * list byte)%type.
Definition rank_key (h : TransportHistory) (now : Z) (preference : option TransportProtocol) (t : SessionTransport) : RankKey :=
  let record := h !! tp_id (st_profile t) in
  let cooling_down := match record with Some r => now <? cooldown_until r | None => false end in
  let failures := match record with Some r => consecutive_failures r | None => 0 end in
  let worked := match record with Some r => worked r | None => false end in
  let latency := default 500 (match record with Some r => last_latency_ms r | None => None end) in
  let preferred := match preference with Some p => bool_decide (p = tp_protocol (st_profile t)) | None => false end in
  (cooling_down, negb preferred, failures, negb worked, tp_priority (st_profile t), latency, tp_id (st_profile t)).

(** The transports [rank_for] sorts. *)
Definition candidates (transports : list SessionTransport) (adapters : list TransportAdapter)
    (explicit : option TransportProtocol) (automatic_excluded : gset TransportProtocol) : list SessionTransport :=
  let supported := filter (fun t => existsb (fun a => adapter_supports a t) adapters = true) transports in
  let chosen := filter (fun t => match explicit with Some p => bool_decide (p = tp_protocol (st_profile t)) | None => true end = true) supported in
  let allowed := filter (fun t => tp_protocol (st_profile t) ∉ automatic_excluded) chosen in
  if bool_decide (explicit = None) && (0 <? length allowed)%nat then allowed else chosen.

(** [rank_for], [rank_with_preference] and [rank]. *)
Definition rank_for (policy : SelectionPolicy) (transports : list SessionTransport) (adapters : list TransportAdapter)
    (h : TransportHistory) (now : Z) (explicit : option TransportProtocol) (automatic_excluded : gset TransportProtocol) : list SessionTransport :=
  let preference := match explicit with Some p => Some p | None => preferred_protocol policy end in
  let sorted := sort_by_key (rank_key h now preference) (candidates transports adapters explicit automatic_excluded) in
  take (Z.to_nat (Z.max (max_attempts policy) 1)) sorted.
Definition rank_with_preference policy transports adapters h now preferred :=
  rank_for policy transports adapters h now preferred ∅.
Definition rank policy transports adapters h now := rank_with_preference policy transports adapters h now None.

(** ** Histories stay small *)

Lemma first_key_some {A} (m : gmap (list byte) A) : m <> ∅ ->
  exists k, first_key m = Some k /\ is_Some (m !! k) /\ forall j, is_Some (m !! j) -> cmp k j <> Gt.
Proof.
  intros Hm. unfold first_key. destruct (min_by_key (fun k => k) (map fst (map_to_list m))) as [k|] eqn:E.
  - exists k. apply (min_by_key_some (fun k : list byte => k)) in E as [Hin Hle]. apply elem_of_map in Hin as ([k' x] & -> & Hin).
    apply elem_of_map_to_list in Hin. split_and!; [done|by eexists|]. intros j [y Hj].
    specialize (Hle j). unfold key_le in Hle. assert (j ∈ map fst (map_to_list m)) as Hj'.
    { apply elem_of_map. exists (j, y). split; [done|]. by apply elem_of_map_to_list. }
    specialize (Hle Hj'). cbn in *. by destruct (cmp k' j).
  - apply (min_by_key_none (fun k : list byte => k)) in E. apply map_eq_nil in E. by apply map_to_list_empty_iff in E.
Qed.

(** The loop ends with at most the cap, whatever the history, and as many
    rounds as there are records suffice. *)
Lemma bound_loop_enough rounds h : (size h <= rounds)%nat ->
  (size (bound_loop rounds h) <= MAX_RECORDS)%nat /\ bound_loop (S rounds) h = bound_loop rounds h.
Proof.
  revert h; induction rounds as [|rounds IH]; intros h Hr.
  - cbn [bound_loop]. rewrite (proj2 (Nat.ltb_ge _ _)) by (unfold MAX_RECORDS; lia). split; [unfold MAX_RECORDS; lia|done].
  - change (bound_loop (S (S rounds)) h) with (if (MAX_RECORDS <? size h)%nat then match first_key h with Some oldest => bound_loop (S rounds) (delete oldest h) | None => h end else h).
    cbn [bound_loop]. destruct (Nat.ltb_spec MAX_RECORDS (size h)) as [Hlt|]; [|done].
    destruct (first_key_some h) as (k & -> & Hk & _). { intros ->. rewrite map_size_empty in Hlt. unfold MAX_RECORDS in Hlt. lia. }
    apply IH. rewrite map_size_delete_Some by done. lia.
Qed.

(** What is kept is unchanged, and what is dropped comes before it. *)
Lemma bound_loop_sub rounds h : bound_loop rounds h ⊆ h.
Proof.
  revert h; induction rounds as [|rounds IH]; intros h; cbn [bound_loop]; [done|].
  destruct (MAX_RECORDS <? size h)%nat; [|done]. destruct (first_key h) as [o|]; [|done]. etrans; [apply IH|apply delete_subseteq].
Qed.

Lemma bound_loop_dropped rounds h k j :
  is_Some (h !! k) -> bound_loop rounds h !! k = None -> is_Some (bound_loop rounds h !! j) -> cmp k j <> Gt.
Proof.
  revert h; induction rounds as [|rounds IH]; intros h [r Hk] Hn Hj; cbn [bound_loop] in *; [congruence|].
  destruct (MAX_RECORDS <? size h)%nat eqn:E; [|congruence]. apply Nat.ltb_lt in E.
  destruct (first_key_some h) as (o & Ho & _ & Hmin). { intros ->. rewrite map_size_empty in E. unfold MAX_RECORDS in E. lia. }
  rewrite Ho in *. destruct (decide (o = k)) as [->|Hne].
  - apply Hmin. destruct Hj as [x Hj]. exists x. pose proof (bound_loop_sub rounds (delete k h)) as HS.
    eapply lookup_weaken in Hj; [|exact HS]. by apply lookup_delete_Some in Hj as [_ Hj].
  - eapply IH; [|exact Hn|exact Hj]. exists r. by rewrite lookup_delete_ne.
Qed.

Lemma bound_same h : (size h <= MAX_RECORDS)%nat -> bound h = h.
Proof. intros Hs. unfold bound. destruct (size h) as [|n] eqn:E; [done|]. cbn [bound_loop]. rewrite E. by rewrite (proj2 (Nat.ltb_ge _ _)). Qed.

(** ** Ranking *)

Lemma candidates_spec transports adapters explicit excluded t :
  t ∈ candidates transports adapters explicit excluded ->
  t ∈ transports /\ existsb (fun a => adapter_supports a t) adapters = true /\
  (forall p, explicit = Some p -> tp_protocol (st_profile t) = p).
Proof.
  unfold candidates. destruct (_ && _); rewrite !list_elem_of_filter.
  - intros (_ & He & Ha & Ht). split_and!; [done..|]. intros p ->. by bool_prop.
  - intros (He & Ha & Ht). split_and!; [done..|]. intros p ->. by bool_prop.
Qed.

(** Excluded protocols are candidates only where nothing else is. *)
Lemma candidates_excluded transports adapters excluded t u :
  t ∈ candidates transports adapters None excluded -> tp_protocol (st_profile t) ∈ excluded ->
  u ∈ transports -> existsb (fun a => adapter_supports a u) adapters = true -> tp_protocol (st_profile u) ∈ excluded.
Proof.
  unfold candidates. set (chosen := filter _ (filter _ transports)). set (allowed := filter _ chosen).
  assert (forall x, x ∈ allowed -> tp_protocol (st_profile x) ∉ excluded) as HA by (intros x; subst allowed; by rewrite list_elem_of_filter; intros [? _]).
  cbn [bool_decide decide_rel andb]. rewrite bool_decide_true by done. cbn [andb].
  destruct (Nat.ltb_spec 0 (length allowed)) as [Hl|Hl].
  - intros Ht Hx. by apply HA in Ht.
  - intros _ _ Hu Hs. destruct (decide (tp_protocol (st_profile u) ∈ excluded)) as [|Hn]; [done|exfalso].
    assert (u ∈ allowed) as Hin by (subst allowed chosen; by rewrite !list_elem_of_filter).
    destruct allowed; [by apply not_elem_of_nil in Hin|cbn in Hl; lia].
Qed.

Lemma rank_split policy transports adapters h now explicit excluded :
  let preference := match explicit with Some p => Some p | None => preferred_protocol policy end in
  let key := rank_key h now preference in
  let all := candidates transports adapters explicit excluded in
  let ranked := rank_for policy transports adapters h now explicit excluded in
  exists rest, ranked ++ rest ≡ₚ all /\ StronglySorted (fun t u => key_le key t u = true) (ranked ++ rest) /\
    zlen ranked = Z.min (Z.max (max_attempts policy) 1) (zlen all).
Proof.
  cbn zeta. unfold rank_for. set (key := rank_key h now _). set (all := candidates _ _ _ _). set (n := Z.to_nat (Z.max (max_attempts policy) 1)).
  exists (drop n (sort_by_key key all)). rewrite take_drop. split_and!; [apply sort_by_perm|by apply sort_by_sorted; apply _|].
  unfold zlen. rewrite length_take. assert (length (sort_by_key key all) = length all) as -> by (apply Permutation_length, sort_by_perm). lia.
Qed.

(** * transport_memory.rs *)

Definition MAX_NETWORKS : nat := 16.
Definition MAX_FILE_BYTES : Z := 256 * 1024.

Record RememberedNetwork := mkRemembered { seen_at : Z; rn_history : TransportHistory }.
Record MemoryFile := mkMemory { mf_salt : list byte; mf_networks : gmap (list byte) RememberedNetwork }.
Definition memory_default : MemoryFile := mkMemory [] ∅.

(** [hex]. *)
Definition hex_nibble (d : Z) : byte := if d <? 10 then z2b (48 + d) else z2b (87 + d).
Definition hex (bytes : list byte) : list byte := flat_map (fun b => [hex_nibble (b2z b / 16); hex_nibble (b2z b mod 16)]) bytes.

(** The first network of those seen longest ago, in the order of the keys. *)
Definition oldest_network (m : gmap (list byte) RememberedNetwork) : option (list byte) :=
  option_map fst (min_by_key (fun p => seen_at p.2) (sort_by_key fst (map_to_list m))).
Fixpoint forget_networks (rounds : nat) (m : gmap (list byte) RememberedNetwork) : gmap (list byte) RememberedNetwork :=
  match rounds with
  | O => m
  | S rounds =>
    if (MAX_NETWORKS <? size m)%nat then
      match oldest_network m with
      | Some oldest => forget_networks rounds (delete oldest m)
      | None => m
      end
    else m
  end.

Section memory.
Context `{Hashes} `{Json MemoryFile}.

(** [network_key]. *)
Definition network_key (salt network : list byte) : list byte := hex (take 16 (sha256 (salt ++ [z2b 0] ++ network))).

(** [read_file] of what the path holds, and [write_file]. *)
Definition read_memory (disk : option (list byte)) : option MemoryFile :=
  match disk with
  | None => None
  | Some content => if MAX_FILE_BYTES <? zlen content then None else json_from_slice content
  end.
Definition write_memory (writable : bool) (file : MemoryFile) (disk : option (list byte)) : option (list byte) :=
  match json_to_vec file with
  | None => disk
  | Some encoded => if writable then Some encoded else disk
  end.

(** [load] and [save]; [network] is the physical network now, [salt] the 32
    random bytes a new file would be given. *)
Definition memory_load (network : option (list byte)) (disk : option (list byte)) : TransportHistory :=
  match network with
  | None => ∅
  | Some network =>
    let file := default memory_default (read_memory disk) in
    match mf_networks file !! network_key (mf_salt file) network with
    | Some remembered => rn_history remembered
    | None => ∅
    end
  end.
Definition memory_base (salt : list byte) (disk : option (list byte)) : MemoryFile :=
  let file := default memory_default (read_memory disk) in
  if negb (zlen (mf_salt file) =? 64) then mkMemory (hex salt) ∅ else file.
Definition memory_saved (network salt : list byte) (now : Z) (h : TransportHistory) (disk : option (list byte)) : MemoryFile :=
  let file := memory_base salt disk in
  let networks := <[network_key (mf_salt file) network := mkRemembered now h]> (mf_networks file) in
  mkMemory (mf_salt file) (forget_networks (size networks) networks).
Definition memory_save (network : option (list byte)) (salt : list byte) (now : Z) (writable : bool) (h : TransportHistory)
    (disk : option (list byte)) : option (list byte) :=
  match network with
  | None => disk
  | Some network => write_memory writable (memory_saved network salt now h disk) disk
  end.

Lemma oldest_network_some m : m <> ∅ ->
  exists k r, oldest_network m = Some k /\ m !! k = Some r /\ map_Forall (fun _ x => seen_at r <= seen_at x) m.
Proof.
  intros Hm. unfold oldest_network, sort_by_key. destruct (min_by_key _ _) as [[k r]|] eqn:E.
  - exists k, r. apply (min_by_key_some (fun p : list byte * RememberedNetwork => seen_at p.2)) in E as [Hin Hle].
    rewrite elem_of_sort_by in Hin. apply elem_of_map_to_list in Hin. split_and!; [done..|]. intros j x Hj.
    specialize (Hle (j, x)). rewrite elem_of_sort_by in Hle. specialize (Hle ltac:(by apply elem_of_map_to_list)).
    unfold key_le, cmp, Z_cmp in Hle. cbn in Hle. destruct (Z.compare_spec (seen_at r) (seen_at x)); (lia || done).
  - apply (min_by_key_none (fun p : list byte * RememberedNetwork => seen_at p.2)) in E.
    pose proof (sort_by_perm (key_le fst) (map_to_list m)) as HP. rewrite E in HP.
    apply Permutation_nil_l in HP. symmetry in HP. by apply map_to_list_empty_iff in HP.
Qed.

(** The networks seen at a time or later. *)
Definition seen_since (now : Z) (m : gmap (list byte) RememberedNetwork) : nat := size (filter (fun p => now <= seen_at p.2) m).

Lemma forget_networks_keeps rounds m k r : (size m <= rounds)%nat -> m !! k = Some r -> (seen_since (seen_at r) m <= MAX_NETWORKS)%nat ->
  forget_networks rounds m !! k = Some r.
Proof.
  revert m; induction rounds as [|rounds IH]; intros m Hr Hk Hs; cbn [forget_networks]; [done|].
  destruct (Nat.ltb_spec MAX_NETWORKS (size m)) as [Hlt|]; [|done].
  destruct (oldest_network_some m) as (o & x & -> & Ho & Hmin). { intros ->. rewrite map_size_empty in Hlt. lia. }
  assert (o <> k) as Hne.
  { intros ->. assert (x = r) as -> by congruence. unfold seen_since in Hs.
    assert (filter (fun p : list byte * RememberedNetwork => seen_at r <= seen_at p.2) m = m) as E.
    { apply map_filter_id. intros j y Hj. by apply (Hmin j). }
    rewrite E in Hs. lia. }
  apply IH.
  - rewrite map_size_delete_Some by eauto. lia.
  - by rewrite lookup_delete_ne.
  - etrans; [|exact Hs]. unfold seen_since. apply map_subseteq_size. apply map_filter_strong_subseteq_ext.
    intros j y [Hy Hj]. by apply lookup_delete_Some in Hj as [_ Hj].
Qed.

Lemma forget_networks_bound rounds m : (size m <= rounds)%nat -> (size (forget_networks rounds m) <= MAX_NETWORKS)%nat.
Proof.
  revert m; induction rounds as [|rounds IH]; intros m Hr; cbn [forget_networks]; [unfold MAX_NETWORKS; lia|].
  destruct (Nat.ltb_spec MAX_NETWORKS (size m)) as [Hlt|]; [|done].
  destruct (oldest_network_some m) as (o & x & -> & Ho & _). { intros ->. rewrite map_size_empty in Hlt. lia. }
  apply IH. rewrite map_size_delete_Some by eauto. lia.
Qed.
End memory.

(** * Properties *)

(** a connection tries the best transports first: the ranking is a sorted
    prefix of all it could try, as many as the policy allows and at least one
    if there is any; each is one an adapter supports and of the protocol asked
    for, if one is; and in Automatic a protocol the user left out appears only
    when nothing else is supported. *)
Theorem rank_best_first policy transports adapters h now explicit excluded :
  let preference := match explicit with Some p => Some p | None => preferred_protocol policy end in
  let key := rank_key h now preference in
  let all := candidates transports adapters explicit excluded in
  let ranked := rank_for policy transports adapters h now explicit excluded in
  (exists rest, ranked ++ rest ≡ₚ all /\ StronglySorted (fun t u => key_le key t u = true) (ranked ++ rest) /\
     zlen ranked = Z.min (Z.max (max_attempts policy) 1) (zlen all)) /\
  Forall (fun t => t ∈ transports /\ existsb (fun a => adapter_supports a t) adapters = true /\
                   forall p, explicit = Some p -> tp_protocol (st_profile t) = p) ranked /\
  (explicit = None -> forall t u, t ∈ ranked -> tp_protocol (st_profile t) ∈ excluded ->
     u ∈ transports -> existsb (fun a => adapter_supports a u) adapters = true -> tp_protocol (st_profile u) ∈ excluded).
Proof.
  cbn zeta. pose proof (rank_split policy transports adapters h now explicit excluded) as HR. cbn zeta in HR.
  destruct HR as (rest & HP & HS & HL).
  assert (forall t, t ∈ rank_for policy transports adapters h now explicit excluded -> t ∈ candidates transports adapters explicit excluded) as Hin.
  { intros t Ht. rewrite <- HP, elem_of_app. by left. }
  split_and!; [by exists rest|rewrite Forall_forall; intros t Ht; by eapply candidates_spec, Hin|].
  intros -> t u Ht. apply candidates_excluded. by apply Hin.
Qed.

(** Trimming a history always ends - as many rounds as it has records
    suffice, further ones change nothing - with at most 32 records, each as it
    was, and only ones dropped that come before all that stay. *)
Theorem history_bounded h :
  (size (bound h) <= MAX_RECORDS)%nat /\ bound h ⊆ h /\ bound_loop (S (size h)) h = bound h /\
  (forall k j, is_Some (h !! k) -> bound h !! k = None -> is_Some (bound h !! j) -> cmp k j <> Gt) /\
  ((size h <= MAX_RECORDS)%nat -> bound h = h).
Proof.
  destruct (bound_loop_enough (size h) h (le_n _)) as [HB HE]. split_and!; [done|apply bound_loop_sub|done| |apply bound_same].
  intros k j. apply bound_loop_dropped.
Qed.

(** A failure keeps a transport back for a time that doubles with each in a
    row up to eight times the base, never more than two minutes from now, and
    a success clears it; a transport cooling down ranks after every one that
    is not. *)
Theorem failure_cools_down id now base h t u preference :
  0 <= now -> now + 120 <= u64_max -> 0 <= base -> (size h < MAX_RECORDS)%nat ->
  (forall r, h !! id = Some r -> 0 <= consecutive_failures r < u32_max) ->
  (exists r, record_failure id now base h !! id = Some r /\ 1 <= consecutive_failures r /\
     now <= cooldown_until r <= now + 120 /\
     cooldown_until r = now + Z.min (base * 2 ^ Z.min (consecutive_failures r - 1) 3) 120) /\
  (forall latency, record_success id latency h !! id = Some (mkRecord 0 (Some latency) 0 true)) /\
  (fst (fst (fst (fst (fst (fst (rank_key h now preference t)))))) = false ->
   fst (fst (fst (fst (fst (fst (rank_key h now preference u)))))) = true ->
   key_le (rank_key h now preference) t u = true /\ key_le (rank_key h now preference) u t = false).
Proof.
  intros Hn Hm Hb Hs Hc.
  assert (forall r, (size (<[id := r]> h) <= MAX_RECORDS)%nat) as Hsize.
  { intros r. destruct (h !! id) eqn:E; [rewrite map_size_insert_Some by eauto|rewrite map_size_insert_None by done]; lia. }
  split_and!.
  - unfold record_failure. rewrite bound_same by apply Hsize. eexists. split; [apply lookup_insert_eq|]. cbn [consecutive_failures cooldown_until].
    assert (0 <= consecutive_failures (default record_default (h !! id)) < u32_max) as Hf.
    { destruct (h !! id) as [r|]; [by apply Hc|cbn; unfold u32_max; lia]. }
    set (f := consecutive_failures (default record_default (h !! id))) in *. rewrite (Z.min_l (f + 1)) by lia.
    replace (f + 1 - 1) with f by lia. rewrite (Z.max_l f 0) by lia. rewrite Z.shiftl_1_l.
    assert (0 < 2 ^ Z.min f 3) as Hp by (apply Z.pow_pos_nonneg; lia). unfold sat_add64, sat_mul64, u64_max in *.
    assert (0 <= base * 2 ^ Z.min f 3) by nia. lia.
  - intros latency. unfold record_success. rewrite bound_same by apply Hsize. apply lookup_insert_eq.
  - unfold key_le. destruct (rank_key h now preference t) as [[[[[[a1 a2] a3] a4] a5] a6] a7].
    destruct (rank_key h now preference u) as [[[[[[b1 b2] b3] b4] b5] b6] b7]. cbn. intros -> ->. done.
Qed.

Lemma failure_cools_down_witness :
  exists r, record_failure (str "hy2") 1000 15 {[str "hy2" := mkRecord 2 None 0 true]} !! str "hy2" = Some r /\ cooldown_until r = 1060.
Proof.
  destruct (failure_cools_down (str "hy2") 1000 15 {[str "hy2" := mkRecord 2 None 0 true]}
    (mkTransport (mkProfile (str "hy2") [] Hysteria2 [] 1 Udp 1 None ∅) None) (mkTransport (mkProfile (str "x") [] Hysteria2 [] 1 Udp 1 None ∅) None) None)
    as [(r & Hr & _ & _ & Hc) _]; [by vm_compute|by vm_compute|by vm_compute|vm_compute; lia|..].
  - intros r. rewrite lookup_singleton_eq. intros [= <-]. by vm_compute.
  - exists r. split; [exact Hr|]. rewrite Hc. assert (consecutive_failures r = 3) as ->; [|by vm_compute].
    vm_compute in Hr. injection Hr as <-. reflexivity.
Defined.

(** a history saved on a network is the one loaded there next, whatever
    other networks the file remembers, as long as it was written, is within
    the size read back, and no sixteen others were seen as recently; and the
    file never remembers more than sixteen. *)
Theorem memory_roundtrip `{Hashes} `{Json MemoryFile} `{!JsonLaws MemoryFile} network salt now h disk encoded :
  json_to_vec (memory_saved network salt now h disk) = Some encoded -> zlen encoded <= MAX_FILE_BYTES ->
  (let file := memory_base salt disk in
   seen_since now (<[network_key (mf_salt file) network := mkRemembered now h]> (mf_networks file)) <= MAX_NETWORKS)%nat ->
  memory_load (Some network) (memory_save (Some network) salt now true h disk) = h /\
  (size (mf_networks (memory_saved network salt now h disk)) <= MAX_NETWORKS)%nat.
Proof.
  intros HJ Hlen Hs. split.
  - unfold memory_save, write_memory. rewrite HJ. unfold memory_load, read_memory. rewrite (proj2 (Z.ltb_ge _ _)) by done.
    destruct (json_roundtrip _ _ HJ) as [-> _]. cbn [default from_option id]. unfold memory_saved. cbn [mf_networks mf_salt].
    rewrite (forget_networks_keeps _ _ _ (mkRemembered now h)); [done|done|apply lookup_insert_eq|exact Hs].
  - unfold memory_saved. cbn [mf_networks]. by apply forget_networks_bound.
Qed.

Global Instance TransportRecord_eq_dec : EqDecision TransportRecord.
Proof. solve_decision. Defined.
Global Instance RememberedNetwork_eq_dec : EqDecision RememberedNetwork.
Proof. solve_decision. Defined.
Global Instance MemoryFile_eq_dec : EqDecision MemoryFile.
Proof. solve_decision. Defined.

(** A codec that knows one file. *)
Definition one_file_json (file : MemoryFile) : Json MemoryFile :=
  {| json_to_vec := fun v => if decide (v = file) then Some [z2b 123] else None; json_from_slice := fun _ => Some file |}.
Lemma one_file_laws file : @JsonLaws MemoryFile (one_file_json file).
Proof. intros v bytes Hv. cbn in Hv. destruct (decide (v = file)) as [->|]; [|done]. by injection Hv as <-. Qed.
Definition demo_hashes : Hashes := {| sha256 := fun m => take 32 (rev m ++ replicate 32 (z2b 0)); sha3_256 := fun m => take 32 (m ++ replicate 32 (z2b 0)) |}.
Definition demo_history : TransportHistory := {[str "hy2" := mkRecord 0 (Some 40) 0 true]}.
Definition demo_salt : list byte := replicate 32 (z2b 7).
Definition demo_file : MemoryFile :=
  mkMemory (hex demo_salt) {[@network_key demo_hashes (hex demo_salt) (str "wlan0") := mkRemembered 100 demo_history]}.

Lemma memory_roundtrip_witness :
  @memory_load demo_hashes (one_file_json demo_file) (Some (str "wlan0"))
    (@memory_save demo_hashes (one_file_json demo_file) (Some (str "wlan0")) demo_salt 100 true demo_history None) = demo_history.
Proof.
  refine (proj1 (@memory_roundtrip demo_hashes (one_file_json demo_file) (one_file_laws demo_file) (str "wlan0") demo_salt 100 demo_history None
    [z2b 123] _ _ _)); [vm_compute; reflexivity|by vm_compute|vm_compute; lia].
Defined.
