(* ===== verification/Routes.v ===== *)
(** Model of crates/ket-client-core/src/route_keeper/plan.rs and mod.rs: which
    way each destination kept outside the tunnel leaves the device, and the
    keeper that holds the routing table to it. *)

From Stdlib Require Import ZArith Lia.
From stdpp Require Import gmap sorting strings.
From S2P Require Import Prelude Order Net Bypass Grant.

(** * plan.rs *)

(** [Family] and [Family::of]. *)
Inductive Family := FamilyV4 | FamilyV6.
Global Instance Family_eq_dec : EqDecision Family.
Proof. solve_decision. Defined.
Definition family_of (a : IpAddr) : Family := match a with V4 _ => FamilyV4 | V6 _ => FamilyV6 end.

Record DefaultRoute := mkRoute {
  dr_family : Family; dr_interface : list byte; dr_interface_index : Z; dr_gateway : option IpAddr; dr_metric : Z;
}.
Record OnLinkNetwork := mkOnLink { ol_prefix : IpPrefix; ol_interface : list byte }.
Inductive ServerPath := Via (r : DefaultRoute) | PathUnreachable.
Inductive RouteAction :=
| Install (destination : IpPrefix) (path : ServerPath) (replacing : option ServerPath)
| Remove (destination : IpPrefix) (path : ServerPath).

Global Instance DefaultRoute_eq_dec : EqDecision DefaultRoute.
Proof. solve_decision. Defined.
Global Instance ServerPath_eq_dec : EqDecision ServerPath.
Proof. solve_decision. Defined.

(** [best_default]. *)
Definition best_default (routes : list DefaultRoute) (family : Family) (tunnel_interface : list byte) : option DefaultRoute :=
  min_by_key (fun r => (dr_metric r, dr_interface_index r))
    (filter (fun r => dr_family r = family /\ dr_interface r <> tunnel_interface) routes).

(** The parts of [plan] for one destination. *)
Definition attached (on_link : list OnLinkNetwork) (tunnel_interface : list byte) (destination : IpPrefix) : bool :=
  existsb (fun n => negb (bool_decide (ol_interface n = tunnel_interface)) && (0 <? p_length (ol_prefix n))
                    && prefix_contains (ol_prefix n) destination) on_link.
Definition desired (routes : list DefaultRoute) (tunnel_interface : list byte) (destination : IpPrefix) : ServerPath :=
  match best_default routes (family_of (p_address destination)) tunnel_interface with
  | Some r => Via r
  | None => PathUnreachable
  end.
Definition plan_one (routes : list DefaultRoute) (on_link : list OnLinkNetwork) (applied : gmap IpPrefix ServerPath)
    (tunnel_interface : list byte) (destination : IpPrefix) : option RouteAction :=
  let current := applied !! destination in
  if attached on_link tunnel_interface destination then
    match current with Some path => Some (Remove destination path) | None => None end
  else
    let path := desired routes tunnel_interface destination in
    if bool_decide (current = Some path) then None else Some (Install destination path current).

(** [plan] and [release]. *)
Definition plan (routes : list DefaultRoute) (on_link : list OnLinkNetwork) (destinations : list IpPrefix)
    (applied : gmap IpPrefix ServerPath) (tunnel_interface : list byte) : list RouteAction :=
  omap (plan_one routes on_link applied tunnel_interface) destinations.
Definition release_plan (applied : gmap IpPrefix ServerPath) : list RouteAction :=
  map (fun p => Remove p.1 p.2) (map_to_list applied).

(** * mod.rs *)

(** [destinations]. *)
Definition add_once (l : list IpPrefix) (p : IpPrefix) : list IpPrefix := if bool_decide (p ∈ l) then l else l ++ [p].
Definition destinations (servers : list IpAddr) (bypass : list IpPrefix) : list IpPrefix :=
  fold_left add_once bypass (map prefix_host servers).

(** The trait [RouteSystem] over a state [K] of the platform: reading may fail
    ([None]), and so may applying an action ([false]). *)
Class RouteSystem (K : Type) := {
  default_routes : K -> option (list DefaultRoute);
  on_link_networks : K -> option (list OnLinkNetwork);
  apply_action : RouteAction -> K -> bool * K;
  clear_stale : K -> bool * K;
}.

Record Keeper (K : Type) := mkKeeper {
  k_system : K; k_destinations : list IpPrefix; k_tunnel : list byte; k_applied : gmap IpPrefix ServerPath; k_report : NetworkReport;
}.
Arguments mkKeeper {K}. Arguments k_system {K}. Arguments k_destinations {K}. Arguments k_tunnel {K}. Arguments k_applied {K}. Arguments k_report {K}.

Section keeper.
Context {K : Type} `{RouteSystem K}.

(** The loop of [refresh] over the actions: whether all were applied, whether
    anything moved, and the routes recorded. *)
Fixpoint apply_all (actions : list RouteAction) (system : K) (applied : gmap IpPrefix ServerPath) (moved : bool)
    : bool * bool * K * gmap IpPrefix ServerPath :=
  match actions with
  | [] => (true, moved, system, applied)
  | action :: actions =>
    let '(ok, system) := apply_action action system in
    if negb ok then (false, moved, system, applied)
    else match action with
    | Install destination path replacing =>
      apply_all actions system (<[destination := path]> applied) (moved || bool_decide (is_Some replacing))
    | Remove destination _ => apply_all actions system (delete destination applied) true
    end
  end.

Definition all_unreachable (applied : gmap IpPrefix ServerPath) : bool :=
  negb (bool_decide (applied = ∅)) && forallb (fun p => bool_decide (p.2 = PathUnreachable)) (map_to_list applied).

(** [refresh]. *)
Definition refresh (k : Keeper K) : bool * Keeper K :=
  match default_routes (k_system k) with
  | None => (false, k)
  | Some routes =>
    match on_link_networks (k_system k) with
    | None => (false, k)
    | Some on_link =>
      let actions := plan routes on_link (k_destinations k) (k_applied k) (k_tunnel k) in
      let '(ok, moved, system, applied) := apply_all actions (k_system k) (k_applied k) false in
      let report := if ok then mkReport (generation (k_report k) + if moved then 1 else 0) (all_unreachable applied) else k_report k in
      (ok, mkKeeper system (k_destinations k) (k_tunnel k) applied report)
    end
  end.

(** [release]: what cannot be removed is left. *)
Fixpoint release_all (actions : list RouteAction) (system : K) : K :=
  match actions with
  | [] => system
  | action :: actions => release_all actions (apply_action action system).2
  end.
Definition keeper_release (k : Keeper K) : Keeper K :=
  mkKeeper (release_all (release_plan (k_applied k)) (k_system k)) (k_destinations k) (k_tunnel k) ∅ (k_report k).

(** [engage_with]: the keeper, or the system as a failed start leaves it. *)
Definition engage_with (system : K) (destinations : list IpPrefix) (tunnel_interface : list byte) : Keeper K + K :=
  let '(cleared, system) := clear_stale system in
  if negb cleared then inr system
  else
    let '(ok, k) := refresh (mkKeeper system destinations tunnel_interface ∅ network_default) in
    if ok then inl k else inr (k_system (keeper_release k)).
End keeper.

(** ** The plan *)

Lemma best_default_spec routes family tunnel r : best_default routes family tunnel = Some r ->
  r ∈ routes /\ dr_family r = family /\ dr_interface r <> tunnel /\
  forall s, s ∈ routes -> dr_family s = family -> dr_interface s <> tunnel ->
    key_le (fun r => (dr_metric r, dr_interface_index r)) r s = true.
Proof.
  unfold best_default. intros [Hin Hle]%(min_by_key_some (fun r => (dr_metric r, dr_interface_index r))).
  rewrite list_elem_of_filter in Hin. destruct Hin as [[Hf Hi] Hin]. split_and!; [done..|].
  intros s Hs Hsf Hsi. apply Hle. by rewrite list_elem_of_filter.
Qed.

Lemma best_default_none routes family tunnel : best_default routes family tunnel = None <->
  forall r, r ∈ routes -> dr_family r = family -> dr_interface r = tunnel.
Proof.
  unfold best_default. rewrite (min_by_key_none (fun r => (dr_metric r, dr_interface_index r))). split.
  - intros E r Hr Hf. destruct (decide (dr_interface r = tunnel)) as [|Hn]; [done|exfalso].
    assert (r ∈ filter (fun r => dr_family r = family /\ dr_interface r <> tunnel) routes) as Hin by (by rewrite list_elem_of_filter).
    rewrite E in Hin. by apply not_elem_of_nil in Hin.
  - intros HA. apply elem_of_nil_inv. intros r. rewrite list_elem_of_filter. intros [[Hf Hn] Hr]. by apply Hn, HA.
Qed.

(** What the table should hold for a destination. *)
Definition target_path (routes : list DefaultRoute) (on_link : list OnLinkNetwork) (tunnel : list byte) (d : IpPrefix) : option ServerPath :=
  if attached on_link tunnel d then None else Some (desired routes tunnel d).

Lemma plan_one_none routes on_link applied tunnel d :
  plan_one routes on_link applied tunnel d = None <-> applied !! d = target_path routes on_link tunnel d.
Proof.
  unfold plan_one, target_path. destruct (attached on_link tunnel d); [by destruct (applied !! d)|]. case_bool_decide; done.
Qed.

(** The state of the recorded routes after one action. *)
Definition act (a : RouteAction) (applied : gmap IpPrefix ServerPath) : gmap IpPrefix ServerPath :=
  match a with Install d path _ => <[d := path]> applied | Remove d _ => delete d applied end.

Lemma plan_one_act routes on_link applied tunnel d a m :
  plan_one routes on_link applied tunnel d = Some a ->
  act a m !! d = target_path routes on_link tunnel d /\ forall e, e <> d -> act a m !! e = m !! e.
Proof.
  unfold plan_one, target_path. destruct (attached on_link tunnel d).
  - destruct (applied !! d); [|done]. intros [= <-]. cbn. split; [apply lookup_delete_eq|intros; by apply lookup_delete_ne].
  - case_bool_decide; [done|]. intros [= <-]. cbn. split; [apply lookup_insert_eq|intros; by apply lookup_insert_ne].
Qed.

(** Applying a whole plan. *)
Lemma plan_effect routes on_link tunnel applied ds m :
  NoDup ds -> (forall d, d ∈ ds -> m !! d = applied !! d) ->
  let m' := fold_left (fun m a => act a m) (plan routes on_link ds applied tunnel) m in
  (forall d, d ∈ ds -> m' !! d = target_path routes on_link tunnel d) /\ (forall d, d ∉ ds -> m' !! d = m !! d).
Proof.
  cbn zeta. intros HN. revert m; induction HN as [|d ds Hd HN IH]; intros m Hm; cbn; [split; [intros d Hd; by apply not_elem_of_nil in Hd|done]|].
  destruct (plan_one routes on_link applied tunnel d) as [a|] eqn:E; cbn [fold_left].
  - destruct (plan_one_act _ _ _ _ _ _ m E) as [Ha Hne].
    destruct (IH (act a m)) as [H1 H2]. { intros e He. rewrite Hne by (intros ->; done). apply Hm. by right. }
    split.
    + intros e [->|He]%elem_of_cons; [by rewrite H2|by apply H1].
    + intros e [? ?]%not_elem_of_cons. rewrite H2 by done. by apply Hne.
  - destruct (IH m) as [H1 H2]. { intros e He. apply Hm. by right. }
    split.
    + intros e [->|He]%elem_of_cons; [|by apply H1]. rewrite H2, Hm by (done || left). by apply plan_one_none.
    + intros e [? ?]%not_elem_of_cons. by apply H2.
Qed.

(** ** The keeper and the routing table *)

Definition destination_of (a : RouteAction) : IpPrefix := match a with Install d _ _ => d | Remove d _ => d end.
(** What a platform does with the routes that carry Ket's mark: an applied
    action changes them as it says; a failed one may have removed the route of
    its own destination - Windows deletes the route it replaces before it
    creates the new one - and touches no other; neither changes the default
    routes and the attached networks the keeper reads, as none of Ket's is a
    default route; and clearing removes what an earlier process left, though
    IPv6 routes may stay - Linux ignores whether flushing those worked. *)
Class RouteSystemLaws (K : Type) `{RouteSystem K} := {
  ket_routes : K -> gmap IpPrefix ServerPath;
  apply_ok a k k' : apply_action a k = (true, k') -> ket_routes k' = act a (ket_routes k);
  apply_failed a k k' : apply_action a k = (false, k') ->
    ket_routes k' = ket_routes k \/ ket_routes k' = delete (destination_of a) (ket_routes k);
  apply_reads a k : 0 < p_length (destination_of a) ->
    default_routes (apply_action a k).2 = default_routes k /\ on_link_networks (apply_action a k).2 = on_link_networks k;
  clear_ok k k' d path : clear_stale k = (true, k') -> ket_routes k' !! d = Some path ->
    prefix_is_ipv4 d = false /\ ket_routes k !! d = Some path;
}.

Section laws.
Context {K : Type} `{RouteSystemLaws K}.

(** Ket's routes in the table are recorded, or were left by an earlier process. *)
Definition accounted_for (stale applied table : gmap IpPrefix ServerPath) : Prop :=
  forall d path, table !! d = Some path -> applied !! d = Some path \/ (applied !! d = None /\ stale !! d = Some path).
Lemma accounted_act stale applied table a : accounted_for stale applied table -> accounted_for stale (act a applied) (act a table).
Proof.
  intros HA d path. destruct a as [e q r|e q]; cbn [act]; (destruct (decide (d = e)) as [->|Hne];
    [rewrite ?lookup_insert_eq, ?lookup_delete_eq|rewrite ?lookup_insert_ne, ?lookup_delete_ne by done]); auto; done.
Qed.
Lemma accounted_less stale applied table table' : accounted_for stale applied table -> table' ⊆ table -> accounted_for stale applied table'.
Proof. intros HA HS d path Hd. apply HA. by eapply lookup_weaken. Qed.
Lemma failed_less a k k' : apply_action a k = (false, k') -> ket_routes k' ⊆ ket_routes k.
Proof. intros [->| ->]%apply_failed; [done|]. apply delete_subseteq. Qed.

(** The loop over the actions: those before the first failure are applied, to
    the record and to the table. *)
Lemma apply_all_spec actions system applied moved ok mv system' applied' :
  Forall (fun a => 0 < p_length (destination_of a)) actions -> apply_all actions system applied moved = (ok, mv, system', applied') ->
  default_routes system' = default_routes system /\ on_link_networks system' = on_link_networks system /\
  (forall stale, accounted_for stale applied (ket_routes system) -> accounted_for stale applied' (ket_routes system')) /\
  (ok = true -> applied' = fold_left (fun m a => act a m) actions applied /\ ket_routes system' = fold_left (fun m a => act a m) actions (ket_routes system)) /\
  exists pre, pre `prefix_of` actions /\ applied' = fold_left (fun m a => act a m) pre applied.
Proof.
  intros HL. revert system applied moved; induction HL as [|a actions Ha HL IH]; intros system applied moved; cbn [apply_all].
  - intros [= <- <- <- <-]. split_and!; try done. by exists [].
  - destruct (apply_action a system) as [b s1] eqn:EA. pose proof (apply_reads a system Ha) as [HR1 HR2]. rewrite EA in HR1, HR2. cbn in HR1, HR2.
    destruct b; cbn [negb].
    + apply apply_ok in EA. assert (forall m, apply_all actions s1 (act a applied) m = (ok, mv, system', applied') ->
        default_routes system' = default_routes system /\ on_link_networks system' = on_link_networks system /\
        (forall stale, accounted_for stale applied (ket_routes system) -> accounted_for stale applied' (ket_routes system')) /\
        (ok = true -> applied' = fold_left (fun m a => act a m) (a :: actions) applied /\
           ket_routes system' = fold_left (fun m a => act a m) (a :: actions) (ket_routes system)) /\
        exists pre, pre `prefix_of` a :: actions /\ applied' = fold_left (fun m a => act a m) pre applied) as HX.
      { intros m HA. destruct (IH _ _ _ HA) as (? & ? & HT & HO & pre & HP & Ep). split_and!; [congruence|congruence| | |].
        - intros stale Hs. apply HT. rewrite EA. by apply accounted_act.
        - cbn [fold_left]. by rewrite <- EA.
        - exists (a :: pre). split; [by apply prefix_cons|done]. }
      destruct a; apply HX.
    + apply failed_less in EA. intros [= <- <- <- <-]. split_and!; [done|done| |done|].
      * intros stale Hs. by eapply accounted_less.
      * exists []. split; [apply prefix_nil|done].
Qed.

(** A keeper that records every route of Ket's in the table, save those left
    by an earlier process, and records only routes that keep off the tunnel. *)
Definition path_ok (tunnel : list byte) (d : IpPrefix) (p : ServerPath) : Prop :=
  match p with Via r => dr_interface r <> tunnel /\ dr_family r = family_of (p_address d) | PathUnreachable => True end.
Definition keeper_ok (stale : gmap IpPrefix ServerPath) (k : Keeper K) : Prop :=
  accounted_for stale (k_applied k) (ket_routes (k_system k)) /\
  map_Forall (fun d p => d ∈ k_destinations k /\ path_ok (k_tunnel k) d p) (k_applied k).

Lemma desired_ok routes tunnel d : path_ok tunnel d (desired routes tunnel d).
Proof.
  unfold desired. destruct (best_default routes (family_of (p_address d)) tunnel) as [r|] eqn:E; [|done].
  by apply best_default_spec in E as (_ & ? & ? & _).
Qed.

Lemma plan_destination routes on_link applied tunnel d a : plan_one routes on_link applied tunnel d = Some a ->
  destination_of a = d /\ match a with Install _ path _ => path_ok tunnel d path | Remove _ _ => True end.
Proof.
  unfold plan_one. destruct (attached on_link tunnel d); [destruct (applied !! d); intros; simplify_eq; done|].
  case_bool_decide; [done|]. intros [= <-]. split; [done|apply desired_ok].
Qed.
Lemma plan_positive routes on_link applied tunnel ds : Forall (fun d => 0 < p_length d) ds ->
  Forall (fun a => 0 < p_length (destination_of a)) (plan routes on_link ds applied tunnel).
Proof.
  intros HF. apply Forall_forall. intros a (d & Hd & [-> _]%plan_destination)%list_elem_of_omap. by eapply (proj1 (Forall_forall _ _) HF).
Qed.

Lemma act_ok routes on_link tunnel ds applied m pre :
  pre `prefix_of` plan routes on_link ds applied tunnel ->
  map_Forall (fun d p => d ∈ ds /\ path_ok tunnel d p) m ->
  map_Forall (fun d p => d ∈ ds /\ path_ok tunnel d p) (fold_left (fun m a => act a m) pre m).
Proof.
  intros HP. assert (Forall (fun a => destination_of a ∈ ds /\ match a with Install d p _ => path_ok tunnel d p | Remove _ _ => True end) pre) as HF.
  { destruct HP as [more HP]. rewrite Forall_forall. intros a Ha.
    assert (a ∈ plan routes on_link ds applied tunnel) as Hin by (rewrite HP; apply elem_of_app; by left).
    apply list_elem_of_omap in Hin as (d & Hd & [Ed Hp]%plan_destination). subst d. split; [done|]. by destruct a. }
  clear HP. revert m; induction HF as [|a pre Ha HF IH]; intros m Hm; [done|]. cbn. apply IH. destruct a as [d p r|d p]; cbn.
  - by apply map_Forall_insert_2.
  - by apply map_Forall_delete.
Qed.

Lemma refresh_ok stale k ok k' : Forall (fun d => 0 < p_length d) (k_destinations k) -> keeper_ok stale k -> refresh k = (ok, k') ->
  keeper_ok stale k' /\ k_destinations k' = k_destinations k /\ k_tunnel k' = k_tunnel k /\ (ok = false -> k_report k' = k_report k).
Proof.
  intros HL [HK HF]. unfold refresh. destruct (default_routes (k_system k)) as [routes|]; [|intros [= <- <-]; done].
  destruct (on_link_networks (k_system k)) as [on_link|]; [|intros [= <- <-]; done].
  destruct (apply_all _ _ _ _) as [[[o mv] system'] applied'] eqn:EA.
  destruct (apply_all_spec _ _ _ _ _ _ _ _ (plan_positive _ _ _ _ _ HL) EA) as (_ & _ & HT & _ & pre & HP & ->). intros [= <- <-].
  split_and!; [|done|done|intros ->; done]. split; [by apply HT|]. cbn. by eapply act_ok.
Qed.

(** Actions applied to the record and to the table: a destination is the same
    in both, or untouched. *)
Lemma acts_same actions (applied table : gmap IpPrefix ServerPath) d :
  let after m := fold_left (fun m a => act a m) actions m in
  after table !! d = after applied !! d \/ (after applied !! d = applied !! d /\ after table !! d = table !! d).
Proof.
  cbn zeta. induction actions as [|a actions IH] using rev_ind; [by right|]. rewrite !fold_left_app. cbn [fold_left].
  destruct IH as [E|[E1 E2]]; destruct a as [e p r|e p]; cbn [act]; (destruct (decide (d = e)) as [->|Hne];
    [left; by rewrite ?lookup_insert_eq, ?lookup_delete_eq|rewrite ?lookup_insert_ne, ?lookup_delete_ne by done; auto]).
Qed.

Lemma refresh_converges k k' : Forall (fun d => 0 < p_length d) (k_destinations k) -> NoDup (k_destinations k) -> refresh k = (true, k') ->
  exists routes on_link, default_routes (k_system k) = Some routes /\ on_link_networks (k_system k) = Some on_link /\
    (forall d, d ∈ k_destinations k -> k_applied k' !! d = target_path routes on_link (k_tunnel k) d) /\
    (forall d, k_applied k' !! d <> k_applied k !! d -> ket_routes (k_system k') !! d = k_applied k' !! d) /\
    (ket_routes (k_system k) = k_applied k -> ket_routes (k_system k') = k_applied k') /\
    refresh k' = (true, k').
Proof.
  intros HL HN. unfold refresh at 1. destruct (default_routes (k_system k)) as [routes|] eqn:ED; [|done].
  destruct (on_link_networks (k_system k)) as [on_link|] eqn:EO; [|done].
  destruct (apply_all _ _ _ _) as [[[o mv] system'] applied'] eqn:EA.
  destruct (apply_all_spec _ _ _ _ _ _ _ _ (plan_positive _ _ _ _ _ HL) EA) as (HD & HO & _ & Hall & _). intros [= -> <-].
  specialize (Hall eq_refl) as [Hap Htab].
  exists routes, on_link. destruct (plan_effect routes on_link (k_tunnel k) (k_applied k) (k_destinations k) (k_applied k) HN) as [H1 H2]; [done|].
  rewrite <- Hap in H1. cbn [k_system k_destinations k_applied k_tunnel k_report]. split_and!; [done..| | |].
  - intros d Hd. destruct (acts_same (plan routes on_link (k_destinations k) (k_applied k) (k_tunnel k)) (k_applied k) (ket_routes (k_system k)) d) as [E|[E _]];
      rewrite <- Hap, <- ?Htab in E; done.
  - intros E. by rewrite Htab, Hap, E.
  - unfold refresh. cbn [k_system k_destinations k_applied k_tunnel k_report]. rewrite HD, HO, ED, EO.
    assert (plan routes on_link (k_destinations k) applied' (k_tunnel k) = []) as ->.
    { apply elem_of_nil_inv. intros a (d & Hd & Ea)%list_elem_of_omap. rewrite (proj2 (plan_one_none _ _ _ _ _)) in Ea by by apply H1. done. }
    cbn [apply_all]. cbn [generation]. by rewrite Z.add_0_r.
Qed.

(** Removing every recorded route leaves none of them. *)
Lemma release_all_spec (l : list (IpPrefix * ServerPath)) system :
  (forall a s, (apply_action a s).1 = true) ->
  ket_routes (release_all (map (fun p => Remove p.1 p.2) l) system) = foldr (fun p m => delete p.1 m) (ket_routes system) (rev l).
Proof.
  intros HA. revert system; induction l as [|p l IH]; intros system; [done|]. cbn [map release_all rev]. rewrite IH, foldr_app. cbn [foldr].
  pose proof (HA (Remove p.1 p.2) system) as Hb. destruct (apply_action (Remove p.1 p.2) system) as [b s1] eqn:E. cbn in Hb. subst b.
  apply apply_ok in E. cbn [snd]. by rewrite E.
Qed.

Lemma delete_all_lookup (k : list (IpPrefix * ServerPath)) (m : gmap IpPrefix ServerPath) d :
  foldr (fun p m => delete p.1 m) m k !! d = if bool_decide (d ∈ map fst k) then None else m !! d.
Proof.
  induction k as [|p k IH]; [done|]. cbn [foldr map]. destruct (decide (p.1 = d)) as [<-|Hne].
  - rewrite lookup_delete_eq, bool_decide_true by left. done.
  - rewrite lookup_delete_ne, IH by done. repeat case_bool_decide; set_solver.
Qed.

Lemma release_removes stale k : keeper_ok stale k -> (forall a s, (apply_action a s).1 = true) -> ket_routes (k_system (keeper_release k)) ⊆ stale.
Proof.
  intros [HK _] HA. unfold keeper_release, release_plan. cbn [k_system]. rewrite release_all_spec by done. apply map_subseteq_spec. intros d path.
  rewrite delete_all_lookup. case_bool_decide as E; [done|]. intros [Hd|[_ Hs]]%HK; [|done]. exfalso. apply E.
  apply elem_of_map. exists (d, path). split; [done|]. apply list_elem_of_In. rewrite <- in_rev. apply list_elem_of_In.
  by apply elem_of_map_to_list.
Qed.

(** The life of a keeper: it is engaged; the device changes networks, and the
    system may drop routes of Ket's with them; the table is checked again. *)
Inductive kept (system : K) (ds : list IpPrefix) (tunnel : list byte) : Keeper K -> Prop :=
| kept_engaged k : engage_with system ds tunnel = inl k -> kept system ds tunnel k
| kept_moved k s : kept system ds tunnel k -> ket_routes s ⊆ ket_routes (k_system k) ->
    kept system ds tunnel (mkKeeper s (k_destinations k) (k_tunnel k) (k_applied k) (k_report k))
| kept_refreshed k : kept system ds tunnel k -> kept system ds tunnel (refresh k).2.

(** The routes that may be left of an earlier process. *)
Definition leftovers (system : K) : gmap IpPrefix ServerPath := filter (fun e => prefix_is_ipv4 e.1 = false) (ket_routes system).

Lemma kept_ok system ds tunnel k : Forall (fun d => 0 < p_length d) ds -> kept system ds tunnel k ->
  keeper_ok (leftovers system) k /\ k_destinations k = ds /\ k_tunnel k = tunnel.
Proof.
  intros HL. induction 1 as [k HE|k s _ IH Hs|k _ IH].
  - unfold engage_with in HE. destruct (clear_stale system) as [[] s1] eqn:EC; [|done]. cbn [negb] in HE.
    destruct (refresh _) as [[] k1] eqn:ER; [|done]. injection HE as <-. apply (refresh_ok (leftovers system)) in ER as (? & ? & ? & _); [done|done|].
    split; [|apply map_Forall_empty]. intros d path Hd. right. split; [apply lookup_empty|].
    destruct (clear_ok _ _ _ _ EC Hd) as [Hv Hp]. apply map_lookup_filter_Some. done.
  - destruct IH as ([HK HF] & <- & <-). split; [|done]. split; [|done]. by eapply accounted_less.
  - destruct IH as (Hok & <- & <-). destruct (refresh k) as [ok k'] eqn:ER. by apply (refresh_ok (leftovers system)) in ER as (? & ? & ? & _).
Qed.
End laws.

(** [destinations] names each once. *)
Lemma add_once_nodup l p : NoDup l -> NoDup (add_once l p).
Proof.
  intros HN. unfold add_once. case_bool_decide as E; [done|]. apply NoDup_app. split_and!; [done| |apply NoDup_singleton].
  intros x Hx ->%list_elem_of_singleton. done.
Qed.

Lemma destinations_nodup servers bypass : NoDup servers -> NoDup (destinations servers bypass).
Proof.
  intros HN. unfold destinations. assert (NoDup (map prefix_host servers)) as H0.
  { apply NoDup_fmap_2; [|done]. intros a b [= ->]. done. }
  revert H0. generalize (map prefix_host servers). induction bypass as [|p bypass IH]; intros l Hl; cbn; [done|]. apply IH. by apply add_once_nodup.
Qed.
Lemma destinations_positive servers bypass : Forall (fun p => 0 < p_length p) bypass -> Forall (fun d => 0 < p_length d) (destinations servers bypass).
Proof.
  intros HB. unfold destinations. assert (Forall (fun d => 0 < p_length d) (map prefix_host servers)) as H0.
  { apply Forall_map, Forall_forall. by intros []. }
  revert H0. generalize (map prefix_host servers). induction HB as [|p bypass Hp HB IH]; intros l Hl; cbn; [done|]. apply IH.
  unfold add_once. case_bool_decide; [done|]. apply Forall_app. by repeat constructor.
Qed.

(** * Properties *)

(** C25: over every change of network, with routes lost in it, and every
    refresh that fails half-way, the route keeper has recorded every route of
    Ket's in the system's table, save IPv6 routes an earlier process left; it
    records routes for its own destinations only, and never one through the
    tunnel or of another address family; a refresh that succeeds records for
    each destination the best physical default route, none if an attached
    network holds it, and makes it unreachable without any, the table has each
    route the refresh changed, and all of them if none had been lost before;
    refreshing again then changes nothing; and releasing leaves no other
    route behind where removing them works. *)
Theorem route_keeper_converges {K} `{RouteSystemLaws K} system servers bypass tunnel k :
  NoDup servers -> Forall (fun p => 0 < p_length p) bypass -> kept system (destinations servers bypass) tunnel k ->
  accounted_for (leftovers system) (k_applied k) (ket_routes (k_system k)) /\
  map_Forall (fun d p => d ∈ destinations servers bypass /\ path_ok tunnel d p) (k_applied k) /\
  (forall k', refresh k = (true, k') ->
     exists routes on_link, default_routes (k_system k) = Some routes /\ on_link_networks (k_system k) = Some on_link /\
       (forall d, d ∈ destinations servers bypass -> k_applied k' !! d = target_path routes on_link tunnel d) /\
       (forall d, k_applied k' !! d <> k_applied k !! d -> ket_routes (k_system k') !! d = k_applied k' !! d) /\
       (ket_routes (k_system k) = k_applied k -> ket_routes (k_system k') = k_applied k') /\
       refresh k' = (true, k')) /\
  ((forall a s, (apply_action a s).1 = true) -> ket_routes (k_system (keeper_release k)) ⊆ leftovers system).
Proof.
  intros HN HB Hk. pose proof (destinations_positive servers bypass HB) as HL.
  destruct (kept_ok _ _ _ _ HL Hk) as (Hok & Hd & Ht). pose proof Hok as [HK HF]. rewrite Hd, Ht in HF. split_and!; [done|done| |].
  - intros k' HR. rewrite <- Ht, <- Hd in *. apply refresh_converges; [done| |done]. rewrite Hd. by apply destinations_nodup.
  - intros HA. by apply release_removes.
Qed.

(** A platform whose table is a map, for the witness. One that refuses has
    already deleted the route it was to replace, and clearing leaves IPv6. *)
Record TestTable := mkTable { tt_routes : list DefaultRoute; tt_on_link : list OnLinkNetwork; tt_ket : gmap IpPrefix ServerPath; tt_refuses : bool }.
Global Instance test_system : RouteSystem TestTable := {|
  default_routes := fun k => Some (tt_routes k);
  on_link_networks := fun k => Some (tt_on_link k);
  apply_action := fun a k => (negb (tt_refuses k), mkTable (tt_routes k) (tt_on_link k)
    (if tt_refuses k then delete (destination_of a) (tt_ket k) else act a (tt_ket k)) (tt_refuses k));
  clear_stale := fun k => (true, mkTable (tt_routes k) (tt_on_link k) (filter (fun e => prefix_is_ipv4 e.1 = false) (tt_ket k)) (tt_refuses k));
|}.
Global Instance test_laws : RouteSystemLaws TestTable.
Proof.
  refine {| ket_routes := tt_ket |}.
  - intros a k k' [= Hr <-]. apply negb_true_iff in Hr. cbn. by rewrite Hr.
  - intros a k k' [= Hr <-]. apply negb_false_iff in Hr. cbn. rewrite Hr. by right.
  - done.
  - intros k k' d path [= <-]. cbn. by intros [Hd Hv]%map_lookup_filter_Some.
Defined.

Definition demo_route : DefaultRoute := mkRoute FamilyV4 (str "wlan0") 3 (Some (V4 (ipv4 192 168 1 1))) 100.
Definition demo_table : TestTable := mkTable [mkRoute FamilyV4 (str "ket0") 9 None 1; demo_route] [] ∅ false.
(** The keeper of one server; then its network is gone, the table refuses, and
    a refresh has lost the server's route. *)
Definition demo_keeper : Keeper TestTable :=
  mkKeeper (mkTable (tt_routes demo_table) [] {[prefix_host (V4 1) := Via demo_route]} false) [prefix_host (V4 1)] (str "ket0")
    {[prefix_host (V4 1) := Via demo_route]} network_default.
Definition refused_keeper : Keeper TestTable :=
  (refresh (mkKeeper (mkTable [] [] (tt_ket (k_system demo_keeper)) true) (k_destinations demo_keeper) (k_tunnel demo_keeper)
    (k_applied demo_keeper) (k_report demo_keeper))).2.

Lemma route_keeper_converges_witness :
  k_applied refused_keeper !! prefix_host (V4 1) = Some (Via demo_route) /\ ket_routes (k_system refused_keeper) !! prefix_host (V4 1) = None /\
  accounted_for (leftovers demo_table) (k_applied refused_keeper) (ket_routes (k_system refused_keeper)).
Proof.
  split; [vm_compute; reflexivity|]. split; [vm_compute; reflexivity|].
  refine (proj1 (route_keeper_converges demo_table [V4 1] [] (str "ket0") refused_keeper _ _ _)); [apply NoDup_singleton|constructor|].
  apply kept_refreshed. apply (kept_moved demo_table [prefix_host (V4 1)] (str "ket0") demo_keeper); [|done]. apply kept_engaged. vm_compute. reflexivity.
Defined.
