(* ===== verification/LeakGuard.v ===== *)
(** Model of crates/ket-client-core/src/leak_guard/plan.rs and mod.rs: the rules
    that keep name lookups and IPv6 inside the tunnel, and what they do to a
    flow: the rules of its family are tried highest weight first and the first
    that matches decides; traffic no rule matches passes. *)

From Stdlib Require Import ZArith Lia.
From stdpp Require Import gmap sorting strings.
From S2P Require Import Prelude Order Net Bypass SharePolicy Routes.

Inductive Action := Permit | Block.
Inductive Condition :=
| TunnelInterface
| Loopback
| RemoteAddress (a : IpAddr)
| RemotePort (p : Z)
| RemoteIpv6Prefix (a : Z) (length : Z)
| Everything.
Record Rule := mkRule { ru_family : Family; ru_action : Action; ru_condition : Condition; ru_weight : Z }.

Definition NAME_LOOKUP_PORTS : list Z := [53; 853; 5355; 137].
Definition TUNNEL_WEIGHT : Z := 15.
Definition LOOPBACK_WEIGHT : Z := 14.
Definition SERVER_WEIGHT : Z := 13.
Definition LOOKUP_BLOCK_WEIGHT : Z := 12.
Definition LOCAL_IPV6_WEIGHT : Z := 11.
Definition IPV6_BLOCK_WEIGHT : Z := 10.
Definition FAMILIES : list Family := [FamilyV4; FamilyV6].

(** The IPv6 networks reached directly: the link's own, multicast, and the
    bypassed ones. *)
Definition bypassed_ipv6 (bypass : list IpPrefix) : list (Z * Z) :=
  omap (fun p => match p_address p with V6 a => Some (a, p_length p) | V4 _ => None end) bypass.
Definition direct_ipv6 (bypass : list IpPrefix) : list (Z * Z) :=
  [(from_segments [0xfe80; 0; 0; 0; 0; 0; 0; 0], 10); (from_segments [0xff00; 0; 0; 0; 0; 0; 0; 0], 8)] ++ bypassed_ipv6 bypass.

(** [base_rules] and [tunnel_rules]. *)
Definition base_rules (servers : list IpAddr) (bypass : list IpPrefix) : list Rule :=
  flat_map (fun f => mkRule f Permit Loopback LOOPBACK_WEIGHT ::
                     map (fun port => mkRule f Block (RemotePort port) LOOKUP_BLOCK_WEIGHT) NAME_LOOKUP_PORTS) FAMILIES
  ++ map (fun s => mkRule (family_of s) Permit (RemoteAddress s) SERVER_WEIGHT) servers
  ++ map (fun p => mkRule FamilyV6 Permit (RemoteIpv6Prefix p.1 p.2) LOCAL_IPV6_WEIGHT) (direct_ipv6 bypass)
  ++ [mkRule FamilyV6 Block Everything IPV6_BLOCK_WEIGHT].
Definition tunnel_rules : list Rule := map (fun f => mkRule f Permit TunnelInterface TUNNEL_WEIGHT) FAMILIES.

(** [LeakGuard]: engaged with the base rules; [admit_tunnel] adds the tunnel's,
    once. The platform installs the rules of a call in one transaction:
    [installed] says whether it did. *)
Record Guard := mkGuard { g_rules : list Rule; g_admitted : bool }.
Definition guard_engage (installed : bool) (servers : list IpAddr) (bypass : list IpPrefix) : option Guard :=
  if installed then Some (mkGuard (base_rules servers bypass) false) else None.
Definition admit_tunnel (installed : bool) (g : Guard) : bool * Guard :=
  if g_admitted g then (true, g)
  else if installed then (true, mkGuard (g_rules g ++ tunnel_rules) true) else (false, g).
(** The bridge is polled for: one call after another. *)
Definition admit_attempts (attempts : list bool) (g : Guard) : Guard :=
  fold_left (fun g installed => (admit_tunnel installed g).2) attempts g.

(** A flow, and what the filters make of it. *)
Record Flow := mkFlow { fl_tunnel : bool; fl_loopback : bool; fl_remote : IpAddr; fl_port : Z }.
Definition in_ipv6_prefix (a length : Z) (remote : IpAddr) : bool :=
  match remote with V6 n => n / 2 ^ (128 - length) =? a / 2 ^ (128 - length) | V4 _ => false end.
Definition condition_matches (c : Condition) (f : Flow) : bool :=
  match c with
  | TunnelInterface => fl_tunnel f
  | Loopback => fl_loopback f
  | RemoteAddress a => bool_decide (a = fl_remote f)
  | RemotePort p => p =? fl_port f
  | RemoteIpv6Prefix a length => in_ipv6_prefix a length (fl_remote f)
  | Everything => true
  end.
Definition rule_matches (f : Flow) (r : Rule) : bool :=
  bool_decide (ru_family r = family_of (fl_remote f)) && condition_matches (ru_condition r) f.
Definition verdict (rules : list Rule) (f : Flow) : Action :=
  match min_by_key (fun r => - ru_weight r) (filter (fun r => rule_matches f r = true) rules) with
  | Some r => ru_action r
  | None => Permit
  end.

(** ** Which rule decides *)

Lemma verdict_decided rules f r :
  r ∈ rules -> rule_matches f r = true ->
  (forall s, s ∈ rules -> rule_matches f s = true -> ru_weight s <= ru_weight r /\ (ru_weight s = ru_weight r -> ru_action s = ru_action r)) ->
  verdict rules f = ru_action r.
Proof.
  intros Hr Hm Hall. unfold verdict. destruct (min_by_key _ _) as [s|] eqn:E.
  - apply (min_by_key_some (fun r => - ru_weight r)) in E as [Hs Hle]. rewrite list_elem_of_filter in Hs. destruct Hs as [Hsm Hs].
    destruct (Hall s Hs Hsm) as [Hw Ha]. apply Ha. specialize (Hle r). rewrite list_elem_of_filter in Hle. specialize (Hle (conj Hm Hr)).
    unfold key_le, cmp, Z_cmp in Hle. destruct (Z.compare_spec (- ru_weight s) (- ru_weight r)); (lia || done).
  - apply (min_by_key_none (fun r => - ru_weight r)) in E. assert (r ∈ filter (fun r => rule_matches f r = true) rules) as Hin by (by rewrite list_elem_of_filter).
    rewrite E in Hin. by apply not_elem_of_nil in Hin.
Qed.

Lemma verdict_unmatched rules f : (forall r, r ∈ rules -> rule_matches f r = false) -> verdict rules f = Permit.
Proof.
  intros HA. unfold verdict. destruct (min_by_key _ _) as [s|] eqn:E; [|done]. exfalso.
  apply (min_by_key_some (fun r => - ru_weight r)) in E as [Hs _]. rewrite list_elem_of_filter in Hs. destruct Hs as [Hm Hs].
  rewrite HA in Hm by done. done.
Qed.

(** The rules of a guard, by weight. *)
Definition guard_rules (servers : list IpAddr) (bypass : list IpPrefix) (admitted : bool) : list Rule :=
  base_rules servers bypass ++ if admitted then tunnel_rules else [].

Inductive guard_rule (servers : list IpAddr) (bypass : list IpPrefix) (admitted : bool) : Rule -> Prop :=
| gr_tunnel f : admitted = true -> guard_rule servers bypass admitted (mkRule f Permit TunnelInterface TUNNEL_WEIGHT)
| gr_loopback f : guard_rule servers bypass admitted (mkRule f Permit Loopback LOOPBACK_WEIGHT)
| gr_server s : s ∈ servers -> guard_rule servers bypass admitted (mkRule (family_of s) Permit (RemoteAddress s) SERVER_WEIGHT)
| gr_lookup f p : p ∈ NAME_LOOKUP_PORTS -> guard_rule servers bypass admitted (mkRule f Block (RemotePort p) LOOKUP_BLOCK_WEIGHT)
| gr_direct a l : (a, l) ∈ direct_ipv6 bypass -> guard_rule servers bypass admitted (mkRule FamilyV6 Permit (RemoteIpv6Prefix a l) LOCAL_IPV6_WEIGHT)
| gr_ipv6 : guard_rule servers bypass admitted (mkRule FamilyV6 Block Everything IPV6_BLOCK_WEIGHT).

Lemma in_families f : f ∈ FAMILIES.
Proof. destruct f; unfold FAMILIES; set_solver. Qed.

Lemma elem_of_flat_map {A B} (g : A -> list B) l x : x ∈ flat_map g l <-> exists y, y ∈ l /\ x ∈ g y.
Proof. rewrite list_elem_of_In, in_flat_map. split; intros (y & Hy & Hx); exists y; by rewrite ?list_elem_of_In in *. Qed.

Lemma guard_rules_spec servers bypass admitted r :
  r ∈ guard_rules servers bypass admitted <-> guard_rule servers bypass admitted r.
Proof.
  unfold guard_rules, base_rules, tunnel_rules. rewrite !elem_of_app, elem_of_flat_map, !elem_of_map, list_elem_of_singleton.
  split.
  - intros [[(f & _ & [->|(p & -> & Hp)%elem_of_map]%elem_of_cons)|[(s & -> & Hs)|[([a l] & -> & Hp)| -> ]]]|Ht]; try by constructor.
    destruct admitted; [|by apply not_elem_of_nil in Ht]. apply elem_of_map in Ht as (f & -> & _). by constructor.
  - intros [f Ha|f|s Hs|f p Hp|a l Hp|].
    + right. rewrite Ha. apply elem_of_map. exists f. split; [done|apply in_families].
    + left; left. exists f. split; [apply in_families|left].
    + left; right; left. by exists s.
    + left; left. exists f. split; [apply in_families|]. right. apply elem_of_map. by exists p.
    + left; right; right; left. by exists (a, l).
    + left; right; right; right. done.
Qed.

(** Whether a flow stays where the guard lets it. *)
Definition name_lookup (f : Flow) : bool := bool_decide (fl_port f ∈ NAME_LOOKUP_PORTS).
Definition direct_allowed (bypass : list IpPrefix) (f : Flow) : bool :=
  existsb (fun p => in_ipv6_prefix p.1 p.2 (fl_remote f)) (direct_ipv6 bypass).
Definition leaks (servers : list IpAddr) (bypass : list IpPrefix) (admitted : bool) (f : Flow) : bool :=
  negb (admitted && fl_tunnel f) && negb (fl_loopback f) && negb (bool_decide (fl_remote f ∈ servers))
  && (name_lookup f || bool_decide (family_of (fl_remote f) = FamilyV6) && negb (direct_allowed bypass f)).

Section deciding.
Context (servers : list IpAddr) (bypass : list IpPrefix) (admitted : bool) (f : Flow).
Notation rules := (guard_rules servers bypass admitted).

(** A rule decides when every matching one of its weight or more agrees. *)
Lemma guard_decides r :
  guard_rule servers bypass admitted r -> rule_matches f r = true ->
  (forall s, guard_rule servers bypass admitted s -> rule_matches f s = true ->
     ru_weight s <= ru_weight r /\ (ru_weight s = ru_weight r -> ru_action s = ru_action r)) ->
  verdict rules f = ru_action r.
Proof.
  intros Hr Hm HA. apply verdict_decided; [by apply guard_rules_spec|done|]. intros s Hs. apply HA. by apply guard_rules_spec.
Qed.

Lemma matches_iff r : rule_matches f r = true <-> ru_family r = family_of (fl_remote f) /\ condition_matches (ru_condition r) f = true.
Proof. unfold rule_matches. by rewrite andb_true_iff, bool_decide_eq_true. Qed.

(** The rules that match, given what does not. *)
Lemma matching_weight s : guard_rule servers bypass admitted s -> rule_matches f s = true ->
  match ru_condition s with
  | TunnelInterface => admitted && fl_tunnel f = true /\ ru_weight s = 15 /\ ru_action s = Permit
  | Loopback => fl_loopback f = true /\ ru_weight s = 14 /\ ru_action s = Permit
  | RemoteAddress _ => fl_remote f ∈ servers /\ ru_weight s = 13 /\ ru_action s = Permit
  | RemotePort _ => name_lookup f = true /\ ru_weight s = 12 /\ ru_action s = Block
  | RemoteIpv6Prefix _ _ => family_of (fl_remote f) = FamilyV6 /\ direct_allowed bypass f = true /\ ru_weight s = 11 /\ ru_action s = Permit
  | Everything => family_of (fl_remote f) = FamilyV6 /\ ru_weight s = 10 /\ ru_action s = Block
  end.
Proof.
  intros Hs [Hf Hc]%matches_iff. destruct Hs as [g Ha|g|a Ha|g p Hp|a l Hp|];
    cbn [ru_family ru_condition ru_weight ru_action condition_matches] in *.
  - by rewrite Ha.
  - done.
  - bool_prop. by subst.
  - bool_prop. subst. split; [|done]. unfold name_lookup. by apply bool_decide_eq_true_2.
  - split; [done|]. split; [|done]. unfold direct_allowed. apply existsb_Exists. by exists (a, l).
  - done.
Qed.

Ltac decides_by rule := rewrite (guard_decides rule);
  [reflexivity|by constructor|rewrite matches_iff; cbn [ru_family ru_condition condition_matches]; by rewrite ?bool_decide_true, ?Z.eqb_refl|
   intros s Hs Hm; pose proof (matching_weight s Hs Hm) as HW; destruct (ru_condition s); cbn [ru_weight ru_action];
   unfold TUNNEL_WEIGHT, LOOPBACK_WEIGHT, SERVER_WEIGHT, LOOKUP_BLOCK_WEIGHT, LOCAL_IPV6_WEIGHT, IPV6_BLOCK_WEIGHT;
   destruct_and?; try congruence; split; (lia || congruence || (intros; lia))].

Lemma verdict_spec : verdict rules f = if leaks servers bypass admitted f then Block else Permit.
Proof.
  unfold leaks. destruct (admitted && fl_tunnel f) eqn:ET.
  { apply andb_true_iff in ET as ET'. destruct ET' as [HA HT]. cbn [negb andb].
    decides_by (mkRule (family_of (fl_remote f)) Permit TunnelInterface TUNNEL_WEIGHT). }
  destruct (fl_loopback f) eqn:EL; cbn [negb andb].
  { decides_by (mkRule (family_of (fl_remote f)) Permit Loopback LOOPBACK_WEIGHT). }
  case_bool_decide as ES; cbn [negb andb].
  { decides_by (mkRule (family_of (fl_remote f)) Permit (RemoteAddress (fl_remote f)) SERVER_WEIGHT). }
  destruct (name_lookup f) eqn:EN; cbn [orb].
  { unfold name_lookup in EN. apply bool_decide_eq_true in EN as EP.
    assert (name_lookup f = true) by (unfold name_lookup; by apply bool_decide_eq_true_2).
    decides_by (mkRule (family_of (fl_remote f)) Block (RemotePort (fl_port f)) LOOKUP_BLOCK_WEIGHT). }
  case_bool_decide as EF; cbn [andb].
  - destruct (direct_allowed bypass f) eqn:ED; cbn [negb].
    + unfold direct_allowed in ED. apply existsb_Exists in ED as ED'. destruct ED' as ([a l] & Hp & Hm').
      assert (direct_allowed bypass f = true) by done.
      decides_by (mkRule FamilyV6 Permit (RemoteIpv6Prefix a l) LOCAL_IPV6_WEIGHT).
    + decides_by (mkRule FamilyV6 Block Everything IPV6_BLOCK_WEIGHT).
  - apply verdict_unmatched. intros s Hs%guard_rules_spec. apply not_true_is_false. intros Hm.
    pose proof (matching_weight s Hs Hm) as HW. destruct (ru_condition s); destruct_and?; congruence.
Qed.
End deciding.

Lemma bypass_direct bypass p f :
  p ∈ bypass -> prefix_ok p -> is_ipv4 (p_address p) = false -> in_prefix p (fl_remote f) -> direct_allowed bypass f = true.
Proof.
  intros Hp (Ha & Hk & Hdiv) H4 (Hok & Hf & Hr). unfold direct_allowed. apply existsb_Exists.
  destruct (p_address p) as [|a] eqn:Ea; [done|]. destruct (fl_remote f) as [|n] eqn:Er; [done|]. cbn [bits width] in *.
  exists (a, p_length p). split.
  - unfold direct_ipv6, bypassed_ipv6. apply elem_of_app. right. apply list_elem_of_omap. exists p. by rewrite Ea.
  - cbn [fst snd in_ipv6_prefix]. apply Z.eqb_eq. set (size := 2 ^ (128 - p_length p)) in *.
    assert (0 < size) by (apply Z.pow_pos_nonneg; lia). destruct Hdiv as [q Hq]. rewrite Hq in *. rewrite Z.div_mul by lia.
    symmetry. apply (Z.div_unique n size q (n - q * size)); lia.
Qed.

Lemma admit_attempts_admitted attempts rules : admit_attempts attempts (mkGuard rules true) = mkGuard rules true.
Proof. induction attempts as [|i l IH]; [done|]. apply IH. Qed.

Lemma admit_attempts_spec attempts servers bypass :
  admit_attempts attempts (mkGuard (base_rules servers bypass) false) =
  mkGuard (guard_rules servers bypass (existsb id attempts)) (existsb id attempts).
Proof.
  induction attempts as [|[] l IH].
  - unfold guard_rules. by rewrite app_nil_r.
  - apply admit_attempts_admitted.
  - apply IH.
Qed.

(** * Properties *)

(** C15: whatever the servers and bypassed networks, and however often the
    tunnel is polled for, the guard's weighted rules block exactly the flows
    that would leak: those outside the tunnel (once it is admitted) and
    loopback, to no server, that are name lookups - even to bypassed networks
    - or IPv6 to other than the link, multicast and bypassed networks; and
    every address of a bypassed IPv6 network stays reachable directly. *)
Theorem leak_guard_exact servers bypass attempts f :
  exists g, guard_engage true servers bypass = Some g /\
    g_admitted (admit_attempts attempts g) = existsb id attempts /\
    verdict (g_rules (admit_attempts attempts g)) f = (if leaks servers bypass (existsb id attempts) f then Block else Permit) /\
    (forall p, p ∈ bypass -> prefix_ok p -> is_ipv4 (p_address p) = false -> in_prefix p (fl_remote f) -> name_lookup f = false ->
       verdict (g_rules (admit_attempts attempts g)) f = Permit).
Proof.
  eexists. split; [done|]. rewrite admit_attempts_spec. cbn [g_admitted g_rules]. rewrite verdict_spec.
  split_and!; [done..|]. intros p Hp Hok H4 Hin HN. unfold leaks.
  rewrite HN, (bypass_direct bypass p f) by done. cbn [negb orb]. by rewrite !andb_false_r.
Qed.
