(* ===== verification/Broker.v ===== *)
(** Model of crates/ket-tunnel-service/src/lib.rs: the tunnel service, which
    starts and stops full-route tunnels for the app, one at a time, and lets go
    of a tunnel whose app has fallen silent.  What engines do is the
    environment's; the service's own steps between awaits are functions, and
    the step relation lets requests overlap as the locks allow. *)

From Stdlib Require Import ZArith Lia.
From stdpp Require Import gmap strings.
From S2P Require Import Prelude Net Tunnel Grant.

Definition second : Z := 10 ^ 9.
Definition Instant := Z.

(** A tunnel an engine started, by a number of its own. *)
Definition Handle := nat.
Record TunnelLease := mkLease { tl_tunnel : Handle; tl_expires_at : Instant }.

(** What the service is made with; [BrokerService::new] keeps the lease at six
    seconds or more. *)
Record BrokerConfig := mkBroker { adapters : list TransportAdapter; engine_available : bool; lease_ttl : Z }.
Definition broker_new (adapters : list TransportAdapter) (engine_available : bool) (lease_ttl : Z) : BrokerConfig :=
  mkBroker adapters engine_available (Z.max lease_ttl (6 * second)).

Notation Tunnels := (gmap (list byte) TunnelLease).

(** [BrokerFault], [BrokerTunnelStatus], [BrokerRequest], [BrokerResponse]. *)
Record BrokerFault := mkFault { bf_code : list byte; bf_message : list byte; bf_retryable : bool }.
Inductive BrokerTunnelStatus := BrokerConnected | BrokerStopped | BrokerFailed (message : list byte).
Inductive BrokerRequest :=
| Ping
| Probe (transport : SessionTransport)
| Connect (transport : SessionTransport) (resolved_addresses : list SocketAddr) (options : ConnectOptions)
| Status (tunnel_id : list byte)
| Heartbeat (tunnel_id : list byte)
| Stop (tunnel_id : list byte).
Inductive BrokerResponse :=
| Pong (engine_available : bool)
| ProbeDone (resolved_addresses : list SocketAddr) (elapsed_ms : Z)
| TunnelConnected (tunnel_id : list byte) (handshake_latency_ms : Z)
| TunnelState (status : BrokerTunnelStatus) (network : NetworkReport)
| TunnelStopped
| BrokerError (fault : BrokerFault).

Definition fault (code message : string) (retryable : bool) : BrokerResponse :=
  BrokerError (mkFault (str code) (str message) retryable).
Definition unsupported : BrokerResponse := fault "unsupported_transport" "transport is not supported" false.

(** [millis] of a duration in nanoseconds. *)
Definition millis (duration : Z) : Z := Z.min (duration / 10 ^ 6) u64_max.

(** [adapter_for]. *)
Definition adapter_for (c : BrokerConfig) (transport : SessionTransport) : option TransportAdapter :=
  List.find (fun a => adapter_supports a transport) (adapters c).

(** ** The pieces between awaits *)

(** [reap_expired_locked]: the expired leases, taken out, and one put back
    when its engine would not stop. *)
Definition expired (now : Instant) (l : TunnelLease) : bool := tl_expires_at l <=? now.
Definition reap_take (now : Instant) (t : Tunnels) : Tunnels * list (list byte * TunnelLease) :=
  (filter (fun p => expired now p.2 = false) t, map_to_list (filter (fun p => expired now p.2 = true) t)).
Definition reap_failed (now : Instant) (id : list byte) (lease : TunnelLease) (t : Tunnels) : Tunnels :=
  <[id := mkLease (tl_tunnel lease) (now + 2 * second)]> t.

(** [Connect] after the reaping: whether a tunnel may be started, and the
    lease of one that was. *)
Definition connect_guard (addresses : list SocketAddr) (t : Tunnels) : option BrokerResponse :=
  if bool_decide (addresses = []) then Some (fault "invalid_transport" "transport request is invalid" false)
  else if negb (bool_decide (t = ∅)) then Some (fault "tunnel_busy" "another full-route tunnel is already active" true)
  else None.
Definition connect_insert (c : BrokerConfig) (id : list byte) (h : Handle) (now : Instant) (t : Tunnels) : Tunnels :=
  <[id := mkLease h (now + lease_ttl c)]> t.

(** [Stop]: the lease taken out, and put back when its engine would not
    stop. *)
Definition stop_take (id : list byte) (t : Tunnels) : Tunnels * option TunnelLease := (delete id t, t !! id).
Definition stop_failed (c : BrokerConfig) (id : list byte) (lease : TunnelLease) (now : Instant) (t : Tunnels) : Tunnels :=
  <[id := mkLease (tl_tunnel lease) (now + lease_ttl c)]> t.

(** [tunnel_status], given what the tunnel says of itself. *)
Definition broker_status (s : TunnelStatus) : BrokerTunnelStatus :=
  match s with Connected => BrokerConnected | Stopped => BrokerStopped | Failed m => BrokerFailed m end.
Definition tunnel_status (c : BrokerConfig) (status : Handle -> TunnelStatus) (network : Handle -> NetworkReport)
    (id : list byte) (heartbeat : bool) (now : Instant) (t : Tunnels) : Tunnels * BrokerResponse :=
  match t !! id with
  | None => (t, fault "tunnel_not_found" "tunnel is no longer active" false)
  | Some lease =>
    let status := status (tl_tunnel lease) in
    let t := match status with
             | Connected => if heartbeat then <[id := mkLease (tl_tunnel lease) (now + lease_ttl c)]> t else t
             | _ => t
             end in
    (t, TunnelState (broker_status status) (network (tl_tunnel lease)))
  end.

(** ** The service as a whole *)

(** What the holder of the operation lock is in the middle of, with the leases
    it has taken out of the map. *)
Inductive Task :=
| Idle
| Reaping (rest : list (list byte * TunnelLease)) (connecting : option (SessionTransport * list SocketAddr))
| Connecting (transport : SessionTransport)
| Stopping (id : list byte) (lease : TunnelLease)
| StoppingAll (rest : list TunnelLease).

Record Broker := mkBrokerState { b_tunnels : Tunnels; b_task : Task }.
Definition broker_start : Broker := mkBrokerState ∅ Idle.

Section steps.
Context (c : BrokerConfig).

Inductive broker_step : Broker -> Broker -> Prop :=
(* [Connect] and the reaper take the operation lock and reap. *)
| step_connect t transport addresses now :
    is_Some (adapter_for c transport) ->
    broker_step (mkBrokerState t Idle) (mkBrokerState (reap_take now t).1 (Reaping (reap_take now t).2 (Some (transport, addresses))))
| step_reap t now : broker_step (mkBrokerState t Idle) (mkBrokerState (reap_take now t).1 (Reaping (reap_take now t).2 None))
| step_reap_stopped t id lease rest k : broker_step (mkBrokerState t (Reaping ((id, lease) :: rest) k)) (mkBrokerState t (Reaping rest k))
| step_reap_failed t id lease rest k now :
    broker_step (mkBrokerState t (Reaping ((id, lease) :: rest) k)) (mkBrokerState (reap_failed now id lease t) (Reaping rest k))
| step_reaped t : broker_step (mkBrokerState t (Reaping [] None)) (mkBrokerState t Idle)
| step_connect_refused t transport addresses response :
    connect_guard addresses t = Some response -> broker_step (mkBrokerState t (Reaping [] (Some (transport, addresses)))) (mkBrokerState t Idle)
| step_connect_begun t transport addresses :
    connect_guard addresses t = None -> broker_step (mkBrokerState t (Reaping [] (Some (transport, addresses)))) (mkBrokerState t (Connecting transport))
(* The engine started a tunnel, or did not. *)
| step_connected t transport id h now : broker_step (mkBrokerState t (Connecting transport)) (mkBrokerState (connect_insert c id h now t) Idle)
| step_connect_failed t transport : broker_step (mkBrokerState t (Connecting transport)) (mkBrokerState t Idle)
(* [Stop]. *)
| step_stop t id : broker_step (mkBrokerState t Idle)
    (mkBrokerState (stop_take id t).1 (match (stop_take id t).2 with Some lease => Stopping id lease | None => Idle end))
| step_stopped t id lease : broker_step (mkBrokerState t (Stopping id lease)) (mkBrokerState t Idle)
| step_stop_failed t id lease now : broker_step (mkBrokerState t (Stopping id lease)) (mkBrokerState (stop_failed c id lease now t) Idle)
(* [Status] and [Heartbeat] need no operation lock. *)
| step_status t task status network id heartbeat now :
    broker_step (mkBrokerState t task) (mkBrokerState (tunnel_status c status network id heartbeat now t).1 task)
(* A command that runs out of time is dropped with the leases it holds, whose
   tunnels end by themselves once let go. *)
| step_cancelled t task : broker_step (mkBrokerState t task) (mkBrokerState t Idle)
(* [stop_all], at the end. *)
| step_stop_all t : broker_step (mkBrokerState t Idle) (mkBrokerState ∅ (StoppingAll (map snd (map_to_list t))))
| step_stop_next t lease rest : broker_step (mkBrokerState t (StoppingAll (lease :: rest))) (mkBrokerState t (StoppingAll rest)).

Definition broker_reachable (b : Broker) : Prop := rtc broker_step broker_start b.
End steps.

(** ** Requests one at a time *)

(** What engines answer: probes, starts (with the latency of the handshake),
    stops, what running tunnels say of themselves, and when the start or stop
    of a tunnel returned. *)
Record Engines := mkEngines {
  e_probe : SessionTransport -> result BrokerFault ProbeReport;
  e_connect : SessionTransport -> ProbeReport -> ConnectOptions -> result BrokerFault (Handle * Z);
  e_stop : Handle -> result BrokerFault unit;
  e_status : Handle -> TunnelStatus;
  e_network : Handle -> NetworkReport;
  e_done : Handle -> Instant;
}.

Section handling.
Context (c : BrokerConfig) (e : Engines).

Fixpoint reap_each (l : list (list byte * TunnelLease)) (t : Tunnels) : Tunnels :=
  match l with
  | [] => t
  | (id, lease) :: l =>
    reap_each l (match e_stop e (tl_tunnel lease) with Ok _ => t | Err _ => reap_failed (e_done e (tl_tunnel lease)) id lease t end)
  end.
(** [reap_expired_locked]. *)
Definition reap_expired_locked (now : Instant) (t : Tunnels) : Tunnels :=
  let '(t, expired) := reap_take now t in reap_each expired t.

(** [stop_all]: every lease is taken out, and every engine told to stop. *)
Definition stop_all (t : Tunnels) : Tunnels * list Handle := (∅, map (fun p => tl_tunnel p.2) (map_to_list t)).

(** [handle], with the identifier [random_id] would give. *)
Definition handle (id : list byte) (now : Instant) (request : BrokerRequest) (t : Tunnels) : Tunnels * BrokerResponse :=
  match request with
  | Ping => (t, Pong (engine_available c))
  | Probe transport =>
    match adapter_for c transport with
    | None => (t, unsupported)
    | Some _ =>
      match e_probe e transport with
      | Ok report => (t, ProbeDone (resolved_addresses report) (millis (elapsed report)))
      | Err f => (t, BrokerError f)
      end
    end
  | Connect transport addresses options =>
    match adapter_for c transport with
    | None => (t, unsupported)
    | Some _ =>
      let t := reap_expired_locked now t in
      match connect_guard addresses t with
      | Some response => (t, response)
      | None =>
        match e_connect e transport (mkProbe addresses 0) options with
        | Ok (h, latency) => (connect_insert c id h (e_done e h) t, TunnelConnected id (millis latency))
        | Err f => (t, BrokerError f)
        end
      end
    end
  | Status tunnel_id => tunnel_status c (e_status e) (e_network e) tunnel_id false now t
  | Heartbeat tunnel_id => tunnel_status c (e_status e) (e_network e) tunnel_id true now t
  | Stop tunnel_id =>
    let '(t, lease) := stop_take tunnel_id t in
    match lease with
    | None => (t, TunnelStopped)
    | Some lease =>
      match e_stop e (tl_tunnel lease) with
      | Ok _ => (t, TunnelStopped)
      | Err f => (stop_failed c tunnel_id lease (e_done e (tl_tunnel lease)) t, BrokerError f)
      end
    end
  end.

(** A request handled alone is a run of the service. *)
Lemma reap_each_steps l t k : rtc (broker_step c) (mkBrokerState t (Reaping l k)) (mkBrokerState (reap_each l t) (Reaping [] k)).
Proof.
  revert t; induction l as [|[id lease] l IH]; intros t; [apply rtc_refl|]. cbn [reap_each].
  destruct (e_stop e (tl_tunnel lease)); (eapply rtc_l; [|apply IH]); constructor.
Qed.

Lemma reap_steps now t transport addresses : is_Some (adapter_for c transport) ->
  rtc (broker_step c) (mkBrokerState t Idle) (mkBrokerState (reap_expired_locked now t) (Reaping [] (Some (transport, addresses)))).
Proof.
  intros Ha. eapply rtc_l; [by apply (step_connect c t transport addresses now)|]. unfold reap_expired_locked.
  destruct (reap_take now t) as [u ex]. apply reap_each_steps.
Qed.

Lemma handle_steps id now request t :
  rtc (broker_step c) (mkBrokerState t Idle) (mkBrokerState (handle id now request t).1 Idle).
Proof.
  destruct request as [|transport|transport addresses options|tid|tid|tid]; cbn [handle].
  - apply rtc_refl.
  - destruct (adapter_for c transport); [destruct (e_probe e transport)|]; apply rtc_refl.
  - destruct (adapter_for c transport) as [a|] eqn:EA; [|apply rtc_refl]. set (t1 := reap_expired_locked now t).
    etrans; [apply (reap_steps now t transport addresses); by rewrite EA|]. fold t1.
    destruct (connect_guard addresses t1) as [response|] eqn:EG; [apply rtc_once; by econstructor|].
    eapply rtc_l; [by apply step_connect_begun|]. destruct (e_connect e _ _ _) as [[h latency]|f]; apply rtc_once; constructor.
  - apply rtc_once. constructor.
  - apply rtc_once. constructor.
  - eapply rtc_l; [apply (step_stop c t tid)|]. destruct (stop_take tid t) as [t1 [lease|]]; cbn [fst snd]; [|apply rtc_refl].
    destruct (e_stop e (tl_tunnel lease)); apply rtc_once; constructor.
Qed.
End handling.

(** ** One tunnel at a time *)

(** The leases the service holds, in the map or taken out of it. *)
Definition in_hand (task : Task) : nat :=
  match task with
  | Idle | Connecting _ => 0
  | Reaping rest _ => length rest
  | Stopping _ _ => 1
  | StoppingAll rest => length rest
  end.
Definition held (b : Broker) : nat := size (b_tunnels b) + in_hand (b_task b).
Definition broker_inv (b : Broker) : Prop :=
  (held b <= 1)%nat /\ match b_task b with Connecting _ => held b = 0%nat | _ => True end.

Lemma reap_take_size now t : (size (reap_take now t).1 + length (reap_take now t).2)%nat = size t.
Proof.
  unfold reap_take. cbn [fst snd]. rewrite length_map_to_list. rewrite <- (map_filter_union_complement (fun p : list byte * TunnelLease => expired now p.2 = false) t) at 3.
  rewrite map_size_disj_union by apply map_disjoint_filter_complement. f_equal. f_equal. apply map_filter_ext. intros i x _. cbn.
  destruct (expired now x); naive_solver.
Qed.

Lemma insert_size (id : list byte) (l : TunnelLease) (t : Tunnels) : (size (<[id := l]> t) <= S (size t))%nat.
Proof. destruct (t !! id) eqn:E; [rewrite map_size_insert_Some by eauto|rewrite map_size_insert_None by done]; lia. Qed.

Lemma stop_take_size id t : (size (stop_take id t).1 + match (stop_take id t).2 with Some _ => 1 | None => 0 end)%nat = size t.
Proof.
  cbn. destruct (t !! id) eqn:E; [|rewrite delete_id by done; lia]. rewrite map_size_delete_Some by eauto.
  assert (size t <> 0%nat); [|lia]. intros H0. apply map_size_empty_iff in H0. subst. by rewrite lookup_empty in E.
Qed.

Lemma status_size c status network id heartbeat now t : size (tunnel_status c status network id heartbeat now t).1 = size t.
Proof.
  unfold tunnel_status. destruct (t !! id) as [lease|] eqn:E; [|done]. cbn [fst]. destruct (status (tl_tunnel lease)); [|done..].
  destruct heartbeat; [|done]. by rewrite map_size_insert_Some by eauto.
Qed.

Lemma connect_guard_none addresses t : connect_guard addresses t = None -> addresses <> [] /\ size t = 0%nat.
Proof.
  unfold connect_guard. case_bool_decide; [done|]. case_bool_decide; [|done]. intros _. subst. split; [done|apply map_size_empty].
Qed.

Lemma broker_step_inv c b b' : broker_step c b b' -> broker_inv b -> broker_inv b'.
Proof.
  intros HS [Hh HC]. unfold broker_inv, held in *. destruct HS; cbn [b_tunnels b_task in_hand length] in *.
  - pose proof (reap_take_size now t). split; [lia|done].
  - pose proof (reap_take_size now t). split; [lia|done].
  - split; [lia|done].
  - pose proof (insert_size id (mkLease (tl_tunnel lease) (now + 2 * second)) t). unfold reap_failed. split; [lia|done].
  - split; [lia|done].
  - split; [lia|done].
  - apply connect_guard_none in H as [_ H]. split; lia.
  - pose proof (insert_size id (mkLease h (now + lease_ttl c)) t). unfold connect_insert. split; [lia|done].
  - split; [lia|done].
  - pose proof (stop_take_size id t). destruct (stop_take id t) as [u [lease|]]; cbn [fst snd in_hand] in *; (split; [lia|done]).
  - split; [lia|done].
  - pose proof (insert_size id (mkLease (tl_tunnel lease) (now + lease_ttl c)) t). unfold stop_failed. split; [lia|done].
  - rewrite status_size. done.
  - split; [lia|done].
  - rewrite length_map, length_map_to_list, map_size_empty. split; [lia|done].
  - split; [lia|done].
Qed.

Lemma broker_reachable_inv c b : broker_reachable c b -> broker_inv b.
Proof.
  unfold broker_reachable. intros HR. assert (broker_inv broker_start) as Hs by (split; [cbn; unfold held; cbn; rewrite map_size_empty; lia|done]).
  induction HR as [|x y z HS _ IH]; [done|]. apply IH. by eapply broker_step_inv.
Qed.

(** ** Leases *)

Lemma reap_take_exact now t id lease :
  ((id, lease) ∈ (reap_take now t).2 <-> t !! id = Some lease /\ tl_expires_at lease <= now) /\
  ((reap_take now t).1 !! id = Some lease <-> t !! id = Some lease /\ now < tl_expires_at lease).
Proof.
  unfold reap_take. cbn [fst snd]. split.
  - rewrite elem_of_map_to_list, map_lookup_filter_Some. cbn. unfold expired. by rewrite Z.leb_le.
  - rewrite map_lookup_filter_Some. cbn. unfold expired. by rewrite Z.leb_gt.
Qed.

(** ** A connection to the service *)

Record HandshakeChallenge := mkChallenge { hc_version : Z; hc_nonce : list byte }.
Record HandshakeProof := mkProof { hp_mac : list byte }.
Record HandshakeResult := mkHandshake { hr_accepted : bool }.

Section connection.
Context (c : BrokerConfig) (e : Engines) `{Hmac}.
Context `{Json HandshakeChallenge} `{Json HandshakeProof} `{Json HandshakeResult} `{Json BrokerRequest} `{Json BrokerResponse}.

(** [handle_connection], with the nonce [challenge] drew: the client proves it
    knows the token before its one request is read.  A command that runs out of
    time is the cancellation of the step relation. *)
Definition handle_connection (token nonce id : list byte) (now : Instant) (s : Stream) (t : Tunnels) : bool * Stream * Tunnels :=
  match write_frame (mkChallenge BROKER_PROTOCOL_VERSION nonce) s with
  | (Err _, s) => (false, s, t)
  | (Ok _, s) =>
    match read_frame (T := HandshakeProof) s with
    | (Err _, s) => (false, s, t)
    | (Ok proof, s) =>
      let accepted := verify_proof token nonce (hp_mac proof) in
      match write_frame (mkHandshake accepted) s with
      | (Err _, s) => (false, s, t)
      | (Ok _, s) =>
        if negb accepted then (false, s, t)
        else
          match read_frame (T := BrokerRequest) s with
          | (Err _, s) => (false, s, t)
          | (Ok request, s) =>
            let '(t, response) := handle c e id now request t in
            match write_frame response s with
            | (Err _, s) => (false, s, t)
            | (Ok _, s) => (true, s, t)
            end
          end
      end
    end
  end.

Lemma handle_connection_authenticated token nonce id now s t done s' t' :
  handle_connection token nonce id now s t = (done, s', t') -> done = true \/ t' <> t ->
  exists encoded rest m, incoming s = frame_bytes encoded ++ rest /\
    json_from_slice encoded = Some (mkProof m) /\ m = proof token nonce.
Proof.
  unfold handle_connection. intros HC Hd.
  destruct (write_frame (mkChallenge _ nonce) s) as [[[]|] s1] eqn:E1; [|destruct Hd; congruence].
  apply write_frame_ok in E1 as (enc & _ & _ & HI & _).
  destruct (read_frame s1) as [[p|] s2] eqn:E2; [|destruct Hd; congruence].
  apply read_frame_bound in E2 as (encoded & Hin & _ & HJ).
  destruct (write_frame _ s2) as [[[]|] s3]; [|destruct Hd; congruence].
  destruct (verify_proof token nonce (hp_mac p)) eqn:EV; [|destruct Hd; cbn in HC; congruence].
  unfold verify_proof in EV. bool_prop. destruct p as [m]. exists encoded, (incoming s2), m. rewrite <- HI, Hin. by split_and!.
Qed.
End connection.

(** * Properties *)

(** C18: the tunnel service never holds two tunnels - in its table or taken out
    of it to be stopped - and starts an engine only while it holds none,
    however connects, stops, status checks, reaping and cancelled commands
    overlap; and a request handled alone is such a run. *)
Theorem broker_one_tunnel c b : broker_reachable c b ->
  (held b <= 1)%nat /\ (forall transport, b_task b = Connecting transport -> b_tunnels b = ∅) /\
  (forall e id now request, b_task b = Idle -> broker_reachable c (mkBrokerState (handle c e id now request (b_tunnels b)).1 Idle)).
Proof.
  intros HR. destruct (broker_reachable_inv _ _ HR) as [Hh HC]. split_and!; [done| |].
  - intros transport HT. rewrite HT in HC. unfold held in HC. apply map_size_empty_iff. lia.
  - intros e id now request HT. unfold broker_reachable in *. etrans; [exact HR|]. destruct b as [t task]. cbn in *. subst task. apply handle_steps.
Qed.

Definition demo_transport : SessionTransport :=
  mkTransport (mkProfile (str "hy2") (str "Hysteria") Hysteria2 (str "node.example") 443 Udp 10 None ∅) None.
Definition demo_broker : BrokerConfig := broker_new [mkAdapter (fun _ => true)] true (12 * second).
Definition demo_busy : Broker := mkBrokerState {[str "a" := mkLease 7%nat (20 * second)]} Idle.

Lemma demo_busy_reachable : broker_reachable demo_broker demo_busy.
Proof.
  pose (e := mkEngines (fun _ => Ok (mkProbe [] 0)) (fun _ _ _ => Ok (7%nat, 0)) (fun _ => Ok tt) (fun _ => Connected) (fun _ => network_default) (fun _ => 8 * second)).
  replace demo_busy with (mkBrokerState (handle demo_broker e (str "a") (8 * second)
    (Connect demo_transport [mkSocket (V4 1) 443] (mkOptions false [])) ∅).1 Idle) by (vm_compute; reflexivity).
  apply handle_steps.
Qed.

Lemma broker_one_tunnel_witness : broker_reachable demo_broker demo_busy /\ (held demo_busy <= 1)%nat.
Proof. split; [exact demo_busy_reachable|]. exact (proj1 (broker_one_tunnel demo_broker demo_busy demo_busy_reachable)). Defined.

(** A lease not renewed is let go of: the reaper takes out exactly the
    leases that have run out; a heartbeat of a connected tunnel moves its end
    to a full lease from then, at least six seconds, and nothing else about
    the tunnels the service holds changes with it. *)
Theorem lease_renewed_or_reaped adapters available ttl status network id now t :
  let c := broker_new adapters available ttl in
  (forall i lease, (i, lease) ∈ (reap_take now t).2 <-> t !! i = Some lease /\ tl_expires_at lease <= now) /\
  (forall i lease, (reap_take now t).1 !! i = Some lease <-> t !! i = Some lease /\ now < tl_expires_at lease) /\
  (forall lease, t !! id = Some lease -> status (tl_tunnel lease) = Connected ->
     exists lease', (tunnel_status c status network id true now t).1 = <[id := lease']> t /\
       tl_tunnel lease' = tl_tunnel lease /\ now + 6 * second <= tl_expires_at lease' /\
       forall later, later < now + 6 * second -> (id, lease') ∉ (reap_take later (<[id := lease']> t)).2).
Proof.
  cbn zeta. split_and!; [intros i lease; apply reap_take_exact..|].
  intros lease Hl Hs. eexists. split; [unfold tunnel_status; by rewrite Hl, Hs|]. cbn [tl_tunnel tl_expires_at broker_new lease_ttl].
  split_and!; [done|lia|]. intros later Hlater [_ HE]%reap_take_exact. cbn in HE. lia.
Qed.

(** A client of the tunnel service changes nothing and is answered nothing
    unless the first frame it sends carries the HMAC of the service's nonce
    under the installation token. *)
Theorem broker_needs_token `{Hmac} `{Json HandshakeChallenge} `{Json HandshakeProof} `{Json HandshakeResult}
    `{Json BrokerRequest} `{Json BrokerResponse} c e token nonce id now s t answered s' t' :
  handle_connection c e token nonce id now s t = (answered, s', t') -> answered = true \/ t' <> t ->
  exists encoded rest m, incoming s = frame_bytes encoded ++ rest /\
    json_from_slice encoded = Some (mkProof m) /\ m = proof token nonce.
Proof. apply handle_connection_authenticated. Qed.

(** Stand-ins for the JSON of the messages, and a client that knows the
    token. *)
Definition demo_hmac : Hmac := fun key m => take 32 (key ++ replicate 32 (z2b 0)).
Definition demo_json {T} (v : T) : Json T := {| json_to_vec := fun _ => Some [z2b 1]; json_from_slice := fun _ => Some v |}.
Definition demo_proof_json : Json HandshakeProof :=
  {| json_to_vec := fun p => Some (hp_mac p); json_from_slice := fun l => Some (mkProof l) |}.
Definition demo_token : list byte := replicate 32 (z2b 9).
Definition demo_engines : Engines :=
  mkEngines (fun _ => Ok (mkProbe [] 0)) (fun _ _ _ => Ok (7%nat, 0)) (fun _ => Ok tt) (fun _ => Connected) (fun _ => network_default) (fun _ => 8 * second).
Definition demo_connection : Stream :=
  mkStream (frame_bytes demo_token ++ frame_bytes [z2b 1]) [] None.

Lemma broker_needs_token_witness :
  exists encoded rest m, incoming demo_connection = frame_bytes encoded ++ rest /\
    @json_from_slice _ demo_proof_json encoded = Some (mkProof m) /\ m = @proof demo_hmac demo_token (str "nonce").
Proof.
  refine (@broker_needs_token demo_hmac (demo_json (mkChallenge 1 [])) demo_proof_json (demo_json (mkHandshake true)) (demo_json Ping)
    (demo_json TunnelStopped) demo_broker demo_engines demo_token (str "nonce") (str "a") 0 demo_connection ∅ true _ ∅ _ (or_introl eq_refl)).
  vm_compute. reflexivity.
Defined.
