(* ===== verification/Model.v ===== *)
(** Model of crates/ket-server/src/model.rs, allowance.rs and repository.rs:
    the persisted state of a node, its validation, the data counted against a
    grant's allowance, and loading and storing the state file. *)

From Stdlib Require Import ZArith Lia.
From stdpp Require Import strings.
From S2P Require Import Prelude Utf8 Allowance Grant.

(** * Records *)

Record PeriodUsage := mkUsage { period_start_epoch_seconds : Z; used_bytes : Z }.

Record AccessGrantRecord := mkGrant {
  g_id : list byte;
  g_secret_hash : list byte;
  g_label : list byte;
  g_max_connections : Z;
  g_expires_at : option Z;
  g_created_at : Z;
  g_paused : bool;
  g_protocols : ProtocolAccess;
  g_allowance : option DataAllowance;
  g_allowance_since : option Z;
  g_usage : option PeriodUsage;
}.

Record SessionRecord := mkSession {
  s_id : list byte;
  s_grant_id : list byte;
  s_secret_hash : option (list byte);
  s_control_secret_hash : option (list byte);
  s_data_plane_secret_hash : option (list byte);
  s_resource_slot : option Z;
  s_client_name : list byte;
  s_issued_at : Z;
  s_expires_at : Z;
}.

Record PersistedState := mkState {
  schema_version : Z;
  grants : list AccessGrantRecord;
  sessions : list SessionRecord;
}.

Global Instance PeriodUsage_eq_dec : EqDecision PeriodUsage.
Proof. solve_decision. Defined.
Global Instance AccessGrantRecord_eq_dec : EqDecision AccessGrantRecord.
Proof. solve_decision. Defined.
Global Instance SessionRecord_eq_dec : EqDecision SessionRecord.
Proof. solve_decision. Defined.
Global Instance PersistedState_eq_dec : EqDecision PersistedState.
Proof. solve_decision. Defined.

Definition CURRENT_STATE_SCHEMA_VERSION : Z := 2.
Definition LEGACY_STATE_SCHEMA_VERSION : Z := 1.
Definition MAX_SECRET_HASH_LENGTH : Z := 512.
Definition MAX_LABEL_LENGTH : Z := 64.
Definition MAX_CLIENT_NAME_LENGTH : Z := 96.

(** [PersistedState::default]. *)
Definition state_default : PersistedState := mkState CURRENT_STATE_SCHEMA_VERSION [] [].

(** Field assignments. *)
Definition with_sessions (st : PersistedState) (ss : list SessionRecord) : PersistedState :=
  mkState (schema_version st) (grants st) ss.
Definition with_grants (st : PersistedState) (gs : list AccessGrantRecord) : PersistedState :=
  mkState (schema_version st) gs (sessions st).
Definition set_expires_at (s : SessionRecord) (t : Z) : SessionRecord :=
  mkSession (s_id s) (s_grant_id s) (s_secret_hash s) (s_control_secret_hash s)
    (s_data_plane_secret_hash s) (s_resource_slot s) (s_client_name s) (s_issued_at s) t.
Definition set_resource_slot (s : SessionRecord) (slot : Z) : SessionRecord :=
  mkSession (s_id s) (s_grant_id s) (s_secret_hash s) (s_control_secret_hash s)
    (s_data_plane_secret_hash s) (Some slot) (s_client_name s) (s_issued_at s) (s_expires_at s).
Definition set_usage (g : AccessGrantRecord) (u : option PeriodUsage) : AccessGrantRecord :=
  mkGrant (g_id g) (g_secret_hash g) (g_label g) (g_max_connections g) (g_expires_at g)
    (g_created_at g) (g_paused g) (g_protocols g) (g_allowance g) (g_allowance_since g) u.

(** The first record with an identifier: [iter().find(|x| x.id == id)]. *)
Definition find_grant (st : PersistedState) (id : list byte) : option AccessGrantRecord :=
  snd <$> list_find (fun g => g_id g = id) (grants st).
Definition find_session (st : PersistedState) (id : list byte) : option SessionRecord :=
  snd <$> list_find (fun s => s_id s = id) (sessions st).

(** * Validation *)

(** The messages of [PersistedState::validate]. *)
Inductive StateFault :=
| GrantIdInvalid | GrantIdsDuplicated | GrantHashInvalid | GrantHashUnsupported
| GrantLabelInvalid | GrantLimitInvalid | GrantNoProtocol | GrantAllowanceInvalid
| GrantUsageWithoutAllowance | GrantExpiryInvalid
| SessionIdInvalid | SessionIdsDuplicated | SessionSlotsDuplicated | SessionGrantUnknown
| SessionHashInvalid | SessionHashUnsupported | SessionHashAmbiguous | SessionHashMissing
| SessionClientInvalid | SessionExpiryInvalid | SessionOutlivesGrant.

Global Instance StateFault_eq_dec : EqDecision StateFault.
Proof. solve_decision. Defined.

(** [valid_identifier] and [valid_text]. *)
Definition valid_identifier (value : list byte) (length : Z) : bool :=
  (zlen value =? length) && forallb is_ascii_alphanumeric value.
Definition any_control (value : list byte) : bool :=
  match chars value with Some cs => existsb is_control cs | None => true end.
Definition valid_text (value : list byte) (maximum : Z) : bool :=
  negb (bool_decide (value = [])) && (zlen value <=? maximum)
  && bool_decide (value = trim value) && negb (any_control value).

Section validation.
Context `{SecretHashing}.

(** The tests on one grant, after its identifier's. *)
Definition validate_grant (g : AccessGrantRecord) : result StateFault unit :=
  require valid_text (g_secret_hash g) MAX_SECRET_HASH_LENGTH else GrantHashInvalid in
  require is_supported_secret_hash (g_secret_hash g) else GrantHashUnsupported in
  require valid_text (g_label g) MAX_LABEL_LENGTH else GrantLabelInvalid in
  require negb (g_max_connections g =? 0) else GrantLimitInvalid in
  require access_is_valid (g_protocols g) else GrantNoProtocol in
  require (match g_allowance g with Some a => allowance_is_valid a | None => true end)
    else GrantAllowanceInvalid in
  require negb ((bool_decide (is_Some (g_usage g)) || bool_decide (is_Some (g_allowance_since g)))
                && bool_decide (g_allowance g = None)) else GrantUsageWithoutAllowance in
  require (match g_expires_at g with Some e => negb (e <=? g_created_at g) | None => true end)
    else GrantExpiryInvalid in
  Ok tt.

Fixpoint validate_grants (grants_by_id : gmap (list byte) (option Z)) (gs : list AccessGrantRecord)
    : result StateFault (gmap (list byte) (option Z)) :=
  match gs with
  | [] => Ok grants_by_id
  | g :: gs =>
    require valid_identifier (g_id g) (Z.of_nat ACCESS_ID_LENGTH) else GrantIdInvalid in
    require bool_decide (grants_by_id !! g_id g = None) else GrantIdsDuplicated in
    let* _ := validate_grant g in
    validate_grants (<[g_id g := g_expires_at g]> grants_by_id) gs
  end.

(** Exactly one supported control-token hash. *)
Definition validate_control_hash (s : SessionRecord) : result StateFault unit :=
  match s_control_secret_hash s, s_secret_hash s with
  | Some _, None => Ok tt
  | None, Some secret_hash =>
    require valid_text secret_hash MAX_SECRET_HASH_LENGTH else SessionHashInvalid in
    require is_supported_secret_hash secret_hash else SessionHashUnsupported in
    Ok tt
  | Some _, Some _ => Err SessionHashAmbiguous
  | None, None => Err SessionHashMissing
  end.

(** The tests on one session's own fields. *)
Definition validate_session (grant_expiry : option Z) (s : SessionRecord) : result StateFault unit :=
  let* _ := validate_control_hash s in
  require valid_text (s_client_name s) MAX_CLIENT_NAME_LENGTH else SessionClientInvalid in
  require negb (s_expires_at s <=? s_issued_at s) else SessionExpiryInvalid in
  require (match grant_expiry with Some e => negb (e <? s_expires_at s) | None => true end)
    else SessionOutlivesGrant in
  Ok tt.

Fixpoint validate_sessions (grants_by_id : gmap (list byte) (option Z)) (session_ids : gset (list byte))
    (resource_slots : gset Z) (ss : list SessionRecord) : result StateFault unit :=
  match ss with
  | [] => Ok tt
  | s :: ss =>
    require valid_identifier (s_id s) (Z.of_nat SESSION_ID_LENGTH) else SessionIdInvalid in
    require bool_decide (s_id s ∉ session_ids) else SessionIdsDuplicated in
    require (match s_resource_slot s with Some slot => bool_decide (slot ∉ resource_slots) | None => true end)
      else SessionSlotsDuplicated in
    let resource_slots := match s_resource_slot s with
                          | Some slot => {[slot]} ∪ resource_slots | None => resource_slots end in
    let* grant_expiry := ok_or (grants_by_id !! s_grant_id s) SessionGrantUnknown in
    let* _ := validate_session grant_expiry s in
    validate_sessions grants_by_id ({[s_id s]} ∪ session_ids) resource_slots ss
  end.

(** [PersistedState::validate]. *)
Definition validate (st : PersistedState) : result StateFault unit :=
  let* grants_by_id := validate_grants ∅ (grants st) in
  validate_sessions grants_by_id ∅ ∅ (sessions st).
End validation.

(** * Allowances of grants *)

(** [allowance::used], [status], [used_up_until] and [add]. *)
Definition used (g : AccessGrantRecord) (now : Z) : Z :=
  match g_allowance g, g_usage g with
  | Some a, Some u =>
    if period_start_epoch_seconds u =? period_start (period a) now then used_bytes u else 0
  | _, _ => 0
  end.
Definition status (g : AccessGrantRecord) (now : Z) : option AllowanceStatus :=
  (fun a => mkStatus a (used g now) (period_end (period a) now)) <$> g_allowance g.
Definition used_up_until (g : AccessGrantRecord) (now : Z) : option Z :=
  match status g now with
  | Some s => if is_used_up s then Some (resets_at_epoch_seconds s) else None
  | None => None
  end.
Definition add (g : AccessGrantRecord) (bytes now : Z) : AccessGrantRecord :=
  match g_allowance g with
  | None => g
  | Some a =>
    if bytes =? 0 then g
    else set_usage g (Some (mkUsage (period_start (period a) now) (sat_add64 (used g now) bytes)))
  end.

(** * The state file *)

(** serde_json on the state: [to_vec_pretty] and [from_slice]. *)
Class StateJson := {
  to_vec_pretty : PersistedState -> option (list byte);
  from_slice : list byte -> option PersistedState;
}.

(** The integers of a state have the ranges of their Rust types. *)
Definition in_range (max v : Z) : bool := (0 <=? v) && (v <=? max).
Definition grant_typed (g : AccessGrantRecord) : bool :=
  in_range u32_max (g_max_connections g) && in_range u64_max (g_created_at g)
  && match g_expires_at g with Some e => in_range u64_max e | None => true end
  && match g_allowance_since g with Some e => in_range u64_max e | None => true end
  && match g_usage g with
     | Some u => in_range u64_max (period_start_epoch_seconds u) && in_range u64_max (used_bytes u)
     | None => true
     end.
Definition session_typed (s : SessionRecord) : bool :=
  match s_resource_slot s with Some n => in_range u32_max n | None => true end
  && in_range u64_max (s_issued_at s) && in_range u64_max (s_expires_at s).
Definition state_typed (st : PersistedState) : bool :=
  in_range u32_max (schema_version st) && forallb grant_typed (grants st) && forallb session_typed (sessions st).

(** Serialization of plain records of strings, integers and byte arrays
    succeeds and reads back as the value written; integers are read at their
    width. *)
Class StateJsonLaws `{StateJson} : Prop := {
  to_vec_total st : state_typed st = true -> is_Some (to_vec_pretty st);
  from_slice_to_vec st b : to_vec_pretty st = Some b -> from_slice b = Some st;
  from_slice_typed st b : from_slice b = Some st -> state_typed st = true;
}.

Inductive RepositoryError :=
| RepositoryIo | RepositoryInvalidData | UnsupportedSchema (version : Z)
| RepositoryTooLarge | RepositoryInvalidState (fault : StateFault) | RepositoryJoin.

Global Instance RepositoryError_eq_dec : EqDecision RepositoryError.
Proof. solve_decision. Defined.

Definition MAX_STATE_FILE_BYTES : Z := 64 * 1024 * 1024.

(** What the file system holds at the state path. *)
Definition Disk := option (list byte).

(** The operating system's answers to a store: all of them succeed, the
    directory cannot be made, writing or renaming the temporary file fails, or
    the worker does not run.  To a load: all succeed, or the file's metadata or
    its content cannot be read. *)
Inductive Io := IoOk | CreateDirFails | WriteFails | JoinFails.
Inductive LoadIo := LoadOk | MetadataFails | ReadFails.

Section repository.
Context `{SecretHashing, StateJson}.

(** [load_file]. *)
Definition load_file (disk : Disk) (io : LoadIo) : result RepositoryError PersistedState :=
  match io, disk with
  | MetadataFails, _ => Err RepositoryIo
  | _, None => Ok state_default
  | _, Some content =>
    require zlen content <=? MAX_STATE_FILE_BYTES else RepositoryTooLarge in
    require (match io with ReadFails => false | _ => true end) else RepositoryIo in
    let* state := ok_or (from_slice content) RepositoryInvalidData in
    let* state :=
      if schema_version state =? LEGACY_STATE_SCHEMA_VERSION
      then Ok (mkState CURRENT_STATE_SCHEMA_VERSION (grants state) (sessions state))
      else if schema_version state =? CURRENT_STATE_SCHEMA_VERSION then Ok state
      else Err (UnsupportedSchema (schema_version state)) in
    let* _ := map_err RepositoryInvalidState (validate state) in
    Ok state
  end.

(** [store_file]: the new content replaces the old by a rename, so a failure
    leaves the old content. *)
Definition store_file (disk : Disk) (state : PersistedState) (io : Io) : Disk * result RepositoryError unit :=
  match
    require (match io with JoinFails => false | _ => true end) else RepositoryJoin in
    require (schema_version state =? CURRENT_STATE_SCHEMA_VERSION)
      else UnsupportedSchema (schema_version state) in
    let* _ := map_err RepositoryInvalidState (validate state) in
    require (match io with CreateDirFails => false | _ => true end) else RepositoryIo in
    let* encoded := ok_or (to_vec_pretty state) RepositoryInvalidData in
    require negb (MAX_STATE_FILE_BYTES <? zlen encoded) else RepositoryTooLarge in
    require (match io with WriteFails => false | _ => true end) else RepositoryIo in
    Ok encoded
  with
  | Ok encoded => (Some encoded, Ok tt)
  | Err e => (disk, Err e)
  end.
End repository.

(** ** What validation establishes *)

Definition session_slots (ss : list SessionRecord) : list Z := omap s_resource_slot ss.

Section wf.
Context `{SecretHashing}.

Definition grant_wf (g : AccessGrantRecord) : Prop :=
  valid_identifier (g_id g) (Z.of_nat ACCESS_ID_LENGTH) = true /\ validate_grant g = Ok tt.
Definition session_wf (st : PersistedState) (s : SessionRecord) : Prop :=
  valid_identifier (s_id s) (Z.of_nat SESSION_ID_LENGTH) = true /\
  exists g, g ∈ grants st /\ g_id g = s_grant_id s /\ validate_session (g_expires_at g) s = Ok tt.

(** The declarative reading of [validate]. *)
Record state_wf (st : PersistedState) : Prop := {
  wf_grants : Forall grant_wf (grants st);
  wf_grant_ids : NoDup (map g_id (grants st));
  wf_sessions : Forall (session_wf st) (sessions st);
  wf_session_ids : NoDup (map s_id (sessions st));
  wf_slots : NoDup (session_slots (sessions st));
}.

Lemma validate_grants_ok gs m m' :
  validate_grants m gs = Ok m' <->
  Forall grant_wf gs /\ NoDup (map g_id gs) /\ (forall g, g ∈ gs -> m !! g_id g = None) /\
  m' = fold_left (fun m g => <[g_id g := g_expires_at g]> m) gs m.
Proof.
  revert m m'. induction gs as [|g gs IH]; intros m m'; cbn [validate_grants map fold_left].
  - split; [intros [= ->]; split_and!; [constructor..| |done]; set_solver|by intros (_ & _ & _ & ->)].
  - rewrite Forall_cons, NoDup_cons. unfold grant_wf at 1.
    destruct (valid_identifier _ _); [|naive_solver].
    case_bool_decide as Hm; [|split; [done|]; intros (_ & _ & HN & _); destruct Hm; apply HN; left].
    destruct (validate_grant g) as [[]|]; [|naive_solver]. rewrite IH. split.
    + intros (HF & HD & HN & ->). split_and!; try done.
      * intros (g' & Hid & Hin)%list_elem_of_fmap. specialize (HN g' Hin).
        rewrite Hid, lookup_insert_eq in HN. done.
      * intros g' [->|Hin]%elem_of_cons; [done|]. specialize (HN g' Hin).
        by apply lookup_insert_None in HN as [? _].
    + intros ([_ HF] & [Hni HD] & HN & ->). split_and!; try done. intros g' Hin.
      rewrite lookup_insert_ne; [apply HN; by right|]. intros Heq. apply Hni. rewrite Heq.
      by apply list_elem_of_fmap_2.
Qed.

(** The map built by the validation finds each grant's expiry. *)
Lemma grants_map_lookup (gs : list AccessGrantRecord) (m : gmap (list byte) (option Z)) id e :
  NoDup (map g_id gs) -> (forall g, g ∈ gs -> m !! g_id g = None) ->
  fold_left (fun m g => <[g_id g := g_expires_at g]> m) gs m !! id = Some e <->
  m !! id = Some e \/ exists g, g ∈ gs /\ g_id g = id /\ g_expires_at g = e.
Proof.
  revert m. induction gs as [|g gs IH]; intros m HN HM; cbn [fold_left map] in *.
  - set_solver.
  - apply NoDup_cons in HN as [Hni HN]. rewrite IH; [|done|].
    + destruct (decide (g_id g = id)) as [<-|Hne].
      * rewrite lookup_insert_eq, (HM g) by left. setoid_rewrite elem_of_cons. split.
        -- intros [[= <-]|(g' & Hin & Hid & _)]; [right; eauto|].
           destruct Hni. rewrite <- Hid. by apply list_elem_of_fmap_2.
        -- intros [|(g' & [->|Hin] & Hid & <-)]; [done|by left|].
           destruct Hni. rewrite <- Hid. by apply list_elem_of_fmap_2.
      * rewrite lookup_insert_ne by done. setoid_rewrite elem_of_cons. naive_solver.
    + intros g' Hin. rewrite lookup_insert_ne; [apply HM; by right|].
      intros Heq. apply Hni. rewrite Heq. by apply list_elem_of_fmap_2.
Qed.

Lemma session_slots_cons s ss :
  session_slots (s :: ss) = match s_resource_slot s with Some n => n :: session_slots ss | None => session_slots ss end.
Proof. unfold session_slots. simpl. by destruct (s_resource_slot s). Qed.

Lemma validate_sessions_ok (m : gmap (list byte) (option Z)) ids slots ss :
  validate_sessions m ids slots ss = Ok tt <->
  Forall (fun s => valid_identifier (s_id s) (Z.of_nat SESSION_ID_LENGTH) = true /\
    exists e, m !! s_grant_id s = Some e /\ validate_session e s = Ok tt) ss /\
  NoDup (map s_id ss) /\ NoDup (session_slots ss) /\
  (forall id, id ∈ map s_id ss -> id ∉ ids) /\ (forall n, n ∈ session_slots ss -> n ∉ slots).
Proof.
  revert ids slots. induction ss as [|s ss IH]; intros ids slots.
  { cbn. split; [intros _; split_and!; [constructor..|set_solver|set_solver]|done]. }
  cbn [validate_sessions map]. rewrite Forall_cons, NoDup_cons, session_slots_cons.
  destruct (valid_identifier _ _); [|split; [done|]; by intros ([[? _] _] & _)].
  case_bool_decide as Hid; [|split; [done|]; intros (_ & _ & _ & HI & _); exfalso; apply (HI (s_id s)); [left|]; first [done | by apply dec_stable]].
  destruct (s_resource_slot s) as [n|].
  - case_bool_decide as Hn; [|split; [done|]; intros (_ & _ & _ & _ & HS); exfalso; apply (HS n); [left|]; first [done | by apply dec_stable]].
    rewrite NoDup_cons.
    destruct (m !! s_grant_id s) as [e|]; cbn [ok_or]; [|split; [done|]; by intros ([(_ & ? & ? & ?) _] & _)].
    destruct (validate_session e s) as [[]|] eqn:HV;
      [|split; [done|]; intros ([(_ & ? & [= <-] & ?) _] & _); congruence].
    rewrite IH. set_solver by eauto.
  - destruct (m !! s_grant_id s) as [e|]; cbn [ok_or]; [|split; [done|]; by intros ([(_ & ? & ? & ?) _] & _)].
    destruct (validate_session e s) as [[]|] eqn:HV;
      [|split; [done|]; intros ([(_ & ? & [= <-] & ?) _] & _); congruence].
    rewrite IH. set_solver by eauto.
Qed.

(** [validate] accepts exactly the well-formed states. *)
Lemma validate_ok st : validate st = Ok tt <-> state_wf st.
Proof.
  unfold validate. split.
  - intros HV. destruct (validate_grants ∅ (grants st)) as [m|] eqn:Em; [|done].
    apply validate_grants_ok in Em as (HG & HN & _ & ->).
    apply validate_sessions_ok in HV as (HS & HI & HL & _ & _). constructor; try done.
    eapply Forall_impl; [exact HS|]. intros s (Hid & e & He & Hv). split; [done|].
    apply grants_map_lookup in He; [|done..]. destruct He as [?|(g & ? & ? & <-)]; [done|]. eauto.
  - intros [HG HN HS HI HL].
    rewrite (proj2 (validate_grants_ok _ ∅ _)) by (split_and!; [done|done|done|reflexivity]).
    apply validate_sessions_ok. split_and!; [|done|done|set_solver|set_solver].
    eapply Forall_impl; [exact HS|]. intros s (Hid & g & Hg & Hgid & Hv). split; [done|].
    exists (g_expires_at g). split; [|done]. apply grants_map_lookup; [done..|]. eauto.
Qed.

(** A store that succeeds wrote a valid state and nothing else does. *)
Lemma store_file_ok `{StateJson} disk st io disk' :
  store_file disk st io = (disk', Ok tt) <->
  io = IoOk /\ schema_version st = CURRENT_STATE_SCHEMA_VERSION /\ validate st = Ok tt /\
  exists b, to_vec_pretty st = Some b /\ zlen b <= MAX_STATE_FILE_BYTES /\ disk' = Some b.
Proof.
  unfold store_file. split.
  - intros HS. destruct io, (Z.eqb_spec (schema_version st) CURRENT_STATE_SCHEMA_VERSION); try discriminate HS;
      (destruct (validate st) as [[]|]; cbn [map_err] in HS; [|discriminate HS]); try discriminate HS;
      (destruct (to_vec_pretty st) as [b|]; cbn [ok_or] in HS; [|discriminate HS]);
      destruct (Z.ltb_spec MAX_STATE_FILE_BYTES (zlen b)); cbn in HS; try discriminate HS.
    injection HS as <-. split_and!; try done. exists b. split_and!; try done.
  - intros (-> & Hs & HV & b & Hb & Hl & ->). rewrite Hs, HV, Hb. cbn [map_err ok_or].
    replace (MAX_STATE_FILE_BYTES <? zlen b) with false by lia. done.
Qed.

Lemma store_file_err `{StateJson} disk st io disk' e :
  store_file disk st io = (disk', Err e) -> disk' = disk.
Proof. unfold store_file. case_match; naive_solver. Qed.

(** Loading gives back what was stored. *)
Lemma load_stored `{StateJson, !StateJsonLaws} disk st io disk' :
  store_file disk st io = (disk', Ok tt) -> load_file disk' LoadOk = Ok st.
Proof.
  intros (_ & Hs & HV & b & Hb & Hl & ->)%store_file_ok. unfold load_file.
  rewrite (proj2 (Z.leb_le _ _)) by done. rewrite (from_slice_to_vec st b Hb). cbn [ok_or].
  rewrite Hs. cbn [Z.eqb]. change (CURRENT_STATE_SCHEMA_VERSION =? LEGACY_STATE_SCHEMA_VERSION) with false.
  rewrite Z.eqb_refl, HV. done.
Qed.

Lemma load_file_wf `{StateJson, !StateJsonLaws} disk io st :
  load_file disk io = Ok st ->
  state_wf st /\ schema_version st = CURRENT_STATE_SCHEMA_VERSION /\ state_typed st = true.
Proof.
  unfold load_file. intros HL.
  assert (state_wf state_default) by (constructor; constructor).
  destruct io, disk as [b|]; try discriminate HL; try (by injection HL as <-);
    destruct (zlen b <=? _); try discriminate HL.
  destruct (from_slice b) as [st'|] eqn:EF; cbn [ok_or] in HL; [|discriminate HL].
  apply from_slice_typed in EF. unfold state_typed in *.
  destruct (Z.eqb_spec (schema_version st') LEGACY_STATE_SCHEMA_VERSION);
    [|destruct (Z.eqb_spec (schema_version st') CURRENT_STATE_SCHEMA_VERSION); [|discriminate HL]];
    (destruct (validate _) as [[]|] eqn:HV; cbn [map_err] in HL; [|discriminate HL]);
    injection HL as <-; (split; [by apply validate_ok|split; [done|]]); [|done].
  cbn. by apply andb_true_iff in EF as [[_ EF]%andb_true_iff ->]; rewrite EF.
Qed.

(** ** Looking records up *)

Lemma find_grant_some st id g : find_grant st id = Some g -> g ∈ grants st /\ g_id g = id.
Proof.
  unfold find_grant. destruct (list_find _ _) as [[i g']|] eqn:E; [|done]. intros [= <-].
  apply list_find_Some in E as (? & ? & _). split; [by eapply list_elem_of_lookup_2|done].
Qed.

Lemma find_grant_none st id : find_grant st id = None <-> forall g, g ∈ grants st -> g_id g <> id.
Proof.
  unfold find_grant. destruct (list_find _ _) as [[i g']|] eqn:E; split; try done.
  - intros HN. apply list_find_Some in E as (E & ? & _). destruct (HN g'); [by eapply list_elem_of_lookup_2|done].
  - intros _. apply list_find_None in E. by rewrite Forall_forall in E.
Qed.

Lemma find_session_some st id s : find_session st id = Some s -> s ∈ sessions st /\ s_id s = id.
Proof.
  unfold find_session. destruct (list_find _ _) as [[i s']|] eqn:E; [|done]. intros [= <-].
  apply list_find_Some in E as (? & ? & _). split; [by eapply list_elem_of_lookup_2|done].
Qed.

(** With unique identifiers a record is determined by its own. *)
Lemma NoDup_key_inj {A B} (f : A -> B) l x y :
  NoDup (map f l) -> x ∈ l -> y ∈ l -> f x = f y -> x = y.
Proof.
  induction l as [|z l IH]; intros HN Hx Hy E; [by apply not_elem_of_nil in Hx|].
  cbn in HN. apply NoDup_cons in HN as [Hz HN].
  apply elem_of_cons in Hx as [->|Hx], Hy as [->|Hy]; try done.
  - destruct Hz. rewrite E. by apply list_elem_of_fmap_2.
  - destruct Hz. rewrite <- E. by apply list_elem_of_fmap_2.
  - by apply IH.
Qed.

Lemma find_grant_unique st g :
  state_wf st -> g ∈ grants st -> find_grant st (g_id g) = Some g.
Proof.
  intros Hwf Hg. destruct (find_grant st (g_id g)) as [g'|] eqn:E.
  - apply find_grant_some in E as [Hg' E]. f_equal.
    eapply (NoDup_key_inj g_id); eauto using wf_grant_ids.
  - apply find_grant_none with (g := g) in E; done.
Qed.

(** ** Counting against an allowance *)

Lemma add_fields g bytes now :
  g_id (add g bytes now) = g_id g /\ g_allowance (add g bytes now) = g_allowance g /\
  g_expires_at (add g bytes now) = g_expires_at g /\ g_max_connections (add g bytes now) = g_max_connections g /\
  set_usage (add g bytes now) None = set_usage g None.
Proof. unfold add. destruct g as [??????????? ]; cbn. destruct g_allowance0; cbn; [|done]. by destruct (bytes =? 0). Qed.

(** [add] adds within a period and starts again in a new one. *)
Lemma used_add g bytes now a :
  g_allowance g = Some a -> 0 <= bytes -> 0 <= used g now <= u64_max ->
  used (add g bytes now) now = sat_add64 (used g now) bytes.
Proof.
  intros Ha Hb Hu. unfold add. rewrite Ha. destruct (Z.eqb_spec bytes 0) as [->|].
  - unfold sat_add64. lia.
  - unfold used at 1. cbn. by rewrite Ha, Z.eqb_refl.
Qed.

Lemma add_wf g bytes now : grant_wf g -> grant_wf (add g bytes now).
Proof.
  unfold add. destruct (g_allowance g) as [a|] eqn:Ea; [|done]. destruct (bytes =? 0); [done|].
  intros [Hid Hv]. split; [done|]. unfold validate_grant in *. cbn. rewrite Ea in *.
  repeat (break_hyp Hv; cbn); done.
Qed.
End wf.
