(* ===== verification/Activity.v ===== *)
(** Model of crates/ket-server/src/activity.rs: the in-memory log of what
    devices recently did with each grant. *)

From Stdlib Require Import ZArith Lia.
From stdpp Require Import sorting.
From S2P Require Import Prelude Grant.

Definition MAX_ENTRIES_PER_GRANT : nat := 24.

Record Activity := mkActivity {
  a_event : GrantActivityEvent;
  a_session_id : option (list byte);
  a_client_name : list byte;
  a_protocol : option TransportProtocol;
}.

Global Instance Activity_eq_dec : EqDecision Activity.
Proof. solve_decision. Defined.

(** [Activity::session], [enrollment] and [over]. *)
Definition activity_session (event : GrantActivityEvent) (session_id client_name : list byte) : Activity :=
  mkActivity event (Some session_id) client_name None.
Definition activity_enrollment (event : GrantActivityEvent) (client_name : list byte) : Activity :=
  mkActivity event None client_name None.
Definition over (a : Activity) (p : TransportProtocol) : Activity :=
  mkActivity (a_event a) (a_session_id a) (a_client_name a) (Some p).

(** [Activity::same_as]. *)
Definition same_as (a : Activity) (e : GrantActivity) : bool :=
  bool_decide (a_event a = ga_event e) && bool_decide (a_session_id a = ga_session_id e)
  && bool_decide (a_client_name a = ga_client_name e) && bool_decide (a_protocol a = ga_protocol e).

Notation ActivityLog := (gmap (list byte) (list GrantActivity)).

Definition sat_add32 (a b : Z) : Z := Z.min (a + b) u32_max.

(** The entries of one grant after [activity]. *)
Definition record_entries (entries : list GrantActivity) (a : Activity) (now : Z) : list GrantActivity :=
  match list_find (fun e => same_as a e = true) entries with
  | Some (position, e) =>
    delete position entries
    ++ [mkGrantActivity (ga_event e) (ga_session_id e) (ga_client_name e) (ga_protocol e)
          (sat_add32 (ga_count e) 1) (first_at_epoch_seconds e) now]
  | None =>
    (if (MAX_ENTRIES_PER_GRANT <=? length entries)%nat then drop 1 entries else entries)
    ++ [mkGrantActivity (a_event a) (a_session_id a) (a_client_name a) (a_protocol a) 1 now now]
  end.

(** [ActivityLog::record], [recent] and [retain]. *)
Definition record (log : ActivityLog) (grant_id : list byte) (a : Activity) (now : Z) : ActivityLog :=
  <[grant_id := record_entries (default [] (log !! grant_id)) a now]> log.
Definition recent (log : ActivityLog) (grant_id : list byte) : list GrantActivity :=
  match log !! grant_id with Some entries => rev entries | None => [] end.
Definition retain (log : ActivityLog) (keep : list byte -> bool) : ActivityLog :=
  filter (fun kv => keep kv.1 = true) log.

(** ** Properties of one grant's entries *)

(** What an entry is about. *)
Definition entry_key (e : GrantActivity) : Activity :=
  mkActivity (ga_event e) (ga_session_id e) (ga_client_name e) (ga_protocol e).

Lemma same_as_key a e : same_as a e = true <-> entry_key e = a.
Proof.
  unfold same_as, entry_key. rewrite !andb_true_iff, !bool_decide_eq_true. destruct a; cbn.
  split; [intros (((-> & ->) & ->) & ->); done|intros [=]; done].
Qed.

(** At most 24 entries, one per thing that happened. *)
Definition entries_bounded (entries : list GrantActivity) : Prop :=
  (length entries <= MAX_ENTRIES_PER_GRANT)%nat /\ NoDup (map entry_key entries).

(** Moreover in the order they last happened, none later than [now]. *)
Record entries_wf (now : Z) (entries : list GrantActivity) : Prop := {
  ew_bounded : entries_bounded entries;
  ew_ordered : StronglySorted (fun e e' => last_at_epoch_seconds e <= last_at_epoch_seconds e') entries;
  ew_past : Forall (fun e => last_at_epoch_seconds e <= now) entries;
}.

Lemma StronglySorted_sublist {A} (R : A -> A -> Prop) l k :
  l `sublist_of` k -> StronglySorted R k -> StronglySorted R l.
Proof.
  induction 1 as [|x l k Hs IH|x l k Hs IH]; [done| |]; inversion 1 as [|? ? HS HF]; subst; [|by apply IH].
  constructor; [by apply IH|]. rewrite Forall_forall in *. intros y Hy. apply HF.
  eapply sublist_subseteq; [|exact Hy]. done.
Qed.

Lemma StronglySorted_snoc {A} (R : A -> A -> Prop) l x :
  StronglySorted R l -> Forall (fun y => R y x) l -> StronglySorted R (l ++ [x]).
Proof.
  induction 1 as [|y l HS IH HF]; intros HR; cbn; [repeat constructor|].
  apply Forall_cons in HR as [Hyx HR]. constructor; [by apply IH|]. apply Forall_app; auto.
Qed.

(** What [record_entries] keeps of the entries, and the entry it adds. *)
Lemma record_entries_split entries a t :
  entries_bounded entries ->
  exists kept e, record_entries entries a t = kept ++ [e] /\ kept `sublist_of` entries /\
    (length kept < MAX_ENTRIES_PER_GRANT)%nat /\ entry_key e = a /\ a ∉ map entry_key kept /\
    last_at_epoch_seconds e = t.
Proof.
  intros [HB HD]. unfold record_entries. destruct (list_find _ _) as [[i e]|] eqn:E.
  - apply list_find_Some in E as (Hi & He & _). apply same_as_key in He.
    pose proof (lookup_lt_Some _ _ _ Hi). do 2 eexists.
    split; [reflexivity|]. split; [apply sublist_delete|]. split; [rewrite length_delete by eauto; lia|].
    split; [exact He|]. split; [|done].
    rewrite delete_take_drop, map_app, <- He. rewrite <- (take_drop_middle _ _ _ Hi), map_app in HD.
    apply NoDup_app in HD as (_ & HD & HD2). cbn in HD, HD2. apply NoDup_cons in HD2 as [HD2 _].
    intros [?|?]%elem_of_app; [|done]. eapply HD; [done|left].
  - apply list_find_None in E. do 2 eexists. split; [reflexivity|].
    assert (forall l, l `sublist_of` entries -> a ∉ map entry_key l) as Hfresh.
    { intros l Hl Hin. apply elem_of_map in Hin as (e & -> & Hin). rewrite Forall_forall in E.
      apply (E e); [by eapply elem_of_sublist|]. by apply same_as_key. }
    destruct (Nat.leb_spec MAX_ENTRIES_PER_GRANT (length entries)).
    + split_and!; [apply sublist_drop| |by destruct a|apply Hfresh, sublist_drop|done].
      rewrite length_drop. unfold MAX_ENTRIES_PER_GRANT in *. lia.
    + split_and!; [done|done|by destruct a|by apply Hfresh|done].
Qed.

Lemma record_entries_bounded entries a t :
  entries_bounded entries -> entries_bounded (record_entries entries a t).
Proof.
  intros Hb. destruct (record_entries_split entries a t Hb) as (kept & e & -> & Hs & Hl & <- & Hni & _).
  destruct Hb as [HB HD]. split; [rewrite length_app; cbn; lia|]. rewrite map_app. apply NoDup_app.
  split_and!; [by eapply sublist_NoDup_map|intros x Hx ->%list_elem_of_singleton; done|apply NoDup_singleton].
Qed.

Lemma record_entries_wf now t entries a :
  entries_wf now entries -> now <= t -> entries_wf t (record_entries entries a t).
Proof.
  intros [HB HO HP] Ht. pose proof (record_entries_bounded entries a t HB) as HB'.
  destruct (record_entries_split entries a t HB) as (kept & e & E & Hs & _ & _ & _ & He). rewrite E in *.
  assert (Forall (fun e => last_at_epoch_seconds e <= now) kept) as HP' by by eapply sublist_Forall.
  constructor; [done| |].
  - apply StronglySorted_snoc; [by eapply StronglySorted_sublist|].
    eapply Forall_impl; [exact HP'|]. cbn. intros ?. lia.
  - apply Forall_app. split; [|by repeat constructor; lia].
    eapply Forall_impl; [exact HP'|]. cbn. intros ?. lia.
Qed.

(** Every grant's entries are well formed. *)
Definition log_wf (now : Z) (log : ActivityLog) : Prop := map_Forall (fun _ entries => entries_wf now entries) log.

Lemma entries_wf_later now t entries : entries_wf now entries -> now <= t -> entries_wf t entries.
Proof.
  intros [HB HO HP] Ht. constructor; try done. eapply Forall_impl; [exact HP|]. cbn. intros ?. lia.
Qed.

Lemma entries_wf_nil now : entries_wf now [].
Proof. repeat constructor. Qed.

Lemma record_wf now t log id a : log_wf now log -> now <= t -> log_wf t (record log id a t).
Proof.
  intros HL Ht. unfold record. apply map_Forall_insert_2.
  - apply (record_entries_wf now); [|done]. destruct (log !! id) eqn:E; [by eapply HL|apply entries_wf_nil].
  - intros k entries Hk. eapply entries_wf_later; [by eapply HL|done].
Qed.

Lemma retain_wf now log keep : log_wf now log -> log_wf now (retain log keep).
Proof. intros HL k e (Hk & _)%map_lookup_filter_Some. by eapply HL. Qed.

(** A recorded activity is the newest entry, counted once more if it is known. *)
Lemma recent_record log id a now :
  exists e rest, recent (record log id a now) id = e :: rest /\ entry_key e = a /\
    last_at_epoch_seconds e = now /\
    ga_count e = match list_find (fun e => same_as a e = true) (default [] (log !! id)) with
                 | Some (_, old) => sat_add32 (ga_count old) 1 | None => 1 end.
Proof.
  unfold recent, record. rewrite lookup_insert_eq. unfold record_entries.
  destruct (list_find _ _) as [[i e]|] eqn:E; rewrite rev_app_distr; cbn [rev app].
  - apply list_find_Some in E as (_ & He & _). apply same_as_key in He. eexists _, _. split_and!; [done|exact He|done|done].
  - eexists _, _. split_and!; [done| |done|done]. by destruct a.
Qed.
