(* ===== verification/Meter.v ===== *)
(** Model of crates/ket-server/src/meter.rs: turning the engines' running
    byte counters into what each session moved since the last reading.

    Theorems about allowance periods, the meter and the activity log. *)

From Stdlib Require Import ZArith Lia.
From stdpp Require Import strings sorting.
From S2P Require Import Prelude Allowance Grant Activity.

(** [SessionAllocation] of service.rs. *)
Record SessionAllocation := mkAllocation { al_id : list byte; al_resource_slot : Z }.

Global Instance SessionAllocation_eq_dec : EqDecision SessionAllocation.
Proof. solve_decision. Defined.

Record MeteredSession := mkMetered {
  allocation : SessionAllocation;
  m_issued_at : Z;
  counted_since : Z;
}.

(** [UsageReading] of data_plane.rs. *)
Record UsageReading := mkReading {
  r_engine : Z;
  r_session_id : list byte;
  r_since : Z;
  r_bytes : Z;
}.

Definition CounterKey : Type := Z * list byte.

Record UsageMeter := mkMeter {
  started_at : Z;
  last : gmap CounterKey (Z * Z);
}.

(** [UsageMeter::new]. *)
Definition meter_new (started_at : Z) : UsageMeter := mkMeter started_at ∅.

(** [collect::<HashMap>]: the last session of an identifier. *)
Definition sessions_by_id (sessions : list MeteredSession) : gmap (list byte) MeteredSession :=
  fold_left (fun m s => <[al_id (allocation s) := s]> m) sessions ∅.

(** What a reading adds, from the last reading of its counter. *)
Definition delta (started_at : Z) (session : MeteredSession) (known : option (Z * Z)) (r : UsageReading) : Z :=
  match known with
  | Some (since, bytes) =>
    if (since =? r_since r) && (bytes <=? r_bytes r) then r_bytes r - bytes else r_bytes r
  | None =>
    if Z.max started_at (counted_since session) <=? Z.max (m_issued_at session) (r_since r)
    then r_bytes r else 0
  end.

(** The loop over the readings. *)
Fixpoint take_loop (started_at : Z) (by_id : gmap (list byte) MeteredSession) (readings : list UsageReading)
    (last : gmap CounterKey (Z * Z)) (moved : gmap (list byte) Z)
    : gmap CounterKey (Z * Z) * gmap (list byte) Z :=
  match readings with
  | [] => (last, moved)
  | r :: readings =>
    match by_id !! r_session_id r with
    | None => take_loop started_at by_id readings last moved
    | Some session =>
      let key := (r_engine r, r_session_id r) in
      let d := delta started_at session (last !! key) r in
      take_loop started_at by_id readings
        (<[key := (r_since r, r_bytes r)]> last)
        (<[r_session_id r := sat_add64 (default 0 (moved !! r_session_id r)) d]> moved)
    end
  end.

(** [UsageMeter::take]. *)
Definition meter_take (m : UsageMeter) (sessions : list MeteredSession) (readings : list UsageReading)
    : UsageMeter * gmap (list byte) Z :=
  let by_id := sessions_by_id sessions in
  let kept := filter (fun kv => is_Some (by_id !! kv.1.2)) (last m) in
  let '(last', moved) := take_loop (started_at m) by_id readings kept ∅ in
  (mkMeter (started_at m) last', moved).

(** ** One reading at a time *)

Lemma sessions_by_id_singleton s : sessions_by_id [s] = {[al_id (allocation s) := s]}.
Proof. done. Qed.

(** Reading one listed session's counter. *)
Lemma take_one m s r :
  r_session_id r = al_id (allocation s) ->
  meter_take m [s] [r] =
    (mkMeter (started_at m)
       (<[(r_engine r, r_session_id r) := (r_since r, r_bytes r)]>
          (filter (fun kv => is_Some (({[al_id (allocation s) := s]} : gmap (list byte) MeteredSession) !! kv.1.2)) (last m))),
     {[r_session_id r := sat_add64 0 (delta (started_at m) s (last m !! (r_engine r, r_session_id r)) r)]}).
Proof.
  intros Hid. unfold meter_take. rewrite sessions_by_id_singleton. cbn [take_loop].
  rewrite Hid, lookup_singleton_eq. f_equal. rewrite lookup_empty.
  cbn [default]. rewrite map_lookup_filter. cbn [fst snd].
  rewrite insert_empty. do 2 f_equal. f_equal.
  destruct (last m !! _) eqn:E; cbn; [|done].
  rewrite option_guard_True; [done|]. rewrite lookup_singleton_eq. done.
Qed.

(** ** A counter over time *)

(** What happens to one engine counter: bytes move, the engine starts counting
    again from zero (naming a [since]), or the meter reads it. *)
Inductive CounterEvent := Moved (n : Z) | Restarted (since : Z) | Read.

Record Counter := mkCounter {
  c_since : Z;
  c_bytes : Z;
  c_total : Z;
  c_meter : UsageMeter;
  c_counted : Z;
}.

Section counter.
Variables (session : MeteredSession) (engine : Z).

Definition counter_reading (c : Counter) : UsageReading :=
  mkReading engine (al_id (allocation session)) (c_since c) (c_bytes c).
Definition counter_key : CounterKey := (engine, al_id (allocation session)).

Definition counter_step (c : Counter) (e : CounterEvent) : Counter :=
  match e with
  | Moved n => mkCounter (c_since c) (c_bytes c + n) (c_total c + n) (c_meter c) (c_counted c)
  | Restarted since => mkCounter since 0 (c_total c) (c_meter c) (c_counted c)
  | Read =>
    let '(m, moved) := meter_take (c_meter c) [session] [counter_reading c] in
    mkCounter (c_since c) (c_bytes c) (c_total c) m
      (c_counted c + default 0 (moved !! al_id (allocation session)))
  end.

(** What the next reading adds. *)
Definition pending (c : Counter) : Z :=
  delta (started_at (c_meter c)) session (last (c_meter c) !! counter_key) (counter_reading c).

Lemma delta_nonneg start known r : 0 <= r_bytes r -> 0 <= delta start session known r.
Proof.
  intros Hr. unfold delta. destruct known as [[since bytes]|].
  - destruct (Z.eqb_spec since (r_since r)), (Z.leb_spec bytes (r_bytes r)); cbn; lia.
  - case_match; lia.
Qed.

Lemma counter_read c :
  counter_step c Read =
    mkCounter (c_since c) (c_bytes c) (c_total c) (fst (meter_take (c_meter c) [session] [counter_reading c]))
      (c_counted c + sat_add64 0 (pending c)) /\
  pending (counter_step c Read) = 0.
Proof.
  unfold pending, counter_step. rewrite take_one by done. cbn [fst].
  rewrite lookup_singleton_eq. cbn [default]. split; [done|].
  cbn [c_meter c_bytes c_since last started_at counter_reading r_engine r_session_id r_since r_bytes].
  unfold counter_key. rewrite lookup_insert_eq. unfold delta. cbn. rewrite Z.eqb_refl, Z.leb_refl. cbn. lia.
Qed.

(** The bytes counted and those the next reading would add never exceed the
    bytes moved. *)
Definition counter_inv (c : Counter) : Prop :=
  0 <= c_bytes c /\ (forall since b, last (c_meter c) !! counter_key = Some (since, b) -> 0 <= b) /\
  c_counted c + pending c <= c_total c.

Lemma counter_step_inv c e :
  (forall n, e = Moved n -> 0 <= n) -> counter_inv c -> counter_inv (counter_step c e).
Proof.
  intros Hn (Hb & Hl & HI). destruct e as [n|since|].
  - specialize (Hn n eq_refl). split_and!; cbn; [lia|done|]. unfold pending, delta in *. cbn in *.
    destruct (last _ !! _) as [[s b]|].
    + destruct (Z.eqb_spec s (c_since c)), (Z.leb_spec b (c_bytes c)), (Z.leb_spec b (c_bytes c + n)); cbn in *; lia.
    + destruct (_ <=? _); lia.
  - assert (0 <= pending c) by by apply delta_nonneg. split_and!; cbn; [lia|done|].
    unfold pending at 1, delta. cbn. destruct (last _ !! _) as [[s b]|]; [|destruct (_ <=? _); lia].
    specialize (Hl s b eq_refl). destruct (Z.eqb_spec s since), (Z.leb_spec b 0); cbn; lia.
  - destruct (counter_read c) as [E Ep]. assert (0 <= pending c) by by apply delta_nonneg.
    split_and!; [rewrite E; done| |rewrite Ep, E; cbn; unfold sat_add64; lia].
    rewrite E. cbn. rewrite take_one by done. cbn. unfold counter_key. rewrite lookup_insert_eq.
    intros ? ? [= _ <-]. done.
Qed.

(** Bytes moved by a counter that began after counting did, or those moved
    after the meter first saw it. *)
Definition counter_new (start since bytes : Z) : Counter :=
  mkCounter since bytes
    (if Z.max start (counted_since session) <=? Z.max (m_issued_at session) since then bytes else 0)
    (meter_new start) 0.

Definition counter_run (c : Counter) (events : list CounterEvent) : Counter := fold_left counter_step events c.

Definition moves_forward (e : CounterEvent) : bool := match e with Moved n => 0 <=? n | _ => true end.

Lemma counter_new_inv start since bytes : 0 <= bytes -> counter_inv (counter_new start since bytes).
Proof.
  intros Hb. split_and!; [done|done|]. unfold pending, delta. cbn. rewrite lookup_empty. case_match; lia.
Qed.

Lemma counter_run_inv c events :
  forallb moves_forward events = true -> counter_inv c -> counter_inv (counter_run c events).
Proof.
  revert c. induction events as [|e events IH]; intros c HF HI; [done|]. cbn in HF |- *.
  apply andb_true_iff in HF as [He HF]. apply IH; [done|]. apply counter_step_inv; [|done].
  intros n ->. cbn in He. lia.
Qed.

(** While a counter counted in full does not restart, every byte moved is
    counted or pending. *)
Definition exact_inv (c : Counter) : Prop :=
  0 <= c_bytes c <= c_total c /\ 0 <= c_counted c /\
  Z.max (started_at (c_meter c)) (counted_since session) <= Z.max (m_issued_at session) (c_since c) /\
  (forall since b, last (c_meter c) !! counter_key = Some (since, b) -> since = c_since c /\ 0 <= b <= c_bytes c) /\
  c_counted c + pending c = c_total c.

Definition no_restart (e : CounterEvent) : bool :=
  match e with Moved n => 0 <=? n | Restarted _ => false | Read => true end.

Lemma counter_step_exact c e :
  no_restart e = true -> c_total c <= u64_max -> exact_inv c -> exact_inv (counter_step c e).
Proof.
  intros He Hu (Hb & Hc & Hf & Hl & HI). destruct e as [n| |]; [|done|]; cbn in He.
  - apply Z.leb_le in He. split_and!; cbn; try lia.
    + intros s b E. destruct (Hl s b E). split; [done|lia].
    + unfold pending, delta in *. cbn in *. destruct (last _ !! _) as [[s b]|].
      * destruct (Hl s b eq_refl) as [-> ?]. rewrite Z.eqb_refl in *.
        destruct (Z.leb_spec b (c_bytes c)), (Z.leb_spec b (c_bytes c + n)); cbn in *; lia.
      * rewrite (proj2 (Z.leb_le _ _)) in * by done. lia.
  - destruct (counter_read c) as [E Ep]. assert (0 <= pending c) by (apply delta_nonneg; cbn; lia).
    unfold exact_inv. rewrite Ep, E. cbn. rewrite take_one by done. cbn. unfold counter_key.
    rewrite lookup_insert_eq. unfold sat_add64. split_and!; try lia. intros ? ? [= <- <-]. lia.
Qed.

Lemma counter_total_mono c events :
  forallb no_restart events = true -> c_total c <= c_total (counter_run c events).
Proof.
  revert c. induction events as [|e events IH]; intros c HF; [cbn; lia|]. cbn in HF.
  apply andb_true_iff in HF as [He HF]. change (counter_run c (e :: events)) with (counter_run (counter_step c e) events).
  specialize (IH (counter_step c e) HF).
  cut (c_total c <= c_total (counter_step c e)); [lia|]. destruct e; [cbn in *; lia|done|].
  rewrite (proj1 (counter_read c)). cbn. lia.
Qed.

Lemma counter_run_exact c events :
  forallb no_restart events = true -> c_total (counter_run c events) <= u64_max ->
  exact_inv c -> exact_inv (counter_run c events).
Proof.
  revert c. induction events as [|e events IH]; intros c HF Hu HI; cbn in *; [done|].
  apply andb_true_iff in HF as [He HF]. apply IH; [done|done|]. apply counter_step_exact; [done| |done].
  pose proof (counter_total_mono c (e :: events)) as Hm. cbn in Hm. rewrite He, HF in Hm. specialize (Hm eq_refl). lia.
Qed.
End counter.

(** Allowance periods divide time: every instant lies in one period, all
    instants of a period agree on when it began, the end of a period begins the
    next one, and no period is longer than 31 days, so none overflows.  Weeks
    begin on Mondays; before the first Monday of 1970 they are cut at the
    epoch. *)
Theorem periods_partition_time p now t :
  0 <= now -> (p = Week -> 4 * SECONDS_PER_DAY <= now) -> period_start p now <= t < period_end p now ->
  period_start p now <= now < period_end p now /\
  period_start p t = period_start p now /\
  period_start p (period_end p now) = period_end p now /\
  period_end p now <= now + 31 * SECONDS_PER_DAY.
Proof.
  intros Hn Hw Ht. split_and!; [by apply period_holds..| | |];
    [by apply period_start_stable|by apply period_end_next|by apply period_end_bound].
Qed.

Lemma periods_partition_time_witness : period_start Month 1793000000 = period_start Month 1792331110.
Proof.
  apply (periods_partition_time Month 1792331110 1793000000); [lia|discriminate|].
  split; vm_compute; [discriminate|reflexivity].
Defined.

(** The calendar conversions agree: the day of the date of a day is that
    day, for every day from the epoch on. *)
Theorem calendar_roundtrip d :
  0 <= d -> let '(year, month, day) := civil_from_days d in days_from_civil year month day = d.
Proof. intros Hd. apply civil_day_roundtrip. lia. Qed.

Lemma calendar_roundtrip_witness : days_from_civil 2024 2 29 = 19782.
Proof. exact (calendar_roundtrip 19782 ltac:(lia)). Defined.

(** the meter never counts a byte twice: however a counter grows, is reset by
    its engine and is read, the bytes counted for the session are at most the
    bytes it moved while counting applied. *)
Theorem meter_never_overcounts session engine start since bytes events :
  0 <= bytes -> forallb moves_forward events = true ->
  c_counted (counter_run session engine (counter_new session start since bytes) events) <=
  c_total (counter_run session engine (counter_new session start since bytes) events).
Proof.
  intros Hb HF. pose proof (counter_run_inv session engine _ events HF (counter_new_inv session engine start since bytes Hb)) as HI.
  destruct HI as (Hb' & _ & HI).
  pose proof (delta_nonneg session (started_at (c_meter (counter_run session engine (counter_new session start since bytes) events)))
    (last (c_meter (counter_run session engine (counter_new session start since bytes) events)) !! counter_key session engine)
    (counter_reading session engine (counter_run session engine (counter_new session start since bytes) events)) Hb') as Hp.
  fold (pending session engine (counter_run session engine (counter_new session start since bytes) events)) in Hp. lia.
Qed.

Definition demo_metered : MeteredSession := mkMetered (mkAllocation (str "Session00001") 0) 1000 900.

Lemma meter_never_overcounts_witness :
  c_counted (counter_run demo_metered 1 (counter_new demo_metered 950 0 500)
    [Read; Moved 200; Read; Restarted 0; Moved 50; Read]) <= 750.
Proof.
  assert (c_total (counter_run demo_metered 1 (counter_new demo_metered 950 0 500)
    [Read; Moved 200; Read; Restarted 0; Moved 50; Read]) = 750) as E by (vm_compute; reflexivity).
  rewrite <- E. apply meter_never_overcounts; [lia|vm_compute; reflexivity].
Defined.

(** A counter that began after counting did and is not reset is counted to
    the byte by its next reading. *)
Theorem meter_counts_everything session engine start since bytes events :
  0 <= bytes -> forallb no_restart events = true ->
  Z.max start (counted_since session) <= Z.max (m_issued_at session) since ->
  c_total (counter_run session engine (counter_new session start since bytes) events) <= u64_max ->
  c_counted (counter_step session engine (counter_run session engine (counter_new session start since bytes) events) Read) =
  c_total (counter_run session engine (counter_new session start since bytes) events).
Proof.
  intros Hb HF Hfull Hu.
  assert (exact_inv session engine (counter_new session start since bytes)) as HI0.
  { unfold exact_inv, pending, delta, counter_new. cbn. rewrite lookup_empty, (proj2 (Z.leb_le _ _)) by done.
    split_and!; try lia. done. }
  pose proof (counter_run_exact session engine _ events HF Hu HI0) as (Hb' & Hc & _ & _ & HI).
  destruct (counter_read session engine (counter_run session engine (counter_new session start since bytes) events)) as [-> _].
  cbn. pose proof (delta_nonneg session (started_at (c_meter (counter_run session engine (counter_new session start since bytes) events)))
    (last (c_meter (counter_run session engine (counter_new session start since bytes) events)) !! counter_key session engine)
    (counter_reading session engine (counter_run session engine (counter_new session start since bytes) events)) (proj1 Hb')) as Hp.
  fold (pending session engine (counter_run session engine (counter_new session start since bytes) events)) in Hp.
  unfold sat_add64. lia.
Qed.

Lemma meter_counts_everything_witness :
  c_counted (counter_step demo_metered 1 (counter_run demo_metered 1 (counter_new demo_metered 950 0 500)
    [Read; Moved 200; Moved 30]) Read) = 730.
Proof.
  rewrite meter_counts_everything; [vm_compute; reflexivity|lia|vm_compute; reflexivity|vm_compute; discriminate|vm_compute; discriminate].
Defined.

(** A log built by recording activities at their times and forgetting grants. *)
Inductive LogEvent := Recorded (grant_id : list byte) (a : Activity) (now : Z) | Retained (keep : list byte -> bool).

Definition log_step (log : ActivityLog) (e : LogEvent) : ActivityLog :=
  match e with Recorded id a now => record log id a now | Retained keep => retain log keep end.

(** The events' times never go back. *)
Fixpoint in_order (now : Z) (events : list LogEvent) : bool :=
  match events with
  | [] => true
  | Recorded _ _ t :: events => (now <=? t) && in_order t events
  | Retained _ :: events => in_order now events
  end.

Lemma log_steps_wf now log events :
  log_wf now log -> in_order now events = true -> exists t, now <= t /\ log_wf t (fold_left log_step events log).
Proof.
  revert now log. induction events as [|[id a t|keep] events IH]; intros now log HL HO; cbn in *.
  - exists now. split; [lia|done].
  - apply andb_true_iff in HO as [Ht HO]. destruct (IH t (record log id a t)) as (t' & ? & ?); [|done|].
    + apply (record_wf now); [done|lia].
    + exists t'. split; [lia|done].
  - apply (IH now); [by apply retain_wf|done].
Qed.

(** With a clock that does not go back, each grant's recent activity is at
    most 24 entries, no two about the same thing, newest first. *)
Theorem recent_activity_ordered now events id :
  in_order now events = true ->
  (length (recent (fold_left log_step events ∅) id) <= MAX_ENTRIES_PER_GRANT)%nat /\
  NoDup (map entry_key (recent (fold_left log_step events ∅) id)) /\
  StronglySorted (fun e e' => last_at_epoch_seconds e' <= last_at_epoch_seconds e) (recent (fold_left log_step events ∅) id).
Proof.
  intros HO. destruct (log_steps_wf now ∅ events) as (t & _ & HL); [done|done|].
  unfold recent. destruct (fold_left log_step events ∅ !! id) as [entries|] eqn:E; [|repeat constructor; cbn; lia].
  destruct (HL _ _ E) as [[HB HD] HS _]. rewrite length_rev, map_rev. split_and!; [done| |].
  - by rewrite <- Permutation_rev.
  - clear -HS. induction HS as [|e l HS IH HF]; cbn; [constructor|]. apply StronglySorted_snoc; [done|].
    apply Forall_forall. intros x Hx. apply list_elem_of_In, in_rev, list_elem_of_In in Hx.
    rewrite Forall_forall in HF. by apply HF.
Qed.

Definition demo_events : list LogEvent :=
  [Recorded (str "g") (activity_session CheckedIn (str "s") (str "Phone")) 10;
   Recorded (str "g") (activity_session SignedIn (str "s") (str "Phone")) 20;
   Recorded (str "g") (activity_session CheckedIn (str "s") (str "Phone")) 30].

Lemma recent_activity_ordered_witness :
  StronglySorted (fun e e' => last_at_epoch_seconds e' <= last_at_epoch_seconds e)
    (recent (fold_left log_step demo_events ∅) (str "g")).
Proof.
  destruct (recent_activity_ordered 0 demo_events (str "g") ltac:(vm_compute; reflexivity)) as (_ & _ & HS). exact HS.
Defined.
