(* ===== verification/GrantAdmin.v ===== *)
(** Model of crates/ket-server/src/grant_admin.rs: applying an admin's changes
    to one grant and deciding which of its sessions the change ends; with the
    errors and session helpers of service.rs it uses. *)

From Stdlib Require Import ZArith Lia.
From stdpp Require Import strings sorting.
From S2P Require Import Prelude Order Utf8 Allowance Grant Model Meter.

(** [ServiceError]. *)
Inductive ServiceError :=
| InvalidInput (message : list byte)
| Unauthorized | GrantExpired | GrantCapacity | GrantPaused
| AllowanceUsed (resets_at : Z)
| NodeCapacity | Busy | NotFound | Forbidden | Crypto
| Persistence (e : RepositoryError)
| InvalidState (message : list byte)
| CryptoWorker.

Global Instance ServiceError_eq_dec : EqDecision ServiceError.
Proof. solve_decision. Defined.

(** [required_resource_slot] and [session_allocation]. *)
Definition required_resource_slot (s : SessionRecord) : result ServiceError Z :=
  ok_or (s_resource_slot s) (InvalidState (str "an active session has no resource slot")).
Definition session_allocation (s : SessionRecord) : result ServiceError SessionAllocation :=
  let* slot := required_resource_slot s in Ok (mkAllocation (s_id s) slot).

(** A session whose lease has not run out. *)
Definition live (now : Z) (s : SessionRecord) : bool := now <? s_expires_at s.

(** * The changes to the grant *)

(** The assignments of [apply], in order, with [end_all]. *)
Definition change_grant (g : AccessGrantRecord) (c : UpdateAccessGrantRequest) (now : Z)
    : AccessGrantRecord * bool :=
  let label := default (g_label g) (new_label c) in
  let end_paused := match new_paused c with Some p => p && negb (g_paused g) | None => false end in
  let paused := default (g_paused g) (new_paused c) in
  let end_protocols := match new_protocols c with Some p => negb (bool_decide (p = g_protocols g)) | None => false end in
  let protocols := default (g_protocols g) (new_protocols c) in
  let max_connections := default (g_max_connections g) (new_max_connections c) in
  let expires_at := match new_expires_at c with Some t => Some t | None => g_expires_at g end in
  let '(allowance, since, usage) :=
    match new_allowance c with
    | Some new =>
      if bool_decide (period <$> new = period <$> g_allowance g)
      then (new, g_allowance_since g, g_usage g)
      else (new, (fun _ => now) <$> new, None)
    | None => (g_allowance g, g_allowance_since g, g_usage g)
    end in
  let usage := if reset_usage c then None else usage in
  let g' := mkGrant (g_id g) (g_secret_hash g) label max_connections expires_at (g_created_at g)
              paused protocols allowance since usage in
  (g', end_paused || end_protocols || bool_decide (is_Some (used_up_until g' now))).

(** * Which sessions end *)

(** The order of the keys [(issued_at, id)]. *)
Definition older (s t : SessionRecord) : bool := key_le (fun s => (s_issued_at s, s_id s)) s t.

(** [sort_by_key], a stable sort. *)
Definition sort_by_age (l : list SessionRecord) : list SessionRecord := sort_by older l.

(** The loop that collects the sessions to end. *)
Fixpoint ending_loop (end_all : bool) (max_connections now active : Z) (ss : list SessionRecord)
    : list (list byte) :=
  match ss with
  | [] => []
  | s :: ss =>
    if end_all || (live now s && (max_connections <=? active))
    then s_id s :: ending_loop end_all max_connections now active ss
    else ending_loop end_all max_connections now (if live now s then active + 1 else active) ss
  end.

(** A session cut to its grant's end. *)
Definition cut (id : list byte) (expires_at : option Z) (s : SessionRecord) : SessionRecord :=
  if bool_decide (s_grant_id s = id)
  then match expires_at with Some e => set_expires_at s (Z.min (s_expires_at s) e) | None => s end
  else s.

(** [apply]. *)
Definition apply (st : PersistedState) (id : list byte) (c : UpdateAccessGrantRequest) (now : Z)
    : result ServiceError (PersistedState * list SessionAllocation) :=
  match list_find (fun g => g_id g = id) (grants st) with
  | None => Err NotFound
  | Some (i, g) =>
    let '(g', end_all) := change_grant g c now in
    let ss := map (cut id (g_expires_at g')) (sessions st) in
    let sorted := sort_by_age (filter (fun s => s_grant_id s = id) ss) in
    let ending := ending_loop end_all (g_max_connections g') now 0 sorted in
    let* ended := collect session_allocation (filter (fun s => s_id s ∈ ending) ss) in
    Ok (mkState (schema_version st) (<[i := g']> (grants st))
          (filter (fun s => s_id s ∉ ending) ss), ended)
  end.

(** ** Sorting *)

Global Instance older_total : Total (fun s t => older s t = true).
Proof. apply key_le_total. Qed.

Global Instance older_trans : Transitive (fun s t => older s t = true).
Proof. apply key_le_trans. Qed.

Lemma sort_by_age_perm l : sort_by_age l ≡ₚ l.
Proof. apply sort_by_perm. Qed.

Lemma sort_by_age_sorted l : StronglySorted (fun s t => older s t = true) (sort_by_age l).
Proof. apply sort_by_sorted; apply _. Qed.

(** ** The device limit *)

(** Sessions counted against a limit. *)
Definition live_count (now : Z) (ss : list SessionRecord) : Z := zlen (filter (fun s => live now s = true) ss).

Lemma live_count_cons now s ss :
  live_count now (s :: ss) = (if live now s then 1 else 0) + live_count now ss.
Proof.
  unfold live_count. rewrite filter_cons. destruct (live now s).
  - rewrite decide_True by done. unfold zlen. cbn [length]. lia.
  - rewrite decide_False by done. lia.
Qed.

Lemma live_count_perm now ss ss' : ss ≡ₚ ss' -> live_count now ss = live_count now ss'.
Proof. intros HP. unfold live_count, zlen. by rewrite HP. Qed.

Lemma live_count_nonneg now ss : 0 <= live_count now ss.
Proof. apply zlen_nonneg. Qed.

Definition keeping (ending : list (list byte)) (ss : list SessionRecord) : list SessionRecord :=
  filter (fun s => s_id s ∉ ending) ss.

Lemma keeping_cons_drop ending s ss :
  s_id s ∉ map s_id ss -> keeping (s_id s :: ending) (s :: ss) = keeping ending ss.
Proof.
  intros Hs. unfold keeping. rewrite filter_cons_False by set_solver.
  apply filter_ext_elem. intros t Ht. rewrite not_elem_of_cons. split; [by intros [_ ?]|].
  intros ?. split; [|done]. intros E. apply Hs. rewrite <- E. by apply list_elem_of_fmap_2.
Qed.

Lemma ending_loop_subset end_all m now a ss : ending_loop end_all m now a ss ⊆ map s_id ss.
Proof. revert a; induction ss as [|s ss IH]; intros a; cbn; [done|]. case_match; set_solver. Qed.

Lemma keeping_cons_keep end_all m now a s ss :
  s_id s ∉ map s_id ss ->
  keeping (ending_loop end_all m now a ss) (s :: ss) = s :: keeping (ending_loop end_all m now a ss) ss.
Proof.
  intros Hs. unfold keeping. rewrite filter_cons_True; [done|]. intros Hin. apply Hs.
  by eapply ending_loop_subset.
Qed.

(** Ending everything keeps nothing. *)
Lemma ending_loop_all m now a ss : ending_loop true m now a ss = map s_id ss.
Proof. revert a; induction ss as [|s ss IH]; intros a; cbn; [done|]. by rewrite IH. Qed.

Lemma keeping_all ss : keeping (map s_id ss) ss = [].
Proof.
  apply elem_of_nil_inv. intros s [Hni Hs]%list_elem_of_filter. apply Hni. by apply list_elem_of_fmap_2.
Qed.

(** The loop keeps at most [m] live sessions. *)
Lemma ending_loop_limit m now a ss :
  NoDup (map s_id ss) -> a <= m ->
  a + live_count now (keeping (ending_loop false m now a ss) ss) <= m.
Proof.
  revert a; induction ss as [|s ss IH]; intros a HN Ha; [unfold live_count; cbn; rewrite zlen_nil; lia|]. cbn [map] in HN.
  apply NoDup_cons in HN as [Hs HN]. cbn [ending_loop orb]. destruct (live now s) eqn:El; cbn [andb].
  - destruct (Z.leb_spec m a).
    + rewrite keeping_cons_drop by done. by apply IH.
    + rewrite keeping_cons_keep, live_count_cons, El by done. specialize (IH (a + 1) HN). lia.
  - rewrite keeping_cons_keep, live_count_cons, El by done. specialize (IH a HN Ha). lia.
Qed.

(** It ends a session only when [m] others, all older, are kept. *)
Lemma ending_loop_oldest m now a ss id :
  NoDup (map s_id ss) -> a <= m -> StronglySorted (fun s t => older s t = true) ss ->
  id ∈ ending_loop false m now a ss ->
  a + live_count now (keeping (ending_loop false m now a ss) ss) = m /\
  exists t, t ∈ ss /\ s_id t = id /\ live now t = true /\
    Forall (fun s => live now s = true -> older s t = true) (keeping (ending_loop false m now a ss) ss).
Proof.
  revert a; induction ss as [|s ss IH]; intros a HN Ha HS Hid; [by apply not_elem_of_nil in Hid|].
  cbn [map] in HN. apply NoDup_cons in HN as [Hs HN]. inversion HS as [|? ? HS' HF]; subst.
  cbn [ending_loop orb] in *. destruct (live now s) eqn:El; cbn [andb] in *.
  - destruct (Z.leb_spec m a).
    + rewrite keeping_cons_drop by done.
      pose proof (ending_loop_limit m now a ss HN Ha) as Hlim.
      pose proof (live_count_nonneg now (keeping (ending_loop false m now a ss) ss)).
      split; [lia|]. apply elem_of_cons in Hid as [->|Hid].
      * exists s. split_and!; [left|done|done|]. assert (live_count now (keeping (ending_loop false m now a ss) ss) = 0) as Hz by lia.
        unfold live_count, zlen in Hz. rewrite Forall_forall. intros t Ht Hl.
        assert (filter (fun s => live now s = true) (keeping (ending_loop false m now a ss) ss) = []) as En
          by (apply nil_length_inv; lia).
        exfalso. eapply (not_elem_of_nil t). rewrite <- En. by apply list_elem_of_filter.
      * destruct (IH a HN Ha HS' Hid) as (_ & t & Ht & ? & ? & HFt). exists t. split_and!; [by right|done..].
    + rewrite keeping_cons_keep, live_count_cons, El by done.
      destruct (IH (a + 1) HN ltac:(lia) HS' Hid) as (E & t & Ht & ? & ? & HFt).
      split; [lia|]. exists t. split_and!; [by right|done|done|]. constructor; [|done].
      intros _. rewrite Forall_forall in HF. by apply HF.
  - rewrite keeping_cons_keep, live_count_cons, El by done.
    destruct (IH a HN Ha HS' Hid) as (E & t & Ht & ? & ? & HFt).
    split; [lia|]. exists t. split_and!; [by right|done|done|]. constructor; [|done]. congruence.
Qed.

(** ** The whole change *)

Definition grant_sessions (id : list byte) (ss : list SessionRecord) : list SessionRecord :=
  filter (fun s => s_grant_id s = id) ss.

Lemma cut_fields id e s :
  s_id (cut id e s) = s_id s /\ s_grant_id (cut id e s) = s_grant_id s /\
  s_resource_slot (cut id e s) = s_resource_slot s /\ s_issued_at (cut id e s) = s_issued_at s.
Proof. unfold cut. case_bool_decide; [|done]. by destruct e. Qed.

Lemma cut_other id e s : s_grant_id s <> id -> cut id e s = s.
Proof. intros. unfold cut. by rewrite bool_decide_false. Qed.

Lemma map_cut_key {B} (f : SessionRecord -> B) id e ss :
  (forall s, f (cut id e s) = f s) -> map f (map (cut id e) ss) = map f ss.
Proof. intros Hf. rewrite map_map. by apply map_ext. Qed.

Lemma slots_cut id e ss : session_slots (map (cut id e) ss) = session_slots ss.
Proof.
  induction ss as [|s ss IH]; [done|]. cbn [map]. rewrite !session_slots_cons, IH.
  by rewrite (proj1 (proj2 (proj2 (cut_fields id e s)))).
Qed.

Lemma change_grant_fields g c now :
  let '(g', _) := change_grant g c now in
  g_id g' = g_id g /\ g_secret_hash g' = g_secret_hash g /\ g_created_at g' = g_created_at g /\
  g_max_connections g' = default (g_max_connections g) (new_max_connections c) /\
  g_label g' = default (g_label g) (new_label c) /\
  g_paused g' = default (g_paused g) (new_paused c) /\
  g_protocols g' = default (g_protocols g) (new_protocols c) /\
  g_allowance g' = default (g_allowance g) (new_allowance c) /\
  g_expires_at g' = match new_expires_at c with Some t => Some t | None => g_expires_at g end.
Proof. unfold change_grant. destruct (new_allowance c) as [new|]; [case_bool_decide|]; cbn; auto 10. Qed.

(** What [apply] did, from its result. *)
Lemma apply_inv st id c now st' ended :
  apply st id c now = Ok (st', ended) ->
  exists i g g' end_all ending,
    grants st !! i = Some g /\ g_id g = id /\ change_grant g c now = (g', end_all) /\
    let ss := map (cut id (g_expires_at g')) (sessions st) in
    ending = ending_loop end_all (g_max_connections g') now 0 (sort_by_age (grant_sessions id ss)) /\
    st' = mkState (schema_version st) (<[i := g']> (grants st)) (keeping ending ss) /\
    Forall2 (fun s a => session_allocation s = Ok a) (filter (fun s => s_id s ∈ ending) ss) ended.
Proof.
  unfold apply. intros HA. destruct (list_find _ _) as [[i g]|] eqn:EF; [|done].
  apply list_find_Some in EF as (Hi & Hg & _). destruct (change_grant g c now) as [g' end_all] eqn:EC.
  destruct (collect _ _) as [al|] eqn:EL; [|done]. injection HA as <- <-.
  apply collect_ok_forall2 in EL. exists i, g, g', end_all. eexists.
  split; [exact Hi|]. split; [exact Hg|]. split; [exact EC|]. cbn zeta.
  split; [reflexivity|]. split; [reflexivity|exact EL].
Qed.

(** The sessions of other grants keep their place. *)
Lemma ending_only_of id ending e ss :
  NoDup (map s_id ss) -> ending ⊆ map s_id (grant_sessions id (map (cut id e) ss)) ->
  filter (fun s => s_grant_id s <> id) (keeping ending (map (cut id e) ss)) =
  filter (fun s => s_grant_id s <> id) ss.
Proof.
  intros HN HE. unfold keeping. rewrite list_filter_filter.
  transitivity (filter (fun s => s_grant_id s <> id) (map (cut id e) ss)).
  - apply filter_ext_elem. intros s Hs. split; [by intros [? _]|]. intros Hne. split; [done|].
    intros Hin%HE. apply elem_of_map in Hin as (t & Et & Ht). apply list_elem_of_filter in Ht as [Htg Ht].
    assert (s = t) as ->; [|done]. eapply (NoDup_key_inj s_id); [|done..].
    rewrite map_cut_key; [done|]. intros ?. apply cut_fields.
  - clear. induction ss as [|s ss IH]; [done|]. cbn [map]. rewrite !filter_cons, IH.
    destruct (cut_fields id e s) as (_ & Eg & _). destruct (decide (s_grant_id s <> id)) as [Hs|Hs].
    + rewrite decide_True by (by rewrite Eg). by rewrite cut_other.
    + rewrite decide_False; [done|]. by rewrite Eg.
Qed.

Lemma filter_keeping_comm id ending ss :
  grant_sessions id (keeping ending ss) = keeping ending (grant_sessions id ss).
Proof. unfold grant_sessions, keeping. rewrite !list_filter_filter. apply filter_ext_elem. naive_solver. Qed.

Section apply.
Context (st : PersistedState) (id : list byte) (c : UpdateAccessGrantRequest) (now : Z).
Context (st' : PersistedState) (ended : list SessionAllocation).
Context (HA : apply st id c now = Ok (st', ended)).
Context (HN : NoDup (map s_id (sessions st))).

Lemma apply_other_sessions :
  filter (fun s => s_grant_id s <> id) (sessions st') = filter (fun s => s_grant_id s <> id) (sessions st).
Proof.
  destruct (apply_inv _ _ _ _ _ _ HA) as (i & g & g' & ea & ending & _ & _ & _ & Hen & -> & _). cbn.
  apply ending_only_of; [done|]. rewrite Hen, ending_loop_subset, sort_by_age_perm. done.
Qed.

Lemma sorted_ids e :
  NoDup (map s_id (sort_by_age (grant_sessions id (map (cut id e) (sessions st))))).
Proof.
  rewrite sort_by_age_perm. eapply sublist_NoDup_map; [apply sublist_filter|].
  rewrite map_cut_key; [done|]. intros ?. apply cut_fields.
Qed.

(** Afterwards the grant's live sessions are within its device limit. *)
Lemma apply_limit g' :
  g' ∈ grants st' -> g_id g' = id -> NoDup (map g_id (grants st)) -> 0 <= g_max_connections g' ->
  live_count now (grant_sessions id (sessions st')) <= g_max_connections g'.
Proof.
  intros Hg' Hid HG Hm.
  destruct (apply_inv _ _ _ _ _ _ HA) as (i & g & g2 & ea & ending & Hi & Hgid & HC & Hen & -> & _).
  cbn [sessions grants] in *.
  assert (g' = g2) as ->.
  { pose proof (change_grant_fields g c now) as HF. rewrite HC in HF. destruct HF as [Hid2 _].
    eapply (NoDup_key_inj g_id); [|exact Hg'| |congruence].
    - rewrite list_fmap_insert, Hid2. rewrite list_insert_id; [done|]. by rewrite list_lookup_fmap, Hi.
    - eapply list_elem_of_lookup_2, list_lookup_insert_eq. by eapply lookup_lt_Some. }
  rewrite filter_keeping_comm.
  rewrite <- (live_count_perm now (keeping ending (sort_by_age _)) (keeping ending _)
    (filter_Permutation _ _ _ (sort_by_age_perm _))).
  destruct ea.
  - by rewrite Hen, ending_loop_all, keeping_all.
  - rewrite Hen. pose proof (ending_loop_limit (g_max_connections g2) now 0 _ (sorted_ids (g_expires_at g2)) Hm). lia.
Qed.

(** A session the changed grant no longer admits as it is ends. *)
Lemma apply_end_all g :
  find_grant st id = Some g -> (change_grant g c now).2 = true -> grant_sessions id (sessions st') = [].
Proof.
  intros Hg Hea. unfold find_grant in Hg. unfold apply in HA.
  destruct (list_find _ _) as [[i g2]|] eqn:EF; [|done]. injection Hg as ->.
  destruct (change_grant g c now) as [g' ea]. cbn in Hea. subst ea.
  destruct (collect _ _) as [al|] eqn:EL; [|done]. injection HA as <- _. cbn [sessions].
  rewrite ending_loop_all. change (grant_sessions id (keeping (map s_id (sort_by_age
    (grant_sessions id (map (cut id (g_expires_at g')) (sessions st))))) (map (cut id (g_expires_at g')) (sessions st))) = []).
  rewrite filter_keeping_comm. rewrite <- (keeping_all (grant_sessions id (map (cut id (g_expires_at g')) (sessions st)))).
  apply filter_ext_elem. intros s Hs. by rewrite sort_by_age_perm.
Qed.
End apply.

(** The values of a change have been checked. *)
Definition changes_valid (now : Z) (c : UpdateAccessGrantRequest) : Prop :=
  (forall l, new_label c = Some l -> valid_text l MAX_LABEL_LENGTH = true) /\
  (forall m, new_max_connections c = Some m -> 1 <= m) /\
  (forall e, new_expires_at c = Some e -> now < e) /\
  (forall p, new_protocols c = Some p -> access_is_valid p = true) /\
  (forall a, new_allowance c = Some (Some a) -> allowance_is_valid a = true).

(** Clock readings of the past. *)
Definition issued_by (now : Z) (st : PersistedState) : Prop :=
  Forall (fun g => g_created_at g <= now) (grants st) /\ Forall (fun s => s_issued_at s <= now) (sessions st).

(** Usage is counted only against an allowance. *)
Definition counts_without_allowance (g : AccessGrantRecord) : bool :=
  (bool_decide (is_Some (g_usage g)) || bool_decide (is_Some (g_allowance_since g)))
  && bool_decide (g_allowance g = None).

Lemma change_grant_usage g c now :
  counts_without_allowance g = false -> counts_without_allowance (change_grant g c now).1 = false.
Proof.
  unfold counts_without_allowance, change_grant. intros Hold.
  assert (g_allowance g = None -> g_usage g = None /\ g_allowance_since g = None) as Hnone.
  { intros Hg. rewrite Hg, (bool_decide_true (None = None)), andb_true_r in Hold by done.
    apply orb_false_iff in Hold as [Hu Hs]. by destruct (g_usage g), (g_allowance_since g). }
  clear Hold. apply andb_false_iff.
  destruct (new_allowance c) as [[a|]|]; [|destruct (bool_decide (_ <$> _ = _ <$> _)) eqn:Hper|]; cbn.
  - destruct (bool_decide (Some (period a) = _)); right; by apply bool_decide_false.
  - destruct (g_allowance g); [done|]. destruct Hnone as [-> ->]; [done|]. left. by destruct (reset_usage c).
  - left. by destruct (reset_usage c).
  - destruct (g_allowance g); [right; by apply bool_decide_false|]. destruct Hnone as [-> ->]; [done|]. left. by destruct (reset_usage c).
Qed.

Section apply_wf.
Context `{SecretHashing}.

Lemma change_grant_wf g c now :
  grant_wf g -> changes_valid now c -> g_created_at g <= now -> grant_wf (change_grant g c now).1.
Proof.
  intros [Hid Hv] (HL & HM & HE & HP & HAl) Hc.
  pose proof (change_grant_fields g c now) as HF. destruct (change_grant g c now) as [g' ea] eqn:EC.
  destruct HF as (E1 & E2 & E3 & E4 & E5 & E6 & E7 & E8 & E9). cbn [fst].
  split; [by rewrite E1|]. unfold validate_grant in *. rewrite E2.
  destruct (valid_text (g_secret_hash g) _); [|done]. destruct (is_supported_secret_hash _); [|done].
  destruct (valid_text (g_label g) _) eqn:El; [|done]. destruct (g_max_connections g =? 0) eqn:Em; [done|].
  destruct (access_is_valid (g_protocols g)) eqn:Ep; [|done]. cbn [negb] in Hv.
  assert (valid_text (g_label g') MAX_LABEL_LENGTH = true) as ->
    by (rewrite E5; destruct (new_label c); cbn; auto).
  assert (g_max_connections g' =? 0 = false) as ->.
  { rewrite E4. destruct (new_max_connections c) as [m|]; cbn; [|done]. specialize (HM m eq_refl). lia. }
  assert (access_is_valid (g_protocols g') = true) as -> by (rewrite E7; destruct (new_protocols c); cbn; auto).
  assert (match g_allowance g' with Some a => allowance_is_valid a | None => true end = true) as ->.
  { rewrite E8. destruct (new_allowance c) as [[a|]|]; cbn; [by apply HAl|done|].
    destruct (g_allowance g); [by destruct (allowance_is_valid _)|done]. }
  fold (counts_without_allowance g'). fold (counts_without_allowance g) in Hv.
  assert (counts_without_allowance g' = false) as ->.
  { assert (counts_without_allowance g = false) as Hold.
    { unfold counts_without_allowance in *. destruct (g_allowance g); [by rewrite andb_false_r|]. cbn in Hv.
      by destruct (bool_decide (is_Some (g_usage g))), (bool_decide (is_Some (g_allowance_since g))). }
    replace g' with (change_grant g c now).1 by (by rewrite EC). by apply change_grant_usage. }
  cbn [negb]. rewrite E9, E3. destruct (new_expires_at c) as [e|].
  - specialize (HE e eq_refl). replace (e <=? g_created_at g) with false by lia. done.
  - repeat break_hyp Hv; done.
Qed.

(** A session of a valid state, cut to its grant's new end, is valid. *)
Lemma cut_session_wf g c now s :
  validate_session (g_expires_at g) s = Ok tt -> changes_valid now c -> s_issued_at s <= now ->
  let g' := (change_grant g c now).1 in
  s_grant_id s = g_id g -> validate_session (g_expires_at g') (cut (g_id g) (g_expires_at g') s) = Ok tt.
Proof.
  intros Hv (_ & _ & HE & _) Hi g' Hg.
  assert (g_expires_at g' = match new_expires_at c with Some t => Some t | None => g_expires_at g end) as ->.
  { pose proof (change_grant_fields g c now) as HF. unfold g'. destruct (change_grant g c now). apply HF. }
  unfold cut. rewrite bool_decide_true by done.
  assert (forall e, g_expires_at g = Some e -> new_expires_at c = None -> s_expires_at s <= e) as Hold.
  { intros e He _. unfold validate_session in Hv. rewrite He in Hv. repeat break_hyp Hv; bool_prop; lia. }
  assert (forall t, validate_control_hash (set_expires_at s t) = validate_control_hash s) as EH' by done.
  unfold validate_session in *.
  destruct (validate_control_hash s) as [[]|] eqn:EH; [|done].
  destruct (valid_text (s_client_name s) _) eqn:EV; [|done].
  destruct (Z.leb_spec (s_expires_at s) (s_issued_at s)); [done|].
  destruct (new_expires_at c) as [e|]; cbn; [|destruct (g_expires_at g) as [e|]; cbn].
  - specialize (HE e eq_refl). rewrite EH', EV, (proj2 (Z.leb_gt _ _)), (proj2 (Z.ltb_ge _ _)) by lia. done.
  - specialize (Hold e eq_refl eq_refl). rewrite EH', EV, (proj2 (Z.leb_gt _ _)), (proj2 (Z.ltb_ge _ _)) by lia. done.
  - rewrite EH, EV, (proj2 (Z.leb_gt _ _)) by lia. done.
Qed.

(** Checked changes keep the state well formed. *)
Lemma apply_wf st id c now st' ended :
  state_wf st -> changes_valid now c -> issued_by now st ->
  apply st id c now = Ok (st', ended) -> state_wf st'.
Proof.
  intros Hwf HC [HIg HIs] HA.
  destruct (apply_inv _ _ _ _ _ _ HA) as (i & g & g' & ea & ending & Hi & <- & EC & _ & -> & _).
  assert (g ∈ grants st) as Hg by by eapply list_elem_of_lookup_2.
  assert (g_id g' = g_id g) as Hid
    by (pose proof (change_grant_fields g c now) as HF; rewrite EC in HF; apply HF).
  assert (g' = (change_grant g c now).1) as Eg' by (by rewrite EC).
  assert (map g_id (<[i := g']> (grants st)) = map g_id (grants st)) as Eids.
  { rewrite list_fmap_insert, Hid, list_insert_id; [done|]. by rewrite list_lookup_fmap, Hi. }
  assert (keeping ending (map (cut (g_id g) (g_expires_at g')) (sessions st)) `sublist_of`
          map (cut (g_id g) (g_expires_at g')) (sessions st)) as Hsub by apply sublist_filter.
  constructor; cbn [grants sessions].
  - apply Forall_insert; [apply wf_grants, Hwf|]. rewrite Eg'. apply change_grant_wf; [|done|].
    + pose proof (wf_grants _ Hwf) as HF. rewrite Forall_forall in HF. by apply HF.
    + rewrite Forall_forall in HIg. by apply HIg.
  - rewrite Eids. apply Hwf.
  - eapply sublist_Forall; [exact Hsub|]. apply Forall_fmap. rewrite Forall_forall in *. intros s Hs.
    pose proof (wf_sessions _ Hwf) as HF. rewrite Forall_forall in HF.
    destruct (HF s Hs) as (Hsid & gs & Hgs & Egs & Hv).
    destruct (cut_fields (g_id g) (g_expires_at g') s) as (E1 & E2 & _). unfold compose, session_wf.
    rewrite E1, E2. split; [done|]. cbn [grants]. destruct (decide (s_grant_id s = g_id g)) as [Esg|Esg].
    + exists g'. split_and!; [|congruence|].
      * eapply list_elem_of_lookup_2, list_lookup_insert_eq. by eapply lookup_lt_Some.
      * assert (gs = g) as -> by (eapply (NoDup_key_inj g_id); [apply Hwf|done|done|congruence]).
        rewrite Eg'. by apply cut_session_wf; [..|apply HIs|].
    + exists gs. split_and!; [|done|by rewrite cut_other].
      apply list_elem_of_lookup in Hgs as [k Hk]. apply list_elem_of_lookup. exists k.
      rewrite list_lookup_insert_ne; [done|]. intros ->. congruence.
  - eapply sublist_NoDup_map; [exact Hsub|]. rewrite map_cut_key; [apply Hwf|]. intros ?. apply cut_fields.
  - eapply sublist_NoDup_omap; [exact Hsub|]. fold (session_slots (map (cut (g_id g) (g_expires_at g')) (sessions st))).
    rewrite slots_cut. apply Hwf.
Qed.
End apply_wf.

Lemma session_allocation_some s n : s_resource_slot s = Some n -> session_allocation s = Ok (mkAllocation (s_id s) n).
Proof. intros E. unfold session_allocation, required_resource_slot. by rewrite E. Qed.

Lemma collect_allocations ss :
  Forall (fun s => is_Some (s_resource_slot s)) ss -> exists al, collect session_allocation ss = Ok al.
Proof.
  intros HF. apply collect_total. intros s Hs. rewrite Forall_forall in HF. destruct (HF s Hs) as [n Hn].
  rewrite (session_allocation_some _ _ Hn). eauto.
Qed.

(** With every slot assigned, [apply] fails only for an unknown grant. *)
Lemma apply_total st id c now :
  Forall (fun s => is_Some (s_resource_slot s)) (sessions st) ->
  apply st id c now = Err NotFound /\ find_grant st id = None \/
  exists st' ended g, apply st id c now = Ok (st', ended) /\ find_grant st id = Some g.
Proof.
  intros HF. unfold apply, find_grant. destruct (list_find _ _) as [[i g]|]; [right|by left].
  destruct (change_grant g c now) as [g' ea].
  match goal with |- context [collect session_allocation ?l] =>
    destruct (collect_allocations l) as [al ->]; [|by eauto] end.
  eapply sublist_Forall; [apply sublist_filter|]. apply Forall_fmap. eapply Forall_impl; [exact HF|].
  intros s. cbn. by rewrite (proj1 (proj2 (proj2 (cut_fields id (g_expires_at g') s)))).
Qed.
