(* ===== verification/Service.v ===== *)
(** Model of crates/ket-server/src/service.rs: the access service of a node.

    The service is a record of its mutable parts; an operation is a function
    in the state-and-error monad [M].  Readings of the clock, random draws, the
    answers of the operating system to a store and the outcome of the bounded
    worker pool are arguments.  Operations that release the lock between
    looking a record up and committing are split at that point: the second
    part takes the records looked up as arguments, so any other operation may
    run in between. *)

From Stdlib Require Import ZArith Lia.
From stdpp Require Import strings.
From S2P Require Import Prelude Order Utf8 Allowance Grant Model Activity Meter GrantAdmin.

(** The node's limits, [session_ttl] in seconds and [max_sessions], a [u32]. *)
Class NodeConfig := {
  session_ttl : Z;
  max_sessions : Z;
  session_ttl_range : 0 <= session_ttl <= u64_max;
  max_sessions_range : 0 <= max_sessions <= u32_max;
}.

Record Service := mkService {
  state : PersistedState;
  disk : Disk;
  activity : ActivityLog;
  usage_stored_at : Z;
  crypto_overloads : Z;
}.

(** What the bounded crypto pool answers: it runs the work, it is full, or its
    worker fails. *)
Inductive CryptoPool := PoolRuns | PoolFull | PoolWorkerFails.

Definition USAGE_STORE_INTERVAL_SECONDS : Z := 60.
Definition EXPIRED_GRANT_RETENTION_SECONDS : Z := 7 * 24 * 60 * 60.

(** * The monad *)

Definition M (A : Type) : Type := Service -> Service * result ServiceError A.

Definition ret {A} (a : A) : M A := fun sv => (sv, Ok a).
Definition fail {A} (e : ServiceError) : M A := fun sv => (sv, Err e).
Definition lift {A} (r : result ServiceError A) : M A := fun sv => (sv, r).
Definition bind {A B} (m : M A) (k : A -> M B) : M B :=
  fun sv => match m sv with (sv, Ok a) => k a sv | (sv, Err e) => (sv, Err e) end.
Definition locked : M PersistedState := fun sv => (sv, Ok (state sv)).

Notation "'do' x '<-' m 'in' k" := (bind m (fun x => k))
  (at level 200, x pattern, m at level 100, k at level 200) : ket_scope.
Notation "'check' c 'else' e 'in' k" := (if c then k else fail e)
  (at level 200, c at level 100, e at level 100, k at level 200) : ket_scope.

(** [count() as u32]. *)
Definition as_u32 (n : Z) : Z := n mod (u32_max + 1).

(** * Helpers *)

(** [validate_text], [validate_protocols] and [validate_allowance]. *)
Definition validate_text (value : list byte) (field : string) (maximum : Z) : result ServiceError (list byte) :=
  let value := trim value in
  if bool_decide (value = []) || (maximum <? zlen value) || any_control value
  then Err (InvalidInput (str field ++ str " must contain between 1 and " ++ show_u64 maximum
                          ++ str " printable characters"))
  else Ok value.
Definition validate_protocols (p : ProtocolAccess) : result ServiceError unit :=
  if access_is_valid p then Ok tt
  else Err (InvalidInput (str "protocols must name at least one protocol")).
Definition validate_allowance (a : option DataAllowance) : result ServiceError unit :=
  if match a with Some a => allowance_is_valid a | None => true end then Ok tt
  else Err (InvalidInput (str "allowance bytes must be between " ++ show_u64 MIN_ALLOWANCE_BYTES
                          ++ str " and " ++ show_u64 MAX_ALLOWANCE_BYTES)).

(** [admits]. *)
Definition admits (s : SessionRecord) (g : AccessGrantRecord) (now : Z) : bool :=
  (now <? s_expires_at s) && negb (g_paused g)
  && match g_expires_at g with Some e => now <? e | None => true end
  && bool_decide (used_up_until g now = None).

(** [take_expired_sessions]: the sessions removed and the state left. *)
Definition take_expired_sessions (st : PersistedState) (now : Z) : list SessionRecord * PersistedState :=
  (filter (fun s => s_expires_at s <=? now = true) (sessions st),
   with_sessions st (filter (fun s => s_expires_at s <=? now = false) (sessions st))).

(** [forget_stale_grants]. *)
Definition stale (now : Z) (g : AccessGrantRecord) : bool :=
  match g_expires_at g with
  | Some e => EXPIRED_GRANT_RETENTION_SECONDS <=? sat_sub64 now e
  | None => false
  end.
Definition forget_stale_grants (st : PersistedState) (now : Z) : PersistedState * bool :=
  let forgotten := map g_id (filter (fun g => stale now g = true) (grants st)) in
  let st' := mkState (schema_version st) (filter (fun g => stale now g = false) (grants st))
               (filter (fun s => s_grant_id s ∉ forgotten) (sessions st)) in
  (st', negb (zlen (grants st') =? zlen (grants st))).

(** [(slot..max).find(|slot| !used.contains(slot))]: one more step than there
    are used slots is enough. *)
Fixpoint first_free (fuel : nat) (slot max : Z) (used : list Z) : option Z :=
  match fuel with
  | O => None
  | S fuel =>
    if max <=? slot then None
    else if bool_decide (slot ∈ used) then first_free fuel (slot + 1) max used else Some slot
  end.
Definition free_slot (max : Z) (used : list Z) : option Z := first_free (S (length used)) 0 max used.

(** [enrollment_refusal]. *)
Definition enrollment_refusal (e : ServiceError) : option GrantActivityEvent :=
  match e with
  | Unauthorized => Some RefusedWrongCode
  | GrantExpired => Some RefusedExpired
  | GrantPaused => Some RefusedPaused
  | AllowanceUsed _ => Some RefusedAllowanceUsed
  | GrantCapacity => Some RefusedDeviceLimit
  | NodeCapacity => Some RefusedServerFull
  | _ => None
  end.

(** [grant_summary]. *)
Definition grant_summary (st : PersistedState) (g : AccessGrantRecord) (now : Z) : AccessGrantSummary :=
  Build_AccessGrantSummary (g_id g) (g_label g) (g_max_connections g)
    (as_u32 (live_count now (grant_sessions (g_id g) (sessions st))))
    (g_expires_at g) (g_created_at g) (g_paused g) (g_protocols g) (status g now).

Record CreatedSession := mkCreated {
  cs_token : list byte;
  cs_data_plane_token : list byte;
  cs_id : list byte;
  cs_grant_id : list byte;
  cs_resource_slot : Z;
  cs_expired_allocations : list SessionAllocation;
  cs_client_name : list byte;
  cs_expires_at : Z;
  cs_access_expires_at : option Z;
  cs_protocols : ProtocolAccess;
  cs_allowance : option AllowanceStatus;
}.

Record SessionView := mkView {
  sv_id : list byte;
  sv_grant_id : list byte;
  sv_resource_slot : Z;
  sv_client_name : list byte;
  sv_expires_at : Z;
  sv_access_expires_at : option Z;
  sv_protocols : ProtocolAccess;
  sv_allowance : option AllowanceStatus;
}.

Definition session_view (s : SessionRecord) (g : AccessGrantRecord) (slot expires_at now : Z) : SessionView :=
  mkView (s_id s) (g_id g) slot (s_client_name s) expires_at (g_expires_at g) (g_protocols g) (status g now).

Record GrantDevice := mkDevice {
  gd_allocation : SessionAllocation;
  gd_client_name : list byte;
  connected_at : Z;
  session_expires_at : Z;
}.

(** [sort_by_key] on the time of connection, stable. *)
Definition sort_devices (l : list GrantDevice) : list GrantDevice := sort_by_key connected_at l.

(** * Loading *)

(** [prepare_resource_slots]. *)
Fixpoint check_slots (max : Z) (used : list Z) (ss : list SessionRecord) : result ServiceError (list Z) :=
  match ss with
  | [] => Ok used
  | s :: ss =>
    match s_resource_slot s with
    | None => check_slots max used ss
    | Some slot =>
      require negb (max <=? slot) else InvalidState (str "a session resource slot exceeds node capacity") in
      require bool_decide (slot ∉ used) else InvalidState (str "session resource slots are duplicated") in
      check_slots max (slot :: used) ss
    end
  end.
Fixpoint assign_slots (max : Z) (used : list Z) (ss : list SessionRecord)
    : result ServiceError (list SessionRecord * bool) :=
  match ss with
  | [] => Ok ([], false)
  | s :: ss =>
    match s_resource_slot s with
    | Some _ => let* (ss, changed) := assign_slots max used ss in Ok (s :: ss, changed)
    | None =>
      let* slot := ok_or (free_slot max used) (InvalidState (str "active sessions exceed node resource slots")) in
      let* (ss, _) := assign_slots max (slot :: used) ss in
      Ok (set_resource_slot s slot :: ss, true)
    end
  end.
Definition prepare_resource_slots (st : PersistedState) (max now : Z) : result ServiceError (PersistedState * bool) :=
  let ss := filter (fun s => live now s = true) (sessions st) in
  let changed := negb (zlen ss =? zlen (sessions st)) in
  let* used := check_slots max [] ss in
  let* (ss, assigned) := assign_slots max used ss in
  Ok (with_sessions st ss, changed || assigned).

Section service.
Context `{SecretHashing, StateJson, NodeConfig}.

(** [repository.store(&next).await?; *state = next]. *)
Definition store (next : PersistedState) (io : Io) : M unit := fun sv =>
  let '(d, r) := store_file (disk sv) next io in
  (mkService (state sv) d (activity sv) (usage_stored_at sv) (crypto_overloads sv), map_err Persistence r).
Definition set_state (next : PersistedState) : M unit := fun sv =>
  (mkService next (disk sv) (activity sv) (usage_stored_at sv) (crypto_overloads sv), Ok tt).
Definition commit (next : PersistedState) (io : Io) : M unit :=
  do _ <- store next io in set_state next.
Definition set_usage_stored_at (t : Z) : M unit := fun sv =>
  (mkService (state sv) (disk sv) (activity sv) t (crypto_overloads sv), Ok tt).

(** [AccessService::load]. *)
Definition load (d : Disk) (lio : LoadIo) (sio : Io) (now : Z) : result ServiceError Service :=
  let* st := map_err Persistence (load_file d lio) in
  let* (st, changed) := prepare_resource_slots st max_sessions now in
  if changed then
    let '(d, r) := store_file d st sio in
    let* _ := map_err Persistence r in
    Ok (mkService st d ∅ now 0)
  else Ok (mkService st d ∅ now 0).

(** [note], [note_ended] and [forget_missing_activity]; the lock of the log is
    never poisoned, since no code panics while holding it. *)
Definition note (grant_id : list byte) (a : Activity) (now : Z) : M unit := fun sv =>
  match find_grant (state sv) grant_id with
  | None => (sv, Ok tt)
  | Some _ =>
    (mkService (state sv) (disk sv) (record (activity sv) grant_id a now) (usage_stored_at sv) (crypto_overloads sv), Ok tt)
  end.
Fixpoint note_ended (ss : list SessionRecord) (event : GrantActivityEvent) (now : Z) : M unit :=
  match ss with
  | [] => ret tt
  | s :: ss =>
    do _ <- note (s_grant_id s) (activity_session event (s_id s) (s_client_name s)) now in
    note_ended ss event now
  end.
Definition forget_missing_activity : M unit := fun sv =>
  (mkService (state sv) (disk sv)
     (retain (activity sv) (fun id => bool_decide (is_Some (find_grant (state sv) id))))
     (usage_stored_at sv) (crypto_overloads sv), Ok tt).

(** [admit_crypto] with [hash] and [verify]. *)
Definition run_crypto {A} (pool : CryptoPool) (work : result ServiceError A) : M A := fun sv =>
  match pool with
  | PoolFull => (mkService (state sv) (disk sv) (activity sv) (usage_stored_at sv) ((crypto_overloads sv + 1) mod 2 ^ 64), Err Busy)
  | PoolWorkerFails => (sv, Err CryptoWorker)
  | PoolRuns => (sv, work)
  end.
Definition hash (pool : CryptoPool) (salt secret : list byte) : M (list byte) :=
  run_crypto pool (map_err (fun _ => Crypto) (hash_secret salt secret)).
Definition verify (pool : CryptoPool) (secret h : list byte) : M bool :=
  run_crypto pool (Ok (verify_secret secret h)).

(** * Grants *)

Definition connections_error : ServiceError :=
  InvalidInput (str "max_connections must be between 1 and " ++ show_u64 max_sessions).

(** [create_grant]. *)
Definition create_grant (request : CreateAccessGrantRequest) (now : Z) (code salt : list byte)
    (pool : CryptoPool) (io : Io) : M CreateAccessGrantResponse :=
  do label <- lift (validate_text (create_label request) "label" MAX_LABEL_LENGTH) in
  check negb ((create_max_connections request =? 0) || (max_sessions <? create_max_connections request))
    else connections_error in
  check negb ((create_valid_for_minutes request =? 0)
              || (MAX_ACCESS_GRANT_VALIDITY_MINUTES <? create_valid_for_minutes request))
    else InvalidInput (str "valid_for_minutes must be between 1 and " ++ show_u64 MAX_ACCESS_GRANT_VALIDITY_MINUTES) in
  do _ <- lift (validate_protocols (create_protocols request)) in
  do _ <- lift (validate_allowance (create_allowance request)) in
  let expires_at := sat_add64 now (create_valid_for_minutes request * 60) in
  do parts <- lift (map_err (fun _ => Crypto) (split_access_code code)) in
  do secret_hash <- hash pool salt (part_secret parts) in
  let record := mkGrant (part_id parts) secret_hash label (create_max_connections request) (Some expires_at) now
                  false (create_protocols request) (create_allowance request)
                  ((fun _ => now) <$> create_allowance request) None in
  do st <- locked in
  check bool_decide (find_grant st (part_id parts) = None) else Crypto in
  do _ <- commit (with_grants st (grants st ++ [record])) io in
  ret (Build_CreateAccessGrantResponse (part_id parts) code label (create_max_connections request)
         (create_valid_for_minutes request) expires_at now (create_protocols request) (create_allowance request)).

(** One grant's inputs from the clock, the generators and the system. *)
Record GrantDraw := mkDraw { d_now : Z; d_code : list byte; d_salt : list byte; d_pool : CryptoPool; d_io : Io }.

(** [create_grant_batch]: the loop stops at the first error. *)
Fixpoint create_grants (request : CreateAccessGrantBatchRequest) (label_prefix : list byte)
    (index : Z) (draws : list GrantDraw) : M (list CreateAccessGrantResponse) :=
  match draws with
  | [] => ret []
  | d :: draws =>
    do g <- create_grant
        (Build_CreateAccessGrantRequest (label_prefix ++ str "-" ++ show_u64 index) (batch_max_connections request)
           (batch_valid_for_minutes request) (batch_protocols request) (batch_allowance request))
        (d_now d) (d_code d) (d_salt d) (d_pool d) (d_io d) in
    do gs <- create_grants request label_prefix (index + 1) draws in
    ret (g :: gs)
  end.
Definition create_grant_batch (request : CreateAccessGrantBatchRequest) (draws : list GrantDraw)
    : M (list CreateAccessGrantResponse) :=
  check negb ((batch_count request =? 0) || (100 <? batch_count request))
    else InvalidInput (str "count must be between 1 and 100") in
  do label_prefix <- lift (validate_text (batch_label_prefix request) "label_prefix" MAX_LABEL_LENGTH) in
  create_grants request label_prefix 1 (take (Z.to_nat (batch_count request)) draws).

(** [list_grants] and [grant_details]. *)
Definition list_grants (st : PersistedState) (now : Z) : list AccessGrantSummary :=
  map (fun g => grant_summary st g now) (grants st).
Definition grant_device (s : SessionRecord) : result ServiceError GrantDevice :=
  let* a := session_allocation s in
  Ok (mkDevice a (s_client_name s) (s_issued_at s) (s_expires_at s)).
Definition grant_details (st : PersistedState) (id : list byte) (now : Z)
    : result ServiceError (AccessGrantSummary * list GrantDevice) :=
  let* g := ok_or (find_grant st id) NotFound in
  let* devices := collect grant_device
    (filter (fun s => s_grant_id s = id /\ live now s = true) (sessions st)) in
  Ok (grant_summary st g now, sort_devices devices).

(** [update_grant]. *)
Definition with_new_label (c : UpdateAccessGrantRequest) (label : option (list byte)) : UpdateAccessGrantRequest :=
  mkUpdate label (new_max_connections c) (new_expires_at c) (new_paused c) (new_protocols c)
    (new_allowance c) (reset_usage c).
Definition check_changes (c : UpdateAccessGrantRequest) (now : Z) : result ServiceError UpdateAccessGrantRequest :=
  require negb (update_is_empty c) else InvalidInput (str "the request changes nothing") in
  let* c :=
    match new_label c with
    | Some label => let* label := validate_text label "label" MAX_LABEL_LENGTH in Ok (with_new_label c (Some label))
    | None => Ok c
    end in
  require (match new_max_connections c with Some d => negb ((d =? 0) || (max_sessions <? d)) | None => true end)
    else connections_error in
  let latest_end := sat_add64 now (MAX_ACCESS_GRANT_VALIDITY_MINUTES * 60) in
  require (match new_expires_at c with Some e => negb ((e <=? now) || (latest_end <? e)) | None => true end)
    else InvalidInput (str "expires_at_epoch_seconds must be in the future and at most 365 days away") in
  let* _ := match new_protocols c with Some p => validate_protocols p | None => Ok tt end in
  let* _ := match new_allowance c with Some a => validate_allowance a | None => Ok tt end in
  Ok c.
Definition update_grant (id : list byte) (changes : UpdateAccessGrantRequest) (now : Z) (io : Io) (note_now : Z)
    : M (AccessGrantSummary * list SessionAllocation) :=
  do changes <- lift (check_changes changes now) in
  do st <- locked in
  do (next, ended) <- lift (apply st id changes now) in
  do _ <- store next io in
  let ended_sessions := filter (fun s => s_id s ∈ map al_id ended) (sessions st) in
  do _ <- set_state next in
  do _ <- note_ended ended_sessions EndedByChange note_now in
  do g <- lift (ok_or (find_grant next id) NotFound) in
  ret (grant_summary next g now, ended).

(** [revoke_grant]. *)
Definition revoke_grant (id : list byte) (io : Io) : M (list SessionAllocation) :=
  do st <- locked in
  check bool_decide (is_Some (find_grant st id)) else NotFound in
  do revoked <- lift (collect session_allocation (filter (fun s => s_grant_id s = id) (sessions st))) in
  let next := mkState (schema_version st) (filter (fun g => g_id g <> id) (grants st))
                (filter (fun s => s_grant_id s <> id) (sessions st)) in
  do _ <- commit next io in
  do _ <- forget_missing_activity in
  ret revoked.

(** * Sessions *)

(** The bound of a new lease: the node's, and the grant's end. *)
Definition lease_end (g : AccessGrantRecord) (now : Z) : Z :=
  let expires_at := sat_add64 now session_ttl in
  match g_expires_at g with Some e => Z.min expires_at e | None => expires_at end.

(** [admit_session], from the grant looked up by [create_session]; [token] and
    [random] are what the generators draw. *)
Definition admit_session (grant : AccessGrantRecord) (secret client_name : list byte) (now : Z)
    (token random : list byte) (pool : CryptoPool) (io : Io) (note_now : Z) : M CreatedSession :=
  do ok <- verify pool secret (g_secret_hash grant) in
  check ok else Unauthorized in
  check negb (g_paused grant) else GrantPaused in
  do _ <- lift (match used_up_until grant now with Some t => Err (AllowanceUsed t) | None => Ok tt end) in
  do token_parts <- lift (map_err (fun _ => Crypto) (split_session_token token)) in
  let control_secret_hash := hash_token_secret (part_secret token_parts) in
  do data_plane_token <- lift (map_err (fun _ => Crypto) (generate_scoped_token (part_id token_parts) random)) in
  do data_plane_parts <- lift (map_err (fun _ => Crypto) (split_session_token data_plane_token)) in
  let data_plane_secret_hash := hash_token_secret (part_secret data_plane_parts) in
  do st <- locked in
  let '(expired, next) := take_expired_sessions st now in
  do expired_allocations <- lift (collect session_allocation expired) in
  do g <- lift (ok_or (find_grant next (g_id grant)) Unauthorized) in
  check (match g_expires_at g with Some e => negb (e <=? now) | None => true end) else GrantExpired in
  check negb (g_paused g) else GrantPaused in
  do _ <- lift (match used_up_until g now with Some t => Err (AllowanceUsed t) | None => Ok tt end) in
  let active_for_grant := as_u32 (live_count now (grant_sessions (g_id g) (sessions next))) in
  check negb (g_max_connections g <=? active_for_grant) else GrantCapacity in
  let active_sessions := as_u32 (live_count now (sessions next)) in
  check negb (max_sessions <=? active_sessions) else NodeCapacity in
  do resource_slot <- lift (ok_or (free_slot max_sessions (session_slots (sessions next))) NodeCapacity) in
  let expires_at := lease_end g now in
  let session := mkSession (part_id token_parts) (g_id g) None (Some control_secret_hash)
                   (Some data_plane_secret_hash) (Some resource_slot) client_name now expires_at in
  check negb (existsb (fun s => bool_decide (s_id s = s_id session)) (sessions next)) else Crypto in
  do _ <- commit (with_sessions next (sessions next ++ [session])) io in
  do _ <- note_ended expired LeaseEnded note_now in
  ret (mkCreated token data_plane_token (part_id token_parts) (g_id g) resource_slot expired_allocations
         client_name expires_at (g_expires_at g) (g_protocols g) (status g now)).

(** The refusal [create_session] records. *)
Definition note_refusal {A} (id client_name : list byte) (now : Z) (m : M A) : M A := fun sv =>
  match m sv with
  | (sv, Err e) =>
    match enrollment_refusal e with
    | Some event => (fst (note id (activity_enrollment event client_name) now sv), Err e)
    | None => (sv, Err e)
    end
  | r => r
  end.

(** [create_session], up to the lookup, and whole. *)
Definition enrollment (st : PersistedState) (access_code client_name : list byte)
    : result ServiceError (AccessGrantRecord * list byte * list byte) :=
  let* client_name := validate_text client_name "client_name" MAX_CLIENT_NAME_LENGTH in
  let* code := map_err (fun _ => Unauthorized) (split_access_code access_code) in
  let* grant := ok_or (find_grant st (part_id code)) Unauthorized in
  Ok (grant, part_secret code, client_name).
Definition create_session (access_code client_name : list byte) (now : Z) (token random : list byte)
    (pool : CryptoPool) (io : Io) (note_now : Z) : M CreatedSession :=
  do st <- locked in
  do (grant, secret, client_name) <- lift (enrollment st access_code client_name) in
  note_refusal (g_id grant) client_name note_now
    (admit_session grant secret client_name now token random pool io note_now).

(** [authenticate]: the lookup, then the check of the records found. *)
Definition lookup_session (st : PersistedState) (id : list byte)
    : result ServiceError (SessionRecord * AccessGrantRecord) :=
  let* s := ok_or (find_session st id) Unauthorized in
  let* g := ok_or (find_grant st (s_grant_id s)) Unauthorized in
  Ok (s, g).
Definition authenticate (token : list byte) (pool : CryptoPool) (now : Z) : M (SessionRecord * AccessGrantRecord) :=
  do parts <- lift (map_err (fun _ => Unauthorized) (split_session_token token)) in
  do st <- locked in
  do (s, g) <- lift (lookup_session st (part_id parts)) in
  do authorized <-
    (match s_control_secret_hash s, s_secret_hash s with
     | Some expected_hash, None => ret (verify_token_secret (part_secret parts) expected_hash)
     | None, Some legacy_hash => verify pool (part_secret parts) legacy_hash
     | _, _ => fail (InvalidState (str "session control-token hash is invalid"))
     end) in
  check authorized else Unauthorized in
  check admits s g now else Unauthorized in
  ret (s, g).

(** [session]. *)
Definition session (token : list byte) (pool : CryptoPool) (now view_now : Z) : M SessionView :=
  do (s, g) <- authenticate token pool now in
  do slot <- lift (required_resource_slot s) in
  ret (session_view s g slot (s_expires_at s) view_now).

(** [verify_data_plane] and [authenticate_data_plane]. *)
Definition verify_data_plane (st : PersistedState) (parts : SecretParts) (protocol : TransportProtocol)
    (username : option (list byte)) (now : Z) : result ServiceError SessionView :=
  require (match username with Some u => bool_decide (u = part_id parts) | None => true end) else Unauthorized in
  let* (s, g) := lookup_session st (part_id parts) in
  let* expected_hash := ok_or (s_data_plane_secret_hash s) Unauthorized in
  require verify_token_secret (part_secret parts) expected_hash else Unauthorized in
  require admits s g now else Unauthorized in
  require allows (g_protocols g) protocol else Forbidden in
  let* slot := required_resource_slot s in
  Ok (session_view s g slot (s_expires_at s) now).
Definition sign_in_event {A} (r : result ServiceError A) : GrantActivityEvent :=
  match r with Ok _ => SignedIn | Err Forbidden => SignInRefusedProtocol | Err _ => SignInRefused end.
Definition note_sign_in (id : list byte) (event : GrantActivityEvent) (protocol : TransportProtocol) (now : Z) : M unit :=
  do st <- locked in
  match find_session st id with
  | Some s => note (s_grant_id s) (over (activity_session event (s_id s) (s_client_name s)) protocol) now
  | None => ret tt
  end.
Definition authenticate_data_plane (token : list byte) (protocol : TransportProtocol) (username : option (list byte))
    (now note_now : Z) : M SessionView :=
  do parts <- lift (map_err (fun _ => Unauthorized) (split_session_token token)) in
  do st <- locked in
  let result := verify_data_plane st parts protocol username now in
  do _ <- note_sign_in (part_id parts) (sign_in_event result) protocol note_now in
  lift (map_err (fun _ => Unauthorized) result).

(** [renew_session], from the records authenticated, and whole. *)
Definition renew (ss : list SessionRecord) (id : list byte) (expires_at : Z) : option (list SessionRecord) :=
  match list_find (fun s => s_id s = id) ss with
  | Some (i, s) => Some (<[i := set_expires_at s expires_at]> ss)
  | None => None
  end.
Definition renew_commit (record : SessionRecord) (grant : AccessGrantRecord) (now : Z) (io : Io) (note_now : Z)
    : M SessionView :=
  let expires_at := lease_end grant now in
  do st <- locked in
  do ss <- lift (ok_or (renew (sessions st) (s_id record) expires_at) Unauthorized) in
  do _ <- commit (with_sessions st ss) io in
  do _ <- note (g_id grant) (activity_session CheckedIn (s_id record) (s_client_name record)) note_now in
  do slot <- lift (required_resource_slot record) in
  ret (session_view record grant slot expires_at now).
Definition renew_session (token : list byte) (pool : CryptoPool) (auth_now now : Z) (io : Io) (note_now : Z) : M SessionView :=
  do (s, g) <- authenticate token pool auth_now in
  renew_commit s g now io note_now.

(** [end_session] ([release_session] and [discard_session]). *)
Definition end_commit (record : SessionRecord) (event : option GrantActivityEvent) (io : Io) (note_now : Z)
    : M SessionAllocation :=
  do al <- lift (session_allocation record) in
  do st <- locked in
  do _ <- commit (with_sessions st (filter (fun s => s_id s <> s_id record) (sessions st))) io in
  do _ <- match event with Some e => note_ended [record] e note_now | None => ret tt end in
  ret al.
Definition end_session (token : list byte) (event : option GrantActivityEvent) (pool : CryptoPool) (now : Z) (io : Io)
    (note_now : Z) : M SessionAllocation :=
  do (s, _) <- authenticate token pool now in end_commit s event io note_now.
Definition release_session (token : list byte) := end_session token (Some Left).
Definition discard_session (token : list byte) := end_session token None.

(** * Housekeeping *)

(** [expire_sessions]. *)
Definition expire_sessions (now : Z) (io : Io) (note_now : Z) : M (list SessionAllocation) :=
  do st <- locked in
  let '(ended, next) := take_expired_sessions st now in
  do expired <- lift (collect session_allocation ended) in
  let '(next, forgot_grants) := forget_stale_grants next now in
  if bool_decide (expired = []) && negb forgot_grants then ret expired
  else
    do _ <- commit next io in
    do _ <- note_ended ended LeaseEnded note_now in
    do _ <- forget_missing_activity in
    ret expired.

(** [metered_sessions]. *)
Definition metered_session (st : PersistedState) (s : SessionRecord) : option MeteredSession :=
  match list_find (fun g => g_id g = s_grant_id s /\ is_Some (g_allowance g)) (grants st) with
  | None => None
  | Some (_, g) =>
    match session_allocation s with
    | Ok a => Some (mkMetered a (s_issued_at s) (default 0 (g_allowance_since g)))
    | Err _ => None
    end
  end.
Definition metered_sessions (st : PersistedState) (now : Z) : list MeteredSession :=
  omap (metered_session st) (filter (fun s => live now s = true) (sessions st)).

(** [record_usage]. *)
Definition per_grant (moved : gmap (list byte) Z) (ss : list SessionRecord) : gmap (list byte) Z :=
  fold_left (fun m s =>
    match moved !! s_id s with
    | Some bytes =>
      if 0 <? bytes then <[s_grant_id s := sat_add64 (default 0 (m !! s_grant_id s)) bytes]> m else m
    | None => m
    end) ss ∅.
Definition add_usage (totals : gmap (list byte) Z) (now : Z) (g : AccessGrantRecord) : AccessGrantRecord :=
  match totals !! g_id g with Some bytes => add g bytes now | None => g end.
Definition used_up_ids (gs : list AccessGrantRecord) (now : Z) : list (list byte) :=
  map g_id (filter (fun g => is_Some (used_up_until g now)) gs).
Definition record_usage (moved : gmap (list byte) Z) (now : Z) (io : Io) (note_now : Z) : M (list SessionAllocation) :=
  do st <- locked in
  let totals := per_grant moved (sessions st) in
  let gs := map (add_usage totals now) (grants st) in
  let used_up := used_up_ids gs now in
  let ending := filter (fun s => s_grant_id s ∈ used_up) (sessions st) in
  let next := mkState (schema_version st) gs (filter (fun s => s_grant_id s ∉ used_up) (sessions st)) in
  do ended <- lift (collect session_allocation ending) in
  do stored_at <- (fun sv => (sv, Ok (usage_stored_at sv))) in
  do _ <-
    (if negb (bool_decide (ending = []))
        || (negb (bool_decide (totals = ∅)) && (USAGE_STORE_INTERVAL_SECONDS <=? sat_sub64 now stored_at))
     then do _ <- store next io in set_usage_stored_at now
     else ret tt) in
  do _ <- set_state next in
  do _ <- note_ended ending EndedAllowanceUsed note_now in
  ret ended.

(** [active_session_count] and [active_session_allocations]. *)
Definition active_session_count (st : PersistedState) (now : Z) : Z := as_u32 (live_count now (sessions st)).
Definition active_session_allocations (st : PersistedState) (now : Z) : result ServiceError (list SessionAllocation) :=
  collect session_allocation (filter (fun s => live now s = true) (sessions st)).
End service.
