(* ===== verification/ServiceInv.v ===== *)
(** The invariant of the access service: a Hoare logic for the monad of
    [Service], the invariant, and its preservation by every critical section
    whatever records an interleaved operation hands to it. *)

From Stdlib Require Import ZArith Lia.
From stdpp Require Import strings.
From S2P Require Import Prelude Utf8 Allowance Grant Model Activity Meter GrantAdmin Service.

(** * Free slots *)

Lemma first_free_some fuel slot max used n :
  first_free fuel slot max used = Some n ->
  slot <= n < max /\ n ∉ used /\ forall k, slot <= k < n -> k ∈ used.
Proof.
  revert slot; induction fuel as [|fuel IH]; intros slot HF; [done|]. cbn in HF.
  destruct (Z.leb_spec max slot); [done|]. case_bool_decide as Hin.
  - apply IH in HF as (Hn & Hni & Hk). split_and!; [lia..|done|]. intros k Hks.
    destruct (decide (k = slot)) as [->|]; [done|]. apply Hk. lia.
  - injection HF as <-. split_and!; [lia..|done|]. lia.
Qed.

Lemma first_free_none fuel slot max used :
  first_free fuel slot max used = None ->
  forall k, slot <= k < Z.min max (slot + Z.of_nat fuel) -> k ∈ used.
Proof.
  revert slot; induction fuel as [|fuel IH]; intros slot HF k Hk; [lia|]. cbn in HF.
  destruct (Z.leb_spec max slot); [lia|]. case_bool_decide as Hin; [|done].
  destruct (decide (k = slot)) as [->|]; [done|]. eapply IH; [done|]. lia.
Qed.

Lemma seqZ_in_length (used : list Z) (n : nat) :
  (forall k, 0 <= k < Z.of_nat n -> k ∈ used) -> (n <= length used)%nat.
Proof.
  intros HU. replace n with (length (seqZ 0 (Z.of_nat n))) by (rewrite length_seqZ; lia).
  apply submseteq_length, NoDup_submseteq; [apply NoDup_seqZ|]. intros k Hk%elem_of_seqZ. apply HU. lia.
Qed.

Lemma free_slot_some max used n :
  free_slot max used = Some n -> 0 <= n < max /\ n ∉ used /\ forall k, 0 <= k < n -> k ∈ used.
Proof. apply first_free_some. Qed.

(** The search fails only when every slot is used: its fuel is enough. *)
Lemma free_slot_none max used :
  free_slot max used = None -> forall k, 0 <= k < max -> k ∈ used.
Proof.
  intros HF k Hk. pose proof (first_free_none _ _ _ _ HF) as HU.
  destruct (Z.le_gt_cases max (Z.of_nat (S (length used)))) as [Hm|Hm]; [apply HU; lia|exfalso].
  pose proof (seqZ_in_length used (S (length used))) as Hl. cut (S (length used) <= length used)%nat; [lia|].
  apply Hl. intros j Hj. apply HU. lia.
Qed.

(** Distinct slots below a bound are at most as many as the bound. *)
Lemma slots_bounded used max :
  0 <= max -> NoDup used -> Forall (fun n => 0 <= n < max) used -> zlen used <= max.
Proof.
  intros Hm HN HF. unfold zlen. replace max with (Z.of_nat (length (seqZ 0 max))) by (rewrite length_seqZ; lia).
  apply inj_le, submseteq_length, NoDup_submseteq; [done|].
  intros n Hn. rewrite Forall_forall in HF. apply elem_of_seqZ. specialize (HF n Hn). lia.
Qed.

(** * A Hoare logic for operations *)

Definition triple {A} (P : Service -> Prop) (m : M A) (Q : A -> Service -> Prop)
    (E : ServiceError -> Service -> Prop) : Prop :=
  forall sv, P sv -> match m sv with (sv', Ok a) => Q a sv' | (sv', Err e) => E e sv' end.

Section rules.
Context {A B : Type}.
Implicit Types (P : Service -> Prop) (E : ServiceError -> Service -> Prop).

Lemma triple_ret P (a : A) (Q : A -> Service -> Prop) E : (forall sv, P sv -> Q a sv) -> triple P (ret a) Q E.
Proof. intros HQ sv HP. apply HQ, HP. Qed.

Lemma triple_fail P e (Q : A -> Service -> Prop) E : (forall sv, P sv -> E e sv) -> triple P (fail e) Q E.
Proof. intros HQ sv HP. apply HQ, HP. Qed.

Lemma triple_lift P (r : result ServiceError A) (Q : A -> Service -> Prop) E :
  (forall sv a, P sv -> r = Ok a -> Q a sv) -> (forall sv e, P sv -> r = Err e -> E e sv) -> triple P (lift r) Q E.
Proof. intros HQ HE sv HP. unfold lift. destruct r; eauto. Qed.

Lemma triple_bind P (m : M A) (k : A -> M B) Q R E :
  triple P m R E -> (forall a, triple (R a) (k a) Q E) -> triple P (bind m k) Q E.
Proof.
  intros Hm Hk sv HP. unfold bind. specialize (Hm sv HP). destruct (m sv) as [sv' [a|e]]; [|done].
  by apply Hk.
Qed.

Lemma triple_weaken P P' (m : M A) (Q Q' : A -> Service -> Prop) E :
  triple P m Q E -> (forall sv, P' sv -> P sv) -> (forall a sv, Q a sv -> Q' a sv) -> triple P' m Q' E.
Proof.
  intros Hm HP HQ sv Hsv. specialize (Hm sv (HP sv Hsv)). destruct (m sv) as [sv' [a|e]]; auto.
Qed.

Lemma triple_check P (c : bool) e (m : M A) Q E :
  (c = true -> triple P m Q E) -> (forall sv, P sv -> c = false -> E e sv) ->
  triple P (if c then m else fail e) Q E.
Proof. intros Hm He. destruct c; [by apply Hm|]. apply triple_fail. eauto. Qed.

Lemma triple_locked P (Q : PersistedState -> Service -> Prop) E :
  (forall sv, P sv -> Q (state sv) sv) -> triple P locked Q E.
Proof. intros HQ sv HP. apply HQ, HP. Qed.
End rules.

Arguments triple : simpl never.

Section compound.
Context {A B : Type}.
Implicit Types (P : Service -> Prop) (E : ServiceError -> Service -> Prop).

Lemma triple_bind_lift P (r : result ServiceError A) (k : A -> M B) Q E :
  (forall a, r = Ok a -> triple P (k a) Q E) -> (forall e sv, r = Err e -> P sv -> E e sv) ->
  triple P (bind (lift r) k) Q E.
Proof.
  intros Hk He sv HP. unfold bind, lift. destruct r as [a|e]; [by apply (Hk a eq_refl)|eauto].
Qed.

Lemma triple_bind_locked P st (k : PersistedState -> M B) Q E :
  (forall sv, P sv -> state sv = st) -> triple P (k st) Q E -> triple P (bind locked k) Q E.
Proof. intros Hst Hk sv HP. unfold bind, locked. rewrite (Hst sv HP). by apply Hk. Qed.
End compound.

(** * The invariant *)

(** Two states that differ in counted usage only. *)
Definition erase_usage (st : PersistedState) : PersistedState :=
  mkState (schema_version st) (map (fun g => set_usage g None) (grants st)) (sessions st).
Definition same_but_usage (a b : PersistedState) : Prop := erase_usage a = erase_usage b.

Global Instance same_but_usage_equiv : Equivalence same_but_usage.
Proof. unfold same_but_usage. split; [by intros ?|by intros ???|intros ???; congruence]. Qed.

Section invariant.
Context `{SecretHashing, StateJson, !StateJsonLaws, NodeConfig}.

Definition slot_assigned (s : SessionRecord) : Prop :=
  exists n, s_resource_slot s = Some n /\ 0 <= n < max_sessions.
Definition slots_assigned (st : PersistedState) : Prop := Forall slot_assigned (sessions st).

(** The state is valid, every session holds a slot of the node, and the file
    holds the same state up to usage counted since it was written. *)
Record Core (sv : Service) : Prop := {
  core_wf : state_wf (state sv);
  core_schema : schema_version (state sv) = CURRENT_STATE_SCHEMA_VERSION;
  core_slots : slots_assigned (state sv);
  core_persisted : exists st, load_file (disk sv) LoadOk = Ok st /\ same_but_usage st (state sv);
}.

(** The log is bounded and only about grants that exist. *)
Definition log_bounded (sv : Service) : Prop :=
  map_Forall (fun _ entries => entries_bounded entries) (activity sv).
Definition log_current (sv : Service) : Prop :=
  forall id, is_Some (activity sv !! id) -> is_Some (find_grant (state sv) id).

Record Inv (sv : Service) : Prop := {
  inv_core : Core sv;
  inv_bounded : log_bounded sv;
  inv_current : log_current sv;
}.

(** Nothing but the count of refused work changed. *)
Definition unchanged (sv0 sv : Service) : Prop :=
  state sv = state sv0 /\ disk sv = disk sv0 /\ activity sv = activity sv0 /\
  usage_stored_at sv = usage_stored_at sv0.

Lemma unchanged_inv sv0 sv : unchanged sv0 sv -> Inv sv0 -> Inv sv.
Proof.
  intros (Es & Ed & Ea & _) [[HW HS HL HP] HB HC]. split; [split|..].
  all: unfold log_bounded, log_current, slots_assigned in *; rewrite ?Es, ?Ed, ?Ea; done.
Qed.

(** ** Steps *)

Definition Unchanged (sv0 : Service) : ServiceError -> Service -> Prop := fun _ => unchanged sv0.

Lemma triple_bind_crypto {A B} sv0 pool (work : result ServiceError A) (k : A -> M B) Q :
  (forall a, work = Ok a -> triple (unchanged sv0) (k a) Q (Unchanged sv0)) ->
  triple (unchanged sv0) (bind (run_crypto pool work) k) Q (Unchanged sv0).
Proof.
  intros Hk sv HP. unfold bind, run_crypto. destruct pool; [|done..].
  destruct work as [a|e]; [by apply Hk|done].
Qed.

(** After a commit the core holds of the new state; a failed one changes nothing. *)
Definition committed (sv0 : Service) (next : PersistedState) (sv : Service) : Prop :=
  Core sv /\ state sv = next /\ activity sv = activity sv0.

Lemma stored_core sv0 next io d :
  store_file (disk sv0) next io = (d, Ok tt) -> slots_assigned next ->
  forall a t n, Core (mkService next d a t n).
Proof.
  intros HS HL a t n. pose proof (load_stored _ _ _ _ HS) as Hload.
  apply store_file_ok in HS as (_ & Hs & HV & _). split; cbn; [by apply validate_ok|done|done|].
  exists next. by split.
Qed.

Lemma triple_bind_commit {B} sv0 next io (k : unit -> M B) Q :
  slots_assigned next -> triple (committed sv0 next) (k tt) Q (Unchanged sv0) ->
  triple (unchanged sv0) (bind (commit next io) k) Q (Unchanged sv0).
Proof.
  intros HL Hk sv (Es & Ed & Ea & Et). unfold commit, bind at 1, bind at 1, store, set_state.
  destruct (store_file (disk sv) next io) as [d [[]|e]] eqn:EF; cbn.
  - apply Hk. split_and!; [|done|done]. cbn. eapply stored_core; [exact EF|done].
  - apply store_file_err in EF as ->. done.
Qed.

(** Notes touch only the log. *)
Lemma note_spec id a now sv :
  exists log, note id a now sv = (mkService (state sv) (disk sv) log (usage_stored_at sv) (crypto_overloads sv), Ok tt) /\
    (log_bounded sv -> map_Forall (fun _ entries => entries_bounded entries) log) /\
    (forall g, is_Some (log !! g) -> is_Some (activity sv !! g) \/ is_Some (find_grant (state sv) g)).
Proof.
  unfold note. destruct (find_grant (state sv) id) as [g|] eqn:E.
  - eexists. split; [reflexivity|]. split.
    + intros HB. unfold record. apply map_Forall_insert_2; [|done]. apply record_entries_bounded.
      destruct (activity sv !! id) eqn:Ea; [by eapply HB|]. split; [cbn; unfold MAX_ENTRIES_PER_GRANT; lia|constructor].
    + intros k [e He]. unfold record in He. apply lookup_insert_Some in He as [[<- _]|[_ He]]; eauto.
  - exists (activity sv). destruct sv. cbn. split_and!; eauto.
Qed.

Lemma note_ended_spec ss event now sv :
  exists log, note_ended ss event now sv =
    (mkService (state sv) (disk sv) log (usage_stored_at sv) (crypto_overloads sv), Ok tt) /\
    (log_bounded sv -> map_Forall (fun _ entries => entries_bounded entries) log) /\
    (forall g, is_Some (log !! g) -> is_Some (activity sv !! g) \/ is_Some (find_grant (state sv) g)).
Proof.
  revert sv. induction ss as [|s ss IH]; intros sv; cbn.
  - exists (activity sv). destruct sv. cbn. split_and!; eauto.
  - unfold bind. destruct (note_spec (s_grant_id s) (activity_session event (s_id s) (s_client_name s)) now sv)
      as (log & -> & HB & HC).
    match goal with |- context [note_ended ss event now ?x] => destruct (IH x) as (log' & -> & HB' & HC') end.
    exists log'. cbn in *. split_and!; [done|intros Hb; exact (HB' (HB Hb))|]. intros g Hg. destruct (HC' g Hg); eauto.
Qed.

(** ** Finishing an operation *)

(** A state whose log may still name grants that are gone. *)
Definition Mid (next : PersistedState) (sv : Service) : Prop :=
  Core sv /\ state sv = next /\ log_bounded sv.

Lemma note_ended_inv sv0 next ss event now sv :
  Inv sv0 -> committed sv0 next sv ->
  exists sv', note_ended ss event now sv = (sv', Ok tt) /\ Mid next sv' /\ crypto_overloads sv' = crypto_overloads sv /\
    ((forall id, is_Some (find_grant (state sv0) id) -> is_Some (find_grant next id)) -> Inv sv').
Proof.
  intros HI ([HW HS HL HP] & Es & Ea). destruct (note_ended_spec ss event now sv) as (log & -> & HB & HC).
  eexists. split; [reflexivity|].
  assert (log_bounded sv) as Hb by (unfold log_bounded; rewrite Ea; apply HI).
  assert (Core (mkService (state sv) (disk sv) log (usage_stored_at sv) (crypto_overloads sv))) as Hcore by done.
  split; [split_and!; [done|done|by apply HB]|]. split; [done|]. intros Hincl.
  split; [done|by apply HB|]. intros id Hid. cbn in *. destruct (HC id Hid) as [Hin|Hin]; [|done].
  rewrite Ea in Hin. rewrite Es. apply Hincl. by apply HI.
Qed.

Lemma forget_missing_inv next sv sv' r :
  Mid next sv -> forget_missing_activity sv = (sv', r) -> r = Ok tt /\ Inv sv' /\ state sv' = next.
Proof.
  intros ([HW HS HL HP] & Es & HB). unfold forget_missing_activity. intros [= <- <-].
  split; [done|]. split; [|done]. split; [done| |].
  - intros k e Hk. apply map_lookup_filter_Some in Hk as [Hk _]. by eapply HB.
  - intros id [e He]. apply map_lookup_filter_Some in He as [_ He]. cbn in He. by apply bool_decide_eq_true in He.
Qed.
End invariant.

(** Symbolic execution of an operation up to its commit. *)
Ltac m_step :=
  lazymatch goal with
  | |- triple _ (bind (lift _) _) _ _ =>
      apply triple_bind_lift; [intros ? ?|intros ? ? _ HPre; exact HPre]
  | |- triple _ (bind (hash _ _ _) _) _ _ => apply triple_bind_crypto; intros ? ?
  | |- triple _ (bind (verify _ _ _) _) _ _ => apply triple_bind_crypto; intros ? ?
  | |- triple (unchanged ?sv0) (bind locked _) _ _ =>
      apply (triple_bind_locked _ (state sv0)); [intros ? HPre; exact (proj1 HPre)|]
  | |- triple _ (if ?c then _ else fail _) _ _ =>
      apply triple_check; [intros ?|intros ? HPre _; exact HPre]
  | |- triple _ (match ?p with (_, _) => _ end) _ _ => destruct p eqn:?
  end.

(** The same, naming what a step yields. *)
Ltac m_get x h :=
  lazymatch goal with
  | |- triple _ (bind (lift _) _) _ _ => apply triple_bind_lift; [intros x h|intros ? ? _ HPre; exact HPre]
  | |- triple _ (bind _ _) _ _ => apply triple_bind_crypto; intros x h
  end.
Ltac m_check h := apply triple_check; [intros h|intros ? HPre _; exact HPre].

(** ** Operations *)

Section operations.
Context `{SecretHashing, StateJson, !StateJsonLaws, NodeConfig}.

Lemma find_grant_app st g id :
  find_grant st id <> None -> find_grant (with_grants st (grants st ++ [g])) id = find_grant st id.
Proof.
  unfold find_grant. cbn. destruct (list_find _ (grants st)) as [[i x]|] eqn:E; [|done].
  intros _. by rewrite (list_find_app_l _ _ _ _ _ E).
Qed.

Lemma committed_inv sv0 next sv :
  Inv sv0 -> committed sv0 next sv ->
  (forall id, is_Some (find_grant (state sv0) id) -> is_Some (find_grant next id)) -> Inv sv.
Proof.
  intros HI (HC & Es & Ea) Hincl. split; [done|unfold log_bounded; rewrite Ea; apply HI|].
  intros id Hid. rewrite Ea in Hid. rewrite Es. apply Hincl. by apply HI.
Qed.

Lemma create_grant_triple sv0 request now code salt pool io :
  Inv sv0 ->
  triple (unchanged sv0) (create_grant request now code salt pool io)
    (fun resp sv => Inv sv /\ find_grant (state sv0) (response_id resp) = None /\
       exists secret_hash label, state sv = with_grants (state sv0) (grants (state sv0) ++
         [mkGrant (response_id resp) secret_hash label (response_max_connections resp)
            (Some (response_expires_at resp)) now false (response_protocols resp) (response_allowance resp)
            ((fun _ => now) <$> response_allowance resp) None]))
    (Unchanged sv0).
Proof.
  intros HI. unfold create_grant. repeat m_step. apply triple_bind_commit; [apply HI|].
  apply triple_ret. intros sv HC. bool_prop. split; [|split; [done|]].
  - eapply committed_inv; [done|exact HC|]. intros id [g Hg]. by rewrite find_grant_app, Hg by (by rewrite Hg).
  - do 2 eexists. apply HC.
Qed.

Lemma slots_sublist st ss sch gs :
  slots_assigned st -> ss `sublist_of` sessions st -> slots_assigned (mkState sch gs ss).
Proof. intros HL Hs. unfold slots_assigned in *. cbn. by eapply sublist_Forall. Qed.

Lemma find_grant_insert st i g g' ss sch id :
  grants st !! i = Some g -> g_id g' = g_id g -> is_Some (find_grant st id) ->
  is_Some (find_grant (mkState sch (<[i := g']> (grants st)) ss) id).
Proof.
  intros Hi Hid [x Hx]. apply find_grant_some in Hx as [Hx <-].
  destruct (find_grant (mkState _ _ _) (g_id x)) eqn:E; [done|exfalso].
  rewrite find_grant_none in E. cbn in E. apply list_elem_of_lookup in Hx as [k Hk].
  destruct (decide (i = k)) as [<-|Hne].
  - apply (E g'); [|congruence]. eapply list_elem_of_lookup_2, list_lookup_insert_eq. by eapply lookup_lt_Some.
  - apply (E x); [|done]. eapply list_elem_of_lookup_2. by rewrite list_lookup_insert_ne.
Qed.

Lemma apply_slots st id c now st' ended :
  slots_assigned st -> apply st id c now = Ok (st', ended) -> slots_assigned st'.
Proof.
  intros HL HA. destruct (apply_inv _ _ _ _ _ _ HA) as (i & g & g' & ea & ending & _ & _ & _ & _ & -> & _).
  unfold slots_assigned. cbn. eapply sublist_Forall; [apply sublist_filter|]. apply Forall_fmap.
  eapply Forall_impl; [exact HL|]. intros s. unfold compose, slot_assigned.
  by rewrite (proj1 (proj2 (proj2 (cut_fields id (g_expires_at g') s)))).
Qed.

Lemma apply_grants st id c now st' ended k :
  apply st id c now = Ok (st', ended) -> is_Some (find_grant st k) -> is_Some (find_grant st' k).
Proof.
  intros HA Hk. destruct (apply_inv _ _ _ _ _ _ HA) as (i & g & g' & ea & ending & Hi & _ & EC & _ & -> & _).
  eapply find_grant_insert; [exact Hi| |done].
  pose proof (change_grant_fields g c now) as HF. rewrite EC in HF. apply HF.
Qed.

Lemma apply_found st id c now st' ended :
  apply st id c now = Ok (st', ended) -> is_Some (find_grant st' id).
Proof.
  intros HA. eapply apply_grants; [exact HA|].
  destruct (apply_inv _ _ _ _ _ _ HA) as (i & g & _ & _ & _ & Hi & Hg & _).
  destruct (find_grant st id) eqn:E; [done|]. rewrite find_grant_none in E.
  destruct (E g); [by eapply list_elem_of_lookup_2|done].
Qed.

(** A store followed by the assignment of the state is a commit. *)
Lemma bind_store_set {B} next io (k : unit -> M B) sv :
  bind (store next io) (fun _ => bind (set_state next) k) sv = bind (commit next io) k sv.
Proof. unfold commit, bind. destruct (store next io sv) as [? [[]|]]; done. Qed.

Lemma triple_eq {A} P (m m' : M A) Q E : (forall sv, m sv = m' sv) -> triple P m' Q E -> triple P m Q E.
Proof. intros Hm HT sv HP. rewrite Hm. by apply HT. Qed.

Lemma update_grant_triple sv0 id changes now io note_now :
  Inv sv0 ->
  triple (unchanged sv0) (update_grant id changes now io note_now)
    (fun res sv => Inv sv /\ exists c, check_changes changes now = Ok c /\
       apply (state sv0) id c now = Ok (state sv, res.2))
    (Unchanged sv0).
Proof.
  intros HI. unfold update_grant. repeat m_step.
  eapply triple_eq; [intros sv; apply bind_store_set|].
  apply triple_bind_commit; [by eapply apply_slots; [apply HI|]|].
  intros sv HC. unfold bind at 1. pose proof HC as (_ & Es & _).
  destruct (note_ended_inv sv0 p (filter (fun s => s_id s ∈ map al_id l) (sessions (state sv0))) EndedByChange note_now sv
    HI HC) as (sv' & -> & (_ & Es' & _) & _ & HI').
  destruct (apply_found _ _ _ _ _ _ H4) as [g Hg]. unfold bind, lift. rewrite Hg. cbn.
  split; [|by eexists; rewrite Es'].
  apply HI'. intros k. by eapply apply_grants.
Qed.

Lemma revoke_grant_triple sv0 id io :
  Inv sv0 ->
  triple (unchanged sv0) (revoke_grant id io)
    (fun res sv => Inv sv /\
       state sv = mkState (schema_version (state sv0)) (filter (fun g => g_id g <> id) (grants (state sv0)))
                    (filter (fun s => s_grant_id s <> id) (sessions (state sv0))) /\
       collect session_allocation (grant_sessions id (sessions (state sv0))) = Ok res)
    (Unchanged sv0).
Proof.
  intros HI. unfold revoke_grant. repeat m_step.
  apply triple_bind_commit; [eapply slots_sublist; [apply HI|apply sublist_filter]|].
  intros sv (HC & Es & Ea). unfold bind. destruct (forget_missing_activity sv) as [sv' r] eqn:EF.
  apply (forget_missing_inv (state sv)) in EF as (-> & HI' & Es');
    [|split_and!; [done|done|unfold log_bounded; rewrite Ea; apply HI]].
  cbn. by rewrite Es', Es.
Qed.

(** The sessions whose lease runs at [now]. *)
Definition live_sessions (now : Z) (st : PersistedState) : list SessionRecord :=
  filter (fun s => s_expires_at s <=? now = false) (sessions st).

(** What a new session's admission established and recorded. *)
Record admission (st : PersistedState) (grant : AccessGrantRecord) (secret client_name : list byte) (now : Z)
    (token random : list byte) (st' : PersistedState) (cs : CreatedSession) (g : AccessGrantRecord) : Prop := {
  adm_secret : verify_secret secret (g_secret_hash grant) = true;
  adm_id : split_session_token token = Ok (mkParts (cs_id cs) (drop SESSION_ID_LENGTH token));
  adm_token : cs_token cs = token;
  adm_scoped : generate_scoped_token (cs_id cs) random = Ok (cs_data_plane_token cs);
  adm_grant : find_grant st (g_id grant) = Some g;
  adm_grant_id : cs_grant_id cs = g_id g;
  adm_unexpired : match g_expires_at g with Some e => now < e | None => True end;
  adm_running : g_paused g = false /\ used_up_until g now = None;
  adm_limit : as_u32 (live_count now (grant_sessions (g_id g) (live_sessions now st))) < g_max_connections g;
  adm_slot : free_slot max_sessions (session_slots (live_sessions now st)) = Some (cs_resource_slot cs);
  adm_new : Forall (fun s => s_id s <> cs_id cs) (live_sessions now st);
  adm_expiry : cs_expires_at cs = lease_end g now;
  adm_view : cs_client_name cs = client_name /\ cs_access_expires_at cs = g_expires_at g /\
             cs_protocols cs = g_protocols g /\ cs_allowance cs = status g now;
  adm_ended : collect session_allocation (filter (fun s => s_expires_at s <=? now = true) (sessions st))
              = Ok (cs_expired_allocations cs);
  adm_state : exists dp, split_session_token (cs_data_plane_token cs) = Ok dp /\
    st' = with_sessions st (live_sessions now st ++
      [mkSession (cs_id cs) (g_id g) None (Some (hash_token_secret (drop SESSION_ID_LENGTH token)))
         (Some (hash_token_secret (part_secret dp))) (Some (cs_resource_slot cs)) client_name now (cs_expires_at cs)]);
}.

Lemma split_session_token_parts token parts :
  split_session_token token = Ok parts -> part_secret parts = drop SESSION_ID_LENGTH token.
Proof. unfold split_session_token. destruct (validate_alphanumeric _ _); [|done]. by intros [= <-]. Qed.

Lemma admit_session_triple sv0 grant secret client_name now token random pool io note_now :
  Inv sv0 ->
  triple (unchanged sv0) (admit_session grant secret client_name now token random pool io note_now)
    (fun cs sv => Inv sv /\ exists g, admission (state sv0) grant secret client_name now token random (state sv) cs g)
    (Unchanged sv0).
Proof.
  intros HI. unfold admit_session.
  m_get ok Hok. m_check Hok'. m_check Hp0. m_get u Hu0. m_get parts Hparts. m_get dpt Hdpt. m_get dp Hdp. m_step.
  unfold take_expired_sessions. m_get expired Hexp. m_get g Hg. m_check Hge. m_check Hgp. m_get u' Hgu.
  m_check Hlim. m_check Hcap. m_get slot Hslot. m_check Hnew.
  fold (live_sessions now (state sv0)) in *. cbn [sessions with_sessions] in *.
  destruct (free_slot max_sessions _) as [slot'|] eqn:Efree; [|done]. injection Hslot as ->.
  pose proof (free_slot_some _ _ _ Efree) as (Hrange & _ & _).
  apply triple_bind_commit.
  { unfold slots_assigned. cbn. apply Forall_app. split; [|by repeat constructor; eexists].
    eapply sublist_Forall; [apply sublist_filter|apply HI]. }
  intros sv HC. unfold bind.
  destruct (note_ended_inv sv0 _ (filter (fun s => s_expires_at s <=? now = true) (sessions (state sv0)))
    LeaseEnded note_now sv HI HC) as (sv' & -> & (_ & Es' & _) & _ & HI'). cbn.
  split; [apply HI'; intros id; by destruct (state sv0)|]. exists g.
  destruct (split_session_token token) as [parts'|] eqn:Et; [|done]. injection Hparts as ->.
  destruct (split_session_token dpt) as [dp'|] eqn:Edp; [|done]. injection Hdp as ->.
  destruct (generate_scoped_token _ _) as [dpt'|] eqn:Eg; [|done]. injection Hdpt as ->.
  destruct (find_grant _ _) as [g'|] eqn:Efg in Hg; [|done]. injection Hg as ->.
  pose proof (split_session_token_parts _ _ Et) as Eps. bool_prop.
  split; cbn; try done.
  - congruence.
  - rewrite Et. destruct parts as [pid psec]. cbn in Eps |- *. by rewrite Eps.
  - destruct (g_expires_at g); [bool_prop; lia|done].
  - split; [done|]. by destruct (used_up_until g now).
  - apply existsb_false in Hnew. eapply Forall_impl; [exact Hnew|]. by intros s Hs%bool_decide_eq_false_1.
  - exists dp. rewrite Es', Eps. done.
Qed.

Lemma renew_some ss id t ss' :
  renew ss id t = Some ss' ->
  exists i s, ss !! i = Some s /\ s_id s = id /\ ss' = <[i := set_expires_at s t]> ss.
Proof.
  unfold renew. destruct (list_find _ _) as [[i s]|] eqn:E; [|done]. intros [= <-].
  apply list_find_Some in E as (? & ? & _). eauto.
Qed.

Lemma renew_slots st id t ss :
  slots_assigned st -> renew (sessions st) id t = Some ss -> slots_assigned (with_sessions st ss).
Proof.
  intros HL (i & s & Hi & _ & ->)%renew_some. unfold slots_assigned. cbn.
  apply Forall_insert; [done|]. unfold slots_assigned in HL. rewrite Forall_lookup in HL. by apply (HL i s).
Qed.

Lemma note_inv id a now sv : Inv sv -> Inv (note id a now sv).1 /\
  (note id a now sv).2 = Ok tt /\ state (note id a now sv).1 = state sv /\ disk (note id a now sv).1 = disk sv.
Proof.
  intros [[HW HS HL HP] HB HC]. destruct (note_spec id a now sv) as (log & -> & HB' & HC').
  split_and!; [|done..]. split; [done|by apply HB'|]. intros g Hg. destruct (HC' g Hg); eauto.
Qed.

(** A renewal commits only a lease within the grant's current end, whatever
    records it was authenticated with. *)
Lemma renew_commit_triple sv0 record grant now io note_now :
  Inv sv0 -> is_Some (s_resource_slot record) ->
  triple (unchanged sv0) (renew_commit record grant now io note_now)
    (fun v sv => Inv sv /\ (exists ss, renew (sessions (state sv0)) (s_id record) (lease_end grant now) = Some ss /\
       state sv = with_sessions (state sv0) ss) /\
       exists slot, s_resource_slot record = Some slot /\ v = session_view record grant slot (lease_end grant now) now)
    (Unchanged sv0).
Proof.
  intros HI [slot Hslot]. unfold renew_commit. m_step. m_get ss Hss.
  destruct (renew _ _ _) as [ss'|] eqn:Er; [|done]. injection Hss as ->.
  apply triple_bind_commit; [eapply renew_slots; [apply HI|exact Er]|].
  intros sv HC. unfold bind. pose proof HC as (_ & Es & _).
  assert (Inv sv) as HI' by (eapply committed_inv; [done|exact HC|]; intros id; by destruct (state sv0)).
  match goal with |- context [note ?x ?a ?t sv] =>
    destruct (note_inv x a t sv HI') as (HI2 & Hr & Es2 & _); destruct (note x a t sv) as [sv2 r] end.
  cbn in *. subst r. unfold required_resource_slot. rewrite Hslot. cbn.
  split; [done|]. split; [|by eexists]. exists ss. split; [done|congruence].
Qed.

Lemma end_commit_triple sv0 record event io note_now :
  Inv sv0 ->
  triple (unchanged sv0) (end_commit record event io note_now)
    (fun al sv => Inv sv /\ session_allocation record = Ok al /\
       state sv = with_sessions (state sv0) (filter (fun s => s_id s <> s_id record) (sessions (state sv0))))
    (Unchanged sv0).
Proof.
  intros HI. unfold end_commit. m_get al Hal. m_step.
  apply triple_bind_commit; [eapply slots_sublist; [apply HI|apply sublist_filter]|].
  intros sv HC. unfold bind. pose proof HC as (_ & Es & _).
  destruct event as [event|].
  - destruct (note_ended_inv sv0 _ [record] event note_now sv HI HC) as (sv' & -> & (_ & Es' & _) & _ & HI').
    cbn. split_and!; [apply HI'; intros id; by destruct (state sv0)|done|done].
  - cbn. split_and!; [|done|done]. eapply committed_inv; [done|exact HC|]. intros id. by destruct (state sv0).
Qed.

Lemma expire_sessions_triple sv0 now io note_now :
  Inv sv0 ->
  triple (unchanged sv0) (expire_sessions now io note_now)
    (fun res sv => Inv sv /\
       collect session_allocation (filter (fun s => s_expires_at s <=? now = true) (sessions (state sv0))) = Ok res /\
       (state sv = state sv0 /\ res = [] /\
        (forget_stale_grants (with_sessions (state sv0) (live_sessions now (state sv0))) now).2 = false \/
        state sv = (forget_stale_grants (with_sessions (state sv0) (live_sessions now (state sv0))) now).1))
    (Unchanged sv0).
Proof.
  intros HI. unfold expire_sessions. m_step. unfold take_expired_sessions. m_get expired Hexp.
  fold (live_sessions now (state sv0)). destruct (forget_stale_grants _ now) as [next forgot] eqn:EF.
  assert (next = (forget_stale_grants (with_sessions (state sv0) (live_sessions now (state sv0))) now).1) as En by by rewrite EF.
  destruct (bool_decide (expired = []) && negb forgot) eqn:Ec.
  { apply triple_ret. intros sv HU. bool_prop. split; [by eapply unchanged_inv|]. split; [done|]. left. by split_and!; [apply HU|..]. }
  apply triple_bind_commit.
  { rewrite En. eapply slots_sublist; [apply HI|]. cbn.
    etransitivity; [apply sublist_filter|]. apply sublist_filter. }
  intros sv HC. unfold bind.
  match goal with |- context [note_ended ?ss ?e ?t sv] =>
    destruct (note_ended_inv sv0 next ss e t sv HI HC) as (sv' & -> & HM & _ & _) end.
  destruct (forget_missing_activity sv') as [sv2 r] eqn:EFm.
  apply (forget_missing_inv next) in EFm as (-> & HI' & Es'); [|done]. cbn.
  split; [done|]. split; [done|]. right. by rewrite Es'.
Qed.

(** *** Usage *)

Lemma add_usage_fields totals now g :
  g_id (add_usage totals now g) = g_id g /\ g_expires_at (add_usage totals now g) = g_expires_at g /\
  set_usage (add_usage totals now g) None = set_usage g None.
Proof.
  unfold add_usage. destruct (totals !! g_id g) as [bytes|]; [|done].
  destruct (add_fields g bytes now) as (? & ? & ? & ? & ?). auto.
Qed.

Lemma map_add_usage_id totals now gs : map g_id (map (add_usage totals now) gs) = map g_id gs.
Proof. rewrite map_map. apply map_ext. intros g. apply add_usage_fields. Qed.

Lemma find_grant_usage totals now sch gs ss ss' id :
  find_grant (mkState sch (map (add_usage totals now) gs) ss') id = add_usage totals now <$> find_grant (mkState sch gs ss) id.
Proof.
  unfold find_grant. cbn. rewrite list_find_fmap.
  replace (list_find ((fun g => g_id g = id) ∘ add_usage totals now) gs) with (list_find (fun g => g_id g = id) gs).
  - by destruct (list_find _ gs) as [[]|].
  - apply list_find_ext. intros g. unfold compose. by rewrite (proj1 (add_usage_fields totals now g)).
Qed.

(** Counting usage alone keeps the state valid. *)
Lemma usage_wf totals now st :
  state_wf st -> state_wf (mkState (schema_version st) (map (add_usage totals now) (grants st)) (sessions st)).
Proof.
  intros [HG HN HS HI HL]. constructor; cbn; try done.
  - apply Forall_fmap. eapply Forall_impl; [exact HG|]. intros g Hg. unfold compose, add_usage.
    destruct (totals !! g_id g); [by apply add_wf|done].
  - by rewrite map_add_usage_id.
  - eapply Forall_impl; [exact HS|]. intros s (Hid & g & Hg & Eg & Hv). split; [done|].
    exists (add_usage totals now g). cbn. destruct (add_usage_fields totals now g) as (-> & -> & _).
    split_and!; [by apply list_elem_of_fmap_2|done|done].
Qed.

Lemma usage_same totals now st :
  same_but_usage st (mkState (schema_version st) (map (add_usage totals now) (grants st)) (sessions st)).
Proof.
  unfold same_but_usage, erase_usage. cbn. f_equal. rewrite map_map. apply map_ext. intros g.
  by rewrite (proj2 (proj2 (add_usage_fields totals now g))).
Qed.

(** The state [record_usage] computes. *)
Definition usage_next (moved : gmap (list byte) Z) (now : Z) (st : PersistedState) : PersistedState :=
  let gs := map (add_usage (per_grant moved (sessions st)) now) (grants st) in
  mkState (schema_version st) gs (filter (fun s => s_grant_id s ∉ used_up_ids gs now) (sessions st)).
Definition usage_ending (moved : gmap (list byte) Z) (now : Z) (st : PersistedState) : list SessionRecord :=
  filter (fun s => s_grant_id s ∈ used_up_ids (map (add_usage (per_grant moved (sessions st)) now) (grants st)) now)
    (sessions st).

Lemma usage_next_kept moved now st :
  usage_ending moved now st = [] -> sessions (usage_next moved now st) = sessions st.
Proof.
  intros E. cbn. apply filter_all. apply Forall_forall. intros s Hs Hin.
  apply (not_elem_of_nil s). rewrite <- E. by apply list_elem_of_filter.
Qed.

Lemma usage_next_unstored sv0 moved now a t n :
  Core sv0 -> usage_ending moved now (state sv0) = [] -> Core (mkService (usage_next moved now (state sv0)) (disk sv0) a t n).
Proof.
  intros [HW HS HL (st & Hload & Hsame)] E.
  assert (usage_next moved now (state sv0) = mkState (schema_version (state sv0))
    (map (add_usage (per_grant moved (sessions (state sv0))) now) (grants (state sv0))) (sessions (state sv0))) as En.
  { unfold usage_next. f_equal. by apply usage_next_kept. }
  split; cbn [state disk]; rewrite ?En; [by apply usage_wf|done|done|].
  exists st. split; [done|]. etransitivity; [exact Hsame|]. apply usage_same.
Qed.

Lemma record_usage_triple sv0 moved now io note_now :
  Inv sv0 ->
  triple (unchanged sv0) (record_usage moved now io note_now)
    (fun res sv => Inv sv /\ state sv = usage_next moved now (state sv0) /\
       collect session_allocation (usage_ending moved now (state sv0)) = Ok res)
    (Unchanged sv0).
Proof.
  intros HI. unfold record_usage. m_step. m_get ended Hend.
  fold (usage_ending moved now (state sv0)) in *. fold (usage_next moved now (state sv0)).
  set (next := usage_next moved now (state sv0)).
  assert (slots_assigned next) as HL by (eapply slots_sublist; [apply HI|apply sublist_filter]).
  intros sv HU. unfold bind at 1. destruct HU as (Es & Ed & Ea & Et).
  set (c := negb _ || _). unfold bind at 1.
  assert (exists sv', (if c then bind (store next io) (fun _ => set_usage_stored_at now) else ret tt) sv = (sv', Ok tt)
             /\ committed sv0 next (set_state next sv').1 \/
          exists e, (if c then bind (store next io) (fun _ => set_usage_stored_at now) else ret tt) sv = (sv', Err e)
             /\ unchanged sv0 sv') as HC.
  { destruct c eqn:Ec.
    - unfold bind, store. destruct (store_file (disk sv) next io) as [d [[]|e]] eqn:EF; cbn.
      + eexists. left. split; [reflexivity|]. cbn. split_and!; [|done|done]. eapply stored_core; [exact EF|done].
      + eexists. right. exists (Persistence e). split; [reflexivity|].
        apply store_file_err in EF as ->. done.
    - exists sv. left. split; [done|]. cbn. split_and!; [|done|done]. rewrite Ed.
      apply orb_false_iff in Ec as [Ec _]. bool_prop. apply (usage_next_unstored sv0); [apply HI|done]. }
  destruct HC as (sv' & [[-> HC]|(e & -> & HC)]); [|done].
  unfold bind at 1. unfold set_state at 1. change (mkService next _ _ _ _) with (set_state next sv').1.
  unfold bind at 1.
  destruct (note_ended_inv sv0 next (usage_ending moved now (state sv0)) EndedAllowanceUsed note_now _ HI HC)
    as (sv2 & -> & (_ & Es2 & _) & _ & HI2). cbn.
  split_and!; [|done|done]. apply HI2. intros id Hid. unfold next, usage_next.
  rewrite (find_grant_usage _ _ _ _ (sessions (state sv0))). destruct (state sv0); cbn in *. destruct Hid as [g ->]. by eexists.
Qed.

(** *** Loading *)

Lemma check_slots_ok max used ss used' :
  check_slots max used ss = Ok used' ->
  (forall n, n ∈ used' <-> n ∈ session_slots ss \/ n ∈ used) /\
  Forall (fun n => n < max) (session_slots ss) /\ NoDup (session_slots ss) /\
  (forall n, n ∈ session_slots ss -> n ∉ used).
Proof.
  revert used; induction ss as [|s ss IH]; intros used HC; cbn in HC.
  - injection HC as <-. split_and!; [set_solver|constructor|constructor|set_solver].
  - rewrite session_slots_cons. destruct (s_resource_slot s) as [slot|]; [|by apply IH].
    destruct (Z.leb_spec max slot); cbn in HC; [done|]. case_bool_decide as Hni; [|done].
    apply IH in HC as (HE & HF & HN & HD). split_and!.
    + intros n. rewrite HE, !elem_of_cons. tauto.
    + by constructor.
    + constructor; [|done]. intros Hin. apply (HD slot Hin). left.
    + intros n [->|Hn]%elem_of_cons; [done|]. intros Hu. apply (HD n Hn). by right.
Qed.

Lemma assign_slots_ok max used ss ss' changed :
  assign_slots max used ss = Ok (ss', changed) ->
  NoDup (session_slots ss) -> (forall n, n ∈ session_slots ss -> n ∈ used) ->
  Forall2 (fun s s' => match s_resource_slot s with
    | Some _ => s' = s
    | None => exists n, s' = set_resource_slot s n /\ 0 <= n < max /\ n ∉ used end) ss ss' /\
  NoDup (session_slots ss') /\ (changed = false -> ss' = ss).
Proof.
  revert used ss' changed; induction ss as [|s ss IH]; intros used ss' changed HA HN HU; cbn [assign_slots] in HA.
  - injection HA as <- <-. split_and!; [constructor|constructor|done].
  - rewrite session_slots_cons in HN, HU. destruct (s_resource_slot s) as [slot|] eqn:Es.
    + destruct (assign_slots max used ss) as [[ss2 ch]|] eqn:EA; [|done]. injection HA as <- <-.
      apply NoDup_cons in HN as [Hni HN].
      destruct (IH used ss2 ch EA HN) as (HF & HN2 & Hch); [intros n Hn; apply HU; by right|].
      split_and!; [constructor; [by rewrite Es|done]| |by intros ->%Hch].
      rewrite session_slots_cons, Es. constructor; [|done].
      intros Hin. clear -Hin HF Hni HU. induction HF as [|t t' l l' Ht HF IHF]; [by apply not_elem_of_nil in Hin|].
      rewrite session_slots_cons in *. destruct (s_resource_slot t) as [n|] eqn:Et.
      * subst t'. rewrite Et in Hin. apply elem_of_cons in Hin as [->|Hin]; [apply Hni; left|].
        apply IHF; [intros ?; apply Hni; by right| |done]. intros m [->|Hm]%elem_of_cons; apply HU; [left|right; by right].
      * destruct Ht as (n & -> & _ & Hn). cbn in Hin. apply elem_of_cons in Hin as [->|Hin]; [apply Hn, HU; left|].
        by apply IHF.
    + destruct (free_slot max used) as [n|] eqn:EF; cbn in HA; [|done].
      destruct (assign_slots max (n :: used) ss) as [[ss2 ch]|] eqn:EA; [|done]. injection HA as <- <-.
      destruct (free_slot_some _ _ _ EF) as (Hr & Hni & _).
      destruct (IH (n :: used) ss2 ch EA HN) as (HF & HN2 & _); [intros m Hm; right; by apply HU|].
      split_and!; [|rewrite session_slots_cons; cbn; constructor; [|done]|done].
      * constructor; [rewrite Es; eauto|]. eapply Forall2_impl; [exact HF|]. intros t t'.
        cbn beta. destruct (s_resource_slot t); [done|]. intros (m & ? & ? & Hm). exists m.
        split; [done|]. split; [done|]. intros Hu. apply Hm. by right.
      * intros Hin. clear -Hin HF HU Hni. induction HF as [|t t' l l' Ht HF IHF]; [by apply not_elem_of_nil in Hin|].
        rewrite session_slots_cons in *. destruct (s_resource_slot t) as [m|] eqn:Et.
        -- subst t'. rewrite Et in Hin. apply elem_of_cons in Hin as [->|Hin]; [apply Hni, HU; left|].
           apply IHF; [|done]. intros k Hk. apply HU. by right.
        -- destruct Ht as (m & -> & _ & Hm). cbn in Hin. apply elem_of_cons in Hin as [->|Hin]; [apply Hm; left|].
           by apply IHF.
Qed.

Lemma assigned_session_wf st ss s s' n :
  session_wf st s -> s' = s \/ s' = set_resource_slot s n -> session_wf (with_sessions st ss) s'.
Proof. intros Hs [->| ->]; done. Qed.

Lemma sublist_same_length {A} (l k : list A) : l `sublist_of` k -> length l = length k -> l = k.
Proof.
  induction 1 as [|x l k Hs IH|x l k Hs IH]; cbn; intros E; [done| |].
  - f_equal. apply IH. lia.
  - apply sublist_length in Hs. lia.
Qed.

(** Loading drops expired sessions and gives the others distinct slots of the
    node, keeping the ones they have. *)
Lemma prepare_ok st now st' changed :
  state_wf st -> state_typed st = true -> prepare_resource_slots st max_sessions now = Ok (st', changed) ->
  state_wf st' /\ slots_assigned st' /\ schema_version st' = schema_version st /\ grants st' = grants st /\
  Forall2 (fun s s' => match s_resource_slot s with
    | Some _ => s' = s | None => exists n, s' = set_resource_slot s n end)
    (filter (fun s => live now s = true) (sessions st)) (sessions st') /\
  (changed = false -> st' = st).
Proof.
  intros [HG HN HS HI HL] HT. unfold prepare_resource_slots. set (ss := filter _ _).
  assert (ss `sublist_of` sessions st) as Hsub by apply sublist_filter.
  destruct (check_slots _ _ _) as [used|] eqn:EC; [|done]. apply check_slots_ok in EC as (HE & HB & HND & _).
  destruct (assign_slots _ _ _) as [[ss' ch]|] eqn:EA; [|done]. intros [= <- <-].
  apply assign_slots_ok in EA as (HF & HN' & Hch); [|done|intros n Hn; apply HE; by left].
  assert (Forall2 (fun s s' => match s_resource_slot s with
    | Some _ => s' = s | None => exists n, s' = set_resource_slot s n end) ss ss') as HF'.
  { eapply Forall2_impl; [exact HF|]. intros s s'. cbn beta. destruct (s_resource_slot s); [done|]. intros (n & ? & _). by exists n. }
  assert (map s_id ss' = map s_id ss) as Eid.
  { clear -HF'. induction HF' as [|s s' l l' Hs HF IH]; [done|]. cbn. rewrite IH. f_equal.
    destruct (s_resource_slot s); [by subst|]. by destruct Hs as [? ->]. }
  split_and!; [..|done|done|done|].
  - constructor; cbn; [done|done| |rewrite Eid; by eapply sublist_NoDup_map|done].
    assert (Forall (session_wf st) ss) as HS' by by eapply sublist_Forall.
    clear -HF' HS'. induction HF' as [|s s' l l' Hs HF IH]; [constructor|]. apply Forall_cons in HS' as [Hw HS'].
    constructor; [|by apply IH]. destruct (s_resource_slot s); [by subst|]. by destruct Hs as [? ->].
  - unfold slots_assigned. cbn.
    assert (Forall (fun s => session_typed s = true) ss) as HT'.
    { eapply sublist_Forall; [exact Hsub|]. apply forallb_Forall. unfold state_typed in HT. by bool_prop. }
    clear -HF HB HT'. induction HF as [|s s' l l' Hs HF IH]; [constructor|]. apply Forall_cons in HT' as [Ht HT'].
    rewrite session_slots_cons in HB. unfold session_typed in Ht. unfold slot_assigned at 1.
    destruct (s_resource_slot s) as [n|] eqn:Es.
    + subst s'. apply Forall_cons in HB as [? HB]. constructor; [|by apply IH]. exists n. split; [done|].
      unfold in_range in Ht. bool_prop. lia.
    + destruct Hs as (n & -> & Hn & _). constructor; [by exists n|by apply IH].
  - intros [Hl Hc]%orb_false_iff. rewrite (Hch Hc). bool_prop.
    assert (ss = sessions st) as ->; [|by destruct st].
    by apply sublist_same_length; [|unfold zlen in Hl; lia].
Qed.

Lemma load_file_retry d lio st : load_file d lio = Ok st -> load_file d LoadOk = Ok st.
Proof. unfold load_file. destruct lio, d; try done. by destruct (zlen l <=? _). Qed.

Lemma load_inv d lio sio now sv : load d lio sio now = Ok sv -> Inv sv.
Proof.
  unfold load. destruct (load_file d lio) as [st|] eqn:EL; cbn [map_err]; [|done].
  apply load_file_retry in EL. destruct (load_file_wf _ _ _ EL) as (HW & HS & HT).
  destruct (prepare_resource_slots _ _ _) as [[st' changed]|] eqn:EP; [|done].
  destruct (prepare_ok _ _ _ _ HW HT EP) as (HW' & HL & Hs & _ & _ & Hch).
  destruct changed.
  - destruct (store_file d st' sio) as [d' [[]|]] eqn:EF; cbn; [|done]. intros [= <-].
    split; [by eapply (stored_core (mkService st' d ∅ now 0))|done|]. intros id [? Hid]. cbn in Hid. by rewrite lookup_empty in Hid.
  - intros [= <-]. rewrite (Hch eq_refl) in *. split; [|done|intros id [? Hid]; cbn in Hid; by rewrite lookup_empty in Hid].
    split; [done|done|done|]. cbn. exists st. done.
Qed.
End operations.

(** * Runs of the service *)

(** The critical sections of the service, with the records, clock readings,
    draws and system answers they take.  The records need not agree with the
    state the section runs in: another section may have run since they were
    looked up. *)
Inductive Op :=
| CreateGrant (request : CreateAccessGrantRequest) (now : Z) (code salt : list byte) (pool : CryptoPool) (io : Io)
| UpdateGrant (id : list byte) (changes : UpdateAccessGrantRequest) (now : Z) (io : Io) (note_now : Z)
| RevokeGrant (id : list byte) (io : Io)
| AdmitSession (grant : AccessGrantRecord) (secret client_name : list byte) (now : Z) (token random : list byte)
    (pool : CryptoPool) (io : Io) (note_now : Z)
| RenewSession (record : SessionRecord) (grant : AccessGrantRecord) (now : Z) (io : Io) (note_now : Z)
| EndSession (record : SessionRecord) (event : option GrantActivityEvent) (io : Io) (note_now : Z)
| ExpireSessions (now : Z) (io : Io) (note_now : Z)
| RecordUsage (moved : gmap (list byte) Z) (now : Z) (io : Io) (note_now : Z)
| Note (grant_id : list byte) (a : Activity) (now : Z)
| RefuseCrypto.

Section runs.
Context `{SecretHashing, StateJson, NodeConfig}.

Definition forget_result {A} (r : Service * result ServiceError A) : Service * option ServiceError :=
  (r.1, match r.2 with Ok _ => None | Err e => Some e end).

(** One section: the service after it, and its error. *)
Definition exec (op : Op) (sv : Service) : Service * option ServiceError :=
  match op with
  | CreateGrant request now code salt pool io => forget_result (create_grant request now code salt pool io sv)
  | UpdateGrant id changes now io note_now => forget_result (update_grant id changes now io note_now sv)
  | RevokeGrant id io => forget_result (revoke_grant id io sv)
  | AdmitSession grant secret client_name now token random pool io note_now =>
      forget_result (admit_session grant secret client_name now token random pool io note_now sv)
  | RenewSession record grant now io note_now => forget_result (renew_commit record grant now io note_now sv)
  | EndSession record event io note_now => forget_result (end_commit record event io note_now sv)
  | ExpireSessions now io note_now => forget_result (expire_sessions now io note_now sv)
  | RecordUsage moved now io note_now => forget_result (record_usage moved now io note_now sv)
  | Note grant_id a now => forget_result (note grant_id a now sv)
  | RefuseCrypto => forget_result (run_crypto PoolFull (Ok tt) sv)
  end.

(** A record to renew was authenticated, so it holds a slot. *)
Definition op_ok (op : Op) : Prop :=
  match op with RenewSession record _ _ _ _ => is_Some (s_resource_slot record) | _ => True end.

Fixpoint run (ops : list Op) (sv : Service) : Service :=
  match ops with [] => sv | op :: ops => run ops (exec op sv).1 end.

(** The states of a loaded service, under any interleaving. *)
Inductive reachable : Service -> Prop :=
| reachable_load d lio sio now sv : load d lio sio now = Ok sv -> reachable sv
| reachable_step op sv : reachable sv -> op_ok op -> reachable (exec op sv).1.

Context `{!StateJsonLaws}.

(** A section keeps the invariant, and changes nothing when it fails. *)
Lemma triple_exec {A} sv (m : M A) (Q : A -> Service -> Prop) :
  Inv sv -> triple (unchanged sv) m (fun a sv' => Inv sv' /\ Q a sv') (Unchanged sv) ->
  Inv (forget_result (m sv)).1 /\ ((forget_result (m sv)).2 <> None -> unchanged sv (forget_result (m sv)).1).
Proof.
  intros HI HT. specialize (HT sv). unfold forget_result.
  assert (unchanged sv sv) as HU by done. specialize (HT HU).
  destruct (m sv) as [sv' [a|e]]; cbn in *; [by destruct HT|].
  split; [by eapply unchanged_inv|done].
Qed.

Lemma exec_inv op sv :
  Inv sv -> op_ok op -> Inv (exec op sv).1 /\ ((exec op sv).2 <> None -> unchanged sv (exec op sv).1).
Proof.
  intros HI Hop. destruct op; cbn [exec op_ok] in *.
  - eapply triple_exec, create_grant_triple; done.
  - eapply triple_exec, update_grant_triple; done.
  - eapply triple_exec, revoke_grant_triple; done.
  - eapply triple_exec, admit_session_triple; done.
  - eapply triple_exec, renew_commit_triple; done.
  - eapply triple_exec, end_commit_triple; done.
  - eapply triple_exec, expire_sessions_triple; done.
  - eapply triple_exec, record_usage_triple; done.
  - destruct (note_inv grant_id a now sv HI) as (HI' & Hr & _). unfold forget_result. cbn. rewrite Hr. done.
  - split; [|done]. apply (unchanged_inv sv); done.
Qed.

Lemma reachable_inv sv : reachable sv -> Inv sv.
Proof.
  induction 1 as [d lio sio now sv HL|op sv _ IH Hop]; [by eapply load_inv|]. by apply exec_inv.
Qed.
End runs.
