(* ===== verification/ServiceDemo.v ===== *)
(** Concrete stand-ins for the libraries the access service calls, with their
    laws, and a small node: the inputs on which the theorems about the service
    are evaluated. *)

From Stdlib Require Import ZArith Lia.
From stdpp Require Import strings countable.
From S2P Require Import Prelude Utf8 Vendor Instances Allowance Grant Model Activity Meter GrantAdmin Service ServiceInv.

(** * Hashing *)

Definition demo_phc_prefix : list byte := str "$argon2id$v=19$m=19456,t=2,p=1$".

#[export] Instance demo_hashing : SecretHashing := {
  phc_parse h :=
    if bool_decide (take (length demo_phc_prefix) h = demo_phc_prefix) then
      Some (mkPhc (str "argon2id") (Some 19) [(str "m", Some 19456); (str "t", Some 2); (str "p", Some 1)]
              (Some []) (Some (repeat Byte.x00 32)))
    else None;
  argon2_hash salt secret :=
    if zlen secret <=? 200 then Some (demo_phc_prefix ++ base64url_encode secret) else None;
  argon2_verify secret h := bool_decide (h = demo_phc_prefix ++ base64url_encode secret);
  blake2s256 s := take 32 (s ++ repeat Byte.x00 32);
}.

Lemma base64url_printable b : is_base64url b = true -> (33 <=? b2z b) && (b2z b <=? 126) = true.
Proof.
  unfold is_base64url, is_ascii_alphanumeric, is_ascii_alphabetic, is_ascii_lowercase, is_ascii_uppercase, is_ascii_digit.
  lia.
Qed.

#[export] Instance demo_hashing_laws : SecretHashingLaws.
Proof.
  split; intros salt secret h; cbn [argon2_hash phc_parse argon2_verify demo_hashing]; destruct (Z.leb_spec (zlen secret) 200); try done; intros Hh; apply (inj Some) in Hh; subst h.
  - exists [], (repeat Byte.x00 32). split; [done|]. rewrite bool_decide_true; done.
  - rewrite !zlen_app, forallb_app. rewrite base64url_length.
    change (zlen demo_phc_prefix) with 31. pose proof (zlen_nonneg secret). split.
    + split; pose proof (Z.div_pos (zlen secret * 8 + 5) 6); pose proof (Z.div_le_upper_bound (zlen secret * 8 + 5) 6 300); lia.
    + apply andb_true_iff. split; [done|]. eapply forallb_impl; [|apply base64url_alphabet]. apply base64url_printable.
  - by apply bool_decide_true.
Qed.

(** * The state file *)

#[export] Instance AllowancePeriod_countable : Countable AllowancePeriod.
Proof.
  refine (inj_countable' (fun p => match p with Day => 0 | Week => 1 | Month => 2 end)%nat
    (fun n => match n with 0 => Day | 1 => Week | _ => Month end)%nat _). by intros [].
Defined.
#[export] Instance DataAllowance_countable : Countable DataAllowance.
Proof. refine (inj_countable' (fun a => (allowance_bytes a, period a)) (fun '(b, p) => mkAllowance b p) _). by intros []. Defined.
#[export] Instance PeriodUsage_countable : Countable PeriodUsage.
Proof. refine (inj_countable' (fun u => (period_start_epoch_seconds u, used_bytes u)) (fun '(b, p) => mkUsage b p) _). by intros []. Defined.
#[export] Instance ProtocolAccess_countable : Countable ProtocolAccess.
Proof.
  refine (inj_countable' (fun a => match a with All => None | Only s => Some s end)
    (fun o => match o with None => All | Some s => Only s end) _). by intros [].
Defined.
#[export] Instance AccessGrantRecord_countable : Countable AccessGrantRecord.
Proof.
  refine (inj_countable' (fun g => (((g_id g, g_secret_hash g, (g_label g, g_max_connections g)),
     ((g_expires_at g, g_created_at g), (g_paused g, g_protocols g))), (g_allowance g, g_allowance_since g, g_usage g)))
    (fun '(((a, b, (c, d)), ((e, f), (g, h))), (i, j, k)) => mkGrant a b c d e f g h i j k) _). by intros [].
Defined.
#[export] Instance SessionRecord_countable : Countable SessionRecord.
Proof.
  refine (inj_countable' (fun s => (((s_id s, s_grant_id s), (s_secret_hash s, s_control_secret_hash s)),
     ((s_data_plane_secret_hash s, s_resource_slot s), (s_client_name s, s_issued_at s, s_expires_at s))))
    (fun '(((a, b), (c, d)), ((e, f), (g, h, i))) => mkSession a b c d e f g h i) _). by intros [].
Defined.
#[export] Instance PersistedState_countable : Countable PersistedState.
Proof.
  refine (inj_countable' (fun st => (schema_version st, grants st, sessions st))
    (fun '(v, g, s) => mkState v g s) _). by intros [].
Defined.

#[export] Instance demo_json : StateJson := {
  to_vec_pretty st := if state_typed st then Some (pos_bytes (encode st)) else None;
  from_slice b :=
    match decode (bytes_pos b) with
    | Some st => if state_typed st then Some st else None
    | None => None
    end;
}.

#[export] Instance demo_json_laws : StateJsonLaws.
Proof.
  split; cbn.
  - intros st ->. done.
  - intros st b. destruct (state_typed st) eqn:E; [|done]. intros [= <-].
    by rewrite bytes_pos_bytes, decode_encode, E.
  - intros st b. destruct (decode _); [|done]. destruct (state_typed _) eqn:E; [|done]. congruence.
Qed.

(** * A node *)

#[export] Program Instance demo_node : NodeConfig := { session_ttl := 3600; max_sessions := 4 }.
Next Obligation. unfold u64_max. lia. Qed.
Next Obligation. unfold u32_max. lia. Qed.

Definition demo_now : Z := 1792331110.
Definition demo_service : Service := mkService state_default None ∅ demo_now 0.

Definition demo_request : CreateAccessGrantRequest :=
  Build_CreateAccessGrantRequest (str " Family ") 2 1440 All (Some (mkAllowance 4194304 Day)).
Definition demo_code : list byte := str "Grant00001Secret0000000000000001".
Definition demo_token (n : list byte) : list byte := str "Session000" ++ n ++ str "ControlSecretControlSecret000001".
Definition demo_random : list byte := str "DataPlaneSecretDataPlaneSecret01".

Definition demo_grant_op : Op := CreateGrant demo_request demo_now demo_code [] PoolRuns IoOk.
Definition demo_granted : Service := (exec demo_grant_op demo_service).1.

Example demo_grant_created : map g_id (grants (state demo_granted)) = [str "Grant00001"].
Proof. by_compute. Qed.

(** Two devices enrolled one after the other. *)
Definition demo_enroll (n : list byte) (now : Z) (sv : Service) : Service * result ServiceError CreatedSession :=
  create_session demo_code (str "Phone") now (demo_token n) demo_random PoolRuns IoOk now sv.
Definition demo_one : Service := (demo_enroll (str "01") demo_now demo_granted).1.
Definition demo_two : Service := (demo_enroll (str "02") (demo_now + 10) demo_one).1.

Example demo_two_sessions :
  map s_id (sessions (state demo_two)) = [str "Session00001"; str "Session00002"] /\
  (demo_enroll (str "03") (demo_now + 20) demo_two).2 = Err GrantCapacity.
Proof. split; vm_compute; reflexivity. Qed.

Lemma demo_loaded : load None LoadOk IoOk demo_now = Ok demo_service.
Proof. vm_compute. reflexivity. Qed.
