(* ===== verification/ServiceProps.v ===== *)
(** Theorems about the access service: what holds in every state it reaches
    under any interleaving, what each operation does, and what its errors leave
    behind. *)

From Stdlib Require Import ZArith Lia.
From stdpp Require Import strings.
From S2P Require Import Prelude Utf8 Allowance Grant Model Activity Meter GrantAdmin Service ServiceInv ServiceDemo.

(** * Every reachable state *)

Lemma demo_reachable_granted : reachable demo_granted.
Proof. exact (reachable_step demo_grant_op _ (reachable_load _ _ _ _ _ demo_loaded) I). Qed.

Lemma slots_count ss :
  Forall (fun s => is_Some (s_resource_slot s)) ss -> zlen (session_slots ss) = zlen ss.
Proof.
  induction 1 as [|s ss [n Hn] HF IH]; [done|]. rewrite session_slots_cons, Hn. unfold zlen in *. cbn [length]. lia.
Qed.

Section reach.
Context `{SecretHashing, StateJson, !StateJsonLaws, NodeConfig}.

Lemma assigned_some st : slots_assigned st -> Forall (fun s => is_Some (s_resource_slot s)) (sessions st).
Proof. intros HL. eapply Forall_impl; [exact HL|]. intros s (n & -> & _). done. Qed.

Lemma slots_in_range st :
  slots_assigned st -> Forall (fun n => 0 <= n < max_sessions) (session_slots (sessions st)).
Proof.
  unfold slots_assigned. induction 1 as [|s ss (n & Hn & Hr) HF IH]; [constructor|].
  rewrite session_slots_cons, Hn. by constructor.
Qed.

Lemma inv_capacity sv : Inv sv -> zlen (sessions (state sv)) <= max_sessions.
Proof.
  intros HI. rewrite <- slots_count by apply assigned_some, HI.
  apply slots_bounded; [apply max_sessions_range|apply HI|apply slots_in_range, HI].
Qed.

(** C1: in every state the service reaches, from any file it loads and under
    any interleaving of its critical sections with any records looked up
    earlier, any clock and any store failures: the state passes validation,
    every session holds its own slot below the node's limit, so the node never
    has more sessions than that, and the activity log names only grants that
    exist, at most 24 entries each. *)
Theorem service_invariant sv :
  reachable sv ->
  validate (state sv) = Ok tt /\
  Forall (fun s => exists n, s_resource_slot s = Some n /\ 0 <= n < max_sessions) (sessions (state sv)) /\
  NoDup (session_slots (sessions (state sv))) /\
  zlen (sessions (state sv)) <= max_sessions /\
  (forall id entries, activity sv !! id = Some entries ->
     is_Some (find_grant (state sv) id) /\ (length entries <= MAX_ENTRIES_PER_GRANT)%nat).
Proof.
  intros HR%reachable_inv. split_and!; [apply validate_ok, HR|apply HR|apply HR|by apply inv_capacity|].
  intros id entries Hid. split; [apply HR; by rewrite Hid|]. by destruct (inv_bounded _ HR id entries Hid).
Qed.

(** a critical section that fails, for whatever reason, leaves the state,
    the file and the activity log as they were. *)
Theorem failure_is_atomic op sv :
  reachable sv -> op_ok op -> (exec op sv).2 <> None ->
  state (exec op sv).1 = state sv /\ disk (exec op sv).1 = disk sv /\ activity (exec op sv).1 = activity sv.
Proof. intros HR%reachable_inv Hop HE. destruct (exec_inv op sv HR Hop) as [_ HU]. by destruct (HU HE) as (? & ? & ? & _). Qed.

(** C21: at any moment the file holds the state in memory, up to usage counted
    since it was written; a restart at [now] reads it and keeps every grant and
    exactly the sessions whose lease still runs, in their slots. *)
Theorem restart_restores sv now :
  reachable sv ->
  exists st changed, load_file (disk sv) LoadOk = Ok st /\ erase_usage st = erase_usage (state sv) /\
    prepare_resource_slots st max_sessions now =
      Ok (with_sessions st (filter (fun s => live now s = true) (sessions (state sv))), changed) /\
    (changed = false -> filter (fun s => live now s = true) (sessions (state sv)) = sessions (state sv)).
Proof.
  intros HR%reachable_inv. destruct (core_persisted _ (inv_core _ HR)) as (st & Hload & Hsame).
  exists st. pose proof Hsame as Hss. unfold same_but_usage, erase_usage in Hss. injection Hss as _ _ Ess.
  unfold prepare_resource_slots. rewrite Ess. set (ss := filter _ (sessions (state sv))).
  assert (ss `sublist_of` sessions (state sv)) as Hsub by apply sublist_filter.
  assert (Forall slot_assigned ss) as HL by (eapply sublist_Forall; [exact Hsub|apply HR]).
  assert (NoDup (session_slots ss)) as HN by (eapply sublist_NoDup_omap; [exact Hsub|apply HR]).
  assert (exists used, check_slots max_sessions [] ss = Ok used) as [used ->].
  { cut (forall used, (forall n, n ∈ session_slots ss -> n ∉ used) -> exists used', check_slots max_sessions used ss = Ok used').
    { intros HC. apply HC. set_solver. }
    clear -HL HN. induction ss as [|s ss IH]; intros used HU; [by eexists|]. cbn.
    apply Forall_cons in HL as [(n & Hn & Hr) HL]. rewrite session_slots_cons, Hn in HN, HU.
    apply NoDup_cons in HN as [Hni HN]. rewrite Hn, (proj2 (Z.leb_gt _ _)) by lia. cbn.
    rewrite bool_decide_true by (apply HU; left). apply IH; [done|done|].
    intros m Hm [->|Hu]%elem_of_cons; [done|]. apply (HU m); [by right|done]. }
  assert (assign_slots max_sessions used ss = Ok (ss, false)) as ->.
  { clear -HL. induction HL as [|s ss (n & Hn & _) HL IH]; [done|]. cbn. by rewrite Hn, IH. }
  eexists. split_and!; [done|done|done|]. rewrite orb_false_r. intros Hc%negb_false_iff%Z.eqb_eq.
  apply sublist_same_length; [done|]. unfold zlen in Hc. lia.
Qed.
End reach.

Lemma service_invariant_witness : zlen (sessions (state demo_granted)) <= max_sessions.
Proof.
  destruct (service_invariant demo_granted
    (reachable_step demo_grant_op _ (reachable_load _ _ _ _ _ demo_loaded) I)) as (_ & _ & _ & Hc & _).
  exact Hc.
Defined.

Definition demo_missing_op : Op := RevokeGrant (str "Missing001") IoOk.

Lemma failure_is_atomic_witness : state (exec demo_missing_op demo_granted).1 = state demo_granted.
Proof.
  assert ((exec demo_missing_op demo_granted).2 <> None) as HE by (vm_compute; discriminate).
  destruct (failure_is_atomic demo_missing_op demo_granted demo_reachable_granted I HE) as [Hs _]. exact Hs.
Defined.

Lemma restart_restores_witness :
  exists st changed, load_file (disk demo_granted) LoadOk = Ok st /\ erase_usage st = erase_usage (state demo_granted) /\
    prepare_resource_slots st max_sessions (demo_now + 5) =
      Ok (with_sessions st (filter (fun s => live (demo_now + 5) s = true) (sessions (state demo_granted))), changed) /\
    (changed = false -> filter (fun s => live (demo_now + 5) s = true) (sessions (state demo_granted)) = sessions (state demo_granted)).
Proof. exact (restart_restores demo_granted (demo_now + 5) demo_reachable_granted). Defined.

(** * Signing in *)

Section sessions.
Context `{SecretHashing, StateJson, !StateJsonLaws, NodeConfig}.

(** The secret of a token matches the one hash its session has. *)
Definition control_secret_matches (s : SessionRecord) (secret : list byte) : Prop :=
  match s_control_secret_hash s, s_secret_hash s with
  | Some h, None => hash_token_secret secret = h
  | None, Some h => verify_secret secret h = true
  | _, _ => False
  end.

Lemma lookup_session_ok st id s g :
  lookup_session st id = Ok (s, g) <-> find_session st id = Some s /\ find_grant st (s_grant_id s) = Some g.
Proof.
  unfold lookup_session. destruct (find_session st id) as [s'|] eqn:E; cbn; [|naive_solver].
  destruct (find_grant st (s_grant_id s')) as [g'|] eqn:E2; cbn; [|naive_solver].
  split; [intros [= -> ->]; done|]. intros [[= ->] Hg]. congruence.
Qed.

Lemma authenticate_ok token pool now sv sv' s g :
  authenticate token pool now sv = (sv', Ok (s, g)) ->
  sv' = sv /\ exists parts, split_session_token token = Ok parts /\
    lookup_session (state sv) (part_id parts) = Ok (s, g) /\
    control_secret_matches s (part_secret parts) /\ admits s g now = true.
Proof.
  unfold authenticate, bind, lift, locked, control_secret_matches.
  destruct (split_session_token token) as [parts|] eqn:Ep; cbn; [|done].
  destruct (lookup_session _ _) as [[s' g']|] eqn:El; cbn; [|done].
  destruct (s_control_secret_hash s') as [h|] eqn:Ec, (s_secret_hash s') as [h'|] eqn:Es; cbn; try done.
  - unfold verify_token_secret. case_bool_decide; [|done]. destruct (admits s' g' now) eqn:Ea; [|done].
    intros [= <- <- <-]. rewrite Ec, Es. eauto 10.
  - destruct pool; cbn; try done. destruct (verify_secret (part_secret parts) h') eqn:Ev; [|done].
    destruct (admits s' g' now) eqn:Ea; [|done]. intros [= <- <- <-]. rewrite Ec, Es. eauto 10.
Qed.

Lemma authenticate_complete token pool now sv parts s g :
  split_session_token token = Ok parts -> lookup_session (state sv) (part_id parts) = Ok (s, g) ->
  s_control_secret_hash s = Some (hash_token_secret (part_secret parts)) -> s_secret_hash s = None ->
  admits s g now = true -> authenticate token pool now sv = (sv, Ok (s, g)).
Proof.
  intros Ep El Ec Es Ea. unfold authenticate, bind, lift, locked. rewrite Ep. cbn. rewrite El, Ec, Es. cbn.
  unfold verify_token_secret. rewrite bool_decide_true by done. by rewrite Ea.
Qed.

(** C8: a control token is accepted only for a session that exists, whose
    stored hash it matches, while the lease runs and its grant exists, is not
    paused, has not ended and has data left; the lease never outlasts the
    grant. *)
Theorem authenticate_sound token pool now sv sv' s g :
  reachable sv -> authenticate token pool now sv = (sv', Ok (s, g)) ->
  s ∈ sessions (state sv) /\ g ∈ grants (state sv) /\ s_grant_id s = g_id g /\
  (exists secret, token = s_id s ++ secret /\ control_secret_matches s secret) /\
  now < s_expires_at s /\ g_paused g = false /\ used_up_until g now = None /\
  (forall e, g_expires_at g = Some e -> now < e /\ s_expires_at s <= e).
Proof.
  intros HR%reachable_inv HA. apply authenticate_ok in HA as (_ & parts & Ep & El & Hm & Ha).
  apply lookup_session_ok in El as [Es Eg]. apply find_session_some in Es as [Hs Esid].
  apply find_grant_some in Eg as [Hg Egid]. unfold admits in Ha. bool_prop.
  destruct (split_session_token_inv _ _ Ep) as (Et & _).
  split_and!; try done; [by rewrite Esid; eauto|].
  intros e He. rewrite He in *. bool_prop. split; [done|].
  pose proof (core_wf _ (inv_core _ HR)) as Hwf. pose proof (wf_sessions _ Hwf) as HF.
  rewrite Forall_forall in HF. destruct (HF s Hs) as (_ & g' & Hg' & Eg' & Hv).
  assert (g' = g) as -> by (eapply (NoDup_key_inj g_id); [apply Hwf|done|done|congruence]).
  unfold validate_session in Hv. rewrite He in Hv. repeat break_hyp Hv. bool_prop. lia.
Qed.

(** What [create_session] did when it succeeded. *)
Lemma create_session_admission code name now token random pool io note_now sv sv' cs :
  Inv sv -> create_session code name now token random pool io note_now sv = (sv', Ok cs) ->
  Inv sv' /\ exists parts client_name grant g,
    split_access_code code = Ok parts /\ validate_text name "client_name" MAX_CLIENT_NAME_LENGTH = Ok client_name /\
    find_grant (state sv) (part_id parts) = Some grant /\ g = grant /\
    admission (state sv) grant (part_secret parts) client_name now token random (state sv') cs g.
Proof.
  intros HI. unfold create_session, bind, locked, lift, enrollment.
  destruct (validate_text name _ _) as [client_name|] eqn:Ev; [|done].
  destruct (split_access_code code) as [parts|] eqn:Ec; cbn; [|done].
  destruct (find_grant _ _) as [grant|] eqn:Eg; cbn; [|done].
  unfold note_refusal.
  pose proof (admit_session_triple sv grant (part_secret parts) client_name now token random pool io note_now HI sv) as HT.
  destruct (admit_session _ _ _ _ _ _ _ _ _ sv) as [sv1 [cs1|e]]; [|by destruct (enrollment_refusal e)].
  intros [= <- <-]. destruct HT as (HI' & g & HA); [done|]. split; [done|].
  exists parts, client_name, grant, g. split_and!; try done.
  pose proof (adm_grant _ _ _ _ _ _ _ _ _ _ HA) as Hg. apply find_grant_some in Eg as Eg'. destruct Eg' as [_ Eid].
  rewrite Eid, Eg in Hg. congruence.
Qed.

Lemma find_session_new st ss s :
  Forall (fun x => s_id x <> s_id s) ss -> find_session (with_sessions st (ss ++ [s])) (s_id s) = Some s.
Proof.
  intros HF. unfold find_session. cbn. rewrite list_find_app_r.
  - cbn. by rewrite decide_True.
  - apply list_find_None. done.
Qed.

(** C16: the tokens of a new session work: until the lease ends, while the grant
    has data left, the control token shows the session just created with its
    slot and end, and the data-plane token signs it in to every protocol its
    grant allows, and to no other. *)
Theorem created_session_works code name now token random pool io note_now sv sv' cs t g pool' protocol :
  reachable sv ->
  zlen random = SESSION_SECRET_LENGTH -> forallb is_ascii_alphanumeric random = true ->
  create_session code name now token random pool io note_now sv = (sv', Ok cs) ->
  find_grant (state sv) (cs_grant_id cs) = Some g -> used_up_until g t = None -> t < cs_expires_at cs ->
  session token pool' t t sv' =
    (sv', Ok (mkView (cs_id cs) (cs_grant_id cs) (cs_resource_slot cs) (cs_client_name cs) (cs_expires_at cs)
                (cs_access_expires_at cs) (cs_protocols cs) (status g t))) /\
  (authenticate_data_plane (cs_data_plane_token cs) protocol (Some (cs_id cs)) t t sv').2 =
    (if allows (cs_protocols cs) protocol
     then Ok (mkView (cs_id cs) (cs_grant_id cs) (cs_resource_slot cs) (cs_client_name cs) (cs_expires_at cs)
                (cs_access_expires_at cs) (cs_protocols cs) (status g t))
     else Err Unauthorized).
Proof.
  intros HR%reachable_inv Hrl Hra HC Hg Hu Ht.
  destruct (create_session_admission _ _ _ _ _ _ _ _ _ _ _ HR HC) as (_ & parts & name' & grant & g2 & _ & _ & Eg & -> & HA).
  destruct HA as [_ Hid _ Hsc Hg2 Hgid Hun [Hp _] _ _ Hnew Hexp (Hn & Hae & Hpr & _) _ (dp & Hdp & Es)].
  rewrite Hgid, (proj2 (find_grant_some _ _ _ Eg)), Eg in Hg. injection Hg as <-.
  rewrite (scoped_token_splits _ _ _ Hrl Hra Hsc) in Hdp. injection Hdp as <-. cbn [part_secret] in Es.
  assert (lookup_session (state sv') (cs_id cs) = Ok (mkSession (cs_id cs) (g_id grant) None
    (Some (hash_token_secret (drop SESSION_ID_LENGTH token))) (Some (hash_token_secret random))
    (Some (cs_resource_slot cs)) name' now (cs_expires_at cs), grant)) as El.
  { apply lookup_session_ok. rewrite Es. split; [by apply find_session_new|]. cbn.
    by rewrite <- Hg2; destruct (state sv). }
  assert (forall s, s_expires_at s = cs_expires_at cs -> admits s grant t = true) as Had.
  { intros s Ese. unfold admits. rewrite Ese, Hp, Hu. rewrite (proj2 (Z.ltb_lt _ _)) by done.
    destruct (g_expires_at grant) as [e|] eqn:Ee; [|done]. rewrite (proj2 (Z.ltb_lt _ _)); [done|].
    rewrite Hexp in Ht. unfold lease_end in Ht. rewrite Ee in Ht. lia. }
  split.
  - unfold session, bind at 1. erewrite authenticate_complete; [|exact Hid|exact El|done|done|by apply Had].
    cbn. unfold session_view. cbn. by rewrite Hgid, Hn, Hae, Hpr.
  - unfold authenticate_data_plane, bind, lift, locked.
    rewrite (scoped_token_splits _ _ _ Hrl Hra Hsc). cbn [map_err part_id].
    unfold verify_data_plane. cbn [part_id part_secret]. rewrite bool_decide_true by done. rewrite El.
    cbn [s_data_plane_secret_hash ok_or]. unfold verify_token_secret. rewrite bool_decide_true by done.
    rewrite Had by done. rewrite Hpr. unfold note_sign_in, bind, locked.
    destruct (find_session (state sv') (cs_id cs)) as [s|].
    + match goal with |- context [note ?x ?a ?y sv'] => destruct (note_spec x a y sv') as (log & -> & _) end.
      cbn. destruct (allows (g_protocols grant) protocol); [|done]. unfold session_view. cbn. by rewrite Hgid, Hn, Hae.
    + cbn. destruct (allows (g_protocols grant) protocol); [|done]. unfold session_view. cbn. by rewrite Hgid, Hn, Hae.
Qed.
End sessions.

(** * Whole operations are runs of critical sections *)

Section runs.
Context `{SecretHashing, StateJson, !StateJsonLaws, NodeConfig}.

Lemma reachable_run ops sv : reachable sv -> Forall op_ok ops -> reachable (run ops sv).
Proof.
  revert sv; induction ops as [|op ops IH]; intros sv HR HF; [done|]. apply Forall_cons in HF as [Hop HF].
  apply IH; [by apply reachable_step|done].
Qed.

(** Authentication changes nothing, or counts one refusal of a full pool. *)
Lemma authenticate_runs token pool now sv :
  (authenticate token pool now sv).1 = sv \/ (authenticate token pool now sv).1 = run [RefuseCrypto] sv.
Proof.
  unfold authenticate, bind, lift, locked. destruct (split_session_token token) as [parts|]; cbn; [|by left].
  destruct (lookup_session _ _) as [[s g]|]; cbn; [|by left].
  destruct (s_control_secret_hash s), (s_secret_hash s); cbn; try (by left).
  - destruct (verify_token_secret _ _); [destruct (admits s g now)|]; by left.
  - destruct pool; cbn; [|by right|by left]. destruct (verify_secret _ _); [destruct (admits s g now)|]; by left.
Qed.

Lemma note_sign_in_runs id event protocol now sv :
  exists ops, Forall op_ok ops /\ note_sign_in id event protocol now sv = (run ops sv, Ok tt).
Proof.
  unfold note_sign_in, bind, locked. destruct (find_session (state sv) id) as [s|].
  - exists [Note (s_grant_id s) (over (activity_session event (s_id s) (s_client_name s)) protocol) now].
    split; [by repeat constructor|]. cbn. unfold forget_result, note. by destruct (find_grant _ _).
  - by exists [].
Qed.

Lemma authenticated_slot token pool now sv sv' s g :
  Inv sv -> authenticate token pool now sv = (sv', Ok (s, g)) -> is_Some (s_resource_slot s).
Proof.
  intros HI HA. apply authenticate_ok in HA as (_ & parts & _ & El & _).
  apply lookup_session_ok in El as [Es _]. apply find_session_some in Es as [Hs _].
  pose proof (assigned_some _ (core_slots _ (inv_core _ HI))) as HF. rewrite Forall_forall in HF. by apply HF.
Qed.

(** An operation that authenticates and then runs one section. *)
Lemma authenticated_runs {A} token pool now (k : SessionRecord * AccessGrantRecord -> M A) op sv :
  Inv sv ->
  (forall s g, is_Some (s_resource_slot s) -> op_ok (op s g) /\ (k (s, g) sv).1 = (exec (op s g) sv).1) ->
  exists ops, Forall op_ok ops /\ (bind (authenticate token pool now) k sv).1 = run ops sv.
Proof.
  intros HI Hk. unfold bind. pose proof (authenticate_runs token pool now sv) as HR.
  destruct (authenticate token pool now sv) as [sv' [[s g]|e]] eqn:EA; cbn in HR.
  - pose proof (authenticated_slot _ _ _ _ _ _ _ HI EA) as Hs. apply authenticate_ok in EA as [-> _].
    destruct (Hk s g Hs) as [Hop E]. exists [op s g]. split; [by repeat constructor|]. by rewrite E.
  - cbn. destruct HR as [->| ->]; [by exists []|]. exists [RefuseCrypto]. split; [by repeat constructor|done].
Qed.

Lemma create_grants_runs request prefix index draws sv :
  exists ops, Forall op_ok ops /\ (create_grants request prefix index draws sv).1 = run ops sv.
Proof.
  revert index sv. induction draws as [|d draws IH]; intros index sv; cbn [create_grants]; [by exists []|].
  unfold bind at 1. set (req := Build_CreateAccessGrantRequest _ _ _ _ _).
  set (op := CreateGrant req (d_now d) (d_code d) (d_salt d) (d_pool d) (d_io d)).
  destruct (create_grant _ _ _ _ _ _ sv) as [sv1 [g|e]] eqn:EC.
  - destruct (IH (index + 1) sv1) as (ops & HF & E). exists (op :: ops). split; [by constructor|].
    unfold bind. destruct (create_grants _ _ _ _ sv1) as [sv2 [gs|e2]]; cbn [fst] in *; cbn [run exec op];
      unfold op; cbn [exec]; rewrite EC; done.
  - exists [op]. split; [by repeat constructor|]. cbn [run]. unfold op. cbn [exec]. by rewrite EC.
Qed.

Lemma create_session_runs code name now token random pool io t sv :
  exists ops, Forall op_ok ops /\ (create_session code name now token random pool io t sv).1 = run ops sv.
Proof.
  unfold create_session, bind, locked, lift.
  destruct (enrollment _ _ _) as [[[grant secret] cname]|]; [|by exists []]. unfold note_refusal.
  set (op := AdmitSession grant secret cname now token random pool io t).
  destruct (admit_session _ _ _ _ _ _ _ _ _ sv) as [sv1 [cs|e]] eqn:EA.
  - exists [op]. split; [by repeat constructor|]. cbn [run]. unfold op. cbn [exec]. by rewrite EA.
  - destruct (enrollment_refusal e) as [event|].
    + exists [op; Note (g_id grant) (activity_enrollment event cname) t]. split; [by repeat constructor|].
      cbn [run]. unfold op. cbn [exec]. by rewrite EA.
    + exists [op]. split; [by repeat constructor|]. cbn [run]. unfold op. cbn [exec]. by rewrite EA.
Qed.

Lemma renew_session_runs token pool auth_now now io t sv :
  Inv sv -> exists ops, Forall op_ok ops /\ (renew_session token pool auth_now now io t sv).1 = run ops sv.
Proof.
  intros HI. eapply (authenticated_runs _ _ _ _ (fun s g => RenewSession s g now io t)); [done|].
  intros s g Hs. split; [done|]. cbn [exec]. by destruct (renew_commit s g now io t sv).
Qed.
Lemma end_session_runs token event pool now io t sv :
  Inv sv -> exists ops, Forall op_ok ops /\ (end_session token event pool now io t sv).1 = run ops sv.
Proof.
  intros HI. eapply (authenticated_runs _ _ _ _ (fun s _ => EndSession s event io t)); [done|].
  intros s g Hs. split; [done|]. cbn [exec]. by destruct (end_commit s event io t sv).
Qed.
Lemma authenticate_data_plane_runs token protocol username now t sv :
  exists ops, Forall op_ok ops /\ (authenticate_data_plane token protocol username now t sv).1 = run ops sv.
Proof.
  unfold authenticate_data_plane, bind, lift, locked.
  destruct (split_session_token token) as [parts|]; cbn [map_err]; [|by exists []].
  match goal with |- context [note_sign_in ?a ?b ?c ?d sv] =>
    destruct (note_sign_in_runs a b c d sv) as (ops & HF & ->) end. by exists ops.
Qed.
Lemma create_grant_batch_runs request draws sv :
  exists ops, Forall op_ok ops /\ (create_grant_batch request draws sv).1 = run ops sv.
Proof.
  unfold create_grant_batch. destruct (negb _); [|by exists []]. unfold bind at 1, lift.
  destruct (validate_text _ _ _); [|by exists []]. apply create_grants_runs.
Qed.

(** each whole operation, run without interference, is a sequence of the
    critical sections whose interleavings [reachable] covers. *)
Theorem operations_are_runs sv :
  reachable sv ->
  (forall code name now token random pool io t, exists ops, Forall op_ok ops /\
     (create_session code name now token random pool io t sv).1 = run ops sv) /\
  (forall token pool auth_now now io t, exists ops, Forall op_ok ops /\
     (renew_session token pool auth_now now io t sv).1 = run ops sv) /\
  (forall token event pool now io t, exists ops, Forall op_ok ops /\
     (end_session token event pool now io t sv).1 = run ops sv) /\
  (forall token protocol username now t, exists ops, Forall op_ok ops /\
     (authenticate_data_plane token protocol username now t sv).1 = run ops sv) /\
  (forall request draws, exists ops, Forall op_ok ops /\ (create_grant_batch request draws sv).1 = run ops sv).
Proof.
  intros HR%reachable_inv. split_and!; intros.
  - apply create_session_runs.
  - by apply renew_session_runs.
  - by apply end_session_runs.
  - apply authenticate_data_plane_runs.
  - apply create_grant_batch_runs.
Qed.
End runs.

Lemma operations_are_runs_witness :
  exists ops, Forall op_ok ops /\ demo_one = run ops demo_granted.
Proof.
  exact (proj1 (operations_are_runs demo_granted demo_reachable_granted)
    demo_code (str "Phone") demo_now (demo_token (str "01")) demo_random PoolRuns IoOk demo_now).
Defined.

Lemma demo_reachable_one : reachable demo_one.
Proof.
  destruct (create_session_runs demo_code (str "Phone") demo_now (demo_token (str "01")) demo_random PoolRuns IoOk
    demo_now demo_granted) as (ops & HF & E).
  change demo_one with (create_session demo_code (str "Phone") demo_now (demo_token (str "01")) demo_random PoolRuns IoOk
    demo_now demo_granted).1. rewrite E. apply reachable_run; [exact demo_reachable_granted|done].
Qed.

Lemma demo_reachable_two : reachable demo_two.
Proof.
  destruct (create_session_runs demo_code (str "Phone") (demo_now + 10) (demo_token (str "02")) demo_random PoolRuns IoOk
    (demo_now + 10) demo_one) as (ops & HF & E).
  change demo_two with (create_session demo_code (str "Phone") (demo_now + 10) (demo_token (str "02")) demo_random PoolRuns IoOk
    (demo_now + 10) demo_one).1. rewrite E. apply reachable_run; [exact demo_reachable_one|done].
Qed.

(** The session and the grant of the first demo device. *)
Definition demo_grant : AccessGrantRecord :=
  mkGrant (str "Grant00001") (demo_phc_prefix ++ Vendor.base64url_encode (str "Secret0000000000000001")) (str "Family") 2
    (Some (demo_now + 86400)) demo_now false All (Some (mkAllowance 4194304 Day)) (Some demo_now) None.
Definition demo_created : CreatedSession :=
  mkCreated (demo_token (str "01")) (str "Session00001" ++ demo_random) (str "Session00001") (str "Grant00001") 0 []
    (str "Phone") (demo_now + 3600) (Some (demo_now + 86400)) All
    (Some (mkStatus (mkAllowance 4194304 Day) 0 1792368000)).
Definition demo_session : SessionRecord :=
  mkSession (str "Session00001") (str "Grant00001") None (Some (str "ControlSecretControlSecret000001"))
    (Some demo_random) (Some 0) (str "Phone") demo_now (demo_now + 3600).

(** Evaluates the result of an operation on a demo service. *)
Lemma result_of {A} (r : Service * result ServiceError A) x : r.2 = x -> r = (r.1, x).
Proof. destruct r. cbn. by intros ->. Qed.

Lemma authenticate_sound_witness : demo_session ∈ sessions (state demo_one).
Proof.
  assert ((authenticate (demo_token (str "01")) PoolRuns (demo_now + 100) demo_one).2 = Ok (demo_session, demo_grant))
    as HA by (vm_compute; reflexivity).
  destruct (authenticate_sound _ _ _ _ _ _ _ demo_reachable_one (result_of _ _ HA)) as [Hs _]. exact Hs.
Defined.

Lemma created_session_works_witness :
  (authenticate_data_plane (cs_data_plane_token demo_created) WireGuard (Some (cs_id demo_created))
     (demo_now + 100) (demo_now + 100) demo_one).2
  = Ok (mkView (cs_id demo_created) (cs_grant_id demo_created) (cs_resource_slot demo_created)
          (cs_client_name demo_created) (cs_expires_at demo_created) (cs_access_expires_at demo_created)
          (cs_protocols demo_created) (status demo_grant (demo_now + 100))).
Proof.
  assert ((demo_enroll (str "01") demo_now demo_granted).2 = Ok demo_created) as HC by (vm_compute; reflexivity).
  assert (find_grant (state demo_granted) (cs_grant_id demo_created) = Some demo_grant) as HG by (vm_compute; reflexivity).
  assert (used_up_until demo_grant (demo_now + 100) = None) as HU by (vm_compute; reflexivity).
  assert (demo_now + 100 < cs_expires_at demo_created) as HT by (vm_compute; reflexivity).
  assert (zlen demo_random = SESSION_SECRET_LENGTH /\ forallb is_ascii_alphanumeric demo_random = true) as [HL HA]
    by (split; vm_compute; reflexivity).
  destruct (created_session_works _ _ _ _ _ _ _ _ _ _ _ _ _ PoolRuns WireGuard demo_reachable_granted HL HA
    (result_of _ _ HC) HG HU HT) as [_ Hd]. exact Hd.
Defined.
