(* ===== verification/ServiceGrants.v ===== *)
(** Theorems about the service's operations on grants and sessions: limits,
    changes, revocation, counted usage, expiry and renewal. *)

From Stdlib Require Import ZArith Lia.
From stdpp Require Import strings.
From S2P Require Import Prelude Order Utf8 Allowance Grant Model Activity Meter GrantAdmin Service ServiceInv ServiceDemo ServiceProps.

Section counts.
Context `{SecretHashing, StateJson, !StateJsonLaws, NodeConfig}.

(** Integers of the grants in memory have their Rust ranges. *)
Lemma inv_max_connections sv g : Inv sv -> g ∈ grants (state sv) -> 0 <= g_max_connections g <= u32_max.
Proof.
  intros HI Hg. destruct (core_persisted _ (inv_core _ HI)) as (st & Hload & Hsame).
  destruct (load_file_wf _ _ _ Hload) as (_ & _ & HT). unfold state_typed in HT.
  apply andb_true_iff in HT as [[_ HT]%andb_true_iff _]. apply forallb_Forall in HT. rewrite Forall_forall in HT.
  unfold same_but_usage, erase_usage in Hsame. injection Hsame as _ Eg _.
  assert (set_usage g None ∈ map (fun g => set_usage g None) (grants st)) as Hin
    by (rewrite Eg; by apply (list_elem_of_fmap_2 (fun g => set_usage g None))).
  apply elem_of_map in Hin as (g' & E & Hg'). specialize (HT g' Hg').
  assert (g_max_connections g = g_max_connections g') as ->
    by (change (g_max_connections (set_usage g None) = g_max_connections (set_usage g' None)); by rewrite E).
  unfold grant_typed, in_range in HT. bool_prop. lia.
Qed.

Lemma live_count_le now ss : live_count now ss <= zlen ss.
Proof. unfold live_count, zlen. apply inj_le. apply sublist_length, sublist_filter. Qed.

Lemma live_count_app now ss ss' : live_count now (ss ++ ss') = live_count now ss + live_count now ss'.
Proof. unfold live_count. by rewrite filter_app, zlen_app. Qed.

Lemma live_count_sublist now ss ss' : ss `sublist_of` ss' -> live_count now ss <= live_count now ss'.
Proof.
  induction 1 as [|s ss ss' _ IH|s ss ss' _ IH]; rewrite ?live_count_cons; [done|lia|]. destruct (live now s); lia.
Qed.

Lemma zlen_sublist {A} (l k : list A) : l `sublist_of` k -> zlen l <= zlen k.
Proof. intros Hs. unfold zlen. apply inj_le. by apply sublist_length. Qed.

Lemma as_u32_id n : 0 <= n <= u32_max -> as_u32 n = n.
Proof. intros Hn. unfold as_u32. apply Z.mod_small. lia. Qed.

(** Counts of a reachable service do not wrap. *)
Lemma as_u32_count sv now ss :
  Inv sv -> ss `sublist_of` sessions (state sv) -> as_u32 (live_count now ss) = live_count now ss.
Proof.
  intros HI Hs. apply as_u32_id. pose proof (inv_capacity sv HI). pose proof max_sessions_range.
  pose proof (live_count_le now ss). pose proof (zlen_sublist _ _ Hs). pose proof (live_count_nonneg now ss). lia.
Qed.

Lemma live_sessions_live now st :
  Forall (fun s => live now s = true) (live_sessions now st).
Proof. apply Forall_forall. intros s [Hs _]%list_elem_of_filter. unfold live. lia. Qed.

(** an enrollment never takes a grant over its device limit or the node over
    its session limit, and the lease ends no later than the grant and the
    node's lease time. *)
Theorem admission_within_limits code name now token random pool io note_now sv sv' cs g :
  reachable sv ->
  create_session code name now token random pool io note_now sv = (sv', Ok cs) ->
  find_grant (state sv') (cs_grant_id cs) = Some g ->
  live_count now (grant_sessions (g_id g) (sessions (state sv'))) <= g_max_connections g /\
  zlen (sessions (state sv')) <= max_sessions /\
  cs_expires_at cs <= sat_add64 now session_ttl /\
  (forall e, g_expires_at g = Some e -> now < e /\ cs_expires_at cs <= e).
Proof.
  intros HR%reachable_inv HC Hg.
  destruct (create_session_admission _ _ _ _ _ _ _ _ _ _ _ HR HC) as (HI' & parts & name' & grant & g2 & _ & _ & Eg & -> & HA).
  destruct HA as [_ _ _ _ Hg2 Hgid Hun _ Hlim _ _ Hexp _ _ (dp & _ & Es)].
  assert (g = grant) as ->.
  { rewrite Es, Hgid in Hg. change (find_grant (state sv) (g_id grant) = Some g) in Hg. congruence. }
  rewrite (as_u32_count sv) in Hlim by (done || (etransitivity; apply sublist_filter)).
  set (s := mkSession _ _ _ _ _ _ _ _ _) in Es.
  assert (grant_sessions (g_id grant) (sessions (state sv')) =
          grant_sessions (g_id grant) (live_sessions now (state sv)) ++ [s]) as Egs.
  { rewrite Es. unfold grant_sessions. cbn [sessions with_sessions]. rewrite filter_app. f_equal.
    by rewrite filter_cons_True. }
  rewrite Egs, live_count_app, live_count_cons. change (live_count now []) with 0.
  pose proof (live_count_nonneg now (grant_sessions (g_id grant) (live_sessions now (state sv)))).
  change (live now s) with (now <? cs_expires_at cs).
  split_and!.
  - destruct (now <? cs_expires_at cs); lia.
  - by apply inv_capacity.
  - rewrite Hexp. unfold lease_end. destruct (g_expires_at grant); lia.
  - intros e He. rewrite He in Hun. split; [done|]. rewrite Hexp. unfold lease_end. rewrite He. lia.
Qed.
End counts.

Lemma admission_within_limits_witness :
  live_count demo_now (grant_sessions (g_id demo_grant) (sessions (state demo_one))) <= 2.
Proof.
  assert ((demo_enroll (str "01") demo_now demo_granted).2 = Ok demo_created) as HC by (vm_compute; reflexivity).
  assert (find_grant (state demo_one) (cs_grant_id demo_created) = Some demo_grant) as HG by (vm_compute; reflexivity).
  destruct (admission_within_limits _ _ _ _ _ _ _ _ _ _ _ _ demo_reachable_granted (result_of _ _ HC) HG) as (Hm & _).
  exact Hm.
Defined.

(** * Revocation *)

Lemma find_session_none st id : find_session st id = None <-> forall s, s ∈ sessions st -> s_id s <> id.
Proof.
  unfold find_session. destruct (list_find _ _) as [[i s']|] eqn:E; split; try done.
  - intros HN. apply list_find_Some in E as (E & ? & _). destruct (HN s'); [by eapply list_elem_of_lookup_2|done].
  - intros _. apply list_find_None in E. by rewrite Forall_forall in E.
Qed.

Lemma erase_find_grant a b id :
  same_but_usage a b -> find_grant b id = None -> find_grant a id = None.
Proof.
  intros Hs. rewrite !find_grant_none. unfold same_but_usage, erase_usage in Hs. injection Hs as _ Eg _.
  intros HN g Hg. assert (set_usage g None ∈ map (fun g => set_usage g None) (grants b)) as Hin
    by (rewrite <- Eg; by apply (list_elem_of_fmap_2 (fun g => set_usage g None))).
  apply elem_of_map in Hin as (g' & E & Hg'). intros <-. apply (HN g' Hg').
  change (g_id (set_usage g' None) = g_id (set_usage g None)). by rewrite E.
Qed.

Section changes.
Context `{SecretHashing, StateJson, !StateJsonLaws, NodeConfig}.

Lemma authenticate_unknown token parts pool now sv :
  split_session_token token = Ok parts -> find_session (state sv) (part_id parts) = None ->
  authenticate token pool now sv = (sv, Err Unauthorized).
Proof. intros Ep Ef. unfold authenticate, bind, lift, locked, lookup_session. rewrite Ep. cbn. by rewrite Ef. Qed.

(** C28: revoking a grant returns the slots of exactly its sessions, ends them
    all and nothing else; afterwards neither their tokens nor the grant's
    access code work, the log has forgotten the grant, and a restart does not
    bring it back. *)
Theorem revoke_ends_access id io sv sv' ended :
  reachable sv -> revoke_grant id io sv = (sv', Ok ended) ->
  Forall2 (fun s a => session_allocation s = Ok a) (grant_sessions id (sessions (state sv))) ended /\
  grants (state sv') = filter (fun g => g_id g <> id) (grants (state sv)) /\
  sessions (state sv') = filter (fun s => s_grant_id s <> id) (sessions (state sv)) /\
  (forall token parts pool now, split_session_token token = Ok parts ->
     (exists s, s ∈ sessions (state sv) /\ s_grant_id s = id /\ s_id s = part_id parts) ->
     authenticate token pool now sv' = (sv', Err Unauthorized)) /\
  (forall code parts name, split_access_code code = Ok parts -> part_id parts = id ->
     is_ok (enrollment (state sv') code name) = false) /\
  activity sv' !! id = None /\
  (forall st, load_file (disk sv') LoadOk = Ok st -> find_grant st id = None).
Proof.
  intros HR%reachable_inv HV. pose proof (revoke_grant_triple sv id io HR sv ltac:(done)) as HT. rewrite HV in HT.
  destruct HT as (HI' & Es & Hend). apply collect_ok_forall2 in Hend. rewrite Es. cbn [grants sessions].
  assert (find_grant (state sv') id = None) as Hnone.
  { apply find_grant_none. rewrite Es. cbn. intros g [Hg _]%list_elem_of_filter. done. }
  split_and!; try done.
  - intros token parts pool now Ep (s & Hs & Hsg & Hsid). eapply authenticate_unknown; [done|].
    apply find_session_none. rewrite Es. cbn. intros s' [Hs' Hin]%list_elem_of_filter Eid.
    apply Hs'. assert (s' = s) as ->; [|done].
    eapply (NoDup_key_inj s_id); [apply HR|done|done|congruence].
  - intros code parts name Ep <-. rewrite Es in Hnone. unfold enrollment. rewrite Ep. cbn [map_err]. rewrite Hnone. by destruct (validate_text _ _ _).
  - destruct (activity sv' !! id) eqn:Ea; [|done]. destruct (inv_current _ HI' id) as [g Hg]; [by rewrite Ea|].
    rewrite Hnone in Hg. done.
  - intros st Hst. destruct (core_persisted _ (inv_core _ HI')) as (st' & Hload & Hsame).
    rewrite Hst in Hload. injection Hload as <-. by eapply erase_find_grant.
Qed.

(** * Changes *)

(** a change to a grant leaves every other grant and its sessions alone,
    keeps the grant within its device limit, and ends all its sessions when it
    is newly paused, its protocols change or its allowance is used up. *)
Theorem update_grant_effect id changes now io note_now sv sv' summary ended g g' :
  reachable sv ->
  update_grant id changes now io note_now sv = (sv', Ok (summary, ended)) ->
  find_grant (state sv) id = Some g -> find_grant (state sv') id = Some g' ->
  filter (fun s => s_grant_id s <> id) (sessions (state sv')) = filter (fun s => s_grant_id s <> id) (sessions (state sv)) /\
  filter (fun g => g_id g <> id) (grants (state sv')) = filter (fun g => g_id g <> id) (grants (state sv)) /\
  live_count now (grant_sessions id (sessions (state sv'))) <= g_max_connections g' /\
  (g_paused g = false -> g_paused g' = true -> grant_sessions id (sessions (state sv')) = []) /\
  (g_protocols g' <> g_protocols g -> grant_sessions id (sessions (state sv')) = []) /\
  (is_Some (used_up_until g' now) -> grant_sessions id (sessions (state sv')) = []).
Proof.
  intros HR%reachable_inv HU Hg Hg'.
  pose proof (update_grant_triple sv id changes now io note_now HR sv ltac:(done)) as HT. rewrite HU in HT.
  destruct HT as (HI' & c & Hc & HA). cbn [snd] in HA.
  pose proof (wf_session_ids _ (core_wf _ (inv_core _ HR))) as HNs.
  pose proof (wf_grant_ids _ (core_wf _ (inv_core _ HR))) as HNg.
  destruct (find_grant_some _ _ _ Hg') as [Hg'in Hg'id].
  pose proof (apply_end_all _ _ _ _ _ _ HA g Hg) as Hend.
  destruct (apply_inv _ _ _ _ _ _ HA) as (i & g0 & g2 & ea & ending & Hi & Hgid & HC & _ & Es & _).
  assert (g0 = g) as ->.
  { destruct (find_grant_some _ _ _ Hg) as [Hin Eid]. eapply (NoDup_key_inj g_id); [exact HNg| |done|congruence].
    by eapply list_elem_of_lookup_2. }
  assert (g_id g2 = g_id g) as Hid2 by (pose proof (change_grant_fields g c now) as HF; rewrite HC in HF; apply HF).
  assert (g' = g2) as ->.
  { eapply (NoDup_key_inj g_id); [apply HI'|done| |congruence]. rewrite Es. cbn.
    eapply list_elem_of_lookup_2, list_lookup_insert_eq. by eapply lookup_lt_Some. }
  rewrite HC in Hend. cbn [snd] in Hend.
  assert (ea = match new_paused c with Some p => p && negb (g_paused g) | None => false end
     || match new_protocols c with Some p => negb (bool_decide (p = g_protocols g)) | None => false end
     || bool_decide (is_Some (used_up_until g2 now))) as Eea.
  { revert HC. unfold change_grant. destruct (new_allowance c) as [new|];
      [destruct (bool_decide (period <$> new = _))|]; intros [= <- <-]; done. }
  pose proof (change_grant_fields g c now) as HF. rewrite HC in HF. destruct HF as (_ & _ & _ & _ & _ & Ep & Epr & _).
  split_and!.
  - by eapply apply_other_sessions.
  - rewrite Es. cbn [grants]. clear -Hi Hgid Hid2. revert i Hi. induction (grants (state sv)) as [|x l IH]; intros i Hi; [done|].
    destruct i as [|i]; simpl in Hi.
    + injection Hi as ->. change (<[0%nat := g2]> (g :: l)) with (g2 :: l). rewrite !filter_cons_False by (intros Hne; apply Hne; congruence). done.
    + change (<[S i := g2]> (x :: l)) with (x :: <[i := g2]> l). rewrite !filter_cons, IH by done. done.
  - eapply apply_limit; [exact HA|done|done|done|done|]. by eapply inv_max_connections.
  - intros Hp Hp'. apply Hend. rewrite Eea, Hp. rewrite Ep in Hp'. destruct (new_paused c) as [b|]; cbn in Hp'; [|congruence].
    by rewrite Hp'.
  - intros Hne. apply Hend. rewrite Eea. rewrite Epr in Hne. destruct (new_protocols c) as [p|]; cbn in *; [|done].
    rewrite (bool_decide_false (p = _)) by done. by rewrite orb_true_r.
  - intros Hu. apply Hend. rewrite Eea, (bool_decide_true (is_Some (used_up_until g2 now))) by done. by rewrite orb_true_r.
Qed.

(** A lower device limit disconnects the newest devices: a session is ended
    for it only when exactly the new number of live sessions stay, each of
    which connected before the one that ended. *)
Theorem update_keeps_oldest id c now st st' ended g al s :
  state_wf st -> apply st id c now = Ok (st', ended) ->
  find_grant st id = Some g -> (change_grant g c now).2 = false ->
  0 <= g_max_connections (change_grant g c now).1 ->
  al ∈ ended -> s ∈ sessions st -> s_id s = al_id al ->
  live_count now (grant_sessions id (sessions st')) = g_max_connections (change_grant g c now).1 /\
  forall k, k ∈ grant_sessions id (sessions st') -> live now k = true -> older k s = true.
Proof.
  intros Hwf HA Hg Hea Hm Hal Hs Esid. unfold find_grant in Hg. unfold apply in HA.
  destruct (list_find _ _) as [[i g0]|]; [|done]. injection Hg as ->.
  destruct (change_grant g c now) as [g' ea]. cbn in Hea, Hm |- *. subst ea.
  set (ss := map (cut id (g_expires_at g')) (sessions st)) in *.
  set (ending := ending_loop _ _ _ _ _) in HA.
  destruct (collect _ _) as [al'|] eqn:EL; [|done]. injection HA as <- <-. cbn [sessions].
  apply collect_ok_forall2 in EL. apply list_elem_of_lookup in Hal as [k Hk].
  destruct (Forall2_lookup_r _ _ _ _ _ EL Hk) as (s2 & Hs2 & Eal). apply list_elem_of_lookup_2 in Hs2.
  apply list_elem_of_filter in Hs2 as [Hs2e Hs2].
  assert (s_id s2 = al_id al) as Es2 by (unfold session_allocation in Eal; destruct (required_resource_slot s2); [by injection Eal as <-|done]).
  assert (NoDup (map s_id ss)) as HN by (unfold ss; rewrite map_cut_key; [apply Hwf|intros ?; apply cut_fields]).
  assert (NoDup (map s_id (sort_by_age (grant_sessions id ss)))) as HNs.
  { rewrite sort_by_age_perm. eapply sublist_NoDup_map; [apply sublist_filter|done]. }
  destruct (ending_loop_oldest (g_max_connections g') now 0 _ (s_id s2) HNs Hm (sort_by_age_sorted _) Hs2e)
    as (Hcount & t & Ht & Etid & _ & HF).
  fold ending in Hcount, HF. change (filter (fun s => s_id s ∉ ending) ss) with (keeping ending ss).
  rewrite filter_keeping_comm.
  assert (keeping ending (sort_by_age (grant_sessions id ss)) ≡ₚ keeping ending (grant_sessions id ss)) as HP
    by (apply filter_Permutation, sort_by_age_perm).
  split; [rewrite <- (live_count_perm now _ _ HP); exact Hcount|].
  intros x Hx Hl. rewrite <- HP in Hx. rewrite Forall_forall in HF. specialize (HF x Hx Hl).
  assert (t = cut id (g_expires_at g') s) as ->.
  { eapply (NoDup_key_inj s_id); [exact HN| | |rewrite Etid, Es2, <- Esid; symmetry; apply cut_fields].
    - rewrite sort_by_age_perm in Ht. by apply list_elem_of_filter in Ht as [_ ?].
    - by apply list_elem_of_fmap_2. }
  unfold older, key_le in *. destruct (cut_fields id (g_expires_at g') s) as (E1 & _ & _ & E2).
  rewrite E1, E2 in HF. exact HF.
Qed.
End changes.

(** ** Witnesses *)

Lemma revoke_ends_access_witness :
  sessions (state (revoke_grant (str "Grant00001") IoOk demo_two).1) = [].
Proof.
  assert ((revoke_grant (str "Grant00001") IoOk demo_two).2 =
    Ok [mkAllocation (str "Session00001") 0; mkAllocation (str "Session00002") 1]) as HV by (vm_compute; reflexivity).
  destruct (revoke_ends_access _ _ _ _ _ demo_reachable_two (result_of _ _ HV)) as (_ & _ & Hs & _).
  rewrite Hs. vm_compute. reflexivity.
Defined.

Definition demo_pause : UpdateAccessGrantRequest := mkUpdate None None None (Some true) None None false.
Definition demo_paused_grant : AccessGrantRecord :=
  mkGrant (g_id demo_grant) (g_secret_hash demo_grant) (g_label demo_grant) 2 (g_expires_at demo_grant) demo_now true All
    (g_allowance demo_grant) (Some demo_now) None.

Lemma update_grant_effect_witness :
  grant_sessions (str "Grant00001")
    (sessions (state (update_grant (str "Grant00001") demo_pause (demo_now + 20) IoOk (demo_now + 20) demo_two).1)) = [].
Proof.
  assert ((update_grant (str "Grant00001") demo_pause (demo_now + 20) IoOk (demo_now + 20) demo_two).2 =
    Ok (Build_AccessGrantSummary (str "Grant00001") (str "Family") 2 0 (Some (demo_now + 86400)) demo_now true All
          (Some (mkStatus (mkAllowance 4194304 Day) 0 1792368000)),
        [mkAllocation (str "Session00001") 0; mkAllocation (str "Session00002") 1])) as HU by (vm_compute; reflexivity).
  assert (find_grant (state demo_two) (str "Grant00001") = Some demo_grant) as Hg by (vm_compute; reflexivity).
  assert (find_grant (state (update_grant (str "Grant00001") demo_pause (demo_now + 20) IoOk (demo_now + 20) demo_two).1)
    (str "Grant00001") = Some demo_paused_grant) as Hg' by (vm_compute; reflexivity).
  destruct (update_grant_effect _ _ _ _ _ _ _ _ _ _ _ demo_reachable_two (result_of _ _ HU) Hg Hg') as (_ & _ & _ & Hp & _).
  apply Hp; reflexivity.
Defined.

Definition demo_one_device : UpdateAccessGrantRequest := mkUpdate None (Some 1) None None None None false.
Definition demo_after_limit : PersistedState := with_sessions
  (with_grants (state demo_two) [(change_grant demo_grant demo_one_device (demo_now + 20)).1]) [demo_session].
Definition demo_second : SessionRecord :=
  mkSession (str "Session00002") (str "Grant00001") None (Some (str "ControlSecretControlSecret000001"))
    (Some demo_random) (Some 1) (str "Phone") (demo_now + 10) (demo_now + 3610).

Lemma update_keeps_oldest_witness : older demo_session demo_second = true.
Proof.
  assert (validate (state demo_two) = Ok tt) as HV%validate_ok by (vm_compute; reflexivity).
  assert (apply (state demo_two) (str "Grant00001") demo_one_device (demo_now + 20) =
    Ok (demo_after_limit, [mkAllocation (str "Session00002") 1])) as HA by (vm_compute; reflexivity).
  assert (find_grant (state demo_two) (str "Grant00001") = Some demo_grant) as Hg by (vm_compute; reflexivity).
  assert (sessions (state demo_two) = [demo_session; demo_second]) as Es by (vm_compute; reflexivity).
  assert (demo_second ∈ sessions (state demo_two)) as Hs by (rewrite Es; right; left).
  destruct (update_keeps_oldest _ _ _ _ _ _ _ (mkAllocation (str "Session00002") 1) demo_second HV HA Hg
    eq_refl ltac:(vm_compute; discriminate) ltac:(left) Hs eq_refl) as [_ Ho].
  apply Ho; [|vm_compute; reflexivity].
  assert (grant_sessions (str "Grant00001") (sessions demo_after_limit) = [demo_session]) as -> by (vm_compute; reflexivity).
  left.
Defined.
