(* ===== verification/ServiceUsage.v ===== *)
(** Theorems about counted usage, expiry and renewal, and that an enrollment
    that meets the grant's terms succeeds. *)

From Stdlib Require Import ZArith Lia.
From stdpp Require Import strings.
From S2P Require Import Prelude Utf8 Allowance Grant Model Activity Meter GrantAdmin Service ServiceInv ServiceDemo ServiceProps ServiceGrants.

(** * Usage *)

(** What the sessions moved together. *)
Definition session_bytes (moved : gmap (list byte) Z) (ss : list SessionRecord) : Z :=
  foldr (fun s total => Z.max 0 (default 0 (moved !! s_id s)) + total) 0 ss.

Lemma session_bytes_nonneg moved ss : 0 <= session_bytes moved ss.
Proof. unfold session_bytes. induction ss; cbn; lia. Qed.

Lemma per_grant_fold (moved : gmap (list byte) Z) (ss : list SessionRecord) (m : gmap (list byte) Z) id :
  0 <= default 0 (m !! id) <= u64_max ->
  default 0 (fold_left (fun m s =>
    match moved !! s_id s with
    | Some bytes =>
      if 0 <? bytes then <[s_grant_id s := sat_add64 (default 0 (m !! s_grant_id s)) bytes]> m else m
    | None => m
    end) ss m !! id) = Z.min u64_max (default 0 (m !! id) + session_bytes moved (grant_sessions id ss)).
Proof.
  revert m. induction ss as [|s ss IH]; intros m Hm; [cbn -[u64_max]; lia|]. cbn [fold_left].
  unfold grant_sessions in *. rewrite filter_cons.
  pose proof (session_bytes_nonneg moved (filter (fun s => s_grant_id s = id) ss)) as Hnn.
  destruct (moved !! s_id s) as [bytes|] eqn:Eb; [destruct (Z.ltb_spec 0 bytes)|].
  - destruct (decide (s_grant_id s = id)) as [<-|Hne].
    + rewrite IH by (rewrite lookup_insert_eq; cbn; unfold sat_add64; lia).
      rewrite lookup_insert_eq. cbn [from_option Datatypes.id session_bytes foldr]. fold (session_bytes moved (filter (fun t => s_grant_id t = s_grant_id s) ss)).
      rewrite Eb. cbn [from_option Datatypes.id]. unfold sat_add64. lia.
    + rewrite IH by (by rewrite lookup_insert_ne). by rewrite lookup_insert_ne.
  - rewrite IH by done. case_decide; [|done]. cbn [session_bytes foldr]. rewrite Eb. cbn [from_option Datatypes.id].
    fold (session_bytes moved (filter (fun t => s_grant_id t = id) ss)). lia.
  - rewrite IH by done. case_decide; [|done]. cbn [session_bytes foldr]. rewrite Eb. cbn [from_option Datatypes.id].
    fold (session_bytes moved (filter (fun t => s_grant_id t = id) ss)). lia.
Qed.

Lemma per_grant_total moved ss id :
  default 0 (per_grant moved ss !! id) = Z.min u64_max (session_bytes moved (grant_sessions id ss)).
Proof.
  unfold per_grant. rewrite per_grant_fold; rewrite lookup_empty; cbn; [|unfold u64_max; lia]. f_equal.
Qed.

Lemma per_grant_range moved ss id bytes : per_grant moved ss !! id = Some bytes -> 0 <= bytes <= u64_max.
Proof.
  intros E. pose proof (per_grant_total moved ss id) as Ht. rewrite E in Ht. cbn in Ht.
  pose proof (session_bytes_nonneg moved (grant_sessions id ss)). unfold u64_max in *. lia.
Qed.

Section usage.
Context `{SecretHashing, StateJson, !StateJsonLaws, NodeConfig}.

(** recording usage changes a grant in its counted usage only, to the sum,
    saturating, of what was used in this period and what its sessions moved;
    then it ends exactly the sessions of the grants that have used up their
    allowance, so none is left. *)
Theorem record_usage_effect moved now io note_now sv sv' ended :
  reachable sv -> record_usage moved now io note_now sv = (sv', Ok ended) ->
  map (fun g => set_usage g None) (grants (state sv')) = map (fun g => set_usage g None) (grants (state sv)) /\
  (forall g a, g ∈ grants (state sv) -> g_allowance g = Some a -> 0 <= used g now <= u64_max ->
     exists g', g' ∈ grants (state sv') /\ g_id g' = g_id g /\
       used g' now = Z.min u64_max (used g now + session_bytes moved (grant_sessions (g_id g) (sessions (state sv))))) /\
  Forall2 (fun s al => session_allocation s = Ok al)
    (filter (fun s => s_grant_id s ∈ used_up_ids (grants (state sv')) now) (sessions (state sv))) ended /\
  sessions (state sv') = filter (fun s => s_grant_id s ∉ used_up_ids (grants (state sv')) now) (sessions (state sv)).
Proof.
  intros HR%reachable_inv HU. pose proof (record_usage_triple sv moved now io note_now HR sv ltac:(done)) as HT.
  rewrite HU in HT. destruct HT as (_ & Es & Hend). apply collect_ok_forall2 in Hend. rewrite Es. cbn [grants sessions usage_next].
  set (totals := per_grant moved (sessions (state sv))). split_and!; try done.
  - rewrite map_map. apply map_ext. intros g. apply add_usage_fields.
  - intros g a Hg Ha Hu. exists (add_usage totals now g).
    split_and!; [by apply list_elem_of_fmap_2|apply add_usage_fields|].
    pose proof (per_grant_total moved (sessions (state sv)) (g_id g)) as Ht. fold totals in Ht.
    pose proof (session_bytes_nonneg moved (grant_sessions (g_id g) (sessions (state sv)))).
    unfold add_usage. destruct (totals !! g_id g) as [bytes|] eqn:Et; cbn [from_option Datatypes.id] in Ht.
    + pose proof (per_grant_range _ _ _ _ Et). rewrite (used_add g bytes now a) by (done || lia).
      unfold sat_add64, u64_max in *. lia.
    + unfold u64_max in *. lia.
Qed.
End usage.

Lemma record_usage_effect_witness :
  exists g', g' ∈ grants (state (record_usage {[str "Session00001" := 3000]} (demo_now + 30) IoOk (demo_now + 30) demo_two).1) /\
    g_id g' = g_id demo_grant /\ used g' (demo_now + 30) = 3000.
Proof.
  assert ((record_usage {[str "Session00001" := 3000]} (demo_now + 30) IoOk (demo_now + 30) demo_two).2 = Ok []) as HU
    by (vm_compute; reflexivity).
  destruct (record_usage_effect _ _ _ _ _ _ _ demo_reachable_two (result_of _ _ HU)) as (_ & Hg & _).
  assert (grants (state demo_two) = [demo_grant]) as Eg by (vm_compute; reflexivity).
  destruct (Hg demo_grant (mkAllowance 4194304 Day)) as (g' & Hin & Hid & Hused);
    [rewrite Eg; left|reflexivity|vm_compute; split; discriminate|].
  exists g'. split; [exact Hin|]. split; [exact Hid|]. rewrite Hused. vm_compute. reflexivity.
Defined.

(** * Expiry *)

Section expiry.
Context `{SecretHashing, StateJson, !StateJsonLaws, NodeConfig}.

Lemma session_grant st s :
  state_wf st -> s ∈ sessions st ->
  exists g, g ∈ grants st /\ g_id g = s_grant_id s /\ forall e, g_expires_at g = Some e -> s_expires_at s <= e.
Proof.
  intros Hwf Hs. pose proof (wf_sessions _ Hwf) as HF. rewrite Forall_forall in HF.
  destruct (HF s Hs) as (_ & g & Hg & Eg & Hv). exists g. split_and!; [done..|]. intros e He.
  unfold validate_session in Hv. rewrite He in Hv. repeat break_hyp Hv. bool_prop. lia.
Qed.

(** Forgetting old grants never takes a running session with it. *)
Lemma forget_keeps_live st now :
  state_wf st -> sessions (forget_stale_grants (with_sessions st (live_sessions now st)) now).1 = live_sessions now st.
Proof.
  intros Hwf. cbn. apply filter_all, Forall_forall. intros s Hs Hin.
  apply list_elem_of_filter in Hs as [Hl Hs]. apply elem_of_map in Hin as (g & Eg & Hg).
  apply list_elem_of_filter in Hg as [Hst Hg]. destruct (session_grant st s Hwf Hs) as (g' & Hg' & Eg' & He).
  assert (g' = g) as -> by (eapply (NoDup_key_inj g_id); [apply Hwf|done|done|congruence]).
  unfold stale in Hst. destruct (g_expires_at g) as [e|]; [|done]. specialize (He e eq_refl).
  unfold sat_sub64, EXPIRED_GRANT_RETENTION_SECONDS in Hst. lia.
Qed.

(** Housekeeping ends exactly the sessions whose lease has run out and
    forgets exactly the grants that ended at least seven days ago; every
    session still running stays. *)
Theorem expire_sessions_effect now io note_now sv sv' ended :
  reachable sv -> expire_sessions now io note_now sv = (sv', Ok ended) ->
  sessions (state sv') = live_sessions now (state sv) /\
  grants (state sv') = filter (fun g => stale now g = false) (grants (state sv)) /\
  Forall2 (fun s al => session_allocation s = Ok al)
    (filter (fun s => s_expires_at s <=? now = true) (sessions (state sv))) ended.
Proof.
  intros HR%reachable_inv HE. pose proof (expire_sessions_triple sv now io note_now HR sv ltac:(done)) as HT.
  rewrite HE in HT. destruct HT as (_ & Hend & HS). apply collect_ok_forall2 in Hend.
  destruct HS as [(Es & -> & Hf)|Es].
  - rewrite Es. split_and!; [| |done].
    + symmetry. apply filter_all, Forall_forall. intros s Hs. apply Forall2_nil_inv_r in Hend.
      destruct (s_expires_at s <=? now) eqn:E; [|done]. exfalso. apply (not_elem_of_nil s). rewrite <- Hend.
      by apply list_elem_of_filter.
    + cbn in Hf. bool_prop. symmetry. apply sublist_same_length; [apply sublist_filter|]. unfold zlen in Hf. lia.
  - rewrite Es. split_and!; [apply forget_keeps_live, HR|done|done].
Qed.

(** * Renewal *)

(** A renewal never makes a session outlive its grant: when the grant was
    shortened after the device authenticated, so that the lease computed from
    the old record would end after it, the renewal is refused and nothing
    changes. *)
Theorem stale_renewal_refused record grant now io note_now sv sv' r s g e :
  reachable sv -> is_Some (s_resource_slot record) ->
  renew_commit record grant now io note_now sv = (sv', r) ->
  find_session (state sv) (s_id record) = Some s -> find_grant (state sv) (s_grant_id s) = Some g ->
  g_expires_at g = Some e -> e < lease_end grant now ->
  is_ok r = false /\ state sv' = state sv /\ disk sv' = disk sv.
Proof.
  intros HR%reachable_inv Hslot HC Hs Hg He Hlt.
  pose proof (renew_commit_triple sv record grant now io note_now HR Hslot sv ltac:(done)) as HT. rewrite HC in HT.
  destruct r as [v|err]; [exfalso|by destruct HT as (? & ? & _)].
  destruct HT as (HI' & (ss & Hren & Es) & _). unfold find_session in Hs. unfold renew in Hren.
  destruct (list_find _ (sessions (state sv))) as [[i s0]|] eqn:EF; [|done]. injection Hs as ->. injection Hren as <-.
  apply list_find_Some in EF as (Hi & _ & _).
  destruct (session_grant (state sv') (set_expires_at s (lease_end grant now))) as (g' & Hg' & Eg' & Hle); [apply HI'| |].
  { rewrite Es. cbn. eapply list_elem_of_lookup_2, list_lookup_insert_eq. by eapply lookup_lt_Some. }
  destruct (find_grant_some _ _ _ Hg) as [Hgin Hgid]. cbn in Eg', Hle. rewrite Es in Hg'. cbn in Hg'.
  assert (g' = g) as -> by (eapply (NoDup_key_inj g_id); [apply HR|done|done|congruence]).
  specialize (Hle e He). lia.
Qed.

(** A device that renews keeps its slot and gets the lease the grant allows
    from now on; no other session changes. *)
Theorem renew_extends_lease token pool auth_now now io note_now sv sv' v :
  reachable sv -> renew_session token pool auth_now now io note_now sv = (sv', Ok v) ->
  exists i s g, sessions (state sv) !! i = Some s /\ find_grant (state sv) (s_grant_id s) = Some g /\
    sv_id v = s_id s /\ s_resource_slot s = Some (sv_resource_slot v) /\ sv_expires_at v = lease_end g now /\
    grants (state sv') = grants (state sv) /\
    sessions (state sv') = <[i := set_expires_at s (lease_end g now)]> (sessions (state sv)).
Proof.
  intros HR%reachable_inv. unfold renew_session, bind.
  destruct (authenticate token pool auth_now sv) as [sv1 [[s g]|e]] eqn:EA; [|done].
  pose proof (authenticated_slot _ _ _ _ _ _ _ HR EA) as Hslot.
  apply authenticate_ok in EA as (-> & parts & _ & El & _). apply lookup_session_ok in El as [Es Eg]. intros HC.
  pose proof (renew_commit_triple sv s g now io note_now HR Hslot sv ltac:(done)) as HT. rewrite HC in HT.
  destruct HT as (_ & (ss & Hren & Est) & slot & Hsl & ->).
  apply renew_some in Hren as (i & s' & Hi & Hid & ->). rewrite Est.
  assert (s' = s) as ->.
  { apply find_session_some in Es as [Hin Eid].
    eapply (NoDup_key_inj s_id); [apply HR|by eapply list_elem_of_lookup_2|done|done]. }
  exists i, s, g. split_and!; done.
Qed.
End expiry.

Lemma expire_sessions_effect_witness :
  sessions (state (expire_sessions (demo_now + 3605) IoOk (demo_now + 3605) demo_two).1) = [demo_second].
Proof.
  assert ((expire_sessions (demo_now + 3605) IoOk (demo_now + 3605) demo_two).2 =
    Ok [mkAllocation (str "Session00001") 0]) as HE by (vm_compute; reflexivity).
  destruct (expire_sessions_effect _ _ _ _ _ _ demo_reachable_two (result_of _ _ HE)) as [Hs _].
  rewrite Hs. vm_compute. reflexivity.
Defined.

(** The demo grant as it was before an admin shortened it. *)
Definition demo_older_grant : AccessGrantRecord :=
  mkGrant (g_id demo_grant) (g_secret_hash demo_grant) (g_label demo_grant) 2 None demo_now false All
    (g_allowance demo_grant) (Some demo_now) None.

Lemma stale_renewal_refused_witness :
  state (renew_commit demo_session demo_older_grant (demo_now + 86000) IoOk (demo_now + 86000) demo_one).1 = state demo_one.
Proof.
  assert (is_Some (s_resource_slot demo_session)) as Hslot by (exists 0; reflexivity).
  assert (find_session (state demo_one) (s_id demo_session) = Some demo_session) as Hs by (vm_compute; reflexivity).
  assert (find_grant (state demo_one) (s_grant_id demo_session) = Some demo_grant) as Hg by (vm_compute; reflexivity).
  assert (demo_now + 86400 < lease_end demo_older_grant (demo_now + 86000)) as Hlt by (vm_compute; reflexivity).
  destruct (renew_commit demo_session demo_older_grant (demo_now + 86000) IoOk (demo_now + 86000) demo_one) as [sv' r] eqn:HC.
  destruct (stale_renewal_refused _ _ _ _ _ _ _ _ _ _ _ demo_reachable_one Hslot HC Hs Hg eq_refl Hlt) as (_ & Hst & _).
  exact Hst.
Defined.

Lemma renew_extends_lease_witness :
  exists i s g, sessions (state demo_one) !! i = Some s /\ s_resource_slot s = Some 0 /\ lease_end g (demo_now + 50) = demo_now + 3650.
Proof.
  assert ((renew_session (demo_token (str "01")) PoolRuns (demo_now + 50) (demo_now + 50) IoOk (demo_now + 50) demo_one).2 =
    Ok (mkView (str "Session00001") (str "Grant00001") 0 (str "Phone") (demo_now + 3650) (Some (demo_now + 86400)) All
          (Some (mkStatus (mkAllowance 4194304 Day) 0 1792368000)))) as HV by (vm_compute; reflexivity).
  destruct (renew_extends_lease _ _ _ _ _ _ _ _ _ demo_reachable_one (result_of _ _ HV)) as (i & s & g & Hi & _ & _ & Hs & He & _).
  exists i, s, g. split; [exact Hi|]. split; [exact Hs|]. symmetry. exact He.
Defined.

(** * Enrollment succeeds when the terms are met *)

Lemma trim_start_fix cs : match cs with c :: _ => is_whitespace c = false | [] => True end -> trim_start cs = cs.
Proof. destruct cs as [|c cs]; cbn; [done|]. by intros ->. Qed.

Lemma trim_start_head cs : match trim_start cs with c :: _ => is_whitespace c = false | [] => True end.
Proof. induction cs as [|c cs IH]; cbn; [done|]. by destruct (is_whitespace c) eqn:E. Qed.

Lemma trim_start_suffix cs : exists pre, cs = pre ++ trim_start cs.
Proof.
  induction cs as [|c cs [pre IH]]; cbn; [by exists []|]. destruct (is_whitespace c); [|by exists []].
  exists (c :: pre). cbn. by rewrite <- IH.
Qed.

(** Trimming is idempotent. *)
Lemma trim_chars_idem cs : trim_chars (trim_chars cs) = trim_chars cs.
Proof.
  unfold trim_chars at 2 3. set (l := trim_start (rev (trim_start cs))).
  assert (match rev l with c :: _ => is_whitespace c = false | [] => True end) as Hh.
  { destruct (trim_start_suffix (rev (trim_start cs))) as [pre Hp]. fold l in Hp.
    pose proof (trim_start_head cs) as Hc. destruct (rev l) as [|c r] eqn:E; [done|].
    apply (f_equal (@rev Z)) in Hp. rewrite rev_involutive, rev_app_distr, E in Hp. rewrite Hp in Hc. done. }
  unfold trim_chars. rewrite (trim_start_fix (rev l)) by done. rewrite rev_involutive.
  f_equal. apply trim_start_fix. apply trim_start_head.
Qed.

Lemma trim_chars_incl cs c : c ∈ trim_chars cs -> c ∈ cs.
Proof.
  unfold trim_chars. rewrite !list_elem_of_In, <- in_rev. intros Hin.
  destruct (trim_start_suffix (rev (trim_start cs))) as [p Hp], (trim_start_suffix cs) as [q Hq].
  rewrite Hq. apply in_or_app. right. apply in_rev. rewrite Hp. apply in_or_app. by right.
Qed.

Lemma trim_idem v : trim (trim v) = trim v.
Proof.
  unfold trim at 2 3. destruct (chars v) as [ds|] eqn:Ed; [|unfold trim; by rewrite Ed].
  assert (Forall (fun c => is_char c = true) (trim_chars ds)) as Hch.
  { apply chars_inv in Ed as [Hd _]. apply Forall_forall. intros c Hc%trim_chars_incl.
    rewrite Forall_forall in Hd. by apply Hd. }
  unfold trim. rewrite chars_encode by done. by rewrite trim_chars_idem.
Qed.

Lemma validate_text_valid value field maximum v :
  validate_text value field maximum = Ok v -> valid_text v maximum = true.
Proof.
  unfold validate_text, valid_text. destruct (_ || _) eqn:E; [done|]. intros [= <-].
  apply orb_false_iff in E as [[E1 E2]%orb_false_iff E3]. rewrite E1, E3, trim_idem.
  rewrite (bool_decide_true (trim value = trim value)) by done.
  replace (zlen (trim value) <=? maximum) with true by lia. done.
Qed.

Section enrollment.
Context `{SecretHashing, StateJson, !StateJsonLaws, NodeConfig}.

(** The state with the new session is valid. *)
Lemma admitted_state_wf st now g s :
  state_wf st -> g ∈ grants st -> s_grant_id s = g_id g ->
  valid_identifier (s_id s) (Z.of_nat SESSION_ID_LENGTH) = true ->
  validate_session (g_expires_at g) s = Ok tt ->
  Forall (fun x => s_id x <> s_id s) (live_sessions now st) ->
  (forall n, s_resource_slot s = Some n -> n ∉ session_slots (live_sessions now st)) ->
  state_wf (with_sessions st (live_sessions now st ++ [s])).
Proof.
  intros Hwf Hg Hsg Hid Hv Hnew Hslot.
  assert (live_sessions now st `sublist_of` sessions st) as Hsub by apply sublist_filter.
  constructor; cbn.
  - apply Hwf.
  - apply Hwf.
  - apply Forall_app. split; [by eapply sublist_Forall; [exact Hsub|apply Hwf]|]. constructor; [|constructor].
    split; [done|]. exists g. done.
  - rewrite map_app. apply NoDup_app. split_and!; [eapply sublist_NoDup_map; [exact Hsub|apply Hwf]| |apply NoDup_singleton].
    intros id Hin ->%list_elem_of_singleton. apply elem_of_map in Hin as (x & E & Hx).
    rewrite Forall_forall in Hnew. by apply (Hnew x Hx).
  - unfold session_slots in *. rewrite omap_app. apply NoDup_app.
    split_and!; [eapply sublist_NoDup_omap; [exact Hsub|apply Hwf]| |].
    + intros n Hin Hin2. cbn in Hin2. destruct (s_resource_slot s) as [m|] eqn:Em; [|by apply not_elem_of_nil in Hin2].
      apply list_elem_of_singleton in Hin2 as ->. by apply (Hslot m).
    + cbn. destruct (s_resource_slot s); [apply NoDup_singleton|constructor].
Qed.

(** With fewer sessions than slots one is free. *)
Lemma free_slot_exists used :
  zlen used < max_sessions -> exists n, free_slot max_sessions used = Some n.
Proof.
  intros Hl. destruct (free_slot max_sessions used) as [n|] eqn:E; [by exists n|exfalso].
  pose proof (free_slot_none _ _ E) as HU. pose proof (seqZ_in_length used (Z.to_nat max_sessions)) as Hs.
  pose proof max_sessions_range. cut (Z.to_nat max_sessions <= length used)%nat; [unfold zlen in Hl; lia|].
  apply Hs. intros k Hk. apply HU. lia.
Qed.

(** A commit of a valid state fails only for its size or its encoding. *)
Lemma commit_valid next sv :
  state_wf next -> schema_version next = CURRENT_STATE_SCHEMA_VERSION ->
  (commit next IoOk sv).2 = Ok tt \/
  exists e, commit next IoOk sv = (sv, Err (Persistence e)) /\ (e = RepositoryTooLarge \/ e = RepositoryInvalidData).
Proof.
  intros Hwf%validate_ok Hs. unfold commit, bind, store, set_state, store_file. rewrite Hs, Hwf. cbn [map_err].
  rewrite Z.eqb_refl. destruct sv. destruct (to_vec_pretty next) as [b|]; cbn [ok_or]; [|right; eauto].
  destruct (MAX_STATE_FILE_BYTES <? zlen b); cbn; [right; eauto|by left].
Qed.

Lemma live_sessions_count now st id :
  live_count now (grant_sessions id (live_sessions now st)) = live_count now (grant_sessions id (sessions st)).
Proof.
  unfold live_count, grant_sessions, live_sessions. rewrite !list_filter_filter. f_equal.
  apply filter_ext_elem. intros s _. unfold live. rewrite Z.leb_gt, Z.ltb_lt. tauto.
Qed.

Lemma live_sessions_all now st : live_count now (live_sessions now st) = zlen (live_sessions now st).
Proof. unfold live_count. rewrite filter_all; [done|]. apply live_sessions_live. Qed.

Lemma live_sessions_zlen now st : zlen (live_sessions now st) = live_count now (sessions st).
Proof.
  unfold live_count, live_sessions. f_equal. apply filter_ext_elem. intros s _. unfold live. lia.
Qed.

(** The tokens drawn for a session are well formed. *)
Lemma drawn_tokens token random :
  zlen token = SESSION_TOKEN_LENGTH -> forallb is_ascii_alphanumeric token = true ->
  valid_identifier (take SESSION_ID_LENGTH token) (Z.of_nat SESSION_ID_LENGTH) = true /\
  generate_scoped_token (take SESSION_ID_LENGTH token) random = Ok (take SESSION_ID_LENGTH token ++ random).
Proof.
  intros Htl Hta.
  pose proof (split_session_token_inv _ _ (split_session_token_total token Htl Hta)) as (_ & Hl & _ & Ha & _).
  cbn [part_id] in Hl, Ha. unfold generate_scoped_token, validate_alphanumeric, valid_identifier, zlen.
  by rewrite Hl, Ha, Z.eqb_refl.
Qed.

(** The record of a session admitted to a grant that has not ended is valid. *)
Lemma admitted_session_valid g now name client_name id control data slot :
  validate_text name "client_name" MAX_CLIENT_NAME_LENGTH = Ok client_name ->
  (forall e, g_expires_at g = Some e -> now < e) -> now < u64_max -> 0 < session_ttl ->
  validate_session (g_expires_at g)
    (mkSession id (g_id g) None (Some control) data slot client_name now (lease_end g now)) = Ok tt.
Proof.
  intros Hname He Hnow Httl. unfold validate_session, validate_control_hash. cbn.
  rewrite (validate_text_valid _ _ _ _ Hname).
  assert (now < lease_end g now) as Hle.
  { unfold lease_end, sat_add64. destruct (g_expires_at g) as [e|]; [specialize (He e eq_refl)|]; lia. }
  rewrite (proj2 (Z.leb_gt _ _)) by done. cbn. destruct (g_expires_at g) as [e|] eqn:Ee; [|done].
  rewrite (proj2 (Z.ltb_ge _ _)); [done|]. unfold lease_end. rewrite Ee. lia.
Qed.

(** A node with a session to spare has a free slot. *)
Lemma free_slot_live now sv :
  Inv sv -> live_count now (sessions (state sv)) < max_sessions ->
  exists n, free_slot max_sessions (session_slots (live_sessions now (state sv))) = Some n.
Proof.
  intros HR Hcap. apply free_slot_exists. rewrite slots_count, live_sessions_zlen; [done|].
  eapply sublist_Forall; [apply sublist_filter|]. apply assigned_some, HR.
Qed.

(** A new identifier passes the search for one already used. *)
Lemma fresh_identifier now st id :
  (forall s, s ∈ sessions st -> s_id s <> id) ->
  Forall (fun s => s_id s <> id) (live_sessions now st) /\
  existsb (fun s => bool_decide (s_id s = id)) (live_sessions now st) = false.
Proof.
  intros Hnew. assert (Forall (fun s => s_id s <> id) (live_sessions now st)) as Hfresh.
  { apply Forall_forall. intros x [_ Hx]%list_elem_of_filter. by apply Hnew. }
  split; [done|]. apply existsb_false. eapply Forall_impl; [exact Hfresh|]. intros x Hx. by apply bool_decide_false.
Qed.

(** What can be left of an enrollment once every check of the grant passed. *)
Definition enrolled_or_full (r : result ServiceError CreatedSession) : Prop :=
  is_ok r = true \/ exists e, r = Err (Persistence e) /\ (e = RepositoryTooLarge \/ e = RepositoryInvalidData).

Lemma commit_and_note next expired note_now cs sv :
  state_wf next -> schema_version next = CURRENT_STATE_SCHEMA_VERSION ->
  enrolled_or_full (note_refusal (cs_grant_id cs) (cs_client_name cs) note_now
    (do _ <- commit next IoOk in do _ <- note_ended expired LeaseEnded note_now in ret cs) sv).2.
Proof.
  intros Hwf Hs. unfold note_refusal. unfold bind at 1.
  destruct (commit_valid next sv Hwf Hs) as [Hok|(e & -> & Hc)]; [|right; exists e; split; [reflexivity|exact Hc]].
  destruct (commit _ _ sv) as [sv1 r]. cbn in Hok. subst r. unfold bind at 1.
  destruct (note_ended_spec expired LeaseEnded note_now sv1) as (log & -> & _). by left.
Qed.

(** a device whose code is right, for a grant that is not paused, has not
    ended, has data left and room for a device, is enrolled as long as the
    node has a free session: no check of the state about to be written can
    refuse it, only its size or its encoding. *)
Theorem enrollment_succeeds code parts name client_name g now token random note_now sv :
  reachable sv ->
  validate_text name "client_name" MAX_CLIENT_NAME_LENGTH = Ok client_name ->
  split_access_code code = Ok parts -> find_grant (state sv) (part_id parts) = Some g ->
  verify_secret (part_secret parts) (g_secret_hash g) = true ->
  g_paused g = false -> (forall e, g_expires_at g = Some e -> now < e) -> used_up_until g now = None ->
  live_count now (grant_sessions (g_id g) (sessions (state sv))) < g_max_connections g ->
  live_count now (sessions (state sv)) < max_sessions ->
  zlen token = SESSION_TOKEN_LENGTH -> forallb is_ascii_alphanumeric token = true ->
  zlen random = SESSION_SECRET_LENGTH -> forallb is_ascii_alphanumeric random = true ->
  (forall s, s ∈ sessions (state sv) -> s_id s <> take SESSION_ID_LENGTH token) ->
  now < u64_max -> 0 < session_ttl ->
  is_ok (create_session code name now token random PoolRuns IoOk note_now sv).2 = true \/
  exists e, (create_session code name now token random PoolRuns IoOk note_now sv).2 = Err (Persistence e) /\
    (e = RepositoryTooLarge \/ e = RepositoryInvalidData).
Proof.
  intros HR%reachable_inv Hname Hcode Hg Hver Hp He Hu Hlim Hcap Htl Hta Hrl Hra Hnew Hnow Httl.
  change (enrolled_or_full (create_session code name now token random PoolRuns IoOk note_now sv).2).
  unfold create_session, bind at 1, locked at 1, bind at 1, lift at 1, enrollment. rewrite Hname, Hcode. cbn [map_err].
  rewrite Hg. cbn [ok_or]. unfold note_refusal, admit_session.
  unfold bind at 1, verify, run_crypto. rewrite Hver, Hp. cbn [negb].
  unfold bind at 1, lift at 1. rewrite Hu. unfold bind at 1, lift at 1.
  rewrite split_session_token_total by done. cbn [map_err part_id part_secret].
  set (id := take SESSION_ID_LENGTH token). unfold bind at 1, lift at 1.
  destruct (drawn_tokens token random Htl Hta) as [Hid Hsc]. fold id in Hid, Hsc.
  rewrite Hsc. cbn [map_err]. unfold bind at 1, lift at 1. rewrite (scoped_token_splits _ _ _ Hrl Hra Hsc).
  cbn [map_err part_id part_secret]. unfold bind at 1, locked at 1, take_expired_sessions.
  fold (live_sessions now (state sv)).
  destruct (collect_allocations (filter (fun s => s_expires_at s <=? now = true) (sessions (state sv)))) as [al Hal].
  { eapply sublist_Forall; [apply sublist_filter|]. apply assigned_some, HR. }
  unfold bind at 1, lift at 1. rewrite Hal. unfold bind at 1, lift at 1.
  destruct (find_grant_some _ _ _ Hg) as [Hgin Hgid].
  assert (find_grant (with_sessions (state sv) (live_sessions now (state sv))) (g_id g) = Some g) as ->
    by (rewrite Hgid; exact Hg).
  cbn [ok_or].
  replace (match g_expires_at g with Some e => negb (e <=? now) | None => true end) with true
    by (destruct (g_expires_at g) as [e|]; [specialize (He e eq_refl); lia|done]).
  rewrite Hp. cbn [negb]. unfold bind at 1, lift at 1. rewrite Hu. cbn [sessions with_sessions].
  rewrite !(as_u32_count sv) by (done || (try (etransitivity; apply sublist_filter)); apply sublist_filter).
  rewrite live_sessions_count, (proj2 (Z.leb_gt _ _)) by done. cbn [negb].
  rewrite live_sessions_all, live_sessions_zlen, (proj2 (Z.leb_gt _ _)) by done. cbn [negb].
  destruct (free_slot_live now sv HR Hcap) as [n Hn]. unfold bind at 1, lift at 1. rewrite Hn. cbn [ok_or].
  set (s := mkSession _ _ _ _ _ _ _ _ _).
  destruct (fresh_identifier now (state sv) id Hnew) as [Hfresh Hsearch].
  change (s_id s) with id. rewrite Hsearch. cbn [negb].
  match goal with |- context [ret ?c] => apply (commit_and_note
    (with_sessions (state sv) (live_sessions now (state sv) ++ [s])) _ note_now c sv) end; [|apply HR].
  apply (admitted_state_wf _ _ g); [apply HR|done|done|exact Hid| |done|].
  - by eapply admitted_session_valid.
  - intros m [= <-]. apply (free_slot_some _ _ _ Hn).
Qed.
End enrollment.

Lemma enrollment_succeeds_witness :
  is_ok (create_session demo_code (str "Laptop") (demo_now + 5) (demo_token (str "09")) demo_random PoolRuns IoOk
    (demo_now + 5) demo_one).2 = true \/
  exists e, (create_session demo_code (str "Laptop") (demo_now + 5) (demo_token (str "09")) demo_random PoolRuns IoOk
    (demo_now + 5) demo_one).2 = Err (Persistence e) /\ (e = RepositoryTooLarge \/ e = RepositoryInvalidData).
Proof.
  apply (enrollment_succeeds demo_code (mkParts (str "Grant00001") (str "Secret0000000000000001")) (str "Laptop")
    (str "Laptop") demo_grant); try exact demo_reachable_one; try (vm_compute; reflexivity).
  - intros e [= <-]. vm_compute. reflexivity.
  - intros s Hs. assert (sessions (state demo_one) = [demo_session]) as E by (vm_compute; reflexivity).
    rewrite E in Hs. apply list_elem_of_singleton in Hs. rewrite Hs. vm_compute. discriminate.
Defined.

(** * An interleaving that exceeds a lowered device limit *)

Section renewal_race.
Context `{SecretHashing, StateJson, !StateJsonLaws, NodeConfig}.

(** A lapsed session given a new lease is one more that lives. *)
Lemma renewed_count now ss i s e : ss !! i = Some s -> live now s = false -> now < e ->
  live_count now (grant_sessions (s_grant_id s) (<[i := set_expires_at s e]> ss)) = live_count now (grant_sessions (s_grant_id s) ss) + 1.
Proof.
  intros Hi Hl He. assert (live now (set_expires_at s e) = true) as Hl' by (by apply Z.ltb_lt).
  rewrite insert_take_drop by (by eapply lookup_lt_Some). pose proof (take_drop_middle ss i s Hi) as E. symmetry in E.
  transitivity (live_count now (grant_sessions (s_grant_id s) (take i ss ++ s :: drop (S i) ss)) + 1); [|by rewrite <- E]. unfold grant_sessions.
  rewrite !filter_app, !filter_cons, !live_count_app, !decide_True, !live_count_cons, Hl, Hl' by done. lia.
Qed.

(** C36: the device limit of a grant can be exceeded by a renewal: whatever
    happens between authenticating it and storing it, if the lease has run out
    meanwhile while the session is still listed, and the grant's other devices
    now fill its limit - it was lowered, say - the renewal revives the session,
    and more devices are connected than the grant allows. *)
Theorem renewal_race_exceeds_limit sv0 token pool auth_now record grant ops sv s g now io note_now sv' view :
  reachable sv0 -> (authenticate token pool auth_now sv0).2 = Ok (record, grant) -> Forall op_ok ops -> sv = run ops sv0 ->
  s ∈ sessions (state sv) -> s_id s = s_id record -> s_expires_at s <= now ->
  find_grant (state sv) (s_grant_id s) = Some g -> g_max_connections g <= live_count now (grant_sessions (g_id g) (sessions (state sv))) ->
  now < lease_end grant now -> renew_commit record grant now io note_now sv = (sv', Ok view) ->
  find_grant (state sv') (s_grant_id s) = Some g /\ g_max_connections g < live_count now (grant_sessions (g_id g) (sessions (state sv'))).
Proof.
  intros HR HA Hops -> Hs Hid Hlapsed Hg Hmax Hend HC. pose proof (reachable_run ops sv0 HR Hops) as HR'. pose proof (reachable_inv _ HR') as HI.
  assert (is_Some (s_resource_slot record)) as Hslot.
  { destruct (authenticate token pool auth_now sv0) as [sv1 r] eqn:EA. cbn [snd] in HA. subst r. exact (authenticated_slot _ _ _ _ _ _ _ (reachable_inv _ HR) EA). }
  pose proof (renew_commit_triple _ record grant now io note_now HI Hslot _ (conj eq_refl (conj eq_refl (conj eq_refl eq_refl)))) as HT.
  rewrite HC in HT. destruct HT as (_ & (ss & (i & u & Hi & Hu & ->)%renew_some & ->) & _).
  assert (u = s) as -> by (eapply (NoDup_key_inj s_id); [apply (core_wf _ (inv_core _ HI))|by eapply list_elem_of_lookup_2|done|congruence]).
  split; [exact Hg|]. apply find_grant_some in Hg as [_ Eg]. rewrite Eg in *. cbn [sessions with_sessions].
  rewrite (renewed_count now _ i s) by (done || by apply Z.ltb_ge). lia.
Qed.
End renewal_race.

(** The first device's lease has run out but its session is still listed, the
    second one's runs; the limit is lowered to one device. *)
Definition demo_lowering : Op := UpdateGrant (str "Grant00001") demo_one_device (demo_now + 3605) IoOk (demo_now + 3605).
Definition demo_renewed : Service * result ServiceError SessionView :=
  renew_commit demo_session demo_grant (demo_now + 3606) IoOk (demo_now + 3606) (run [demo_lowering] demo_two).
Lemma renewal_race_exceeds_limit_witness :
  1 < live_count (demo_now + 3606) (grant_sessions (str "Grant00001") (sessions (state demo_renewed.1))).
Proof.
  destruct (find_grant (state (run [demo_lowering] demo_two)) (str "Grant00001")) as [g|] eqn:Eg; [|vm_compute in Eg; discriminate Eg].
  assert (g_max_connections g = 1 /\ g_id g = str "Grant00001") as [Hm Hid] by (vm_compute in Eg; injection Eg as <-; done).
  destruct demo_renewed as [sv' r] eqn:ER. assert (r = demo_renewed.2) as Er by (by rewrite ER). destruct r as [view|e]; [|vm_compute in Er; discriminate Er].
  rewrite <- Hm, <- Hid.
  apply (renewal_race_exceeds_limit demo_two (demo_token (str "01")) PoolRuns (demo_now + 3599) demo_session demo_grant [demo_lowering] (run [demo_lowering] demo_two) demo_session g
    (demo_now + 3606) IoOk (demo_now + 3606) sv' view); try exact ER; try exact Eg; try exact demo_reachable_two; try reflexivity.
  - by constructor.
  - apply (bool_decide_unpack _). by vm_compute.
  - apply (bool_decide_unpack _). by vm_compute.
  - rewrite Hm, Hid. apply (bool_decide_unpack _). by vm_compute.
Defined.
