(* ===== verification/Update.v ===== *)
(** Model of crates/ket-update and of the update types of
    crates/ket-core/src/update.rs: release versions, the release manifest with
    its validation, app identities, and the policy by which a server tells an
    app whether it may, should or must update. *)

From Stdlib Require Import ZArith Lia.
From stdpp Require Import strings.
From S2P Require Import Prelude Utf8 Str Allowance.

Inductive UpdateError :=
| InvalidVersion (value : list byte)
| InvalidClientHeader
| InvalidManifest (message : list byte)
| InvalidPolicy (message : list byte).

(** * Versions (version.rs) *)

Record Version := mkVersion { major : Z; minor : Z; patch : Z }.

Global Instance Version_eq_dec : EqDecision Version.
Proof. solve_decision. Defined.

(** The derived order: fields in order. *)
Definition version_compare (v w : Version) : comparison :=
  match Z.compare (major v) (major w) with
  | Eq => match Z.compare (minor v) (minor w) with Eq => Z.compare (patch v) (patch w) | c => c end
  | c => c
  end.
Definition version_ltb (v w : Version) : bool := match version_compare v w with Lt => true | _ => false end.
Definition version_leb (v w : Version) : bool := match version_compare v w with Gt => false | _ => true end.

(** [str::parse::<u32>] of a string of digits. *)
Definition parse_u32 (s : list byte) : option Z :=
  if negb (bool_decide (s = [])) && forallb is_ascii_digit s && (parse_digits s <=? u32_max)
  then Some (parse_digits s) else None.

Definition period_byte : byte := z2b 46.

(** One part of a version: [next()] of [Version::from_str]. *)
Definition version_part (invalid : UpdateError) (part : option (list byte)) : result UpdateError Z :=
  let* part := ok_or part invalid in
  if bool_decide (part = []) || (9 <? zlen part) || negb (forallb is_ascii_digit part)
     || ((1 <? zlen part) && match part with b :: _ => b2z b =? 48 | [] => false end)
  then Err invalid
  else ok_or (parse_u32 part) invalid.

(** [Version::from_str]. *)
Definition version_from_str (value : list byte) : result UpdateError Version :=
  let invalid := InvalidVersion (encode_chars (take 32 (default [] (chars value)))) in
  let parts := split_on period_byte value in
  let* a := version_part invalid (parts !! 0%nat) in
  let* b := version_part invalid (parts !! 1%nat) in
  let* c := version_part invalid (parts !! 2%nat) in
  if bool_decide (is_Some (parts !! 3%nat)) then Err invalid else Ok (mkVersion a b c).

(** [Display for Version]. *)
Definition version_display (v : Version) : list byte :=
  show_u64 (major v) ++ period_byte :: show_u64 (minor v) ++ period_byte :: show_u64 (patch v).

(** * Categories (category.rs) and platforms (identity.rs) *)

Inductive UpdateCategory := OptionalUpdate | RecommendedUpdate | SecurityUpdate | CriticalUpdate.

Global Instance UpdateCategory_eq_dec : EqDecision UpdateCategory.
Proof. solve_decision. Defined.

Definition category_rank (c : UpdateCategory) : Z :=
  match c with OptionalUpdate => 0 | RecommendedUpdate => 1 | SecurityUpdate => 2 | CriticalUpdate => 3 end.
Definition category_as_str (c : UpdateCategory) : list byte :=
  match c with
  | OptionalUpdate => str "optional" | RecommendedUpdate => str "recommended"
  | SecurityUpdate => str "security" | CriticalUpdate => str "critical"
  end.

(** [Iterator::max]: the last of the greatest. *)
Definition max_category (cs : list UpdateCategory) : option UpdateCategory :=
  fold_left (fun best c =>
    match best with
    | Some b => if category_rank b <=? category_rank c then Some c else Some b
    | None => Some c
    end) cs None.

Inductive ClientPlatform := Android | Linux | Macos | Windows.

Global Instance ClientPlatform_eq_dec : EqDecision ClientPlatform.
Proof. solve_decision. Defined.

Definition platform_index (p : ClientPlatform) : nat :=
  match p with Android => 0 | Linux => 1 | Macos => 2 | Windows => 3 end%nat.

Global Program Instance ClientPlatform_countable : Countable ClientPlatform :=
  inj_countable platform_index (fun n => [Android; Linux; Macos; Windows] !! n) _.
Next Obligation. by intros []. Qed.

Definition platform_as_str (p : ClientPlatform) : list byte :=
  match p with Android => str "android" | Linux => str "linux" | Macos => str "macos" | Windows => str "windows" end.
Definition platform_from_str (value : list byte) : result UpdateError ClientPlatform :=
  if bool_decide (value = str "android") then Ok Android
  else if bool_decide (value = str "linux") then Ok Linux
  else if bool_decide (value = str "macos") then Ok Macos
  else if bool_decide (value = str "windows") then Ok Windows
  else Err InvalidClientHeader.

Record ClientIdentity := mkIdentity { platform : option ClientPlatform; client_version : Version }.

Definition LEGACY_CLIENT_VERSION : Version := mkVersion 1 0 1.
Definition MAX_HEADER_LENGTH : Z := 64.
Definition slash : byte := z2b 47.

(** [ClientIdentity::new], [legacy], [parse], [from_header] and [header_value]. *)
Definition identity_new (p : ClientPlatform) (v : Version) : ClientIdentity := mkIdentity (Some p) v.
Definition legacy : ClientIdentity := mkIdentity None LEGACY_CLIENT_VERSION.
Definition identity_parse (value : list byte) : result UpdateError ClientIdentity :=
  require zlen value <=? MAX_HEADER_LENGTH else InvalidClientHeader in
  let* (p, v) := ok_or (split_once slash value) InvalidClientHeader in
  let* p := platform_from_str p in
  let* v := map_err (fun _ => InvalidClientHeader) (version_from_str v) in
  Ok (identity_new p v).
Definition from_header (value : option (list byte)) : ClientIdentity :=
  match value with
  | Some value => match identity_parse value with Ok i => i | Err _ => legacy end
  | None => legacy
  end.
Definition identity_header_value (i : ClientIdentity) : option (list byte) :=
  (fun p => platform_as_str p ++ slash :: version_display (client_version i)) <$> platform i.

(** * The manifest (manifest.rs) *)

Record Release := mkRelease {
  release_version : Version;
  published : list byte;
  client : option UpdateCategory;
  server : option UpdateCategory;
  apps : gmap ClientPlatform UpdateCategory;
  summary : list byte;
  published_epoch_seconds : Z;
}.

Record ReleaseManifest := mkManifest {
  schema : Z;
  security_grace_days : Z;
  releases : list Release;
}.

Definition SCHEMA : Z := 1.
Definition MAX_SUMMARY_CHARS : Z := 200.

(** [Release::client_rating]. *)
Definition client_rating (r : Release) (p : option ClientPlatform) : option UpdateCategory :=
  match p with
  | Some p => if bool_decide (apps r = ∅) then client r else apps r !! p
  | None => client r
  end.

(** [ReleaseManifest::latest] and [security_grace_seconds]. *)
Definition latest (m : ReleaseManifest) : option Release := last (releases m).
Definition security_grace_seconds (m : ReleaseManifest) : Z := security_grace_days m * SECONDS_PER_DAY.

(** Releases after one version up to another. *)
Definition releases_between (m : ReleaseManifest) (installed target : Version) : list Release :=
  filter (fun r => version_ltb installed (release_version r) && version_leb (release_version r) target = true) (releases m).

(** [server_update_category] and [app_update_category]. *)
Definition server_update_category (m : ReleaseManifest) (installed target : Version) : option UpdateCategory :=
  max_category (omap Datatypes.id (flat_map (fun r => [server r; client r]) (releases_between m installed target))).
Definition app_update_category (m : ReleaseManifest) (installed target : Version) (p : ClientPlatform) : option UpdateCategory :=
  max_category (omap (fun r => client_rating r (Some p)) (releases_between m installed target)).

(** [parse_date]: bytes 4 and 7 are hyphens, so the slices are between
    characters. *)
Definition date_number (value : list byte) (from len : nat) : option Z :=
  let part := take len (drop from value) in
  if forallb is_ascii_digit part then parse_u32 part else None.
Definition month_days (year month : Z) : option Z :=
  let leap := (year mod 4 =? 0) && (negb (year mod 100 =? 0) || (year mod 400 =? 0)) in
  if (month =? 1) || (month =? 3) || (month =? 5) || (month =? 7) || (month =? 8) || (month =? 10) || (month =? 12) then Some 31
  else if (month =? 4) || (month =? 6) || (month =? 9) || (month =? 11) then Some 30
  else if month =? 2 then Some (if leap then 29 else 28)
  else None.
Definition date_days (year month day : Z) : Z :=
  let year := year - (if month <=? 2 then 1 else 0) in
  let era := year / 400 in
  let year_of_era := year - era * 400 in
  let day_of_year := (153 * (if 2 <? month then month - 3 else month + 9) + 2) / 5 + day - 1 in
  let day_of_era := year_of_era * 365 + year_of_era / 4 - year_of_era / 100 + day_of_year in
  era * 146097 + day_of_era - 719468.
Definition parse_date (value : list byte) : option Z :=
  if negb (zlen value =? 10) || negb (bool_decide (value !! 4%nat = Some (z2b 45))) || negb (bool_decide (value !! 7%nat = Some (z2b 45)))
  then None
  else
    match date_number value 0 4, date_number value 5 2, date_number value 8 2 with
    | Some year, Some month, Some day =>
      match month_days year month with
      | None => None
      | Some days =>
        if (year <? 1970) || (day =? 0) || (days <? day) then None
        else if date_days year month day <? 0 then None else Some (date_days year month day)
      end
    | _, _, _ => None
    end.

(** The tests on one release, with its day filled in. *)
Definition validate_release (r : Release) : result UpdateError Release :=
  let* day := ok_or (parse_date (published r))
                (InvalidManifest (version_display (release_version r) ++ str " has an invalid published date")) in
  let trimmed := trim (summary r) in
  require negb (bool_decide (trimmed = []) || negb (bool_decide (summary r = trimmed))
                || (MAX_SUMMARY_CHARS <? zlen (default [] (chars (summary r))))
                || match chars (summary r) with Some cs => existsb is_control cs | None => true end)
    else InvalidManifest (version_display (release_version r) ++ str " has an invalid summary") in
  require negb (negb (bool_decide (apps r = ∅))
                && negb (bool_decide (client r = max_category (map snd (map_to_list (apps r))))))
    else InvalidManifest (version_display (release_version r) ++ str " needs a client rating equal to its most urgent app rating") in
  Ok (mkRelease (release_version r) (published r) (client r) (server r) (apps r) (summary r) (day * SECONDS_PER_DAY)).

Fixpoint validate_releases (previous : option Version) (rs : list Release) : result UpdateError (list Release) :=
  match rs with
  | [] => Ok []
  | r :: rs =>
    require (match previous with Some v => negb (version_leb (release_version r) v) | None => true end)
      else InvalidManifest (version_display (release_version r) ++ str " is not newer than the release before it") in
    let* r := validate_release r in
    let* rs := validate_releases (Some (release_version r)) rs in
    Ok (r :: rs)
  end.

(** [ReleaseManifest::validate]. *)
Definition validate_manifest (m : ReleaseManifest) : result UpdateError ReleaseManifest :=
  require schema m =? SCHEMA else InvalidManifest (str "unsupported schema " ++ show_u64 (schema m)) in
  require (1 <=? security_grace_days m) && (security_grace_days m <=? 365)
    else InvalidManifest (str "security_grace_days must be 1-365") in
  require negb (bool_decide (releases m = [])) else InvalidManifest (str "there are no releases") in
  let* rs := validate_releases None (releases m) in
  Ok (mkManifest (schema m) (security_grace_days m) rs).

(** * The policy (policy.rs) *)

Inductive Enforcement := Enforce | Warn.

Global Instance Enforcement_eq_dec : EqDecision Enforcement.
Proof. solve_decision. Defined.

Definition enforcement_from_str (value : list byte) : result UpdateError Enforcement :=
  if bool_decide (value = str "enforce") then Ok Enforce
  else if bool_decide (value = str "warn") then Ok Warn
  else Err (InvalidPolicy (str "enforcement must be enforce or warn")).

Record ClientPolicy := mkPolicy {
  server_version : Version;
  minimum : option Version;
  enforcement : Enforcement;
  download_url : list byte;
}.

(** [ClientPolicy::new]. *)
Definition policy_new (server_version : Version) (minimum : option Version) (enforcement : Enforcement)
    (download_url : list byte) : result UpdateError ClientPolicy :=
  require negb (match minimum with Some v => version_ltb server_version v | None => false end)
    else InvalidPolicy (str "the minimum app version cannot be newer than this server ("
                        ++ version_display server_version ++ str ")") in
  Ok (mkPolicy server_version minimum enforcement download_url).

Inductive ClientUpdateStatus := Current | OptionalStatus | RecommendedStatus | SecurityStatus | Required.

Global Instance ClientUpdateStatus_eq_dec : EqDecision ClientUpdateStatus.
Proof. solve_decision. Defined.

Definition status_rank (s : ClientUpdateStatus) : Z :=
  match s with Current => 0 | OptionalStatus => 1 | RecommendedStatus => 2 | SecurityStatus => 3 | Required => 4 end.

Record ClientUpdate := mkUpdateAdvice {
  update_status : ClientUpdateStatus;
  latest_version : list byte;
  required_after : option Z;
  update_summary : option (list byte);
  update_download_url : list byte;
}.

(** The status, its summary and the deadline as the loop carries them. *)
Record Rating := mkRating { rated_status : ClientUpdateStatus; rated_summary : option (list byte); rated_after : option Z }.

(** One release's status at [now], and its deadline while it is not due. *)
Definition rate_release (grace now : Z) (r : Release) (category : UpdateCategory) : ClientUpdateStatus * option Z :=
  match category with
  | OptionalUpdate => (OptionalStatus, None)
  | RecommendedUpdate => (RecommendedStatus, None)
  | CriticalUpdate => (Required, None)
  | SecurityUpdate =>
    let deadline := sat_add64 (published_epoch_seconds r) grace in
    if deadline <=? now then (Required, None) else (SecurityStatus, Some deadline)
  end.

(** The body of the loop. *)
Definition evaluate_step (grace now : Z) (p : option ClientPlatform) (acc : Rating) (r : Release) : Rating :=
  match client_rating r p with
  | None => acc
  | Some category =>
    let '(rated, deadline) := rate_release grace now r category in
    let after :=
      match deadline with
      | Some d => Some (match rated_after acc with Some due => Z.min due d | None => d end)
      | None => rated_after acc
      end in
    if status_rank (rated_status acc) <=? status_rank rated
    then mkRating rated (Some (summary r)) after
    else mkRating (rated_status acc) (rated_summary acc) after
  end.

(** [ClientPolicy::evaluate]. *)
Definition rate (policy : ClientPolicy) (m : ReleaseManifest) (c : ClientIdentity) (now : Z) : Rating :=
  match minimum policy with
  | Some v =>
    if version_ltb (client_version c) v
    then mkRating Required (Some (str "This server requires Ket " ++ version_display v ++ str " or newer.")) None
    else fold_left (evaluate_step (security_grace_seconds m) now (platform c))
           (releases_between m (client_version c) (server_version policy)) (mkRating Current None None)
  | None =>
    fold_left (evaluate_step (security_grace_seconds m) now (platform c))
      (releases_between m (client_version c) (server_version policy)) (mkRating Current None None)
  end.
Definition evaluate (policy : ClientPolicy) (m : ReleaseManifest) (c : ClientIdentity) (now : Z) : ClientUpdate :=
  let '(mkRating status summary after) := rate policy m c now in
  let '(status, after) :=
    if bool_decide (status = Required) && bool_decide (enforcement policy = Warn) then (SecurityStatus, None) else (status, after) in
  let after := if bool_decide (status = SecurityStatus) then after else None in
  mkUpdateAdvice status (version_display (server_version policy)) after summary (download_url policy).

(** [updates::is_required]. *)
Definition is_required (u : ClientUpdate) : bool := bool_decide (update_status u = Required).
