(* ===== verification/UpdateProps.v ===== *)
(** Theorems about versions and the update policy. *)

From Stdlib Require Import ZArith Lia.
From stdpp Require Import strings.
From S2P Require Import Prelude Utf8 Str Allowance Update.

#[local] Ltac Zify.zify_post_hook ::= Z.div_mod_to_equations.

(** * Versions *)

Definition version_ok (v : Version) : Prop :=
  0 <= major v < 10 ^ 9 /\ 0 <= minor v < 10 ^ 9 /\ 0 <= patch v < 10 ^ 9.

Lemma version_part_ok invalid part n :
  version_part invalid (Some part) = Ok n <-> canonical_digits part /\ zlen part <= 9 /\ n = parse_digits part.
Proof.
  unfold version_part, canonical_digits. cbn [ok_or].
  destruct (decide (part = [])) as [->|Hne]; [naive_solver|]. rewrite bool_decide_false by done. cbn [orb].
  destruct (Z.ltb_spec 9 (zlen part)); cbn [orb]; [naive_solver lia|].
  destruct (forallb is_ascii_digit part) eqn:HF; cbn [negb orb]; [|naive_solver].
  assert (parse_u32 part = Some (parse_digits part)) as Hp.
  { unfold parse_u32. rewrite bool_decide_false, HF by done. cbn [negb andb].
    pose proof (parse_digits_bound part HF) as Hb.
    assert (10 ^ zlen part <= 10 ^ 9) by (apply Z.pow_le_mono_r; lia).
    rewrite (proj2 (Z.leb_le _ _)); [done|]. unfold u32_max. lia. }
  destruct part as [|b r]; [done|]. rewrite Hp. cbn [ok_or].
  destruct (Z.ltb_spec 1 (zlen (b :: r))); cbn [andb].
  - destruct (Z.eqb_spec (b2z b) 48).
    + split; [done|]. intros ((_ & _ & Hl) & _). destruct Hl as (x & y & [= <- _] & Hx); [lia|done].
    + split; [intros [= <-]; split_and!; try done; by exists b, r|naive_solver].
  - split; [intros [= <-]; split_and!; try done; lia|naive_solver].
Qed.

Lemma period_not_digit s : forallb is_ascii_digit s = true -> period_byte ∉ s.
Proof.
  intros HF Hin. apply forallb_Forall in HF. rewrite Forall_forall in HF. specialize (HF _ Hin). done.
Qed.

Lemma split_three a b c :
  period_byte ∉ a -> period_byte ∉ b -> period_byte ∉ c ->
  split_on period_byte (a ++ period_byte :: b ++ period_byte :: c) = [a; b; c].
Proof. intros. by rewrite !split_on_app, split_on_single by done. Qed.

Lemma version_one_spelling_aux s v :
  version_from_str s = Ok v <-> s = version_display v /\ version_ok v.
Proof.
  unfold version_from_str. set (invalid := InvalidVersion _). split.
  - intros HP. pose proof (join_split period_byte s) as Hj. destruct (split_on period_byte s) as [|a [|b [|c [|d r]]]] eqn:Es;
      cbn [lookup list_lookup] in HP; try (by (destruct (version_part invalid (Some a)); [|done]; try done;
        destruct (version_part invalid (Some b)); done)); try done.
    + destruct (version_part invalid (Some a)) as [x|] eqn:Ea; [|done].
      destruct (version_part invalid (Some b)) as [y|] eqn:Eb; [|done].
      destruct (version_part invalid (Some c)) as [z|] eqn:Ec; [|done]. injection HP as <-.
      apply version_part_ok in Ea as (Ca & La & ->), Eb as (Cb & Lb & ->), Ec as (Cc & Lc & ->).
      split.
      * rewrite <- Hj. unfold version_display. cbn [major minor patch join]. by rewrite !show_u64_parse.
      * unfold version_ok. cbn [major minor patch].
        assert (forall l, canonical_digits l -> zlen l <= 9 -> 0 <= parse_digits l < 10 ^ 9) as Hb.
        { intros l (_ & HF & _) Hl. pose proof (parse_digits_bound l HF).
          assert (10 ^ zlen l <= 10 ^ 9) by (apply Z.pow_le_mono_r; lia). lia. }
        auto.
    + destruct (version_part invalid (Some a)); [|done]. destruct (version_part invalid (Some b)); [|done].
      destruct (version_part invalid (Some c)); done.
  - intros [-> (Ha & Hb & Hc)]. destruct v as [x y z]. cbn [major minor patch] in *. unfold version_display. cbn [major minor patch].
    destruct (show_u64_digits x Ha) as (Cx & Lx & Px), (show_u64_digits y Hb) as (Cy & Ly & Py), (show_u64_digits z Hc) as (Cz & Lz & Pz).
    rewrite split_three by (apply period_not_digit; [apply Cx || apply Cy || apply Cz]).
    cbn [lookup list_lookup].
    rewrite (proj2 (version_part_ok invalid (show_u64 x) x)) by done.
    rewrite (proj2 (version_part_ok invalid (show_u64 y) y)) by done.
    rewrite (proj2 (version_part_ok invalid (show_u64 z) z)) by done. done.
Qed.

(** Every version has one spelling: a string is read as version [v] exactly
    when it is how [v] prints, and every version with parts of up to nine
    digits is read back. *)
Theorem version_one_spelling s v :
  version_from_str s = Ok v <-> s = version_display v /\ version_ok v.
Proof. apply version_one_spelling_aux. Qed.

(** * The policy *)

Lemma status_rank_range s : 0 <= status_rank s <= 4.
Proof. destruct s; cbn; lia. Qed.

Lemma status_rank_inj s t : status_rank s = status_rank t -> s = t.
Proof. destruct s, t; cbn; done. Qed.

(** The status one release gives an app. *)
Definition release_status (grace now : Z) (p : option ClientPlatform) (r : Release) : ClientUpdateStatus :=
  match client_rating r p with Some c => (rate_release grace now r c).1 | None => Current end.

Lemma evaluate_step_rank grace now p acc r :
  status_rank (rated_status (evaluate_step grace now p acc r)) =
  Z.max (status_rank (rated_status acc)) (status_rank (release_status grace now p r)).
Proof.
  unfold evaluate_step, release_status. pose proof (status_rank_range (rated_status acc)).
  destruct (client_rating r p) as [c|]; [|cbn; lia]. destruct (rate_release grace now r c) as [s d]. cbn [fst].
  destruct (Z.leb_spec (status_rank (rated_status acc)) (status_rank s)); cbn; lia.
Qed.

(** The loop keeps the most urgent status. *)
Lemma evaluate_fold_rank grace now p rs acc k :
  k <= status_rank (rated_status (fold_left (evaluate_step grace now p) rs acc)) <->
  k <= status_rank (rated_status acc) \/ exists r, r ∈ rs /\ k <= status_rank (release_status grace now p r).
Proof.
  revert acc. induction rs as [|r rs IH]; intros acc; cbn [fold_left].
  - split; [by left|]. intros [?|(r & Hr & _)]; [done|]. by apply not_elem_of_nil in Hr.
  - rewrite IH, evaluate_step_rank. setoid_rewrite elem_of_cons. split.
    + intros [?|(x & ? & ?)]; [|by right; exists x; auto].
      destruct (Z.le_gt_cases k (status_rank (rated_status acc))); [by left|]. right. exists r. split; [by left|lia].
    + intros [?|(x & [->|?] & ?)]; [left; lia|left; lia|right; by exists x].
Qed.

Lemma version_compare_spec v w :
  match version_compare v w with
  | Eq => major v = major w /\ minor v = minor w /\ patch v = patch w
  | Lt => major v < major w \/ major v = major w /\ (minor v < minor w \/ minor v = minor w /\ patch v < patch w)
  | Gt => major v > major w \/ major v = major w /\ (minor v > minor w \/ minor v = minor w /\ patch v > patch w)
  end.
Proof.
  unfold version_compare. destruct (Z.compare_spec (major v) (major w)), (Z.compare_spec (minor v) (minor w)),
    (Z.compare_spec (patch v) (patch w)); lia.
Qed.

Lemma version_leb_ltb_trans u v w : version_leb u v = true -> version_ltb v w = true -> version_ltb u w = true.
Proof.
  unfold version_leb, version_ltb. pose proof (version_compare_spec u v). pose proof (version_compare_spec v w).
  pose proof (version_compare_spec u w).
  destruct (version_compare u v), (version_compare v w), (version_compare u w); try done; lia.
Qed.

Lemma releases_between_elem m v w r :
  r ∈ releases_between m v w <-> r ∈ releases m /\ version_ltb v (release_version r) = true /\ version_leb (release_version r) w = true.
Proof. unfold releases_between. rewrite list_elem_of_filter, andb_true_iff. tauto. Qed.

(** The app is below the operator's minimum. *)
Definition below_minimum (policy : ClientPolicy) (c : ClientIdentity) : bool :=
  match minimum policy with Some v => version_ltb (client_version c) v | None => false end.

Lemma rate_below policy m c now : below_minimum policy c = true -> rated_status (rate policy m c now) = Required.
Proof. unfold below_minimum, rate. destruct (minimum policy) as [v|]; [|done]. by intros ->. Qed.

Lemma rate_not_below policy m c now :
  below_minimum policy c = false ->
  rate policy m c now = fold_left (evaluate_step (security_grace_seconds m) now (platform c))
    (releases_between m (client_version c) (server_version policy)) (mkRating Current None None).
Proof. unfold below_minimum, rate. destruct (minimum policy) as [v|]; [|done]. by intros ->. Qed.

Lemma rate_rank policy m c now k :
  0 < k ->
  k <= status_rank (rated_status (rate policy m c now)) <->
  below_minimum policy c = true /\ k <= 4 \/
  below_minimum policy c = false /\ exists r, r ∈ releases_between m (client_version c) (server_version policy) /\
    k <= status_rank (release_status (security_grace_seconds m) now (platform c) r).
Proof.
  intros Hk. destruct (below_minimum policy c) eqn:E.
  - rewrite rate_below by done. cbn. naive_solver.
  - rewrite rate_not_below, evaluate_fold_rank by done. cbn. split.
    + intros [?|?]; [lia|]. by right.
    + intros [[? _]|[_ ?]]; [done|]. by right.
Qed.

(** What [evaluate] makes of the rating. *)
Definition soften (e : Enforcement) (s : ClientUpdateStatus) : ClientUpdateStatus :=
  match e, s with Warn, Required => SecurityStatus | _, _ => s end.

Lemma evaluate_status policy m c now :
  update_status (evaluate policy m c now) = soften (enforcement policy) (rated_status (rate policy m c now)).
Proof.
  unfold evaluate. destruct (rate policy m c now) as [s sum after]. cbn.
  destruct s, (enforcement policy); reflexivity.
Qed.

Lemma soften_mono e s t : status_rank s <= status_rank t -> status_rank (soften e s) <= status_rank (soften e t).
Proof. destruct e, s, t; cbn; lia. Qed.

(** A release is due for an app: critical, or a security fix past its grace. *)
Definition due (m : ReleaseManifest) (p : option ClientPlatform) (now : Z) (r : Release) : Prop :=
  client_rating r p = Some CriticalUpdate \/
  client_rating r p = Some SecurityUpdate /\ sat_add64 (published_epoch_seconds r) (security_grace_seconds m) <= now.

Lemma release_required m now p r :
  4 <= status_rank (release_status (security_grace_seconds m) now p r) <-> due m p now r.
Proof.
  unfold release_status, due. destruct (client_rating r p) as [[]|]; cbn; try naive_solver lia.
  destruct (Z.leb_spec (sat_add64 (published_epoch_seconds r) (security_grace_seconds m)) now); cbn; naive_solver lia.
Qed.

Lemma required_rank s : s = Required <-> 4 <= status_rank s.
Proof. destruct s; cbn; naive_solver lia. Qed.

Lemma required_iff policy m c now :
  is_required (evaluate policy m c now) = true <->
  enforcement policy = Enforce /\
  (below_minimum policy c = true \/
   exists r, r ∈ releases m /\ version_ltb (client_version c) (release_version r) = true /\
     version_leb (release_version r) (server_version policy) = true /\ due m (platform c) now r).
Proof.
  unfold is_required. rewrite bool_decide_eq_true, evaluate_status.
  pose proof (rate_rank policy m c now 4 ltac:(lia)) as HR. rewrite <- required_rank in HR.
  setoid_rewrite release_required in HR. setoid_rewrite releases_between_elem in HR.
  assert (soften (enforcement policy) (rated_status (rate policy m c now)) = Required <->
          enforcement policy = Enforce /\ rated_status (rate policy m c now) = Required) as ->.
  { destruct (enforcement policy), (rated_status (rate policy m c now)); cbn; naive_solver. }
  rewrite HR. destruct (below_minimum policy c); split.
  - intros [? _]. auto.
  - intros [? _]. split; [done|]. left. split; [done|lia].
  - intros [? [[? _]|(_ & r & (? & ? & ?) & ?)]]; [done|]. split; [done|]. right. by exists r.
  - intros [? [?|(r & ? & ? & ? & ?)]]; [done|]. split; [done|]. right. split; [done|]. by exists r.
Qed.

(** a server refuses an app exactly when it enforces updates and the app is
    older than the operator's minimum, or some release newer than the app, up
    to the server's own, is critical for its platform or a security fix whose
    grace period has passed. *)
Theorem required_exactly_when_due policy m c now :
  is_required (evaluate policy m c now) = true <->
  enforcement policy = Enforce /\
  ((exists v, minimum policy = Some v /\ version_ltb (client_version c) v = true) \/
   exists r, r ∈ releases m /\ version_ltb (client_version c) (release_version r) = true /\
     version_leb (release_version r) (server_version policy) = true /\
     (client_rating r (platform c) = Some CriticalUpdate \/
      client_rating r (platform c) = Some SecurityUpdate /\
      sat_add64 (published_epoch_seconds r) (security_grace_seconds m) <= now)).
Proof.
  rewrite required_iff. unfold below_minimum, due.
  destruct (minimum policy) as [v|]; [|naive_solver]. split; intros [? [?|?]]; (split; [done|]); naive_solver.
Qed.

Lemma release_status_later grace now now' p r :
  now <= now' -> status_rank (release_status grace now p r) <= status_rank (release_status grace now' p r).
Proof.
  intros Hn. unfold release_status. destruct (client_rating r p) as [[]|]; cbn; try lia.
  destruct (Z.leb_spec (sat_add64 (published_epoch_seconds r) grace) now),
    (Z.leb_spec (sat_add64 (published_epoch_seconds r) grace) now'); cbn; lia.
Qed.

(** Advice only gets more urgent with time and with the age of the app: at
    a later time, or to an older app of the same platform, a server never gives
    a milder status. *)
Theorem advice_monotone policy m p v v' now now' :
  version_leb v' v = true -> now <= now' ->
  status_rank (update_status (evaluate policy m (mkIdentity p v) now)) <=
  status_rank (update_status (evaluate policy m (mkIdentity p v') now')).
Proof.
  intros Hv Hn. rewrite !evaluate_status. apply soften_mono.
  destruct (Z.le_gt_cases (status_rank (rated_status (rate policy m (mkIdentity p v) now))) 0) as [|Hpos].
  { pose proof (status_rank_range (rated_status (rate policy m (mkIdentity p v') now'))). lia. }
  apply rate_rank; [lia|].
  pose proof (proj1 (rate_rank policy m (mkIdentity p v) now _ Hpos) (Z.le_refl _)) as HR.
  pose proof (status_rank_range (rated_status (rate policy m (mkIdentity p v) now))).
  destruct HR as [[Hb _]|(Hb & r & Hr & Hk)].
  - left. split; [|lia]. unfold below_minimum in *. destruct (minimum policy) as [w|]; [|done].
    cbn in *. by eapply version_leb_ltb_trans.
  - destruct (below_minimum policy (mkIdentity p v')); [left; split; [done|lia]|right]. split; [done|].
    exists r. apply releases_between_elem in Hr as (Hin & Hlt & Hle). split.
    + apply releases_between_elem. split_and!; [done| |done]. cbn in *. by eapply version_leb_ltb_trans.
    + pose proof (release_status_later (security_grace_seconds m) now now' p r Hn). cbn in *. lia.
Qed.

Lemma evaluate_fold_after grace now p rs acc d :
  rated_after (fold_left (evaluate_step grace now p) rs acc) = Some d ->
  rated_after acc = Some d \/
  exists r, r ∈ rs /\ client_rating r p = Some SecurityUpdate /\ sat_add64 (published_epoch_seconds r) grace = d /\ now < d.
Proof.
  revert acc. induction rs as [|r rs IH]; intros acc HF; [by left|]. cbn [fold_left] in HF.
  destruct (IH _ HF) as [Ha|(x & Hx & ?)]; [|right; exists x; split; [by right|done]].
  unfold evaluate_step in Ha. destruct (client_rating r p) as [c|] eqn:Ec; [|by left].
  destruct (rate_release grace now r c) as [s o] eqn:Er.
  assert (match o with Some x => Some (match rated_after acc with Some y => Z.min y x | None => x end) | None => rated_after acc end
          = Some d) as Ha' by (destruct (_ <=? _); exact Ha).
  destruct o as [x|]; [|by left]. injection Ha' as <-.
  destruct c; cbn in Er; try done.
  destruct (Z.leb_spec (sat_add64 (published_epoch_seconds r) grace) now); [done|]. injection Er as _ <-.
  assert (exists z, z ∈ r :: rs /\ client_rating z p = Some SecurityUpdate /\
    sat_add64 (published_epoch_seconds z) grace = sat_add64 (published_epoch_seconds r) grace /\
    now < sat_add64 (published_epoch_seconds r) grace) as Hr by (exists r; split_and!; [left|done..]).
  destruct (rated_after acc) as [y|]; [|by right].
  destruct (Z.min_spec y (sat_add64 (published_epoch_seconds r) grace)) as [[_ ->]|[_ ->]]; [by left|by right].
Qed.

(** A deadline comes with a security status and is in the future: the app is
    not refused yet, and a server that enforces updates refuses it from that
    moment on. *)
Theorem deadline_is_kept policy m c now d :
  required_after (evaluate policy m c now) = Some d ->
  update_status (evaluate policy m c now) = SecurityStatus /\ now < d /\
  (enforcement policy = Enforce -> forall now', d <= now' -> is_required (evaluate policy m c now') = true) /\
  is_required (evaluate policy m c now) = false.
Proof.
  intros HA. destruct (below_minimum policy c) eqn:Hb.
  { exfalso. unfold evaluate in HA. pose proof (rate_below policy m c now Hb) as Hs.
    destruct (rate policy m c now) as [s sum after]. cbn in Hs. subst s. by destruct (enforcement policy). }
  assert (update_status (evaluate policy m c now) = SecurityStatus /\
          rated_after (rate policy m c now) = Some d) as [Hs Ha].
  { unfold evaluate in *. destruct (rate policy m c now) as [s sum after].
    destruct s, (enforcement policy); cbn in *; done. }
  rewrite rate_not_below in Ha by done. apply evaluate_fold_after in Ha as [?|(r & Hr & Hc & <- & Hlt)]; [done|].
  apply releases_between_elem in Hr as (Hin & Hvlt & Hvle). split_and!; [done|done| |by unfold is_required; rewrite Hs].
  intros He now' Hn. apply required_iff. split; [done|]. right. exists r. split_and!; try done. right. done.
Qed.

(** * A concrete policy *)

Definition demo_release (v : Version) (c : UpdateCategory) (published : Z) : Release :=
  mkRelease v (str "2026-10-18") (Some c) None ∅ (str "A fix.") published.
Definition demo_manifest : ReleaseManifest :=
  mkManifest 1 14 [demo_release (mkVersion 1 0 1) OptionalUpdate 1000; demo_release (mkVersion 1 1 0) SecurityUpdate 2000].
Definition demo_policy : ClientPolicy := mkPolicy (mkVersion 1 1 0) None Enforce (str "https://example.org").

Lemma deadline_is_kept_witness :
  is_required (evaluate demo_policy demo_manifest (mkIdentity (Some Linux) (mkVersion 1 0 1)) 1211600) = true.
Proof.
  assert (required_after (evaluate demo_policy demo_manifest (mkIdentity (Some Linux) (mkVersion 1 0 1)) 5000) = Some 1211600)
    as HA by (vm_compute; reflexivity).
  destruct (deadline_is_kept _ _ _ _ _ HA) as (_ & _ & Hk & _).
  apply Hk; [reflexivity|]. lia.
Defined.

Lemma advice_monotone_witness :
  status_rank (update_status (evaluate demo_policy demo_manifest (mkIdentity None (mkVersion 1 1 0)) 5000)) <=
  status_rank (update_status (evaluate demo_policy demo_manifest (mkIdentity None (mkVersion 1 0 1)) 9000)).
Proof. apply advice_monotone; [vm_compute; reflexivity|lia]. Defined.

(** * Headers *)

(** An app is recognised by the header it sends: the header of any named
    platform and version is read back as exactly that identity. *)
Theorem header_roundtrip p v h :
  version_ok v -> identity_header_value (identity_new p v) = Some h -> from_header (Some h) = identity_new p v.
Proof.
  intros Hv. unfold identity_header_value, identity_new. cbn [platform client_version fmap option_fmap option_map].
  intros [= <-]. unfold from_header, identity_parse.
  assert (zlen (platform_as_str p ++ slash :: version_display v) <= MAX_HEADER_LENGTH) as Hl.
  { destruct Hv as (Ha & Hb & Hc). unfold version_display.
    destruct (show_u64_digits _ Ha) as (_ & ? & _), (show_u64_digits _ Hb) as (_ & ? & _), (show_u64_digits _ Hc) as (_ & ? & _).
    assert (forall (x : byte) l, zlen (x :: l) = 1 + zlen l) as Hcons by (intros; unfold zlen; cbn [length]; lia).
    rewrite !zlen_app, Hcons, zlen_app, Hcons, zlen_app, Hcons. unfold MAX_HEADER_LENGTH.
    assert (zlen (platform_as_str p) <= 7) by (destruct p; vm_compute; discriminate). lia. }
  rewrite (proj2 (Z.leb_le _ _)) by done. rewrite split_once_app by (destruct p; vm_compute; set_solver).
  cbn [ok_or]. assert (platform_from_str (platform_as_str p) = Ok p) as -> by (destruct p; reflexivity).
  rewrite (proj2 (version_one_spelling_aux _ v)) by done. done.
Qed.

Lemma header_roundtrip_witness : from_header (Some (str "android/1.2.0")) = identity_new Android (mkVersion 1 2 0).
Proof. apply header_roundtrip; [repeat split; vm_compute; congruence|vm_compute; reflexivity]. Defined.
