(* ===== verification/Seal.v ===== *)
(** Model of crates/ket-seal: control messages sealed to a node's Ed25519
    identity with HPKE, and the answers sealed to the request. *)

From Stdlib Require Import ZArith Lia.
From stdpp Require Import strings.
From S2P Require Import Prelude Vendor.

Definition SEAL_VERSION : byte := z2b 1.
Definition MAX_SEALED_BYTES : Z := 256 * 1024.
Definition ENCAPSULATED_KEY_BYTES : nat := 32.
Definition RESPONSE_SECRET_BYTES : nat := 32.
Definition RESPONSE_NONCE_BYTES : nat := 32.
Definition KEY_BYTES : nat := 32.
Definition NONCE_BYTES : nat := 12.
Definition INFO_DOMAIN : list byte := str "KET-SEAL-V1 request".
Definition RESPONSE_EXPORT_LABEL : list byte := str "KET-SEAL-V1 response".

(** Every failure is the same to a caller. *)
Inductive SealError := NotSealed.

(** The X25519 forms of Ed25519 keys (ed25519-dalek), HPKE's base mode (hpke),
    HKDF (hkdf) and ChaCha20-Poly1305 (chacha20poly1305).  A sender's context
    depends on the fresh randomness [setup_sender] draws. *)
Class Hpke := {
  vk_to_montgomery : list byte -> list byte;
  sk_to_scalar_bytes : list byte -> list byte;
  pk_from_bytes_ok : list byte -> bool;
  sk_to_pk : list byte -> list byte;
  HpkeContext : Type;
  setup_sender (random pk info : list byte) : option (list byte * HpkeContext);
  enc_from_bytes_ok : list byte -> bool;
  setup_receiver (sk enc info : list byte) : option HpkeContext;
  context_seal : HpkeContext -> list byte -> list byte -> option (list byte);
  context_open : HpkeContext -> list byte -> list byte -> option (list byte);
  context_export : HpkeContext -> list byte -> nat -> option (list byte);
  hkdf_expand (salt ikm info : list byte) (n : nat) : option (list byte);
  aead_encrypt (key nonce plaintext : list byte) : option (list byte);
  aead_decrypt (key nonce ciphertext : list byte) : option (list byte);
}.

(** RFC 9180: the receiver of an encapsulated key has the context of its
    sender, the ciphertext is a tag of 16 bytes longer, an export has the
    length asked for.  RFC 7748: the two forms of a node's key belong
    together.  RFC 8439: decryption inverts encryption. *)
Class HpkeLaws `{Ed25519, Hpke} : Prop := {
  scalar_matches seed : vk_to_montgomery (sk_verifying_key seed) = sk_to_pk (sk_to_scalar_bytes seed);
  sender_receiver random sk info enc context : setup_sender random (sk_to_pk sk) info = Some (enc, context) ->
    length enc = ENCAPSULATED_KEY_BYTES /\ enc_from_bytes_ok enc = true /\
    exists context', setup_receiver sk enc info = Some context' /\
      (forall plaintext aad ciphertext, context_seal context plaintext aad = Some ciphertext ->
        context_open context' ciphertext aad = Some plaintext) /\
      forall label n, context_export context' label n = context_export context label n;
  seal_length context plaintext aad ciphertext : context_seal context plaintext aad = Some ciphertext ->
    length ciphertext = (length plaintext + 16)%nat;
  export_length context label n secret : context_export context label n = Some secret -> length secret = n;
  decrypt_encrypt key nonce plaintext ciphertext : aead_encrypt key nonce plaintext = Some ciphertext ->
    aead_decrypt key nonce ciphertext = Some plaintext;
}.

(** When they succeed: encapsulation to a node's key and the one message of a
    context (RFC 9180), an expansion of at most 255 blocks (RFC 5869), and an
    encryption of at most 256 GiB (RFC 8439), which adds a tag of 16 bytes. *)
Class HpkeTotal `{Hpke} : Prop := {
  sender_total random sk info : is_Some (setup_sender random (sk_to_pk sk) info);
  seal_total context plaintext aad : is_Some (context_seal context plaintext aad);
  export_total context label n : (n <= 255 * 32)%nat -> is_Some (context_export context label n);
  expand_total salt ikm info n : (n <= 255 * 32)%nat -> is_Some (hkdf_expand salt ikm info n);
  encrypt_total key nonce plaintext : zlen plaintext <= 2 ^ 38 - 64 ->
    exists ciphertext, aead_encrypt key nonce plaintext = Some ciphertext /\ length ciphertext = (length plaintext + 16)%nat;
}.

(** [info]. *)
Definition info (node_public_key : list byte) : list byte := INFO_DOMAIN ++ node_public_key.

(** * keys.rs *)

Record NodeSealingKey := mkSealingKey { sealing_ed25519 : list byte; sealing_x25519 : list byte }.
Record NodeOpeningKey := mkOpeningKey { opening_ed25519 : list byte; opening_x25519 : list byte }.

(** * response.rs: both halves keep the encapsulated key and the secret. *)

Record ResponseKey := mkResponseKey { key_enc : list byte; key_secret : list byte }.

Section seal.
Context `{Ed25519, Hpke}.

(** [NodeSealingKey::from_ed25519]. *)
Definition sealing_from_ed25519 (ed25519 : list byte) : result SealError NodeSealingKey :=
  require vk_from_bytes_ok ed25519 else NotSealed in
  require negb (vk_is_weak ed25519) else NotSealed in
  let x25519 := vk_to_montgomery ed25519 in
  require pk_from_bytes_ok x25519 else NotSealed in
  Ok (mkSealingKey ed25519 x25519).

(** [NodeOpeningKey::from_ed25519_seed] and [sealing_key]. *)
Definition opening_from_seed (seed : list byte) : NodeOpeningKey :=
  mkOpeningKey (sk_verifying_key seed) (sk_to_scalar_bytes seed).
Definition sealing_key (k : NodeOpeningKey) : NodeSealingKey :=
  mkSealingKey (opening_ed25519 k) (sk_to_pk (opening_x25519 k)).

(** [cipher]: the key and the nonce of an answer. *)
Definition cipher (k : ResponseKey) (response_nonce : list byte) : result SealError (list byte * list byte) :=
  let salt := key_enc k ++ response_nonce in
  let* key := ok_or (hkdf_expand salt (key_secret k) (str "key") KEY_BYTES) NotSealed in
  let* nonce := ok_or (hkdf_expand salt (key_secret k) (str "nonce") NONCE_BYTES) NotSealed in
  Ok (key, nonce).

(** [ResponseSealer::seal], with the nonce [OsRng] fills. *)
Definition response_seal (k : ResponseKey) (response_nonce plaintext : list byte) : result SealError (list byte) :=
  let* c := cipher k response_nonce in
  let* ciphertext := ok_or (aead_encrypt (fst c) (snd c) plaintext) NotSealed in
  let sealed := response_nonce ++ ciphertext in
  require zlen sealed <=? MAX_SEALED_BYTES else NotSealed in
  Ok sealed.

(** [ResponseOpener::open]. *)
Definition response_open (k : ResponseKey) (sealed : list byte) : result SealError (list byte) :=
  require negb ((MAX_SEALED_BYTES <? zlen sealed) || (length sealed <? RESPONSE_NONCE_BYTES)%nat) else NotSealed in
  let* c := cipher k (take RESPONSE_NONCE_BYTES sealed) in
  ok_or (aead_decrypt (fst c) (snd c) (drop RESPONSE_NONCE_BYTES sealed)) NotSealed.

(** [ResponseOpener::to_bytes] and [from_bytes]. *)
Definition opener_to_bytes (k : ResponseKey) : list byte := key_enc k ++ key_secret k.
Definition opener_from_bytes (bytes : list byte) : result SealError ResponseKey :=
  require (length bytes =? ENCAPSULATED_KEY_BYTES + RESPONSE_SECRET_BYTES)%nat else NotSealed in
  Ok (mkResponseKey (take ENCAPSULATED_KEY_BYTES bytes) (drop ENCAPSULATED_KEY_BYTES bytes)).

(** * request.rs *)

(** [seal_request]: [version || enc || ciphertext] and the opener. *)
Definition seal_request (random : list byte) (node : NodeSealingKey) (plaintext : list byte)
    : result SealError (list byte * ResponseKey) :=
  let* setup := ok_or (setup_sender random (sealing_x25519 node) (info (sealing_ed25519 node))) NotSealed in
  let '(enc, context) := setup in
  let* ciphertext := ok_or (context_seal context plaintext [SEAL_VERSION]) NotSealed in
  let sealed := SEAL_VERSION :: enc ++ ciphertext in
  require zlen sealed <=? MAX_SEALED_BYTES else NotSealed in
  let* secret := ok_or (context_export context RESPONSE_EXPORT_LABEL RESPONSE_SECRET_BYTES) NotSealed in
  Ok (sealed, mkResponseKey enc secret).

(** [RequestOpened], whose [replay_id] is the encapsulated key. *)
Record RequestOpened := mkOpened { opened_plaintext : list byte; sealer : ResponseKey; replay_id : list byte }.

(** [open_request]. *)
Definition open_request (key : NodeOpeningKey) (sealed : list byte) : result SealError RequestOpened :=
  require negb ((MAX_SEALED_BYTES <? zlen sealed) || (length sealed <=? 1 + ENCAPSULATED_KEY_BYTES)%nat) else NotSealed in
  require bool_decide (take 1 sealed = [SEAL_VERSION]) else NotSealed in
  let rest := drop 1 sealed in
  let enc := take ENCAPSULATED_KEY_BYTES rest in
  let ciphertext := drop ENCAPSULATED_KEY_BYTES rest in
  require enc_from_bytes_ok enc else NotSealed in
  let* context := ok_or (setup_receiver (opening_x25519 key) enc (info (opening_ed25519 key))) NotSealed in
  let* plaintext := ok_or (context_open context ciphertext [SEAL_VERSION]) NotSealed in
  let* secret := ok_or (context_export context RESPONSE_EXPORT_LABEL RESPONSE_SECRET_BYTES) NotSealed in
  Ok (mkOpened plaintext (mkResponseKey enc secret) enc).

(** * What a round trip needs *)

(** The node's own sealing key is the one an invite's key gives. *)
Lemma sealing_key_matches `{!HpkeLaws} seed k :
  sealing_from_ed25519 (sk_verifying_key seed) = Ok k -> k = sealing_key (opening_from_seed seed).
Proof.
  unfold sealing_from_ed25519. intros HE. break_in HE. injection HE as <-.
  unfold sealing_key, opening_from_seed. cbn. by rewrite scalar_matches.
Qed.

(** The node opens what was sealed for it, and holds the opener's key. *)
Lemma open_seal_request `{!HpkeLaws} random seed plaintext sealed opener :
  seal_request random (sealing_key (opening_from_seed seed)) plaintext = Ok (sealed, opener) ->
  open_request (opening_from_seed seed) sealed = Ok (mkOpened plaintext opener (key_enc opener)) /\
  length (key_enc opener) = ENCAPSULATED_KEY_BYTES /\ length (key_secret opener) = RESPONSE_SECRET_BYTES /\
  zlen sealed = zlen plaintext + 49.
Proof.
  unfold seal_request, sealing_key, opening_from_seed. cbn [sealing_x25519 sealing_ed25519 opening_x25519 opening_ed25519].
  destruct (setup_sender _ _ _) as [[enc context]|] eqn:ES; [|done]. cbn [ok_or].
  destruct (sender_receiver _ _ _ _ _ ES) as (Hle & Hok & context' & HR & Ho & He).
  destruct (context_seal _ _ _) as [ciphertext|] eqn:EC; [|done]. cbn [ok_or].
  destruct (zlen _ <=? _) eqn:EM; [|done]. destruct (context_export context _ _) as [secret|] eqn:EX; [|done]. cbn [ok_or].
  intros HE. assert (sealed = SEAL_VERSION :: enc ++ ciphertext) as -> by congruence.
  assert (opener = mkResponseKey enc secret) as -> by congruence. clear HE. cbn [key_enc key_secret].
  pose proof (seal_length _ _ _ _ EC) as Hlc. apply Z.leb_le in EM.
  assert (length (SEAL_VERSION :: enc ++ ciphertext) = 49 + length plaintext)%nat as Hlen.
  { cbn [length]. rewrite length_app, Hle, Hlc. unfold ENCAPSULATED_KEY_BYTES. lia. }
  split_and!; [|done|by apply export_length in EX|unfold zlen; rewrite Hlen; lia].
  unfold open_request. rewrite (proj2 (Z.ltb_ge _ _)) by done.
  rewrite (proj2 (Nat.leb_gt _ _)) by (rewrite Hlen; unfold ENCAPSULATED_KEY_BYTES; lia). cbn [orb negb].
  rewrite bool_decide_true by done. change (drop 1 (SEAL_VERSION :: enc ++ ciphertext)) with (enc ++ ciphertext).
  rewrite take_app_length', drop_app_length' by done. cbn [opening_x25519 opening_ed25519]. rewrite Hok, HR. cbn [ok_or].
  rewrite (Ho _ _ _ EC). cbn [ok_or]. by rewrite He, EX.
Qed.

(** The opener of a request opens the answer sealed to it. *)
Lemma open_seal_response `{!HpkeLaws} k nonce plaintext sealed : length nonce = RESPONSE_NONCE_BYTES ->
  response_seal k nonce plaintext = Ok sealed -> response_open k sealed = Ok plaintext.
Proof.
  intros Hn. unfold response_seal. destruct (cipher k nonce) as [[ck cn]|] eqn:EC; [|done]. cbn [fst snd].
  destruct (aead_encrypt _ _ _) as [ciphertext|] eqn:EE; [|done]. cbn [ok_or].
  destruct (zlen _ <=? _) eqn:EM; [|done]. intros HE. assert (sealed = nonce ++ ciphertext) as -> by congruence. clear HE.
  apply Z.leb_le in EM. unfold response_open. rewrite (proj2 (Z.ltb_ge _ _)) by done.
  rewrite (proj2 (Nat.ltb_ge _ _)) by (rewrite length_app, Hn; lia). cbn [orb negb].
  rewrite take_app_length', drop_app_length' by done. rewrite EC. cbn [fst snd]. by rewrite (decrypt_encrypt _ _ _ _ EE).
Qed.

(** What fits is sealed. *)
Lemma seal_request_total `{!HpkeLaws, !HpkeTotal} random seed plaintext : zlen plaintext + 49 <= MAX_SEALED_BYTES ->
  exists sealed opener, seal_request random (sealing_key (opening_from_seed seed)) plaintext = Ok (sealed, opener).
Proof.
  intros Hl. unfold seal_request, sealing_key, opening_from_seed. cbn [sealing_x25519 sealing_ed25519 opening_x25519 opening_ed25519].
  destruct (sender_total random (sk_to_scalar_bytes seed) (info (sk_verifying_key seed))) as [[enc context] ES]. rewrite ES. cbn [ok_or].
  destruct (sender_receiver _ _ _ _ _ ES) as (Hle & _). destruct (seal_total context plaintext [SEAL_VERSION]) as [ciphertext EC].
  rewrite EC. cbn [ok_or]. pose proof (seal_length _ _ _ _ EC) as Hlc.
  rewrite (proj2 (Z.leb_le _ _)).
  - destruct (export_total context RESPONSE_EXPORT_LABEL RESPONSE_SECRET_BYTES) as [secret ->]; [by apply Nat.leb_le|]. by eauto.
  - unfold zlen in *. cbn [length]. rewrite length_app, Hle, Hlc. unfold ENCAPSULATED_KEY_BYTES. lia.
Qed.

Lemma response_seal_total `{!HpkeTotal} k nonce plaintext : length nonce = RESPONSE_NONCE_BYTES ->
  zlen plaintext + 48 <= MAX_SEALED_BYTES -> exists sealed, response_seal k nonce plaintext = Ok sealed.
Proof.
  intros Hn Hl. unfold response_seal, cipher.
  destruct (expand_total (key_enc k ++ nonce) (key_secret k) (str "key") KEY_BYTES) as [ck ->]; [by apply Nat.leb_le|].
  destruct (expand_total (key_enc k ++ nonce) (key_secret k) (str "nonce") NONCE_BYTES) as [cn ->]; [by apply Nat.leb_le|].
  cbn [ok_or fst snd]. destruct (encrypt_total ck cn plaintext) as (ciphertext & -> & Hc); [unfold MAX_SEALED_BYTES in Hl; lia|].
  cbn [ok_or]. rewrite (proj2 (Z.leb_le _ _)); [by eauto|].
  unfold zlen in *. rewrite length_app, Hn, Hc. unfold RESPONSE_NONCE_BYTES. lia.
Qed.

(** An opener kept as bytes is the same opener. *)
Lemma opener_roundtrip k : length (key_enc k) = ENCAPSULATED_KEY_BYTES -> length (key_secret k) = RESPONSE_SECRET_BYTES ->
  opener_from_bytes (opener_to_bytes k) = Ok k.
Proof.
  intros He Hs. unfold opener_from_bytes, opener_to_bytes. rewrite length_app, He, Hs, Nat.eqb_refl.
  rewrite take_app_length', drop_app_length' by done. by destruct k.
Qed.

(** Another version is another construction: nothing else opens. *)
Lemma open_request_version key sealed opened : open_request key sealed = Ok opened ->
  exists enc ciphertext, sealed = SEAL_VERSION :: enc ++ ciphertext /\ replay_id opened = enc /\
    length enc = ENCAPSULATED_KEY_BYTES /\ zlen sealed <= MAX_SEALED_BYTES.
Proof.
  unfold open_request. intros HE.
  destruct ((MAX_SEALED_BYTES <? zlen sealed) || (length sealed <=? 1 + ENCAPSULATED_KEY_BYTES)%nat) eqn:EB; [done|].
  apply orb_false_iff in EB as [E1 E2]. apply Z.ltb_ge in E1. apply Nat.leb_gt in E2. cbn [negb] in HE.
  destruct (bool_decide_reflect (take 1 sealed = [SEAL_VERSION])) as [HV|]; [|done].
  destruct (enc_from_bytes_ok _); [|done]. destruct (setup_receiver _ _ _); [|done]. cbn [ok_or] in HE.
  destruct (context_open _ _ _); [|done]. cbn [ok_or] in HE. destruct (context_export _ _ _); [|done]. cbn [ok_or] in HE.
  injection HE as <-. exists (take ENCAPSULATED_KEY_BYTES (drop 1 sealed)), (drop ENCAPSULATED_KEY_BYTES (drop 1 sealed)).
  cbn [replay_id]. rewrite take_drop. split_and!; [|done| |done].
  - rewrite <- (take_drop 1 sealed) at 1. by rewrite HV.
  - rewrite length_take, length_drop. lia.
Qed.
End seal.
