(* ===== verification/Contract.v ===== *)
(** The messages between the app and the server: crates/ket-core/src
    (contract.rs, update.rs, sealed.rs), and the errors of
    crates/ket-client-core/src/error.rs. *)

From Stdlib Require Import ZArith SpecFloat.
From stdpp Require Import strings.
From S2P Require Import Prelude Cbor Allowance Grant Update.

Definition CLIENT_HEADER : list byte := str "Ket-Client".
Definition CLIENT_UPDATE_REQUIRED_CODE : list byte := str "client_update_required".

(** * Session documents; a float is an IEEE number by its parts. *)

Record NodeLocation := mkLocation {
  country_code : list byte; country_name : list byte; city : option (list byte); latitude : spec_float; longitude : spec_float;
}.
Inductive HealthState := Healthy | Degraded | Saturated.
Record NodeStatus := mkNode {
  node_id : list byte; node_display_name : list byte; public_url : list byte; location : NodeLocation; health : HealthState;
  active_sessions : Z; session_capacity : Z; capacity_percent : spec_float; cpu_load_percent : option spec_float;
  memory_used_bytes : option Z; memory_total_bytes : option Z; uptime_seconds : option Z; node_observed_at : Z;
}.
Record UpdateAdvice := mkAdvice { advice_server_version : list byte; advice_client : ClientUpdate }.
Record CreateSessionRequest := mkCreateSession { cs_access_code : list byte; cs_client_name : list byte }.
Record SessionManifest := mkSessionManifest {
  session_token : list byte; session_expires_at : Z; manifest_access_expires_at : option Z; manifest_node : NodeStatus;
  transports : list SessionTransport; manifest_updates : option UpdateAdvice;
}.
Record SessionTraffic := mkTraffic {
  available : bool; traffic_sent : Z; traffic_received : Z; online_connections : Z; traffic_observed_at : Z;
}.
Record SessionStatus := mkSessionStatus {
  status_session_id : list byte; status_client_name : list byte; status_expires_at : Z; status_access_expires_at : option Z;
  status_node : NodeStatus; status_traffic : SessionTraffic; status_updates : option UpdateAdvice;
  status_data_allowance : option AllowanceStatus;
}.
Record ErrorResponse := mkErrorResponse { er_code : list byte; er_message : list byte; er_update : option ClientUpdate }.

(** * sealed.rs *)

Definition SEALED_CONTROL_PATH : list byte := str "/v1/sealed".
Definition SEALED_CONTENT_TYPE : list byte := str "application/octet-stream".
Definition SEALED_MAX_CLOCK_SKEW_SECONDS : Z := 300.
Definition SEALED_CLOCK_SKEW_CODE : list byte := str "request_clock_skew".
Definition SEALED_REPLAY_CODE : list byte := str "request_replayed".

Inductive SealedMethod := Get | Post | Put | Delete.
Global Instance SealedMethod_eq_dec : EqDecision SealedMethod.
Proof. solve_decision. Defined.

Record SealedControlRequest := mkSealedRequest {
  sr_method : SealedMethod; sr_path : list byte; sent_at : Z; sr_bearer : option (list byte); sr_client : option (list byte);
  sr_body : option (list byte);
}.
Record SealedControlResponse := mkSealedResponse { sp_status : Z; server_time : Z; sp_body : option (list byte) }.

(** * error.rs *)

Inductive ClientError :=
| InvalidEndpoint (reason : list byte)
| InvalidInput (reason : list byte)
| NotEnrolled
| AlreadyConnected
| ApiError (status : Z) (code message : list byte)
| NetworkError (reason : list byte)
| ResponseTooLarge
| InvalidResponse (reason : list byte)
| NoCompatibleTransport
| PreferredProtocolUnavailable (name : list byte)
| DnsResolution (transport_id message : list byte)
| TransportError (transport_id message : list byte) (retryable : bool)
| LocalError (reason : list byte)
| InviteRefused (e : CapsuleError)
| ClientIdentityMismatch
| SealedControlUnavailable
| UpdateRequired (update : ClientUpdate).

Record ClientIssue := mkIssue { issue_code : list byte; issue_message : list byte; retryable : bool }.

(** [is_unauthorized], [required_update] and [ends_session]. *)
Definition is_unauthorized (e : ClientError) : bool :=
  match e with ApiError status _ _ => (status =? 401) || (status =? 404) | _ => false end.
Definition required_update (e : ClientError) : option ClientUpdate :=
  match e with UpdateRequired update => Some update | _ => None end.
Definition ends_session (e : ClientError) : bool :=
  is_unauthorized e || match e with UpdateRequired _ => true | _ => false end.

(** [CapsuleError]'s and [ClientError]'s [Display]. *)
Definition capsule_message (e : CapsuleError) : list byte :=
  match e with
  | Invalid => str "invalid invite"
  | TooLarge => str "invite is too large"
  | UnsupportedVersion => str "unsupported invite version"
  | WrongApplication => str "invite belongs to another application"
  | UnsupportedCapability => str "unsupported invite capability"
  | InvalidSignature => str "invite signature is invalid"
  | Expired => str "invite has expired"
  | UnsupportedLocator => str "unsupported node locator"
  | UnsafeLocator => str "unsafe node locator"
  | InvalidNodeKey => str "invalid node key"
  | NodeIdentityMismatch => str "node identity does not match the invite"
  | InvalidChecksum => str "invite checksum is invalid"
  end.
Definition error_to_string (e : ClientError) : list byte :=
  match e with
  | InvalidEndpoint r => str "the server address is not valid: " ++ r
  | InvalidInput r => str "input is invalid: " ++ r
  | NotEnrolled => str "this device has not joined a server yet"
  | AlreadyConnected => str "Ket is already connected"
  | ApiError _ code _ => str "the server refused the request (" ++ code ++ str ")"
  | NetworkError r => str "Ket could not reach the server: " ++ r
  | ResponseTooLarge => str "the server sent a reply that was too large"
  | InvalidResponse r => str "the server sent a reply Ket could not read: " ++ r
  | NoCompatibleTransport => str "none of the server's protocols can be used on this device"
  | PreferredProtocolUnavailable name =>
    name ++ str " is not available for this invite; choose Automatic or another protocol"
  | DnsResolution id m => str "transport " ++ id ++ str ": could not look up the server's address (" ++ m ++ str ")"
  | TransportError id m _ => str "transport " ++ id ++ str " failed: " ++ m
  | LocalError r => str "something went wrong on this device: " ++ r
  | InviteRefused e => str "the invite cannot be used: " ++ capsule_message e
  | ClientIdentityMismatch => str "the server could not prove it is the node named in the invite"
  | SealedControlUnavailable => str "the server did not accept an encrypted request; it may need an update"
  | UpdateRequired _ => str "this server requires a newer version of Ket"
  end.

(** [issue] and [ClientError::issue]. *)
Definition issue_of (code : list byte) (e : ClientError) (retryable : bool) : ClientIssue :=
  mkIssue code (error_to_string e) retryable.
Definition issue (e : ClientError) : ClientIssue :=
  match e with
  | InvalidEndpoint _ => issue_of (str "invalid_endpoint") e false
  | InvalidInput _ => issue_of (str "invalid_input") e false
  | NotEnrolled => issue_of (str "not_enrolled") e false
  | AlreadyConnected => issue_of (str "already_connected") e false
  | ApiError status code message => mkIssue code message ((500 <=? status) || (status =? 429))
  | NetworkError _ => issue_of (str "network_unavailable") e true
  | ResponseTooLarge => issue_of (str "response_too_large") e false
  | InvalidResponse _ => issue_of (str "invalid_server_response") e false
  | NoCompatibleTransport => issue_of (str "no_compatible_transport") e false
  | PreferredProtocolUnavailable _ => issue_of (str "preferred_protocol_unavailable") e false
  | DnsResolution _ message =>
    mkIssue (str "transport_dns_failed") (str "could not look up the server's address (" ++ message ++ str ")") true
  | TransportError _ message retryable => mkIssue (str "transport_failed") message retryable
  | LocalError _ => issue_of (str "local_failure") e false
  | InviteRefused error => issue_of (code error) e false
  | ClientIdentityMismatch => issue_of (str "node_identity_mismatch") e false
  | SealedControlUnavailable => issue_of (str "sealed_control_unavailable") e false
  | UpdateRequired _ => issue_of CLIENT_UPDATE_REQUIRED_CODE e false
  end.

(** [ClientError::request] of a [reqwest::Error]. *)
Record RequestError := mkRequestError { is_timeout : bool; is_connect : bool; is_body : bool }.
Definition error_request (e : RequestError) : ClientError :=
  NetworkError (if is_timeout e then str "request timed out"
                else if is_connect e then str "connection failed"
                else if is_body e then str "response body failed"
                else str "request failed").
