(* ===== verification/Control.v ===== *)
(** Model of crates/ket-client-core/src: api.rs (the server's session API as
    the app calls it), sealed_control.rs (the same calls sealed to the node's
    key) and invite.rs (an endpoint pinned by an invite). *)

From Stdlib Require Import ZArith Lia.
From stdpp Require Import strings.
From S2P Require Import Prelude Utf8 Str Net Vendor Cbor Locator Capsule Text Invite Tunnel Grant Update Seal Contract.

Definition MAX_RESPONSE_BYTES : Z := 128 * 1024.
Definition ENROLLMENT_NONCE_HEADER : list byte := str "ket-enrollment-nonce".
Definition NODE_SIGNATURE_HEADER : list byte := str "ket-node-signature".

(** * HTTP: what is sent and what comes back *)

Record Outbound := mkOutbound {
  out_method : SealedMethod; out_url : Url; out_headers : list (list byte * list byte); out_body : option (list byte);
}.
(** A response: its status, its length when announced, the node signature
    header read as text, and its body in the pieces that arrive. *)
Record Response := mkResponse {
  rsp_status : Z; rsp_length : option Z; rsp_signature : option (list byte); rsp_chunks : list (result RequestError (list byte));
}.

(** The url crate's [host_str], [set_path] and [join]; the http crate's
    [HeaderValue::from_str(..).is_ok()]. *)
Class UrlOps := {
  url_host_str : Url -> option (list byte);
  url_set_path : Url -> list byte -> Url;
  url_join : Url -> list byte -> option Url;
}.
Class HeaderValues := header_value_ok : list byte -> bool.

(** The device the app runs on: its clock, its randomness and its network. *)
Class Device := {
  World : Type;
  world_time : World -> Z * World;
  world_random : World -> list byte * World;
  world_send : Outbound -> World -> result RequestError Response * World;
}.

(** * invite.rs, [ControlEndpoint] *)

Inductive InsecureHttpPolicy := LoopbackOnly | Allow.
Inductive Sealing := SealingOff | SealingPreferred | SealingRequired.
Global Instance InsecureHttpPolicy_eq_dec : EqDecision InsecureHttpPolicy.
Proof. solve_decision. Defined.
Global Instance Sealing_eq_dec : EqDecision Sealing.
Proof. solve_decision. Defined.

Definition sealing_max (a b : Sealing) : Sealing :=
  match a, b with
  | SealingRequired, _ | _, SealingRequired => SealingRequired
  | SealingPreferred, _ | _, SealingPreferred => SealingPreferred
  | SealingOff, SealingOff => SealingOff
  end.

Record ControlEndpoint := mkEndpoint { ep_base : Url; ep_node_key : option (list byte); ep_sealing : Sealing }.

Definition slash_byte (b : byte) : bool := bool_decide (b = slash).
(** [is_loopback_host]. *)
Definition is_loopback_host (host : list byte) : bool :=
  let host := trim_end_matches (fun b => bool_decide (b = dot))
                (trim_matches (fun b => bool_decide (b ∈ str "[]")) host) in
  eq_ignore_ascii_case host (str "localhost")
  || match parse_ip host with
     | Some (V4 n) => v4_loopback n
     | Some (V6 n) => v6_loopback n
     | None => false
     end.

Section endpoint.
Context `{Ed25519, Hashes, Encodings, UrlParser, UrlOps}.

(** [ControlEndpoint::parse_with_policy]. *)
Definition parse_with_policy (value : list byte) (insecure_http : InsecureHttpPolicy) : result ClientError ControlEndpoint :=
  let* base := ok_or (url_parse (trim value)) (InvalidEndpoint (str "expected an absolute URL")) in
  require bool_decide (url_username base = []) && bool_decide (url_password base = None)
    else InvalidEndpoint (str "embedded credentials are not allowed") in
  require bool_decide (url_query base = None) && bool_decide (url_fragment base = None)
    else InvalidEndpoint (str "query strings and fragments are not allowed") in
  let* host := ok_or (url_host_str base) (InvalidEndpoint (str "a host is required")) in
  let* _ :=
    if bool_decide (url_scheme base = str "https") then Ok tt
    else if bool_decide (url_scheme base = str "http") then
      if bool_decide (insecure_http = Allow) || is_loopback_host host then Ok tt
      else Err (InvalidEndpoint (str "unencrypted HTTP is allowed only for loopback development servers"))
    else Err (InvalidEndpoint (str "only https:// and loopback http:// URLs are supported")) in
  let normalized_path := trim_end_matches slash_byte (url_path base) ++ [slash] in
  Ok (mkEndpoint (url_set_path base normalized_path) None SealingOff).
Definition endpoint_parse (value : list byte) : result ClientError ControlEndpoint := parse_with_policy value LoopbackOnly.

(** [with_node_key], [with_required_sealing] and [parse_pinned]. *)
Definition with_node_key (key : list byte) (e : ControlEndpoint) : ControlEndpoint :=
  mkEndpoint (ep_base e) (Some key) (sealing_max (ep_sealing e) SealingPreferred).
Definition with_required_sealing (required : bool) (e : ControlEndpoint) : ControlEndpoint :=
  if required then mkEndpoint (ep_base e) (ep_node_key e) SealingRequired else e.
Definition parse_pinned (value : list byte) (node_key : option (list byte)) : result ClientError ControlEndpoint :=
  let* endpoint := endpoint_parse value in
  match node_key with
  | None => Ok endpoint
  | Some text =>
    match from_base64url text with Ok key => Ok (with_node_key key endpoint) | Err e => Err (InviteRefused e) end
  end.

(** [ControlEndpoint::route]. *)
Definition route (e : ControlEndpoint) (relative : list byte) : result ClientError Url :=
  ok_or (url_join (ep_base e) (trim_start_matches slash_byte relative)) (InvalidEndpoint (str "failed to construct an API route")).

(** [InviteEnrollment] and [from_text]. *)
Record InviteEnrollment := mkEnrollment {
  en_endpoint : ControlEndpoint; en_access_code : list byte; en_expires : option Z; en_fingerprint : list byte;
}.
Fixpoint first_endpoint (ls : list Locator) : option ControlEndpoint :=
  match ls with
  | [] => None
  | l :: ls => match endpoint_parse (base_url l) with Ok e => Some e | Err _ => first_endpoint ls end
  end.
Definition enrollment_from_text (text : list byte) (now : Z) : result ClientError InviteEnrollment :=
  let* invite := map_err InviteRefused (decode_invite_text (trim text) (Some now)) in
  let c := capsule invite in
  require supports_protocol c CONTROL_API_VERSION else InviteRefused UnsupportedVersion in
  let* endpoint := ok_or (first_endpoint (locators c)) (InviteRefused UnsupportedLocator) in
  let endpoint := with_required_sealing (supports_protocol c SEALED_CONTROL_API_VERSION)
                    (with_node_key (node_public_key c) endpoint) in
  Ok (mkEnrollment endpoint (expose (capability c)) (expires_at_epoch_seconds c) (node_fingerprint (node_public_key c))).
End endpoint.

(** * Answers *)

(** [sanitize_message]; the string is UTF-8. *)
Definition sanitize_message (value : list byte) : list byte :=
  match chars value with
  | Some cs => encode_chars (take 256 (filter (fun c => Is_true (negb (is_control c) || (c =? 32))) cs))
  | None => []
  end.
Definition take_chars (n : nat) (value : list byte) : list byte :=
  match chars value with Some cs => encode_chars (take n cs) | None => [] end.

Section answers.
Context `{UrlParser, UrlOps, Json ErrorResponse}.

(** [sanitize_update] and [sanitize_advice]. *)
Definition sanitize_update (u : ClientUpdate) : option ClientUpdate :=
  let summary := match update_summary u with
                 | Some s => let s := sanitize_message s in if bool_decide (s = []) then None else Some s
                 | None => None
                 end in
  let latest := take_chars 32 (sanitize_message (latest_version u)) in
  match url_parse (update_download_url u) with
  | None => None
  | Some url =>
    if bool_decide (url_scheme url = str "https") && bool_decide (is_Some (url_host_str url))
       && bool_decide (url_username url = []) && bool_decide (url_password url = None)
       && (zlen (update_download_url u) <=? 2048)
    then Some (mkUpdateAdvice (update_status u) latest (required_after u) summary (update_download_url u))
    else None
  end.
Definition sanitize_advice (advice : option UpdateAdvice) : option UpdateAdvice :=
  match advice with
  | None => None
  | Some a =>
    match sanitize_update (advice_client a) with
    | Some client => Some (mkAdvice (take_chars 32 (sanitize_message (advice_server_version a))) client)
    | None => None
    end
  end.

(** [api_error]. *)
Definition code_byte (b : byte) : bool := is_ascii_lowercase b || is_ascii_digit b || bool_decide (b = z2b 95).
Definition code_ok (code : list byte) : bool :=
  negb (bool_decide (code = [])) && (zlen code <=? 64) && forallb code_byte code.
Definition api_error (status : Z) (body : list byte) : ClientError :=
  if status =? 404 then
    ApiError status (str "unauthorized") (str "the server address or access code was not accepted")
  else
    let response := json_from_slice body : option ErrorResponse in
    match (if status =? 426 then
             match response with
             | Some r => if bool_decide (er_code r = CLIENT_UPDATE_REQUIRED_CODE)
                         then match er_update r with Some u => sanitize_update u | None => None end else None
             | None => None
             end
           else None) with
    | Some update => UpdateRequired update
    | None =>
      let code := match response with
                  | Some r => if code_ok (er_code r) then er_code r else str "http_" ++ show_u64 status
                  | None => str "http_" ++ show_u64 status
                  end in
      let message := match response with
                     | Some r => let m := sanitize_message (er_message r) in
                                 if bool_decide (m = []) then str "the server rejected the request" else m
                     | None => str "the server rejected the request"
                     end in
      ApiError status code message
    end.
End answers.

(** [read_bounded]: the announced length, then each piece. *)
Fixpoint read_chunks (limit : Z) (body : list byte) (chunks : list (result RequestError (list byte))) : result ClientError (list byte) :=
  match chunks with
  | [] => Ok body
  | Err e :: _ => Err (error_request e)
  | Ok chunk :: chunks =>
    if limit <? zlen body + zlen chunk then Err ResponseTooLarge else read_chunks limit (body ++ chunk) chunks
  end.
Definition read_bounded (r : Response) (limit : Z) : result ClientError (list byte) :=
  if match rsp_length r with Some length => limit <? length | None => false end then Err ResponseTooLarge
  else read_chunks limit [] (rsp_chunks r).

(** * Calls *)

(** [ControlRequest] and [Exchange]. *)
Record ControlRequest := mkControlRequest {
  cr_method : SealedMethod; cr_path : list byte; cr_bearer : option (list byte); cr_body : option (list byte);
}.
Record Exchange := mkExchange { ex_status : Z; ex_body : list byte }.

(** [saturating_offset] and [u64::saturating_add_signed]. *)
Definition i64_max : Z := 2 ^ 63 - 1.
Definition saturating_offset (server local : Z) : Z :=
  if local <=? server then (if server - local <=? i64_max then server - local else i64_max)
  else (if local - server <=? i64_max then - (local - server) else - 2 ^ 63).
Definition saturating_add_signed (n offset : Z) : Z := Z.max 0 (Z.min (n + offset) u64_max).

(** [is_success] of a status, and [StatusCode::from_u16(..).unwrap_or(BAD_GATEWAY)]. *)
Definition is_success (status : Z) : bool := (200 <=? status) && (status <=? 299).
Definition status_or_bad_gateway (status : Z) : Z := if (100 <=? status) && (status <=? 999) then status else 502.

Section control.
Context `{Ed25519, Hashes, Encodings, UrlParser, UrlOps, HeaderValues, Hpke, Device}.
Context `{Json ErrorResponse, Json SealedControlRequest, Json SealedControlResponse}.
Context `{Json CreateSessionRequest, Json SessionManifest, Json SessionStatus}.
(** [client_header_value]: the platform the app was built for and its version. *)
Context (client_header_value : option (list byte)).

(** The control plane in use: the device, what was sent so far, and the clock
    offset [SealedControl] keeps. *)
Record Plane := mkPlane { world : World; sent : list Outbound; clock_offset_seconds : Z }.

(** Code that uses the device and may fail. *)
Definition Call (A : Type) : Type := Plane -> result ClientError A * Plane.
Global Instance call_ret : MRet Call := fun _ a p => (Ok a, p).
Global Instance call_bind : MBind Call := fun _ _ f m p =>
  match m p with (Ok a, p) => f a p | (Err e, p) => (Err e, p) end.
Definition lift {A} (r : result ClientError A) : Call A := fun p => (r, p).
Definition unix_time : Call Z := fun p =>
  let '(t, w) := world_time (world p) in (Ok t, mkPlane w (sent p) (clock_offset_seconds p)).
Definition random : Call (list byte) := fun p =>
  let '(r, w) := world_random (world p) in (Ok r, mkPlane w (sent p) (clock_offset_seconds p)).
Definition store_offset (offset : Z) : Call unit := fun p => (Ok tt, mkPlane (world p) (sent p) offset).
Definition load_offset : Call Z := fun p => (Ok (clock_offset_seconds p), p).
(** [send]: a header value the http crate refuses fails before the network. *)
Definition send (o : Outbound) : Call Response := fun p =>
  if forallb (fun h => header_value_ok (snd h)) (out_headers o) then
    let '(r, w) := world_send o (world p) in
    (map_err error_request r, mkPlane w (sent p ++ [o]) (clock_offset_seconds p))
  else (Err (error_request (mkRequestError false false false)), p).

(** [SealedControl::now] and [attempt]. *)
Definition sealed_now : Call Z := t ← unix_time; offset ← load_offset; mret (saturating_add_signed t offset).
Definition attempt (url : Url) (sealing : NodeSealingKey) (request : ControlRequest) : Call (option SealedControlResponse) :=
  now ← sealed_now;
  let inner := mkSealedRequest (cr_method request) (slash :: cr_path request) now (cr_bearer request)
                 client_header_value (cr_body request) in
  plaintext ← lift (ok_or (json_to_vec inner) (LocalError (str "failed to encode a request")));
  r ← random;
  sealed ← lift (map_err (fun _ => LocalError (str "failed to seal a request")) (seal_request r sealing plaintext));
  response ← send (mkOutbound Post url [(str "content-type", SEALED_CONTENT_TYPE)] (Some (fst sealed)));
  body ← lift (read_bounded response MAX_SEALED_BYTES);
  if rsp_status response =? 200 then
    plaintext ← lift (map_err (fun _ => ClientIdentityMismatch) (response_open (snd sealed) body));
    answer ← lift (ok_or (json_from_slice plaintext) (InvalidResponse (str "JSON decoding failed")));
    mret (Some answer)
  else if rsp_status response =? 404 then mret None
  else lift (Err (api_error (rsp_status response) body)).

(** [is_clock_skew]. *)
Definition is_clock_skew (response : SealedControlResponse) : bool :=
  (sp_status response =? 400)
  && match sp_body response with
     | Some body => match (json_from_slice body : option ErrorResponse) with
                    | Some e => bool_decide (er_code e = SEALED_CLOCK_SKEW_CODE)
                    | None => false
                    end
     | None => false
     end.

(** [SealedControl::exchange]: a second try once the offset is known. *)
Definition to_exchange (response : SealedControlResponse) : Exchange :=
  mkExchange (status_or_bad_gateway (sp_status response)) (default [] (sp_body response)).
Definition sealed_exchange (url : Url) (node_key : list byte) (request : ControlRequest) : Call (option Exchange) :=
  sealing ← lift (map_err (fun _ => ClientIdentityMismatch) (sealing_from_ed25519 node_key));
  answer ← attempt url sealing request;
  answer ← match answer with
           | Some response =>
             if is_clock_skew response then
               local ← unix_time;
               _ ← store_offset (saturating_offset (server_time response) local);
               attempt url sealing request
             else mret answer
           | None => mret None
           end;
  mret (to_exchange <$> answer).

(** [plain_exchange]. *)
Definition plain_headers (request : ControlRequest) (nonce : option (list byte)) : list (list byte * list byte) :=
  match client_header_value with Some v => [(CLIENT_HEADER, v)] | None => [] end
  ++ match cr_bearer request with Some token => [(str "authorization", str "Bearer " ++ token)] | None => [] end
  ++ match nonce with Some n => [(ENROLLMENT_NONCE_HEADER, header_value n)] | None => [] end
  ++ match cr_body request with Some _ => [(str "content-type", str "application/json")] | None => [] end.
Definition plain_exchange (endpoint : ControlEndpoint) (request : ControlRequest) : Call Exchange :=
  url ← lift (route endpoint (cr_path request));
  challenge ← match cr_body request, ep_node_key endpoint with
              | Some _, Some key => nonce ← random; mret (Some (key, nonce))
              | _, _ => mret None
              end;
  response ← send (mkOutbound (cr_method request) url (plain_headers request (snd <$> challenge)) (cr_body request));
  body ← lift (read_bounded response MAX_RESPONSE_BYTES);
  _ ← lift (match challenge with
            | Some (key, nonce) =>
              if is_success (rsp_status response)
              then map_err (fun _ => ClientIdentityMismatch) (proof_verify key nonce body (rsp_signature response))
              else Ok tt
            | None => Ok tt
            end);
  mret (mkExchange (rsp_status response) body).

(** [HttpControlPlane::exchange]. *)
Definition exchange (endpoint : ControlEndpoint) (request : ControlRequest) : Call Exchange :=
  match ep_node_key endpoint, ep_sealing endpoint with
  | Some node_key, SealingPreferred | Some node_key, SealingRequired =>
    url ← lift (route endpoint SEALED_CONTROL_PATH);
    answer ← sealed_exchange url node_key request;
    match answer with
    | Some exchange => mret exchange
    | None => if bool_decide (ep_sealing endpoint = SealingPreferred) then plain_exchange endpoint request
              else lift (Err SealedControlUnavailable)
    end
  | _, SealingRequired => lift (Err SealedControlUnavailable)
  | _, _ => plain_exchange endpoint request
  end.

(** [Exchange::expect] and [decode_json]. *)
Definition expect (expected : Z) (e : Exchange) : result ClientError (list byte) :=
  if ex_status e =? expected then Ok (ex_body e) else Err (api_error (ex_status e) (ex_body e)).
Definition decode_json {T} `{Json T} (body : list byte) : result ClientError T :=
  ok_or (json_from_slice body) (InvalidResponse (str "JSON decoding failed")).

(** [status_call], and the four calls of [ControlPlane]. *)
Definition with_status_updates (u : option UpdateAdvice) (s : SessionStatus) : SessionStatus :=
  mkSessionStatus (status_session_id s) (status_client_name s) (status_expires_at s) (status_access_expires_at s)
    (status_node s) (status_traffic s) u (status_data_allowance s).
Definition status_call (endpoint : ControlEndpoint) (method : SealedMethod) (token : list byte) : Call SessionStatus :=
  answer ← exchange endpoint (mkControlRequest method (str "v1/sessions/current") (Some token) None);
  body ← lift (expect 200 answer);
  status ← lift (decode_json body : result _ SessionStatus);
  mret (with_status_updates (sanitize_advice (status_updates status)) status).
Definition with_manifest_updates (u : option UpdateAdvice) (m : SessionManifest) : SessionManifest :=
  mkSessionManifest (session_token m) (session_expires_at m) (manifest_access_expires_at m) (manifest_node m) (transports m) u.
Definition create_session (endpoint : ControlEndpoint) (access_code client_name : list byte) : Call SessionManifest :=
  body ← lift (ok_or (json_to_vec (mkCreateSession access_code client_name)) (LocalError (str "failed to encode a request")));
  answer ← exchange endpoint (mkControlRequest Post (str "v1/sessions") None (Some body));
  response ← lift (expect 201 answer);
  manifest ← lift (decode_json response : result _ SessionManifest);
  mret (with_manifest_updates (sanitize_advice (manifest_updates manifest)) manifest).
Definition session_status (endpoint : ControlEndpoint) (token : list byte) : Call SessionStatus := status_call endpoint Get token.
Definition renew_session (endpoint : ControlEndpoint) (token : list byte) : Call SessionStatus := status_call endpoint Put token.
Definition release_session (endpoint : ControlEndpoint) (token : list byte) : Call unit :=
  answer ← exchange endpoint (mkControlRequest Delete (str "v1/sessions/current") (Some token) None);
  _ ← lift (expect 204 answer);
  mret tt.
End control.
