(* ===== verification/Validation.v ===== *)
(** Model of crates/ket-client-core/src/validation.rs: what the app checks of
    a server's session documents before it uses them. *)

From Stdlib Require Import ZArith Lia SpecFloat.
From stdpp Require Import gmap strings.
From S2P Require Import Prelude Order Utf8 Str Vendor Allowance Grant Update Contract Control.

Definition MAX_NODE_TEXT_CHARS : Z := 128.
Definition MAX_PUBLIC_URL_CHARS : Z := 2048.
Definition MAX_TRANSPORTS : Z := 32.
Definition MAX_TRANSPORT_ID_CHARS : Z := 128.
Definition MAX_ENDPOINT_CHARS : Z := 253.
Definition MAX_OPTION_ENTRIES : nat := 32.
Definition MAX_OPTION_KEY_CHARS : Z := 64.
Definition MAX_OPTION_VALUE_CHARS : Z := 2048.
Definition MAX_SECRET_ENTRIES : nat := 16.
Definition MAX_SECRET_CHARS : Z := 4096.
Definition MAX_OPENVPN_ENCODED_MATERIAL_CHARS : Z := (8 * 1024 + 2) / 3 * 4.

(** [invalid]. *)
Definition invalid (message : list byte) : ClientError := InvalidResponse message.
Definition checked (ok : bool) (message : list byte) : result ClientError unit := if ok then Ok tt else Err (invalid message).

(** The characters of a string, which is UTF-8. *)
Definition char_list (s : list byte) : list Z := default [] (chars s).

(** * Text *)

(** [validate_text], [validate_identifier], [validate_option_key],
    [validate_bounded_value] and [validate_bounded_secret]. *)
Definition text_ok (value : list byte) (maximum_chars : Z) : bool :=
  negb (bool_decide (value = [])) && bool_decide (value = trim value) && (zlen (char_list value) <=? maximum_chars)
  && negb (existsb is_control (char_list value)).
Definition validate_text (value label : list byte) (maximum_chars : Z) : result ClientError unit :=
  checked (text_ok value maximum_chars) label.
Definition identifier_byte (b : byte) : bool := is_ascii_alphanumeric b || bool_decide (b ∈ str "-_.").
Definition identifier_ok (value : list byte) (maximum_chars : Z) : bool :=
  negb (bool_decide (value = [])) && (zlen (char_list value) <=? maximum_chars) && forallb identifier_byte value.
Definition validate_identifier (value label : list byte) (maximum_chars : Z) : result ClientError unit :=
  checked (identifier_ok value maximum_chars) label.
Definition option_key_ok (value : list byte) : bool :=
  negb (bool_decide (value = [])) && (zlen value <=? MAX_OPTION_KEY_CHARS) && forallb code_byte value.
Definition validate_option_key (value label : list byte) : result ClientError unit := checked (option_key_ok value) label.
Definition bounded_value_ok (value : list byte) (maximum_chars : Z) : bool :=
  (zlen (char_list value) <=? maximum_chars) && negb (existsb is_control (char_list value)).
Definition validate_bounded_value (value label : list byte) (maximum_chars : Z) : result ClientError unit :=
  checked (bounded_value_ok value maximum_chars) label.
Definition secret_ok (value : list byte) (maximum_chars : Z) : bool :=
  negb (bool_decide (value = [])) && bounded_value_ok value maximum_chars.
Definition validate_bounded_secret (value label : list byte) (maximum_chars : Z) : result ClientError unit :=
  checked (secret_ok value maximum_chars) label.
Definition validate_secret (value label : list byte) : result ClientError unit := validate_bounded_secret value label MAX_SECRET_CHARS.

(** [validate_endpoint_name] and [validate_endpoint]. *)
Definition endpoint_name_ok (value : list byte) : bool :=
  negb (bool_decide (value = [])) && (zlen value <=? MAX_ENDPOINT_CHARS) && bool_decide (value = trim value)
  && negb (existsb (fun c => is_control c || is_whitespace c) (char_list value)).
Definition validate_endpoint_name (value label : list byte) : result ClientError unit := checked (endpoint_name_ok value) label.
Fixpoint contains (pattern s : list byte) : bool :=
  bool_decide (take (length pattern) s = pattern) || match s with [] => false | _ :: s => contains pattern s end.
Definition endpoint_marks (value : list byte) : bool :=
  contains (str "://") value || bool_decide (z2b 47 ∈ value) || bool_decide (z2b 63 ∈ value) || bool_decide (z2b 35 ∈ value).
Definition validate_endpoint (value : list byte) : result ClientError unit :=
  let* _ := validate_endpoint_name value (str "transport endpoint") in
  checked (negb (endpoint_marks value)) (str "transport endpoint is invalid").

(** * Times and telemetry *)

Definition validate_future_expiry (expires_at now : Z) : result ClientError unit :=
  checked (now <? expires_at) (str "session lease is already expired").
Definition validate_access_expiry (access_expiry : option Z) (session_expiry now : Z) : result ClientError unit :=
  match access_expiry with
  | Some access_expiry =>
    let* _ := validate_future_expiry access_expiry now in
    checked (session_expiry <=? access_expiry) (str "session lease outlives access time")
  | None => Ok tt
  end.
Definition traffic_consistent (t : SessionTraffic) : bool :=
  available t || ((traffic_sent t =? 0) && (traffic_received t =? 0) && (online_connections t =? 0)).
Definition validate_traffic (t : SessionTraffic) : result ClientError unit :=
  let* _ := checked (negb (traffic_observed_at t =? 0)) (str "traffic observation time is invalid") in
  checked (traffic_consistent t) (str "unavailable traffic telemetry is inconsistent").

(** [is_finite], and a whole number as an [f64] and an [f32]. *)
Definition is_finite (x : spec_float) : bool := match x with S754_zero _ | S754_finite _ _ _ => true | _ => false end.
Definition f64 (n : Z) : spec_float := binary_normalize 53 1024 n 0 false.
Definition f32 (n : Z) : spec_float := binary_normalize 24 128 n 0 false.
Definition in_range (low high x : spec_float) : bool := is_finite x && SFleb low x && SFleb x high.

(** [validate_public_url]. *)
Section urls.
Context `{UrlParser, UrlOps}.
Definition public_url_ok (u : Url) : bool :=
  (bool_decide (url_scheme u = str "http") || bool_decide (url_scheme u = str "https")) && bool_decide (is_Some (url_host_str u))
  && bool_decide (url_username u = []) && bool_decide (url_password u = None) && bool_decide (url_query u = None)
  && bool_decide (url_fragment u = None).
Definition validate_public_url (value : list byte) : result ClientError unit :=
  let* _ := validate_text value (str "node public URL") MAX_PUBLIC_URL_CHARS in
  let* url := ok_or (url_parse value) (invalid (str "node public URL is invalid")) in
  checked (public_url_ok url) (str "node public URL is invalid").

(** [validate_node]. *)
Definition memory_ok (n : NodeStatus) : bool :=
  match memory_used_bytes n, memory_total_bytes n with
  | None, None => true
  | Some used, Some total => (0 <? total) && (used <=? total)
  | _, _ => false
  end.
Definition validate_node (n : NodeStatus) : result ClientError unit :=
  let* _ := validate_identifier (node_id n) (str "node ID") MAX_NODE_TEXT_CHARS in
  let* _ := validate_text (node_display_name n) (str "node display name") MAX_NODE_TEXT_CHARS in
  let* _ := validate_public_url (public_url n) in
  let l := location n in
  let* _ := checked ((zlen (country_code l) =? 2) && forallb is_ascii_uppercase (country_code l)) (str "node country code is invalid") in
  let* _ := validate_text (country_name l) (str "node country name") MAX_NODE_TEXT_CHARS in
  let* _ := match city l with Some city => validate_text city (str "node city") MAX_NODE_TEXT_CHARS | None => Ok tt end in
  let* _ := checked (in_range (f64 (-90)) (f64 90) (latitude l)) (str "node latitude is invalid") in
  let* _ := checked (in_range (f64 (-180)) (f64 180) (longitude l)) (str "node longitude is invalid") in
  let* _ := checked (negb (session_capacity n =? 0) && (active_sessions n <=? session_capacity n)) (str "node session capacity is invalid") in
  let* _ := checked (in_range (f32 0) (f32 100) (capacity_percent n)) (str "node capacity percent is invalid") in
  let* _ := checked (match cpu_load_percent n with Some v => in_range (f32 0) (f32 100) v | None => true end) (str "node CPU load is invalid") in
  let* _ := checked (memory_ok n) (str "node memory telemetry is invalid") in
  checked (negb (node_observed_at n =? 0)) (str "node observation time is invalid").

(** * The manifest *)

(** The entries of a [BTreeMap], in the order of their keys. *)
Definition entries {A} (m : gmap (list byte) A) : list (list byte * A) := sort_by_key fst (map_to_list m).
Fixpoint check_all {A} (check : A -> result ClientError unit) (l : list A) : result ClientError unit :=
  match l with [] => Ok tt | a :: l => let* _ := check a in check_all check l end.

Definition openvpn_material (key : list byte) : bool :=
  bool_decide (key ∈ [str "ca_certificate_pem_b64"; str "stunnel_ca_certificate_pem_b64"; str "tls_crypt_key_b64"]).
Definition secret_limit (protocol : TransportProtocol) (key : list byte) : Z :=
  if bool_decide (protocol = OpenVpnStunnel) && openvpn_material key then MAX_OPENVPN_ENCODED_MATERIAL_CHARS else MAX_SECRET_CHARS.

(** The loop body of [validate_manifest]; [ids] are those before. *)
Definition validate_option (entry : list byte * list byte) : result ClientError unit :=
  let* _ := validate_option_key (fst entry) (str "transport option") in
  validate_bounded_value (snd entry) (str "transport option value") MAX_OPTION_VALUE_CHARS.
Definition validate_secret_entry (protocol : TransportProtocol) (entry : list byte * list byte) : result ClientError unit :=
  let* _ := validate_option_key (fst entry) (str "transport secret") in
  validate_bounded_secret (snd entry) (str "transport secret value") (secret_limit protocol (fst entry)).
Definition validate_credential (protocol : TransportProtocol) (c : TransportCredential) : result ClientError unit :=
  let* _ := validate_secret (tc_auth c) (str "transport credential") in
  let* _ := checked (size (tc_secrets c) <=? MAX_SECRET_ENTRIES)%nat (str "transport credential contains too many secrets") in
  check_all (validate_secret_entry protocol) (entries (tc_secrets c)).
Definition validate_transport (ids : list (list byte)) (t : SessionTransport) : result ClientError unit :=
  let p := st_profile t in
  let* _ := validate_identifier (tp_id p) (str "transport ID") MAX_TRANSPORT_ID_CHARS in
  let* _ := validate_text (tp_display_name p) (str "transport display name") MAX_NODE_TEXT_CHARS in
  let* _ := validate_endpoint (tp_endpoint p) in
  let* _ := checked (negb (tp_port p =? 0) && bool_decide (tp_id p ∉ ids)) (str "server advertised an invalid transport profile") in
  let* _ := match tp_tls_server_name p with Some name => validate_endpoint_name name (str "TLS server name") | None => Ok tt end in
  let* _ := checked (size (tp_options p) <=? MAX_OPTION_ENTRIES)%nat (str "transport profile contains too many options") in
  let* _ := check_all validate_option (entries (tp_options p)) in
  match st_credential t with Some c => validate_credential (tp_protocol p) c | None => Ok tt end.
Fixpoint validate_transports (ids : list (list byte)) (l : list SessionTransport) : result ClientError unit :=
  match l with
  | [] => Ok tt
  | t :: l => let* _ := validate_transport ids t in validate_transports (tp_id (st_profile t) :: ids) l
  end.
Definition validate_manifest (m : SessionManifest) (now : Z) : result ClientError unit :=
  let* _ := map_err (fun _ => invalid (str "session token has an invalid shape")) (split_session_token (session_token m)) in
  let* _ := validate_future_expiry (session_expires_at m) now in
  let* _ := validate_access_expiry (manifest_access_expires_at m) (session_expires_at m) now in
  let* _ := validate_node (manifest_node m) in
  let* _ := checked (negb (bool_decide (transports m = [])) && (zlen (transports m) <=? MAX_TRANSPORTS))
              (str "server advertised an invalid transport count") in
  validate_transports [] (transports m).

(** [validate_status]. *)
Definition validate_status (s : SessionStatus) (token expected_client_name : list byte) (now : Z) : result ClientError unit :=
  let* parts := map_err (fun _ => invalid (str "saved session token has an invalid shape")) (split_session_token token) in
  let* _ := checked (bool_decide (status_session_id s = part_id parts)) (str "session status identity does not match enrollment") in
  let* _ := validate_text (status_client_name s) (str "session client name") 96 in
  let* _ := checked (bool_decide (status_client_name s = expected_client_name)) (str "session status client name does not match enrollment") in
  let* _ := validate_future_expiry (status_expires_at s) now in
  let* _ := validate_access_expiry (status_access_expires_at s) (status_expires_at s) now in
  let* _ := validate_node (status_node s) in
  let* _ := validate_traffic (status_traffic s) in
  checked (match status_data_allowance s with Some a => allowance_is_valid (status_allowance a) | None => true end)
    (str "data allowance is invalid").
End urls.

(** * What the checks amount to *)

Lemma checked_ok b m : checked b m = Ok tt <-> b = true.
Proof. unfold checked. by destruct b. Qed.
Lemma seq_ok {A} (r : result ClientError A) (k : result ClientError unit) :
  (let* _ := r in k) = Ok tt <-> is_ok r = true /\ k = Ok tt.
Proof. destruct r; naive_solver. Qed.
Lemma is_ok_unit (r : result ClientError unit) : is_ok r = true <-> r = Ok tt.
Proof. destruct r as [[]|]; naive_solver. Qed.
Lemma match_option_ok {A} (o : option A) (f : A -> result ClientError unit) :
  match o with Some a => f a | None => Ok tt end = Ok tt <-> forall a, o = Some a -> f a = Ok tt.
Proof. destruct o; naive_solver. Qed.
Lemma check_all_ok {A} (check : A -> result ClientError unit) l : check_all check l = Ok tt <-> Forall (fun a => check a = Ok tt) l.
Proof.
  induction l as [|a l IH]; cbn [check_all]; [by split|]. rewrite seq_ok, is_ok_unit, IH, Forall_cons. done.
Qed.
Lemma entries_all {A} (P : list byte * A -> Prop) m : Forall P (entries m) <-> map_Forall (fun k v => P (k, v)) m.
Proof.
  unfold entries, sort_by_key. rewrite Forall_forall. split.
  - intros HF k v Hk. apply HF. rewrite elem_of_sort_by. by apply elem_of_map_to_list.
  - intros HM [k v]. rewrite elem_of_sort_by. intros Hk%elem_of_map_to_list. by apply HM.
Qed.

(** Documents the app may use. *)
Record transport_wf (t : SessionTransport) : Prop := {
  wf_id : identifier_ok (tp_id (st_profile t)) MAX_TRANSPORT_ID_CHARS = true;
  wf_name : text_ok (tp_display_name (st_profile t)) MAX_NODE_TEXT_CHARS = true;
  wf_endpoint : endpoint_name_ok (tp_endpoint (st_profile t)) = true /\ endpoint_marks (tp_endpoint (st_profile t)) = false;
  wf_port : tp_port (st_profile t) <> 0;
  wf_server_name : forall name, tp_tls_server_name (st_profile t) = Some name -> endpoint_name_ok name = true;
  wf_options_size : (size (tp_options (st_profile t)) <= MAX_OPTION_ENTRIES)%nat;
  wf_options : map_Forall (fun k v => option_key_ok k = true /\ bounded_value_ok v MAX_OPTION_VALUE_CHARS = true) (tp_options (st_profile t));
  wf_credential : forall c, st_credential t = Some c ->
    secret_ok (tc_auth c) MAX_SECRET_CHARS = true /\ (size (tc_secrets c) <= MAX_SECRET_ENTRIES)%nat /\
    map_Forall (fun k v => option_key_ok k = true /\ secret_ok v (secret_limit (tp_protocol (st_profile t)) k) = true) (tc_secrets c);
}.
Definition expiry_wf (access : option Z) (session now : Z) : Prop :=
  now < session /\ forall a, access = Some a -> now < a /\ session <= a.

Lemma map_Forall_same {A} (P Q : list byte -> A -> Prop) (m : gmap (list byte) A) : (forall k v, P k v <-> Q k v) -> map_Forall P m <-> map_Forall Q m.
Proof. intros HPQ. unfold map_Forall. by setoid_rewrite HPQ. Qed.

Lemma options_ok m : check_all validate_option (entries m) = Ok tt <->
  map_Forall (fun k v => option_key_ok k = true /\ bounded_value_ok v MAX_OPTION_VALUE_CHARS = true) m.
Proof.
  rewrite check_all_ok, entries_all. apply map_Forall_same. intros k v. unfold validate_option, validate_option_key, validate_bounded_value.
  by rewrite seq_ok, is_ok_unit, !checked_ok.
Qed.
Lemma credential_ok protocol c : validate_credential protocol c = Ok tt <->
  secret_ok (tc_auth c) MAX_SECRET_CHARS = true /\ (size (tc_secrets c) <= MAX_SECRET_ENTRIES)%nat /\
  map_Forall (fun k v => option_key_ok k = true /\ secret_ok v (secret_limit protocol k) = true) (tc_secrets c).
Proof.
  unfold validate_credential, validate_secret, validate_bounded_secret.
  rewrite !seq_ok, !is_ok_unit, !checked_ok, Nat.leb_le, check_all_ok, entries_all. do 2 apply and_iff_compat_l. apply map_Forall_same.
  intros k v. unfold validate_secret_entry, validate_option_key, validate_bounded_secret. by rewrite seq_ok, is_ok_unit, !checked_ok.
Qed.

Lemma validate_transport_ok ids t : validate_transport ids t = Ok tt <-> transport_wf t /\ tp_id (st_profile t) ∉ ids.
Proof.
  unfold validate_transport, validate_identifier, validate_text, validate_endpoint, validate_endpoint_name.
  rewrite !seq_ok, !is_ok_unit, !seq_ok, !is_ok_unit, !checked_ok, !match_option_ok, options_ok.
  rewrite andb_true_iff, bool_decide_eq_true, !negb_true_iff, Z.eqb_neq, Nat.leb_le. split.
  - intros (? & ? & ? & [? ?] & HN & ? & ? & HC). split; [|done]. split; try done.
    + intros name Hn. exact (proj1 (checked_ok _ _) (HN name Hn)).
    + intros c Hc. by apply credential_ok, HC.
  - intros [[? ? [? ?] ? HN ? ? HC] ?]. split_and!; try done.
    + intros name Hn. by apply checked_ok, HN.
    + intros c Hc. by apply credential_ok, HC.
Qed.

Lemma validate_transports_ok ids l : validate_transports ids l = Ok tt <->
  Forall transport_wf l /\ NoDup (map (fun t => tp_id (st_profile t)) l) /\
  Forall (fun t => tp_id (st_profile t) ∉ ids) l.
Proof.
  revert ids; induction l as [|t l IH]; intros ids; cbn [validate_transports map].
  - split; [intros _; split_and!; constructor|done].
  - rewrite seq_ok, is_ok_unit, validate_transport_ok, IH, !Forall_cons, NoDup_cons, elem_of_map, !Forall_forall. set_solver.
Qed.

Section documents.
Context `{UrlParser, UrlOps}.

(** A node as the app may show it. *)
Record node_wf (n : NodeStatus) : Prop := {
  wf_node_id : identifier_ok (node_id n) MAX_NODE_TEXT_CHARS = true;
  wf_node_name : text_ok (node_display_name n) MAX_NODE_TEXT_CHARS = true;
  wf_public_url : text_ok (public_url n) MAX_PUBLIC_URL_CHARS = true /\ exists u, url_parse (public_url n) = Some u /\ public_url_ok u = true;
  wf_country : length (country_code (location n)) = 2%nat /\ forallb is_ascii_uppercase (country_code (location n)) = true;
  wf_country_name : text_ok (country_name (location n)) MAX_NODE_TEXT_CHARS = true;
  wf_city : forall c, city (location n) = Some c -> text_ok c MAX_NODE_TEXT_CHARS = true;
  wf_latitude : in_range (f64 (-90)) (f64 90) (latitude (location n)) = true;
  wf_longitude : in_range (f64 (-180)) (f64 180) (longitude (location n)) = true;
  wf_capacity : session_capacity n <> 0 /\ active_sessions n <= session_capacity n;
  wf_percent : in_range (f32 0) (f32 100) (capacity_percent n) = true;
  wf_cpu : forall v, cpu_load_percent n = Some v -> in_range (f32 0) (f32 100) v = true;
  wf_memory : memory_ok n = true;
  wf_observed : node_observed_at n <> 0;
}.

Lemma validate_public_url_ok value : validate_public_url value = Ok tt <->
  text_ok value MAX_PUBLIC_URL_CHARS = true /\ exists u, url_parse value = Some u /\ public_url_ok u = true.
Proof.
  unfold validate_public_url, validate_text. rewrite seq_ok, is_ok_unit, checked_ok. apply and_iff_compat_l.
  destruct (url_parse value) as [u|]; cbn [ok_or]; [rewrite checked_ok|]; naive_solver.
Qed.

Lemma validate_node_ok n : validate_node n = Ok tt <-> node_wf n.
Proof.
  unfold validate_node, validate_identifier, validate_text.
  rewrite !seq_ok, !is_ok_unit, validate_public_url_ok, !checked_ok, !match_option_ok, !andb_true_iff, Z.eqb_eq, !negb_true_iff, !Z.eqb_neq, Z.leb_le.
  unfold zlen. split.
  - intros (? & ? & ? & [? ?] & ? & HC & ? & ? & ? & ? & HP & ? & ?). split; try done; [split; [lia|done]| |].
    + intros c Hc. exact (proj1 (checked_ok _ _) (HC c Hc)).
    + intros v Hv. by rewrite Hv in HP.
  - intros [? ? [? ?] [? ?] ? HC ? ? [? ?] ? HP ? ?]. split_and!; try done; try lia.
    + intros c Hc. by apply checked_ok, HC.
    + destruct (cpu_load_percent n); [by apply HP|done].
Qed.

Lemma expiry_ok access session now :
  validate_future_expiry session now = Ok tt /\ validate_access_expiry access session now = Ok tt <-> expiry_wf access session now.
Proof.
  unfold expiry_wf, validate_access_expiry, validate_future_expiry. rewrite checked_ok, Z.ltb_lt. apply and_iff_compat_l.
  destruct access as [a|]; [|naive_solver]. rewrite seq_ok, is_ok_unit, !checked_ok, Z.ltb_lt, Z.leb_le. naive_solver.
Qed.

(** the app accepts an enrollment document exactly when it is well formed:
    a token of the right shape, a lease in the future within the access time, a
    node it can show, and one to 32 transports with distinct identifiers, each
    with a bounded name, endpoint, options and secrets and a nonzero port. *)
Theorem manifest_accepted_iff_wf m now :
  validate_manifest m now = Ok tt <->
  is_ok (split_session_token (session_token m)) = true /\
  expiry_wf (manifest_access_expires_at m) (session_expires_at m) now /\
  node_wf (manifest_node m) /\
  1 <= zlen (transports m) <= MAX_TRANSPORTS /\ Forall transport_wf (transports m) /\
  NoDup (map (fun t => tp_id (st_profile t)) (transports m)).
Proof.
  unfold validate_manifest. rewrite !seq_ok, !is_ok_unit, validate_node_ok, checked_ok, validate_transports_ok, <- expiry_ok.
  rewrite andb_true_iff, negb_true_iff, bool_decide_eq_false, Z.leb_le.
  assert (is_ok (map_err (fun _ => invalid (str "session token has an invalid shape")) (split_session_token (session_token m)))
    = is_ok (split_session_token (session_token m))) as -> by by destruct (split_session_token (session_token m)).
  assert (transports m <> [] <-> 1 <= zlen (transports m)) as ->.
  { unfold zlen. destruct (transports m); cbn [length]; [naive_solver lia|]. split; [lia|done]. }
  assert (Forall (fun t => tp_id (st_profile t) ∉ []) (transports m)) as Hn by (apply Forall_forall; set_solver).
  naive_solver.
Qed.

(** Refreshed telemetry replaces what the app shows only when it is of the
    app's own session: the status names the identifier inside the saved token
    and the name the device enrolled under, and is as well formed as the
    enrollment was. *)
Theorem status_accepted_iff_bound s token name now :
  validate_status s token name now = Ok tt <->
  (exists parts, split_session_token token = Ok parts /\ status_session_id s = part_id parts) /\
  status_client_name s = name /\ text_ok name 96 = true /\
  expiry_wf (status_access_expires_at s) (status_expires_at s) now /\ node_wf (status_node s) /\
  traffic_observed_at (status_traffic s) <> 0 /\ traffic_consistent (status_traffic s) = true /\
  (forall a, status_data_allowance s = Some a -> allowance_is_valid (status_allowance a) = true).
Proof.
  unfold validate_status. destruct (split_session_token token) as [parts|]; cbn [map_err]; [|naive_solver].
  unfold validate_text, validate_traffic. rewrite !seq_ok, !is_ok_unit, !seq_ok, !is_ok_unit, validate_node_ok, !checked_ok, <- expiry_ok.
  rewrite !bool_decide_eq_true, negb_true_iff, Z.eqb_neq.
  assert ((match status_data_allowance s with Some a => allowance_is_valid (status_allowance a) | None => true end) = true <->
    forall a, status_data_allowance s = Some a -> allowance_is_valid (status_allowance a) = true) as -> by (destruct (status_data_allowance s); naive_solver).
  split; [intros (? & ? & <- & ? & ? & ? & [? ?] & ?)|intros ((p & HP & ?) & <- & ? & [? ?] & ? & ? & ? & ?)]; split_and!; try done.
  - by exists parts.
  - by assert (p = parts) as <- by congruence.
Qed.
End documents.
