(* ===== verification/Client.v ===== *)
(** The state of the app's client: crates/ket-client-core/src/state.rs (what it
    shows) and the runtime state of client.rs, with an update of each field.

    Model of crates/ket-client-core/src/client.rs: enrolling with a server,
    connecting over its transports, keeping the tunnel and the lease, and
    leaving.  Every operation holds the client's operation lock from start to
    end, so operations run one after another; a cancellation from outside is an
    answer of the environment. *)

From Stdlib Require Import ZArith Lia.
From stdpp Require Import gmap strings.
From S2P Require Import Prelude Utf8 Vendor Allowance Grant Strategy Update Contract Control Validation.

(** * state.rs *)

Inductive ClientPhase := Disconnected | Enrolling | Enrolled | Probing | Connecting | PhaseConnected | Reconnecting | Disconnecting | PhaseError.
Global Instance ClientPhase_eq_dec : EqDecision ClientPhase.
Proof. solve_decision. Defined.

Record TransportSummary := mkSummary { ts_id : list byte; ts_display_name : list byte; ts_protocol : TransportProtocol; ts_network : Network }.
(** [From<&TransportProfile>]. *)
Definition summary_of (p : TransportProfile) : TransportSummary := mkSummary (tp_id p) (tp_display_name p) (tp_protocol p) (tp_network p).

Inductive FallbackStage := StageProbe | StageConnect | StageConnected.
Record TransportFallback := mkFallback {
  fb_transport : TransportSummary; fb_issue : ClientIssue; fb_stage : FallbackStage; fb_elapsed_ms : option Z;
}.

Record ClientSnapshot := mkSnapshot {
  phase : ClientPhase; node : option NodeStatus; available_transports : list TransportSummary;
  sn_preferred : option TransportProtocol; active_transport : option TransportSummary; traffic : option SessionTraffic;
  allowance : option AllowanceStatus; handshake_latency_ms : option Z; sn_session_expires : option Z;
  sn_access_expires : option Z; connected_at : option Z; reconnect_attempt : Z; sn_issue : option ClientIssue;
  fallbacks : list TransportFallback; sn_server_version : option (list byte); client_update : option ClientUpdate;
  updated_at : Z;
}.
Definition snapshot_default : ClientSnapshot :=
  mkSnapshot Disconnected None [] None None None None None None None None 0 None [] None None 0.

Definition set_phase (v : ClientPhase) (s : ClientSnapshot) : ClientSnapshot :=
  mkSnapshot v (node s) (available_transports s) (sn_preferred s) (active_transport s) (traffic s) (allowance s) (handshake_latency_ms s) (sn_session_expires s) (sn_access_expires s) (connected_at s) (reconnect_attempt s) (sn_issue s) (fallbacks s) (sn_server_version s) (client_update s) (updated_at s).
Definition set_node (v : option NodeStatus) (s : ClientSnapshot) : ClientSnapshot :=
  mkSnapshot (phase s) v (available_transports s) (sn_preferred s) (active_transport s) (traffic s) (allowance s) (handshake_latency_ms s) (sn_session_expires s) (sn_access_expires s) (connected_at s) (reconnect_attempt s) (sn_issue s) (fallbacks s) (sn_server_version s) (client_update s) (updated_at s).
Definition set_available_transports (v : list TransportSummary) (s : ClientSnapshot) : ClientSnapshot :=
  mkSnapshot (phase s) (node s) v (sn_preferred s) (active_transport s) (traffic s) (allowance s) (handshake_latency_ms s) (sn_session_expires s) (sn_access_expires s) (connected_at s) (reconnect_attempt s) (sn_issue s) (fallbacks s) (sn_server_version s) (client_update s) (updated_at s).
Definition set_sn_preferred (v : option TransportProtocol) (s : ClientSnapshot) : ClientSnapshot :=
  mkSnapshot (phase s) (node s) (available_transports s) v (active_transport s) (traffic s) (allowance s) (handshake_latency_ms s) (sn_session_expires s) (sn_access_expires s) (connected_at s) (reconnect_attempt s) (sn_issue s) (fallbacks s) (sn_server_version s) (client_update s) (updated_at s).
Definition set_active_transport (v : option TransportSummary) (s : ClientSnapshot) : ClientSnapshot :=
  mkSnapshot (phase s) (node s) (available_transports s) (sn_preferred s) v (traffic s) (allowance s) (handshake_latency_ms s) (sn_session_expires s) (sn_access_expires s) (connected_at s) (reconnect_attempt s) (sn_issue s) (fallbacks s) (sn_server_version s) (client_update s) (updated_at s).
Definition set_traffic (v : option SessionTraffic) (s : ClientSnapshot) : ClientSnapshot :=
  mkSnapshot (phase s) (node s) (available_transports s) (sn_preferred s) (active_transport s) v (allowance s) (handshake_latency_ms s) (sn_session_expires s) (sn_access_expires s) (connected_at s) (reconnect_attempt s) (sn_issue s) (fallbacks s) (sn_server_version s) (client_update s) (updated_at s).
Definition set_allowance (v : option AllowanceStatus) (s : ClientSnapshot) : ClientSnapshot :=
  mkSnapshot (phase s) (node s) (available_transports s) (sn_preferred s) (active_transport s) (traffic s) v (handshake_latency_ms s) (sn_session_expires s) (sn_access_expires s) (connected_at s) (reconnect_attempt s) (sn_issue s) (fallbacks s) (sn_server_version s) (client_update s) (updated_at s).
Definition set_handshake_latency_ms (v : option Z) (s : ClientSnapshot) : ClientSnapshot :=
  mkSnapshot (phase s) (node s) (available_transports s) (sn_preferred s) (active_transport s) (traffic s) (allowance s) v (sn_session_expires s) (sn_access_expires s) (connected_at s) (reconnect_attempt s) (sn_issue s) (fallbacks s) (sn_server_version s) (client_update s) (updated_at s).
Definition set_sn_session_expires (v : option Z) (s : ClientSnapshot) : ClientSnapshot :=
  mkSnapshot (phase s) (node s) (available_transports s) (sn_preferred s) (active_transport s) (traffic s) (allowance s) (handshake_latency_ms s) v (sn_access_expires s) (connected_at s) (reconnect_attempt s) (sn_issue s) (fallbacks s) (sn_server_version s) (client_update s) (updated_at s).
Definition set_sn_access_expires (v : option Z) (s : ClientSnapshot) : ClientSnapshot :=
  mkSnapshot (phase s) (node s) (available_transports s) (sn_preferred s) (active_transport s) (traffic s) (allowance s) (handshake_latency_ms s) (sn_session_expires s) v (connected_at s) (reconnect_attempt s) (sn_issue s) (fallbacks s) (sn_server_version s) (client_update s) (updated_at s).
Definition set_connected_at (v : option Z) (s : ClientSnapshot) : ClientSnapshot :=
  mkSnapshot (phase s) (node s) (available_transports s) (sn_preferred s) (active_transport s) (traffic s) (allowance s) (handshake_latency_ms s) (sn_session_expires s) (sn_access_expires s) v (reconnect_attempt s) (sn_issue s) (fallbacks s) (sn_server_version s) (client_update s) (updated_at s).
Definition set_reconnect_attempt (v : Z) (s : ClientSnapshot) : ClientSnapshot :=
  mkSnapshot (phase s) (node s) (available_transports s) (sn_preferred s) (active_transport s) (traffic s) (allowance s) (handshake_latency_ms s) (sn_session_expires s) (sn_access_expires s) (connected_at s) v (sn_issue s) (fallbacks s) (sn_server_version s) (client_update s) (updated_at s).
Definition set_sn_issue (v : option ClientIssue) (s : ClientSnapshot) : ClientSnapshot :=
  mkSnapshot (phase s) (node s) (available_transports s) (sn_preferred s) (active_transport s) (traffic s) (allowance s) (handshake_latency_ms s) (sn_session_expires s) (sn_access_expires s) (connected_at s) (reconnect_attempt s) v (fallbacks s) (sn_server_version s) (client_update s) (updated_at s).
Definition set_fallbacks (v : list TransportFallback) (s : ClientSnapshot) : ClientSnapshot :=
  mkSnapshot (phase s) (node s) (available_transports s) (sn_preferred s) (active_transport s) (traffic s) (allowance s) (handshake_latency_ms s) (sn_session_expires s) (sn_access_expires s) (connected_at s) (reconnect_attempt s) (sn_issue s) v (sn_server_version s) (client_update s) (updated_at s).
Definition set_sn_server_version (v : option (list byte)) (s : ClientSnapshot) : ClientSnapshot :=
  mkSnapshot (phase s) (node s) (available_transports s) (sn_preferred s) (active_transport s) (traffic s) (allowance s) (handshake_latency_ms s) (sn_session_expires s) (sn_access_expires s) (connected_at s) (reconnect_attempt s) (sn_issue s) (fallbacks s) v (client_update s) (updated_at s).
Definition set_client_update (v : option ClientUpdate) (s : ClientSnapshot) : ClientSnapshot :=
  mkSnapshot (phase s) (node s) (available_transports s) (sn_preferred s) (active_transport s) (traffic s) (allowance s) (handshake_latency_ms s) (sn_session_expires s) (sn_access_expires s) (connected_at s) (reconnect_attempt s) (sn_issue s) (fallbacks s) (sn_server_version s) v (updated_at s).
Definition set_updated_at (v : Z) (s : ClientSnapshot) : ClientSnapshot :=
  mkSnapshot (phase s) (node s) (available_transports s) (sn_preferred s) (active_transport s) (traffic s) (allowance s) (handshake_latency_ms s) (sn_session_expires s) (sn_access_expires s) (connected_at s) (reconnect_attempt s) (sn_issue s) (fallbacks s) (sn_server_version s) (client_update s) v.

(** [apply_advice]: no advice leaves the last in place. *)
Definition apply_advice (advice : option UpdateAdvice) (s : ClientSnapshot) : ClientSnapshot :=
  match advice with
  | Some a => set_client_update (Some (advice_client a)) (set_sn_server_version (Some (advice_server_version a)) s)
  | None => s
  end.

(** * [RuntimeState] *)

Record ProbeIdentity := mkIdentity { pi_endpoint : list byte; pi_port : Z; pi_protocol : TransportProtocol; pi_server_name : option (list byte) }.
Global Instance ProbeIdentity_eq_dec : EqDecision ProbeIdentity.
Proof. solve_decision. Defined.
(** [From<&SessionTransport>]. *)
Definition identity_of (t : SessionTransport) : ProbeIdentity :=
  mkIdentity (tp_endpoint (st_profile t)) (tp_port (st_profile t)) (tp_protocol (st_profile t)) (tp_tls_server_name (st_profile t)).
Record CachedProbe := mkCached { cp_identity : ProbeIdentity; cp_report : ProbeReport }.

Definition options_default : ConnectOptions := mkOptions false [].

Section runtime.
(** A running tunnel, by its identity. *)
Context {Tunnel : Type}.

Record RuntimeState := mkRuntime {
  session : option SessionManifest; renew_at : option Z; control_failures : Z; tunnel : option Tunnel;
  connection_requested : bool; rt_preferred : option TransportProtocol; connect_options : ConnectOptions;
  history : TransportHistory; probes : gmap (list byte) CachedProbe; network_generation : Z; memory : bool;
  automatic_excluded : gset TransportProtocol;
}.
Definition runtime_default : RuntimeState := mkRuntime None None 0 None false None options_default ∅ ∅ 0 false ∅.

Definition set_session (v : option SessionManifest) (r : RuntimeState) : RuntimeState :=
  mkRuntime v (renew_at r) (control_failures r) (tunnel r) (connection_requested r) (rt_preferred r) (connect_options r) (history r) (probes r) (network_generation r) (memory r) (automatic_excluded r).
Definition set_renew_at (v : option Z) (r : RuntimeState) : RuntimeState :=
  mkRuntime (session r) v (control_failures r) (tunnel r) (connection_requested r) (rt_preferred r) (connect_options r) (history r) (probes r) (network_generation r) (memory r) (automatic_excluded r).
Definition set_control_failures (v : Z) (r : RuntimeState) : RuntimeState :=
  mkRuntime (session r) (renew_at r) v (tunnel r) (connection_requested r) (rt_preferred r) (connect_options r) (history r) (probes r) (network_generation r) (memory r) (automatic_excluded r).
Definition set_tunnel (v : option Tunnel) (r : RuntimeState) : RuntimeState :=
  mkRuntime (session r) (renew_at r) (control_failures r) v (connection_requested r) (rt_preferred r) (connect_options r) (history r) (probes r) (network_generation r) (memory r) (automatic_excluded r).
Definition set_connection_requested (v : bool) (r : RuntimeState) : RuntimeState :=
  mkRuntime (session r) (renew_at r) (control_failures r) (tunnel r) v (rt_preferred r) (connect_options r) (history r) (probes r) (network_generation r) (memory r) (automatic_excluded r).
Definition set_rt_preferred (v : option TransportProtocol) (r : RuntimeState) : RuntimeState :=
  mkRuntime (session r) (renew_at r) (control_failures r) (tunnel r) (connection_requested r) v (connect_options r) (history r) (probes r) (network_generation r) (memory r) (automatic_excluded r).
Definition set_connect_options (v : ConnectOptions) (r : RuntimeState) : RuntimeState :=
  mkRuntime (session r) (renew_at r) (control_failures r) (tunnel r) (connection_requested r) (rt_preferred r) v (history r) (probes r) (network_generation r) (memory r) (automatic_excluded r).
Definition set_history (v : TransportHistory) (r : RuntimeState) : RuntimeState :=
  mkRuntime (session r) (renew_at r) (control_failures r) (tunnel r) (connection_requested r) (rt_preferred r) (connect_options r) v (probes r) (network_generation r) (memory r) (automatic_excluded r).
Definition set_probes (v : gmap (list byte) CachedProbe) (r : RuntimeState) : RuntimeState :=
  mkRuntime (session r) (renew_at r) (control_failures r) (tunnel r) (connection_requested r) (rt_preferred r) (connect_options r) (history r) v (network_generation r) (memory r) (automatic_excluded r).
Definition set_network_generation (v : Z) (r : RuntimeState) : RuntimeState :=
  mkRuntime (session r) (renew_at r) (control_failures r) (tunnel r) (connection_requested r) (rt_preferred r) (connect_options r) (history r) (probes r) v (memory r) (automatic_excluded r).
Definition set_memory (v : bool) (r : RuntimeState) : RuntimeState :=
  mkRuntime (session r) (renew_at r) (control_failures r) (tunnel r) (connection_requested r) (rt_preferred r) (connect_options r) (history r) (probes r) (network_generation r) v (automatic_excluded r).
Definition set_automatic_excluded (v : gset TransportProtocol) (r : RuntimeState) : RuntimeState :=
  mkRuntime (session r) (renew_at r) (control_failures r) (tunnel r) (connection_requested r) (rt_preferred r) (connect_options r) (history r) (probes r) (network_generation r) (memory r) v.
End runtime.
Arguments RuntimeState : clear implicits.

Definition MAX_FALLBACKS : nat := 8.

(** The traits a client is built from - [ControlPlane], [TransportAdapter],
    [ActiveTunnel], [TransportMemory], [RouteHealthProbe] - and the clock, with
    the state behind them.  A probe or a connection attempt that a cancellation
    interrupts gives [None]. *)
Class ClientEnv := {
  Env : Type;
  Tunnel : Type;
  Tunnel_eq_dec :: EqDecision Tunnel;
  env_time : Env -> Z * Env;
  env_elapsed_ms : Env -> Z * Env;
  env_create_session : list byte -> list byte -> Env -> result ClientError SessionManifest * Env;
  env_session_status : list byte -> Env -> result ClientError SessionStatus * Env;
  env_renew_session : list byte -> Env -> result ClientError SessionStatus * Env;
  env_release_session : list byte -> Env -> result ClientError unit * Env;
  env_probe : TransportAdapter -> SessionTransport -> Env -> option (result ClientError ProbeReport) * Env;
  env_connect : TransportAdapter -> SessionTransport -> ProbeReport -> ConnectOptions -> Env ->
    option (result ClientError (Tunnel * Z)) * Env;
  env_left_running : TransportAdapter -> SessionTransport -> ProbeReport -> ConnectOptions -> Env -> list Tunnel;
  env_cancelled : Env -> bool * Env;
  tunnel_id : Tunnel -> list byte;
  tunnel_status : Tunnel -> Env -> TunnelStatus;
  tunnel_network : Tunnel -> Env -> NetworkReport;
  tunnel_stop : Tunnel -> Env -> result ClientError unit * Env;
  memory_load : Env -> TransportHistory * Env;
  memory_save : TransportHistory -> Env -> Env;
  env_healthy : Env -> bool * Env;
}.

(** [renewal_deadline], [validate_access_code] and [protocol_label]. *)
Definition renewal_deadline (now expires_at : Z) : Z := sat_add64 now (sat_sub64 expires_at now / 2).
Definition validate_access_code (code : list byte) : result ClientError unit :=
  if (zlen code =? ACCESS_CODE_LENGTH) && forallb is_ascii_alphanumeric code then Ok tt
  else Err (InvalidInput (str "access code must contain exactly 32 ASCII letters or digits")).
Definition protocol_label (p : TransportProtocol) : list byte :=
  match p with
  | Hysteria2 => str "Hysteria 2" | Ikev2 => str "IKEv2" | OpenVpnStunnel => str "OpenVPN TLS"
  | Shadowsocks2022 => str "Shadowsocks 2022" | Stealth => str "HTTPS Stealth" | VlessXtlsReality => str "VLESS + REALITY"
  | WireGuard => str "WireGuard TLS" | XorScrambled => str "Hysteria XOR"
  end.

Section client.
Context `{ClientEnv, UrlParser, UrlOps}.
(** What a client is created with; the endpoint is behind [ControlPlane]. *)
Context (client_name : list byte) (adapters : list TransportAdapter) (policy : SelectionPolicy).

(** The client, the tunnels that were handed to it and not stopped yet, and
    those that run though no connect returned them: an engine behind the tunnel
    service may go on after the app stopped waiting for it. *)
Record Client := mkClient { runtime : RuntimeState Tunnel; snapshot : ClientSnapshot; env : Env; live : list Tunnel; strays : list Tunnel }.
(** The tunnels that run. *)
Definition running (c : Client) : list Tunnel := live c ++ strays c.

(** [new_with_route_health]: the trimmed name, or a refusal. *)
Definition client_name_new (name : list byte) : result ClientError (list byte) :=
  let name := trim name in
  if bool_decide (name = []) || (96 <? zlen (char_list name))
  then Err (InvalidInput (str "client name must contain between 1 and 96 characters")) else Ok name.
Definition client_new (e : Env) : Client :=
  let '(now, e) := env_time e in mkClient runtime_default (set_updated_at now snapshot_default) e [] [].

(** Code that works on the client and may fail. *)
Definition Op (A : Type) : Type := Client -> result ClientError A * Client.
Global Instance op_ret : MRet Op := fun _ a c => (Ok a, c).
Global Instance op_bind : MBind Op := fun _ _ f m c =>
  match m c with (Ok a, c) => f a c | (Err e, c) => (Err e, c) end.
Definition throw {A} (e : ClientError) : Op A := fun c => (Err e, c).
(** The result of [m] as a value. *)
Definition attempted {A} (m : Op A) : Op (result ClientError A) := fun c => let '(r, c) := m c in (Ok r, c).
Definition asks {A} (f : Client -> A) : Op A := fun c => (Ok (f c), c).
Definition with_env {A} (f : Env -> A * Env) : Op A := fun c =>
  let '(a, e) := f (env c) in (Ok a, mkClient (runtime c) (snapshot c) e (live c) (strays c)).
Definition with_env_result {A} (f : Env -> result ClientError A * Env) : Op A := fun c =>
  let '(r, e) := f (env c) in (r, mkClient (runtime c) (snapshot c) e (live c) (strays c)).
Definition unix_now : Op Z := with_env env_time.
Definition update_runtime (f : RuntimeState Tunnel -> RuntimeState Tunnel) : Op unit := fun c =>
  (Ok tt, mkClient (f (runtime c)) (snapshot c) (env c) (live c) (strays c)).
(** [update_snapshot]. *)
Definition update_snapshot (f : ClientSnapshot -> ClientSnapshot) : Op unit := fun c =>
  let '(now, e) := env_time (env c) in (Ok tt, mkClient (runtime c) (set_updated_at now (f (snapshot c))) e (live c) (strays c)).
Definition shown : Op ClientSnapshot := asks snapshot.

(** [fail]. *)
Definition show_update (e : ClientError) (s : ClientSnapshot) : ClientSnapshot :=
  match required_update e with Some u => set_client_update (Some u) s | None => s end.
Definition fail (e : ClientError) : Op unit :=
  update_snapshot (fun s => show_update e (set_sn_issue (Some (issue e)) (set_phase PhaseError s))).

(** * Tunnels *)

(** [runtime.tunnel.take()]. *)
Definition take_tunnel : Op (option Tunnel) :=
  t ← asks (fun c => tunnel (runtime c)); _ ← update_runtime (set_tunnel None); mret t.
(** [tunnel.stop()]. *)
Definition stop (t : Tunnel) : Op unit := fun c =>
  let '(r, e) := tunnel_stop t (env c) in
  (r, mkClient (runtime c) (snapshot c) e (match r with Ok _ => filter (fun x => x <> t) (live c) | Err _ => live c end) (strays c)).
(** [stop_and_retain_on_failure]. *)
Definition stop_and_retain_on_failure (t : Tunnel) : Op unit :=
  r ← attempted (stop t);
  match r with
  | Ok _ => mret tt
  | Err e =>
    _ ← update_runtime (fun r => match tunnel r with None => set_tunnel (Some t) r | Some _ => r end);
    throw e
  end.
(** [adapter.connect()], which starts a tunnel; one that fails or is cancelled
    may leave one running. *)
Definition start (a : TransportAdapter) (t : SessionTransport) (p : ProbeReport) (o : ConnectOptions)
    : Op (option (result ClientError (Tunnel * Z))) := fun c =>
  let '(r, e) := env_connect a t p o (env c) in
  match r with
  | Some (Ok (started, _)) => (Ok r, mkClient (runtime c) (snapshot c) e (live c ++ [started]) (strays c))
  | _ => (Ok r, mkClient (runtime c) (snapshot c) e (live c) (strays c ++ env_left_running a t p o (env c)))
  end.

(** [note_fallback], [cool_down], [record_failure] and [record_lost_tunnel]. *)
Definition push_fallback (f : TransportFallback) (l : list TransportFallback) : list TransportFallback :=
  let l := l ++ [f] in drop (length l - MAX_FALLBACKS) l.
Definition note_fallback (f : TransportFallback) : Op unit :=
  update_snapshot (fun s => set_fallbacks (push_fallback f (fallbacks s)) s).
Definition save_history : Op unit := fun c =>
  (Ok tt, mkClient (runtime c) (snapshot c) (if memory (runtime c) then memory_save (history (runtime c)) (env c) else env c) (live c) (strays c)).
Definition cool_down (id : list byte) : Op unit :=
  now ← unix_now;
  _ ← update_runtime (fun r => set_history (record_failure id now (failure_cooldown_seconds policy) (history r)) r);
  save_history.
Definition note_failure (t : TransportSummary) (e : ClientError) (stage : FallbackStage) : Op unit :=
  _ ← cool_down (ts_id t);
  elapsed ← with_env env_elapsed_ms;
  note_fallback (mkFallback t (issue e) stage (Some (Z.min elapsed u64_max))).
Definition record_lost_tunnel (id code message : list byte) : Op unit :=
  _ ← cool_down id;
  s ← shown;
  match active_transport s with
  | Some t => if bool_decide (ts_id t = id)
              then note_fallback (mkFallback t (mkIssue code message true) StageConnected None) else mret tt
  | None => mret tt
  end.

(** [cache_probe] and [cached_probe]. *)
Definition cache_probe (t : SessionTransport) (report : ProbeReport) : Op unit :=
  update_runtime (fun r => set_probes (<[tp_id (st_profile t) := mkCached (identity_of t) report]> (probes r)) r).
Definition cached_probe (t : SessionTransport) (e : ClientError) : Op (option ProbeReport) :=
  asks (fun c =>
    match e with
    | DnsResolution _ _ =>
      match probes (runtime c) !! tp_id (st_profile t) with
      | Some cached => if bool_decide (cp_identity cached = identity_of t) then Some (cp_report cached) else None
      | None => None
      end
    | _ => None
    end).

(** * The lease *)

(** [apply_status]. *)
Definition apply_status (st : SessionStatus) (renewed : bool) : Op unit :=
  _ ← update_runtime (fun r =>
    match session r with
    | Some m => set_session (Some (mkSessionManifest (session_token m) (status_expires_at st) (status_access_expires_at st)
                  (status_node st) (transports m) (manifest_updates m))) r
    | None => r
    end);
  _ ← (if renewed then now ← unix_now; update_runtime (set_renew_at (Some (renewal_deadline now (status_expires_at st)))) else mret tt);
  _ ← update_runtime (set_control_failures 0);
  update_snapshot (fun s => apply_advice (status_updates st) (set_sn_issue None (set_sn_access_expires (status_access_expires_at st)
    (set_sn_session_expires (Some (status_expires_at st)) (set_allowance (status_data_allowance st) (set_traffic (Some (status_traffic st))
    (set_node (Some (status_node st)) s))))))).

(** What every end of an enrollment forgets. *)
Definition forget_session : Op unit :=
  update_runtime (fun r => set_probes ∅ (set_control_failures 0 (set_renew_at None (set_session None r)))).
Definition show_issue (e : ClientError) : Op unit := update_snapshot (set_sn_issue (Some (issue e))).
Definition show_error (e : ClientError) : Op unit :=
  update_snapshot (fun s => set_sn_issue (Some (issue e)) (set_phase PhaseError s)).

(** [refresh_locked]. *)
Definition ended_snapshot (e : ClientError) (s : ClientSnapshot) : ClientSnapshot :=
  show_update e (set_sn_issue (Some (issue e)) (set_reconnect_attempt 0 (set_handshake_latency_ms None (set_connected_at None
    (set_sn_access_expires None (set_sn_session_expires None (set_allowance None (set_traffic None (set_sn_preferred None
    (set_available_transports [] (set_active_transport None (set_phase PhaseError s)))))))))))).
Definition end_session (error : ClientError) : Op ClientSnapshot :=
  _ ← update_runtime (fun r => set_rt_preferred None (set_connection_requested false r));
  t ← take_tunnel;
  cleanup ← attempted (match t with Some t => stop_and_retain_on_failure t | None => mret tt end);
  match cleanup with
  | Err cleanup_error => _ ← show_error cleanup_error; throw cleanup_error
  | Ok _ => _ ← forget_session; _ ← update_snapshot (ended_snapshot error); throw error
  end.
Definition refresh_locked (renew surface_errors : bool) : Op ClientSnapshot :=
  m ← asks (fun c => session (runtime c));
  match m with
  | None => throw NotEnrolled
  | Some m =>
    let token := session_token m in
    status ← attempted (with_env_result (if renew then env_renew_session token else env_session_status token));
    match status with
    | Ok status =>
      now ← unix_now;
      match validate_status status token client_name now with
      | Err error => _ ← (if surface_errors then show_issue error else mret tt); throw error
      | Ok _ => _ ← apply_status status renew; shown
      end
    | Err error =>
      if ends_session error then end_session error
      else _ ← (if surface_errors then show_issue error else mret tt); throw error
    end
  end.

(** [renewal is due], and [renew_before_connect_locked]. *)
Definition renew_due (now : Z) (r : RuntimeState Tunnel) : bool :=
  match renew_at r with Some deadline => deadline <=? now | None => false end.
Definition renew_before_connect_locked : Op unit :=
  now ← unix_now;
  r ← asks runtime;
  match session r with
  | None => throw NotEnrolled
  | Some m =>
    if negb (renew_due now r) then mret tt
    else
      outcome ← attempted (refresh_locked true false);
      match outcome with
      | Ok _ => mret tt
      | Err (NetworkError reason) =>
        now ← unix_now;
        if now <? session_expires_at m then update_snapshot (set_sn_issue None) else throw (NetworkError reason)
      | Err error => throw error
      end
  end.

(** * Connecting *)

Definition idle_snapshot (phase : ClientPhase) (s : ClientSnapshot) : ClientSnapshot :=
  set_sn_issue None (set_reconnect_attempt 0 (set_handshake_latency_ms None (set_connected_at None (set_active_transport None (set_phase phase s))))).

(** [finish_cancelled_connection]. *)
Definition finish_cancelled_connection : Op ClientSnapshot :=
  _ ← update_runtime (set_connection_requested false);
  _ ← update_snapshot (idle_snapshot Enrolled);
  shown.

(** A tunnel that came up: what [connect_locked] records and shows. *)
Definition connected (t : SessionTransport) (probe : ProbeReport) (started : Tunnel) (latency_ms : Z) : Op ClientSnapshot :=
  let latency := Z.min latency_ms u64_max in
  _ ← cache_probe t probe;
  _ ← update_runtime (fun r => set_history (record_success (tp_id (st_profile t)) latency (history r)) r);
  _ ← save_history;
  report ← asks (fun c => tunnel_network started (env c));
  _ ← update_runtime (fun r => set_tunnel (Some started) (set_network_generation (generation report) r));
  now ← unix_now;
  _ ← update_snapshot (fun s => set_sn_issue None (set_reconnect_attempt 0 (set_connected_at (Some now)
        (set_handshake_latency_ms (Some latency) (set_active_transport (Some (summary_of (st_profile t))) (set_phase PhaseConnected s))))));
  shown.

(** The probe of one transport: its report, a cached one when the name could
    not be looked up, [None] when it failed or was cancelled. *)
Inductive Probed := ProbeCancelled | ProbeFailed (e : ClientError) | Reachable (report : ProbeReport).
Definition probe_transport (a : TransportAdapter) (t : SessionTransport) : Op Probed :=
  r ← with_env (env_probe a t);
  match r with
  | None => mret ProbeCancelled
  | Some (Ok report) => mret (Reachable report)
  | Some (Err e) =>
    cached ← cached_probe t e;
    match cached with Some report => mret (Reachable report) | None => mret (ProbeFailed e) end
  end.

(** The loop over the ranked transports.  A panic ends the operation; that the
    one of [expect] never comes is [ranked_supported] in ClientProps. *)
Definition panics {A} (message : list byte) : Op A := throw (LocalError message).
Fixpoint connect_each (reconnecting : bool) (options : ConnectOptions) (index : Z) (last : option ClientError)
    (candidates : list SessionTransport) : Op ClientSnapshot :=
  match candidates with
  | [] =>
    let error := default NoCompatibleTransport last in
    _ ← fail error; throw error
  | t :: rest =>
    match List.find (fun a => adapter_supports a t) adapters with
    | None => panics (str "the selector admitted only supported transports")
    | Some a =>
      let summary := summary_of (st_profile t) in
      _ ← update_snapshot (fun s => set_sn_issue None (set_reconnect_attempt (if reconnecting then index + 1 else 0)
            (set_active_transport (Some summary) (set_phase (if reconnecting then Reconnecting else Probing) s))));
      probed ← probe_transport a t;
      match probed with
      | ProbeCancelled => finish_cancelled_connection
      | ProbeFailed error =>
        _ ← note_failure summary error StageProbe;
        connect_each reconnecting options (index + 1) (Some error) rest
      | Reachable probe =>
        _ ← update_snapshot (set_phase (if reconnecting then Reconnecting else Connecting));
        outcome ← start a t probe options;
        match outcome with
        | None => finish_cancelled_connection
        | Some (Ok (started, latency_ms)) =>
          cancelled ← with_env env_cancelled;
          if (cancelled : bool) then
            stopped ← attempted (stop_and_retain_on_failure started);
            match stopped with
            | Err error => _ ← fail error; throw error
            | Ok _ => finish_cancelled_connection
            end
          else connected t probe started latency_ms
        | Some (Err error) =>
          _ ← note_failure summary error StageConnect;
          connect_each reconnecting options (index + 1) (Some error) rest
        end
      end
    end
  end.

(** [connect_locked]. *)
Definition is_connected (t : option Tunnel) (e : Env) : bool :=
  match t with Some t => match tunnel_status t e with Connected => true | _ => false end | None => false end.
Definition load_history : Op unit := fun c =>
  if memory (runtime c) then
    let '(h, e) := memory_load (env c) in (Ok tt, mkClient (set_history h (runtime c)) (snapshot c) e (live c) (strays c))
  else (Ok tt, c).
(** Its part after the check that nothing is connected. *)
Definition connect_fresh (reconnecting : bool) : Op ClientSnapshot :=
  stale ← take_tunnel;
  _ ← (match stale with Some t => stop_and_retain_on_failure t | None => mret tt end);
  _ ← load_history;
  r ← asks runtime;
  match session r with
  | None => throw NotEnrolled
  | Some m =>
    now ← unix_now;
    let candidates := rank_for policy (transports m) adapters (history r) now (rt_preferred r) (automatic_excluded r) in
    let missing := match rt_preferred r with
                   | Some p => if existsb (fun t => bool_decide (tp_protocol (st_profile t) = p)) (transports m) then None else Some p
                   | None => None
                   end in
    _ ← (if reconnecting then mret tt else update_snapshot (set_fallbacks []));
    match candidates with
    | [] =>
      let error := match missing with Some p => PreferredProtocolUnavailable (protocol_label p) | None => NoCompatibleTransport end in
      _ ← fail error; throw error
    | _ => connect_each reconnecting (connect_options r) 0 None candidates
    end
  end.
Definition connect_locked (reconnecting : bool) : Op ClientSnapshot :=
  up ← asks (fun c => is_connected (tunnel (runtime c)) (env c));
  if (up : bool) then throw AlreadyConnected else connect_fresh reconnecting.

(** [reconnect_locked]. *)
Definition reconnect_locked : Op ClientSnapshot :=
  outcome ← attempted (connect_locked true);
  match outcome with
  | Ok s => mret s
  | Err connection_error =>
    now ← unix_now;
    r ← asks runtime;
    refreshed ← attempted (refresh_locked (renew_due now r) false);
    match refreshed with
    | Err error => if ends_session error then throw error else _ ← fail connection_error; throw connection_error
    | Ok _ => _ ← fail connection_error; throw connection_error
    end
  end.

(** * The operations *)

(** [enroll]. *)
Definition enroll (access_code : list byte) : Op ClientSnapshot :=
  match validate_access_code access_code with
  | Err e => throw e
  | Ok _ =>
    enrolled ← asks (fun c => bool_decide (is_Some (session (runtime c))));
    if (enrolled : bool) then throw (InvalidInput (str "disconnect the current enrollment before entering a new code"))
    else
      _ ← update_snapshot (fun s => set_reconnect_attempt 0 (set_sn_issue None (set_phase Enrolling s)));
      created ← attempted (with_env_result (env_create_session access_code client_name));
      match created with
      | Err error => _ ← fail error; throw error
      | Ok m =>
        now ← unix_now;
        match validate_manifest m now with
        | Err error =>
          _ ← (if is_ok (split_session_token (session_token m))
               then _ ← attempted (with_env_result (env_release_session (session_token m))); mret tt else mret tt);
          _ ← fail error; throw error
        | Ok _ =>
          let available := map (fun t => summary_of (st_profile t))
                             (filter (fun t => existsb (fun a => adapter_supports a t) adapters = true) (transports m)) in
          now ← unix_now;
          _ ← update_runtime (fun r => set_session (Some m) (set_renew_at (Some (renewal_deadline now (session_expires_at m))) r));
          _ ← update_snapshot (fun s => apply_advice (manifest_updates m) (set_sn_issue None
                (set_sn_access_expires (manifest_access_expires_at m) (set_sn_session_expires (Some (session_expires_at m))
                (set_available_transports available (set_node (Some (manifest_node m)) (set_phase Enrolled s)))))));
          shown
        end
      end
  end.

(** [set_connect_options], [set_transport_memory] and
    [set_automatic_exclusions]. *)
Definition use_connect_options (o : ConnectOptions) : Op unit := update_runtime (set_connect_options o).
Definition use_transport_memory : Op unit := update_runtime (set_memory true).
Definition use_automatic_exclusions (excluded : gset TransportProtocol) : Op unit := update_runtime (set_automatic_excluded excluded).

(** [connect_with_protocol]. *)
Definition connect_with_protocol (preferred : option TransportProtocol) : Op ClientSnapshot :=
  enrolled ← asks (fun c => bool_decide (is_Some (session (runtime c))));
  if negb enrolled then throw NotEnrolled
  else
    _ ← update_runtime (fun r => set_rt_preferred preferred (set_connection_requested true r));
    _ ← update_snapshot (set_sn_preferred preferred);
    renewed ← attempted renew_before_connect_locked;
    match renewed with
    | Err error => _ ← update_runtime (set_connection_requested false); throw error
    | Ok _ =>
      outcome ← attempted (connect_locked false);
      match outcome with
      | Err error => _ ← update_runtime (set_connection_requested false); throw error
      | Ok s => mret s
      end
    end.

(** [refresh] and [renew]. *)
Definition refresh : Op ClientSnapshot := refresh_locked false true.
Definition renew : Op ClientSnapshot := refresh_locked true true.

(** [maintain_once], by its parts: the tunnel was lost, the control plane was
    not reached, and the whole. *)
Definition lost_reason (status : TunnelStatus) : list byte :=
  match status with Failed message => message | _ => str "the connection stopped" end.
Definition recover (error : ClientError) : Op ClientSnapshot :=
  requested ← asks (fun c => connection_requested (runtime c));
  if (requested : bool) then
    _ ← update_runtime (set_control_failures 0);
    t ← take_tunnel;
    match t with
    | None => throw error
    | Some t =>
      _ ← stop_and_retain_on_failure t;
      _ ← record_lost_tunnel (tunnel_id t) (str "route_unhealthy") (str "the protected route stopped reaching the server");
      reconnect_locked
    end
  else throw error.
Definition unreachable (error : ClientError) : Op ClientSnapshot :=
  _ ← update_runtime (fun r => set_control_failures (Z.min (control_failures r + 1) u8_max) r);
  r ← asks runtime;
  offline ← asks (fun c => match tunnel (runtime c) with Some t => offline (tunnel_network t (env c)) | None => false end);
  let active := connection_requested r && bool_decide (is_Some (tunnel r)) in
  let verify := (2 <=? control_failures r) && active in
  if active && offline then _ ← update_snapshot (set_sn_issue (Some (issue error))); shown
  else
    healthy ← (if active then (if verify then with_env env_healthy else mret true) else mret false);
    if active && healthy then _ ← update_snapshot (set_sn_issue None); shown
    else if negb verify then throw error
    else recover error.
(** The refresh of the lease at its end. *)
Definition keep_lease : Op ClientSnapshot :=
  now ← unix_now;
  r ← asks runtime;
  outcome ← attempted (refresh_locked (renew_due now r) false);
  match outcome with
  | Ok s => mret s
  | Err (NetworkError reason) => unreachable (NetworkError reason)
  | Err error => throw error
  end.
(** A tunnel that is no longer connected. *)
Definition lost_tunnel (t : Tunnel) (status : TunnelStatus) (requested : bool) : Op ClientSnapshot :=
  _ ← stop_and_retain_on_failure t;
  if requested then
    _ ← record_lost_tunnel (tunnel_id t) (str "transport_lost") (lost_reason status);
    reconnect_locked
  else
    enrolled ← asks (fun c => bool_decide (is_Some (session (runtime c))));
    _ ← update_snapshot (idle_snapshot (if (enrolled : bool) then Enrolled else Disconnected));
    if (enrolled : bool) then keep_lease else shown.
Definition maintain_once : Op ClientSnapshot :=
  t ← asks (fun c => tunnel (runtime c));
  requested ← asks (fun c => connection_requested (runtime c));
  match t with
  | Some t =>
    status ← asks (fun c => tunnel_status t (env c));
    match status with
    | Connected => keep_lease
    | _ => _ ← update_runtime (set_tunnel None); lost_tunnel t status requested
    end
  | None => if (requested : bool) then reconnect_locked else keep_lease
  end.

(** [disconnect]. *)
Definition left_snapshot (s : ClientSnapshot) : ClientSnapshot :=
  set_sn_issue None (set_sn_access_expires None (set_sn_session_expires None (set_allowance None (set_traffic None
    (set_sn_preferred None (set_available_transports [] (set_active_transport None (set_node None (set_phase Disconnected s))))))))).
(** Its part once there is a tunnel to stop or a session to release. *)
Definition leave (t : option Tunnel) (token : option (list byte)) : Op ClientSnapshot :=
  _ ← update_snapshot (fun s => set_sn_issue None (set_phase Disconnecting s));
  stopped ← attempted (match t with Some t => stop_and_retain_on_failure t | None => mret tt end);
  match stopped with
  | Err error => _ ← show_error error; throw error
  | Ok _ =>
    _ ← update_snapshot (fun s => set_reconnect_attempt 0 (set_handshake_latency_ms None (set_connected_at None (set_active_transport None s))));
    released ← attempted (match token with Some token => with_env_result (env_release_session token) | None => mret tt end);
    match (match released with Err e => if is_unauthorized e then None else Some e | Ok _ => None end) with
    | Some error => _ ← show_error error; throw error
    | None =>
      _ ← forget_session;
      _ ← update_snapshot (fun s => set_reconnect_attempt 0 (set_handshake_latency_ms None (set_connected_at None (left_snapshot s))));
      shown
    end
  end.
Definition disconnect : Op ClientSnapshot :=
  _ ← update_runtime (fun r => set_rt_preferred None (set_connection_requested false r));
  t ← take_tunnel;
  token ← asks (fun c => session_token <$> session (runtime c));
  if bool_decide (t = None) && bool_decide (token = None) then _ ← update_snapshot left_snapshot; shown
  else leave t token.

(** [stop_tunnel]. *)
Definition stop_tunnel : Op ClientSnapshot :=
  _ ← update_runtime (fun r => set_control_failures 0 (set_connection_requested false r));
  t ← take_tunnel;
  enrolled ← asks (fun c => bool_decide (is_Some (session (runtime c))));
  let idle := if (enrolled : bool) then Enrolled else Disconnected in
  match t with
  | None => _ ← update_snapshot (idle_snapshot idle); shown
  | Some t =>
    _ ← update_snapshot (fun s => set_sn_issue None (set_phase Disconnecting s));
    stopped ← attempted (stop_and_retain_on_failure t);
    match stopped with
    | Ok _ => _ ← update_snapshot (idle_snapshot idle); shown
    | Err error => _ ← show_error error; throw error
    end
  end.

(** [network_moved] and [verify_after_network_change]. *)
Definition network_moved : Op bool :=
  report ← asks (fun c => match tunnel (runtime c) with Some t => Some (tunnel_network t (env c)) | None => None end);
  current ← asks (fun c => network_generation (runtime c));
  match report with
  | None => mret false
  | Some report =>
    if offline report || (generation report =? current) then mret false
    else _ ← update_runtime (set_network_generation (generation report)); mret true
  end.
Definition verify_after_network_change : Op ClientSnapshot :=
  requested ← asks (fun c => connection_requested (runtime c));
  t ← asks (fun c => tunnel (runtime c));
  match (if (requested : bool) then t else None) with
  | None => shown
  | Some t =>
    offline ← asks (fun c => offline (tunnel_network t (env c)));
    healthy ← (if (offline : bool) then mret true else with_env env_healthy);
    if (healthy : bool) then shown
    else
      current ← take_tunnel;
      _ ← (match current with Some t => stop_and_retain_on_failure t | None => mret tt end);
      reconnect_locked
  end.
End client.
