(* ===== verification/Gateway.v ===== *)
(** Model of crates/ket-server/src/invite.rs (the node's identity: invites and
    enrollment signatures) and api/sealed.rs (sealed session requests, their
    replay window and their answers). *)

From Stdlib Require Import ZArith Lia.
From stdpp Require Import gmap strings.
From S2P Require Import Prelude Utf8 Vendor Cbor Locator Capsule Text Invite Tunnel Seal Contract Control.

(** * invite.rs *)

(** [InviteIssuer]; the signing key is its seed.  [anyhow] errors are their
    messages. *)
Record InviteIssuer := mkIssuer { signing_key : list byte; opening_key : NodeOpeningKey; locator : Locator }.

Inductive IssuerError := BadKey | BadPublicUrl | NoSeed | CannotWrap | CannotSign | CannotEncode.

Section issuer.
Context `{Ed25519, Hashes, Encodings, UrlParser, Hpke}.

(** [InviteIssuer::new] and [from_configured_key]. *)
Definition issuer_new (key : list byte) (public_url : list byte) : result IssuerError InviteIssuer :=
  let* l := map_err (fun _ => BadPublicUrl) (ket_locator_from_public_url public_url) in
  let* seed := ok_or (base64url_decode (base64url_encode key)) NoSeed in
  require (length seed =? 32)%nat else NoSeed in
  Ok (mkIssuer key (opening_from_seed seed) l).
Definition from_configured_key (value : option (list byte)) (public_url : list byte) : result IssuerError (option InviteIssuer) :=
  match value with
  | None | Some [] => Ok None
  | Some value =>
    let* key := map_err (fun _ => BadKey) (signing_key_from_base64url value) in
    let* issuer := issuer_new key public_url in
    Ok (Some issuer)
  end.

(** [fingerprint], [issue] and [sign_enrollment]. *)
Definition fingerprint (i : InviteIssuer) : list byte := node_fingerprint (sk_verifying_key (signing_key i)).
Definition issue_invite (i : InviteIssuer) (access_code : list byte) (expires_at : Z) : result IssuerError (list byte) :=
  let* c := map_err (fun _ => CannotWrap)
              (ket_capsule (sk_verifying_key (signing_key i)) [locator i] access_code (Some expires_at)) in
  let* invite := map_err (fun _ => CannotSign) (sign c (signing_key i)) in
  map_err (fun _ => CannotEncode) (encode_invite_text invite).
Definition sign_enrollment (i : InviteIssuer) (nonce body : list byte) : list byte := proof_sign (signing_key i) nonce body.
End issuer.

(** * The replay window *)

Definition REPLAY_CAPACITY : nat := Z.to_nat 65536.
Definition MAX_INNER_RESPONSE_BYTES : Z := 128 * 1024.

Record ReplayWindow := mkWindow {
  capacity : nat; window_seconds : Z; seen : gset (list byte); order : list (list byte * Z);
}.
Definition window_new (capacity : nat) (window_seconds : Z) : ReplayWindow := mkWindow capacity window_seconds ∅ [].

(** The loop that forgets what the window is past. *)
Fixpoint forget_old (window_seconds now : Z) (seen : gset (list byte)) (order : list (list byte * Z))
    : gset (list byte) * list (list byte * Z) :=
  match order with
  | (old, at_) :: rest =>
    if sat_sub64 now at_ <=? window_seconds then (seen, order)
    else forget_old window_seconds now (seen ∖ {[old]}) rest
  | [] => (seen, [])
  end.

(** [ReplayWindow::insert]. *)
Definition window_insert (id : list byte) (now : Z) (w : ReplayWindow) : bool * ReplayWindow :=
  let '(s, o) := forget_old (window_seconds w) now (seen w) (order w) in
  if bool_decide (id ∈ s) then (false, mkWindow (capacity w) (window_seconds w) s o)
  else
    let '(s, o) :=
      if (capacity w <=? length o)%nat
      then match o with (oldest, _) :: rest => (s ∖ {[oldest]}, rest) | [] => (s, o) end
      else (s, o) in
    (true, mkWindow (capacity w) (window_seconds w) ({[id]} ∪ s) (o ++ [(id, now)])).

(** * The gateway *)

(** [Answer], and a request to the session routes. *)
Record Answer := mkAnswer { an_status : Z; an_body : option (list byte) }.
Record InnerRequest := mkInner {
  in_method : SealedMethod; in_uri : list byte; in_headers : list (list byte * list byte); in_body : list byte;
}.
(** An answer of the session routes; the body is missing when it broke off. *)
Record InnerResponse := mkInnerResponse { ir_status : Z; ir_body : option (list byte) }.

Section gateway.
Context `{Ed25519, HeaderValues, Hpke, Json ErrorResponse, Json SealedControlRequest, Json SealedControlResponse}.

(** [error] and [internal]. *)
Definition error (status : Z) (code message : list byte) : Answer :=
  mkAnswer status (json_to_vec (mkErrorResponse code message None)).
Definition internal : Answer := error 500 (str "internal_error") (str "internal server error").

(** [inner_request]: only the session routes are reachable. *)
Definition SESSIONS : list byte := str "/v1/sessions".
Definition SESSIONS_CURRENT : list byte := str "/v1/sessions/current".
Definition reachable (path : list byte) (m : SealedMethod) : bool :=
  match m with
  | Post => bool_decide (path = SESSIONS)
  | Get | Put | Delete => bool_decide (path = SESSIONS_CURRENT)
  end.
Definition header_if (name : list byte) (value : option (list byte)) : option (list (list byte * list byte)) :=
  match value with
  | None => Some []
  | Some v => if header_value_ok v then Some [(name, v)] else None
  end.
Definition inner_request (r : SealedControlRequest) : option InnerRequest :=
  if reachable (sr_path r) (sr_method r) then
    match header_if (str "authorization") ((fun b => str "Bearer " ++ b) <$> sr_bearer r) with
    | None => None
    | Some bearer =>
      match header_if CLIENT_HEADER (sr_client r) with
      | None => None
      | Some client =>
        let content := match sr_body r with Some _ => [(str "content-type", str "application/json")] | None => [] end in
        Some (mkInner (sr_method r) (sr_path r) (bearer ++ client ++ content) (default [] (sr_body r)))
      end
    end
  else None.

(** [seal_answer]: the status and the body of the outer answer. *)
Definition seal_answer (key : ResponseKey) (nonce : list byte) (answer : Answer) (now : Z) : Z * list byte :=
  match json_to_vec (mkSealedResponse (an_status answer) now (an_body answer)) with
  | Some plaintext => match response_seal key nonce plaintext with Ok sealed => (200, sealed) | Err _ => (500, []) end
  | None => (500, [])
  end.

(** The session routes with their state, as the gateway calls them. *)
Context {S : Type} (sessions : InnerRequest -> S -> InnerResponse * S).

Record SealedGateway := mkGateway { gw_key : NodeOpeningKey; gw_state : S; replays : ReplayWindow }.
Definition gateway_new (key : NodeOpeningKey) (state : S) : SealedGateway :=
  mkGateway key state (window_new REPLAY_CAPACITY (2 * SEALED_MAX_CLOCK_SKEW_SECONDS)).

(** [dispatch]. *)
Definition dispatch (r : SealedControlRequest) (state : S) : Answer * S :=
  match inner_request r with
  | None => (error 404 (str "not_found") (str "not found"), state)
  | Some inner =>
    let '(response, state) := sessions inner state in
    (match ir_body response with
     | Some body =>
       if zlen body <=? MAX_INNER_RESPONSE_BYTES then
         if valid_utf8 body then mkAnswer (ir_status response) (if bool_decide (body = []) then None else Some body)
         else internal
       else internal
     | None => internal
     end, state)
  end.

(** What becomes of a message before the session routes see it. *)
Inductive Screened :=
| NotOpened
| Answered (key : ResponseKey) (answer : Answer)
| Fresh (key : ResponseKey) (request : SealedControlRequest).
Definition screen (key : NodeOpeningKey) (body : list byte) (now : Z) (w : ReplayWindow) : Screened * ReplayWindow :=
  match open_request key body with
  | Err _ => (NotOpened, w)
  | Ok opened =>
    match json_from_slice (opened_plaintext opened) with
    | None => (Answered (sealer opened) (error 400 (str "invalid_request") (str "malformed request")), w)
    | Some request =>
      if SEALED_MAX_CLOCK_SKEW_SECONDS <? Z.abs (sent_at request - now) then
        (Answered (sealer opened)
           (error 400 SEALED_CLOCK_SKEW_CODE (str "this device's clock is too far from the server's")), w)
      else
        let '(fresh, w) := window_insert (replay_id opened) now w in
        if fresh then (Fresh (sealer opened) request, w)
        else (Answered (sealer opened) (error 409 SEALED_REPLAY_CODE (str "this request was already answered")), w)
    end
  end.

(** [SealedGateway::handle] at [now], with the nonce its answer draws. *)
Definition handle (body : list byte) (now : Z) (nonce : list byte) (g : SealedGateway) : (Z * list byte) * SealedGateway :=
  let '(screened, w) := screen (gw_key g) body now (replays g) in
  match screened with
  | NotOpened => ((404, []), mkGateway (gw_key g) (gw_state g) w)
  | Answered key answer => (seal_answer key nonce answer now, mkGateway (gw_key g) (gw_state g) w)
  | Fresh key request =>
    let '(answer, state) := dispatch request (gw_state g) in
    (seal_answer key nonce answer now, mkGateway (gw_key g) state w)
  end.
End gateway.
Arguments SealedGateway : clear implicits.
