(* ===== verification/SealedDemo.v ===== *)
(** Concrete stand-ins for what sealed control uses - HPKE, JSON, URLs and the
    session routes - with their laws, on which the theorems about it run. *)

From Stdlib Require Import ZArith Lia.
From stdpp Require Import gmap strings countable.
From S2P Require Import Prelude Utf8 Vendor Instances Tunnel Update Seal Contract Control Gateway.

(** * HPKE without secrecy: a message and a tag. *)

Definition demo_tag : list byte := replicate 16 (z2b 9).
Definition tagged (plaintext : list byte) : list byte := plaintext ++ demo_tag.
Definition untagged (ciphertext : list byte) : option (list byte) :=
  let n := (length ciphertext - 16)%nat in
  if bool_decide (drop n ciphertext = demo_tag) then Some (take n ciphertext) else None.

Lemma untagged_tagged l : untagged (tagged l) = Some l.
Proof.
  unfold untagged, tagged. rewrite length_app. change (length demo_tag) with 16%nat. rewrite Nat.add_sub.
  rewrite drop_app_length, take_app_length. by rewrite bool_decide_true.
Qed.
Lemma length_tagged l : length (tagged l) = (length l + 16)%nat.
Proof. unfold tagged. by rewrite length_app. Qed.

#[export] Instance demo_hpke : Hpke := {|
  vk_to_montgomery k := k;
  sk_to_scalar_bytes seed := pad_to 32 seed;
  pk_from_bytes_ok k := (length k =? 32)%nat;
  sk_to_pk k := k;
  HpkeContext := list byte;
  setup_sender random pk info := Some (pad_to 32 random, pk ++ pad_to 32 random ++ info);
  enc_from_bytes_ok k := (length k =? 32)%nat;
  setup_receiver sk enc info := Some (sk ++ enc ++ info);
  context_seal _ plaintext _ := Some (tagged plaintext);
  context_open _ ciphertext _ := untagged ciphertext;
  context_export context label n := Some (pad_to n (to_be 16 (mix (context ++ label))));
  hkdf_expand salt ikm info n := Some (pad_to n (to_be 16 (mix (salt ++ ikm ++ info))));
  aead_encrypt _ _ plaintext := Some (tagged plaintext);
  aead_decrypt _ _ ciphertext := untagged ciphertext;
|}.
#[export] Instance demo_hpke_laws : HpkeLaws.
Proof.
  split.
  - done.
  - intros random sk info enc context HE. injection HE as <- <-. split_and!; [apply length_pad_to|cbn; by rewrite length_pad_to|].
    eexists. split; [done|]. split; [|done]. intros plaintext aad ciphertext HS. injection HS as <-. apply untagged_tagged.
  - intros context plaintext aad ciphertext HS. injection HS as <-. apply length_tagged.
  - intros context label n secret HS. injection HS as <-. apply length_pad_to.
  - intros key nonce plaintext ciphertext HS. injection HS as <-. apply untagged_tagged.
Qed.
#[export] Instance demo_hpke_total : HpkeTotal.
Proof.
  split; intros; try by eexists. eexists. split; [done|]. apply length_tagged.
Qed.

(** * JSON: a value as its number. *)

Definition countable_json {T} `{Countable T} : Json T := {|
  json_to_vec v := Some (z2b 123 :: pos_bytes (encode v));
  json_from_slice l := decode (bytes_pos (drop 1 l));
|}.
Lemma countable_json_laws {T} `{Countable T} : @JsonLaws T countable_json.
Proof. intros v l HE. injection HE as <-. split; [|done].
  change (decode (bytes_pos (pos_bytes (encode v))) = Some v). by rewrite bytes_pos_bytes, decode_encode. Qed.

#[export] Instance ClientUpdate_eq_dec : EqDecision ClientUpdate.
Proof. solve_decision. Defined.
#[export] Instance ErrorResponse_eq_dec : EqDecision ErrorResponse.
Proof. solve_decision. Defined.
#[export] Instance SealedControlRequest_eq_dec : EqDecision SealedControlRequest.
Proof. solve_decision. Defined.
#[export] Instance SealedControlResponse_eq_dec : EqDecision SealedControlResponse.
Proof. solve_decision. Defined.

#[export] Instance ClientUpdateStatus_countable : Countable ClientUpdateStatus.
Proof.
  refine (inj_countable' (fun s => match s with Current => 0 | OptionalStatus => 1 | RecommendedStatus => 2 | SecurityStatus => 3 | Required => 4 end)%nat
    (fun n => match n with 0 => Current | 1 => OptionalStatus | 2 => RecommendedStatus | 3 => SecurityStatus | _ => Required end)%nat _). by intros [].
Defined.
#[export] Instance ClientUpdate_countable : Countable ClientUpdate.
Proof.
  refine (inj_countable' (fun u => (update_status u, latest_version u, required_after u, update_summary u, update_download_url u))
    (fun '(a, b, c, d, e) => mkUpdateAdvice a b c d e) _). by intros [].
Defined.
#[export] Instance ErrorResponse_countable : Countable ErrorResponse.
Proof. refine (inj_countable' (fun e => (er_code e, er_message e, er_update e)) (fun '(a, b, c) => mkErrorResponse a b c) _). by intros []. Defined.
#[export] Instance SealedMethod_countable : Countable SealedMethod.
Proof.
  refine (inj_countable' (fun m => match m with Get => 0 | Post => 1 | Put => 2 | Delete => 3 end)%nat
    (fun n => match n with 0 => Get | 1 => Post | 2 => Put | _ => Delete end)%nat _). by intros [].
Defined.
#[export] Instance SealedControlRequest_countable : Countable SealedControlRequest.
Proof.
  refine (inj_countable' (fun r => (sr_method r, sr_path r, sent_at r, sr_bearer r, sr_client r, sr_body r))
    (fun '(a, b, c, d, e, f) => mkSealedRequest a b c d e f) _). by intros [].
Defined.
#[export] Instance SealedControlResponse_countable : Countable SealedControlResponse.
Proof. refine (inj_countable' (fun r => (sp_status r, server_time r, sp_body r)) (fun '(a, b, c) => mkSealedResponse a b c) _). by intros []. Defined.

#[export] Instance error_json : Json ErrorResponse := countable_json.
#[export] Instance request_json : Json SealedControlRequest := countable_json.
#[export] Instance response_json : Json SealedControlResponse := countable_json.
#[export] Instance error_json_laws : JsonLaws ErrorResponse := countable_json_laws.
#[export] Instance request_json_laws : JsonLaws SealedControlRequest := countable_json_laws.
#[export] Instance response_json_laws : JsonLaws SealedControlResponse := countable_json_laws.

(** * URLs and headers *)

#[export] Instance demo_url_ops : UrlOps := {|
  url_host_str u := match url_host u with Some (Domain d) => Some d | _ => None end;
  url_set_path u path := {| url_scheme := url_scheme u; url_username := url_username u; url_password := url_password u; url_host := url_host u;
    url_port_or_known_default := url_port_or_known_default u; url_path := path; url_query := url_query u; url_fragment := url_fragment u |};
  url_join u path := Some {| url_scheme := url_scheme u; url_username := url_username u; url_password := url_password u; url_host := url_host u;
    url_port_or_known_default := url_port_or_known_default u; url_path := url_path u ++ path; url_query := None; url_fragment := None |};
|}.
#[export] Instance demo_headers : HeaderValues := fun v => forallb (fun b => (32 <=? b2z b) && negb (b2z b =? 127)) v.

(** * Session routes that count their calls *)

Definition demo_sessions (r : InnerRequest) (n : nat) : InnerResponse * nat := (mkInnerResponse 200 (Some (str "{}")), S n).

Definition node_seed : list byte := str "0123456789abcdef0123456789abcdef".
Definition demo_gateway : SealedGateway nat := gateway_new (opening_from_seed node_seed) 0%nat.
Definition demo_base : Url :=
  {| url_scheme := str "https"; url_username := []; url_password := None; url_host := Some (Domain (str "vpn.ket-node.net"));
     url_port_or_known_default := Some 443; url_path := str "/"; url_query := None; url_fragment := None |}.
Definition demo_request : ControlRequest := mkControlRequest Get (str "v1/sessions/current") (Some (str "token")) None.
Definition demo_nonce : list byte := replicate 32 (z2b 5).
