(* ===== verification/ClientProps.v ===== *)
(** Properties of the client: no tunnel is lost or doubled, what is shown
    agrees with what runs, leaving leaves nothing behind, and a tunnel is kept
    while the device is offline. *)

From Stdlib Require Import ZArith Lia.
From stdpp Require Import gmap strings relations.
From S2P Require Import Prelude Order Utf8 Vendor Allowance Grant Strategy Update Contract Control Validation Client Instances InviteProps SealedDemo.

Section props.
Context `{ClientEnv, UrlParser, UrlOps}.
Context (client_name : list byte) (adapters : list TransportAdapter) (policy : SelectionPolicy).

(** * Reasoning about operations *)

(** The part of a client the invariant is about. *)
Record View := mkView { v_session : bool; v_tunnel : option Tunnel; v_live : list Tunnel; v_phase : ClientPhase }.
Definition view (c : Client) : View :=
  mkView (bool_decide (is_Some (session (runtime c)))) (tunnel (runtime c)) (live c) (phase (snapshot c)).
(** A tunnel that a connect which failed or was cancelled left running. *)
Definition abandoned (t : Tunnel) : Prop := exists a st p o e,
  t ∈ env_left_running a st p o e /\ match (env_connect a st p o e).1 with Some (Ok _) => False | _ => True end.
(** What every operation keeps, whatever it is about. *)
Definition few (c : Client) : Prop := (length (fallbacks (snapshot c)) <= MAX_FALLBACKS)%nat /\ Forall abandoned (strays c).

(** From a client whose view satisfies [P], [m] ends as [Q] says. *)
Definition triple {A} (P : View -> Prop) (m : Op A) (Q : result ClientError A -> View -> Prop) : Prop :=
  forall c, few c -> P (view c) -> few (m c).2 /\ Q (m c).1 (view (m c).2).
(** [m] leaves the view as it is. *)
Definition quiet {A} (m : Op A) : Prop := forall c, few c -> few (m c).2 /\ view (m c).2 = view c.

Lemma t_conseq {A} (P P' : View -> Prop) (m : Op A) Q Q' :
  triple P m Q -> (forall v, P' v -> P v) -> (forall r v, Q r v -> Q' r v) -> triple P' m Q'.
Proof. intros HT HP HQ c Hc Hv. destruct (HT c Hc (HP _ Hv)) as [??]. eauto. Qed.
Lemma t_post {A} P (m : Op A) (Q Q' : result ClientError A -> View -> Prop) : triple P m Q -> (forall r v, Q r v -> Q' r v) -> triple P m Q'.
Proof. intros HT HQ. by eapply t_conseq. Qed.
Lemma t_pre {A} (P P' : View -> Prop) (m : Op A) Q : triple P m Q -> (forall v, P' v -> P v) -> triple P' m Q.
Proof. intros HT HP. by eapply t_conseq. Qed.
Lemma t_ret {A} (P : View -> Prop) (a : A) (Q : result ClientError A -> View -> Prop) : (forall v, P v -> Q (Ok a) v) -> triple P (mret a : Op A) Q.
Proof. intros HQ c Hc Hv. split; [done|]. by apply HQ. Qed.
Lemma t_throw {A} (P : View -> Prop) e (Q : result ClientError A -> View -> Prop) : (forall v, P v -> Q (Err e) v) -> triple P (throw e : Op A) Q.
Proof. intros HQ c Hc Hv. split; [done|]. by apply HQ. Qed.
Lemma t_bind {A B} P (m : Op A) (f : A -> Op B) (R : A -> View -> Prop) Q :
  triple P m (fun r v => match r with Ok a => R a v | Err e => Q (Err e) v end) ->
  (forall a, triple (R a) (f a) Q) -> triple P (m ≫= f) Q.
Proof.
  intros HM HF c Hc Hv. unfold mbind, op_bind. destruct (HM c Hc Hv) as [Hc1 HR]. destruct (m c) as [[a|e] c1]; cbn [fst snd] in *; [|done].
  by apply HF.
Qed.
Lemma t_quiet {A} (P : View -> Prop) (m : Op A) : quiet m -> triple P m (fun _ v => P v).
Proof. intros HQ c Hc Hv. destruct (HQ c Hc) as [? ->]. done. Qed.
(** A quiet step, whatever it gives or throws. *)
Lemma t_skip {A B} (P : View -> Prop) (m : Op A) (f : A -> Op B) Q :
  quiet m -> (forall a, triple P (f a) Q) -> (forall e v, P v -> Q (Err e) v) -> triple P (m ≫= f) Q.
Proof.
  intros HQ HF HE. eapply (t_bind _ _ _ (fun _ => P)); [|done]. eapply t_post; [by apply t_quiet|]. intros [a|e] v Hv; [done|by apply HE].
Qed.
Lemma t_attempted {A B} P (m : Op A) (f : result ClientError A -> Op B) R Q :
  triple P m R -> (forall r, triple (R r) (f r) Q) -> triple P (attempted m ≫= f) Q.
Proof.
  intros HM HF c Hc Hv. unfold mbind, op_bind, attempted. destruct (HM c Hc Hv) as [Hc1 HR]. destruct (m c) as [r c1]. by apply HF.
Qed.
Lemma t_if {A} (b : bool) P (m n : Op A) Q : (b = true -> triple P m Q) -> (b = false -> triple P n Q) -> triple P (if b then m else n) Q.
Proof. destruct b; auto. Qed.

(** A step that succeeds. *)
Definition succeeds {A} (m : Op A) : Prop := forall c, exists a, (m c).1 = Ok a.
Lemma t_skip_ok {A B} (P : View -> Prop) (m : Op A) (f : A -> Op B) Q :
  quiet m -> succeeds m -> (forall a, triple P (f a) Q) -> triple P (m ≫= f) Q.
Proof.
  intros HQ HS HF c Hc Hv. unfold mbind, op_bind. destruct (HQ c Hc) as [Hc1 HV]. destruct (HS c) as [a Ha].
  destruct (m c) as [r c1]. cbn [fst snd] in *. subst r. apply HF; [done|]. by rewrite HV.
Qed.

Lemma quiet_ret {A} (a : A) : quiet (mret a).
Proof. by intros c. Qed.
Lemma quiet_asks {A} (f : Client -> A) : quiet (asks f).
Proof. by intros c. Qed.
Lemma quiet_with_env {A} (f : Env -> A * Env) : quiet (with_env f).
Proof. intros c Hc. unfold with_env. by destruct (f (env c)). Qed.
Lemma quiet_with_env_result {A} (f : Env -> result ClientError A * Env) : quiet (with_env_result f).
Proof. intros c Hc. unfold with_env_result. by destruct (f (env c)). Qed.
Lemma quiet_runtime f : (forall r, tunnel (f r) = tunnel r /\ (is_Some (session (f r)) <-> is_Some (session r))) -> quiet (update_runtime f).
Proof.
  intros Hf c Hc. split; [done|]. unfold view, update_runtime. cbn [snd runtime live snapshot]. destruct (Hf (runtime c)) as [-> HS].
  f_equal. by apply bool_decide_ext.
Qed.
Lemma quiet_snapshot f : (forall s, phase (f s) = phase s) ->
  (forall s, (length (fallbacks s) <= MAX_FALLBACKS)%nat -> (length (fallbacks (f s)) <= MAX_FALLBACKS)%nat) -> quiet (update_snapshot f).
Proof.
  intros Hp Hf c Hc. unfold update_snapshot, few, view. destruct (env_time (env c)). cbn. rewrite Hp. destruct Hc as [Hl Ha]. split; [split; [by apply Hf|done]|done].
Qed.
Lemma quiet_bind {A B} (m : Op A) (f : A -> Op B) : quiet m -> (forall a, quiet (f a)) -> quiet (m ≫= f).
Proof.
  intros HM HF c Hc. unfold mbind, op_bind. destruct (HM c Hc) as [Hc1 HV]. destruct (m c) as [[a|e] c1]; cbn [snd] in *; [|done].
  destruct (HF a c1 Hc1) as [? ->]. done.
Qed.
Lemma quiet_attempted {A} (m : Op A) : quiet m -> quiet (attempted m).
Proof. intros HM c Hc. unfold attempted. specialize (HM c Hc). by destruct (m c). Qed.
Lemma quiet_save : quiet save_history.
Proof. by intros c. Qed.
Lemma quiet_load : quiet load_history.
Proof. intros c Hc. unfold load_history. destruct (memory (runtime c)); [|done]. by destruct (memory_load (env c)). Qed.
Lemma quiet_throw {A} e : quiet (throw e : Op A).
Proof. by intros c. Qed.

Lemma succeeds_asks {A} (f : Client -> A) : succeeds (asks f).
Proof. intros c. by eexists. Qed.
Lemma succeeds_with_env {A} (f : Env -> A * Env) : succeeds (with_env f).
Proof. intros c. unfold with_env. destruct (f (env c)). by eexists. Qed.
Lemma succeeds_runtime f : succeeds (update_runtime f).
Proof. intros c. by eexists. Qed.
Lemma succeeds_snapshot f : succeeds (update_snapshot f).
Proof. intros c. unfold update_snapshot. destruct (env_time (env c)). by eexists. Qed.
Lemma succeeds_ret {A} (a : A) : succeeds (mret a).
Proof. intros c. by eexists. Qed.
Lemma succeeds_bind {A B} (m : Op A) (f : A -> Op B) : succeeds m -> (forall a, succeeds (f a)) -> succeeds (m ≫= f).
Proof.
  intros HM HF c. unfold mbind, op_bind. destruct (HM c) as [a Ha]. destruct (m c) as [r c1]. cbn in Ha. subst r. apply HF.
Qed.
Lemma succeeds_save : succeeds save_history.
Proof. intros c. by eexists. Qed.
Lemma succeeds_load : succeeds load_history.
Proof. intros c. unfold load_history. destruct (memory (runtime c)); [|by eexists]. destruct (memory_load (env c)). by eexists. Qed.
Lemma succeeds_attempted {A} (m : Op A) : succeeds (attempted m).
Proof. intros c. unfold attempted. destruct (m c). by eexists. Qed.
Hint Resolve quiet_ret quiet_asks quiet_with_env quiet_with_env_result quiet_bind quiet_attempted quiet_save quiet_load quiet_throw
  succeeds_asks succeeds_with_env succeeds_runtime succeeds_snapshot succeeds_ret succeeds_bind succeeds_save succeeds_load succeeds_attempted : client.

Lemma quiet_now : quiet unix_now.
Proof. apply quiet_with_env. Qed.
Lemma succeeds_now : succeeds unix_now.
Proof. apply succeeds_with_env. Qed.
Lemma quiet_shown : quiet shown.
Proof. apply quiet_asks. Qed.
Lemma succeeds_shown : succeeds shown.
Proof. apply succeeds_asks. Qed.
Hint Resolve quiet_now succeeds_now quiet_shown succeeds_shown : client.
Ltac quietly := repeat first [solve [auto with client] | by apply quiet_runtime | by apply quiet_snapshot
  | apply quiet_bind; [|intros ?] | apply succeeds_bind; [|intros ?] | case_match].

Lemma push_fallback_few f l : (length (push_fallback f l) <= MAX_FALLBACKS)%nat.
Proof. unfold push_fallback. rewrite length_drop. lia. Qed.
Lemma quiet_note f : quiet (note_fallback f).
Proof. apply quiet_snapshot; [done|]. intros s _. apply push_fallback_few. Qed.
Lemma succeeds_note f : succeeds (note_fallback f).
Proof. apply succeeds_snapshot. Qed.
Hint Resolve quiet_note succeeds_note : client.
Lemma quiet_cool_down id : quiet (cool_down policy id).
Proof. unfold cool_down. quietly. Qed.
Lemma succeeds_cool_down id : succeeds (cool_down policy id).
Proof. unfold cool_down. quietly. Qed.
Hint Resolve quiet_cool_down succeeds_cool_down : client.
Lemma quiet_note_failure t e stage : quiet (note_failure policy t e stage).
Proof. unfold note_failure. quietly. Qed.
Lemma succeeds_note_failure t e stage : succeeds (note_failure policy t e stage).
Proof. unfold note_failure. quietly. Qed.
Lemma quiet_record_lost id code message : quiet (record_lost_tunnel policy id code message).
Proof. unfold record_lost_tunnel. quietly. Qed.
Lemma succeeds_record_lost id code message : succeeds (record_lost_tunnel policy id code message).
Proof. unfold record_lost_tunnel. quietly. Qed.
Hint Resolve quiet_note_failure succeeds_note_failure quiet_record_lost succeeds_record_lost : client.

(** * The invariant *)

(** No tunnel runs; one runs and is the client's; one runs that an operation
    took to stop it. *)
Definition idle (v : View) : Prop := v_tunnel v = None /\ v_live v = [].
Definition up (v : View) : Prop := exists t, v_tunnel v = Some t /\ v_live v = [t] /\ v_session v = true.
Definition held (t : Tunnel) (v : View) : Prop := v_tunnel v = None /\ v_live v = [t] /\ v_session v = true.
(** The client never shows a connection it has not. *)
Definition honest (v : View) : Prop := v_phase v = PhaseConnected -> is_Some (v_tunnel v).
Definition inv (v : View) : Prop := (idle v \/ up v) /\ honest v.
(** Where connecting may start. *)
Definition ready (v : View) : Prop := (idle v /\ (v_session v = true \/ v_phase v <> PhaseConnected)) \/ up v.

Lemma up_inv v : up v -> inv v.
Proof. intros Hu. split; [by right|]. intros _. destruct Hu as (t & -> & _). by eexists. Qed.
Lemma idle_inv v : idle v -> v_phase v <> PhaseConnected -> inv v.
Proof. intros Hi Hp. split; [by left|]. by intros ?. Qed.
Lemma inv_ready v : inv v -> ready v.
Proof.
  intros [[Hi|Hu] Hh]; [left|by right]. split; [done|]. right. intros Hp. destruct Hi as [Ht _]. specialize (Hh Hp). rewrite Ht in Hh. by destruct Hh.
Qed.
Hint Resolve up_inv idle_inv inv_ready : client.

(** A view with another phase. *)
Definition with_phase (p : ClientPhase) (v : View) : View := mkView (v_session v) (v_tunnel v) (v_live v) p.

Lemma t_phase {B} (P R : View -> Prop) p f (k : unit -> Op B) Q : (forall s, phase (f s) = p) ->
  (forall s, (length (fallbacks s) <= MAX_FALLBACKS)%nat -> (length (fallbacks (f s)) <= MAX_FALLBACKS)%nat) ->
  (forall v, P v -> R (with_phase p v)) -> (triple R (k tt) Q) -> triple P (update_snapshot f ≫= k) Q.
Proof.
  intros Hp Hf HR HK c Hc Hv. unfold mbind, op_bind, update_snapshot. destruct (env_time (env c)) as [now e]. apply HK.
  - destruct Hc as [Hl Ha]. split; [by apply Hf|done].
  - specialize (HR _ Hv). unfold view, with_phase in *. cbn [v_session v_tunnel v_live runtime live snapshot] in *.
    by replace (phase (set_updated_at now (f (snapshot c)))) with p by (symmetry; apply Hp).
Qed.
Lemma t_fail {A} (P : View -> Prop) e e' (Q : result ClientError A -> View -> Prop) :
  (forall v, P v -> Q (Err e') (with_phase PhaseError v)) -> triple P (fail e ≫= fun _ => throw e') Q.
Proof.
  intros HQ. unfold fail. eapply (t_phase P (Q (Err e')) PhaseError).
  - intros s. unfold show_update. by destruct (required_update e).
  - intros s Hs. unfold show_update. by destruct (required_update e).
  - done.
  - by apply t_throw.
Qed.
Lemma t_show_error {A} (P : View -> Prop) e e' (Q : result ClientError A -> View -> Prop) :
  (forall v, P v -> Q (Err e') (with_phase PhaseError v)) -> triple P (show_error e ≫= fun _ => throw e') Q.
Proof. intros HQ. unfold show_error. eapply (t_phase P (Q (Err e')) PhaseError); [done..|by apply t_throw]. Qed.
Lemma t_shown P (Q : result ClientError ClientSnapshot -> View -> Prop) : (forall s v, P v -> Q (Ok s) v) -> triple P shown Q.
Proof. intros HQ c Hc Hv. split; [done|]. by apply HQ. Qed.

(** Asking for the tunnel or the session gives what is there. *)
Lemma t_ask_tunnel {B} P (k : option Tunnel -> Op B) Q :
  (forall t, triple (fun v => P v /\ v_tunnel v = t) (k t) Q) -> triple P (asks (fun c => tunnel (runtime c)) ≫= k) Q.
Proof. intros HK c Hc Hv. by apply HK. Qed.
Lemma t_ask_session {B} P (k : option SessionManifest -> Op B) Q :
  (forall m, triple (fun v => P v /\ v_session v = bool_decide (is_Some m)) (k m) Q) -> triple P (asks (fun c => session (runtime c)) ≫= k) Q.
Proof. intros HK c Hc Hv. by apply HK. Qed.
Lemma t_ask_enrolled {B} P (k : bool -> Op B) Q :
  (forall b, triple (fun v => P v /\ v_session v = b) (k b) Q) -> triple P (asks (fun c => bool_decide (is_Some (session (runtime c)))) ≫= k) Q.
Proof. intros HK c Hc Hv. by apply HK. Qed.
Lemma t_ask_runtime {B} P (k : RuntimeState Tunnel -> Op B) Q :
  (forall r, triple (fun v => P v /\ v_tunnel v = tunnel r /\ v_session v = bool_decide (is_Some (session r))) (k r) Q) ->
  triple P (asks runtime ≫= k) Q.
Proof. intros HK c Hc Hv. by apply HK. Qed.
Lemma t_ask {A B} P (f : Client -> A) (k : A -> Op B) Q : (forall a, triple P (k a) Q) -> triple P (asks f ≫= k) Q.
Proof. intros HK c Hc Hv. by apply HK. Qed.

Lemma t_take {B} P (k : option Tunnel -> Op B) Q :
  (forall t, triple (fun v => exists v0, P v0 /\ v_tunnel v0 = t /\ v = mkView (v_session v0) None (v_live v0) (v_phase v0)) (k t) Q) ->
  triple P (take_tunnel ≫= k) Q.
Proof. intros HK c Hc Hv. apply HK; [done|]. exists (view c). done. Qed.

(** Stopping what was taken: it is gone, or the client has it again. *)
Lemma t_stop_retain t : triple (held t) (stop_and_retain_on_failure t)
  (fun r v => match r with Ok _ => idle v /\ v_session v = true | Err _ => up v end).
Proof.
  intros c Hc (Ht & Hl & Hs). unfold stop_and_retain_on_failure, mbind, op_bind, attempted, stop.
  destruct (tunnel_stop t (env c)) as [[[]|e] e']; cbn in *; (split; [done|]).
  - split; [|done]. split; [done|]. cbn. rewrite Hl. rewrite filter_cons_False by naive_solver. done.
  - rewrite Ht. exists t. done.
Qed.
(** The same of a tunnel that may be none, with what holds without one. *)
Lemma t_stop_maybe (P : View -> Prop) ot : triple (fun v => match ot with Some t => held t v | None => P v end)
  (match ot with Some t => stop_and_retain_on_failure t | None => mret tt end)
  (fun r v => match r with Ok _ => (idle v /\ v_session v = true) \/ (ot = None /\ P v) | Err _ => up v end).
Proof.
  destruct ot as [t|].
  - eapply t_post; [apply t_stop_retain|]. intros [] v Hv; auto.
  - apply t_ret. auto.
Qed.
Lemma taken_held (P : View -> Prop) ot v : (forall v, P v -> idle v \/ up v) ->
  (exists v0, P v0 /\ v_tunnel v0 = ot /\ v = mkView (v_session v0) None (v_live v0) (v_phase v0)) ->
  match ot with Some t => held t v | None => idle v /\ P v end.
Proof.
  intros HP (v0 & HV & Ht & ->). destruct (HP v0 HV) as [[Hi Hl]|(t & Hi & Hl & Hs)].
  - assert (ot = None) as -> by congruence. split; [done|]. destruct v0. cbn in *. by subst.
  - assert (ot = Some t) as -> by congruence. done.
Qed.

(** ** Connecting *)

Definition enrolled_idle (v : View) : Prop := idle v /\ v_session v = true.

Lemma t_cancelled P : (forall v, P v -> idle v) -> triple P finish_cancelled_connection (fun _ v => inv v).
Proof.
  intros HP. unfold finish_cancelled_connection. apply t_skip_ok; [by apply quiet_runtime|apply succeeds_runtime|]. intros _.
  eapply (t_phase _ (fun v => idle v /\ v_phase v = Enrolled) Enrolled); [done..| |].
  - intros v Hv. split; [by apply HP in Hv|done].
  - apply t_shown. intros sn v [Hi Hp]. apply idle_inv; [done|]. by rewrite Hp.
Qed.

Lemma t_connected t probe started latency :
  triple (held started) (connected t probe started latency) (fun _ v => inv v).
Proof.
  unfold connected. apply t_skip_ok; [by apply quiet_runtime|apply succeeds_runtime|]. intros _.
  apply t_skip_ok; [by apply quiet_runtime|apply succeeds_runtime|]. intros _.
  apply t_skip_ok; [auto with client..|]. intros _. apply t_ask. intros report.
  eapply (t_bind _ _ _ (fun _ v => up v)).
  { intros c Hc (Ht & Hl & Hs). split; [done|]. by exists started. }
  intros _. apply t_skip_ok; [auto with client..|]. intros now.
  eapply (t_phase _ up PhaseConnected); [done..|]. apply t_shown. auto with client.
Qed.

Lemma few_abandoned c a t probe options e : few c -> match (env_connect a t probe options (env c)).1 with Some (Ok _) => False | _ => True end ->
  few (mkClient (runtime c) (snapshot c) e (live c) (strays c ++ env_left_running a t probe options (env c))).
Proof.
  intros [Hl Ha] Hn. split; [done|]. cbn [strays]. apply Forall_app. split; [done|]. apply Forall_forall. intros x Hx.
  exists a, t, probe, options, (env c). done.
Qed.
Lemma t_start a t probe options : triple enrolled_idle (start a t probe options)
  (fun r v => match r with Ok (Some (Ok (started, _))) => held started v | Ok _ => enrolled_idle v | Err _ => False end).
Proof.
  intros c Hc [[Ht Hl] Hs]. unfold start. destruct (env_connect a t probe options (env c)) as [[[[started latency]|e]|] e'] eqn:EC.
  - split; [done|]. split; [done|]. split; [|done]. cbn in *. by rewrite Hl.
  - split; [|done]. apply few_abandoned; [done|]. by rewrite EC.
  - split; [|done]. apply few_abandoned; [done|]. by rewrite EC.
Qed.

Lemma quiet_probe a t : quiet (probe_transport a t).
Proof. unfold probe_transport, cached_probe. quietly. Qed.
Lemma succeeds_probe a t : succeeds (probe_transport a t).
Proof. unfold probe_transport, cached_probe. quietly. Qed.
Hint Resolve quiet_probe succeeds_probe : client.

(** Every ranked transport has an adapter. *)
Lemma ranked_supported transports h now explicit excluded t :
  t ∈ rank_for policy transports adapters h now explicit excluded -> is_Some (List.find (fun a => adapter_supports a t) adapters).
Proof.
  intros Ht. unfold rank_for in Ht. eapply elem_of_sublist in Ht; [|apply sublist_take]. apply elem_of_sort_by in Ht.
  assert (existsb (fun a => adapter_supports a t) adapters = true) as Hs.
  { unfold candidates in Ht. destruct (_ && _); rewrite !list_elem_of_filter in Ht; tauto. }
  destruct (List.find _ adapters) eqn:E; [by eexists|]. apply existsb_exists in Hs as (a & Ha & Hs).
  pose proof (List.find_none _ _ E a Ha). cbn in *. congruence.
Qed.
Lemma t_connect_each reconnecting options index last l : Forall (fun t => is_Some (List.find (fun a => adapter_supports a t) adapters)) l ->
  triple enrolled_idle (connect_each adapters policy reconnecting options index last l) (fun _ v => inv v).
Proof.
  intros HF. revert index last; induction HF as [|t l Hf HF IH]; intros index last; cbn [connect_each].
  - apply t_fail. intros v [Hi _]. by apply idle_inv.
  - destruct Hf as [a ->].
    eapply (t_phase _ enrolled_idle (if reconnecting then Reconnecting else Probing)); [done..|].
    apply t_skip_ok; [auto with client..|]. intros [|error|probe].
    + apply t_cancelled. by intros v [? _].
    + apply t_skip_ok; [auto with client..|]. intros _. apply IH.
    + eapply (t_phase _ enrolled_idle (if reconnecting then Reconnecting else Connecting)); [done..|].
      eapply (t_bind _ _ _ (fun r v => match r with Some (Ok (started, _)) => held started v | _ => enrolled_idle v end)).
      { eapply t_post; [apply t_start|]. intros [[[[started latency]|e]|]|e] v Hv; done. }
      intros [[[started latency]|error]|].
      * apply t_skip_ok; [auto with client..|]. intros cancelled. apply t_if; intros _; [|apply t_connected].
        eapply t_attempted; [apply t_stop_retain|]. intros [[]|error].
        -- apply t_cancelled. by intros v [? _].
        -- apply t_fail. intros v Hu. apply up_inv. by destruct Hu as (x & ? & ? & ?); exists x.
      * apply t_skip_ok; [auto with client..|]. intros _. apply IH.
      * apply t_cancelled. by intros v [? _].
Qed.

Lemma quiet_clear (b : bool) : quiet (if b then mret tt else update_snapshot (set_fallbacks [])).
Proof. destruct b; [quietly|]. apply quiet_snapshot; [done|]. intros s _. cbn. lia. Qed.
Lemma succeeds_clear (b : bool) : succeeds (if b then mret tt else update_snapshot (set_fallbacks [])).
Proof. destruct b; quietly. Qed.
Hint Resolve quiet_clear succeeds_clear : client.

Lemma t_connect_fresh reconnecting : triple ready (connect_fresh adapters policy reconnecting) (fun _ v => inv v).
Proof.
  unfold connect_fresh.
  apply t_take. intros stale.
  eapply (t_bind _ _ _ (fun _ v => idle v /\ (v_session v = true \/ v_phase v <> PhaseConnected))).
  { eapply t_conseq; [apply (t_stop_maybe (fun v => idle v /\ ready v))| |].
    - intros v Hv. apply taken_held; [|exact Hv]. intros v0 [[? _]|?]; auto.
    - intros [[]|e] v Hv; [|auto with client]. destruct Hv as [[? ?]|(_ & Hi & [[_ ?]|Hu])]; [auto..|].
      destruct Hu as (t & Ht & _), Hi as [Hn _]. congruence. }
  intros _. apply t_skip_ok; [auto with client..|]. intros _. apply t_ask_runtime. intros r.
  destruct (session r) as [m|]; cbn [bool_decide].
  - apply t_skip_ok; [auto with client..|]. intros now.
    eapply (t_pre enrolled_idle); [|intros v ([Hi _] & _ & Hs); split; [done|]; rewrite Hs; by apply bool_decide_true].
    apply t_skip_ok; [auto with client..|]. intros _.
    destruct (rank_for _ _ _ _ _ _ _) as [|x l] eqn:El; [|apply t_connect_each; rewrite <- El; apply Forall_forall; intros t; apply ranked_supported].
    apply t_fail. intros v [Hi _]. by apply idle_inv.
  - apply t_throw. intros v ([Hi Hp] & _ & Hs). apply idle_inv; [done|]. destruct Hp as [Hp|]; [|done].
    rewrite Hs in Hp. by rewrite bool_decide_false in Hp by (by intros [? ?]).
Qed.

Lemma t_connect_locked reconnecting : triple ready (connect_locked adapters policy reconnecting) (fun _ v => inv v).
Proof.
  intros c Hc Hv. unfold connect_locked, mbind, op_bind, asks. destruct (is_connected (tunnel (runtime c)) (env c)) eqn:EU.
  - split; [done|]. destruct Hv as [[[Ht _] _]|Hu]; [|exact (up_inv _ Hu)]. cbn in Ht. unfold is_connected in EU. by rewrite Ht in EU.
  - by apply t_connect_fresh.
Qed.

(** ** The lease *)

Lemma t_end_session e : triple inv (end_session e) (fun _ v => inv v).
Proof.
  unfold end_session. apply t_skip_ok; [by apply quiet_runtime|apply succeeds_runtime|]. intros _. apply t_take. intros ot.
  eapply t_attempted.
  { eapply t_pre; [apply (t_stop_maybe (fun v => idle v /\ inv v))|]. intros v Hv. apply taken_held; [|exact Hv]. by intros v0 [? _]. }
  intros [[]|cleanup].
  - eapply (t_bind _ _ _ (fun _ => idle)).
    { intros c Hc Hv. split; [done|]. by destruct Hv as [[[? ?] _]|(_ & [? ?] & _)]. }
    intros _. eapply (t_phase _ (fun v => idle v /\ v_phase v = PhaseError) PhaseError).
    + intros s. unfold ended_snapshot, show_update. by destruct (required_update e).
    + intros s Hs. unfold ended_snapshot, show_update. by destruct (required_update e).
    + done.
    + apply t_throw. intros v [Hi Hp]. apply idle_inv; [done|]. by rewrite Hp.
  - apply t_show_error. intros v (t & ? & ? & ?). apply up_inv. by exists t.
Qed.

Lemma quiet_apply_status st renewed : quiet (apply_status st renewed).
Proof.
  unfold apply_status. apply quiet_bind; [|intros _].
  { apply quiet_runtime. intros r. destruct (session r) as [m|] eqn:E; [|try done; split; [done|]; by rewrite E]. split; [done|]. cbn. rewrite ?E. split; intros _; by eexists. }
  apply quiet_bind; [destruct renewed; quietly|intros _]. apply quiet_bind; [quietly|intros _].
  apply quiet_snapshot; intros s; unfold apply_advice; by destruct (status_updates st).
Qed.
Hint Resolve quiet_apply_status : client.
Lemma quiet_show_issue (b : bool) e : quiet (if b then show_issue e else mret tt).
Proof. destruct b; [by apply quiet_snapshot|quietly]. Qed.
Lemma succeeds_show_issue (b : bool) e : succeeds (if b then show_issue e else mret tt).
Proof. destruct b; [apply succeeds_snapshot|quietly]. Qed.
Hint Resolve quiet_show_issue succeeds_show_issue : client.

Lemma t_refresh_locked renew surface : triple inv (refresh_locked client_name renew surface) (fun _ v => inv v).
Proof.
  unfold refresh_locked. apply t_ask. intros [m|]; [|by apply t_throw].
  eapply (t_attempted _ _ _ (fun _ => inv)); [apply t_quiet; auto with client|]. intros [status|e].
  - apply t_skip_ok; [auto with client..|]. intros now. destruct (validate_status _ _ _ _).
    + apply t_skip; [auto with client| |done]. intros _. by apply t_shown.
    + apply t_skip_ok; [auto with client..|]. intros _. by apply t_throw.
  - apply t_if; intros _; [apply t_end_session|]. apply t_skip_ok; [auto with client..|]. intros _. by apply t_throw.
Qed.

Lemma t_reconnect : triple ready (reconnect_locked client_name adapters policy) (fun _ v => inv v).
Proof.
  unfold reconnect_locked. eapply t_attempted; [apply t_connect_locked|]. intros [sn|e]; [by apply t_ret|].
  apply t_skip_ok; [auto with client..|]. intros now. apply t_ask. intros r. eapply t_attempted; [apply t_refresh_locked|].
  assert (triple inv (_ ← fail e; throw e : Op ClientSnapshot) (fun _ v => inv v)) as HF.
  { apply t_fail. intros v [[[? ?]|(t & ? & ? & ?)] _]; [by apply idle_inv|apply up_inv; by exists t]. }
  intros [sn|e']; [done|]. apply t_if; intros _; [by apply t_throw|done].
Qed.

(** ** The operations *)

Lemma t_recover e : triple inv (recover client_name adapters policy e) (fun _ v => inv v).
Proof.
  unfold recover. apply t_ask. intros requested. apply t_if; intros _; [|by apply t_throw].
  apply t_skip_ok; [by apply quiet_runtime|apply succeeds_runtime|]. intros _. apply t_take. intros [t|].
  - eapply (t_bind _ _ _ (fun _ => enrolled_idle)).
    { eapply t_conseq; [apply t_stop_retain| |].
      - intros v Hv. exact (taken_held inv (Some t) v (fun v0 H0 => proj1 H0) Hv).
      - intros [[]|x] v Hv; [done|by apply up_inv]. }
    intros _. apply t_skip_ok; [auto with client..|]. intros _. eapply t_pre; [apply t_reconnect|]. intros v [Hi Hs]. left. auto.
  - apply t_throw. intros v Hv. apply (taken_held inv None v (fun v0 H0 => proj1 H0)) in Hv as [_ ?]. done.
Qed.

Lemma t_unreachable e : triple inv (unreachable client_name adapters policy e) (fun _ v => inv v).
Proof.
  unfold unreachable. apply t_skip_ok; [by apply quiet_runtime|apply succeeds_runtime|]. intros _. apply t_ask. intros r. apply t_ask. intros off.
  apply t_if; intros _.
  - apply t_skip_ok; [by apply quiet_snapshot|apply succeeds_snapshot|]. intros _. by apply t_shown.
  - apply t_skip_ok; [quietly|quietly|]. intros healthy. apply t_if; intros _.
    + apply t_skip_ok; [by apply quiet_snapshot|apply succeeds_snapshot|]. intros _. by apply t_shown.
    + apply t_if; intros _; [by apply t_throw|apply t_recover].
Qed.

Lemma t_idle_snapshot {B} (P : View -> Prop) p (k : unit -> Op B) Q : p <> PhaseConnected -> (forall v, P v -> idle v) ->
  triple inv (k tt) Q -> triple P (update_snapshot (idle_snapshot p) ≫= k) Q.
Proof.
  intros Hp HP HK. eapply (t_phase _ inv p); [done..| |done]. intros v Hv. apply idle_inv; [by apply HP in Hv|done].
Qed.

Lemma t_keep_lease : triple inv (keep_lease client_name adapters policy) (fun _ v => inv v).
Proof.
  unfold keep_lease. apply t_skip_ok; [auto with client..|]. intros now. apply t_ask. intros r. eapply t_attempted; [apply t_refresh_locked|].
  intros [s|[]]; try (by apply t_throw); [by apply t_ret|apply t_unreachable].
Qed.

Lemma t_lost t status requested : triple (held t) (lost_tunnel client_name adapters policy t status requested) (fun _ v => inv v).
Proof.
  unfold lost_tunnel. eapply (t_bind _ _ _ (fun _ => enrolled_idle)).
  { eapply t_post; [apply t_stop_retain|]. intros [[]|x] v Hx; [done|by apply up_inv]. }
  intros _. apply t_if; intros _.
  - apply t_skip_ok; [auto with client..|]. intros _. eapply t_pre; [apply t_reconnect|]. intros v [Hi Hs]. left. auto.
  - apply t_ask. intros enrolled. apply t_idle_snapshot; [by destruct enrolled|by intros v [? _]|].
    apply t_if; intros _; [apply t_keep_lease|by apply t_shown].
Qed.

(** Taking a tunnel the client was seen to have. *)
Lemma t_drop {B} t (k : unit -> Op B) Q : triple (held t) (k tt) Q ->
  triple (fun v => inv v /\ v_tunnel v = Some t) (update_runtime (set_tunnel None) ≫= k) Q.
Proof.
  intros HK c Hc [[[[Hn _]|(x & Hx & Hl & Hs)] _] Ht]; [congruence|]. apply HK; [done|]. assert (x = t) as -> by congruence. done.
Qed.

Lemma t_maintain : triple inv (maintain_once client_name adapters policy) (fun _ v => inv v).
Proof.
  unfold maintain_once. apply t_ask_tunnel. intros [t|]; apply t_ask; intros requested.
  - apply t_ask. intros [| |message].
    + eapply t_pre; [apply t_keep_lease|]. by intros v [? _].
    + apply t_drop, t_lost.
    + apply t_drop, t_lost.
  - eapply (t_pre inv); [|by intros v [? _]]. apply t_if; intros _; [|apply t_keep_lease]. eapply t_pre; [apply t_reconnect|apply inv_ready].
Qed.

(** What a successful [disconnect] leaves. *)
Definition left_behind (r : result ClientError ClientSnapshot) (v : View) : Prop :=
  inv v /\ match r with Ok _ => idle v /\ v_session v = false /\ v_phase v = Disconnected | Err _ => True end.

Lemma error_inv v : idle v \/ up v -> inv (with_phase PhaseError v).
Proof. intros [[? ?]|(t & ? & ? & ?)]; [by apply idle_inv|apply up_inv; by exists t]. Qed.

Lemma t_leave (t : option Tunnel) token :
  triple (fun v => match t with Some t => held t v | None => idle v end) (leave t token) left_behind.
Proof.
  unfold leave. eapply (t_phase _ (fun v => match t with Some t => held t v | None => idle v end) Disconnecting); [done..| |].
  { intros v Hv. by destruct t. }
  eapply t_attempted; [apply (t_stop_maybe idle)|]. intros [[]|e].
  - eapply (t_pre idle); [|intros v [[? _]|[_ ?]]; done].
    apply t_skip_ok; [by apply quiet_snapshot|apply succeeds_snapshot|]. intros _.
    eapply (t_attempted _ _ _ (fun _ => idle)); [apply t_quiet; destruct token; auto with client|]. intros released.
    destruct (match released with Err e => if is_unauthorized e then None else Some e | Ok _ => None end).
    + apply t_show_error. intros v Hi. split; [|done]. apply error_inv. by left.
    + eapply (t_bind _ _ _ (fun _ v => idle v /\ v_session v = false)).
      { intros c Hc Hv. split; [done|]. split; [done|]. by apply bool_decide_false; intros [? ?]. }
      intros _. eapply (t_phase _ (fun v => (idle v /\ v_session v = false) /\ v_phase v = Disconnected) Disconnected); [done..|].
      apply t_shown. intros sn v [[Hi Hs] Hp]. split; [|done]. apply idle_inv; [done|]. by rewrite Hp.
  - apply t_show_error. intros v Hu. split; [|done]. apply error_inv. by right.
Qed.

Lemma t_disconnect : triple inv disconnect left_behind.
Proof.
  unfold disconnect. apply t_skip_ok; [by apply quiet_runtime|apply succeeds_runtime|]. intros _. apply t_take. intros ot.
  eapply (t_bind _ _ _ (fun token v => match ot with Some t => held t v | None => idle v end /\ v_session v = bool_decide (is_Some token))).
  { intros c Hc Hv. split; [done|]. cbn [fst]. split.
    - pose proof (taken_held inv ot _ (fun v0 H0 => proj1 H0) Hv). by destruct ot; destruct_and?.
    - cbn. apply bool_decide_ext. by rewrite fmap_is_Some. }
  intros token. apply t_if; intros Hb.
  - apply andb_true_iff in Hb as [->%bool_decide_eq_true ->%bool_decide_eq_true].
    eapply (t_phase _ (fun v => idle v /\ v_session v = false /\ v_phase v = Disconnected) Disconnected); [done..| |].
    + intros v [Hi Hs]. split_and!; [done| |done]. cbn. rewrite Hs. by apply bool_decide_false; intros [? ?].
    + apply t_shown. intros sn v (Hi & Hs & Hp). split; [|done]. apply idle_inv; [done|]. by rewrite Hp.
  - eapply t_pre; [apply t_leave|]. by intros v [? _].
Qed.

Lemma t_stop_tunnel : triple inv stop_tunnel (fun r v => inv v /\ match r with Ok _ => idle v | Err _ => True end).
Proof.
  unfold stop_tunnel. apply t_skip_ok; [by apply quiet_runtime|apply succeeds_runtime|]. intros _. apply t_take. intros ot.
  apply t_ask. intros enrolled. eapply (t_pre (fun v => match ot with Some t => held t v | None => idle v end)).
  2: { intros v Hv. pose proof (taken_held inv ot _ (fun v0 H0 => proj1 H0) Hv). by destruct ot; destruct_and?. }
  assert (forall P, (forall v, P v -> idle v) -> triple P (_ ← update_snapshot (idle_snapshot (if enrolled then Enrolled else Disconnected)); shown)
    (fun r v => inv v /\ match r with Ok _ => idle v | Err _ => True end)) as HI.
  { intros P HP. eapply (t_phase _ (fun v => idle v /\ v_phase v = if enrolled then Enrolled else Disconnected)
      (if enrolled then Enrolled else Disconnected)); [done..| |].
    - intros v Hv. split; [by apply HP in Hv|done].
    - apply t_shown. intros sn v [Hi Hp]. split; [|done]. apply idle_inv; [done|]. rewrite Hp. by destruct enrolled. }
  destruct ot as [t|]; [|by apply HI].
  eapply (t_phase _ (held t) Disconnecting); [done..|]. eapply t_attempted; [apply t_stop_retain|]. intros [[]|e].
  - apply HI. by intros v [? _].
  - apply t_show_error. intros v Hu. split; [|done]. apply error_inv. by right.
Qed.

Lemma t_verify : triple inv (verify_after_network_change client_name adapters policy) (fun _ v => inv v).
Proof.
  unfold verify_after_network_change. apply t_ask. intros requested. apply t_ask. intros t.
  destruct (if requested then t else None) as [x|]; [|by apply t_shown]. apply t_ask. intros off.
  apply t_skip_ok; [destruct off; quietly|destruct off; quietly|]. intros healthy. apply t_if; intros _; [by apply t_shown|].
  apply t_take. intros ot. eapply (t_bind _ _ _ (fun _ => ready)).
  - eapply t_conseq; [apply (t_stop_maybe (fun v => idle v /\ inv v))| |].
    + intros v Hv. apply taken_held; [|exact Hv]. by intros v0 [? _].
    + intros [[]|e] v Hv; [|by apply up_inv]. destruct Hv as [[Hi Hs]|(_ & _ & Hi)]; [left; auto|by apply inv_ready].
  - intros _. apply t_reconnect.
Qed.

Lemma t_network_moved : triple inv network_moved (fun _ v => inv v).
Proof.
  unfold network_moved. apply t_ask. intros report. apply t_ask. intros current. destruct report as [report|]; [|by apply t_ret].
  apply t_if; intros _; [by apply t_ret|]. apply t_skip_ok; [by apply quiet_runtime|apply succeeds_runtime|]. intros _. by apply t_ret.
Qed.

Lemma t_enroll code : triple inv (enroll client_name adapters code) (fun _ v => inv v).
Proof.
  unfold enroll. destruct (validate_access_code code); [|by apply t_throw]. apply t_ask_enrolled. intros b. apply t_if; intros Hb.
  { apply t_throw. by intros v [? _]. }
  subst b. eapply (t_phase _ (fun v => idle v /\ v_session v = false) Enrolling); [done..| |].
  { intros v [[[Hi|(t & _ & _ & Hs)] _] Hn]; [done|congruence]. }
  assert (forall P e, (forall v, P v -> idle v) -> triple P (_ ← fail e; throw e : Op ClientSnapshot) (fun _ v => inv v)) as HF.
  { intros P e HP. apply t_fail. intros v Hv. apply error_inv. left. by apply HP. }
  eapply (t_attempted _ _ _ (fun _ v => idle v /\ v_session v = false)); [apply t_quiet; auto with client|]. intros [m|e].
  2: { apply HF. by intros v [? _]. }
  apply t_skip_ok; [auto with client..|]. intros now. destruct (validate_manifest m now).
  - apply t_skip_ok; [auto with client..|]. intros now'. eapply (t_bind _ _ _ (fun _ => idle)).
    { intros c Hc [Hi _]. split; [done|]. exact Hi. }
    intros _. eapply (t_phase _ (fun v => idle v /\ v_phase v = Enrolled) Enrolled).
    + intros s. unfold apply_advice. by destruct (manifest_updates m).
    + intros s Hs. unfold apply_advice. by destruct (manifest_updates m).
    + done.
    + apply t_shown. intros sn v [Hi Hp]. apply idle_inv; [done|]. by rewrite Hp.
  - apply t_skip_ok; [quietly|quietly|]. intros _. apply HF. by intros v [? _].
Qed.

Lemma t_renew_before : triple inv (renew_before_connect_locked client_name) (fun _ v => inv v).
Proof.
  unfold renew_before_connect_locked. apply t_skip_ok; [auto with client..|]. intros now. apply t_ask. intros r.
  destruct (session r) as [m|]; [|by apply t_throw]. apply t_if; intros _; [by apply t_ret|].
  eapply t_attempted; [apply t_refresh_locked|]. intros [s|e]; [by apply t_ret|]. destruct e; try by apply t_throw.
  apply t_skip_ok; [auto with client..|]. intros now'. apply t_if; intros _; [|by apply t_throw]. apply t_quiet. by apply quiet_snapshot.
Qed.

Lemma t_connect_with preferred : triple inv (connect_with_protocol client_name adapters policy preferred) (fun _ v => inv v).
Proof.
  unfold connect_with_protocol. apply t_ask. intros enrolled. apply t_if; intros _; [by apply t_throw|].
  apply t_skip_ok; [by apply quiet_runtime|apply succeeds_runtime|]. intros _.
  apply t_skip_ok; [by apply quiet_snapshot|apply succeeds_snapshot|]. intros _.
  assert (forall e, triple inv (_ ← update_runtime (set_connection_requested false); throw e : Op ClientSnapshot) (fun _ v => inv v)) as HE.
  { intros e. apply t_skip_ok; [by apply quiet_runtime|apply succeeds_runtime|]. intros _. by apply t_throw. }
  eapply t_attempted; [apply t_renew_before|]. intros [[]|e]; [|apply HE].
  eapply t_attempted; [eapply t_pre; [apply t_connect_locked|apply inv_ready]|]. intros [s|e]; [by apply t_ret|apply HE].
Qed.

(** One operation of a client, by a user or by maintenance. *)
Inductive client_step : Client -> Client -> Prop :=
| step_enroll code c : client_step c (enroll client_name adapters code c).2
| step_connect p c : client_step c (connect_with_protocol client_name adapters policy p c).2
| step_options o c : client_step c (use_connect_options o c).2
| step_memory c : client_step c (use_transport_memory c).2
| step_exclusions s c : client_step c (use_automatic_exclusions s c).2
| step_refresh c : client_step c (refresh client_name c).2
| step_renew c : client_step c (renew client_name c).2
| step_maintain c : client_step c (maintain_once client_name adapters policy c).2
| step_disconnect c : client_step c (disconnect c).2
| step_stop c : client_step c (stop_tunnel c).2
| step_moved c : client_step c (network_moved c).2
| step_verify c : client_step c (verify_after_network_change client_name adapters policy c).2
| step_environment e left c : left `sublist_of` strays c -> client_step c (mkClient (runtime c) (snapshot c) e (live c) left).
Definition client_reachable (c : Client) : Prop := exists e, rtc client_step (client_new e) c.

Lemma quiet_inv {A} (m : Op A) : quiet m -> triple inv m (fun _ v => inv v).
Proof. intros Hm. eapply t_post; [by apply t_quiet|done]. Qed.
Lemma client_step_inv c c' : client_step c c' -> few c -> inv (view c) -> few c' /\ inv (view c').
Proof.
  intros Hs Hc Hv. destruct Hs.
  - by apply t_enroll. - by apply t_connect_with.
  - by apply (quiet_inv _ (quiet_runtime _ (fun r => conj eq_refl (iff_refl _)))).
  - by apply (quiet_inv _ (quiet_runtime _ (fun r => conj eq_refl (iff_refl _)))).
  - by apply (quiet_inv _ (quiet_runtime _ (fun r => conj eq_refl (iff_refl _)))).
  - by apply t_refresh_locked. - by apply t_refresh_locked. - by apply t_maintain.
  - destruct (t_disconnect c Hc Hv) as [? [? _]]. done.
  - destruct (t_stop_tunnel c Hc Hv) as [? [? _]]. done.
  - by apply t_network_moved. - by apply t_verify.
  - destruct Hc as [Hl Ha]. split; [split; [done|]|done]. cbn [strays]. rewrite Forall_forall in Ha |- *. intros t Ht. apply Ha.
    by eapply elem_of_sublist.
Qed.
Lemma client_reachable_inv c : client_reachable c -> few c /\ inv (view c).
Proof.
  intros [e Hr]. assert (few (client_new e) /\ inv (view (client_new e))) as [Hf Hi].
  { unfold client_new. destruct (env_time e). split; [split; [cbn; lia|constructor]|]. by apply idle_inv. }
  induction Hr as [c|c c1 c2 Hs _ IH]; [done|]. destruct (client_step_inv _ _ Hs Hf Hi). auto.
Qed.

(** * The claims *)

(** C3: a client never loses or doubles a tunnel it was given: whatever it is
    asked to do and whatever the server, the engines and the network answer,
    the tunnels that run are the one it holds and those that a connect which
    failed or was cancelled left running - the tunnel service may go on after
    the app stopped waiting - and no others; it holds one only while enrolled,
    it shows a connection only while it holds one, and it keeps at most eight
    reasons for leaving a transport. *)
Theorem client_one_tunnel c : client_reachable c ->
  running c = match tunnel (runtime c) with Some t => [t] | None => [] end ++ strays c /\ Forall abandoned (strays c) /\
  (is_Some (tunnel (runtime c)) -> is_Some (session (runtime c))) /\
  (phase (snapshot c) = PhaseConnected -> is_Some (tunnel (runtime c))) /\
  (length (fallbacks (snapshot c)) <= MAX_FALLBACKS)%nat.
Proof.
  intros [[Hf Ha] [HI Hh]]%client_reachable_inv. split_and!; [|exact Ha| |exact Hh|exact Hf].
  - unfold running. f_equal. destruct HI as [[Ht Hl]|(t & Ht & Hl & _)]; cbn in *; by rewrite Ht.
  - destruct HI as [[Ht Hl]|(t & Ht & Hl & Hs)]; cbn in *; rewrite Ht; [by intros [? ?]|]. intros _. by apply bool_decide_eq_true in Hs.
Qed.

(** a [disconnect] that succeeds leaves nothing: no tunnel runs, there is no
    enrollment, and the app shows so; one that fails keeps the tunnel it could
    not stop, so that it can be stopped later. *)
Theorem disconnect_leaves_nothing c : client_reachable c ->
  let '(r, c') := disconnect c in
  match r with
  | Ok _ => live c' = [] /\ tunnel (runtime c') = None /\ session (runtime c') = None /\ phase (snapshot c') = Disconnected
  | Err _ => live c' = match tunnel (runtime c') with Some t => [t] | None => [] end
  end.
Proof.
  intros [Hf Hi]%client_reachable_inv. destruct (t_disconnect c Hf Hi) as [_ [[HI _] HR]]. destruct (disconnect c) as [[sn|e] c']; cbn [fst snd] in *.
  - destruct HR as ((Ht & Hl) & Hs & Hp). cbn in *. split_and!; [done..| |done]. apply bool_decide_eq_false in Hs. by apply eq_None_not_Some.
  - destruct HI as [[Ht Hl]|(t & Ht & Hl & _)]; cbn in *; by rewrite Ht.
Qed.

Lemma end_session_tunnel e c t : tunnel (runtime c) = Some t ->
  tunnel (runtime (end_session e c).2) = Some t \/
  (session (runtime (end_session e c).2) = None /\ (end_session e c).1 = Err e).
Proof.
  intros Ht. unfold end_session, take_tunnel, mbind, op_bind, update_runtime, asks, mret, op_ret, attempted.
  cbn [runtime set_rt_preferred set_connection_requested tunnel]. rewrite Ht.
  unfold stop_and_retain_on_failure, attempted, mbind, op_bind, stop. cbn [env runtime live snapshot].
  destruct (tunnel_stop t (env c)) as [[[]|x] e']; cbn.
  - right. unfold forget_session, update_runtime, update_snapshot, throw. cbn. by destruct (env_time e').
  - left. unfold show_error, update_snapshot, throw. cbn. by destruct (env_time e').
Qed.

(** A refresh keeps the tunnel, unless the server ends the session. *)
Lemma refresh_tunnel renew c t : tunnel (runtime c) = Some t ->
  let '(r, c') := refresh_locked client_name renew false c in
  tunnel (runtime c') = Some t \/ (session (runtime c') = None /\ exists e, r = Err e /\ forall reason, e <> NetworkError reason).
Proof.
  intros Ht. unfold refresh_locked, mbind at 1, op_bind at 1, asks. destruct (session (runtime c)) as [m|] eqn:Em; [|by left].
  unfold mbind at 1, op_bind at 1, attempted, with_env_result. destruct ((if renew then _ else _) (env c)) as [[status|error] e1].
  - unfold unix_now, with_env, mbind at 1, op_bind at 1. cbn [env runtime snapshot live]. destruct (env_time e1) as [now' e2].
    destruct (validate_status status (session_token m) client_name now') as [[]|x]; [|by left].
    unfold apply_status, mbind, op_bind, update_runtime, unix_now, with_env, update_snapshot, shown, asks, mret, op_ret. cbn [runtime env].
    rewrite Em. destruct renew; cbn [env runtime]; repeat (destruct (env_time _); cbn [env runtime]); left; exact Ht.
  - destruct (ends_session error) eqn:EE; [|by left].
    pose proof (end_session_tunnel error (mkClient (runtime c) (snapshot c) e1 (live c) (strays c)) t Ht) as HE.
    destruct (end_session error _) as [r c1]. cbn [snd fst] in HE. destruct HE as [?|[? ->]]; [by left|right].
    split; [done|]. exists error. split; [done|]. by intros reason ->.
Qed.

(** With the network gone, so does a server that cannot be reached. *)
Lemma unreachable_tunnel e c t : tunnel (runtime c) = Some t -> (forall e, offline (tunnel_network t e) = true) ->
  tunnel (runtime (unreachable client_name adapters policy e c).2) = Some t.
Proof.
  intros Ht Ho. unfold unreachable, mbind, op_bind, update_runtime, asks. cbn [runtime env connection_requested set_control_failures tunnel].
  rewrite Ht, Ho. rewrite (bool_decide_true (is_Some (Some t))) by eauto. destruct (connection_requested (runtime c)); cbn [andb].
  - unfold update_snapshot, shown, asks. cbn [env]. by destruct (env_time (env c)).
  - unfold mret, op_ret. rewrite andb_false_r. done.
Qed.

Lemma keep_lease_tunnel c t : tunnel (runtime c) = Some t -> (forall e, offline (tunnel_network t e) = true) ->
  tunnel (runtime (keep_lease client_name adapters policy c).2) = Some t \/ session (runtime (keep_lease client_name adapters policy c).2) = None.
Proof.
  intros Ht Ho. unfold keep_lease, mbind, op_bind, asks, unix_now, with_env, attempted. destruct (env_time (env c)) as [now e]. cbn [runtime].
  pose proof (refresh_tunnel (renew_due now (runtime c)) (mkClient (runtime c) (snapshot c) e (live c) (strays c)) t Ht) as HR.
  destruct (refresh_locked client_name (renew_due now (runtime c)) false _) as [[sn|x] c1].
  - destruct HR as [HT|(_ & x & Hx & _)]; [by left|congruence].
  - destruct HR as [HT|(HN & y & Hy & Hn)]; [left|right].
    + destruct x; try exact HT. by apply unreachable_tunnel.
    + assert (y = x) as -> by congruence. destruct x; try exact HN. exfalso. exact (Hn _ eq_refl).
Qed.

(** while the device has no network at all, maintenance does not take down a
    connected tunnel - traffic would leave unprotected the moment a
    network returns - whatever the server calls answer; only a server that
    ends the session does. *)
Theorem offline_keeps_tunnel c t : tunnel (runtime c) = Some t ->
  (forall e, tunnel_status t e = Connected) -> (forall e, offline (tunnel_network t e) = true) ->
  let c' := (maintain_once client_name adapters policy c).2 in
  tunnel (runtime c') = Some t \/ session (runtime c') = None.
Proof.
  intros Ht Hs Ho. unfold maintain_once, mbind, op_bind, asks. rewrite Ht, Hs. by apply keep_lease_tunnel.
Qed.

(** C39: asking to connect while connected, at a time no renewal of the lease is
    due, is refused, and the refusal forgets that a connection was asked for:
    the tunnel stays up, but the client will no longer bring it back when it is
    lost. The time and the tunnel's state are those the call itself reads: the
    clock for the second time, and the state right after. *)
Theorem redundant_connect_forgets_request c t m p now e :
  session (runtime c) = Some m -> tunnel (runtime c) = Some t ->
  env_time (env_time (env c)).2 = (now, e) -> renew_due now (runtime c) = false -> tunnel_status t e = Connected ->
  let '(r, c') := connect_with_protocol client_name adapters policy p c in
  r = Err AlreadyConnected /\ tunnel (runtime c') = Some t /\ live c' = live c /\ connection_requested (runtime c') = false.
Proof.
  intros Hm Ht He Hd Hs. unfold connect_with_protocol, mbind at 1, op_bind at 1, asks at 1. rewrite Hm. rewrite bool_decide_true by eauto. cbn [negb].
  unfold mbind at 1, op_bind at 1, update_runtime at 1. unfold mbind at 1, op_bind at 1, update_snapshot. cbn [env runtime snapshot live].
  destruct (env_time (env c)) as [now0 e0]. cbn [snd] in He. unfold mbind at 1, op_bind at 1, attempted at 1, renew_before_connect_locked.
  unfold mbind at 1, op_bind at 1, unix_now, with_env. cbn [env runtime snapshot live].
  rewrite He.
  unfold mbind at 1, op_bind at 1, asks at 1. cbn [runtime session set_rt_preferred set_connection_requested]. rewrite Hm.
  change (renew_due now (set_rt_preferred p (set_connection_requested true (runtime c)))) with (renew_due now (runtime c)). rewrite Hd. cbn [negb].
  unfold mret, op_ret, mbind at 1, op_bind at 1, attempted, connect_locked, mbind at 1, op_bind at 1, asks at 1.
  cbn [runtime tunnel env set_rt_preferred set_connection_requested]. unfold is_connected. rewrite Ht, Hs. cbn. split_and!; (done || exact Ht).
Qed.
End props.

(** * Witnesses *)

(** A device whose network is gone: the server cannot be reached after the
    enrollment, every probe and connection works, and stopping too. *)
Definition demo_location : NodeLocation := mkLocation (str "DE") (str "Germany") None (SpecFloat.S754_zero false) (SpecFloat.S754_zero false).
Definition demo_node_status : NodeStatus :=
  mkNode (str "node-1") (str "Node") (str "https://vpn.ket-node.net") demo_location Healthy 0 10 (SpecFloat.S754_zero false) None None None None 1000.
Definition demo_transport : SessionTransport :=
  mkTransport (mkProfile (str "stealth-1") (str "Stealth") Stealth (str "vpn.ket-node.net") 443 Tcp 10 None ∅) None.
Definition demo_manifest : SessionManifest :=
  mkSessionManifest (str "abcdefghij0123456789ABCDEFGHIJ0123456789abcd") 5000 None demo_node_status [demo_transport] None.
#[local] Instance demo_client_env : ClientEnv := {|
  Env := nat;
  Tunnel := nat;
  env_time e := (1000, e);
  env_elapsed_ms e := (5, e);
  env_create_session _ _ e := (Ok demo_manifest, e);
  env_session_status _ e := (Err (NetworkError (str "connection failed")), e);
  env_renew_session _ e := (Err (NetworkError (str "connection failed")), e);
  env_release_session _ e := (Ok tt, e);
  env_probe _ _ e := (Some (Ok (mkProbe [] 0)), e);
  env_connect _ _ _ _ e := (Some (Ok (e, 40)), S e);
  env_left_running _ _ _ _ _ := [];
  env_cancelled e := (false, e);
  tunnel_id _ := str "stealth-1";
  tunnel_status _ _ := Connected;
  tunnel_network _ _ := mkReport 0 true;
  tunnel_stop _ e := (Ok tt, e);
  memory_load e := (∅, e);
  memory_save _ e := e;
  env_healthy e := (false, e);
|}.
Definition demo_adapters : list TransportAdapter := [mkAdapter (fun _ => true)].
Definition demo_device_name : list byte := str "laptop".
Definition client_enrolled : Client := (enroll demo_device_name demo_adapters demo_code (client_new 0%nat)).2.
Definition client_connected : Client := (connect_with_protocol demo_device_name demo_adapters policy_default None client_enrolled).2.

Lemma client_connected_reachable : client_reachable demo_device_name demo_adapters policy_default client_connected.
Proof.
  exists 0%nat. eapply rtc_l; [apply (step_enroll demo_device_name demo_adapters policy_default demo_code)|].
  eapply rtc_l; [apply (step_connect demo_device_name demo_adapters policy_default None)|]. apply rtc_refl.
Qed.
Lemma client_connected_tunnel : tunnel (runtime client_connected) = Some 0%nat /\ connection_requested (runtime client_connected) = true.
Proof. split; vm_compute; reflexivity. Qed.

Lemma client_one_tunnel_witness : running client_connected = [0%nat].
Proof.
  pose proof (proj1 (client_one_tunnel demo_device_name demo_adapters policy_default client_connected client_connected_reachable)) as HL.
  rewrite (proj1 client_connected_tunnel) in HL. rewrite HL. vm_compute. reflexivity.
Defined.
Lemma disconnect_leaves_nothing_witness : live (disconnect client_connected).2 = [].
Proof.
  pose proof (disconnect_leaves_nothing demo_device_name demo_adapters policy_default client_connected client_connected_reachable) as HD.
  assert (is_ok (disconnect client_connected).1 = true) as Ho by (vm_compute; reflexivity).
  destruct (disconnect client_connected) as [[s|e] c']; [exact (proj1 HD)|discriminate Ho].
Defined.
Lemma offline_keeps_tunnel_witness :
  tunnel (runtime (maintain_once demo_device_name demo_adapters policy_default client_connected).2) = Some 0%nat \/
  session (runtime (maintain_once demo_device_name demo_adapters policy_default client_connected).2) = None.
Proof.
  exact (offline_keeps_tunnel demo_device_name demo_adapters policy_default client_connected 0%nat (proj1 client_connected_tunnel)
    (fun _ => eq_refl) (fun _ => eq_refl)).
Defined.
Lemma redundant_connect_forgets_request_witness :
  connection_requested (runtime client_connected) = true /\
  connection_requested (runtime (connect_with_protocol demo_device_name demo_adapters policy_default None client_connected).2) = false.
Proof.
  split; [exact (proj2 client_connected_tunnel)|].
  assert (session (runtime client_connected) = Some demo_manifest) as Hm by (vm_compute; reflexivity).
  assert (renew_due 1000 (runtime client_connected) = false) as Hd by (vm_compute; reflexivity).
  pose proof (redundant_connect_forgets_request demo_device_name demo_adapters policy_default client_connected 0%nat demo_manifest None 1000 (env client_connected) Hm
    (proj1 client_connected_tunnel) eq_refl Hd eq_refl) as HR.
  destruct (connect_with_protocol demo_device_name demo_adapters policy_default None client_connected) as [r c']. exact (proj2 (proj2 (proj2 HR))).
Defined.
