(* ===== verification/SealedProps.v ===== *)
(** Properties of sealed control: requests and answers survive the way through
    a front, a request is answered once, the app's clock is corrected, and an
    endpoint that requires sealing sends nothing in the clear. *)

From Stdlib Require Import ZArith Lia.
From stdpp Require Import gmap strings.
From S2P Require Import Prelude Utf8 Str Vendor Instances Cbor Locator Capsule Text Invite InviteProps Tunnel Grant Update Seal Contract Control Gateway SealedDemo.

(** * The replay window *)

(** The set and the queue hold the same identifiers, each once. *)
Definition window_wf (w : ReplayWindow) : Prop :=
  seen w = list_to_set (map fst (order w)) /\ NoDup (map fst (order w)).

(** [id] was answered at [t], and [n] others after it. *)
Definition remembers (w : ReplayWindow) (id : list byte) (t : Z) (n : nat) : Prop :=
  exists pre post, order w = pre ++ (id, t) :: post /\ length post = n.

Lemma forget_old_spec window now o : NoDup (map fst o) ->
  exists dropped kept, forget_old window now (list_to_set (map fst o)) o = (list_to_set (map fst kept), kept) /\
    o = dropped ++ kept /\ Forall (fun e => window < sat_sub64 now (snd e)) dropped.
Proof.
  induction o as [|[old at_] o IH]; intros HN; cbn [forget_old]; [by exists [], []|].
  destruct (Z.leb_spec (sat_sub64 now at_) window); [by exists [], ((old, at_) :: o)|].
  cbn in HN. apply NoDup_cons in HN as [Ho HN].
  assert (list_to_set (map fst ((old, at_) :: o)) ∖ {[old]} =@{gset _} list_to_set (map fst o)) as -> by set_solver.
  destruct (IH HN) as (dropped & kept & -> & -> & Hd). exists ((old, at_) :: dropped), kept. split_and!; [done..|by constructor].
Qed.

Lemma window_insert_wf id now w : window_wf w -> window_wf (window_insert id now w).2.
Proof.
  intros [Hs HN]. unfold window_insert. rewrite Hs. destruct (forget_old_spec (window_seconds w) now _ HN) as (dropped & kept & -> & Ho & _).
  rewrite Ho, map_app in HN. apply NoDup_app in HN as (_ & _ & HN). case_bool_decide as Hid; [done|].
  assert (id ∉ map fst kept) as Hk by (intros ?; apply Hid; set_solver).
  assert (forall kept', NoDup (map fst kept') -> id ∉ map fst kept' ->
    window_wf (mkWindow (capacity w) (window_seconds w) ({[id]} ∪ list_to_set (map fst kept')) (kept' ++ [(id, now)]))) as Hadd.
  { intros kept' HN' Hk'. split; cbn [seen order].
    - rewrite map_app, list_to_set_app_L. cbn. set_solver.
    - rewrite map_app. apply NoDup_app. cbn. split_and!; [done|set_solver|apply NoDup_singleton]. }
  destruct (capacity w <=? length kept)%nat; [|by apply Hadd]. destruct kept as [|[oldest t] rest]; [by apply Hadd|].
  cbn in HN. apply NoDup_cons in HN as [Hold HN].
  assert (list_to_set (map fst ((oldest, t) :: rest)) ∖ {[oldest]} =@{gset _} list_to_set (map fst rest)) as -> by set_solver.
  apply Hadd; [done|set_solver].
Qed.

(** One insertion while the window lasts: the identifier stays known, or as
    many others as there is room for came after it. *)
Lemma window_insert_remembers id id' t n now w : window_wf w -> remembers w id t n -> now <= t + window_seconds w -> 0 <= window_seconds w ->
  let '(fresh, w') := window_insert id' now w in
  (id' = id -> fresh = false) /\
  (remembers w' id t (n + Nat.b2n fresh) \/ (capacity w <= n + Nat.b2n fresh)%nat).
Proof.
  intros [Hs HN] (pre & post & Ho & Hn) Ht Hw. unfold window_insert. rewrite Hs.
  destruct (forget_old_spec (window_seconds w) now _ HN) as (dropped & kept & -> & Hk & Hd).
  assert (exists pre', kept = pre' ++ (id, t) :: post) as [pre' Hkept].
  { rewrite Ho in Hk. apply app_eq_inv in Hk as [(l & -> & ->)|(l & -> & Hl)]; [by exists l|].
    destruct l as [|e l]; [cbn in Hl; exists []; by rewrite <- Hl|]. injection Hl as <- Hl.
    apply Forall_app in Hd as [_ Hd]. apply Forall_cons in Hd as [Hd _]. cbn in Hd. unfold sat_sub64 in Hd. lia. }
  assert (id ∈ map fst kept) as Hin by (rewrite Hkept, map_app; set_solver).
  case_bool_decide as Hid; cbn [Nat.b2n].
  - split; [done|]. left. exists pre', post. cbn [order]. split; [done|lia].
  - assert (id' <> id) as Hne by (intros ->; apply Hid; set_solver).
    destruct (Nat.leb_spec (capacity w) (length kept)) as [Hfull|Hroom]; cbn [order].
    + destruct pre' as [|[oldest t'] pre']; subst kept; cbn [app] in *.
      * split; [done|right]. cbn [length Nat.b2n] in *. lia.
      * split; [done|left]. exists pre', (post ++ [(id', now)]). cbn [order]. rewrite <- (assoc_L (++)), length_app. cbn [length Nat.b2n]. split; [done|lia].
    + split; [done|left]. subst kept. exists pre', (post ++ [(id', now)]). cbn [order]. rewrite <- (assoc_L (++)), length_app. cbn [length Nat.b2n]. split; [done|lia].
Qed.

Lemma window_insert_params id now w :
  capacity (window_insert id now w).2 = capacity w /\ window_seconds (window_insert id now w).2 = window_seconds w.
Proof.
  unfold window_insert. destruct (forget_old _ _ _ _) as [s o]. case_bool_decide; [done|].
  destruct (_ <=? _)%nat; [destruct o as [|[]]|]; done.
Qed.

Lemma window_insert_fresh id now w : (window_insert id now w).1 = true -> remembers (window_insert id now w).2 id now 0.
Proof.
  unfold window_insert. destruct (forget_old _ _ _ _) as [s o]. case_bool_decide; [done|]. intros _.
  destruct (if (capacity w <=? length o)%nat then _ else _) as [s' o']. cbn [snd]. by exists o', [].
Qed.

(** * A request is answered once *)

Section once.
Context `{Ed25519, HeaderValues, Hpke, Json ErrorResponse, Json SealedControlRequest, Json SealedControlResponse}.
Context {S : Type} (sessions : InnerRequest -> S -> InnerResponse * S).

(** A message at the gateway: its body, the server's time and the nonce drawn
    for the answer. *)
Record Arrival := mkArrival { ar_body : list byte; ar_now : Z; ar_nonce : list byte }.

(** Whether the session routes see it, and the gateway after it. *)
Definition admitted (g : SealedGateway S) (a : Arrival) : bool :=
  match (screen (gw_key g) (ar_body a) (ar_now a) (replays g)).1 with Fresh _ _ => true | _ => false end.
Definition arrive (g : SealedGateway S) (a : Arrival) : SealedGateway S :=
  (handle sessions (ar_body a) (ar_now a) (ar_nonce a) g).2.
Definition arrivals (g : SealedGateway S) (l : list Arrival) : SealedGateway S := fold_left arrive l g.
Fixpoint admissions (g : SealedGateway S) (l : list Arrival) : nat :=
  match l with [] => 0 | a :: l => Nat.b2n (admitted g a) + admissions (arrive g a) l end.

Lemma arrive_window g a : replays (arrive g a) = (screen (gw_key g) (ar_body a) (ar_now a) (replays g)).2
  /\ gw_key (arrive g a) = gw_key g.
Proof.
  unfold arrive, handle. destruct (screen _ _ _ _) as [[|k an|k r] w]; [done..|].
  destruct (dispatch sessions r (gw_state g)); done.
Qed.

(** Screening inserts an identifier exactly when the clock is near. *)
Lemma screen_cases key body now w :
  ((screen key body now w).2 = w /\
    (match (screen key body now w).1 with Fresh _ _ => true | _ => false end) = false) \/
  exists opened r, open_request key body = Ok opened /\ json_from_slice (opened_plaintext opened) = Some r /\
    Z.abs (sent_at r - now) <= SEALED_MAX_CLOCK_SKEW_SECONDS /\
    (screen key body now w).2 = (window_insert (replay_id opened) now w).2 /\
    (match (screen key body now w).1 with Fresh _ _ => true | _ => false end) = (window_insert (replay_id opened) now w).1.
Proof.
  unfold screen. destruct (open_request key body) as [opened|]; [|by left].
  destruct (json_from_slice (opened_plaintext opened)) as [r|] eqn:EJ; [|by left].
  destruct (Z.ltb_spec SEALED_MAX_CLOCK_SKEW_SECONDS (Z.abs (sent_at r - now))); [by left|]. right.
  exists opened, r. destruct (window_insert _ _ _) as [[] w']; done.
Qed.

(** What the gateway's window always satisfies. *)
Definition gateway_wf (g : SealedGateway S) : Prop :=
  window_wf (replays g) /\ capacity (replays g) = REPLAY_CAPACITY /\ window_seconds (replays g) = 2 * SEALED_MAX_CLOCK_SKEW_SECONDS.

Lemma arrive_wf g a : gateway_wf g -> gateway_wf (arrive g a).
Proof.
  intros (Hw & Hc & Hs). unfold gateway_wf. destruct (arrive_window g a) as [-> _].
  destruct (screen_cases (gw_key g) (ar_body a) (ar_now a) (replays g)) as [[-> _]|(o & r & _ & _ & _ & -> & _)]; [done|].
  destruct (window_insert_params (replay_id o) (ar_now a) (replays g)) as [-> ->]. split; [by apply window_insert_wf|done].
Qed.
Lemma arrivals_wf l g : gateway_wf g -> gateway_wf (arrivals g l).
Proof. revert g; induction l as [|a l IH]; intros g Hg; [done|]. by apply IH, arrive_wf. Qed.
Lemma gateway_new_wf key state : gateway_wf (gateway_new (S := S) key state).
Proof. split; [split; [done|constructor]|done]. Qed.
Lemma arrivals_key l g : gw_key (arrivals g l) = gw_key g.
Proof. revert g; induction l as [|a l IH]; intros g; [done|]. etransitivity; [exact (IH (arrive g a))|].  apply arrive_window. Qed.

Lemma arrivals_remember id t l g n : gateway_wf g -> remembers (replays g) id t n ->
  Forall (fun a => ar_now a <= t + 2 * SEALED_MAX_CLOCK_SKEW_SECONDS) l ->
  remembers (replays (arrivals g l)) id t (n + admissions g l) \/ (REPLAY_CAPACITY <= n + admissions g l)%nat.
Proof.
  revert g n; induction l as [|a l IH]; intros g n Hg HR Ht; cbn [arrivals fold_left admissions]; [left; by rewrite Nat.add_0_r|].
  apply Forall_cons in Ht as [Ht Hl]. change (fold_left arrive l (arrive g a)) with (arrivals (arrive g a) l).
  assert (remembers (replays (arrive g a)) id t (n + Nat.b2n (admitted g a)) \/ (REPLAY_CAPACITY <= n + Nat.b2n (admitted g a))%nat) as [HR'|Hc].
  { pose proof Hg as (Hw & Hc & Hs). unfold admitted. destruct (arrive_window g a) as [-> _].
    destruct (screen_cases (gw_key g) (ar_body a) (ar_now a) (replays g)) as [[-> HF]|(o & r & _ & _ & _ & -> & ->)].
    - left. rewrite HF. by rewrite Nat.add_0_r.
    - pose proof (window_insert_remembers id (replay_id o) t n (ar_now a) (replays g) Hw HR) as HI. rewrite Hs, Hc in HI.
      destruct (window_insert _ _ _) as [fresh w']. by destruct (HI Ht ltac:(done)) as [_ ?]. }
  - rewrite Nat.add_assoc. apply IH; [by apply arrive_wf|done|done].
  - right. lia.
Qed.

(** Two admissions of one message have a whole window of others between them. *)
Lemma admitted_twice key state before between a a' :
  ar_body a = ar_body a' -> Forall (fun b => ar_now b <= ar_now a') between ->
  let g := arrivals (gateway_new key state) before in
  admitted g a = true -> admitted (arrivals (arrive g a) between) a' = true ->
  (REPLAY_CAPACITY <= admissions (arrive g a) between)%nat.
Proof.
  intros HB HT g Ha Ha'. assert (gateway_wf g) as Hg by apply arrivals_wf, gateway_new_wf.
  unfold admitted in Ha, Ha'. rewrite arrivals_key in Ha'. destruct (arrive_window g a) as [Hr Hk].
  rewrite Hk in Ha'.
  destruct (screen_cases (gw_key g) (ar_body a) (ar_now a) (replays g)) as [[_ HF]|(o & r & Ho & Hj & Hs & Hw & Hf)].
  { by rewrite HF in Ha. }
  destruct (screen_cases (gw_key g) (ar_body a') (ar_now a') (replays (arrivals (arrive g a) between)))
    as [[_ HF]|(o' & r' & Ho' & Hj' & Hs' & Hw' & Hf')].
  { by rewrite HF in Ha'. }
  rewrite Hf in Ha. rewrite Hf' in Ha'. rewrite <- HB, Ho in Ho'. assert (o' = o) as -> by congruence.
  rewrite Hj in Hj'. assert (r' = r) as -> by congruence.
  assert (remembers (replays (arrive g a)) (replay_id o) (ar_now a) 0) as HR.
  { rewrite Hr, Hw. by apply window_insert_fresh. }
  assert (gateway_wf (arrive g a)) as Hg1 by by apply arrive_wf.
  assert (Forall (fun b => ar_now b <= ar_now a + 2 * SEALED_MAX_CLOCK_SKEW_SECONDS) between) as HT'
    by (eapply Forall_impl; [exact HT|]; cbn beta; intros b Hb; lia).
  destruct (arrivals_remember _ _ between _ _ Hg1 HR HT') as [HR'|]; [|done].
  exfalso. pose proof (arrivals_wf between _ Hg1) as (Hw2 & _ & Hs2).
  pose proof (window_insert_remembers (replay_id o) (replay_id o) (ar_now a) _ (ar_now a') _ Hw2 HR') as HI.
  rewrite Hs2 in HI. specialize (HI ltac:(lia) ltac:(done)).
  destruct (window_insert (replay_id o) (ar_now a') (replays (arrivals (arrive g a) between))) as [fresh w'].
  cbn [fst] in Ha'. destruct HI as [HI _]. by rewrite HI in Ha'.
Qed.

(** C6: a sealed request reaches the session routes at most once: after it was
    admitted, the same message is refused by every later arrival, whatever else
    arrives in between, as long as fewer than [REPLAY_CAPACITY] other requests
    were admitted meanwhile and the server's clock does not run backwards. *)
Theorem sealed_request_once key state before between a a' :
  ar_body a = ar_body a' -> Forall (fun b => ar_now b <= ar_now a') between ->
  let g := arrivals (gateway_new key state) before in
  admitted g a = true -> (admissions (arrive g a) between < REPLAY_CAPACITY)%nat ->
  admitted (arrivals (arrive g a) between) a' = false.
Proof.
  intros HB HT g Ha Hn. apply not_true_is_false. intros Ha'.
  pose proof (admitted_twice key state before between a a' HB HT Ha Ha') as Hc. fold g in Hc. lia.
Qed.
End once.

(** * The app and the gateway together *)

Section linked.
Context `{Ed25519, Hashes, Encodings, UrlParser, UrlOps, HeaderValues, Hpke, Json ErrorResponse}.
Context `{Json SealedControlRequest, Json SealedControlResponse, !HpkeLaws, !HpkeTotal}.
Context `{!JsonLaws ErrorResponse, !JsonLaws SealedControlRequest, !JsonLaws SealedControlResponse}.
Context {S : Type} (sessions : InnerRequest -> S -> InnerResponse * S) (client_header_value : option (list byte)).

(** A device whose network reaches one gateway: the readings to come of its own
    clock and of the server's, and the randomness either side draws. *)
Record Link := mkLink {
  link_gateway : SealedGateway S; device_clock : list Z; server_clock : list Z; randoms : list (list byte); nonces : list (list byte);
}.
#[local] Instance link_device : Device := {|
  World := Link;
  world_time w := match device_clock w with
                  | t :: ts => (t, mkLink (link_gateway w) ts (server_clock w) (randoms w) (nonces w))
                  | [] => (0, w)
                  end;
  world_random w := match randoms w with
                    | r :: rs => (r, mkLink (link_gateway w) (device_clock w) (server_clock w) rs (nonces w))
                    | [] => ([], w)
                    end;
  world_send o w := match out_body o, server_clock w, nonces w with
                    | Some body, s :: ss, n :: ns =>
                      let '((status, answer), g) := handle sessions body s n (link_gateway w) in
                      (Ok (mkResponse status None None [Ok answer]), mkLink g (device_clock w) ss (randoms w) ns)
                    | _, _, _ => (Err (mkRequestError true false false), w)
                    end;
|}.

(** What the app puts in a sealed request at its time [t]. *)
Definition inner_of (request : ControlRequest) (t offset : Z) : SealedControlRequest :=
  mkSealedRequest (cr_method request) (slash :: cr_path request) (saturating_add_signed t offset) (cr_bearer request)
    client_header_value (cr_body request).
Definition sealed_outbound (url : Url) (sealed : list byte) : Outbound :=
  mkOutbound Post url [(str "content-type", SEALED_CONTENT_TYPE)] (Some sealed).

Ltac link_simpl :=
  cbn [world world_time world_random world_send link_device device_clock link_gateway Control.sent clock_offset_seconds
       server_clock randoms nonces out_body out_headers rsp_status fst snd map_err ok_or forallb andb].

Lemma read_one_chunk status body limit : zlen body <= limit ->
  read_bounded (mkResponse status None None [Ok body]) limit = Ok body.
Proof. intros Hl. unfold read_bounded. cbn. by rewrite (proj2 (Z.ltb_ge _ _)) by (rewrite ?zlen_nil; lia). Qed.

(** What the gateway answers an attempt is what the app reads. *)
Lemma attempt_reads url seed request g t ts s ss r rs n ns log offset plaintext sealed opener an g' answer :
  header_value_ok SEALED_CONTENT_TYPE = true -> length n = RESPONSE_NONCE_BYTES ->
  json_to_vec (inner_of request t offset) = Some plaintext ->
  seal_request r (sealing_key (opening_from_seed seed)) plaintext = Ok (sealed, opener) ->
  handle sessions sealed s n g = (seal_answer opener n an s, g') ->
  json_to_vec (mkSealedResponse (an_status an) s (an_body an)) = Some answer -> zlen answer + 48 <= MAX_SEALED_BYTES ->
  attempt client_header_value url (sealing_key (opening_from_seed seed)) request
    (mkPlane (mkLink g (t :: ts) (s :: ss) (r :: rs) (n :: ns)) log offset) =
  (Ok (Some (mkSealedResponse (an_status an) s (an_body an))),
   mkPlane (mkLink g' ts ss rs ns) (log ++ [sealed_outbound url sealed]) offset).
Proof.
  intros Hh Hn Hj Hs Hg Ha Hl. destruct (response_seal_total opener n answer Hn Hl) as [body Hb].
  assert (zlen body <= MAX_SEALED_BYTES) as Hbody.
  { unfold response_seal in Hb. break_in Hb. injection Hb as <-. by apply Z.leb_le. }
  unfold attempt, sealed_now, mbind, call_bind, unix_time, load_offset, mret, call_ret, lift, random, send.
  link_simpl. change (mkSealedRequest (cr_method request) _ _ _ _ _) with (inner_of request t offset). rewrite Hj.
  link_simpl. rewrite Hs. link_simpl. rewrite Hh. link_simpl. rewrite Hg. unfold seal_answer. rewrite Ha, Hb. link_simpl.
  rewrite read_one_chunk by done. rewrite (open_seal_response opener n answer body Hn Hb). link_simpl.
  by rewrite (proj1 (json_roundtrip _ _ Ha)).
Qed.

(** A message whose JSON fits in a sealed one. *)
Definition fits {T} `{Json T} (v : T) (overhead : Z) : Prop :=
  exists bytes, json_to_vec v = Some bytes /\ zlen bytes + overhead <= MAX_SEALED_BYTES.
(** The encapsulated key that [r] gives was not seen. *)
Definition fresh_for (g : SealedGateway S) (seed r : list byte) : Prop :=
  forall enc context, setup_sender r (sk_to_pk (sk_to_scalar_bytes seed)) (info (sk_verifying_key seed)) = Some (enc, context) ->
    enc ∉ seen (replays g).
Definition skew_answer : Answer :=
  error 400 SEALED_CLOCK_SKEW_CODE (str "this device's clock is too far from the server's").
Definition with_state (g : SealedGateway S) (state : S) (id : list byte) (now : Z) : SealedGateway S :=
  mkGateway (gw_key g) state (window_insert id now (replays g)).2.

Lemma seal_request_enc r seed plaintext sealed opener :
  seal_request r (sealing_key (opening_from_seed seed)) plaintext = Ok (sealed, opener) ->
  exists context, setup_sender r (sk_to_pk (sk_to_scalar_bytes seed)) (info (sk_verifying_key seed)) = Some (key_enc opener, context).
Proof.
  unfold seal_request, sealing_key, opening_from_seed. cbn [sealing_x25519 sealing_ed25519 opening_x25519 opening_ed25519].
  destruct (setup_sender _ _ _) as [[enc context]|]; [|done]. cbn [ok_or]. intros HE. exists context.
  destruct (ok_or (context_seal _ _ _) _) as [ciphertext|]; [|done]. destruct (zlen _ <=? _); [|done].
  destruct (ok_or (context_export _ _ _) _) as [secret|]; [|done]. assert (opener = mkResponseKey enc secret) as -> by congruence. done.
Qed.

Lemma forget_old_subset window now s o : (forget_old window now s o).1 ⊆ s.
Proof.
  revert s; induction o as [|[old at_] o IH]; intros s; cbn [forget_old]; [done|].
  destruct (_ <=? _); [done|]. rewrite IH. set_solver.
Qed.
Lemma window_insert_new id now w : id ∉ seen w -> (window_insert id now w).1 = true.
Proof.
  intros Hid. unfold window_insert. pose proof (forget_old_subset (window_seconds w) now (seen w) (order w)) as Hs.
  destruct (forget_old _ _ _ _) as [s o]. cbn in Hs. rewrite bool_decide_false by set_solver.
  by destruct (if (capacity w <=? length o)%nat then _ else _).
Qed.

Lemma handle_skewed seed r plaintext sealed opener inner s n g :
  gw_key g = opening_from_seed seed -> json_to_vec inner = Some plaintext ->
  seal_request r (sealing_key (opening_from_seed seed)) plaintext = Ok (sealed, opener) ->
  SEALED_MAX_CLOCK_SKEW_SECONDS < Z.abs (sent_at inner - s) ->
  handle sessions sealed s n g = (seal_answer opener n skew_answer s, g).
Proof.
  intros Hk Hj Hs Hskew. unfold handle, screen. rewrite Hk, (proj1 (open_seal_request _ _ _ _ _ Hs)). cbn [opened_plaintext sealer].
  rewrite (proj1 (json_roundtrip _ _ Hj)), (proj2 (Z.ltb_lt _ _)) by done. rewrite <- Hk. by destruct g.
Qed.

Lemma handle_served seed r plaintext sealed opener inner s n g an state :
  gw_key g = opening_from_seed seed -> json_to_vec inner = Some plaintext ->
  seal_request r (sealing_key (opening_from_seed seed)) plaintext = Ok (sealed, opener) ->
  Z.abs (sent_at inner - s) <= SEALED_MAX_CLOCK_SKEW_SECONDS -> fresh_for g seed r ->
  dispatch sessions inner (gw_state g) = (an, state) ->
  handle sessions sealed s n g = (seal_answer opener n an s, with_state g state (key_enc opener) s).
Proof.
  intros Hk Hj Hs Hskew Hf Hd. unfold handle, screen. rewrite Hk, (proj1 (open_seal_request _ _ _ _ _ Hs)).
  cbn [opened_plaintext sealer replay_id]. rewrite (proj1 (json_roundtrip _ _ Hj)), (proj2 (Z.ltb_ge _ _)) by done.
  destruct (seal_request_enc _ _ _ _ _ Hs) as [context HE].
  pose proof (window_insert_new (key_enc opener) s (replays g) (Hf _ _ HE)) as Hw. unfold with_state. rewrite Hk.
  destruct (window_insert (key_enc opener) s (replays g)) as [fresh w]. cbn in Hw. rewrite Hw, Hd. done.
Qed.

(** One attempt whose clock is near: the session routes see the request and the
    app reads what they answered. *)
Lemma attempt_served url seed request g t ts s ss r rs n ns log offset an state :
  header_value_ok SEALED_CONTENT_TYPE = true -> length n = RESPONSE_NONCE_BYTES -> gw_key g = opening_from_seed seed ->
  fits (inner_of request t offset) 49 -> fresh_for g seed r ->
  Z.abs (saturating_add_signed t offset - s) <= SEALED_MAX_CLOCK_SKEW_SECONDS ->
  dispatch sessions (inner_of request t offset) (gw_state g) = (an, state) ->
  fits (mkSealedResponse (an_status an) s (an_body an)) 48 ->
  exists sealed id,
    attempt client_header_value url (sealing_key (opening_from_seed seed)) request
      (mkPlane (mkLink g (t :: ts) (s :: ss) (r :: rs) (n :: ns)) log offset) =
    (Ok (Some (mkSealedResponse (an_status an) s (an_body an))),
     mkPlane (mkLink (with_state g state id s) ts ss rs ns) (log ++ [sealed_outbound url sealed]) offset).
Proof.
  intros Hh Hn Hk (plaintext & Hj & Hl) Hf Hskew Hd (answer & Ha & Hla).
  destruct (seal_request_total r seed plaintext Hl) as (sealed & opener & Hs). exists sealed, (key_enc opener).
  eapply attempt_reads; [done..| |exact Ha|done]. by eapply handle_served.
Qed.

Lemma attempt_skewed url seed request g t ts s ss r rs n ns log offset :
  header_value_ok SEALED_CONTENT_TYPE = true -> length n = RESPONSE_NONCE_BYTES -> gw_key g = opening_from_seed seed ->
  fits (inner_of request t offset) 49 ->
  SEALED_MAX_CLOCK_SKEW_SECONDS < Z.abs (saturating_add_signed t offset - s) ->
  fits (mkSealedResponse (an_status skew_answer) s (an_body skew_answer)) 48 ->
  exists sealed,
    attempt client_header_value url (sealing_key (opening_from_seed seed)) request
      (mkPlane (mkLink g (t :: ts) (s :: ss) (r :: rs) (n :: ns)) log offset) =
    (Ok (Some (mkSealedResponse (an_status skew_answer) s (an_body skew_answer))),
     mkPlane (mkLink g ts ss rs ns) (log ++ [sealed_outbound url sealed]) offset).
Proof.
  intros Hh Hn Hk (plaintext & Hj & Hl) Hskew (answer & Ha & Hla).
  destruct (seal_request_total r seed plaintext Hl) as (sealed & opener & Hs). exists sealed.
  eapply attempt_reads; [done..| |exact Ha|done]. by eapply handle_skewed.
Qed.

(** C17: a sealed call through a front whose clock is near the node's: the node
    runs exactly the request the app made, once, and the app gets exactly the
    status and the body of the session routes; only ciphertext left the app. *)
Theorem sealed_call_served url seed key request g t ts s ss r rs n ns log offset an state :
  sealing_from_ed25519 (sk_verifying_key seed) = Ok key ->
  header_value_ok SEALED_CONTENT_TYPE = true -> length n = RESPONSE_NONCE_BYTES -> gw_key g = opening_from_seed seed ->
  fits (inner_of request t offset) 49 -> fresh_for g seed r ->
  Z.abs (saturating_add_signed t offset - s) <= SEALED_MAX_CLOCK_SKEW_SECONDS ->
  dispatch sessions (inner_of request t offset) (gw_state g) = (an, state) ->
  fits (mkSealedResponse (an_status an) s (an_body an)) 48 ->
  is_clock_skew (mkSealedResponse (an_status an) s (an_body an)) = false ->
  exists sealed id,
    sealed_exchange client_header_value url (sk_verifying_key seed) request
      (mkPlane (mkLink g (t :: ts) (s :: ss) (r :: rs) (n :: ns)) log offset) =
    (Ok (Some (mkExchange (status_or_bad_gateway (an_status an)) (default [] (an_body an)))),
     mkPlane (mkLink (with_state g state id s) ts ss rs ns) (log ++ [sealed_outbound url sealed]) offset).
Proof.
  intros Hkey Hh Hn Hk Hi Hf Hskew Hd Ha Hns. pose proof (sealing_key_matches _ _ Hkey) as ->.
  destruct (attempt_served url seed request g t ts s ss r rs n ns log offset an state) as (sealed & id & HA); [done..|].
  exists sealed, id. unfold sealed_exchange, mbind, call_bind, mret, call_ret, lift. rewrite Hkey. cbn [map_err].
  rewrite HA, Hns. done.
Qed.

(** C29: a device whose clock is far off is served all the same: the node's
    answer corrects the offset, and the second try is within the allowed skew
    as long as both clocks advance alike between the two tries; the request
    runs once. *)
Theorem clock_skew_corrected url seed key request g t1 t2 t3 ts s1 s2 ss r1 r2 rs n1 n2 ns log offset an state :
  sealing_from_ed25519 (sk_verifying_key seed) = Ok key ->
  header_value_ok SEALED_CONTENT_TYPE = true -> length n1 = RESPONSE_NONCE_BYTES -> length n2 = RESPONSE_NONCE_BYTES ->
  gw_key g = opening_from_seed seed -> fresh_for g seed r2 ->
  SEALED_MAX_CLOCK_SKEW_SECONDS < Z.abs (saturating_add_signed t1 offset - s1) ->
  0 <= t2 <= t3 -> 0 <= s1 -> s1 + (t3 - t2) <= u64_max -> Z.abs (s1 - t2) <= i64_max ->
  Z.abs ((t3 - t2) - (s2 - s1)) <= SEALED_MAX_CLOCK_SKEW_SECONDS ->
  is_Some (json_to_vec (mkErrorResponse SEALED_CLOCK_SKEW_CODE (str "this device's clock is too far from the server's") None)) ->
  fits (inner_of request t1 offset) 49 -> fits (mkSealedResponse (an_status skew_answer) s1 (an_body skew_answer)) 48 ->
  fits (inner_of request t3 (saturating_offset s1 t2)) 49 ->
  dispatch sessions (inner_of request t3 (saturating_offset s1 t2)) (gw_state g) = (an, state) ->
  fits (mkSealedResponse (an_status an) s2 (an_body an)) 48 ->
  exists sealed1 sealed2 id,
    sealed_exchange client_header_value url (sk_verifying_key seed) request
      (mkPlane (mkLink g (t1 :: t2 :: t3 :: ts) (s1 :: s2 :: ss) (r1 :: r2 :: rs) (n1 :: n2 :: ns)) log offset) =
    (Ok (Some (mkExchange (status_or_bad_gateway (an_status an)) (default [] (an_body an)))),
     mkPlane (mkLink (with_state g state id s2) ts ss rs ns)
       (log ++ [sealed_outbound url sealed1; sealed_outbound url sealed2]) (saturating_offset s1 t2)).
Proof.
  intros Hkey Hh Hn1 Hn2 Hk Hf Hskew Ht Hs1 Hs1' Hoff Hdrift [eb He] Hi1 Ha1 Hi2 Hd Ha2.
  pose proof (sealing_key_matches _ _ Hkey) as ->.
  destruct (attempt_skewed url seed request g t1 (t2 :: t3 :: ts) s1 (s2 :: ss) r1 (r2 :: rs) n1 (n2 :: ns) log offset)
    as (sealed1 & HA1); [done..|].
  assert (saturating_offset s1 t2 = s1 - t2) as Eo.
  { unfold saturating_offset. destruct (Z.leb_spec t2 s1); rewrite (proj2 (Z.leb_le _ _)); lia. }
  destruct (attempt_served url seed request g t3 ts s2 ss r2 rs n2 ns (log ++ [sealed_outbound url sealed1])
    (saturating_offset s1 t2) an state) as (sealed2 & id & HA2); [done..| |done|done|].
  { rewrite Eo. unfold saturating_add_signed, SEALED_MAX_CLOCK_SKEW_SECONDS in *. lia. }
  exists sealed1, sealed2, id. unfold sealed_exchange, mbind, call_bind, mret, call_ret, lift. rewrite Hkey. cbn [map_err].
  rewrite HA1. unfold is_clock_skew at 1. cbn [sp_status sp_body skew_answer error an_status an_body]. rewrite He.
  rewrite (proj1 (json_roundtrip _ _ He)). cbn [er_code Z.eqb Pos.eqb andb]. rewrite bool_decide_true by done.
  unfold unix_time, store_offset. link_simpl. cbn [server_time]. rewrite HA2. rewrite <- (assoc_L (++)). done.
Qed.
End linked.

(** * Witnesses *)

#[local] Instance demo_device : Device := link_device demo_sessions.

Definition demo_plain (sent : Z) : list byte :=
  default [] (json_to_vec (mkSealedRequest Get (str "/v1/sessions/current") sent (Some (str "token")) None None)).
Definition demo_sealed (sent : Z) : list byte :=
  match seal_request (str "r") (sealing_key (opening_from_seed node_seed)) (demo_plain sent) with Ok (s, _) => s | Err _ => [] end.

(** A message sent again a second later. *)
Lemma sealed_request_once_witness :
  admitted (arrivals demo_sessions (arrive demo_sessions demo_gateway (mkArrival (demo_sealed 1000) 1000 demo_nonce)) [])
    (mkArrival (demo_sealed 1000) 1001 demo_nonce) = false.
Proof.
  refine (sealed_request_once demo_sessions (opening_from_seed node_seed) 0%nat [] []
    (mkArrival (demo_sealed 1000) 1000 demo_nonce) (mkArrival (demo_sealed 1000) 1001 demo_nonce) eq_refl _ _ _).
  - constructor.
  - vm_compute. reflexivity.
  - apply Nat.ltb_lt. vm_compute. reflexivity.
Defined.

Ltac fits_compute := eexists; split; [reflexivity|]; apply Z.leb_le; vm_compute; reflexivity.

Lemma sealed_call_served_witness :
  exists sealed id,
    sealed_exchange None demo_base (sk_verifying_key node_seed) demo_request
      (@mkPlane demo_device (mkLink demo_gateway [1000] [1100] [str "r"] [demo_nonce]) [] 0) =
    (Ok (Some (mkExchange 200 (str "{}"))),
     @mkPlane demo_device (mkLink (with_state demo_gateway 1%nat id 1100) [] [] [] []) [sealed_outbound demo_base sealed] 0).
Proof.
  refine (sealed_call_served demo_sessions None demo_base node_seed (sealing_key (opening_from_seed node_seed)) demo_request demo_gateway
    1000 [] 1100 [] (str "r") [] demo_nonce [] [] 0 (mkAnswer 200 (Some (str "{}"))) 1%nat _ _ _ _ _ _ _ _ _ _).
  - vm_compute. reflexivity.
  - vm_compute. reflexivity.
  - reflexivity.
  - reflexivity.
  - fits_compute.
  - intros enc context _. apply not_elem_of_empty.
  - apply Z.leb_le. vm_compute. reflexivity.
  - vm_compute. reflexivity.
  - fits_compute.
  - vm_compute. reflexivity.
Defined.

(** A clock a day behind. *)
Lemma clock_skew_corrected_witness :
  exists sealed1 sealed2 id,
    sealed_exchange None demo_base (sk_verifying_key node_seed) demo_request
      (@mkPlane demo_device (mkLink demo_gateway [1000; 1001; 1002] [87400; 87402] [str "r"; str "q"] [demo_nonce; demo_nonce]) [] 0) =
    (Ok (Some (mkExchange 200 (str "{}"))),
     @mkPlane demo_device (mkLink (with_state demo_gateway 1%nat id 87402) [] [] [] [])
       [sealed_outbound demo_base sealed1; sealed_outbound demo_base sealed2] 86399).
Proof.
  refine (clock_skew_corrected demo_sessions None demo_base node_seed (sealing_key (opening_from_seed node_seed)) demo_request demo_gateway
    1000 1001 1002 [] 87400 87402 [] (str "r") (str "q") [] demo_nonce demo_nonce [] [] 0 (mkAnswer 200 (Some (str "{}"))) 1%nat
    _ _ _ _ _ _ _ _ _ _ _ _ _ _ _ _ _ _).
  - vm_compute. reflexivity.
  - vm_compute. reflexivity.
  - reflexivity.
  - reflexivity.
  - reflexivity.
  - intros enc context _. apply not_elem_of_empty.
  - apply Z.ltb_lt. vm_compute. reflexivity.
  - lia.
  - lia.
  - unfold u64_max. lia.
  - unfold i64_max. lia.
  - unfold SEALED_MAX_CLOCK_SKEW_SECONDS. lia.
  - eexists. reflexivity.
  - fits_compute.
  - fits_compute.
  - fits_compute.
  - vm_compute. reflexivity.
  - fits_compute.
Defined.
