(* ===== verification/ControlProps.v ===== *)
(** Properties of the app's control plane: what it sends, what it trusts, what
    it shows, and that an issued invite pins its node. *)

From Stdlib Require Import ZArith Lia.
From stdpp Require Import gmap strings.
From S2P Require Import Prelude Utf8 Str Net Vendor Instances Cbor Locator Capsule Text Invite InviteProps Tunnel Grant Update Seal Contract Control Gateway SealedDemo SealedProps.

Section calls.
Context `{Ed25519, Hashes, Encodings, UrlParser, UrlOps, HeaderValues, Hpke, Device}.
Context `{Json ErrorResponse, Json SealedControlRequest, Json SealedControlResponse}.
Context (client_header_value : option (list byte)).

(** * What a call sends *)

(** Everything [m] sends satisfies [P]. *)
Definition emits {A} (P : Outbound -> Prop) (m : Call A) : Prop :=
  forall p, exists new, sent (m p).2 = sent p ++ new /\ Forall P new.

Lemma emits_quiet {A} P (m : Call A) : (forall p, sent (m p).2 = sent p) -> emits P m.
Proof. intros Hm p. exists []. rewrite Hm, app_nil_r. split; [done|constructor]. Qed.
Lemma emits_ret {A} P (a : A) : emits P (mret a : Call A).
Proof. by apply emits_quiet. Qed.
Lemma emits_lift {A} P (r : result ClientError A) : emits P (lift r).
Proof. by apply emits_quiet. Qed.
Lemma emits_time P : emits P unix_time.
Proof. apply emits_quiet. intros p. unfold unix_time. by destruct (world_time (world p)). Qed.
Lemma emits_random P : emits P random.
Proof. apply emits_quiet. intros p. unfold random. by destruct (world_random (world p)). Qed.
Lemma emits_store P offset : emits P (store_offset offset).
Proof. by apply emits_quiet. Qed.
Lemma emits_load P : emits P load_offset.
Proof. by apply emits_quiet. Qed.
Lemma emits_send (P : Outbound -> Prop) o : P o -> emits P (send o).
Proof.
  intros HP p. unfold send. destruct (forallb _ _); [|exists []; rewrite app_nil_r; split; [done|constructor]].
  destruct (world_send o (world p)) as [r w]. exists [o]. split; [done|by constructor].
Qed.
Lemma emits_bind {A B} P (m : Call A) (f : A -> Call B) :
  emits P m -> (forall a p p', m p = (Ok a, p') -> emits P (f a)) -> emits P (m ≫= f).
Proof.
  intros Hm Hf p. unfold mbind, call_bind. destruct (Hm p) as (new & Hn & HP). destruct (m p) as [[a|e] p1] eqn:E; cbn [snd] in Hn.
  - destruct (Hf a _ _ E p1) as (new' & -> & HP'). exists (new ++ new'). rewrite Hn, (assoc_L (++)). split; [done|by apply Forall_app].
  - exists new. by rewrite <- Hn.
Qed.
Ltac emits_step := first
  [ apply emits_ret | apply emits_lift | apply emits_time | apply emits_random | apply emits_store | apply emits_load
  | apply emits_bind; [|intros ? ? ? ?] ].

(** A request of which only the sealed form leaves the device. *)
Definition sealed_to (url : Url) (key : NodeSealingKey) (o : Outbound) : Prop :=
  out_method o = Post /\ out_url o = url /\ out_headers o = [(str "content-type", SEALED_CONTENT_TYPE)] /\
  exists r plaintext sealed opener, seal_request r key plaintext = Ok (sealed, opener) /\ out_body o = Some sealed.

Lemma attempt_emits url key request : emits (sealed_to url key) (attempt client_header_value url key request).
Proof.
  unfold attempt, sealed_now. do 2 emits_step; repeat emits_step.
  - apply emits_send. unfold lift in *. destruct (seal_request _ key _) as [[sealed opener]|] eqn:E; [|done].
    match goal with HE : (map_err _ _, _) = _ |- _ => cbn in HE; injection HE as <- _ end.
    split_and!; [done..|]. eauto 10.
  - repeat case_match; repeat emits_step.
Qed.

Lemma sealed_exchange_emits url node_key request :
  emits (fun o => exists key, sealing_from_ed25519 node_key = Ok key /\ sealed_to url key o)
    (sealed_exchange client_header_value url node_key request).
Proof.
  unfold sealed_exchange. emits_step; [emits_step|]. unfold lift in *.
  destruct (sealing_from_ed25519 node_key) as [key|] eqn:EK; [|done].
  match goal with HE : (map_err _ _, _) = _ |- _ => cbn in HE; injection HE as <- _ end.
  assert (emits (fun o => exists key0, (Ok key : result SealError _) = Ok key0 /\ sealed_to url key0 o) (attempt client_header_value url key request)) as HA.
  { intros q. destruct (attempt_emits url key request q) as (new & -> & HN). exists new. split; [done|].
    eapply Forall_impl; [exact HN|]. cbn beta. eauto. }
  repeat first [exact HA | emits_step | case_match].
Qed.

(** C5: an endpoint that requires sealing sends nothing in the clear: whatever
    the network answers, every request of a call is a POST of the one sealed
    route whose body is ciphertext for the pinned node, with no header but the
    content type, and without a pinned node nothing is sent. *)
Theorem required_sealing_sends_sealed endpoint request p :
  ep_sealing endpoint = SealingRequired ->
  exists new, sent (exchange client_header_value endpoint request p).2 = sent p ++ new /\
    Forall (fun o => exists node_key url key, ep_node_key endpoint = Some node_key /\
      route endpoint SEALED_CONTROL_PATH = Ok url /\ sealing_from_ed25519 node_key = Ok key /\ sealed_to url key o) new.
Proof.
  intros HS. revert p. change (emits (fun o => exists node_key url key, ep_node_key endpoint = Some node_key /\
    route endpoint SEALED_CONTROL_PATH = Ok url /\ sealing_from_ed25519 node_key = Ok key /\ sealed_to url key o)
    (exchange client_header_value endpoint request)).
  unfold exchange. rewrite HS. destruct (ep_node_key endpoint) as [node_key|]; [|apply emits_lift].
  rewrite bool_decide_false by done. emits_step; [emits_step|]. unfold lift in *.
  destruct (route endpoint SEALED_CONTROL_PATH) as [url|] eqn:ER; [|done].
  match goal with HE : (Ok _, _) = _ |- _ => injection HE as <- _ end.
  emits_step; [|case_match; emits_step].
  intros q. destruct (sealed_exchange_emits url node_key request q) as (new & -> & HN). exists new. split; [done|].
  eapply Forall_impl; [exact HN|]. cbn beta. intros o (key & ? & ?). eauto 10.
Qed.

(** ** Calls that succeed *)

Lemma call_bind_ok {A B} (m : Call A) (f : A -> Call B) p b p' :
  (m ≫= f) p = (Ok b, p') -> exists a p1, m p = (Ok a, p1) /\ f a p1 = (Ok b, p').
Proof. unfold mbind, call_bind. destruct (m p) as [[a|e] p1]; [eauto|done]. Qed.
Lemma lift_ok {A} (r : result ClientError A) p a p' : lift r p = (Ok a, p') -> r = Ok a /\ p' = p.
Proof. unfold lift. by intros [= -> ->]. Qed.
Lemma map_err_ok {E F A} (f : E -> F) (r : result E A) a : map_err f r = Ok a -> r = Ok a.
Proof. destruct r; [|done]. by intros [= ->]. Qed.
End calls.

(** * What an enrollment proves *)

(** What a device did: the random bytes it drew, and the requests it sent with
    what came back. *)
Inductive WorldEvent := Drew (bytes : list byte) | Answered (o : Outbound) (answer : result RequestError Response).

Section proven.
Context `{Ed25519, Hashes, Encodings, UrlParser, UrlOps, HeaderValues, Hpke}.
Context `{Json ErrorResponse, Json SealedControlRequest, Json SealedControlResponse}.
Context (client_header_value : option (list byte)).
(** Any device, and the same one with a record of what it did. *)
Context {W : Type} (tells : W -> Z * W) (draws : W -> list byte * W) (answers : Outbound -> W -> result RequestError Response * W).
Definition recording : Device := {|
  World := W * list WorldEvent;
  world_time '(w, events) := let '(t, w) := tells w in (t, (w, events));
  world_random '(w, events) := let '(r, w) := draws w in (r, (w, events ++ [Drew r]));
  world_send o '(w, events) := let '(r, w) := answers o w in (r, (w, events ++ [Answered o r]));
|}.
#[local] Existing Instance recording.
Definition events (p : Plane) : list WorldEvent := (world p).2.

(** The call adds to the record. *)
Definition records {A} (m : Call A) : Prop := forall p, exists new, events (m p).2 = events p ++ new.
Lemma records_quiet {A} (m : Call A) : (forall p, events (m p).2 = events p) -> records m.
Proof. intros Hm p. exists []. by rewrite Hm, app_nil_r. Qed.
Lemma records_bind {A B} (m : Call A) (f : A -> Call B) : records m -> (forall a, records (f a)) -> records (m ≫= f).
Proof.
  intros Hm Hf p. unfold mbind, call_bind. destruct (Hm p) as [new Hn]. destruct (m p) as [[a|e] p1]; cbn [snd] in Hn; [|eauto].
  destruct (Hf a p1) as [new' ->]. exists (new ++ new'). by rewrite Hn, (assoc_L (++)).
Qed.
Lemma unix_time_event p t p' : unix_time p = (Ok t, p') -> events p' = events p.
Proof. unfold unix_time, events. cbn. destruct (world p) as [w l]. destruct (tells w). by intros [= <- <-]. Qed.
Lemma random_event p r p' : random p = (Ok r, p') -> events p' = events p ++ [Drew r].
Proof. unfold random, events. cbn. destruct (world p) as [w l]. destruct (draws w). by intros [= <- <-]. Qed.
Lemma send_event o p a p' : send o p = (Ok a, p') -> events p' = events p ++ [Answered o (Ok a)].
Proof.
  unfold send, events. cbn. destruct (forallb _ _); [|done]. destruct (world p) as [w l]. destruct (answers o w) as [[r|e] w']; [|done].
  by intros [= <- <-].
Qed.
Lemma records_time : records unix_time.
Proof. apply records_quiet. intros p. unfold unix_time, events. cbn. destruct (world p) as [w l]. by destruct (tells w). Qed.
Lemma records_random : records random.
Proof. intros p. unfold random, events. cbn. destruct (world p) as [w l]. destruct (draws w). eauto. Qed.
Lemma records_send o : records (send o).
Proof.
  intros p. unfold send, events. destruct (forallb _ _); [|exists []; by rewrite app_nil_r]. cbn. destruct (world p) as [w l].
  destruct (answers o w). eauto.
Qed.
Ltac records_step := first
  [ by apply records_quiet | apply records_time | apply records_random | apply records_send | apply records_bind; [|intros ?] ].
Lemma attempt_records url key request : records (attempt client_header_value url key request).
Proof. unfold attempt, sealed_now. repeat first [records_step | case_match]. Qed.
Lemma sealed_exchange_records url node_key request : records (sealed_exchange client_header_value url node_key request).
Proof. unfold sealed_exchange. repeat first [apply attempt_records | records_step | case_match]. Qed.

(** What the last request of a call and its answer prove of the outcome [e],
    with the random bytes drawn for that request: the request was sealed to
    the node with them, and its answer opened; *)
Definition sealed_proof (node_key : list byte) (request : ControlRequest) (drawn : list byte) (o : Outbound) (answer : Response) (e : Exchange) : Prop :=
  exists key now plaintext sealed opener body text response,
    sealing_from_ed25519 node_key = Ok key /\
    json_to_vec (mkSealedRequest (cr_method request) (slash :: cr_path request) now (cr_bearer request) client_header_value (cr_body request)) = Some plaintext /\
    seal_request drawn key plaintext = Ok (sealed, opener) /\ out_body o = Some sealed /\
    rsp_status answer = 200 /\ read_bounded answer MAX_SEALED_BYTES = Ok body /\
    response_open opener body = Ok text /\ json_from_slice text = Some response /\ e = to_exchange response.
(** or the request carried them as its nonce, and the answer the node's
    signature over that nonce and the body. *)
Definition signed_proof (node_key : list byte) (request : ControlRequest) (drawn : list byte) (o : Outbound) (answer : Response) (e : Exchange) : Prop :=
  out_body o = cr_body request /\ (ENROLLMENT_NONCE_HEADER, header_value drawn) ∈ out_headers o /\
  ex_status e = rsp_status answer /\ read_bounded answer MAX_RESPONSE_BYTES = Ok (ex_body e) /\
  proof_verify node_key drawn (ex_body e) (rsp_signature answer) = Ok tt.
(** A call that ended with a request, from [p] to [p']. *)
Definition ends_with (p p' : Plane) (proof : list byte -> Outbound -> Response -> Prop) : Prop :=
  exists before drawn o answer, events p' = events p ++ before ++ [Drew drawn; Answered o (Ok answer)] /\ proof drawn o answer.
Lemma ends_with_later p p1 p' proof new : events p1 = events p ++ new -> ends_with p1 p' proof -> ends_with p p' proof.
Proof. intros E (before & drawn & o & answer & E' & HP). exists (new ++ before), drawn, o, answer. by rewrite E', E, <- !(assoc_L (++)). Qed.

Lemma attempt_proves url key node_key request p response p' : sealing_from_ed25519 node_key = Ok key ->
  attempt client_header_value url key request p = (Ok (Some response), p') ->
  ends_with p p' (fun drawn o answer => sealed_proof node_key request drawn o answer (to_exchange response)).
Proof.
  intros HK. unfold attempt, sealed_now. intros (now & p1 & HN & HE)%call_bind_ok. apply call_bind_ok in HE as (plaintext & p2 & [HJ ->]%lift_ok & HE).
  apply call_bind_ok in HE as (r & p3 & HR%random_event & HE). apply call_bind_ok in HE as ([sealed opener] & p4 & [HS%map_err_ok ->]%lift_ok & HE).
  apply call_bind_ok in HE as (answer & p5 & HA%send_event & HE). apply call_bind_ok in HE as (body & p6 & [HB ->]%lift_ok & HE).
  destruct (rsp_status answer =? 200) eqn:Es; [|by destruct (rsp_status answer =? 404)]. apply Z.eqb_eq in Es.
  apply call_bind_ok in HE as (text & p7 & [HO%map_err_ok ->]%lift_ok & HE). apply call_bind_ok in HE as (x & p8 & [HX ->]%lift_ok & HE).
  unfold mret, call_ret in HE. assert (x = response) as -> by congruence. assert (p5 = p') as -> by congruence.
  assert (events p1 = events p) as E1.
  { apply call_bind_ok in HN as (t & q & HT%unix_time_event & HN). apply call_bind_ok in HN as (offset & q' & HO' & HN).
    unfold load_offset in HO'. unfold mret, call_ret in HN. by replace p1 with q by congruence. }
  destruct (json_to_vec _) as [x|] eqn:EJ in HJ; [|done]. destruct (json_from_slice text) as [y|] eqn:EX in HX; [|done]. cbn in HJ, HX.
  exists [], r, (mkOutbound Post url [(str "content-type", SEALED_CONTENT_TYPE)] (Some sealed)), answer.
  split; [rewrite HA, HR, E1; by rewrite <- (assoc_L (++))|].
  exists key, now, plaintext, sealed, opener, body, text, response. split_and!; try done; congruence.
Qed.
Lemma sealed_exchange_proves url node_key request p e p' :
  sealed_exchange client_header_value url node_key request p = (Ok (Some e), p') ->
  ends_with p p' (fun drawn o answer => sealed_proof node_key request drawn o answer e).
Proof.
  unfold sealed_exchange. intros (key & p1 & [HK%map_err_ok ->]%lift_ok & HE)%call_bind_ok.
  apply call_bind_ok in HE as (first & p2 & HA & HE). apply call_bind_ok in HE as (answer & p3 & HB & HE).
  unfold mret, call_ret in HE. destruct answer as [response|]; [|done]. assert (p3 = p') as -> by congruence.
  assert (e = to_exchange response) as -> by (cbn in HE; congruence).
  destruct first as [first|]; [|done]. destruct (is_clock_skew first).
  - apply call_bind_ok in HB as (local & q & HT%unix_time_event & HB). apply call_bind_ok in HB as (u & q' & HU & HB).
    assert (events q' = events q) as EU by (unfold store_offset in HU; by replace q' with (mkPlane (world q) (sent q) (saturating_offset (server_time first) local)) by congruence).
    destruct (attempt_records url key request p) as [new Hn]. rewrite HA in Hn. cbn [snd] in Hn.
    eapply (ends_with_later p q' p'); [rewrite EU, HT; exact Hn|]. by eapply attempt_proves.
  - unfold mret, call_ret in HB. assert (first = response) as -> by congruence. assert (p2 = p') as -> by congruence. by eapply attempt_proves.
Qed.
Lemma plain_exchange_proves endpoint node_key request body p e p' :
  ep_node_key endpoint = Some node_key -> cr_body request = Some body ->
  plain_exchange client_header_value endpoint request p = (Ok e, p') -> is_success (ex_status e) = true ->
  ends_with p p' (fun drawn o answer => signed_proof node_key request drawn o answer e).
Proof.
  intros HK HB. unfold plain_exchange. rewrite HB, HK. intros (url & p1 & [_ ->]%lift_ok & HE)%call_bind_ok Hs.
  apply call_bind_ok in HE as (challenge & p2 & HC & HE). apply call_bind_ok in HC as (nonce & p3 & HN%random_event & HC).
  unfold mret, call_ret in HC. assert (challenge = Some (node_key, nonce)) as -> by congruence. assert (p3 = p2) as -> by congruence.
  apply call_bind_ok in HE as (answer & p4 & HA%send_event & HE). apply call_bind_ok in HE as (text & p5 & [HT ->]%lift_ok & HE).
  apply call_bind_ok in HE as ([] & p6 & [HV ->]%lift_ok & HE). unfold mret, call_ret in HE. assert (p4 = p') as -> by congruence.
  assert (e = mkExchange (rsp_status answer) text) as -> by congruence. cbn [ex_status ex_body] in *. rewrite Hs in HV. apply map_err_ok in HV.
  exists [], nonce, (mkOutbound (cr_method request) url (plain_headers client_header_value request (Some nonce)) (Some body)), answer.
  split; [rewrite HA, HN; by rewrite <- (assoc_L (++))|]. split_and!; [by rewrite HB| |done..].
  cbn [out_headers fmap option_fmap option_map snd]. unfold plain_headers. rewrite !elem_of_app, HB. right. right. left. left.
Qed.

(** C19: an app with a pinned node takes an enrollment only from that node: a
    call with a body that succeeds ends with drawing random bytes and with one
    request and its answer, and either that request was sealed to the node's
    key with those bytes and the answer opens with it, or the request showed
    those bytes as its nonce and the answer's body, the one returned, carries
    the node's signature over that nonce; everything else is an error. *)
Theorem enrollment_is_proven endpoint node_key request body p e p' :
  ep_node_key endpoint = Some node_key -> cr_body request = Some body ->
  exchange client_header_value endpoint request p = (Ok e, p') -> is_success (ex_status e) = true ->
  exists before drawn o answer, events p' = events p ++ before ++ [Drew drawn; Answered o (Ok answer)] /\
    (sealed_proof node_key request drawn o answer e \/ signed_proof node_key request drawn o answer e).
Proof.
  intros HK HB HE Hs. change (ends_with p p' (fun drawn o answer => sealed_proof node_key request drawn o answer e \/ signed_proof node_key request drawn o answer e)).
  assert (Hplain : forall q, plain_exchange client_header_value endpoint request q = (Ok e, p') ->
    ends_with q p' (fun drawn o answer => sealed_proof node_key request drawn o answer e \/ signed_proof node_key request drawn o answer e)).
  { intros q Hq. destruct (plain_exchange_proves _ _ _ _ _ _ _ HK HB Hq Hs) as (before & drawn & o & answer & E & HP). exists before, drawn, o, answer. auto. }
  unfold exchange in HE. rewrite HK in HE. destruct (ep_sealing endpoint) eqn:ES; [by apply Hplain|..].
  all: apply call_bind_ok in HE as (url & p1 & [_ ->]%lift_ok & HE); apply call_bind_ok in HE as (answer & p2 & HA & HE); destruct answer as [x|];
    [unfold mret, call_ret in HE; assert (x = e) as -> by congruence; assert (p2 = p') as -> by congruence;
     destruct (sealed_exchange_proves _ _ _ _ _ _ HA) as (before & drawn & o & answer & E & HP); exists before, drawn, o, answer; by auto|].
  - rewrite bool_decide_true in HE by done. destruct (sealed_exchange_records url node_key request p) as [new Hn]. rewrite HA in Hn.
    by eapply ends_with_later; [exact Hn|apply Hplain].
  - by rewrite bool_decide_false in HE by done.
Qed.
End proven.

(** * What an error shows *)

Section errors.
Context `{UrlParser, UrlOps, Json ErrorResponse}.

(** UTF-8 text that can be shown: bounded, and without control characters. *)
Definition displayable (n : nat) (s : list byte) : Prop :=
  exists cs, chars s = Some cs /\ (length cs <= n)%nat /\ Forall (fun c => is_control c = false) cs.
Definition update_displayable (u : ClientUpdate) : Prop :=
  displayable 32 (latest_version u) /\ (forall s, update_summary u = Some s -> displayable 256 s) /\
  zlen (update_download_url u) <= 2048 /\
  exists url, url_parse (update_download_url u) = Some url /\ url_scheme url = str "https" /\ is_Some (url_host_str url).

Lemma displayable_nil n : displayable n [].
Proof. exists []. split_and!; [done|cbn; lia|constructor]. Qed.

Lemma sanitize_displayable s : displayable 256 (sanitize_message s).
Proof.
  unfold sanitize_message. destruct (chars s) as [cs|] eqn:EC; [|apply displayable_nil]. apply chars_inv in EC as [Hc _].
  eexists. split; [apply chars_encode|split].
  - apply Forall_take. eapply sublist_Forall; [apply sublist_filter|done].
  - rewrite length_take. lia.
  - apply Forall_take, Forall_forall. intros c [Hp _]%list_elem_of_filter. apply Is_true_true, orb_true_iff in Hp as [Hp|Hp].
    + by apply negb_true_iff in Hp.
    + apply Z.eqb_eq in Hp as ->. done.
Qed.

Lemma take_chars_displayable n m s : displayable m s -> displayable n (take_chars n s).
Proof.
  intros (cs & Hc & _ & Hf). unfold take_chars. rewrite Hc. apply chars_inv in Hc as [Hc _].
  exists (take n cs). split_and!; [by apply chars_encode, Forall_take|rewrite length_take; lia|by apply Forall_take].
Qed.

Lemma sanitize_update_displayable u v : sanitize_update u = Some v -> update_displayable v.
Proof.
  unfold sanitize_update. destruct (url_parse (update_download_url u)) as [url|] eqn:EU; [|done].
  destruct (_ && _) eqn:EB; [|done]. intros HE. bool_prop.
  assert (v = mkUpdateAdvice (update_status u) (take_chars 32 (sanitize_message (latest_version u))) (required_after u)
    (match update_summary u with
     | Some s => if bool_decide (sanitize_message s = []) then None else Some (sanitize_message s)
     | None => None end) (update_download_url u)) as -> by congruence.
  unfold update_displayable. cbn [latest_version update_summary update_download_url]. split_and!.
  - eapply take_chars_displayable, sanitize_displayable.
  - intros s HS. destruct (update_summary u) as [t|]; [|done]. destruct (bool_decide _); [done|].
    assert (s = sanitize_message t) as -> by congruence. apply sanitize_displayable.
  - done.
  - by exists url.
Qed.

Lemma http_code_ok status : 0 <= status <= 65535 -> code_ok (str "http_" ++ show_u64 status) = true.
Proof.
  intros Hs. destruct (show_u64_digits status) as (Hc & Hl & _); [lia|]. unfold code_ok.
  rewrite bool_decide_false by done. cbn [negb andb]. rewrite (proj2 (Z.leb_le _ _)).
  - rewrite forallb_app. cbn [andb]. rewrite (proj2 (andb_true_iff _ _)); [done|]. split; [done|].
    destruct Hc as (_ & Hd & _). eapply forallb_impl; [|exact Hd]. intros b Hb. unfold code_byte. rewrite Hb. by rewrite orb_true_r.
  - rewrite zlen_app. change (zlen (str "http_")) with 5. lia.
Qed.

(** Whatever bytes a server answers with, the error the app shows is safe
    to show: its code is at most 64 characters of a-z, 0-9 and _, its message
    at most 256 characters without control characters, and an update's page is
    an https URL with a host; a 404 always reads as rejected credentials. *)
Theorem api_error_displayable status body : 0 <= status <= 65535 ->
  match api_error status body with
  | ApiError s code message =>
    s = status /\ code_ok code = true /\ displayable 256 message /\ message <> [] /\ (status = 404 -> code = str "unauthorized")
  | UpdateRequired u => status = 426 /\ update_displayable u
  | _ => False
  end.
Proof.
  intros Hs. unfold api_error. destruct (Z.eqb_spec status 404) as [->|Hne].
  - split_and!; [done|by vm_compute| |done|done]. eexists. split; [by vm_compute|]. split; [vm_compute; lia|].
    repeat (constructor; [by vm_compute|]). constructor.
  - match goal with |- match (match ?u with _ => _ end) with _ => _ end => destruct u as [update|] eqn:EU end.
    + destruct (Z.eqb_spec status 426); [|done]. split; [done|]. destruct (json_from_slice body) as [r|]; [|done].
      destruct (bool_decide _); [|done]. destruct (er_update r); [|done]. by eapply sanitize_update_displayable.
    + assert (displayable 256 (str "the server rejected the request")) as Hd.
      { eexists. split; [by vm_compute|]. split; [vm_compute; lia|]. repeat (constructor; [by vm_compute|]). constructor. }
      clear EU. split_and!; [done| | | |done].
      * destruct (json_from_slice body) as [r|]; [|by apply http_code_ok].
        destruct (code_ok (er_code r)) eqn:EC; [done|by apply http_code_ok].
      * destruct (json_from_slice body) as [r|]; [|done]. case_bool_decide; [done|]. apply sanitize_displayable.
      * destruct (json_from_slice body) as [r|]; [|done]. by case_bool_decide.
Qed.
End errors.

(** * An issued invite *)

Section issued.
Context `{Ed25519, Hashes, Encodings, UrlParser, UrlOps, Hpke, !Ed25519Laws, !EncodingsLaws, !UrlParserLaws}.

Lemma public_locator_sized value l : ket_locator_from_public_url value = Ok l -> locator_sized l.
Proof.
  unfold ket_locator_from_public_url. intros HU. repeat read_step HU. injection HU as <-.
  apply from_public_url_inv in R as (_ & u & host & Hu & _ & _ & _ & _ & _ & Hl).
  destruct a; try done; destruct Hl as (_ & _ & Hp); exact (url_parse_port _ _ _ Hu Hp).
Qed.

Lemma trim_start_plain cs : Forall (fun c => is_whitespace c = false) cs -> trim_start cs = cs.
Proof. destruct 1 as [|c cs Hc]; cbn; [done|]. by rewrite Hc. Qed.
Lemma trim_plain s : forallb is_ascii s = true -> forallb (fun b => negb (is_whitespace (b2z b))) s = true -> trim s = s.
Proof.
  intros Ha Hw. unfold trim. pose proof (chars_ascii s Ha) as Hc. rewrite Hc. apply chars_inv in Hc as [_ Hs].
  assert (Forall (fun c => is_whitespace c = false) (map b2z s)) as Hf.
  { apply Forall_map. apply forallb_Forall in Hw. eapply Forall_impl; [exact Hw|]. cbn beta. intros b. by destruct (is_whitespace (b2z b)). }
  unfold trim_chars. rewrite (trim_start_plain (map b2z s)) by done. rewrite trim_start_plain by (rewrite rev_alt; by apply Forall_reverse).
  by rewrite rev_involutive, <- Hs.
Qed.

Lemma issued_text_plain s t : encode_invite_text s = Ok t -> trim t = t.
Proof.
  unfold encode_invite_text, to_text. intros HE. read_step HE. injection HE as <-. unfold encode_base64url.
  pose proof (base64url_alphabet a) as Ha.
  assert (forall b, is_base64url b = true -> is_ascii b = true /\ negb (is_whitespace (b2z b)) = true) as Hb by (intros []; vm_compute; done).
  apply trim_plain; rewrite forallb_app; apply andb_true_iff; (split; [by vm_compute|]); (eapply forallb_impl; [|exact Ha]); apply Hb.
Qed.

(** C20: an invite the node issues makes the app enroll with that node and no
    other: until it expires, its text gives back the access code and the
    expiry, and an endpoint at the node's address that is pinned to the node's
    key and requires sealed requests. *)
Theorem issued_invite_enrolls seed public_url issuer access_code expires text now endpoint :
  let key := sk_verifying_key seed in
  from_bytes key = Ok key -> in_u64 expires -> now < expires ->
  issuer_new seed public_url = Ok issuer -> issue_invite issuer access_code expires = Ok text ->
  endpoint_parse (base_url (locator issuer)) = Ok endpoint ->
  enrollment_from_text text now =
    Ok (mkEnrollment (mkEndpoint (ep_base endpoint) (Some key) SealingRequired) access_code (Some expires) (fingerprint issuer)).
Proof.
  intros key Hk He Hn HI HT HP. unfold issuer_new in HI. destruct (ket_locator_from_public_url public_url) as [l|] eqn:EL; [|done].
  cbn [map_err] in HI. destruct (ok_or _ _) as [seed'|]; [|done]. destruct (_ =? _)%nat; [|done].
  assert (issuer = mkIssuer seed (opening_from_seed seed') l) as -> by congruence. clear HI. unfold issue_invite in HT. cbn [signing_key locator] in *.
  destruct (ket_capsule _ _ _ _) as [c|] eqn:EC; [|done]. cbn [map_err] in HT. destruct (sign c seed) as [s|] eqn:ES; [|done]. cbn [map_err] in HT.
  apply map_err_ok in HT. assert (c = mkCapsule key [l] (mkAccessCode access_code) 1 2 (Some expires)) as Ec.
  { unfold ket_capsule, Capsule.new in EC. repeat read_step EC. apply access_code_new_inv in R as [<- _]. destruct a as [code]. cbn [expose]. injection EC as <-. reflexivity. }
  assert (capsule s = c) as Hs.
  { unfold sign in ES. repeat read_step ES. by injection ES as <-. }
  destruct (issued_text_decodes key [l] access_code (Some expires) c seed s text (Some now)) as [HD _]; [apply sk_key_length|done| |done..| |].
  { constructor; [by eapply public_locator_sized|constructor]. }
  { intros n Hx. assert (n = now) as -> by congruence. subst c. unfold is_expired_at. cbn. by apply Z.leb_gt. }
  unfold enrollment_from_text. rewrite (issued_text_plain _ _ HT), HD. cbn [map_err]. rewrite Hs, Ec.
  cbn [supports_protocol protocol_min protocol_max locators node_public_key capability expires_at_epoch_seconds first_endpoint expose].
  rewrite HP. cbn [ok_or]. reflexivity.
Qed.
End issued.

(** * Witnesses *)

#[local] Instance control_device : Device := link_device demo_sessions.
Definition demo_endpoint (sealing : Sealing) : ControlEndpoint := mkEndpoint demo_base (Some (sk_verifying_key node_seed)) sealing.
Definition demo_plane : Plane :=
  @mkPlane control_device (mkLink demo_gateway [1000; 1001; 1002] [87400; 87402] [str "r"; str "q"] [demo_nonce; demo_nonce]) [] 0.
Definition demo_enroll : ControlRequest := mkControlRequest Post (str "v1/sessions") None (Some (str "{}")).

Lemma required_sealing_sends_sealed_witness :
  exists new, sent (exchange None (demo_endpoint SealingRequired) demo_enroll demo_plane).2 = sent demo_plane ++ new /\
    Forall (fun o => exists node_key url key, ep_node_key (demo_endpoint SealingRequired) = Some node_key /\
      route (demo_endpoint SealingRequired) SEALED_CONTROL_PATH = Ok url /\ sealing_from_ed25519 node_key = Ok key /\ sealed_to url key o) new.
Proof. exact (required_sealing_sends_sealed None (demo_endpoint SealingRequired) demo_enroll demo_plane eq_refl). Defined.

Lemma result_first {A B} (x : A * B) a : x.1 = a -> x = (a, x.2).
Proof. intros <-. by destruct x. Qed.

(** The demonstration device, recorded. *)
Definition demo_recording : Device := recording (@world_time control_device) (@world_random control_device) (@world_send control_device).
Definition recorded_plane : @Plane demo_recording := @mkPlane demo_recording (@world control_device demo_plane, []) [] 0.
Definition recorded_run : result ClientError Exchange * @Plane demo_recording :=
  exchange (H6 := demo_recording) None (demo_endpoint SealingPreferred) demo_enroll recorded_plane.
Lemma enrollment_is_proven_witness : exists before drawn o answer,
  events _ _ _ recorded_run.2 = before ++ [Drew drawn; Answered o (Ok answer)] /\
    (sealed_proof None (sk_verifying_key node_seed) demo_enroll drawn o answer (mkExchange 200 (str "{}")) \/
     signed_proof (sk_verifying_key node_seed) demo_enroll drawn o answer (mkExchange 200 (str "{}"))).
Proof.
  refine (enrollment_is_proven None _ _ _ (demo_endpoint SealingPreferred) (sk_verifying_key node_seed) demo_enroll (str "{}") recorded_plane
    (mkExchange 200 (str "{}")) recorded_run.2 eq_refl eq_refl (result_first _ _ _) eq_refl).
  vm_compute. reflexivity.
Defined.

Lemma api_error_displayable_witness :
  match api_error 400 (str "nonsense") with
  | ApiError s code message =>
    s = 400 /\ code_ok code = true /\ displayable 256 message /\ message <> [] /\ (400 = 404 -> code = str "unauthorized")
  | UpdateRequired u => 400 = 426 /\ update_displayable u
  | _ => False
  end.
Proof. apply (api_error_displayable 400 (str "nonsense")). lia. Defined.

Definition demo_issuer : InviteIssuer := mkIssuer node_seed (opening_from_seed node_seed) (Https (str "vpn.ket-node.net") 443).
Definition issued_text : list byte := match issue_invite demo_issuer demo_code 2000 with Ok t => t | Err _ => [] end.
Definition issued_endpoint : ControlEndpoint :=
  match endpoint_parse (base_url (locator demo_issuer)) with Ok e => e | Err _ => demo_endpoint SealingOff end.
Lemma issued_invite_enrolls_witness :
  enrollment_from_text issued_text 1999 =
    Ok (mkEnrollment (mkEndpoint (ep_base issued_endpoint) (Some (sk_verifying_key node_seed)) SealingRequired) demo_code (Some 2000)
          (fingerprint demo_issuer)).
Proof.
  refine (issued_invite_enrolls node_seed (str "https://vpn.ket-node.net") demo_issuer demo_code 2000 issued_text 1999 issued_endpoint _ _ _ _ _ _).
  - by_compute.
  - unfold in_u64, u64_max. lia.
  - lia.
  - vm_compute. reflexivity.
  - vm_compute. reflexivity.
  - vm_compute. reflexivity.
Defined.
