(* ===== verification/ServiceEnds.v ===== *)
(** What an operation of the access service does to the sessions that exist:
    each one it ends is among the allocations it returns, so that its caller
    can take it from the engines. *)

From Stdlib Require Import ZArith Lia.
From stdpp Require Import strings.
From S2P Require Import Prelude Utf8 Allowance Grant Model Activity Meter GrantAdmin Service ServiceInv ServiceDemo ServiceProps ServiceGrants ServiceUsage.

(** A session of the state has the allocation. *)
Definition holds (st : PersistedState) (a : SessionAllocation) : Prop :=
  exists s, s ∈ sessions st /\ session_allocation s = Ok a.
(** What [st] holds, [st'] holds or [ended] names. *)
Definition accounts (st st' : PersistedState) (ended : list SessionAllocation) : Prop :=
  forall a, holds st a -> holds st' a \/ a ∈ ended.

Lemma accounts_refl st ended : accounts st st ended.
Proof. by left. Qed.
Lemma accounts_trans st st' st'' ended ended' : accounts st st' ended -> accounts st' st'' ended' -> accounts st st'' (ended ++ ended').
Proof. intros H1 H2 a Ha. rewrite elem_of_app. destruct (H1 a Ha) as [Hb|]; [|tauto]. destruct (H2 a Hb); tauto. Qed.
#[export] Hint Resolve accounts_refl : ket.

(** The sessions left out are those whose allocations were collected. *)
Lemma accounts_kept st st' gone ended :
  collect session_allocation gone = Ok ended -> (forall s, s ∈ sessions st -> s ∈ sessions st' \/ s ∈ gone) -> accounts st st' ended.
Proof.
  intros HC Hs a (s & Hin & Ha). destruct (Hs s Hin) as [|Hg]; [left; by exists s|right].
  apply collect_ok_forall2 in HC. apply list_elem_of_lookup in Hg as [i Hi].
  destruct (Forall2_lookup_l _ _ _ _ _ HC Hi) as (b & Hb & E). assert (a = b) as -> by congruence.
  by eapply list_elem_of_lookup_2.
Qed.
Lemma session_allocation_inv s a : session_allocation s = Ok a -> al_id a = s_id s /\ s_resource_slot s = Some (al_resource_slot a).
Proof.
  unfold session_allocation, required_resource_slot. destruct (s_resource_slot s); [|done]. cbn. by intros [= <-].
Qed.
Lemma same_allocation s t : s_id s = s_id t -> s_resource_slot s = s_resource_slot t -> session_allocation s = session_allocation t.
Proof. intros E1 E2. unfold session_allocation, required_resource_slot. by rewrite E1, E2. Qed.

Section operations.
Context `{SecretHashing, StateJson, !StateJsonLaws, NodeConfig}.

(** An operation leads from a state of the service to another, and names
    every session it ends. *)
Definition accounted {A} (m : M A) (ended : A -> list SessionAllocation) : Prop :=
  forall sv, reachable sv -> reachable (m sv).1 /\
    accounts (state sv) (state (m sv).1) (match (m sv).2 with Ok x => ended x | Err _ => [] end).
Definition none_ended {A} (_ : A) : list SessionAllocation := [].

Lemma accounted_section {A} op (m : M A) (Q : Service -> A -> Service -> Prop) ended :
  (forall sv, (m sv).1 = (exec op sv).1) -> op_ok op ->
  (forall sv, Inv sv -> triple (unchanged sv) m (Q sv) (Unchanged sv)) ->
  (forall sv x sv', Inv sv -> Q sv x sv' -> accounts (state sv) (state sv') (ended x)) -> accounted m ended.
Proof.
  intros Hx Hop HT HQ sv HR. split; [rewrite Hx; by apply reachable_step|].
  pose proof (reachable_inv sv HR) as HI. specialize (HT sv HI sv (conj eq_refl (conj eq_refl (conj eq_refl eq_refl)))).
  destruct (m sv) as [sv' [x|e]]; cbn in *; [by apply HQ|]. destruct HT as (-> & _). apply accounts_refl.
Qed.
#[local] Ltac one_section op :=
  eapply (accounted_section op); [by intros; cbn [exec forget_result fst]|done|intros ? ?|].

Lemma update_grant_accounted id changes now io note_now : accounted (update_grant id changes now io note_now) snd.
Proof.
  one_section (UpdateGrant id changes now io note_now); [by apply update_grant_triple|].
  intros sv [sum ended] sv' _ (_ & c & _ & HA) a (s & Hs & Ha). cbn [snd] in *.
  destruct (apply_inv _ _ _ _ _ _ HA) as (i & g & g' & ea & ending & _ & _ & _ & _ & Est & HF). rewrite Est.
  set (s' := cut id (g_expires_at g') s). destruct (cut_fields id (g_expires_at g') s) as (E1 & _ & E2 & _).
  assert (Ha' : session_allocation s' = Ok a) by (rewrite <- Ha; by apply same_allocation).
  assert (Hs' : s' ∈ map (cut id (g_expires_at g')) (sessions (state sv))) by (apply elem_of_map; eauto).
  destruct (decide (s_id s' ∈ ending)) as [He|He].
  - right. assert (Hf : s' ∈ filter (fun s => s_id s ∈ ending) (map (cut id (g_expires_at g')) (sessions (state sv)))) by (by apply list_elem_of_filter).
    apply list_elem_of_lookup in Hf as [j Hj]. destruct (Forall2_lookup_l _ _ _ _ _ HF Hj) as (b & Hb & E).
    assert (a = b) as -> by congruence. by eapply list_elem_of_lookup_2.
  - left. exists s'. split; [|done]. by apply list_elem_of_filter.
Qed.
Lemma revoke_grant_accounted id io : accounted (revoke_grant id io) (fun ended => ended).
Proof.
  one_section (RevokeGrant id io); [by apply revoke_grant_triple|]. intros sv ended sv' _ (_ & -> & HC).
  eapply accounts_kept; [exact HC|]. intros s Hs. cbn [sessions]. unfold grant_sessions. rewrite !list_elem_of_filter.
  destruct (decide (s_grant_id s = id)); tauto.
Qed.
Lemma record_usage_accounted moved now io note_now : accounted (record_usage moved now io note_now) (fun ended => ended).
Proof.
  one_section (RecordUsage moved now io note_now); [by apply record_usage_triple|]. intros sv ended sv' _ (_ & -> & HC).
  eapply accounts_kept; [exact HC|]. intros s Hs. unfold usage_next, usage_ending. cbn [sessions]. rewrite !list_elem_of_filter.
  match goal with |- _ \/ (?P /\ _) => destruct (decide P) end; tauto.
Qed.
Lemma create_grant_accounted request now code salt pool io : accounted (create_grant request now code salt pool io) none_ended.
Proof.
  one_section (CreateGrant request now code salt pool io); [by apply create_grant_triple|].
  intros sv resp sv' _ (_ & _ & h & l & ->) a Ha. by left.
Qed.
Lemma note_accounted id a now : accounted (note id a now) none_ended.
Proof.
  intros sv HR. split; [by apply (reachable_step (Note id a now))|].
  destruct (note_inv id a now sv (reachable_inv _ HR)) as (_ & _ & -> & _). apply accounts_refl.
Qed.

(** Runs of sections that end none of the sessions. *)
Lemma accounted_runs {A} (m : M A) ended :
  (forall sv, reachable sv -> exists ops, Forall op_ok ops /\ (m sv).1 = run ops sv) ->
  (forall sv, reachable sv -> accounts (state sv) (state (m sv).1) (match (m sv).2 with Ok x => ended x | Err _ => [] end)) -> accounted m ended.
Proof. intros Hr Ha sv HR. split; [|by apply Ha]. destruct (Hr sv HR) as (ops & HF & ->). by apply reachable_run. Qed.

(** A grant forgotten ended a week ago, and its sessions before it. *)
Lemma stale_sessions_expired sv now s g :
  Inv sv -> s ∈ sessions (state sv) -> g ∈ grants (state sv) -> g_id g = s_grant_id s -> stale now g = true -> s_expires_at s <=? now = true.
Proof.
  intros HI Hs Hg Eg Hst. pose proof (core_wf _ (inv_core _ HI)) as Hwf. pose proof (wf_sessions _ Hwf) as HF.
  rewrite Forall_forall in HF. destruct (HF s Hs) as (_ & g' & Hg' & Eg' & Hv).
  assert (g' = g) as -> by (eapply (NoDup_key_inj g_id); [apply Hwf|done|done|congruence]).
  unfold stale in Hst. destruct (g_expires_at g) as [e|] eqn:Ee; [|done]. unfold validate_session in Hv. repeat break_hyp Hv. bool_prop.
  unfold sat_sub64, EXPIRED_GRANT_RETENTION_SECONDS in *. lia.
Qed.
Lemma expire_sessions_accounted now io note_now : accounted (expire_sessions now io note_now) (fun ended => ended).
Proof.
  one_section (ExpireSessions now io note_now); [by apply expire_sessions_triple|].
  intros sv ended sv' HI (_ & HC & [(-> & _)| ->]); [apply accounts_refl|]. eapply accounts_kept; [exact HC|].
  intros s Hs. unfold forget_stale_grants, live_sessions. cbn [fst sessions grants with_sessions]. rewrite !list_elem_of_filter.
  destruct (s_expires_at s <=? now) eqn:Ee; [by right|]. left. split; [|done].
  intros (g & Eg & Hg)%elem_of_map. apply list_elem_of_filter in Hg as [Hst Hg].
  pose proof (stale_sessions_expired sv now s g HI Hs Hg (eq_sym Eg) Hst). congruence.
Qed.
Lemma create_session_refused_state code name now token random pool io t sv : reachable sv ->
  match create_session code name now token random pool io t sv with (sv', Err _) => state sv' = state sv | _ => True end.
Proof.
  intros HR. pose proof (reachable_inv _ HR) as HI. unfold create_session, bind, locked, lift.
  destruct (enrollment _ _ _) as [[[grant secret] cname]|]; [|done].
  unfold note_refusal. pose proof (admit_session_triple sv grant secret cname now token random pool io t HI sv) as HT.
  destruct (admit_session _ _ _ _ _ _ _ _ _ sv) as [sv1 [cs1|e1]]; [done|]. destruct HT as (Est & _); [done|].
  destruct (enrollment_refusal e1) as [event|]; [|done].
  by destruct (note_spec (g_id grant) (activity_enrollment event cname) t sv1) as (log & -> & _).
Qed.
(** The session admitted is one of the state, and those whose lease had ended
    are named. *)
Lemma admission_accounts st grant secret cname now token random st' cs g :
  admission st grant secret cname now token random st' cs g ->
  accounts st st' (cs_expired_allocations cs) /\ holds st' (mkAllocation (cs_id cs) (cs_resource_slot cs)).
Proof.
  intros HA. destruct HA as [_ _ _ _ _ _ _ _ _ _ _ _ _ HE (dp & _ & ->)]. split.
  - eapply accounts_kept; [exact HE|]. intros s Hs. unfold live_sessions. cbn [sessions with_sessions]. rewrite elem_of_app, !list_elem_of_filter.
    destruct (s_expires_at s <=? now); tauto.
  - eexists. split; [apply elem_of_app; right; left|done].
Qed.
Lemma admit_session_accounted grant secret cname now token random pool io t :
  accounted (admit_session grant secret cname now token random pool io t) cs_expired_allocations.
Proof.
  one_section (AdmitSession grant secret cname now token random pool io t); [by apply admit_session_triple|].
  intros sv cs sv' _ (_ & g & HA). by destruct (admission_accounts _ _ _ _ _ _ _ _ _ _ HA).
Qed.
Lemma create_session_accounted code name now token random pool io t :
  accounted (create_session code name now token random pool io t) cs_expired_allocations.
Proof.
  apply accounted_runs; [intros; apply create_session_runs|]. intros sv HR. pose proof (reachable_inv _ HR) as HI.
  destruct (create_session _ _ _ _ _ _ _ _ sv) as [sv' [cs|e]] eqn:EC; cbn [fst snd].
  - destruct (create_session_admission _ _ _ _ _ _ _ _ _ _ _ HI EC) as (_ & ? & ? & ? & ? & _ & _ & _ & _ & HA).
    by destruct (admission_accounts _ _ _ _ _ _ _ _ _ _ HA).
  - pose proof (create_session_refused_state code name now token random pool io t sv HR) as Est. rewrite EC in Est. rewrite Est. apply accounts_refl.
Qed.

(** Authentication, and what runs after it. *)
Lemma authenticate_state token pool now sv : state (authenticate token pool now sv).1 = state sv.
Proof. destruct (authenticate_runs token pool now sv) as [-> | ->]; done. Qed.
Lemma authenticate_accounted token pool now : accounted (authenticate token pool now) none_ended.
Proof.
  apply accounted_runs; intros sv HR.
  - destruct (authenticate_runs token pool now sv) as [-> | ->]; [by exists []|]. exists [RefuseCrypto]. by repeat constructor.
  - rewrite authenticate_state. apply accounts_refl.
Qed.
Lemma note_sign_in_accounted id event protocol now : accounted (note_sign_in id event protocol now) none_ended.
Proof.
  apply accounted_runs; intros sv HR; [destruct (note_sign_in_runs id event protocol now sv) as (ops & HF & ->); by exists ops|].
  unfold note_sign_in, bind, locked.
  destruct (find_session (state sv) id) as [s|]; [|by apply accounts_refl].
  match goal with |- context [note ?x ?a ?y sv] => destruct (note_spec x a y sv) as (log & -> & _) end. apply accounts_refl.
Qed.
Lemma authenticated_accounts {A} token pool now (k : SessionRecord * AccessGrantRecord -> M A) ended sv :
  reachable sv ->
  (forall s g, s ∈ sessions (state sv) -> is_Some (s_resource_slot s) -> accounts (state sv) (state (k (s, g) sv).1) (match (k (s, g) sv).2 with Ok x => ended x | Err _ => [] end)) ->
  accounts (state sv) (state (bind (authenticate token pool now) k sv).1)
    (match (bind (authenticate token pool now) k sv).2 with Ok x => ended x | Err _ => [] end).
Proof.
  intros HR Hk. unfold bind. pose proof (authenticate_state token pool now sv) as Est.
  destruct (authenticate token pool now sv) as [sv' [[s g]|e]] eqn:EA; cbn [fst snd] in *; [|rewrite Est; apply accounts_refl].
  pose proof (authenticated_slot _ _ _ _ _ _ _ (reachable_inv _ HR) EA) as Hs.
  apply authenticate_ok in EA as (-> & parts & _ & El & _). apply lookup_session_ok in El as [Es _].
  apply find_session_some in Es as [Hin _]. by apply Hk.
Qed.
(** A record read earlier ends the session of its id, if that still has the
    record's allocation. *)
Lemma end_commit_accounts s event io t sv : reachable sv ->
  (forall u, u ∈ sessions (state sv) -> s_id u = s_id s -> session_allocation u = session_allocation s) ->
  accounts (state sv) (state (end_commit s event io t sv).1) (match (end_commit s event io t sv).2 with Ok al => [al] | Err _ => [] end).
Proof.
  intros HR Hs. pose proof (end_commit_triple sv s event io t (reachable_inv _ HR) sv (conj eq_refl (conj eq_refl (conj eq_refl eq_refl)))) as HT.
  destruct (end_commit s event io t sv) as [sv' [al|e]]; cbn [fst snd] in *; [|destruct HT as (-> & _); apply accounts_refl].
  destruct HT as (_ & Hal & ->). intros a (u & Hu & Ha). destruct (decide (s_id u = s_id s)) as [E|Hne].
  - right. rewrite (Hs u Hu E), Hal in Ha. injection Ha as ->. left.
  - left. exists u. split; [|done]. by apply list_elem_of_filter.
Qed.
Lemma end_session_accounted token event pool now io t : accounted (end_session token event pool now io t) (fun al => [al]).
Proof.
  apply accounted_runs; [intros; by apply end_session_runs, reachable_inv|]. intros sv HR. apply authenticated_accounts; [done|].
  intros s g Hs _. apply end_commit_accounts; [done|]. intros u Hu E. f_equal.
  eapply (NoDup_key_inj s_id); [apply (core_wf _ (inv_core _ (reachable_inv _ HR)))|done..].
Qed.
(** A lease renewed keeps its session's allocation. *)
Lemma renew_commit_accounted s g now io t : is_Some (s_resource_slot s) -> accounted (renew_commit s g now io t) none_ended.
Proof.
  intros Hs. one_section (RenewSession s g now io t); [by apply renew_commit_triple|].
  intros sv al sv' _ (_ & (ss & Er & ->) & _). apply renew_some in Er as (i & u & Hi & _ & ->).
  intros a (v & Hv & Ha). left. apply list_elem_of_lookup in Hv as [j Hj]. unfold holds. cbn [sessions with_sessions].
  destruct (decide (j = i)) as [->|Hne].
  - assert (u = v) as -> by congruence. exists (set_expires_at v (lease_end g now)). split; [|by rewrite <- Ha].
    eapply list_elem_of_lookup_2, list_lookup_insert_eq. by eapply lookup_lt_Some.
  - exists v. split; [|done]. eapply list_elem_of_lookup_2. by rewrite list_lookup_insert_ne.
Qed.
Lemma renew_session_accounted token pool auth_now now io t : accounted (renew_session token pool auth_now now io t) none_ended.
Proof.
  apply accounted_runs; [intros; by apply renew_session_runs, reachable_inv|]. intros sv HR. apply authenticated_accounts; [done|].
  intros s g _ Hs. by destruct (renew_commit_accounted s g now io t Hs sv HR).
Qed.
Lemma session_accounted token pool now view_now : accounted (session token pool now view_now) none_ended.
Proof.
  apply accounted_runs; intros sv HR.
  - assert (E : (session token pool now view_now sv).1 = (authenticate token pool now sv).1).
    { unfold session, bind, lift. destruct (authenticate token pool now sv) as [sv' [[s g]|e]]; [|done]. by destruct (required_resource_slot s). }
    rewrite E. destruct (authenticate_runs token pool now sv) as [-> | ->]; [by exists []|]. exists [RefuseCrypto]. by repeat constructor.
  - apply authenticated_accounts; [done|]. intros s g _ _. unfold bind, lift. destruct (required_resource_slot s); apply accounts_refl.
Qed.
Lemma authenticate_data_plane_accounted token protocol username now t : accounted (authenticate_data_plane token protocol username now t) none_ended.
Proof.
  apply accounted_runs; [intros; apply authenticate_data_plane_runs|]. intros sv HR.
  unfold authenticate_data_plane, bind, lift, locked. destruct (split_session_token token) as [parts|]; cbn [map_err]; [|apply accounts_refl].
  unfold note_sign_in, bind, locked. destruct (find_session (state sv) (part_id parts)) as [s|].
  - match goal with |- context [note ?x ?a ?y sv] => destruct (note_spec x a y sv) as (log & -> & _) end. cbn [fst snd state].
    match goal with |- accounts _ _ ?l => replace l with ([] : list SessionAllocation) by (unfold none_ended; by case_match) end. apply accounts_refl.
  - cbn [fst snd ret]. match goal with |- accounts _ _ ?l => replace l with ([] : list SessionAllocation) by (unfold none_ended; by case_match) end. apply accounts_refl.
Qed.
Lemma create_grants_accounts request prefix index draws sv : reachable sv ->
  accounts (state sv) (state (create_grants request prefix index draws sv).1) [].
Proof.
  revert index sv. induction draws as [|d draws IH]; intros index sv HR; cbn [create_grants]; [apply accounts_refl|].
  set (req := Build_CreateAccessGrantRequest _ _ _ _ _).
  destruct (create_grant_accounted req (d_now d) (d_code d) (d_salt d) (d_pool d) (d_io d) sv HR) as [HR' HA].
  unfold bind at 1. destruct (create_grant _ _ _ _ _ _ sv) as [sv1 [g|e]]; cbn [fst snd] in *; [|done].
  apply (accounts_trans _ _ _ _ []) with (2 := IH (index + 1) sv1 HR') in HA. unfold bind.
  by destruct (create_grants _ _ _ _ sv1) as [sv2 [gs|e2]].
Qed.
Lemma create_grant_batch_accounted request draws : accounted (create_grant_batch request draws) none_ended.
Proof.
  apply accounted_runs; [intros; apply create_grant_batch_runs|]. intros sv HR.
  match goal with |- accounts _ _ ?l => replace l with ([] : list SessionAllocation) by (unfold none_ended; by case_match) end.
  unfold create_grant_batch. destruct (negb _); [|apply accounts_refl]. unfold bind at 1, lift.
  destruct (validate_text _ _ _); [|apply accounts_refl]. by apply create_grants_accounts.
Qed.
End operations.
