(* ===== verification/FloatBounds.v ===== *)
(** Bounds of rounded single-precision arithmetic: what the server computes of
    its load stays within the range the app accepts. *)

From Stdlib Require Import ZArith Lia SpecFloat.
From stdpp Require Import prelude.
From S2P Require Import Prelude Validation.

(** * Shifting *)

Lemma digits2_log2 p : Z.pos (digits2_pos p) = Z.log2 (Z.pos p) + 1.
Proof.
  induction p as [p IH|p IH|]; cbn [digits2_pos]; [| |done]; rewrite Pos2Z.inj_succ, IH.
  - rewrite Pos2Z.inj_xI, Z.log2_succ_double by lia. lia.
  - rewrite Pos2Z.inj_xO, Z.log2_double by lia. lia.
Qed.
(** [m < 2 ^ Zdigits2 m], and no fewer digits do. *)
Lemma digits_upper m : 0 <= m -> m < 2 ^ Zdigits2 m /\ 0 <= Zdigits2 m.
Proof.
  intros Hm. destruct m as [|p|p]; [done| |lia]. cbn [Zdigits2]. rewrite digits2_log2.
  pose proof (Z.log2_spec (Z.pos p) ltac:(lia)) as [_ Hu]. pose proof (Z.log2_nonneg (Z.pos p)). split; [|lia].
  by replace (Z.log2 (Z.pos p) + 1) with (Z.succ (Z.log2 (Z.pos p))) by lia.
Qed.
Lemma digits_bound m n : 0 <= n -> 0 <= m < 2 ^ n -> Zdigits2 m <= n.
Proof.
  intros Hn Hm. destruct m as [|p|p]; [done| |lia]. cbn [Zdigits2]. rewrite digits2_log2.
  pose proof (Z.log2_lt_pow2 (Z.pos p) n ltac:(lia)) as Hl. lia.
Qed.
Lemma digits_lower m : 0 < m -> 2 ^ (Zdigits2 m - 1) <= m.
Proof.
  intros Hm. destruct m as [|p|p]; [lia| |lia]. cbn [Zdigits2]. rewrite digits2_log2.
  pose proof (Z.log2_spec (Z.pos p) ltac:(lia)) as [Hl _]. by replace (Z.log2 (Z.pos p) + 1 - 1) with (Z.log2 (Z.pos p)) by lia.
Qed.

Lemma digits_24 m : 2 ^ 23 <= m < 2 ^ 24 -> Zdigits2 m = 24.
Proof.
  intros Hm. apply Z.le_antisymm; [by apply digits_bound; lia|]. destruct (digits_upper m ltac:(lia)) as [Hu _].
  destruct (Z.lt_ge_cases (Zdigits2 m) 24) as [Hlt|]; [|done]. pose proof (Z.pow_le_mono_r 2 (Zdigits2 m) 23 ltac:(lia) ltac:(lia)). lia.
Qed.

Definition exact_record (r : shr_record) : Prop := shr_r r = false /\ shr_s r = false.
Lemma shr_1_spec r : 0 <= shr_m r -> shr_m (shr_1 r) = shr_m r / 2 /\ (exact_record r -> shr_m r mod 2 = 0 -> exact_record (shr_1 r)).
Proof.
  destruct r as [m r s]. unfold exact_record. cbn [shr_m shr_r shr_s]. intros Hm. destruct m as [|[p|p|]|p]; cbn; [split; [done|]; by intros [-> ->]| | | |lia].
  - rewrite Pos2Z.inj_xI. split; [apply (Z.div_unique _ 2 _ 1); lia|]. intros _. rewrite Z.add_comm, Z.mul_comm, Z.mod_add by lia. done.
  - split; [rewrite Pos2Z.inj_xO, Z.mul_comm, Z.div_mul by lia; done|]. by intros [-> ->].
  - split; [done|]. intros _ E. done.
Qed.
Lemma iter_pos_nat {A} (f : A -> A) p x : SpecFloat.iter_pos f p x = Nat.iter (Pos.to_nat p) f x.
Proof.
  revert x; induction p as [p IH|p IH|]; intros x; cbn [SpecFloat.iter_pos]; [| |done]; rewrite !IH, <- Nat.iter_add.
  - rewrite Pos2Nat.inj_xI, <- (Nat.iter_succ_r (Pos.to_nat p + Pos.to_nat p) f). f_equal. lia.
  - rewrite Pos2Nat.inj_xO. f_equal. lia.
Qed.
Lemma shr_iter n r : 0 <= shr_m r ->
  shr_m (Nat.iter n shr_1 r) = shr_m r / 2 ^ Z.of_nat n /\ (exact_record r -> shr_m r mod 2 ^ Z.of_nat n = 0 -> exact_record (Nat.iter n shr_1 r)).
Proof.
  intros Hm. induction n as [|n [IH1 IH2]]; [by rewrite Z.div_1_r|]. rewrite Nat.iter_succ. set (r' := Nat.iter n shr_1 r) in *.
  assert (Hp : 0 < 2 ^ Z.of_nat n) by (apply Z.pow_pos_nonneg; lia).
  assert (Hr : 0 <= shr_m r') by (rewrite IH1; by apply Z.div_pos).
  destruct (shr_1_spec r' Hr) as [H1 H2]. rewrite Nat2Z.inj_succ, Z.pow_succ_r, (Z.mul_comm 2) by lia. split.
  - rewrite H1, IH1, Z.div_div by lia. done.
  - intros He Hmod. rewrite Z.rem_mul_r in Hmod by lia.
    pose proof (Z.mod_pos_bound (shr_m r) (2 ^ Z.of_nat n) Hp). pose proof (Z.mod_pos_bound (shr_m r / 2 ^ Z.of_nat n) 2 ltac:(lia)).
    apply H2; [apply IH2; [done|nia]|]. rewrite IH1. nia.
Qed.

(** * Rounding to single precision *)

Notation fexp32 := (fexp 24 128).
Definition shift_of (m e : Z) : Z := Z.max 0 (fexp32 (Zdigits2 m + e) - e).
Lemma shr_fexp_spec m e l : 0 <= m ->
  exists r, shr_fexp 24 128 m e l = (r, e + shift_of m e) /\ shr_m r = m / 2 ^ shift_of m e /\
    (l = loc_Exact -> m mod 2 ^ shift_of m e = 0 -> loc_of_shr_record r = loc_Exact).
Proof.
  intros Hm. unfold shr_fexp, shift_of. set (n := fexp32 _ - e). set (r0 := shr_record_of_loc m l).
  assert (E0 : shr_m r0 = m /\ (l = loc_Exact -> exact_record r0)) by (unfold r0; destruct l as [|[]]; done). destruct E0 as [E0 HE].
  assert (HX : forall r, exact_record r -> loc_of_shr_record r = loc_Exact) by (intros [? [|] [|]] [? ?]; done).
  destruct n as [|p|p]; cbn [shr Z.max Z.compare].
  - exists r0. rewrite Z.add_0_r, Z.pow_0_r, Z.div_1_r. auto.
  - rewrite iter_pos_nat. destruct (shr_iter (Pos.to_nat p) r0) as [E1 E2]; [by rewrite E0|]. rewrite positive_nat_Z, E0 in *. eexists. split; [done|]. auto.
  - exists r0. rewrite Z.add_0_r, Z.pow_0_r, Z.div_1_r. auto.
Qed.
Lemma round_spec m l : m <= round_nearest_even m l <= m + 1 /\ (l = loc_Exact -> round_nearest_even m l = m).
Proof. destruct l as [|[]]; cbn; try destruct (Z.even m); split; (done || lia). Qed.

(** A single no larger than [mb * 2 ^ eb], as [SFleb] compares. *)
Definition at_most (mb eb : Z) (x : spec_float) : Prop :=
  match x with
  | S754_zero false => True
  | S754_finite false m e => Z.pos m < 2 ^ 24 /\ (e < eb \/ e = eb /\ Z.pos m <= mb)
  | _ => False
  end.
Lemma at_most_range mb eb x : at_most (Z.pos mb) eb x -> in_range (S754_zero false) (S754_finite false mb eb) x = true.
Proof.
  destruct x as [[|]|[|]| |[|] m e]; try done. intros (_ & [He|[-> Hm]]); unfold in_range, SFleb; cbn.
  - by rewrite (proj2 (Z.compare_lt_iff _ _)).
  - rewrite Z.compare_refl. change (Pos.compare_cont Eq m mb) with (Pos.compare m mb). destruct (Pos.compare_spec m mb); [done|done|lia].
Qed.

(** Rounding does not pass a number of the format: with [m] the digits of a
    value that is at most [mb * 2 ^ eb]. *)
Lemma round_at_most m e l mb eb :
  0 <= m -> e <= eb -> -149 <= eb <= 104 -> 2 ^ 23 <= mb < 2 ^ 24 ->
  m <= mb * 2 ^ (eb - e) -> (l <> loc_Exact -> m < mb * 2 ^ (eb - e)) -> at_most mb eb (binary_round_aux 24 128 false m e l).
Proof.
  intros Hm He Hb Hmb Hle Hlt. unfold binary_round_aux.
  destruct (shr_fexp_spec m e l Hm) as (r & -> & Er & Hr). set (n := shift_of m e) in *.
  destruct (round_spec (shr_m r) (loc_of_shr_record r)) as [HR HX]. set (m1 := round_nearest_even _ _) in *.
  assert (Hn : 0 <= n) by (unfold n, shift_of; lia).
  assert (Hpn : 0 < 2 ^ n) by (apply Z.pow_pos_nonneg; lia). assert (Hpb : 0 < 2 ^ (eb - e)) by (apply Z.pow_pos_nonneg; lia).
  destruct (digits_upper m Hm) as [Hd Hd0].
  assert (Hdm : Zdigits2 m <= 24 + (eb - e)).
  { apply digits_bound; [lia|]. rewrite Z.pow_add_r by lia. nia. }
  assert (Hn1 : e + n <= eb) by (unfold n, shift_of, fexp, emin; lia).
  assert (Hq0 : 0 <= m / 2 ^ n) by (apply Z.div_pos; lia).
  assert (Hq : m / 2 ^ n < 2 ^ 24).
  { apply Z.div_lt_upper_bound; [lia|]. eapply Z.lt_le_trans; [exact Hd|]. rewrite <- Z.pow_add_r by lia.
    apply Z.pow_le_mono_r; [lia|]. unfold n, shift_of, fexp, emin. lia. }
  assert (Hm1 : 0 <= m1 <= 2 ^ 24) by lia.
  assert (Hcase : e + n < eb \/ e + n = eb /\ m1 <= mb).
  { destruct (Z.lt_ge_cases (e + n) eb) as [|Hge]; [by left|right]. split; [lia|]. replace (eb - e) with n in * by lia.
    pose proof (Z.div_mod m (2 ^ n) ltac:(lia)) as Hdm'. pose proof (Z.mod_pos_bound m (2 ^ n) Hpn).
    destruct (Z.lt_ge_cases (m / 2 ^ n) mb) as [|Hge']; [lia|].
    assert (m / 2 ^ n = mb /\ m mod 2 ^ n = 0) as [E1 E2] by nia.
    assert (El : l = loc_Exact) by (destruct l; [done|]; specialize (Hlt ltac:(done)); nia).
    rewrite HX by (by apply Hr). lia. }
  destruct (shr_fexp_spec m1 (e + n) loc_Exact ltac:(lia)) as (r2 & -> & Er2 & _).
  assert (Hem : -149 <= e + n) by (unfold n, shift_of, fexp, emin; lia).
  destruct (Z.eq_dec m1 (2 ^ 24)) as [Et|Hne].
  - assert (Es : shift_of m1 (e + n) = 1) by (rewrite Et; unfold shift_of, fexp, emin; cbn [Zdigits2]; change (Zdigits2 (2 ^ 24)) with 25; lia).
    rewrite Er2, Es, Et. change (2 ^ 24 / 2 ^ 1) with (Z.pos 8388608). destruct Hcase as [Hc|[_ Hc]]; [|lia].
    rewrite (proj2 (Z.leb_le _ _)) by lia. cbn. lia.
  - assert (Es : shift_of m1 (e + n) = 0).
    { pose proof (digits_bound m1 24 ltac:(lia) ltac:(lia)). unfold shift_of, fexp, emin. lia. }
    rewrite Er2, Es, Z.pow_0_r, Z.div_1_r, Z.add_0_r. destruct m1 as [|p|p]; [done| |lia].
    rewrite (proj2 (Z.leb_le _ _)) by lia. cbn. lia.
Qed.

(** * A share of a whole *)

Lemma iter_xO p k : Z.pos (Pos.iter xO p k) = Z.pos p * 2 ^ Z.pos k.
Proof.
  induction k as [|k IH] using Pos.peano_ind; [cbn; lia|].
  rewrite Pos.iter_succ, Pos2Z.inj_xO, IH, Pos2Z.inj_succ, Z.pow_succ_r by lia. lia.
Qed.
(** A whole number below [2 ^ 24] is a single. *)
Lemma small_single n : 1 <= n < 2 ^ 24 ->
  exists m e, f32 n = S754_finite false m e /\ -23 <= e <= 0 /\ Z.pos m = n * 2 ^ (- e) /\ 2 ^ 23 <= Z.pos m < 2 ^ 24.
Proof.
  intros Hn. destruct n as [|p|p]; [lia| |lia]. unfold f32. cbn [binary_normalize]. unfold binary_round.
  pose proof (digits_lower (Z.pos p) ltac:(lia)) as Hl. destruct (digits_upper (Z.pos p) ltac:(lia)) as [Hu Hd0].
  pose proof (digits_bound (Z.pos p) 24 ltac:(lia) ltac:(lia)) as Hd. change (Z.pos (digits2_pos p)) with (Zdigits2 (Z.pos p)).
  set (d := Zdigits2 (Z.pos p)) in *. assert (Hd1 : 1 <= d).
  { destruct (Z.lt_ge_cases d 1); [|done]. assert (d = 0) by lia. replace d with 0 in Hu by done. cbn in Hu. lia. }
  assert (Ef : fexp32 (d + 0) = d - 24) by (unfold fexp, emin; lia). rewrite Ef.
  assert (Hsh : exists m, shl_align p 0 (d - 24) = (m, d - 24) /\ Z.pos m = Z.pos p * 2 ^ (24 - d)).
  { unfold shl_align. rewrite Z.sub_0_r. destruct (d - 24) as [|q|q] eqn:Eq; [|lia|].
    - exists p. replace (24 - d) with 0 by lia. rewrite Z.pow_0_r. split; [done|lia].
    - eexists. split; [done|]. rewrite iter_xO. do 2 f_equal. lia. }
  destruct Hsh as (m & -> & Em). assert (Hm : 2 ^ 23 <= Z.pos m < 2 ^ 24).
  { rewrite Em. assert (0 < 2 ^ (24 - d)) by (apply Z.pow_pos_nonneg; lia). split.
    - replace 23 with ((d - 1) + (24 - d)) at 1 by lia. rewrite Z.pow_add_r by lia. nia.
    - replace 24 with (d + (24 - d)) at 2 by lia. rewrite Z.pow_add_r by lia. nia. }
  exists m, (d - 24). split_and!; [|lia|lia| |lia|lia]; [|rewrite Em; do 2 f_equal; lia].
  pose proof (digits_24 (Z.pos m) Hm) as Hdm.
  assert (Es : shift_of (Z.pos m) (d - 24) = 0) by (unfold shift_of, fexp, emin; rewrite Hdm; lia).
  unfold binary_round_aux. destruct (shr_fexp_spec (Z.pos m) (d - 24) loc_Exact ltac:(lia)) as (r & -> & Er & Hr).
  rewrite Es, Z.pow_0_r, Z.div_1_r, Z.add_0_r in *. rewrite Hr by (done || apply Z.mod_1_r). cbn [round_nearest_even]. rewrite Er.
  destruct (shr_fexp_spec (Z.pos m) (d - 24) loc_Exact ltac:(lia)) as (r2 & -> & Er2 & _).
  rewrite Es, Z.pow_0_r, Z.div_1_r, Z.add_0_r in *. rewrite Er2. by rewrite (proj2 (Z.leb_le _ _)) by lia.
Qed.
Lemma new_location_exact b r : new_location b r <> loc_Exact -> r <> 0.
Proof. unfold new_location, new_location_even, new_location_odd. destruct (Z.even b), (Z.eqb_spec r 0); done. Qed.

(** A part divided by its whole is at most one. *)
Lemma div_at_most_one a b : 1 <= a <= b -> b < 2 ^ 24 -> at_most (2 ^ 23) (-23) (SFdiv 24 128 (f32 a) (f32 b)).
Proof.
  intros Hab Hb. destruct (small_single a ltac:(lia)) as (ma & ea & -> & Hea & Ema & Hma).
  destruct (small_single b ltac:(lia)) as (mb & eb & -> & Heb & Emb & Hmb). cbn [SFdiv xorb].
  unfold SFdiv_core_binary.
  assert (Hord : ea < eb \/ ea = eb /\ Z.pos ma <= Z.pos mb).
  { destruct (Z.lt_trichotomy ea eb) as [|[E|Hgt]]; [by left| |].
    - right. split; [done|]. rewrite Ema, Emb, E. apply Z.mul_le_mono_nonneg_r; [apply Z.pow_nonneg; lia|lia].
    - exfalso. assert (Hp : 0 < 2 ^ (- ea)) by (apply Z.pow_pos_nonneg; lia).
      assert (2 ^ (- eb) = 2 ^ (- ea) * 2 ^ (ea - eb)) as E by (rewrite <- Z.pow_add_r by lia; f_equal; lia).
      assert (2 <= 2 ^ (ea - eb)) by (replace (ea - eb) with (1 + (ea - eb - 1)) by lia; rewrite Z.pow_add_r by lia;
        pose proof (Z.pow_pos_nonneg 2 (ea - eb - 1) ltac:(lia) ltac:(lia)); lia).
      assert (Z.pos mb >= Z.pos ma * 2) by (rewrite Emb, Ema, E; nia). lia. }
  rewrite !digits_24 by lia. assert (He : -23 <= ea - eb <= 0) by lia.
  replace (Z.min (fexp32 (24 + ea - (24 + eb))) (ea - eb)) with (ea - eb - 24) by (unfold fexp, emin; lia).
  replace (ea - eb - (ea - eb - 24)) with 24 by lia. rewrite Z.shiftl_mul_pow2 by lia.
  pose proof (Z_div_mod (Z.pos ma * 2 ^ 24) (Z.pos mb) ltac:(lia)) as Hdiv.
  destruct (Z.div_eucl _ _) as [q r]. destruct Hdiv as [Eq Hr].
  assert (Hw : Z.pos ma * 2 ^ 24 <= Z.pos mb * 2 ^ (24 + (eb - ea))).
  { rewrite Z.pow_add_r by lia. destruct Hord as [Hlt|[E Hle]].
    - assert (2 <= 2 ^ (eb - ea)) by (replace (eb - ea) with (1 + (eb - ea - 1)) by lia; rewrite Z.pow_add_r by lia;
        pose proof (Z.pow_pos_nonneg 2 (eb - ea - 1) ltac:(lia) ltac:(lia)); lia). nia.
    - replace (eb - ea) with 0 by lia. lia. }
  assert (Ew : 2 ^ 23 * 2 ^ (-23 - (ea - eb - 24)) = 2 ^ (24 + (eb - ea))) by (rewrite <- Z.pow_add_r by lia; f_equal; lia).
  assert (Hq : 0 <= q) by (destruct (Z.lt_ge_cases q 0); [|done]; exfalso; assert (Z.pos mb * q <= Z.pos mb * -1) by (apply Z.mul_le_mono_nonneg_l; lia); lia).
  apply round_at_most; rewrite ?Ew; try lia.
  - apply (Z.mul_le_mono_pos_l _ _ (Z.pos mb)); lia.
  - intros Hx%new_location_exact. apply (Z.mul_lt_mono_pos_l (Z.pos mb)); lia.
Qed.
(** In percent, it is at most a hundred. *)
Lemma percent_at_most x : at_most (2 ^ 23) (-23) x -> at_most 13107200 (-17) (SFmul 24 128 x (f32 100)).
Proof.
  change (f32 100) with (S754_finite false 13107200 (-17)). destruct x as [[|]|[|]| |[|] m e]; try done. cbn [SFmul xorb].
  intros (Hm & He). assert (HM : Z.pos m <= 2 ^ (- e)).
  { destruct He as [He|[-> Hm']]; [|done]. pose proof (Z.pow_le_mono_r 2 24 (- e) ltac:(lia) ltac:(lia)). lia. }
  assert (Ee : 2 ^ (-17 - (e + -17)) = 2 ^ (- e)) by (f_equal; lia).
  rewrite Pos2Z.inj_mul. apply round_at_most; rewrite ?Ee; (lia || done || nia).
Qed.
Lemma share_in_range a b : 0 <= a <= b -> 1 <= b < 2 ^ 24 ->
  in_range (f32 0) (f32 100) (SFmul 24 128 (SFdiv 24 128 (f32 a) (f32 b)) (f32 100)) = true.
Proof.
  intros Ha Hb. change (f32 0) with (S754_zero false). change (f32 100) with (S754_finite false 13107200 (-17)) at 1.
  apply (at_most_range 13107200), percent_at_most. destruct (Z.eq_dec a 0) as [->|].
  - destruct (small_single b ltac:(lia)) as (m & e & -> & _). done.
  - apply div_at_most_one; lia.
Qed.

(** * A load, clamped *)

(** Neither negative nor a NaN. *)
Definition nonnegative (x : spec_float) : Prop :=
  match x with S754_zero s | S754_infinity s | S754_finite s _ _ => s = false | S754_nan => False end.
Lemma round_nonnegative m e l : 0 <= m -> nonnegative (binary_round_aux 24 128 false m e l).
Proof.
  intros Hm. unfold binary_round_aux. destruct (shr_fexp_spec m e l Hm) as (r & -> & Er & _).
  assert (Hp : forall a b, 0 < 2 ^ shift_of a b) by (intros a b; apply Z.pow_pos_nonneg; [lia|unfold shift_of; lia]).
  assert (0 <= shr_m r) by (rewrite Er; apply Z.div_pos; auto).
  destruct (round_spec (shr_m r) (loc_of_shr_record r)) as [HR _]. set (m1 := round_nearest_even _ _) in *.
  destruct (shr_fexp_spec m1 (e + shift_of m e) loc_Exact ltac:(lia)) as (r2 & -> & Er2 & _).
  assert (0 <= shr_m r2) by (rewrite Er2; apply Z.div_pos; [lia|auto]).
  destruct (shr_m r2); [done| |lia]. by destruct (_ <=? _).
Qed.
Lemma load_nonnegative x n : is_finite x = true -> nonnegative x -> 1 <= n < 2 ^ 24 -> nonnegative (SFmul 24 128 (SFdiv 24 128 x (f32 n)) (f32 100)).
Proof.
  intros Hf Hx Hn. destruct (small_single n Hn) as (m & e & -> & _). change (f32 100) with (S754_finite false 13107200 (-17)).
  assert (HM : forall y, nonnegative y -> nonnegative (SFmul 24 128 y (S754_finite false 13107200 (-17)))).
  { intros [s|s| |s my ey]; cbn [nonnegative]; try done; [by intros ->|by intros ->|]. intros ->. cbn [SFmul xorb]. apply round_nonnegative. lia. }
  apply HM. destruct x as [s|s| |s mx ex]; try done; cbn in Hx; subst s; [done|]. cbn [SFdiv xorb]. unfold SFdiv_core_binary.
  match goal with |- context [Z.div_eucl ?a ?b] => assert (Ha : 0 <= a); [|pose proof (Z_div_mod a b ltac:(lia)) as Hd; destruct (Z.div_eucl a b) as [q r]] end.
  { match goal with |- context [match ?k with Z0 => _ | Z.pos _ => _ | Z.neg _ => _ end] => destruct k end; [lia|by apply Z.shiftl_nonneg|lia]. }
  destruct Hd as [Eq Hr]. apply round_nonnegative.
  destruct (Z.lt_ge_cases q 0); [|done]. exfalso. assert (Z.pos m * q <= Z.pos m * -1) by (apply Z.mul_le_mono_nonneg_l; lia). lia.
Qed.
