(* ===== verification/StdText.v ===== *)
(** Standard-library text functions of the server's settings and telemetry:
    [FromStr] of integers, booleans, floats and socket addresses, [lines],
    [split_whitespace], [find] and [rsplit_once].

    Model of crates/ket-server/src/system.rs: the host's load, memory and
    uptime as the server reads them from the kernel's text files. *)

From Stdlib Require Import ZArith Lia SpecFloat.
From stdpp Require Import strings.
From S2P Require Import Prelude Utf8 Str Net Grant Validation.

(** * Numbers *)

(** [parse::<u16>] and the like: a sign [+] is allowed before the digits. *)
Definition parse_uint (max : Z) (s : list byte) : option Z :=
  match s with
  | b :: s' => if bool_decide (b = z2b 43) then parse_unsigned max s' else parse_unsigned max s
  | [] => None
  end.

Definition parse_bool (s : list byte) : option bool :=
  if bool_decide (s = str "true") then Some true else if bool_decide (s = str "false") then Some false else None.

(** [core::num::dec2flt]: the sign, the digits before and after the point and
    the exponent of a decimal number. *)
Fixpoint take_digits (s : list byte) : list byte * list byte :=
  match s with
  | b :: s' => if is_ascii_digit b then let '(ds, rest) := take_digits s' in (b :: ds, rest) else ([], s)
  | [] => ([], [])
  end.
Definition take_sign (s : list byte) : bool * list byte :=
  match s with
  | b :: s' => if bool_decide (b = z2b 45) then (true, s') else if bool_decide (b = z2b 43) then (false, s') else (false, s)
  | [] => (false, [])
  end.
Definition parse_scientific (s : list byte) : option Z :=
  match s with
  | [] => Some 0
  | b :: s =>
    if bool_decide (b ∈ str "eE") then
      let '(negative, s) := take_sign s in
      match take_digits s with
      | ([], _) => None
      | (ds, []) => Some (if negative then - parse_digits ds else parse_digits ds)
      | (_, _ :: _) => None
      end
    else None
  end.
(** The significand and the decimal exponent. *)
Definition parse_number (s : list byte) : option (Z * Z) :=
  let '(whole, s) := take_digits s in
  let '(fraction, s) := match s with
                        | b :: s' => if bool_decide (b = z2b 46) then take_digits s' else ([], s)
                        | [] => ([], [])
                        end in
  if bool_decide (whole ++ fraction = []) then None
  else match parse_scientific s with
       | Some e => Some (parse_digits (whole ++ fraction), e - zlen fraction)
       | None => None
       end.
Definition parse_inf_nan (negative : bool) (s : list byte) : option spec_float :=
  if eq_ignore_ascii_case s (str "nan") then Some S754_nan
  else if eq_ignore_ascii_case s (str "inf") || eq_ignore_ascii_case s (str "infinity") then Some (S754_infinity negative)
  else None.

Section floats.
Context (prec emax : Z).
(** [m * 10 ^ e], rounded once to the nearest float, ties to even. *)
Definition decimal (negative : bool) (m e : Z) : spec_float :=
  match m with
  | Z.pos p =>
    if 0 <=? e then binary_normalize prec emax ((if negative then -1 else 1) * m * 10 ^ e) 0 negative
    else SFdiv prec emax (S754_finite negative p 0) (S754_finite false (Z.to_pos (10 ^ (- e))) 0)
  | _ => S754_zero negative
  end.
Definition parse_float (s : list byte) : option spec_float :=
  let '(negative, s) := take_sign s in
  match parse_number s with
  | Some (m, e) => Some (decimal negative m e)
  | None => parse_inf_nan negative s
  end.
End floats.
Definition parse_f64 : list byte -> option spec_float := parse_float 53 1024.
Definition parse_f32 : list byte -> option spec_float := parse_float 24 128.

Definition is_sign_negative (x : spec_float) : bool :=
  match x with S754_zero s | S754_infinity s | S754_finite s _ _ => s | S754_nan => false end.

(** [parse::<SocketAddr>()]: an address, its port, and an IPv6 scope. *)
Definition read_port : parser Z := fun s =>
  match read_given_char colon s with Some (_, s) => read_number 10 (zlen s) u16_max true s | None => None end.
Definition read_scope : parser Z := fun s =>
  match read_given_char (z2b 37) s with Some (_, s) => read_number 10 (zlen s) u32_max true s | None => None end.
Definition read_socket_v4 : parser SocketAddr := fun s =>
  match read_ipv4_addr s with
  | Some (ip, s) => match read_port s with Some (port, s) => Some (mkSocket (V4 ip) port, s) | None => None end
  | None => None
  end.
Definition read_socket_v6 : parser (SocketAddr * Z) := fun s =>
  match read_given_char (z2b 91) s with
  | None => None
  | Some (_, s) =>
    match read_ipv6_addr s with
    | None => None
    | Some (ip, s) =>
      let '(scope, s) := match read_scope s with Some (scope, s) => (scope, s) | None => (0, s) end in
      match read_given_char (z2b 93) s with
      | None => None
      | Some (_, s) => match read_port s with Some (port, s) => Some ((mkSocket (V6 ip) port, scope), s) | None => None end
      end
    end
  end.
(** The address and its scope. *)
Definition parse_socket_addr (s : list byte) : option (SocketAddr * Z) :=
  match parse_with read_socket_v4 s with
  | Some a => Some (a, 0)
  | None => parse_with read_socket_v6 s
  end.

(** * Text *)

Definition newline : byte := z2b 10.

(** [lines]: a line ends at a newline, which it loses with the carriage return
    before it; text after the last newline is a line of its own. *)
Definition strip_cr (line : list byte) : list byte := default line (strip_suffix line [z2b 13]).
Fixpoint end_lines (pieces : list (list byte)) : list (list byte) :=
  match pieces with
  | [] => []
  | [last] => if bool_decide (last = []) then [] else [last]
  | piece :: pieces => strip_cr piece :: end_lines pieces
  end.
Definition lines (s : list byte) : list (list byte) := end_lines (split_on newline s).

(** [split_whitespace]: the runs of characters between white space. *)
Fixpoint words (cs : list Z) (word : list Z) : list (list Z) :=
  match cs with
  | [] => [rev word]
  | c :: cs => if is_whitespace c then rev word :: words cs [] else words cs (c :: word)
  end.
Definition split_whitespace (s : list byte) : list (list byte) :=
  map encode_chars (filter (fun w => w <> []) (words (default [] (chars s)) [])).

(** [trim_start]. *)
Definition str_trim_start (s : list byte) : list byte := encode_chars (trim_start (default [] (chars s))).

(** [find]: where the pattern first starts. *)
Fixpoint find (pattern s : list byte) : option nat :=
  if bool_decide (take (length pattern) s = pattern) then Some 0%nat
  else match s with [] => None | _ :: s => S <$> find pattern s end.
Definition starts_with_str (pattern s : list byte) : bool := bool_decide (take (length pattern) s = pattern).

(** [rsplit_once]: around the last separator. *)
Fixpoint rsplit_once (sep : byte) (s : list byte) : option (list byte * list byte) :=
  match s with
  | [] => None
  | b :: s =>
    match rsplit_once sep s with
    | Some (before, after) => Some (b :: before, after)
    | None => if bool_decide (b = sep) then Some ([], s) else None
    end
  end.

Lemma rsplit_once_spec sep s a b : rsplit_once sep s = Some (a, b) <-> s = a ++ sep :: b /\ sep ∉ b.
Proof.
  revert a b; induction s as [|c s IH]; intros a b; cbn [rsplit_once]; [split; [done|intros [E _]; by destruct a]|].
  destruct (rsplit_once sep s) as [[a' b']|] eqn:Er.
  - pose proof (proj1 (IH a' b') eq_refl) as [-> Hn]. split; [intros [= <- <-]; by split|].
    intros [E Hb]. destruct a as [|x a]; [injection E as _ <-; set_solver|]. injection E as <- E.
    assert (Ex : Some (a', b') = Some (a, b)) by (apply IH; by rewrite E). by injection Ex as -> ->.
  - assert (Hs : sep ∉ s).
    { intros Hin. destruct (list_elem_of_split_r s sep Hin) as (l & k & Hl & Hk).
      by discriminate (proj2 (IH l k) (conj Hl Hk)). }
    case_bool_decide as Hc.
    + subst c. split; [intros [= <- <-]; by split|]. intros [E Hb]. destruct a as [|x a]; [by injection E as ->|].
      injection E as <- ->. set_solver.
    + split; [done|]. intros [E Hb]. destruct a as [|x a]; [by injection E as ->|]. injection E as <- ->. set_solver.
Qed.

(** The longest run of digits and what follows it. *)
Lemma take_digits_app s : let '(ds, rest) := take_digits s in s = ds ++ rest /\ forallb is_ascii_digit ds = true.
Proof.
  induction s as [|b s IH]; cbn [take_digits]; [done|]. destruct (is_ascii_digit b) eqn:Eb; [|done].
  destruct (take_digits s) as [ds rest]. destruct IH as [-> Hd]. cbn [app forallb]. by rewrite Eb, Hd.
Qed.

Lemma parse_uint_bound max s n : parse_uint max s = Some n -> 0 <= n <= max.
Proof.
  assert (HU : forall t m, parse_unsigned max t = Some m -> 0 <= m <= max).
  { intros t m Hm. unfold parse_unsigned in Hm. break_in Hm. injection Hm as <-. bool_prop.
    match goal with Hf : forallb _ _ = true |- _ => pose proof (parse_digits_bound t Hf) end. lia. }
  unfold parse_uint. destruct s as [|b s]; [done|]. case_bool_decide; apply HU.
Qed.

Example parse_f64_tenth : parse_f64 (str "0.1") = Some (S754_finite false 7205759403792794 (-56)).
Proof. vm_compute. reflexivity. Qed.
Example parse_f64_signed : parse_f64 (str "-12.5e1") = Some (binary_normalize 53 1024 (-125) 0 true).
Proof. vm_compute. reflexivity. Qed.
Example parse_socket_any : parse_socket_addr (str "0.0.0.0:8787") = Some (mkSocket (V4 0) 8787, 0).
Proof. vm_compute. reflexivity. Qed.
Example parse_socket_six : parse_socket_addr (str "[::1%3]:80") = Some (mkSocket (V6 1) 80, 3).
Proof. vm_compute. reflexivity. Qed.
Example split_meminfo : split_whitespace (str " MemTotal:   16 kB") = [str "MemTotal:"; str "16"; str "kB"].
Proof. vm_compute. reflexivity. Qed.

Record SystemSnapshot := mkSnapshot {
  snap_cpu_load_percent : option spec_float; snap_memory_used_bytes : option Z; snap_memory_total_bytes : option Z;
  snap_uptime_seconds : option Z;
}.

(** [clamp] and [as u64] of a float. *)
Definition clamp (low high x : spec_float) : spec_float := if SFltb x low then low else if SFltb high x then high else x.
Definition trunc_u64 (x : spec_float) : Z :=
  match x with
  | S754_finite false m e => Z.min (if 0 <=? e then Z.pos m * 2 ^ e else Z.pos m / 2 ^ (- e)) u64_max
  | S754_infinity false => u64_max
  | _ => 0
  end.

Definition parse_cpu_load_percent (content : list byte) (processors : Z) : option spec_float :=
  if processors =? 0 then None
  else match head (split_whitespace content) with
  | None => None
  | Some field =>
    match parse_f32 field with
    | None => None
    | Some load_average =>
      if negb (is_finite load_average) || is_sign_negative load_average then None
      else Some (clamp (f32 0) (f32 100) (SFmul 24 128 (SFdiv 24 128 load_average (f32 processors)) (f32 100)))
    end
  end.

(** The loop of [parse_memory]; a repeated field is read again. *)
Definition memory_line (acc : option Z * option Z) (line : list byte) : option Z * option Z :=
  let '(total, available) := acc in
  let number fields := match fields with value :: _ => parse_uint u64_max value | [] => None end in
  match split_whitespace line with
  | [] => acc
  | key :: fields =>
    if bool_decide (key = str "MemTotal:") then (number fields, available)
    else if bool_decide (key = str "MemAvailable:") then (total, number fields)
    else acc
  end.
Definition parse_memory (content : list byte) : option (Z * Z) :=
  match fold_left memory_line (lines content) (None, None) with
  | (Some total_kib, Some available_kib) =>
    let total := sat_mul64 total_kib 1024 in
    let available := sat_mul64 available_kib 1024 in
    Some (sat_sub64 total available, total)
  | _ => None
  end.
Definition parse_uptime_seconds (content : list byte) : option Z :=
  match head (split_whitespace content) with
  | None => None
  | Some field =>
    match parse_f64 field with
    | None => None
    | Some value =>
      if negb (is_finite value) || is_sign_negative value || SFltb (f64 u64_max) value then None else Some (trunc_u64 value)
    end
  end.

(** [snapshot], of what the files hold; [None] is a file that cannot be read. *)
Definition snapshot (loadavg : option (list byte)) (processors : option Z) (meminfo uptime : option (list byte)) : SystemSnapshot :=
  let memory := meminfo ≫= parse_memory in
  mkSnapshot (match loadavg, processors with Some content, Some n => parse_cpu_load_percent content n | _, _ => None end)
    (fst <$> memory) (snd <$> memory) (uptime ≫= parse_uptime_seconds).

Example snapshot_demo :
  snapshot (Some (str "0.50 0.40 0.30 1/200 1234")) (Some 2) (Some (str "MemTotal: 1000 kB" ++ [newline] ++ str "MemAvailable: 400 kB"))
    (Some (str "12.75 3.00"))
  = mkSnapshot (Some (f32 25)) (Some 614400) (Some 1024000) (Some 12).
Proof. vm_compute. reflexivity. Qed.

(** Used memory never exceeds the total. *)
Lemma parse_memory_bound content used total : parse_memory content = Some (used, total) -> 0 <= used <= total /\ total <= u64_max.
Proof.
  unfold parse_memory. destruct (fold_left _ _ _) as [[t|] [a|]] eqn:E; [|done..]. intros [= <- <-].
  assert (HM : forall ls acc, (forall n, acc.1 = Some n -> 0 <= n) /\ (forall n, acc.2 = Some n -> 0 <= n) ->
    let r := fold_left memory_line ls acc in (forall n, r.1 = Some n -> 0 <= n) /\ (forall n, r.2 = Some n -> 0 <= n)).
  { induction ls as [|l ls IH]; intros [x y] Hacc; [done|]. cbn [fold_left]. apply IH. unfold memory_line.
    destruct (split_whitespace l) as [|key fields]; [done|].
    assert (HN : forall n, match fields with value :: _ => parse_uint u64_max value | [] => None end = Some n -> 0 <= n).
    { intros n. destruct fields as [|v fields]; [done|]. intros Hn%parse_uint_bound. lia. }
    destruct Hacc. repeat case_bool_decide; by split. }
  pose proof (HM (lines content) (None, None) ltac:(by split)) as [Ht Ha]. rewrite E in Ht, Ha.
  specialize (Ht t eq_refl). specialize (Ha a eq_refl). unfold sat_sub64, sat_mul64, u64_max in *. lia.
Qed.
