(* ===== verification/Config.v ===== *)
(** Model of crates/ket-server/src/config.rs and updates.rs: the server's
    settings as it reads them from its environment, the transports it
    advertises, and the port or address of each resource slot. *)

From Stdlib Require Import ZArith Lia SpecFloat.
From stdpp Require Import gmap strings.
From S2P Require Import Prelude Order Utf8 Str Net Vendor Capsule Invite Tunnel Seal Grant Update Contract Control Validation Gateway StdText.

(** * What the settings are read from *)

(** [env::var]: the variables whose value is Unicode. *)
Definition Environment := gmap (list byte) (list byte).

(** [fs::metadata] and [fs::read_to_string] of a path; the text is missing
    when it is not UTF-8. *)
Record FileEntry := mkFile { file_is_file : bool; file_len : Z; file_text : option (list byte) }.
Class Files := file_entry : list byte -> option FileEntry.

(** The base64 crate's [STANDARD] engine (RFC 4648, padded). *)
Class Base64 := {
  base64_encode : list byte -> list byte;
  base64_decode : list byte -> option (list byte);
}.
Definition is_base64 (b : byte) : bool := is_ascii_alphanumeric b || bool_decide (b ∈ str "+/=").
Class Base64Laws `{Base64} : Prop := {
  base64_decode_encode l : base64_decode (base64_encode l) = Some l;
  base64_alphabet l : forallb is_base64 (base64_encode l) = true;
  base64_length l : zlen (base64_encode l) = (zlen l + 2) / 3 * 4;
}.

(** [String::from] of a [url::Url]. *)
Class UrlText := url_text : Url -> list byte.

Definition MAX_SHADOWSOCKS_MANAGER_SERVERS : Z := 1500.
Definition MAX_OPENVPN_MATERIAL_BYTES : Z := 8 * 1024.
Definition SHADOWSOCKS_2022_METHOD : list byte := str "2022-blake3-aes-256-gcm".

(** An [anyhow] error, by the setting it is about and what it says, or a panic
    of [expect]. *)
Inductive ConfigError := Bail (setting message : list byte) | Panic (message : list byte).
Definition bail {A} (name message : list byte) : result ConfigError A := Err (Bail name message).
Definition expect {A} (o : option A) (message : list byte) : result ConfigError A := ok_or o (Panic message).
Definition ensure (ok : bool) (name message : list byte) : result ConfigError unit := if ok then Ok tt else bail name message.

(** * The settings *)

Record OpenVpnConfig := mkOpenVpn {
  ov_transport_id : list byte; ov_manager_url : list byte; ov_manager_token : list byte; ov_auth_token : list byte;
  ov_public_host : list byte; ov_public_port : Z; ov_sni : list byte; ov_ca_certificate : list byte;
  ov_stunnel_ca_certificate : list byte; ov_tls_crypt_key : list byte;
}.
Record ShadowsocksConfig := mkShadowsocks {
  ss_transport_id : list byte; ss_manager_address : list byte; ss_public_host : list byte;
  ss_port_start : Z; ss_port_end : Z; ss_credential_key : list byte;
}.
Record WireGuardConfig := mkWireGuard {
  wg_transport_id : list byte; wg_manager_url : list byte; wg_manager_token : list byte; wg_credential_key : list byte;
  wg_server_public_key : list byte; wg_public_host : list byte; wg_public_port : Z; wg_sni : list byte; wg_path_prefix : list byte;
}.
Inductive HysteriaObfuscation := Disabled | Salamander (password : list byte) | Gecko (password : list byte).
Record HysteriaConfig := mkHysteria {
  hy_transport_id : list byte; hy_runtime_config_path : list byte; hy_listen : list byte; hy_public_host : list byte;
  hy_public_port : Z; hy_sni : list byte; hy_tls_cert_path : list byte; hy_tls_key_path : list byte; hy_auth_url : list byte;
  hy_stats_url : list byte; hy_stats_secret : list byte; hy_masquerade_url : list byte; hy_obfuscation : HysteriaObfuscation;
}.
Record XrayRealityConfig := mkReality {
  re_transport_id : list byte; re_inbound_tag : list byte; re_listen_host : list byte; re_listen_port : Z;
  re_public_host : list byte; re_public_port : Z; re_sni : list byte; re_server_names : list (list byte);
  re_target : list byte; re_private_key : list byte; re_public_key : list byte; re_short_id : list byte; re_fingerprint : list byte;
}.
Record XrayXhttpConfig := mkXhttp {
  xh_transport_id : list byte; xh_inbound_tag : list byte; xh_listen_host : list byte; xh_listen_port : Z;
  xh_public_host : list byte; xh_public_port : Z; xh_sni : list byte; xh_path : list byte; xh_fingerprint : list byte;
}.
Record XrayConfig := mkXray {
  xr_runtime_config_path : list byte; xr_binary_path : list byte; xr_api_server : list byte; xr_api_listen : list byte;
  xr_api_port : Z; xr_credential_key : list byte; xr_reality : option XrayRealityConfig; xr_xhttp : option XrayXhttpConfig;
}.
Record ClientUpdates := mkClientUpdates { cu_policy : ClientPolicy; cu_manifest : ReleaseManifest }.

(** [ServerConfig]; the session lifetime is in seconds. *)
Record ServerConfig := mkServerConfig {
  bind_address : SocketAddr * Z; state_path : list byte; admin_token : list byte; cfg_public_url : list byte;
  cfg_node_id : list byte; cfg_node_name : list byte; cfg_location : NodeLocation; cfg_max_sessions : Z; session_ttl : Z;
  cfg_transports : list TransportProfile; cfg_hysteria : option HysteriaConfig; cfg_openvpn : option OpenVpnConfig;
  cfg_shadowsocks : option ShadowsocksConfig; cfg_wireguard : option WireGuardConfig; cfg_xray : option XrayConfig;
  cfg_invite_issuer : option InviteIssuer; cfg_client_updates : ClientUpdates;
}.

(** * Reading one setting *)

Section reading.
Context (env : Environment).

Definition value (name default_value : list byte) : list byte := default default_value (env !! name).

Definition required (name : list byte) : result ConfigError (list byte) :=
  let* result := ok_or (env !! name) (Bail name (str "is required")) in
  let* _ := ensure (negb (bool_decide (trim result = []))) name (str "cannot be empty") in
  Ok result.

(** [parse_value], for the [FromStr] of the default's type. *)
Definition parse_value {T} (from_str : list byte -> option T) (name : list byte) (default_value : T) : result ConfigError T :=
  match env !! name with
  | Some value => ok_or (from_str value) (Bail name (str "is invalid"))
  | None => Ok default_value
  end.
Definition nonzero_port (name : list byte) (default_value : Z) : result ConfigError Z :=
  let* port := parse_value (parse_uint u16_max) name default_value in
  let* _ := ensure (negb (port =? 0)) name (str "must be greater than zero") in
  Ok port.

Definition bounded_tag (name default_value : list byte) : result ConfigError (list byte) :=
  let tag := value name default_value in
  let* _ := ensure (negb (bool_decide (trim tag = [])) && (zlen tag <=? 64) && negb (existsb is_control (char_list tag)))
              name (str "must be 1-64 printable characters") in
  Ok tag.
Definition fingerprints : list (list byte) :=
  [str "chrome"; str "firefox"; str "safari"; str "ios"; str "android"; str "edge"; str "random"].
Definition env_fingerprint (name : list byte) : result ConfigError (list byte) :=
  let fingerprint := value name (str "chrome") in
  let* _ := ensure (bool_decide (fingerprint ∈ fingerprints)) name (str "is unsupported") in
  Ok fingerprint.

(** [updates::optional]. *)
Definition optional (name : list byte) : option (list byte) :=
  match env !! name with
  | Some value => if bool_decide (trim value = []) then None else Some (trim value)
  | None => None
  end.
End reading.

(** * Checks of a setting's shape *)

(** A dot-separated label of a host name. *)
Definition label_byte (b : byte) : bool := is_ascii_alphanumeric b || bool_decide (b = hyphen).
Definition label_ok (label : list byte) : bool :=
  negb (bool_decide (label = [])) && (zlen label <=? 63) && negb (starts_with hyphen label) && negb (ends_with_byte hyphen label)
  && forallb label_byte label.
Definition hostname_shape (hostname : list byte) : bool :=
  negb (bool_decide (hostname = [])) && (zlen hostname <=? MAX_ENDPOINT_CHARS) && bool_decide (hostname = trim hostname)
  && negb (contains (str "://") hostname) && negb (bool_decide (z2b 47 ∈ hostname)) && negb (bool_decide (z2b 92 ∈ hostname))
  && negb (bool_decide (z2b 63 ∈ hostname)) && negb (bool_decide (z2b 35 ∈ hostname))
  && negb (existsb is_whitespace (char_list hostname)).
Definition validate_hostname (hostname name : list byte) : result ConfigError unit :=
  let* _ := ensure (hostname_shape hostname) name (str "must be a hostname or IP address without a scheme or path") in
  if bool_decide (is_Some (parse_ip hostname)) then Ok tt
  else ensure (negb (starts_with dot hostname) && negb (ends_with_byte dot hostname) && forallb label_ok (split_on dot hostname))
         name (str "must be a valid hostname or IP address").
Definition validate_dns_name (hostname name : list byte) : result ConfigError unit :=
  let* _ := validate_hostname hostname name in
  ensure (negb (bool_decide (is_Some (parse_ip hostname)))) name (str "must be a DNS hostname, not an IP address").
Definition validate_listen_host (host name : list byte) : result ConfigError unit :=
  ensure (bool_decide (is_Some (parse_ip host))) name (str "must be an IPv4 or IPv6 address").

(** [listeners_conflict]. *)
Definition listeners_conflict (first_host : list byte) (first_port : Z) (second_host : list byte) (second_port : Z)
    : result ConfigError bool :=
  if negb (first_port =? second_port) then Ok false
  else
    let* first := expect (parse_ip first_host) (str "listen hosts are validated before conflict checks") in
    let* second := expect (parse_ip second_host) (str "listen hosts are validated before conflict checks") in
    Ok (same_family first second && (bool_decide (first = second) || (bits first =? 0) || (bits second =? 0))).

Definition port_ok (port : list byte) : bool := match parse_uint u16_max port with Some port => 0 <? port | None => false end.
Definition validate_authority (authority name : list byte) : result ConfigError unit :=
  match rsplit_once colon authority with
  | None => bail name (str "must use host:port format")
  | Some (host, port) =>
    let* _ := validate_hostname host name in
    ensure (port_ok port) name (str "must contain a non-zero port")
  end.
Definition validate_target (target : list byte) : result ConfigError unit := validate_authority target (str "KET_XRAY_REALITY_TARGET").

Definition validate_xhttp_path (path : list byte) : result ConfigError unit :=
  ensure ((16 <=? zlen path) && (zlen path <=? 128) && starts_with (z2b 47) path && negb (ends_with_byte (z2b 47) path)
          && negb (contains (str "//") path)
          && forallb (fun b => is_ascii_alphanumeric b || bool_decide (b ∈ str "/-_")) path)
    (str "KET_XHTTP_PATH") (str "must be a 16-128 character absolute path using letters, numbers, /, -, or _").
Definition validate_wireguard_path_prefix (prefix : list byte) : result ConfigError unit :=
  ensure ((16 <=? zlen prefix) && (zlen prefix <=? 96) && forallb (fun b => is_ascii_alphanumeric b || bool_decide (b ∈ str "-_")) prefix)
    (str "KET_WIREGUARD_WS_PATH_PREFIX") (str "must contain 16-96 letters, numbers, hyphens, or underscores").

(** [validate_text], [validate_identifier], [validate_option_key] and
    [validate_location], as the server has them. *)
Definition server_validate_text (value label : list byte) (maximum_chars : Z) : result ConfigError unit :=
  ensure (text_ok value maximum_chars) label (str "must contain trimmed printable characters").
Definition server_validate_identifier (value label : list byte) (maximum_chars : Z) : result ConfigError unit :=
  ensure (identifier_ok value maximum_chars) label (str "has an invalid identifier shape").
Definition server_validate_option_key (value label : list byte) : result ConfigError unit :=
  ensure (option_key_ok value) label (str "keys must use lowercase ASCII characters").
Definition validate_location (country_code : list byte) (latitude longitude : spec_float) : result ConfigError unit :=
  let* _ := ensure ((zlen country_code =? 2) && forallb is_ascii_uppercase country_code)
              (str "KET_COUNTRY_CODE") (str "must be a two-letter uppercase ISO code") in
  let* _ := ensure (in_range (f64 (-90)) (f64 90) latitude) (str "KET_LATITUDE") (str "must be between -90 and 90") in
  ensure (in_range (f64 (-180)) (f64 180) longitude) (str "KET_LONGITUDE") (str "must be between -180 and 180").
Definition validate_node_metadata (node_id node_name : list byte) (location : NodeLocation) : result ConfigError unit :=
  let* _ := server_validate_identifier node_id (str "KET_NODE_ID") MAX_NODE_TEXT_CHARS in
  let* _ := server_validate_text node_name (str "KET_NODE_NAME") MAX_NODE_TEXT_CHARS in
  let* _ := server_validate_text (country_name location) (str "KET_COUNTRY_NAME") MAX_NODE_TEXT_CHARS in
  let* _ := match city location with
            | Some city => server_validate_text city (str "KET_CITY") MAX_NODE_TEXT_CHARS
            | None => Ok tt
            end in
  validate_location (country_code location) (latitude location) (longitude location).

(** The loop of [validate_transports]; [ids] are those before. *)
Definition server_validate_option (entry : list byte * list byte) : result ConfigError unit :=
  let* _ := server_validate_option_key (fst entry) (str "transport option") in
  ensure (bounded_value_ok (snd entry) MAX_OPTION_VALUE_CHARS) (str "transport") (str "contains an invalid option value").
Fixpoint ensure_all {A} (check : A -> result ConfigError unit) (l : list A) : result ConfigError unit :=
  match l with [] => Ok tt | a :: l => let* _ := check a in ensure_all check l end.
Definition server_validate_transport (ids : list (list byte)) (t : TransportProfile) : result ConfigError unit :=
  let* _ := server_validate_identifier (tp_id t) (str "transport ID") MAX_TRANSPORT_ID_CHARS in
  let* _ := server_validate_text (tp_display_name t) (str "transport display name") MAX_NODE_TEXT_CHARS in
  let* _ := ensure (is_ok (validate_hostname (tp_endpoint t) (str "transport endpoint")) && negb (tp_port t =? 0))
              (tp_id t) (str "has an invalid endpoint") in
  let* _ := match tp_tls_server_name t with
            | Some server_name => validate_hostname server_name (str "transport TLS server name")
            | None => Ok tt
            end in
  let* _ := ensure (size (tp_options t) <=? MAX_OPTION_ENTRIES)%nat (tp_id t) (str "contains too many options") in
  let* _ := ensure_all server_validate_option (entries (tp_options t)) in
  ensure (bool_decide (tp_id t ∉ ids)) (tp_id t) (str "transport ids must be unique").
Fixpoint server_validate_each (ids : list (list byte)) (l : list TransportProfile) : result ConfigError unit :=
  match l with
  | [] => Ok tt
  | t :: l => let* _ := server_validate_transport ids t in server_validate_each (tp_id t :: ids) l
  end.
Definition server_validate_transports (transports : list TransportProfile) : result ConfigError unit :=
  let* _ := ensure (zlen transports <=? MAX_TRANSPORTS) (str "transports") (str "at most 32 transports may be advertised") in
  server_validate_each [] transports.

(** [normalize_openvpn_material]. *)
Definition slice_from (s : list byte) (n : nat) : list byte := drop n s.
Definition normalize_openvpn_material (material begin_ end_ : list byte) : option (list byte) :=
  let material := trim material in
  if bool_decide (z2b 0 ∈ material) || existsb (fun line => 256 <? zlen line) (lines material) then None
  else match find begin_ material with
  | None => None
  | Some envelope_start =>
    if negb (envelope_start =? 0)%nat && negb (bool_decide (material !! (envelope_start - 1)%nat = Some newline)) then None
    else
      let preamble := take envelope_start material in
      if existsb (fun line => negb (bool_decide (trim line = [])) && negb (starts_with (z2b 35) (str_trim_start line))) (lines preamble)
      then None
      else
        let envelope := slice_from material envelope_start in
        if negb (starts_with_str begin_ envelope) || negb (ends_with envelope end_) then None
        else Some (envelope ++ [newline])
  end.

(** * The update settings (updates.rs) *)

Definition MAX_DOWNLOAD_URL_CHARS : Z := 2048.
Definition DEFAULT_DOWNLOAD_URL : list byte := str "https://github.com/Emp5r0R/Ket/releases/latest".
Definition CARGO_PKG_VERSION : list byte := str "1.2.0".

(** [server_version]: this build's. *)
Definition this_version : result ConfigError Version :=
  match version_from_str CARGO_PKG_VERSION with
  | Ok v => Ok v
  | Err _ => Err (Panic (str "the workspace version is MAJOR.MINOR.PATCH"))
  end.

(** The release manifest the build embeds, as its JSON reads. *)
Definition embedded_releases : list Release := [
  mkRelease (mkVersion 1 0 1) (str "2026-09-02") (Some OptionalUpdate) (Some OptionalUpdate) ∅
    (str "Baseline release before update tracking.") 0;
  mkRelease (mkVersion 1 1 0) (str "2026-10-15") (Some RecommendedUpdate) (Some SecurityUpdate) ∅
    (str "Closes the control API that v1.0.1 servers exposed on port 443. Adds invites with QR codes, one-command server setup, the ket server command, rated updates, and a smaller Android download.") 0;
  mkRelease (mkVersion 1 2 0) (str "2026-10-18") (Some SecurityUpdate) (Some RecommendedUpdate)
    {[ Android := RecommendedUpdate; Linux := SecurityUpdate; Windows := SecurityUpdate ]}
    (str "Fixes DNS leaks on Windows and Linux, and WireGuard TLS lookups. Adds encrypted enrollment, data allowances, fair sharing, bypass lists, sharing with nearby devices, smoother roaming, and live speed.") 0
].
(** [ReleaseManifest::embedded]. *)
Definition embedded : result ConfigError ReleaseManifest :=
  match Update.validate_manifest (mkManifest 1 14 embedded_releases) with
  | Ok m => Ok m
  | Err _ => Err (Panic (str "the embedded release manifest is validated by tests"))
  end.

(** [ClientPolicy::advice] and [ClientUpdates::advice], for the value of the
    client header. *)
Definition policy_advice (policy : ClientPolicy) (m : ReleaseManifest) (c : ClientIdentity) (now : Z) : UpdateAdvice :=
  mkAdvice (version_display (Update.server_version policy)) (evaluate policy m c now).
Definition updates_advice (u : ClientUpdates) (header : option (list byte)) (now : Z) : UpdateAdvice :=
  policy_advice (cu_policy u) (cu_manifest u) (from_header header) now.

(** * Reading the settings *)

Section from_env.
Context `{Ed25519, Hashes, Encodings, UrlParser, UrlOps, Hpke, Base64, Files, UrlText, !Json (list TransportProfile)}.

(** A plain URL of one of [schemes]: no credentials, query or fragment. *)
Definition plain_url (schemes : list (list byte)) (u : Url) : bool :=
  bool_decide (url_scheme u ∈ schemes) && bool_decide (is_Some (url_host_str u)) && bool_decide (url_username u = [])
  && bool_decide (url_password u = None) && bool_decide (url_query u = None) && bool_decide (url_fragment u = None).
Definition validate_http_manager_url (value name : list byte) : result ConfigError unit :=
  let* parsed := ok_or (url_parse value) (Bail name (str "must be an absolute URL")) in
  ensure (plain_url [str "http"] parsed) name (str "must be an HTTP URL without credentials, a query, or a fragment").

Definition is_loopback_url (u : Url) : bool :=
  match url_host u with
  | Some (Domain host) => eq_ignore_ascii_case host (str "localhost")
  | Some (Ipv4 octets) => match octets with first :: _ => first =? 127 | [] => false end
  | Some (Ipv6 segments) => bool_decide (segments = [0; 0; 0; 0; 0; 0; 0; 1])
  | None => false
  end.
Definition slash_end (s : list byte) : list byte := trim_end_matches (fun b => bool_decide (b = z2b 47)) s.
Definition normalize_public_url (value : list byte) : result ConfigError (list byte) :=
  let name := str "KET_PUBLIC_URL" in
  let* _ := server_validate_text value name MAX_PUBLIC_URL_CHARS in
  let* parsed := ok_or (url_parse value) (Bail name (str "must be an absolute URL")) in
  let* _ := ensure (plain_url [str "http"; str "https"] parsed) name
              (str "must be an HTTP(S) URL without credentials, a query, or a fragment") in
  let* _ := ensure (negb (bool_decide (url_scheme parsed = str "http")) || is_loopback_url parsed) name
              (str "must use HTTPS unless it targets loopback development") in
  Ok (slash_end value).

Definition validate_download_url (value : list byte) : result ConfigError (list byte) :=
  let name := str "KET_CLIENT_DOWNLOAD_URL" in
  let* _ := ensure (zlen value <=? MAX_DOWNLOAD_URL_CHARS) name (str "is too long") in
  let* url := ok_or (url_parse value) (Bail name (str "must be an absolute URL")) in
  let* _ := ensure (bool_decide (url_scheme url = str "https") && bool_decide (is_Some (url_host_str url))
                    && bool_decide (url_username url = []) && bool_decide (url_password url = None)
                    && bool_decide (url_fragment url = None)) name
              (str "must be an https:// URL without credentials or a fragment") in
  Ok (url_text url).

Context (env : Environment).

(** [required_hostname], [required_dns_name], [required_reality_key],
    [required_wireguard_key], [obfuscation_password] and a key of at least 32
    characters. *)
Definition required_hostname (name : list byte) : result ConfigError (list byte) :=
  let* hostname := required env name in let* _ := validate_hostname hostname name in Ok hostname.
Definition required_dns_name (name : list byte) : result ConfigError (list byte) :=
  let* hostname := required env name in let* _ := validate_dns_name hostname name in Ok hostname.
Definition required_reality_key (name : list byte) : result ConfigError (list byte) :=
  let* key := required env name in
  let* _ := ensure ((zlen key =? 43) && forallb is_base64url key) name (str "must be a 43-character base64url X25519 key") in
  Ok key.
Definition required_wireguard_key (name : list byte) : result ConfigError (list byte) :=
  let* key := required env name in
  let* _ := ensure (match base64_decode key with Some decoded => zlen decoded =? 32 | None => false end) name
              (str "must be a standard-base64 WireGuard key containing exactly 32 bytes") in
  Ok key.
Definition required_long (name : list byte) : result ConfigError (list byte) :=
  let* secret := required env name in
  let* _ := ensure (32 <=? zlen secret) name (str "must contain at least 32 characters") in
  Ok secret.
Definition obfuscation_password : result ConfigError (list byte) := required_long (str "KET_HYSTERIA_OBFS_PASSWORD").

Definition read_openvpn_material (name begin_ end_ : list byte) : result ConfigError (list byte) :=
  let* path := required env name in
  let* metadata := ok_or (file_entry path) (Bail name (str "does not reference a readable regular file")) in
  let* _ := ensure (file_is_file metadata && negb (file_len metadata =? 0) && (file_len metadata <=? MAX_OPENVPN_MATERIAL_BYTES))
              name (str "must reference a non-empty regular file no larger than 8 KiB") in
  let* material := ok_or (file_text metadata) (Bail name (str "must reference UTF-8 PEM material")) in
  ok_or (normalize_openvpn_material material begin_ end_) (Bail name (str "contains invalid OpenVPN key material")).

(** [ClientUpdates::from_env]. *)
Definition transpose {A B} (f : A -> result ConfigError B) (o : option A) : result ConfigError (option B) :=
  match o with Some a => let* b := f a in Ok (Some b) | None => Ok None end.
Definition client_updates_from_env : result ConfigError ClientUpdates :=
  let minimum_name := str "KET_CLIENT_MINIMUM_VERSION" in
  let enforcement_name := str "KET_CLIENT_UPDATE_ENFORCEMENT" in
  let* minimum := transpose (fun value => map_err (fun _ => Bail minimum_name (str "must be a MAJOR.MINOR.PATCH version"))
                                            (version_from_str value)) (optional env minimum_name) in
  let* enforcement := transpose (fun value => map_err (fun _ => Bail enforcement_name (str "must be enforce or warn"))
                                                (enforcement_from_str value)) (optional env enforcement_name) in
  let* download_url := match optional env (str "KET_CLIENT_DOWNLOAD_URL") with
                       | Some value => validate_download_url value
                       | None => Ok DEFAULT_DOWNLOAD_URL
                       end in
  let* version := this_version in
  let* policy := map_err (fun _ => Bail minimum_name (str "cannot be newer than this server"))
                   (policy_new version minimum (default Enforce enforcement) download_url) in
  let* manifest := embedded in
  Ok (mkClientUpdates policy manifest).

(** [OpenVpnConfig::from_env]. *)
Definition BEGIN_CERTIFICATE : list byte := str "-----BEGIN CERTIFICATE-----".
Definition END_CERTIFICATE : list byte := str "-----END CERTIFICATE-----".
Definition BEGIN_STATIC_KEY : list byte := str "-----BEGIN OpenVPN Static key V1-----".
Definition END_STATIC_KEY : list byte := str "-----END OpenVPN Static key V1-----".
Definition auth_token_ok (token : list byte) : bool :=
  (32 <=? zlen token) && (zlen token <=? 512) && negb (existsb is_control (char_list token)).
Definition openvpn_from_env (max_sessions : Z) : result ConfigError (option OpenVpnConfig) :=
  let* enabled := parse_value env parse_bool (str "KET_OPENVPN_ENABLED") false in
  if negb enabled then Ok None else
  let* _ := ensure (max_sessions <=? 65533) (str "KET_MAX_SESSIONS") (str "cannot exceed 65533 when OpenVPN is enabled") in
  let* manager_url := required env (str "KET_OPENVPN_MANAGER_URL") in
  let* _ := validate_http_manager_url manager_url (str "KET_OPENVPN_MANAGER_URL") in
  let* manager_token := required_long (str "KET_OPENVPN_MANAGER_TOKEN") in
  let* auth_token := required env (str "KET_OPENVPN_AUTH_TOKEN") in
  let* _ := ensure (auth_token_ok auth_token) (str "KET_OPENVPN_AUTH_TOKEN") (str "must contain 32-512 non-control characters") in
  let* _ := ensure (negb (bool_decide (auth_token = manager_token))) (str "KET_OPENVPN_AUTH_TOKEN")
              (str "and KET_OPENVPN_MANAGER_TOKEN must be independent") in
  let* ca_certificate := read_openvpn_material (str "KET_OPENVPN_CA_CERT_PATH") BEGIN_CERTIFICATE END_CERTIFICATE in
  let* stunnel_ca_certificate := read_openvpn_material (str "KET_OPENVPN_STUNNEL_CA_CERT_PATH") BEGIN_CERTIFICATE END_CERTIFICATE in
  let* tls_crypt_key := read_openvpn_material (str "KET_OPENVPN_TLS_CRYPT_KEY_PATH") BEGIN_STATIC_KEY END_STATIC_KEY in
  let* public_host := required_hostname (str "KET_OPENVPN_PUBLIC_HOST") in
  let* public_port := nonzero_port env (str "KET_OPENVPN_PUBLIC_PORT") 443 in
  let* sni := required_dns_name (str "KET_OPENVPN_SNI") in
  Ok (Some (mkOpenVpn (value env (str "KET_OPENVPN_TRANSPORT_ID") (str "openvpn-stunnel-primary")) (slash_end manager_url)
              manager_token auth_token public_host public_port sni ca_certificate stunnel_ca_certificate tls_crypt_key)).

(** [WireGuardConfig::from_env]. *)
Definition wireguard_from_env (max_sessions : Z) : result ConfigError (option WireGuardConfig) :=
  let* enabled := parse_value env parse_bool (str "KET_WIREGUARD_ENABLED") false in
  if negb enabled then Ok None else
  let* _ := ensure (max_sessions <=? 65533) (str "KET_MAX_SESSIONS") (str "cannot exceed 65533 when WireGuard TLS is enabled") in
  let* manager_url := required env (str "KET_WIREGUARD_MANAGER_URL") in
  let* parsed := ok_or (url_parse manager_url) (Bail (str "KET_WIREGUARD_MANAGER_URL") (str "must be an absolute HTTP URL")) in
  let* _ := ensure (plain_url [str "http"] parsed) (str "KET_WIREGUARD_MANAGER_URL")
              (str "must be an HTTP URL without credentials, a query, or a fragment") in
  let* manager_token := required_long (str "KET_WIREGUARD_MANAGER_TOKEN") in
  let* credential_key := required_long (str "KET_WIREGUARD_CREDENTIAL_KEY") in
  let* server_public_key := required_wireguard_key (str "KET_WIREGUARD_SERVER_PUBLIC_KEY") in
  let* path_prefix := required env (str "KET_WIREGUARD_WS_PATH_PREFIX") in
  let* _ := validate_wireguard_path_prefix path_prefix in
  let* public_host := required_hostname (str "KET_WIREGUARD_PUBLIC_HOST") in
  let* public_port := nonzero_port env (str "KET_WIREGUARD_PUBLIC_PORT") 443 in
  let* sni := required_dns_name (str "KET_WIREGUARD_SNI") in
  Ok (Some (mkWireGuard (value env (str "KET_WIREGUARD_TRANSPORT_ID") (str "wireguard-tls-primary")) (slash_end manager_url)
              manager_token credential_key server_public_key public_host public_port sni path_prefix)).

(** [ShadowsocksConfig::from_env]. *)
Definition shadowsocks_from_env (max_sessions : Z) : result ConfigError (option ShadowsocksConfig) :=
  let* enabled := parse_value env parse_bool (str "KET_SHADOWSOCKS_ENABLED") false in
  if negb enabled then Ok None else
  let manager_address := value env (str "KET_SHADOWSOCKS_MANAGER_ADDRESS") (str "shadowsocks:6100") in
  let* _ := validate_authority manager_address (str "KET_SHADOWSOCKS_MANAGER_ADDRESS") in
  let* public_host := required_hostname (str "KET_SHADOWSOCKS_PUBLIC_HOST") in
  let* _ := ensure (max_sessions <=? MAX_SHADOWSOCKS_MANAGER_SERVERS) (str "KET_MAX_SESSIONS")
              (str "cannot exceed 1500 when Shadowsocks is enabled") in
  let* port_start := nonzero_port env (str "KET_SHADOWSOCKS_PORT_START") 20000 in
  let* port_end := nonzero_port env (str "KET_SHADOWSOCKS_PORT_END") 20999 in
  let* _ := ensure (port_start <=? port_end) (str "KET_SHADOWSOCKS_PORT_END") (str "must not be lower than KET_SHADOWSOCKS_PORT_START") in
  let pool_size := port_end - port_start + 1 in
  let* _ := ensure (max_sessions <=? pool_size) (str "KET_SHADOWSOCKS_PORT_END")
              (str "the Shadowsocks port range must contain at least KET_MAX_SESSIONS ports") in
  let* credential_key := required_long (str "KET_SHADOWSOCKS_CREDENTIAL_KEY") in
  Ok (Some (mkShadowsocks (value env (str "KET_SHADOWSOCKS_TRANSPORT_ID") (str "shadowsocks-2022-primary"))
              manager_address public_host port_start port_end credential_key)).

(** [HysteriaConfig::from_env]. *)
Definition obfuscation_from_env : result ConfigError HysteriaObfuscation :=
  let kind := value env (str "KET_HYSTERIA_OBFS") (str "none") in
  if bool_decide (kind = str "none") then Ok Disabled
  else if bool_decide (kind = str "salamander") then let* password := obfuscation_password in Ok (Salamander password)
  else if bool_decide (kind = str "gecko") then let* password := obfuscation_password in Ok (Gecko password)
  else bail (str "KET_HYSTERIA_OBFS") (str "must be none, salamander, or gecko").
Definition hysteria_from_env : result ConfigError (option HysteriaConfig) :=
  let* enabled := parse_value env parse_bool (str "KET_HYSTERIA_ENABLED") false in
  if negb enabled then Ok None else
  let* public_host := required_hostname (str "KET_HYSTERIA_PUBLIC_HOST") in
  let* public_port := nonzero_port env (str "KET_HYSTERIA_PUBLIC_PORT") 443 in
  let* stats_secret := required_long (str "KET_HYSTERIA_STATS_SECRET") in
  let* masquerade_url := required env (str "KET_HYSTERIA_MASQUERADE_URL") in
  let* _ := ensure (starts_with_str (str "https://") masquerade_url) (str "KET_HYSTERIA_MASQUERADE_URL") (str "must use https://") in
  let* obfuscation := obfuscation_from_env in
  Ok (Some (mkHysteria (value env (str "KET_HYSTERIA_TRANSPORT_ID") (str "hy2-primary"))
              (value env (str "KET_HYSTERIA_CONFIG_PATH") (str "/var/lib/ket-dataplane/hysteria.json"))
              (value env (str "KET_HYSTERIA_LISTEN") (str ":8443"))
              public_host public_port
              (value env (str "KET_HYSTERIA_SNI") public_host)
              (value env (str "KET_HYSTERIA_TLS_CERT_PATH") (str "/etc/hysteria/tls/fullchain.pem"))
              (value env (str "KET_HYSTERIA_TLS_KEY_PATH") (str "/etc/hysteria/tls/privkey.pem"))
              (value env (str "KET_HYSTERIA_AUTH_URL") (str "http://control-plane:8787/internal/v1/hysteria2/auth"))
              (value env (str "KET_HYSTERIA_STATS_URL") (str "http://hysteria2:9999"))
              stats_secret masquerade_url obfuscation)).

(** [XrayRealityConfig::from_env]. *)
Definition server_names_of (names : list byte) : list (list byte) := filter (fun name => name <> []) (map trim (split_on (z2b 44) names)).
Definition reality_from_env : result ConfigError XrayRealityConfig :=
  let* public_host := required_hostname (str "KET_XRAY_PUBLIC_HOST") in
  let* sni := required_dns_name (str "KET_XRAY_SNI") in
  let* names := required env (str "KET_XRAY_SERVER_NAMES") in
  let server_names := server_names_of names in
  let* _ := ensure (negb (bool_decide (server_names = []))) (str "KET_XRAY_SERVER_NAMES") (str "must contain at least one hostname") in
  let* _ := ensure_all (fun name => validate_dns_name name (str "KET_XRAY_SERVER_NAMES")) server_names in
  let* _ := ensure (bool_decide (sni ∈ server_names)) (str "KET_XRAY_SNI") (str "must be listed in KET_XRAY_SERVER_NAMES") in
  let* reality_target := required env (str "KET_XRAY_REALITY_TARGET") in
  let* _ := validate_target reality_target in
  let* private_key := required_reality_key (str "KET_XRAY_PRIVATE_KEY") in
  let* public_key := required_reality_key (str "KET_XRAY_PUBLIC_KEY") in
  let* _ := ensure (negb (bool_decide (private_key = public_key))) (str "KET_XRAY_PRIVATE_KEY")
              (str "and KET_XRAY_PUBLIC_KEY must be different") in
  let* short_id := required env (str "KET_XRAY_SHORT_ID") in
  let* _ := ensure ((zlen short_id =? 16) && forallb (fun b => bool_decide (is_Some (to_digit 16 b))) short_id)
              (str "KET_XRAY_SHORT_ID") (str "must contain exactly 16 hexadecimal characters") in
  let listen_host := value env (str "KET_XRAY_LISTEN_HOST") (str "0.0.0.0") in
  let* _ := validate_listen_host listen_host (str "KET_XRAY_LISTEN_HOST") in
  let transport_id := value env (str "KET_XRAY_TRANSPORT_ID") (str "vless-reality-primary") in
  let* inbound_tag := bounded_tag env (str "KET_XRAY_INBOUND_TAG") (str "vless-reality") in
  let* listen_port := nonzero_port env (str "KET_XRAY_LISTEN_PORT") 8444 in
  let* public_port := nonzero_port env (str "KET_XRAY_PUBLIC_PORT") 443 in
  let* fingerprint := env_fingerprint env (str "KET_XRAY_FINGERPRINT") in
  Ok (mkReality transport_id inbound_tag listen_host listen_port public_host public_port sni server_names reality_target
        private_key public_key (map to_ascii_lowercase short_id) fingerprint).

(** [XrayXhttpConfig::from_env]. *)
Definition xhttp_from_env : result ConfigError XrayXhttpConfig :=
  let listen_host := value env (str "KET_XHTTP_LISTEN_HOST") (str "0.0.0.0") in
  let* _ := validate_listen_host listen_host (str "KET_XHTTP_LISTEN_HOST") in
  let* path := required env (str "KET_XHTTP_PATH") in
  let* _ := validate_xhttp_path path in
  let transport_id := value env (str "KET_XHTTP_TRANSPORT_ID") (str "https-stealth-primary") in
  let* inbound_tag := bounded_tag env (str "KET_XHTTP_INBOUND_TAG") (str "vless-xhttp") in
  let* listen_port := nonzero_port env (str "KET_XHTTP_LISTEN_PORT") 8445 in
  let* public_host := required_hostname (str "KET_XHTTP_PUBLIC_HOST") in
  let* public_port := nonzero_port env (str "KET_XHTTP_PUBLIC_PORT") 443 in
  let* sni := required_dns_name (str "KET_XHTTP_SNI") in
  let* fingerprint := env_fingerprint env (str "KET_XHTTP_FINGERPRINT") in
  Ok (mkXhttp transport_id inbound_tag listen_host listen_port public_host public_port sni path fingerprint).

(** [XrayConfig::from_env]. *)
Definition both {A B} (a : option A) (b : option B) (test : A -> B -> result ConfigError bool) : result ConfigError bool :=
  match a, b with Some a, Some b => test a b | _, _ => Ok false end.
Definition either_is {A} (a : option A) (test : A -> result ConfigError bool) : result ConfigError bool :=
  match a with Some a => test a | None => Ok false end.
Definition xray_from_env : result ConfigError (option XrayConfig) :=
  let* reality_enabled := parse_value env parse_bool (str "KET_XRAY_ENABLED") false in
  let* xhttp_enabled := parse_value env parse_bool (str "KET_XHTTP_ENABLED") false in
  if negb reality_enabled && negb xhttp_enabled then Ok None else
  let* api_port := nonzero_port env (str "KET_XRAY_API_PORT") 10085 in
  let* credential_key := required_long (str "KET_XRAY_CREDENTIAL_KEY") in
  let* api_server := required env (str "KET_XRAY_API_SERVER") in
  let* _ := validate_authority api_server (str "KET_XRAY_API_SERVER") in
  let api_listen := value env (str "KET_XRAY_API_LISTEN") (str "0.0.0.0") in
  let* _ := validate_listen_host api_listen (str "KET_XRAY_API_LISTEN") in
  let* reality := transpose (fun _ : unit => reality_from_env) (if reality_enabled then Some tt else None) in
  let* xhttp := transpose (fun _ : unit => xhttp_from_env) (if xhttp_enabled then Some tt else None) in
  let* same_tag := both reality xhttp (fun r x => Ok (bool_decide (re_inbound_tag r = xh_inbound_tag x))) in
  let* _ := ensure (negb same_tag) (str "KET_XRAY_INBOUND_TAG") (str "and KET_XHTTP_INBOUND_TAG must be different") in
  let* conflict := either_is reality (fun r => listeners_conflict api_listen api_port (re_listen_host r) (re_listen_port r)) in
  let* _ := ensure (negb conflict) (str "KET_XRAY_API") (str "and KET_XRAY inbound listeners must not overlap") in
  let* conflict := either_is xhttp (fun x => listeners_conflict api_listen api_port (xh_listen_host x) (xh_listen_port x)) in
  let* _ := ensure (negb conflict) (str "KET_XRAY_API") (str "and KET_XHTTP inbound listeners must not overlap") in
  let* conflict := both reality xhttp (fun r x =>
                     listeners_conflict (re_listen_host r) (re_listen_port r) (xh_listen_host x) (xh_listen_port x)) in
  let* _ := ensure (negb conflict) (str "KET_XRAY") (str "and KET_XHTTP inbound listeners must not overlap") in
  Ok (Some (mkXray (value env (str "KET_XRAY_CONFIG_PATH") (str "/var/lib/ket-dataplane/xray.json"))
              (value env (str "KET_XRAY_BINARY") (str "/usr/local/bin/xray"))
              api_server api_listen api_port credential_key reality xhttp)).

(** * Advertised transports *)

Definition options_of (l : list (string * list byte)) : gmap (list byte) (list byte) :=
  list_to_map (map (fun '(k, v) => (str k, v)) l).

(** The [transport_profile] of each engine. *)
Definition openvpn_profile (c : OpenVpnConfig) : TransportProfile :=
  mkProfile (ov_transport_id c) (str "OpenVPN TLS") OpenVpnStunnel (ov_public_host c) (ov_public_port c) Tcp 8 (Some (ov_sni c))
    (options_of [("auth_mode"%string, str "session_token"); ("cipher"%string, str "aes_256_gcm"); ("remote_cert_tls"%string, str "server");
                 ("tls_crypt"%string, str "v1"); ("tls_minimum"%string, str "1.2"); ("transport"%string, str "stunnel_tls")]).
Definition wireguard_profile (c : WireGuardConfig) : TransportProfile :=
  mkProfile (wg_transport_id c) (str "WireGuard TLS") WireGuard (wg_public_host c) (wg_public_port c) Tcp 2 (Some (wg_sni c))
    (options_of [("address_allocation"%string, str "lease_slot"); ("allowed_ips"%string, str "0.0.0.0/0"); ("keepalive_seconds"%string, str "25");
                 ("mtu"%string, str "1280"); ("path_prefix"%string, wg_path_prefix c); ("remote_address"%string, str "wireguard-agent:51820");
                 ("transport"%string, str "websocket_tls")]).
Definition shadowsocks_profile (c : ShadowsocksConfig) : TransportProfile :=
  mkProfile (ss_transport_id c) (str "Shadowsocks 2022") Shadowsocks2022 (ss_public_host c) (ss_port_start c) TcpAndUdp 15 None
    (options_of [("method"%string, SHADOWSOCKS_2022_METHOD); ("mode"%string, str "tcp_and_udp"); ("port_allocation"%string, str "lease_slot")]).
Definition hysteria_profile (c : HysteriaConfig) : TransportProfile :=
  let '(display_name, protocol, options) :=
    match hy_obfuscation c with
    | Disabled => (str "Hysteria 2", Hysteria2, [])
    | Salamander _ => (str "Hysteria XOR", XorScrambled, [("inner_protocol"%string, str "hysteria2"); ("obfs"%string, str "salamander")])
    | Gecko _ => (str "Hysteria XOR", XorScrambled,
        [("inner_protocol"%string, str "hysteria2"); ("obfs"%string, str "gecko"); ("gecko_min_packet_size"%string, str "512");
         ("gecko_max_packet_size"%string, str "1200")])
    end in
  mkProfile (hy_transport_id c) display_name protocol (hy_public_host c) (hy_public_port c) Udp 10 (Some (hy_sni c)) (options_of options).
Definition reality_profile (c : XrayRealityConfig) : TransportProfile :=
  mkProfile (re_transport_id c) (str "VLESS + REALITY") VlessXtlsReality (re_public_host c) (re_public_port c) Tcp 5 (Some (re_sni c))
    (options_of [("encryption"%string, str "none"); ("fingerprint"%string, re_fingerprint c); ("flow"%string, str "xtls-rprx-vision");
                 ("transport"%string, str "raw")]).
Definition xhttp_profile (c : XrayXhttpConfig) : TransportProfile :=
  mkProfile (xh_transport_id c) (str "HTTPS Stealth") Stealth (xh_public_host c) (xh_public_port c) Tcp 1 (Some (xh_sni c))
    (options_of [("encryption"%string, str "none"); ("fingerprint"%string, xh_fingerprint c); ("mode"%string, str "packet-up");
                 ("path"%string, xh_path c); ("security"%string, str "tls"); ("transport"%string, str "xhttp")]).

(** The port and the address of a resource slot. *)
Definition session_port (c : ShadowsocksConfig) (resource_slot : Z) : option Z :=
  let port := ss_port_start c + resource_slot in
  if port <=? u32_max then (if port <=? ss_port_end c then Some (port mod 65536) else None) else None.
Definition client_address (resource_slot : Z) : option (list byte) :=
  let host := resource_slot + 2 in
  if host <=? u32_max then
    (if host <=? 65534 then Some (str "10.66." ++ show_u64 (Z.shiftr host 8) ++ dot :: show_u64 (Z.land host 0xff)) else None)
  else None.

(** [ServerConfig::from_env]. *)
Definition node_location_from_env : result ConfigError NodeLocation :=
  let city := match env !! str "KET_CITY" with
              | Some value => if bool_decide (trim value = []) then None else Some value
              | None => None
              end in
  let* latitude := parse_value env parse_f64 (str "KET_LATITUDE") (f64 0) in
  let* longitude := parse_value env parse_f64 (str "KET_LONGITUDE") (f64 0) in
  Ok (mkLocation (value env (str "KET_COUNTRY_CODE") (str "ZZ")) (value env (str "KET_COUNTRY_NAME") (str "Unknown")) city latitude longitude).
Definition from_env : result ConfigError ServerConfig :=
  let* bind_address := ok_or (parse_socket_addr (value env (str "KET_BIND") (str "0.0.0.0:8787")))
                         (Bail (str "KET_BIND") (str "must be a valid socket address")) in
  let* admin_token := ok_or (env !! str "KET_ADMIN_TOKEN")
                        (Bail (str "KET_ADMIN_TOKEN") (str "is required and must contain at least 32 characters")) in
  let* _ := ensure (32 <=? zlen admin_token) (str "KET_ADMIN_TOKEN") (str "must contain at least 32 characters") in
  let* public_url := normalize_public_url (value env (str "KET_PUBLIC_URL") (str "http://127.0.0.1:8787")) in
  let* invite_issuer := map_err (fun _ => Bail (str "KET_NODE_SIGNING_KEY") (str "is invalid"))
                          (from_configured_key (env !! str "KET_NODE_SIGNING_KEY") public_url) in
  let* client_updates := client_updates_from_env in
  let* max_sessions := parse_value env (parse_uint u32_max) (str "KET_MAX_SESSIONS") 1000 in
  let* _ := ensure (negb (max_sessions =? 0)) (str "KET_MAX_SESSIONS") (str "must be greater than zero") in
  let* session_ttl_seconds := parse_value env (parse_uint u64_max) (str "KET_SESSION_TTL_SECONDS") 1800 in
  let* _ := ensure ((60 <=? session_ttl_seconds) && (session_ttl_seconds <=? 86400)) (str "KET_SESSION_TTL_SECONDS")
              (str "must be between 60 and 86400") in
  let* transports := match env !! str "KET_TRANSPORTS_JSON" with
                     | Some json => ok_or (json_from_slice json) (Bail (str "KET_TRANSPORTS_JSON") (str "is invalid"))
                     | None => Ok []
                     end in
  let* hysteria := hysteria_from_env in
  let* openvpn := openvpn_from_env max_sessions in
  let* xray := xray_from_env in
  let* shadowsocks := shadowsocks_from_env max_sessions in
  let* wireguard := wireguard_from_env max_sessions in
  let transports :=
    transports ++ option_list (hysteria_profile <$> hysteria) ++ option_list (openvpn_profile <$> openvpn)
    ++ option_list (reality_profile <$> (xray ≫= xr_reality)) ++ option_list (xhttp_profile <$> (xray ≫= xr_xhttp))
    ++ option_list (shadowsocks_profile <$> shadowsocks) ++ option_list (wireguard_profile <$> wireguard) in
  let* _ := server_validate_transports transports in
  let node_id := value env (str "KET_NODE_ID") (str "ket-node-1") in
  let node_name := value env (str "KET_NODE_NAME") (str "Ket node") in
  let* location := node_location_from_env in
  let* _ := validate_node_metadata node_id node_name location in
  Ok (mkServerConfig bind_address (value env (str "KET_STATE_PATH") (str "/var/lib/ket/state.json")) admin_token public_url
        node_id node_name location max_sessions session_ttl_seconds transports hysteria openvpn shadowsocks wireguard xray
        invite_issuer client_updates).
End from_env.
