(* ===== verification/ConfigProps.v ===== *)
(** What holds of settings the server accepted: host names the app accepts, no
    panic while reading, a port and an address for every resource slot, and
    transports that pass the app's checks. *)

From Stdlib Require Import ZArith Lia SpecFloat.
From stdpp Require Import gmap strings.
From S2P Require Import Prelude Order Utf8 Str Net Vendor Capsule Invite Tunnel Seal Grant Update Contract Control Validation Gateway StdText Config.

(** * Chains of checks *)

Ltac bind_inv H :=
  repeat match type of H with
  | (match ?m with Ok _ => _ | Err _ => _ end) = Ok _ =>
      let E := fresh "E" in destruct m eqn:E; [|discriminate H]
  | (if negb ?b then Ok None else _) = Ok (Some _) => let E := fresh "E" in destruct b eqn:E; cbn [negb] in H; [|discriminate H]
  end.

Lemma ensure_ok b n m : ensure b n m = Ok tt <-> b = true.
Proof. unfold ensure, bail. by destruct b. Qed.
Lemma ensure_ok' b n m u : ensure b n m = Ok u -> b = true.
Proof. unfold ensure, bail. by destruct b. Qed.
Lemma ensure_all_ok {A} (check : A -> result ConfigError unit) l : ensure_all check l = Ok tt <-> Forall (fun a => check a = Ok tt) l.
Proof.
  induction l as [|a l IH]; cbn [ensure_all]; [by split|]. rewrite Forall_cons, <- IH.
  destruct (check a) as [[]|]; naive_solver.
Qed.

(** * Text of an address *)

Definition consumes {A} (P : byte -> Prop) (p : parser A) : Prop :=
  forall s a r, p s = Some (a, r) -> exists l, s = l ++ r /\ Forall P l.
Definition addr_byte (b : byte) : Prop := is_Some (to_digit 16 b) \/ b = dot \/ b = colon.

Lemma consumes_char (P : byte -> Prop) c : P c -> consumes P (read_given_char c).
Proof.
  intros Hc s a r Hs. destruct s as [|b s]; cbn in Hs; [done|]. case_bool_decide as Hb; [|done].
  injection Hs as _ <-. exists [b]. subst b. split; [done|]. by constructor.
Qed.
Lemma read_digits_app radix s count v : let '(_, _, rest) := read_digits radix s count v in
  exists l, s = l ++ rest /\ Forall (fun b => is_Some (to_digit radix b)) l.
Proof.
  revert count v; induction s as [|b s IH]; intros count v; cbn [read_digits]; [by exists []|].
  destruct (to_digit radix b) as [d|] eqn:Ed; [|by exists []].
  specialize (IH (count + 1) (v * radix + d)). destruct (read_digits radix s _ _) as [[? ?] rest].
  destruct IH as (l & -> & Hl). exists (b :: l). split; [done|]. constructor; [by rewrite Ed|done].
Qed.
Lemma to_digit_16 b : is_Some (to_digit 10 b) -> is_Some (to_digit 16 b).
Proof.
  intros [v Hv]. destruct b; vm_compute in Hv |- *; try (by eexists); discriminate.
Qed.
Lemma consumes_number radix n m z : radix = 10 \/ radix = 16 -> consumes addr_byte (read_number radix n m z).
Proof.
  intros Hr s a r. unfold read_number. pose proof (read_digits_app radix s 0 0) as Hd.
  destruct (read_digits radix s 0 0) as [[count v] rest]. intros Hs. destruct Hd as (l & -> & Hl).
  assert (r = rest) as -> by (repeat (case_match; try discriminate); by injection Hs).
  exists l. split; [done|]. eapply Forall_impl; [exact Hl|]. intros b Hb. left.
  destruct Hr as [->| ->]; [by apply to_digit_16|done].
Qed.
Lemma consumes_bind {A B C} P (p : parser A) (q : A -> parser B) (f : A -> B -> C) :
  consumes P p -> (forall a, consumes P (q a)) ->
  consumes P (fun s => match p s with Some (a, s) => match q a s with Some (b, s) => Some (f a b, s) | None => None end | None => None end).
Proof.
  intros Hp Hq s c r Hs. destruct (p s) as [[a s1]|] eqn:Ea; [|done]. destruct (q a s1) as [[b s2]|] eqn:Eb; [|done].
  injection Hs as _ <-. destruct (Hp _ _ _ Ea) as (l & -> & Hl). destruct (Hq a _ _ _ Eb) as (k & -> & Hk).
  exists (l ++ k). by rewrite <- (assoc_L (++)), Forall_app.
Qed.
Lemma consumes_separator {A} sep i (p : parser A) : addr_byte sep -> consumes addr_byte p -> consumes addr_byte (read_separator sep i p).
Proof.
  intros Hs Hp. unfold read_separator. destruct i as [|i]; [done|]. intros s a r Hr.
  destruct (read_given_char sep s) as [[[] s1]|] eqn:Ec; [|done].
  destruct (consumes_char _ sep Hs _ _ _ Ec) as (l & -> & Hl). destruct (Hp _ _ _ Hr) as (k & -> & Hk).
  exists (l ++ k). by rewrite <- (assoc_L (++)), Forall_app.
Qed.
Lemma addr_dot : addr_byte dot. Proof. by right; left. Qed.
Lemma addr_colon : addr_byte colon. Proof. by right; right. Qed.
Lemma consumes_octet i : consumes addr_byte (read_octet i).
Proof. apply consumes_separator; [apply addr_dot|]. apply consumes_number. by left. Qed.
Lemma consumes_ipv4 : consumes addr_byte read_ipv4_addr.
Proof.
  intros s n r Hs. unfold read_ipv4_addr in Hs.
  repeat match type of Hs with
  | match read_octet ?i ?s with _ => _ end = _ =>
      let E := fresh "E" in destruct (read_octet i s) as [[? ?]|] eqn:E; [apply consumes_octet in E as (? & -> & ?)|done]
  end.
  injection Hs as _ <-. eexists. rewrite !(assoc_L (++)). split; [done|]. by rewrite !Forall_app.
Qed.
Lemma consumes_groups limit i s : let '(_, _, r) := read_groups limit i s in exists l, s = l ++ r /\ Forall addr_byte l.
Proof.
  revert i s; induction limit as [|limit IH]; intros i s; cbn [read_groups]; [by exists []|].
  destruct (match limit with O => None | S _ => read_separator colon i read_ipv4_addr s end) as [[v4 s']|] eqn:E4.
  - destruct limit; [done|]. apply consumes_separator in E4; [done|apply addr_colon|apply consumes_ipv4].
  - destruct (read_separator colon i (read_number 16 4 u16_max true) s) as [[g s']|] eqn:Eg; [|by exists []].
    apply consumes_separator in Eg as (l & -> & Hl); [|apply addr_colon|apply consumes_number; by right].
    specialize (IH (S i) s'). destruct (read_groups limit (S i) s') as [[gs v4] r]. destruct IH as (k & -> & Hk).
    exists (l ++ k). by rewrite <- (assoc_L (++)), Forall_app.
Qed.
Lemma consumes_ipv6 : consumes addr_byte read_ipv6_addr.
Proof.
  intros s n r Hs. unfold read_ipv6_addr in Hs. pose proof (consumes_groups 8 0 s) as Hg.
  destruct (read_groups 8 0 s) as [[head v4] s1]. destruct Hg as (l & -> & Hl).
  case_match; [injection Hs as _ <-; by exists l|]. destruct v4; [done|].
  destruct (read_given_char colon s1) as [[[] s2]|] eqn:E1; [|done].
  apply (consumes_char _ _ addr_colon) in E1 as (k1 & -> & Hk1).
  destruct (read_given_char colon s2) as [[[] s3]|] eqn:E2; [|done].
  apply (consumes_char _ _ addr_colon) in E2 as (k2 & -> & Hk2).
  pose proof (consumes_groups (8 - (length head + 1)) 0 s3) as Hg.
  destruct (read_groups (8 - (length head + 1)) 0 s3) as [[tail ?] s4]. destruct Hg as (t & -> & Ht).
  injection Hs as _ <-. eexists. rewrite !(assoc_L (++)). split; [done|]. by rewrite !Forall_app.
Qed.
Lemma parse_ip_bytes s a : parse_ip s = Some a -> Forall addr_byte s.
Proof.
  unfold parse_ip, parse_with, read_ip_addr. intros Hs.
  assert (HN : forall l, l ++ [] = s -> Forall addr_byte l -> Forall addr_byte s) by (intros l <-; by rewrite app_nil_r).
  destruct (read_ipv4_addr s) as [[n r]|] eqn:E4.
  - apply consumes_ipv4 in E4 as (l & El & Hl). destruct r; [|done]. by eapply HN.
  - destruct (read_ipv6_addr s) as [[n r]|] eqn:E6; [|done]. apply consumes_ipv6 in E6 as (l & El & Hl).
    destruct r; [|done]. by eapply HN.
Qed.

(** * Host names *)

(** Printable ASCII that is not a blank. *)
Definition graphic (b : byte) : bool := (33 <=? b2z b) && (b2z b <=? 126).
Lemma graphic_chars s : Forall (fun b => graphic b = true) s -> char_list s = map b2z s.
Proof.
  intros HF. unfold char_list. rewrite chars_ascii; [done|]. apply forallb_Forall. eapply Forall_impl; [exact HF|].
  intros b Hb. unfold graphic in Hb. bool_prop. apply Z.ltb_lt. lia.
Qed.
Lemma graphic_plain s : Forall (fun b => graphic b = true) s ->
  existsb (fun c => is_control c || is_whitespace c) (char_list s) = false /\ existsb is_control (char_list s) = false.
Proof.
  intros HF. rewrite graphic_chars by done. rewrite !existsb_false, !Forall_fmap.
  split; (eapply Forall_impl; [exact HF|]); intros b Hb; destruct b; vm_compute in Hb |- *; congruence.
Qed.
Lemma addr_byte_graphic b : addr_byte b -> graphic b = true.
Proof. intros [[v Hv]|[->| ->]]; [|done..]. destruct b; vm_compute in Hv |- *; congruence. Qed.
Lemma label_byte_graphic b : label_byte b = true -> graphic b = true.
Proof. destruct b; vm_compute; congruence. Qed.
Lemma split_on_Forall (P : byte -> Prop) sep s : P sep -> Forall (Forall P) (split_on sep s) -> Forall P s.
Proof.
  intros Hs. induction s as [|b s IH]; cbn [split_on]; [done|]. case_bool_decide as Hb.
  - subst b. rewrite Forall_cons. intros [_ HF]. constructor; auto.
  - destruct (split_on sep s) as [|x l] eqn:E.
    + rewrite Forall_singleton. intros HF. inversion HF; subst. constructor; [done|]. apply IH. constructor.
    + rewrite Forall_cons. intros [Hx HF]. inversion Hx; subst. constructor; [done|]. apply IH. by constructor.
Qed.

Lemma hostname_graphic h name : validate_hostname h name = Ok tt -> Forall (fun b => graphic b = true) h.
Proof.
  unfold validate_hostname. intros Hh. bind_inv Hh. case_bool_decide as Hp.
  - destruct Hp as [ip Hip]. eapply Forall_impl; [by eapply parse_ip_bytes|]. apply addr_byte_graphic.
  - apply ensure_ok in Hh. bool_prop. match goal with Hf : forallb label_ok _ = true |- _ => apply forallb_Forall in Hf; rename Hf into HL end.
    apply (split_on_Forall _ dot); [done|]. eapply Forall_impl; [exact HL|]. intros l Hl. unfold label_ok in Hl. bool_prop.
    match goal with Hf : forallb label_byte _ = true |- _ => apply forallb_Forall in Hf; eapply Forall_impl; [exact Hf|] end.
    apply label_byte_graphic.
Qed.

(** A host name the server accepts is an endpoint the app accepts. *)
Lemma hostname_endpoint h name :
  validate_hostname h name = Ok tt -> endpoint_name_ok h = true /\ endpoint_marks h = false.
Proof.
  intros Hh. pose proof (graphic_plain _ (hostname_graphic _ _ Hh)) as [Hg _].
  unfold validate_hostname in Hh. bind_inv Hh. apply ensure_ok' in E. unfold hostname_shape in E. bool_prop.
  unfold endpoint_name_ok, endpoint_marks. rewrite !andb_true_iff, !orb_false_iff, Hg. repeat split; try done.
  all: try (by apply negb_true_iff, bool_decide_eq_false_2); try (by apply bool_decide_eq_true_2); try (by apply bool_decide_eq_false_2).
  by apply Z.leb_le.
Qed.

(** * Reading never panics *)

Definition no_panic {A} (r : result ConfigError A) : Prop := forall m, r <> Err (Panic m).

Lemma no_panic_ok {A} (a : A) : no_panic (Ok a). Proof. by intros m. Qed.
Lemma no_panic_bind {A B} (r : result ConfigError A) (k : A -> result ConfigError B) :
  no_panic r -> (forall a, r = Ok a -> no_panic (k a)) -> no_panic (let* a := r in k a).
Proof. intros Hr Hk m. destruct r as [a|e]; [by apply Hk|]. intros [= ->]. by eapply Hr. Qed.
Lemma no_panic_ensure b n m : no_panic (ensure b n m). Proof. intros x. unfold ensure, bail. by destruct b. Qed.
Lemma no_panic_bail {A} n m : no_panic (@bail A n m). Proof. by intros x. Qed.
Lemma no_panic_ok_or {A} (o : option A) n m : no_panic (ok_or o (Bail n m)). Proof. intros x. by destruct o. Qed.
Lemma no_panic_map_err {E A} (r : result E A) n m : no_panic (map_err (fun _ => Bail n m) r). Proof. intros x. by destruct r. Qed.
Lemma no_panic_ensure_all {A} (check : A -> result ConfigError unit) l : (forall a, no_panic (check a)) -> no_panic (ensure_all check l).
Proof. intros Hc. induction l as [|a l IH]; cbn [ensure_all]; [apply no_panic_ok|]. apply no_panic_bind; auto. Qed.
Lemma no_panic_transpose {A B} (f : A -> result ConfigError B) o : (forall a, no_panic (f a)) -> no_panic (transpose f o).
Proof. intros Hf. destruct o; [|apply no_panic_ok]. apply no_panic_bind; [done|]. intros; apply no_panic_ok. Qed.
Lemma no_panic_parse {T} env (f : list byte -> option T) n d : no_panic (parse_value env f n d).
Proof. unfold parse_value. destruct (env !! n); [apply no_panic_ok_or|apply no_panic_ok]. Qed.
#[local] Hint Resolve no_panic_ok no_panic_ensure no_panic_bail no_panic_ok_or no_panic_map_err no_panic_ensure_all
  no_panic_transpose no_panic_parse : no_panic.

Ltac no_panic :=
  repeat first
    [ solve [auto with no_panic]
    | apply no_panic_bind; [|intros ? ?]
    | match goal with |- no_panic (if ?b then _ else _) => destruct b eqn:? end
    | match goal with |- no_panic (match ?o with Some _ => _ | None => _ end) => destruct o eqn:? end ].

Lemma no_panic_hostname h n : no_panic (validate_hostname h n).
Proof. unfold validate_hostname. no_panic. Qed.
#[local] Hint Resolve no_panic_hostname : no_panic.
Lemma no_panic_dns_name h n : no_panic (validate_dns_name h n).
Proof. unfold validate_dns_name. no_panic. Qed.
Lemma no_panic_authority a n : no_panic (validate_authority a n).
Proof. unfold validate_authority. destruct (rsplit_once colon a) as [[h p]|]; no_panic. Qed.
Lemma no_panic_required env n : no_panic (required env n).
Proof. unfold required. no_panic. Qed.
Lemma no_panic_port env n d : no_panic (nonzero_port env n d).
Proof. unfold nonzero_port. no_panic. Qed.
Lemma no_panic_tag env n d : no_panic (bounded_tag env n d).
Proof. unfold bounded_tag. no_panic. Qed.
Lemma no_panic_fingerprint env n : no_panic (env_fingerprint env n).
Proof. unfold env_fingerprint. no_panic. Qed.
Lemma no_panic_listen h n : no_panic (validate_listen_host h n).
Proof. apply no_panic_ensure. Qed.
#[local] Hint Resolve no_panic_dns_name no_panic_authority no_panic_required no_panic_port no_panic_tag no_panic_fingerprint no_panic_listen : no_panic.

Section reading.
Context `{Ed25519, Hashes, Encodings, UrlParser, UrlOps, Hpke, Base64, Files, UrlText, !Json (list TransportProfile)}.
Context (env : Environment).

Lemma no_panic_required_hostname n : no_panic (required_hostname env n).
Proof. unfold required_hostname. no_panic. Qed.
Lemma no_panic_required_dns n : no_panic (required_dns_name env n).
Proof. unfold required_dns_name. no_panic. Qed.
Lemma no_panic_long n : no_panic (required_long env n).
Proof. unfold required_long. no_panic. Qed.
Lemma no_panic_reality_key n : no_panic (required_reality_key env n).
Proof. unfold required_reality_key. no_panic. Qed.
Lemma no_panic_wireguard_key n : no_panic (required_wireguard_key env n).
Proof. unfold required_wireguard_key. no_panic. Qed.
Lemma no_panic_material n a b : no_panic (read_openvpn_material env n a b).
Proof. unfold read_openvpn_material. no_panic. Qed.
#[local] Hint Resolve no_panic_required_hostname no_panic_required_dns no_panic_long no_panic_reality_key no_panic_wireguard_key no_panic_material : no_panic.

Lemma no_panic_updates : no_panic (client_updates_from_env env).
Proof.
  unfold client_updates_from_env, validate_download_url. no_panic.
  - assert (Hv : bool_decide (is_ok this_version) = true) by (vm_compute; reflexivity). by destruct this_version.
  - assert (Hv : bool_decide (is_ok embedded) = true) by (vm_compute; reflexivity). by destruct embedded.
Qed.
Lemma no_panic_reality : no_panic (reality_from_env env).
Proof. unfold reality_from_env, validate_target. no_panic. Qed.
Lemma no_panic_xhttp : no_panic (xhttp_from_env env).
Proof. unfold xhttp_from_env, validate_xhttp_path. no_panic. Qed.
#[local] Hint Resolve no_panic_updates no_panic_reality no_panic_xhttp : no_panic.

(** A listener the settings name has an address. *)
Definition has_address (host : list byte) : Prop := is_Some (parse_ip host).
Lemma listen_address h n u : validate_listen_host h n = Ok u -> has_address h.
Proof. intros Hh%ensure_ok'. by bool_prop. Qed.
Lemma reality_listens r : reality_from_env env = Ok r -> has_address (re_listen_host r).
Proof. unfold reality_from_env. intros Hr. bind_inv Hr. injection Hr as <-. by eapply listen_address. Qed.
Lemma xhttp_listens x : xhttp_from_env env = Ok x -> has_address (xh_listen_host x).
Proof. unfold xhttp_from_env. intros Hx. bind_inv Hx. injection Hx as <-. by eapply listen_address. Qed.
Lemma no_panic_conflict h p k q : has_address h -> has_address k -> no_panic (listeners_conflict h p k q).
Proof.
  intros [a Ha] [b Hb]. unfold listeners_conflict. rewrite Ha, Hb. cbn [expect ok_or].
  destruct (negb (p =? q)); apply no_panic_ok.
Qed.
Lemma no_panic_xray : no_panic (xray_from_env env).
Proof.
  unfold xray_from_env.
  repeat first [ solve [auto with no_panic] | apply no_panic_bind; [|intros ? ?]
               | match goal with |- no_panic (if ?b then _ else _) => destruct b eqn:? end ].
  all: unfold both, either_is, transpose in *.
  all: repeat match goal with E : (match (if ?b then _ else _) with Some _ => _ | None => _ end) = Ok _ |- _ => destruct b end.
  all: repeat match goal with E : (let* b := ?r in Ok (Some b)) = Ok _ |- _ => destruct r eqn:?; [|discriminate]; injection E as <- end.
  all: simplify_eq; auto with no_panic; apply no_panic_conflict; eauto using listen_address, reality_listens, xhttp_listens.
Qed.
End reading.

(** * Accepted settings *)

Definition secret_long (s : list byte) : Prop := 32 <= zlen s.
Definition is_port (p : Z) : Prop := 1 <= p <= u16_max.

Record shadowsocks_wf (max_sessions : Z) (s : ShadowsocksConfig) : Prop := {
  ss_ports : is_port (ss_port_start s) /\ is_port (ss_port_end s) /\ ss_port_start s <= ss_port_end s;
  ss_pool : max_sessions <= ss_port_end s - ss_port_start s + 1;
  ss_servers : max_sessions <= MAX_SHADOWSOCKS_MANAGER_SERVERS;
  ss_key : secret_long (ss_credential_key s);
}.
Record wireguard_wf `{Base64} (max_sessions : Z) (w : WireGuardConfig) : Prop := {
  wg_pool : max_sessions <= 65533;
  wg_key : secret_long (wg_credential_key w);
  wg_token : secret_long (wg_manager_token w);
  wg_public : exists key, base64_decode (wg_server_public_key w) = Some key /\ zlen key = 32;
}.
(** Key material read from a file of at most 8 KiB. *)
Definition from_material `{Files} (m : list byte) : Prop := exists path e text begin_ end_,
  file_entry path = Some e /\ file_len e <= MAX_OPENVPN_MATERIAL_BYTES /\ file_text e = Some text /\
  normalize_openvpn_material text begin_ end_ = Some m.
Record openvpn_wf `{Files} (max_sessions : Z) (o : OpenVpnConfig) : Prop := {
  ov_pool : max_sessions <= 65533;
  ov_materials : from_material (ov_ca_certificate o) /\ from_material (ov_stunnel_ca_certificate o) /\ from_material (ov_tls_crypt_key o);
  ov_tokens : secret_long (ov_manager_token o) /\ auth_token_ok (ov_auth_token o) = true /\ ov_auth_token o <> ov_manager_token o;
}.
Record reality_wf (r : XrayRealityConfig) : Prop := {
  re_named : re_sni r ∈ re_server_names r;
  re_keys : zlen (re_public_key r) = 43 /\ forallb is_base64url (re_public_key r) = true /\ re_private_key r <> re_public_key r;
  re_short : zlen (re_short_id r) = 16 /\ Forall (fun b => is_Some (to_digit 16 b)) (re_short_id r);
  re_address : has_address (re_listen_host r);
}.
(** No two listeners of one address family share a port where one of them
    listens everywhere or both on one address. *)
Definition apart (h : list byte) (p : Z) (k : list byte) (q : Z) : Prop :=
  p <> q \/ exists a b, parse_ip h = Some a /\ parse_ip k = Some b /\
    (same_family a b = false \/ (a <> b /\ bits a <> 0 /\ bits b <> 0)).
Record xray_wf (x : XrayConfig) : Prop := {
  xr_key : secret_long (xr_credential_key x);
  xr_some : is_Some (xr_reality x) \/ is_Some (xr_xhttp x);
  xr_reality_wf : forall r, xr_reality x = Some r ->
    reality_wf r /\ apart (xr_api_listen x) (xr_api_port x) (re_listen_host r) (re_listen_port r);
  xr_xhttp_wf : forall h, xr_xhttp x = Some h -> apart (xr_api_listen x) (xr_api_port x) (xh_listen_host h) (xh_listen_port h);
  xr_both : forall r h, xr_reality x = Some r -> xr_xhttp x = Some h ->
    re_inbound_tag r <> xh_inbound_tag h /\ apart (re_listen_host r) (re_listen_port r) (xh_listen_host h) (xh_listen_port h);
}.

(** [fs::metadata] reports the length of what [fs::read_to_string] reads. *)
Class FilesLaws `{Files} : Prop :=
  file_entry_len path e text : file_entry path = Some e -> file_text e = Some text -> file_len e = zlen text.

Section accepted.
Context `{Ed25519, Hashes, Encodings, UrlParser, UrlOps, Hpke, Base64, Files, UrlText, !Json (list TransportProfile)}.
Context (env : Environment).

Lemma required_long_ok n s : required_long env n = Ok s -> secret_long s.
Proof. unfold required_long. intros Hs. bind_inv Hs. injection Hs as <-. apply ensure_ok' in E0. by bool_prop. Qed.
Lemma parse_uint_value n max d v : 0 <= d <= max -> parse_value env (parse_uint max) n d = Ok v -> 0 <= v <= max.
Proof.
  intros Hd. unfold parse_value. destruct (env !! n) as [s|]; [|intros [= <-]; done].
  destruct (parse_uint max s) eqn:E; [|done]. intros [= <-]. by eapply parse_uint_bound.
Qed.
Lemma nonzero_port_ok n d p : is_port d -> nonzero_port env n d = Ok p -> is_port p.
Proof.
  unfold nonzero_port. intros Hd Hp. bind_inv Hp. injection Hp as <-. apply ensure_ok' in E0. bool_prop.
  apply parse_uint_value in E; unfold is_port in *; lia.
Qed.

Lemma shadowsocks_accepted max s : shadowsocks_from_env env max = Ok (Some s) -> shadowsocks_wf max s.
Proof.
  unfold shadowsocks_from_env. intros Hs. bind_inv Hs. injection Hs as <-.
  repeat match goal with E : ensure _ _ _ = Ok _ |- _ => apply ensure_ok' in E end. bool_prop.
  repeat match goal with E : nonzero_port _ _ _ = Ok _ |- _ => apply nonzero_port_ok in E; [|unfold is_port, u16_max; lia] end.
  split; cbn; try done. by eapply required_long_ok.
Qed.
Lemma wireguard_accepted max w : wireguard_from_env env max = Ok (Some w) -> wireguard_wf max w.
Proof.
  unfold wireguard_from_env. intros Hs. bind_inv Hs. injection Hs as <-.
  match goal with E : required_wireguard_key _ _ = Ok _ |- _ => unfold required_wireguard_key in E; bind_inv E; injection E as <- end.
  repeat match goal with E : ensure _ _ _ = Ok _ |- _ => apply ensure_ok' in E end.
  split; cbn; try by eapply required_long_ok.
  - by bool_prop.
  - match goal with E : match base64_decode ?k with _ => _ end = true |- _ => destruct (base64_decode k) as [key|]; [|done] end.
    bool_prop. by exists key.
Qed.
Lemma material_accepted n b e m : read_openvpn_material env n b e = Ok m -> from_material m.
Proof.
  unfold read_openvpn_material. intros Hm. bind_inv Hm. apply ensure_ok' in E1. bool_prop.
  destruct (file_entry a) as [x|] eqn:Ef; [|done]. injection E0 as ->. destruct (file_text a0) as [t|] eqn:Et; [|done]. injection E2 as ->.
  destruct (normalize_openvpn_material a2 b e) as [r|] eqn:En; [|done]. injection Hm as ->. by exists a, a0, a2, b, e.
Qed.
Definition obfuscation_wf (o : HysteriaObfuscation) : Prop :=
  match o with Disabled => True | Salamander password | Gecko password => secret_long password end.
Lemma hysteria_accepted h : hysteria_from_env env = Ok (Some h) -> obfuscation_wf (hy_obfuscation h) /\ secret_long (hy_stats_secret h).
Proof.
  unfold hysteria_from_env. intros Hh. bind_inv Hh. injection Hh as <-. cbn [hy_obfuscation hy_stats_secret].
  split; [|by eapply required_long_ok].
  match goal with E : obfuscation_from_env env = Ok _ |- _ => unfold obfuscation_from_env, obfuscation_password in E; rename E into HO end.
  repeat case_bool_decide; bind_inv HO; try discriminate; injection HO as <-; cbn; [done|by eapply required_long_ok..].
Qed.
Lemma openvpn_accepted max o : openvpn_from_env env max = Ok (Some o) -> openvpn_wf max o.
Proof.
  unfold openvpn_from_env. intros Hs. bind_inv Hs. injection Hs as <-.
  repeat match goal with E : ensure _ _ _ = Ok _ |- _ => apply ensure_ok' in E end.
  split; cbn; [by bool_prop| |].
  - split_and!; by eapply material_accepted.
  - split; [by eapply required_long_ok|]. split; [done|]. by bool_prop.
Qed.
Lemma lowercase_hex b : is_Some (to_digit 16 b) -> is_Some (to_digit 16 (to_ascii_lowercase b)).
Proof. intros [v Hv]. destruct b; vm_compute in Hv |- *; try (by eexists); discriminate. Qed.
Lemma reality_accepted r : reality_from_env env = Ok r -> reality_wf r.
Proof.
  intros Hr. pose proof (reality_listens _ _ Hr) as Hl. unfold reality_from_env in Hr. bind_inv Hr. injection Hr as <-.
  repeat match goal with E : required_reality_key _ _ = Ok _ |- _ => unfold required_reality_key in E; bind_inv E; injection E as <- end.
  repeat match goal with E : ensure _ _ _ = Ok _ |- _ => apply ensure_ok' in E end. bool_prop.
  split; cbn in *; try done. unfold zlen in *. rewrite length_map. split; [done|]. apply Forall_fmap.
  match goal with HF : forallb (fun b => bool_decide _) _ = true |- _ => apply forallb_Forall in HF; eapply Forall_impl; [exact HF|] end.
  intros b Hb. cbn in *. bool_prop. by apply lowercase_hex.
Qed.
Lemma conflict_false h p k q : listeners_conflict h p k q = Ok false -> apart h p k q.
Proof.
  unfold listeners_conflict, apart, expect. destruct (p =? q) eqn:Epq; bool_prop; [|by left]. cbn [negb].
  destruct (parse_ip h) as [a|], (parse_ip k) as [b|]; try done. cbn [ok_or]. intros [= Hc]. right. exists a, b.
  split; [done|]. split; [done|]. apply andb_false_iff in Hc as [Hc|Hc]; [by left|]. right. bool_prop. naive_solver.
Qed.
Lemma xray_accepted x : xray_from_env env = Ok (Some x) -> xray_wf x.
Proof.
  unfold xray_from_env. intros Hx. bind_inv Hx.
  destruct (negb a && negb a0) eqn:En; [discriminate Hx|]. bind_inv Hx. injection Hx as <-.
  repeat match goal with E : ensure (negb ?c) _ _ = Ok _ |- _ => apply ensure_ok' in E; apply negb_true_iff in E; subst c end.
  assert (HR : forall r, a6 = Some r -> reality_from_env env = Ok r).
  { intros r ->. destruct a; cbn in E6; [|done]. destruct (reality_from_env env); [by injection E6 as ->|done]. }
  split; cbn.
  - by eapply required_long_ok.
  - destruct a; cbn in E6; [left; destruct (reality_from_env env); [injection E6 as <-; by eexists|done]|].
    destruct a0; cbn in E7; [right; destruct (xhttp_from_env env); [injection E7 as <-; by eexists|done]|done].
  - intros r ->. split; [by apply reality_accepted, HR|]. by apply conflict_false.
  - intros h ->. by apply conflict_false.
  - intros r h -> ->. cbn in *. split; [|by apply conflict_false].
    match goal with E : Ok (bool_decide _) = Ok false |- _ => injection E as E; by bool_prop end.
Qed.

(** Each engine the settings enable is advertised. *)
Definition advertises (c : ServerConfig) : Prop :=
  (forall x, cfg_hysteria c = Some x -> hysteria_profile x ∈ cfg_transports c) /\
  (forall x, cfg_openvpn c = Some x -> openvpn_profile x ∈ cfg_transports c) /\
  (forall x, cfg_shadowsocks c = Some x -> shadowsocks_profile x ∈ cfg_transports c) /\
  (forall x, cfg_wireguard c = Some x -> wireguard_profile x ∈ cfg_transports c) /\
  (forall x r, cfg_xray c = Some x -> xr_reality x = Some r -> reality_profile r ∈ cfg_transports c) /\
  (forall x h, cfg_xray c = Some x -> xr_xhttp x = Some h -> xhttp_profile h ∈ cfg_transports c).

Record config_wf (c : ServerConfig) : Prop := {
  wf_admin : secret_long (admin_token c);
  wf_sessions : 1 <= cfg_max_sessions c <= u32_max;
  wf_ttl : 60 <= session_ttl c <= 86400;
  wf_transports : server_validate_transports (cfg_transports c) = Ok tt;
  wf_node : validate_node_metadata (cfg_node_id c) (cfg_node_name c) (cfg_location c) = Ok tt;
  wf_shadowsocks : forall s, cfg_shadowsocks c = Some s -> shadowsocks_wf (cfg_max_sessions c) s;
  wf_wireguard : forall w, cfg_wireguard c = Some w -> wireguard_wf (cfg_max_sessions c) w;
  wf_openvpn : forall o, cfg_openvpn c = Some o -> openvpn_wf (cfg_max_sessions c) o;
  wf_xray : forall x, cfg_xray c = Some x -> xray_wf x;
  wf_hysteria : forall h, cfg_hysteria c = Some h -> obfuscation_wf (hy_obfuscation h) /\ secret_long (hy_stats_secret h);
  wf_advertises : advertises c;
}.

Lemma unit_ok (r : result ConfigError unit) u : r = Ok u -> r = Ok tt.
Proof. by destruct u. Qed.

(** What the settings are read into is well formed. *)
Lemma from_env_wf c : from_env env = Ok c -> config_wf c.
Proof.
  unfold from_env. intros Hc. bind_inv Hc. injection Hc as <-.
  repeat match goal with E : ensure _ _ _ = Ok _ |- _ => apply ensure_ok' in E end. bool_prop.
  match goal with E : parse_value env (parse_uint u32_max) _ _ = Ok _ |- _ => apply parse_uint_value in E; [|unfold u32_max; lia] end.
  split; cbn [admin_token cfg_max_sessions session_ttl cfg_transports cfg_node_id cfg_node_name cfg_location cfg_shadowsocks
              cfg_wireguard cfg_openvpn cfg_xray cfg_hysteria]; try done; try (by eapply unit_ok); try lia.
  - intros s ->. by apply shadowsocks_accepted.
  - intros w ->. by apply wireguard_accepted.
  - intros o ->. by apply openvpn_accepted.
  - intros x ->. by apply xray_accepted.
  - intros h ->. by apply hysteria_accepted.
  - repeat split; cbn; [intros x ->|intros x ->|intros x ->|intros x ->|intros x r -> Hr|intros x h -> Hh];
      rewrite !elem_of_app; cbn; rewrite ?Hr, ?Hh; set_solver.
Qed.

Lemma no_panic_each ids l : no_panic (server_validate_each ids l).
Proof.
  revert ids; induction l as [|t l IH]; intros ids; cbn [server_validate_each]; [apply no_panic_ok|].
  apply no_panic_bind; [|auto]. unfold server_validate_transport, server_validate_identifier, server_validate_text.
  no_panic. apply no_panic_ensure_all. intros e. unfold server_validate_option, server_validate_option_key. no_panic.
Qed.
Lemma no_panic_node i n l : no_panic (validate_node_metadata i n l).
Proof. unfold validate_node_metadata, validate_location, server_validate_identifier, server_validate_text. no_panic. Qed.

#[local] Hint Resolve no_panic_updates no_panic_xray no_panic_node no_panic_each no_panic_required_hostname
  no_panic_required_dns no_panic_long no_panic_wireguard_key no_panic_material : no_panic.
Lemma no_panic_public_url v : no_panic (normalize_public_url v).
Proof. unfold normalize_public_url, server_validate_text. no_panic. Qed.
Lemma no_panic_hysteria : no_panic (hysteria_from_env env).
Proof. unfold hysteria_from_env, obfuscation_from_env, obfuscation_password. no_panic. Qed.
Lemma no_panic_openvpn m : no_panic (openvpn_from_env env m).
Proof. unfold openvpn_from_env, validate_http_manager_url. no_panic. Qed.
Lemma no_panic_shadowsocks m : no_panic (shadowsocks_from_env env m).
Proof. unfold shadowsocks_from_env. no_panic. Qed.
Lemma no_panic_wireguard m : no_panic (wireguard_from_env env m).
Proof. unfold wireguard_from_env, validate_wireguard_path_prefix. no_panic. Qed.
Lemma no_panic_location : no_panic (node_location_from_env env).
Proof. unfold node_location_from_env. no_panic. Qed.
#[local] Hint Resolve no_panic_public_url no_panic_hysteria no_panic_openvpn no_panic_shadowsocks no_panic_wireguard no_panic_location : no_panic.

(** No setting makes the server panic while it reads them. *)
Lemma from_env_no_panic : no_panic (from_env env).
Proof. unfold from_env, server_validate_transports. no_panic. Qed.
End accepted.

(** * Resource slots *)

Definition wireguard_ip (slot : Z) : IpAddr := V4 (ipv4 10 66 0 2 + slot).

Lemma show_octet_u64 n : 0 <= n < 256 -> show_u64 n = show_octet n.
Proof.
  intros Hn. assert (HF : forallb (fun n => bool_decide (show_u64 n = show_octet n)) (seqZ 0 256) = true) by (vm_compute; reflexivity).
  rewrite forallb_Forall, Forall_forall in HF. specialize (HF n ltac:(apply elem_of_seqZ; lia)). by bool_prop.
Qed.

#[local] Ltac Zify.zify_post_hook ::= Z.div_mod_to_equations.
Lemma client_address_ip slot : 0 <= slot <= 65532 -> client_address slot = Some (show_ip (wireguard_ip slot)).
Proof.
  intros Hs. unfold client_address. rewrite !(proj2 (Z.leb_le _ _)) by (unfold u32_max; lia).
  unfold wireguard_ip, show_ip, show_ipv4. cbn [map].
  assert (H0 : octet 0 (ipv4 10 66 0 2 + slot) = 10) by (unfold octet, ipv4; change (256 ^ (3 - 0)) with 16777216; lia).
  assert (H1 : octet 1 (ipv4 10 66 0 2 + slot) = 66) by (unfold octet, ipv4; change (256 ^ (3 - 1)) with 65536; lia).
  assert (H2 : octet 2 (ipv4 10 66 0 2 + slot) = Z.shiftr (slot + 2) 8).
  { rewrite Z.shiftr_div_pow2 by lia. change (2 ^ 8) with 256. unfold octet, ipv4. change (256 ^ (3 - 2)) with 256. lia. }
  assert (H3 : octet 3 (ipv4 10 66 0 2 + slot) = Z.land (slot + 2) 255).
  { change 255 with (Z.ones 8). rewrite Z.land_ones by lia. change (2 ^ 8) with 256. unfold octet, ipv4. change (256 ^ (3 - 3)) with 1. lia. }
  rewrite H0, H1, H2, H3. f_equal.
  rewrite !show_octet_u64.
  - cbn [join]. change (str "10.66.") with (show_octet 10 ++ dot :: show_octet 66 ++ [dot]).
    rewrite <- !(assoc_L (++)). cbn [app]. rewrite <- !(assoc_L (++)). done.
  - rewrite <- H3. unfold octet. change (256 ^ (3 - 3)) with 1. lia.
  - rewrite <- H2. unfold octet. change (256 ^ (3 - 2)) with 256. lia.
Qed.
Lemma wireguard_ip_ok slot : 0 <= slot <= 65532 -> addr_ok (wireguard_ip slot).
Proof. intros Hs. unfold addr_ok, wireguard_ip, ipv4. cbn. change (2 ^ 32) with 4294967296. lia. Qed.

(** Each slot has its own address, and it reads back. *)
Lemma client_address_parse slot a : 0 <= slot -> client_address slot = Some a -> slot <= 65532 /\ parse_ip a = Some (wireguard_ip slot).
Proof.
  intros Hs Ha. assert (slot <= 65532).
  { unfold client_address in Ha. destruct (slot + 2 <=? u32_max); [|done]. destruct (slot + 2 <=? 65534) eqn:E; [|done]. bool_prop. lia. }
  split; [done|]. rewrite client_address_ip in Ha by lia. assert (a = show_ip (wireguard_ip slot)) as -> by congruence.
  apply parse_show_ip, wireguard_ip_ok. lia.
Qed.
Lemma client_address_inj i j a : 0 <= i -> 0 <= j -> client_address i = Some a -> client_address j = Some a -> i = j.
Proof.
  intros Hi Hj [_ Ei]%client_address_parse [_ Ej]%client_address_parse; try done.
  rewrite Ei in Ej. injection Ej. unfold ipv4. lia.
Qed.
Lemma session_port_ok max s slot : shadowsocks_wf max s -> 0 <= slot < max ->
  session_port s slot = Some (ss_port_start s + slot) /\ ss_port_start s + slot <= ss_port_end s.
Proof.
  intros [[Hs [He Hle]] Hp _ _] Hslot. unfold is_port, u16_max in *. unfold session_port.
  rewrite !(proj2 (Z.leb_le _ _)) by (unfold u32_max; lia). rewrite Z.mod_small by lia. split; [done|lia].
Qed.

Section slots.
Context `{Ed25519, Hashes, Encodings, UrlParser, UrlOps, Hpke, Base64, Files, UrlText, !Json (list TransportProfile)}.

(** With settings the server accepted, every resource slot a session can
    hold has a Shadowsocks port inside the configured range and a WireGuard
    address inside 10.66.0.0/16, and no two slots share either: neither
    [expect] on a slot can fail. *)
Theorem slots_have_resources env c i j :
  from_env env = Ok c -> 0 <= i < cfg_max_sessions c -> 0 <= j < cfg_max_sessions c ->
  (forall s, cfg_shadowsocks c = Some s ->
    exists p, session_port s i = Some p /\ is_port p /\ ss_port_start s <= p <= ss_port_end s /\
      (session_port s j = Some p -> i = j)) /\
  (forall w, cfg_wireguard c = Some w ->
    exists a, client_address i = Some a /\ parse_ip a = Some (V4 (ipv4 10 66 0 2 + i)) /\ (client_address j = Some a -> i = j)).
Proof.
  intros Hc Hi Hj. pose proof (from_env_wf env c Hc) as W. split.
  - intros s Hs. pose proof (wf_shadowsocks _ W s Hs) as Ws. destruct (session_port_ok _ s i Ws Hi) as [Ei Ele].
    destruct (session_port_ok _ s j Ws Hj) as [Ej _]. exists (ss_port_start s + i). destruct Ws as [[Hb [He _]] _ _ _].
    unfold is_port in *. rewrite Ei, Ej. repeat split; try lia. intros [= E]. lia.
  - intros w Hw. destruct (wf_wireguard _ W w Hw) as [Hp _ _ _]. exists (show_ip (wireguard_ip i)).
    pose proof (client_address_ip i ltac:(lia)) as Ei. split; [done|]. split; [apply (parse_show_ip (wireguard_ip i)), wireguard_ip_ok; lia|].
    intros Ej. eapply client_address_inj; [..|exact Ei|exact Ej]; lia.
Qed.
End slots.
