(* ===== verification/Engines.v ===== *)
(** Model of what the server hands its engines: JSON documents
    ([serde_json::Value]), per-session keys and credentials of
    crates/ket-server/src/wireguard.rs, shadowsocks.rs and xray.rs, and the
    runtime configurations of xray.rs and hysteria.rs. *)

From Stdlib Require Import ZArith Lia List.
From stdpp Require Import gmap strings.
From S2P Require Import Prelude Order Utf8 Str Net Tunnel Grant Validation StdText Config.

(** * JSON values *)

(** [serde_json::Value]; an object's fields are in the order of their keys, and
    a number is a whole one or another float. *)
Inductive Value :=
| Null
| Bool (b : bool)
| Number (n : option Z)
| JString (s : list byte)
| Array (l : list Value)
| Object (fields : list (list byte * Value)).

Section value_ind.
Context (P : Value -> Prop).
Context (HNull : P Null) (HBool : forall b, P (Bool b)) (HNumber : forall n, P (Number n)) (HString : forall s, P (JString s)).
Context (HArray : forall l, Forall P l -> P (Array l)) (HObject : forall l, Forall (fun kv => P kv.2) l -> P (Object l)).
Fixpoint Value_ind' (v : Value) : P v :=
  match v with
  | Null => HNull | Bool b => HBool b | Number n => HNumber n | JString s => HString s
  | Array l => HArray l ((fix all (l : list Value) : Forall P l :=
      match l with [] => List.Forall_nil _ | v :: l => @ListDef.Forall_cons _ _ _ _ (Value_ind' v) (all l) end) l)
  | Object l => HObject l ((fix all (l : list (list byte * Value)) : Forall (fun kv => P kv.2) l :=
      match l with [] => List.Forall_nil _ | kv :: l => @ListDef.Forall_cons _ _ _ _ (Value_ind' kv.2) (all l) end) l)
  end.
End value_ind.

(** [json!({..})], [Map::get], [as_str], [as_u64] and [value[key] = ..]. *)
Definition object (fields : list (list byte * Value)) : Value := Object (sort_by_key fst fields).
Fixpoint json_get (fields : list (list byte * Value)) (key : list byte) : option Value :=
  match fields with [] => None | (k, v) :: fields => if bool_decide (k = key) then Some v else json_get fields key end.
Definition as_str (v : Value) : option (list byte) := match v with JString s => Some s | _ => None end.
Definition as_u64 (v : Value) : option Z :=
  match v with Number (Some n) => if (0 <=? n) && (n <=? u64_max) then Some n else None | _ => None end.
Definition json_insert (key : list byte) (new : Value) (v : Value) : Value :=
  match v with
  | Object fields => object ((key, new) :: filter (fun kv => kv.1 <> key) fields)
  | v => v
  end.

Definition text (s : string) : Value := JString (str s).
Definition number (n : Z) : Value := Number (Some n).
Notation "k ::= v" := (pair (str k) v) (at level 60) : ket_scope.

(** * Keys of a session (wireguard.rs, shadowsocks.rs, xray.rs) *)

(** [ManagedPeer], [ReconcilePeers], [RemovePeers] and [PeerStatus]. *)
Record ManagedPeer := mkPeer { peer_private_key : list byte; peer_preshared_key : list byte; peer_address : list byte }.
Record ReconcilePeers := mkReconcilePeers { reconcile_peers_of : list ManagedPeer }.
Record RemovePeers := mkRemovePeers { remove_addresses : list (list byte) }.
Record PeerStatus := mkPeerStatus {
  ps_public_key : list byte; ps_address : list byte; ps_latest_handshake : Z; ps_bytes_received : Z; ps_bytes_sent : Z;
}.

(** [OpenVpnSessionStatus], [ReconcileOpenVpnSessions] and
    [RemoveOpenVpnSessions] (openvpn.rs). *)
Record OpenVpnSessionStatus := mkOpenVpnStatus {
  os_username : list byte; os_virtual_address : list byte; os_connected_since : Z; os_bytes_received : Z; os_bytes_sent : Z;
}.
Record ReconcileOpenVpnSessions := mkReconcileOpenVpn { reconcile_usernames : list (list byte) }.
Record RemoveOpenVpnSessions := mkRemoveOpenVpn { remove_usernames : list (list byte) }.
Definition valid_session_username (username : list byte) : bool := (zlen username =? 12) && forallb is_ascii_alphanumeric username.

Definition PRIVATE_KEY_CONTEXT : list byte := str "ket-wireguard-client-private-key-v1" ++ [z2b 0].
Definition PRESHARED_KEY_CONTEXT : list byte := str "ket-wireguard-preshared-key-v1" ++ [z2b 0].
Definition KEY_CONTEXT : list byte := str "ket-shadowsocks-2022-session-key-v1" ++ [z2b 0].
Definition UUID_CONTEXT : list byte := str "ket-vless-reality-session-v1" ++ [z2b 0].

Section keys.
Context `{Hmac, Base64}.

Definition derive_key (c : WireGuardConfig) (context session_id : list byte) : list byte :=
  base64_encode (hmac_sha256 (wg_credential_key c) (context ++ session_id)).
(** [managed_peer]; [None] where the slot has no address, which panics. *)
Definition managed_peer (c : WireGuardConfig) (session_id : list byte) (resource_slot : Z) : option ManagedPeer :=
  match client_address resource_slot with
  | Some address => Some (mkPeer (derive_key c PRIVATE_KEY_CONTEXT session_id) (derive_key c PRESHARED_KEY_CONTEXT session_id) address)
  | None => None
  end.
(** [wireguard::session_credential], which takes the keys of slot 0's peer. *)
Definition wireguard_credential (c : WireGuardConfig) (session_id : list byte) : option TransportCredential :=
  match managed_peer c session_id 0 with
  | Some peer => Some (mkCredential (peer_private_key peer)
      (options_of [("preshared_key"%string, peer_preshared_key peer); ("server_public_key"%string, wg_server_public_key c)]))
  | None => None
  end.

Definition session_key (c : ShadowsocksConfig) (session_id : list byte) : list byte :=
  base64_encode (hmac_sha256 (ss_credential_key c) (KEY_CONTEXT ++ session_id)).
Definition shadowsocks_credential (c : ShadowsocksConfig) (session_id : list byte) : TransportCredential :=
  mkCredential (session_key c session_id) ∅.

(** [session_uuid]: the version and variant bits of RFC 4122 over the first 16
    bytes, as hexadecimal in groups. *)
Definition hex2 (b : byte) : list byte := [hex_digit (b2z b / 16); hex_digit (b2z b mod 16)].
Definition set_bits (i : nat) (keep set : Z) (bytes : list byte) : list byte :=
  alter (fun b => z2b (Z.lor (Z.land (b2z b) keep) set)) i bytes.
Definition uuid_text (bytes : list byte) : list byte :=
  let hex l := flat_map hex2 l in
  hex (take 4 bytes) ++ hyphen :: hex (take 2 (drop 4 bytes)) ++ hyphen :: hex (take 2 (drop 6 bytes))
  ++ hyphen :: hex (take 2 (drop 8 bytes)) ++ hyphen :: hex (take 6 (drop 10 bytes)).
Definition session_uuid (c : XrayConfig) (session_id : list byte) : list byte :=
  let digest := hmac_sha256 (xr_credential_key c) (UUID_CONTEXT ++ session_id) in
  uuid_text (set_bits 8 0x3f 0x80 (set_bits 6 0x0f 0x40 (take 16 digest))).
Definition session_email (session_id : list byte) : list byte := str "session-" ++ session_id ++ str "@ket.invalid".

(** [xray::session_credential]. *)
Definition xray_credential (c : XrayConfig) (transport_id session_id : list byte) : option TransportCredential :=
  match (match xr_reality c with Some r => if bool_decide (re_transport_id r = transport_id) then Some r else None | None => None end) with
  | Some r => Some (mkCredential (session_uuid c session_id)
      (options_of [("reality_password"%string, re_public_key r); ("reality_short_id"%string, re_short_id r)]))
  | None =>
    match xr_xhttp c with
    | Some x => if bool_decide (xh_transport_id x = transport_id) then Some (mkCredential (session_uuid c session_id) ∅) else None
    | None => None
    end
  end.
Definition inbound_tags (c : XrayConfig) : list (list byte) :=
  option_list (re_inbound_tag <$> xr_reality c) ++ option_list (xh_inbound_tag <$> xr_xhttp c).

Definition user_document (tag listen_host : list byte) (listen_port : Z) (uuid email : list byte) (flow : option (list byte)) : Value :=
  let client := object ["id" ::= JString uuid; "email" ::= JString email] in
  let client := match flow with Some flow => json_insert (str "flow") (JString flow) client | None => client end in
  object ["inbounds" ::= Array [object [
    "listen" ::= JString listen_host; "port" ::= number listen_port; "tag" ::= JString tag; "protocol" ::= text "vless";
    "settings" ::= object ["clients" ::= Array [client]; "decryption" ::= text "none"]]]].
Definition user_documents (c : XrayConfig) (session_id : list byte) : list Value :=
  let uuid := session_uuid c session_id in
  let email := session_email session_id in
  option_list ((fun r => user_document (re_inbound_tag r) (re_listen_host r) (re_listen_port r) uuid email (Some (str "xtls-rprx-vision")))
                 <$> xr_reality c)
  ++ option_list ((fun x => user_document (xh_inbound_tag x) (xh_listen_host x) (xh_listen_port x) uuid email None) <$> xr_xhttp c).
End keys.

(** * Runtime configurations *)

Definition PRIVATE_DESTINATIONS : list Value := map text
  ["0.0.0.0/8"; "10.0.0.0/8"; "100.64.0.0/10"; "127.0.0.0/8"; "169.254.0.0/16"; "172.16.0.0/12"; "192.168.0.0/16";
   "224.0.0.0/4"; "::1/128"; "fc00::/7"; "fe80::/10"; "ff00::/8"]%string.
Definition sniffing : Value :=
  object ["enabled" ::= Bool true; "destOverride" ::= Array (map text ["http"; "tls"; "quic"]%string); "routeOnly" ::= Bool true].
Definition reality_inbound (c : XrayRealityConfig) : Value :=
  object ["listen" ::= JString (re_listen_host c); "port" ::= number (re_listen_port c); "protocol" ::= text "vless";
    "tag" ::= JString (re_inbound_tag c); "settings" ::= object ["clients" ::= Array []; "decryption" ::= text "none"];
    "streamSettings" ::= object ["network" ::= text "raw"; "security" ::= text "reality";
      "realitySettings" ::= object ["show" ::= Bool false; "target" ::= JString (re_target c); "xver" ::= number 0;
        "serverNames" ::= Array (map JString (re_server_names c)); "privateKey" ::= JString (re_private_key c);
        "shortIds" ::= Array [JString (re_short_id c)]]];
    "sniffing" ::= sniffing].
Definition xhttp_inbound (c : XrayXhttpConfig) : Value :=
  object ["listen" ::= JString (xh_listen_host c); "port" ::= number (xh_listen_port c); "protocol" ::= text "vless";
    "tag" ::= JString (xh_inbound_tag c); "settings" ::= object ["clients" ::= Array []; "decryption" ::= text "none"];
    "streamSettings" ::= object ["network" ::= text "xhttp"; "security" ::= text "none";
      "xhttpSettings" ::= object ["path" ::= JString (xh_path c); "mode" ::= text "packet-up"]];
    "sniffing" ::= sniffing].
Definition xray_runtime_config (c : XrayConfig) : Value :=
  let inbounds :=
    [object ["listen" ::= JString (xr_api_listen c); "port" ::= number (xr_api_port c); "protocol" ::= text "dokodemo-door";
             "tag" ::= text "api-in"; "settings" ::= object ["address" ::= text "127.0.0.1"]]]
    ++ option_list (reality_inbound <$> xr_reality c) ++ option_list (xhttp_inbound <$> xr_xhttp c) in
  let field l := object (("type" ::= text "field") :: l) in
  object ["log" ::= object ["access" ::= text "none"; "dnsLog" ::= Bool false; "loglevel" ::= text "warning"];
    "api" ::= object ["tag" ::= text "api"; "services" ::= Array (map text ["HandlerService"; "StatsService"]%string)];
    "stats" ::= object [];
    "policy" ::= object [
      "levels" ::= object ["0" ::= object ["statsUserUplink" ::= Bool true; "statsUserDownlink" ::= Bool true]];
      "system" ::= object ["statsInboundUplink" ::= Bool true; "statsInboundDownlink" ::= Bool true]];
    "inbounds" ::= Array inbounds;
    "outbounds" ::= Array [
      object ["protocol" ::= text "freedom"; "tag" ::= text "direct"; "settings" ::= object ["domainStrategy" ::= text "UseIP"]];
      object ["protocol" ::= text "blackhole"; "tag" ::= text "blocked"]];
    "routing" ::= object ["domainStrategy" ::= text "IPIfNonMatch"; "rules" ::= Array [
      field ["inboundTag" ::= Array [text "api-in"]; "outboundTag" ::= text "api"];
      field ["ip" ::= Array PRIVATE_DESTINATIONS; "outboundTag" ::= text "blocked"];
      field ["network" ::= text "tcp"; "port" ::= text "25,465,587"; "outboundTag" ::= text "blocked"];
      field ["protocol" ::= Array [text "bittorrent"]; "outboundTag" ::= text "blocked"]]]].

(** [hysteria::render_runtime_config]. *)
Definition hysteria_acl : list Value := map text
  ["reject(0.0.0.0/8)"; "reject(10.0.0.0/8)"; "reject(100.64.0.0/10)"; "reject(127.0.0.0/8)"; "reject(169.254.0.0/16)";
   "reject(172.16.0.0/12)"; "reject(192.168.0.0/16)"; "reject(198.18.0.0/15)"; "reject(224.0.0.0/4)"; "reject(::1/128)";
   "reject(fc00::/7)"; "reject(fe80::/10)"; "reject(ff00::/8)"; "reject(all, tcp/25)"; "reject(all, tcp/465)";
   "reject(all, tcp/587)"; "direct(all)"]%string.
Definition hysteria_runtime_config (c : HysteriaConfig) : Value :=
  let document := object ["listen" ::= JString (hy_listen c);
    "tls" ::= object ["cert" ::= JString (hy_tls_cert_path c); "key" ::= JString (hy_tls_key_path c); "sniGuard" ::= text "strict"];
    "auth" ::= object ["type" ::= text "http"; "http" ::= object ["url" ::= JString (hy_auth_url c); "insecure" ::= Bool false]];
    "trafficStats" ::= object ["listen" ::= text ":9999"; "secret" ::= JString (hy_stats_secret c)];
    "disableUDP" ::= Bool false; "speedTest" ::= Bool false; "acl" ::= object ["inline" ::= Array hysteria_acl];
    "masquerade" ::= object ["type" ::= text "proxy"; "proxy" ::= object ["url" ::= JString (hy_masquerade_url c);
      "rewriteHost" ::= Bool true; "insecure" ::= Bool false; "xForwarded" ::= Bool false]]] in
  match hy_obfuscation c with
  | Disabled => document
  | Salamander password => json_insert (str "obfs")
      (object ["type" ::= text "salamander"; "salamander" ::= object ["password" ::= JString password]]) document
  | Gecko password => json_insert (str "obfs")
      (object ["type" ::= text "gecko"; "gecko" ::= object ["password" ::= JString password; "minPacketSize" ::= number 512;
         "maxPacketSize" ::= number 1200]]) document
  end.
