(* ===== verification/DataPlane.v ===== *)
(** Model of crates/ket-server/src/data_plane.rs: the control interface of an
    engine, the server without engines, and several engines as one. *)

From Stdlib Require Import ZArith Lia.
From stdpp Require Import gmap strings.
From S2P Require Import Prelude Utf8 Str Contract Meter.

(** [DataPlaneError]; the errors of the HTTP client, of JSON and of I/O are
    their texts.  [Panicked] stands for a failed [expect]. *)
Inductive DataPlaneError :=
| InvalidUrl
| BuildFailed (reason : list byte)
| RequestFailed (reason : list byte)
| TimedOut
| BodyFailed (reason : list byte)
| BadStatus (status : list byte)
| ResponseTooLarge
| DecodeFailed (reason : list byte)
| IoFailed (reason : list byte)
| Command (message : list byte)
| Composite (message : list byte)
| Panicked (message : list byte).

(** [Display]. *)
Definition dp_display (e : DataPlaneError) : list byte :=
  match e with
  | InvalidUrl => str "data-plane URL is invalid"
  | BuildFailed r => str "data-plane request could not be built: " ++ r
  | RequestFailed r => str "data-plane request failed: " ++ r
  | TimedOut => str "data-plane operation timed out"
  | BodyFailed r => str "data-plane response body failed: " ++ r
  | BadStatus s => str "data-plane returned HTTP " ++ s
  | ResponseTooLarge => str "data-plane returned too much data"
  | DecodeFailed r => str "data-plane response is invalid: " ++ r
  | IoFailed r => str "data-plane I/O failed: " ++ r
  | Command m => str "data-plane command failed: " ++ m
  | Composite m => str "data-plane controls failed: " ++ m
  | Panicked m => m
  end.

(** [failures.join(sep)]. *)
Fixpoint join_str (sep : list byte) (pieces : list (list byte)) : list byte :=
  match pieces with
  | [] => []
  | [p] => p
  | p :: pieces => p ++ sep ++ join_str sep pieces
  end.
Definition join_failures (failures : list DataPlaneError) : list byte := join_str (str "; ") (map dp_display failures).

(** * Actions *)

(** The engines and the clock are a state [W]; an action reads and changes it.
    [do!] is [let x = m.await?;]. *)
Section actions.
Context {W : Type}.
Definition act (A : Type) : Type := W -> result DataPlaneError A * W.
Definition done_with {A} (a : A) : act A := fun w => (Ok a, w).
Definition failing {A} (e : DataPlaneError) : act A := fun w => (Err e, w).
Definition lift {A} (r : result DataPlaneError A) : act A := fun w => (r, w).
Definition bind_act {A B} (m : act A) (k : A -> act B) : act B := fun w =>
  let '(r, w) := m w in match r with Ok a => k a w | Err e => (Err e, w) end.
(** The outcome of an action, whichever it is. *)
Definition attempt {A B} (m : act A) (k : result DataPlaneError A -> act B) : act B := fun w => let '(r, w) := m w in k r w.
Definition asking {A B} (m : W -> A * W) (k : A -> act B) : act B := fun w => let '(a, w) := m w in k a w.
Fixpoint each {A} (f : A -> act unit) (l : list A) : act unit :=
  match l with [] => done_with tt | a :: l => bind_act (f a) (fun _ => each f l) end.
End actions.
Arguments act : clear implicits.
Notation "'do!' x ':=' m 'in' k" := (bind_act m (fun x => k))
  (at level 200, x pattern, m at level 100, k at level 200, format "'[v' 'do!'  x  ':='  m  'in' '/' k ']'") : ket_scope.
Notation "'try!' x ':=' m 'in' k" := (attempt m (fun x => k))
  (at level 200, x pattern, m at level 100, k at level 200, format "'[v' 'try!'  x  ':='  m  'in' '/' k ']'") : ket_scope.
Notation "'ask!' x ':=' m 'in' k" := (asking m (fun x => k))
  (at level 200, x pattern, m at level 100, k at level 200, format "'[v' 'ask!'  x  ':='  m  'in' '/' k ']'") : ket_scope.

(** * The interface *)

(** [trait DataPlaneControl]. *)
Record DataPlaneControl (W : Type) := mkControl {
  healthy : W -> bool * W;
  provision : SessionAllocation -> act W unit;
  reconcile : list SessionAllocation -> act W unit;
  traffic : SessionAllocation -> act W SessionTraffic;
  usage : list SessionAllocation -> act W (list UsageReading);
  kick : list SessionAllocation -> act W unit;
}.
Arguments mkControl {W}.
Arguments healthy {W}. Arguments provision {W}. Arguments reconcile {W}.
Arguments traffic {W}. Arguments usage {W}. Arguments kick {W}.

(** [unix_time]. *)
Class EngineClock (W : Type) := engine_time : W -> Z * W.

(** [UsageReading::new] and [session_ids]. *)
Definition reading_new (session_id : list byte) (since bytes : Z) : UsageReading := mkReading 0 session_id since bytes.
Definition session_ids (sessions : list SessionAllocation) : gset (list byte) := list_to_set (map al_id sessions).

Section controls.
Context {W : Type} `{EngineClock W}.

Definition unavailable_traffic : W -> SessionTraffic * W := fun w =>
  let '(now, w) := engine_time w in (mkTraffic false 0 0 0 now, w).

Definition NoDataPlane : DataPlaneControl W := mkControl
  (fun w => (true, w)) (fun _ => done_with tt) (fun _ => done_with tt)
  (fun _ => ask! t := unavailable_traffic in done_with t) (fun _ => done_with []) (fun _ => done_with tt).

(** * CompositeDataPlane *)

Fixpoint all_healthy (controls : list (DataPlaneControl W)) (w : W) : bool * W :=
  match controls with
  | [] => (true, w)
  | c :: controls => let '(ok, w) := healthy c w in if ok then all_healthy controls w else (false, w)
  end.

(** The rollback of [provision]: the outcomes are dropped. *)
Fixpoint kick_back (completed : list (DataPlaneControl W)) (session : SessionAllocation) (w : W) : W :=
  match completed with
  | [] => w
  | c :: completed => kick_back completed session (snd (kick c [session] w))
  end.
(** [completed] is in the order it is undone. *)
Fixpoint provision_all (controls completed : list (DataPlaneControl W)) (session : SessionAllocation) : act W unit := fun w =>
  match controls with
  | [] => (Ok tt, w)
  | c :: controls =>
    let '(r, w) := provision c session w in
    match r with
    | Err e => (Err e, kick_back completed session w)
    | Ok _ => provision_all controls (c :: completed) session w
    end
  end.

(** [run_all]. *)
Fixpoint run_each (controls : list (DataPlaneControl W)) (operation : DataPlaneControl W -> act W unit) (w : W) : list DataPlaneError * W :=
  match controls with
  | [] => ([], w)
  | c :: controls =>
    let '(r, w) := operation c w in
    let '(failures, w) := run_each controls operation w in
    (match r with Ok _ => failures | Err e => e :: failures end, w)
  end.
Definition run_all (controls : list (DataPlaneControl W)) (operation : DataPlaneControl W -> act W unit) : act W unit := fun w =>
  let '(failures, w) := run_each controls operation w in
  (if bool_decide (length failures = 0%nat) then Ok tt else Err (Composite (join_failures failures)), w).

(** [saturating_add] on [u32]. *)
Definition sat_add32 (a b : Z) : Z := Z.min (a + b) u32_max.
Definition add_traffic (a t : SessionTraffic) : SessionTraffic :=
  mkTraffic (available a || available t) (sat_add64 (traffic_sent a) (traffic_sent t))
    (sat_add64 (traffic_received a) (traffic_received t)) (sat_add32 (online_connections a) (online_connections t))
    (Z.max (traffic_observed_at a) (traffic_observed_at t)).
Fixpoint traffic_each (controls : list (DataPlaneControl W)) (session : SessionAllocation) (aggregate : SessionTraffic)
    (failures : list DataPlaneError) (w : W) : SessionTraffic * list DataPlaneError * W :=
  match controls with
  | [] => (aggregate, failures, w)
  | c :: controls =>
    let '(r, w) := traffic c session w in
    match r with
    | Ok t => traffic_each controls session (add_traffic aggregate t) failures w
    | Err e => traffic_each controls session aggregate (failures ++ [e]) w
    end
  end.
Definition composite_traffic (controls : list (DataPlaneControl W)) (session : SessionAllocation) : act W SessionTraffic := fun w =>
  let '(aggregate, w) := unavailable_traffic w in
  let '(aggregate, failures, w) := traffic_each controls session aggregate [] w in
  (if available aggregate || bool_decide (length failures = 0%nat) then Ok aggregate else Err (Composite (join_failures failures)), w).

(** The readings of each engine are marked with its position. *)
Definition with_engine (engine : Z) (r : UsageReading) : UsageReading := mkReading engine (r_session_id r) (r_since r) (r_bytes r).
Fixpoint usage_each (engine : Z) (controls : list (DataPlaneControl W)) (sessions : list SessionAllocation)
    (w : W) : list UsageReading * list DataPlaneError * W :=
  match controls with
  | [] => ([], [], w)
  | c :: controls =>
    let '(r, w) := usage c sessions w in
    let '(readings, failures, w) := usage_each (engine + 1) controls sessions w in
    match r with
    | Ok rs => (map (with_engine engine) rs ++ readings, failures, w)
    | Err e => (readings, e :: failures, w)
    end
  end.
Definition composite_usage (controls : list (DataPlaneControl W)) (sessions : list SessionAllocation) : act W (list UsageReading) := fun w =>
  let '(readings, failures, w) := usage_each 0 controls sessions w in
  (if (length failures =? length controls)%nat then Err (Composite (join_failures failures)) else Ok readings, w).

Definition CompositeDataPlane (controls : list (DataPlaneControl W)) : DataPlaneControl W := mkControl
  (all_healthy controls)
  (provision_all controls [])
  (fun sessions => run_all controls (fun c => reconcile c sessions))
  (composite_traffic controls)
  (composite_usage controls)
  (fun sessions => run_all controls (fun c => kick c sessions)).

(** The last step of [from_config]. *)
Definition combine_controls (controls : list (DataPlaneControl W)) : DataPlaneControl W :=
  match controls with
  | [] => NoDataPlane
  | [c] => c
  | controls => CompositeDataPlane controls
  end.
End controls.
