(* ===== verification/EngineControls.v ===== *)
(** Model of the engine controls of crates/ket-server/src/data_plane.rs: the
    managers the server reaches over HTTP (OpenVPN, WireGuard, Hysteria 2) and
    over UDP (Shadowsocks), and the Xray command line, with the parsing of what
    they answer. *)

From Stdlib Require Import ZArith Lia.
From stdpp Require Import gmap strings.
From S2P Require Import Prelude Order Utf8 Str Net Tunnel Contract Control Validation Meter StdText Config Engines DataPlane.

Definition MAX_STATS_RESPONSE_BYTES : Z := 1024 * 1024.
Definition MAX_COMMAND_OUTPUT_BYTES : Z := 64 * 1024.
Definition MAX_MANAGER_COMMAND_BYTES : Z := 4 * 1024.
Definition MAX_MANAGER_RESPONSE_BYTES : Z := 64 * 1024.
Definition SHADOWSOCKS_MANAGER_TIMEOUT : Z := 3.
Definition XRAY_COMMAND_TIMEOUT : Z := 5.

(** * What the controls reach *)

Inductive HttpMethod := HttpGet | HttpPut | HttpPost.
Record HttpRequest := mkHttp {
  hr_method : HttpMethod; hr_uri : list byte; hr_authorization : list byte; hr_json : bool; hr_body : list byte; hr_timeout : Z;
}.
(** What the HTTP client reports within the timeout, in seconds; the body is
    read after the status. *)
Inductive HttpOutcome := HttpTimeout | HttpFailed (reason : list byte) | HttpAnswer (status : Z) (body : result (list byte) (list byte)).
(** One datagram to the manager and its answer, within the timeout. *)
Inductive UdpOutcome := UdpTimeout | UdpFailed (reason : list byte) | UdpShort | UdpAnswer (data : list byte).
(** [Output] of a child process. *)
Record Output := mkOutput { out_success : bool; out_stdout : list byte; out_stderr : list byte }.
Inductive RunOutcome := RunTimeout | RunFailed (reason : list byte) | Ran (output : Output).

Class EngineWorld (W : Type) := {
  world_http : HttpRequest -> W -> HttpOutcome * W;
  world_udp : list byte -> list byte -> Z -> W -> UdpOutcome * W;
  world_run : list byte -> list (list byte) -> Z -> W -> RunOutcome * W;
  (** [create_new] with mode 0600, write and sync; [remove_file]. *)
  world_create : list byte -> list byte -> W -> option (list byte) * W;
  world_remove : list byte -> W -> option (list byte) * W;
  (** [temp_dir().join(name)]. *)
  temp_file : list byte -> list byte;
}.
(** [http::Uri]: its scheme and whether it has an authority. *)
Class UriParser := uri_parse : list byte -> option (option (list byte) * bool).
(** [StatusCode]'s [Display], and the text of a JSON error. *)
Class Texts := { status_text : Z -> list byte; json_error : list byte }.

(** [HysteriaTraffic] and [ShadowsocksAddRequest]. *)
Record HysteriaTraffic := mkHysteriaTraffic { ht_tx : Z; ht_rx : Z }.
Record ShadowsocksAddRequest := mkAdd { add_server_port : Z; add_password : list byte; add_method : list byte; add_mode : list byte }.

(** The JSON the controls exchange. *)
Class EngineJson := {
  json_peer :: Json ManagedPeer; json_reconcile_peers :: Json ReconcilePeers; json_remove_peers :: Json RemovePeers;
  json_peers :: Json (list PeerStatus); json_openvpn :: Json (list OpenVpnSessionStatus);
  json_reconcile_openvpn :: Json ReconcileOpenVpnSessions; json_remove_openvpn :: Json RemoveOpenVpnSessions;
  json_names :: Json (list (list byte)); json_hysteria :: Json (gmap (list byte) HysteriaTraffic);
  json_online :: Json (gmap (list byte) Z); json_ports :: Json (gmap Z Z); json_add :: Json ShadowsocksAddRequest; json_value :: Json Value;
}.

Section controls.
Context {W : Type} `{EngineClock W, EngineWorld W, UriParser, Texts, HeaderValues, EngineJson, Hmac, Base64}.

Definition encode {T} `{Json T} (v : T) : result DataPlaneError (list byte) := ok_or (json_to_vec v) (DecodeFailed json_error).
Definition decode {T} `{Json T} (bytes : list byte) : result DataPlaneError T := ok_or (json_from_slice bytes) (DecodeFailed json_error).

(** * Managers over HTTP *)

(** The checks of [new], [uri], and [send] with its timeout and size limit. *)
Definition manager_new (url : list byte) : result DataPlaneError unit :=
  match uri_parse url with
  | Some (Some scheme, true) => if bool_decide (scheme = str "http") then Ok tt else Err InvalidUrl
  | _ => Err InvalidUrl
  end.
Definition manager_uri (base path : list byte) : result DataPlaneError (list byte) :=
  match uri_parse (base ++ path) with Some _ => Ok (base ++ path) | None => Err InvalidUrl end.
Definition success (status : Z) : bool := (200 <=? status) && (status <=? 299).
Definition http_send (limit : option Z) (request : HttpRequest) : act W (list byte) := fun w =>
  let '(outcome, w) := world_http request w in
  (match outcome with
   | HttpTimeout => Err TimedOut
   | HttpFailed r => Err (RequestFailed r)
   | HttpAnswer status body =>
     if negb (success status) then Err (BadStatus (status_text status))
     else match limit with
          | None => Ok []
          | Some limit =>
            match body with
            | Err r => Err (BodyFailed r)
            | Ok bytes => if limit <? zlen bytes then Err ResponseTooLarge else Ok bytes
            end
          end
   end, w).
Definition build (request : HttpRequest) : result DataPlaneError HttpRequest :=
  if header_value_ok (hr_authorization request) then Ok request else Err (BuildFailed (str "failed to parse header value")).
Definition bearer (token : list byte) : list byte := str "Bearer " ++ token.

(** [OpenVpnControl]. *)
Definition openvpn_request {T} `{Json T} (c : OpenVpnConfig) (method : HttpMethod) (path : list byte) (body : T) : act W (list byte) :=
  do! uri := lift (manager_uri (ov_manager_url c) path) in
  do! encoded := lift (encode body) in
  do! request := lift (build (mkHttp method uri (bearer (ov_manager_token c)) true encoded 5)) in
  http_send (Some (MAX_STATS_RESPONSE_BYTES * 8)) request.
Definition openvpn_get (c : OpenVpnConfig) (path : list byte) : act W (list byte) :=
  do! uri := lift (manager_uri (ov_manager_url c) path) in
  do! request := lift (build (mkHttp HttpGet uri (bearer (ov_manager_token c)) false [] 5)) in
  http_send (Some (MAX_STATS_RESPONSE_BYTES * 8)) request.
Definition openvpn_sessions (c : OpenVpnConfig) : act W (list OpenVpnSessionStatus) :=
  do! bytes := openvpn_get c (str "/v1/sessions") in lift (decode bytes).
Definition openvpn_session_traffic (status : option OpenVpnSessionStatus) (observed_at : Z) : SessionTraffic :=
  mkTraffic true (match status with Some s => os_bytes_received s | None => 0 end)
    (match status with Some s => os_bytes_sent s | None => 0 end) (match status with Some _ => 1 | None => 0 end) observed_at.
Definition openvpn_healthy (c : OpenVpnConfig) (w : W) : bool * W :=
  let '(r, w) := openvpn_get c (str "/healthz") w in (is_ok r, w).
Definition OpenVpnControl (c : OpenVpnConfig) : DataPlaneControl W := mkControl
  (openvpn_healthy c)
  (fun _ => ask! ok := openvpn_healthy c in
            if ok : bool then done_with tt else failing (Command (str "OpenVPN manager is unavailable")))
  (fun sessions => do! _ := openvpn_request c HttpPut (str "/v1/sessions/reconcile") (mkReconcileOpenVpn (map al_id sessions)) in done_with tt)
  (fun session =>
    do! statuses := openvpn_sessions c in
    ask! now := engine_time in
    done_with (openvpn_session_traffic (head (filter (fun s => os_username s = al_id session) statuses)) now))
  (fun sessions =>
    do! statuses := openvpn_sessions c in
    done_with (map (fun s => reading_new (os_username s) (os_connected_since s) (sat_add64 (os_bytes_received s) (os_bytes_sent s)))
                 (filter (fun s => os_username s ∈ session_ids sessions) statuses)))
  (fun sessions => do! _ := openvpn_request c HttpPost (str "/v1/sessions/remove") (mkRemoveOpenVpn (map al_id sessions)) in done_with tt).

(** [WireGuardControl]. *)
Definition wireguard_request {T} `{Json T} (c : WireGuardConfig) (method : HttpMethod) (path : list byte) (body : T) : act W (list byte) :=
  do! encoded := lift (encode body) in
  do! uri := lift (manager_uri (wg_manager_url c) path) in
  do! request := lift (build (mkHttp method uri (bearer (wg_manager_token c)) true encoded 5)) in
  http_send (Some (MAX_STATS_RESPONSE_BYTES * 32)) request.
Definition wireguard_get (c : WireGuardConfig) (path : list byte) : act W (list byte) :=
  do! uri := lift (manager_uri (wg_manager_url c) path) in
  do! request := lift (build (mkHttp HttpGet uri (bearer (wg_manager_token c)) false [] 5)) in
  http_send (Some (MAX_STATS_RESPONSE_BYTES * 32)) request.
Definition wireguard_peers (c : WireGuardConfig) : act W (list PeerStatus) :=
  do! bytes := wireguard_get c (str "/v1/peers") in lift (decode bytes).
Definition slot_panic : DataPlaneError := Panicked (str "validated WireGuard capacity covers every resource slot").
Definition peer_of (c : WireGuardConfig) (s : SessionAllocation) : result DataPlaneError ManagedPeer :=
  ok_or (managed_peer c (al_id s) (al_resource_slot s)) slot_panic.
Definition address_of (s : SessionAllocation) : result DataPlaneError (list byte) := ok_or (client_address (al_resource_slot s)) slot_panic.
Definition wireguard_session_traffic (peer : option PeerStatus) (observed_at : Z) : SessionTraffic :=
  mkTraffic true (match peer with Some p => ps_bytes_received p | None => 0 end) (match peer with Some p => ps_bytes_sent p | None => 0 end)
    (match peer with
     | Some p => if (0 <? ps_latest_handshake p) && (sat_sub64 observed_at (ps_latest_handshake p) <=? 180) then 1 else 0
     | None => 0
     end) observed_at.
Definition WireGuardControl (c : WireGuardConfig) : DataPlaneControl W := mkControl
  (fun w => let '(r, w) := wireguard_get c (str "/healthz") w in (is_ok r, w))
  (fun session =>
    do! peer := lift (peer_of c session) in
    do! _ := wireguard_request c HttpPut (str "/v1/peers") peer in done_with tt)
  (fun sessions =>
    do! peers := lift (collect (peer_of c) sessions) in
    do! _ := wireguard_request c HttpPut (str "/v1/peers/reconcile") (mkReconcilePeers peers) in done_with tt)
  (fun session =>
    do! address := lift (address_of session) in
    do! peers := wireguard_peers c in
    ask! now := engine_time in
    done_with (wireguard_session_traffic (head (filter (fun p => ps_address p = address) peers)) now))
  (fun sessions =>
    do! addresses := lift (collect address_of sessions) in
    (** A [HashMap]: the last session of an address is the one kept. *)
    let by_address : gmap (list byte) (list byte) :=
      fold_left (fun m kv => <[kv.1 := kv.2]> m) (zip addresses (map al_id sessions)) ∅ in
    do! peers := wireguard_peers c in
    done_with (omap (fun p => (fun id => reading_new id 0 (sat_add64 (ps_bytes_received p) (ps_bytes_sent p))) <$> by_address !! ps_address p) peers))
  (fun sessions =>
    do! addresses := lift (collect address_of sessions) in
    do! _ := wireguard_request c HttpPost (str "/v1/peers/remove") (mkRemovePeers addresses) in done_with tt).

(** [HysteriaControl]; [base_url] has lost its last slashes. *)
Section hysteria.
Context (base_url secret : list byte).
Definition hysteria_get {T} `{Json T} (path : list byte) : act W T :=
  do! uri := lift (manager_uri base_url path) in
  do! request := lift (build (mkHttp HttpGet uri secret false [] 2)) in
  do! bytes := http_send (Some MAX_STATS_RESPONSE_BYTES) request in
  lift (decode bytes).
Definition hysteria_healthy (w : W) : bool * W :=
  let '(r, w) := hysteria_get (T := gmap (list byte) Z) (str "/online") w in (is_ok r, w).
Definition hysteria_traffic (session : SessionAllocation) : act W SessionTraffic :=
  try! traffic := hysteria_get (T := gmap (list byte) HysteriaTraffic) (str "/traffic") in
  try! online := hysteria_get (T := gmap (list byte) Z) (str "/online") in
  do! traffic := lift traffic in
  do! online := lift online in
  ask! now := engine_time in
  let counters := traffic !! al_id session in
  done_with (mkTraffic true (match counters with Some v => ht_tx v | None => 0 end) (match counters with Some v => ht_rx v | None => 0 end)
               (default 0 (online !! al_id session)) now).
Definition hysteria_usage (sessions : list SessionAllocation) : act W (list UsageReading) :=
  do! traffic := hysteria_get (T := gmap (list byte) HysteriaTraffic) (str "/traffic") in
  done_with (map (fun kv => reading_new kv.1 0 (sat_add64 (ht_tx kv.2) (ht_rx kv.2)))
               (filter (fun kv => kv.1 ∈ session_ids sessions) (entries traffic))).
Definition hysteria_kick (sessions : list SessionAllocation) : act W unit :=
  if bool_decide (sessions = []) then done_with tt else
  do! body := lift (encode (map al_id sessions)) in
  do! uri := lift (manager_uri base_url (str "/kick")) in
  do! request := lift (build (mkHttp HttpPost uri secret true body 2)) in
  do! _ := http_send None request in
  done_with tt.
Definition HysteriaControl : DataPlaneControl W :=
  mkControl hysteria_healthy (fun _ => done_with tt) (fun _ => done_with tt) hysteria_traffic hysteria_usage hysteria_kick.
End hysteria.

(** * Shadowsocks: the manager's text protocol *)

Definition udp_request (c : ShadowsocksConfig) (command : list byte) : act W (list byte) := fun w =>
  if MAX_MANAGER_COMMAND_BYTES <? zlen command then (Err ResponseTooLarge, w)
  else
    let '(outcome, w) := world_udp (ss_manager_address c) command SHADOWSOCKS_MANAGER_TIMEOUT w in
    (match outcome with
     | UdpTimeout => Err TimedOut
     | UdpFailed r => Err (IoFailed r)
     | UdpShort => Err (Command (str "Shadowsocks manager command was truncated"))
     | UdpAnswer data =>
       let received := take (Z.to_nat MAX_MANAGER_RESPONSE_BYTES) data in
       if zlen received =? MAX_MANAGER_RESPONSE_BYTES then Err ResponseTooLarge
       else if valid_utf8 received then Ok received
       else Err (Command (str "Shadowsocks manager returned non-UTF-8 data"))
     end, w).
Definition strip_prefix (prefix s : list byte) : option (list byte) :=
  if starts_with_str prefix s then Some (drop (length prefix) s) else None.
Definition parse_shadowsocks_ping (response : list byte) : result DataPlaneError (gmap Z Z) :=
  let* payload := ok_or (strip_prefix (str "stat:") (trim response))
                    (Command (str "Shadowsocks manager returned an invalid ping response")) in
  decode (trim payload).
Definition expect_shadowsocks_ok (response : list byte) : result DataPlaneError unit :=
  if bool_decide (trim response = str "ok") then Ok tt else Err (Command (str "Shadowsocks manager rejected the operation")).

Section shadowsocks.
Context (c : ShadowsocksConfig).
Definition port_counters : act W (gmap Z Z) :=
  do! response := udp_request c (str "ping" ++ [newline]) in lift (parse_shadowsocks_ping response).
Definition active_ports : act W (gset Z) := do! counters := port_counters in done_with (dom counters).
Definition allocated_port (s : SessionAllocation) : result DataPlaneError Z :=
  ok_or (session_port c (al_resource_slot s)) (Command (str "session resource slot exceeds the Shadowsocks port pool")).
Definition add_server (s : SessionAllocation) : act W Z :=
  do! port := lift (allocated_port s) in
  do! encoded := lift (encode (mkAdd port (session_key c (al_id s)) SHADOWSOCKS_2022_METHOD (str "tcp_and_udp"))) in
  do! response := udp_request c (str "add: " ++ encoded ++ [newline]) in
  do! _ := lift (expect_shadowsocks_ok response) in
  done_with port.
Definition quote : byte := z2b 34.
Definition remove_command (port : Z) : list byte :=
  str "remove: {" ++ quote :: str "server_port" ++ quote :: str ":" ++ show_u64 port ++ str "}" ++ [newline].
Definition remove_server (port : Z) : act W unit :=
  do! response := udp_request c (remove_command port) in lift (expect_shadowsocks_ok response).
Definition managed_port (port : Z) : bool := (ss_port_start c <=? port) && (port <=? ss_port_end c).
(** A [BTreeSet] is read in order. *)
Definition ascending (ports : gset Z) : list Z := sort_by_key Datatypes.id (elements ports).
Definition managed_ports : act W (list Z) :=
  do! active := active_ports in done_with (filter (fun p => managed_port p = true) (ascending active)).

Definition shadowsocks_provision (session : SessionAllocation) : act W unit :=
  do! port := lift (allocated_port session) in
  do! _ := remove_server port in
  do! _ := add_server session in
  do! active := active_ports in
  if bool_decide (port ∈ active) then done_with tt
  else failing (Command (str "Shadowsocks manager did not retain the provisioned lease")).
Fixpoint add_all (sessions : list SessionAllocation) (expected : gset Z) : act W (gset Z) :=
  match sessions with
  | [] => done_with expected
  | s :: sessions => do! port := add_server s in add_all sessions ({[port]} ∪ expected)
  end.
Definition shadowsocks_reconcile (sessions : list SessionAllocation) : act W unit :=
  do! old := managed_ports in
  do! _ := each remove_server old in
  do! expected := add_all sessions ∅ in
  do! actual := managed_ports in
  if bool_decide (list_to_set actual = expected) then done_with tt
  else failing (Command (str "Shadowsocks manager reconciliation postcondition failed")).
Fixpoint port_readings (counters : gmap Z Z) (sessions : list SessionAllocation) : result DataPlaneError (list UsageReading) :=
  match sessions with
  | [] => Ok []
  | s :: sessions =>
    let* port := allocated_port s in
    let* readings := port_readings counters sessions in
    Ok (match counters !! port with Some bytes => reading_new (al_id s) 0 bytes :: readings | None => readings end)
  end.
Definition shadowsocks_usage (sessions : list SessionAllocation) : act W (list UsageReading) :=
  do! counters := port_counters in lift (port_readings counters sessions).
Fixpoint remove_all (sessions : list SessionAllocation) (removed : gset Z) : act W (gset Z) :=
  match sessions with
  | [] => done_with removed
  | s :: sessions =>
    do! port := lift (allocated_port s) in
    do! _ := remove_server port in
    remove_all sessions ({[port]} ∪ removed)
  end.
Definition shadowsocks_kick (sessions : list SessionAllocation) : act W unit :=
  do! removed := remove_all sessions ∅ in
  do! active := active_ports in
  if bool_decide (active ∩ removed = ∅) then done_with tt
  else failing (Command (str "Shadowsocks manager retained a revoked lease")).
Definition ShadowsocksControl : DataPlaneControl W := mkControl
  (fun w => let '(r, w) := active_ports w in (is_ok r, w))
  shadowsocks_provision shadowsocks_reconcile (fun _ => ask! t := unavailable_traffic in done_with t)
  shadowsocks_usage shadowsocks_kick.
End shadowsocks.

(** * Xray: the command line and its JSON *)

(** [String::from_utf8_lossy]: each maximal invalid sequence is U+FFFD. *)
Definition invalid_len (s : list byte) : nat :=
  let cont b := (0x80 <=? b) && (b <=? 0xbf) in
  match s with
  | a :: s1 =>
    let a := b2z a in
    match s1 with
    | b :: s2 =>
      let b := b2z b in
      if (0xe0 <=? a) && (a <=? 0xef) then
        if cont b && (negb (a =? 0xe0) || (0xa0 <=? b)) && (negb (a =? 0xed) || (b <=? 0x9f)) then 2%nat else 1%nat
      else if (0xf0 <=? a) && (a <=? 0xf4) then
        if cont b && (negb (a =? 0xf0) || (0x90 <=? b)) && (negb (a =? 0xf4) || (b <=? 0x8f)) then
          match s2 with c :: _ => if cont (b2z c) then 3%nat else 2%nat | [] => 2%nat end
        else 1%nat
      else 1%nat
    | [] => 1%nat
    end
  | [] => 1%nat
  end.
Fixpoint lossy (fuel : nat) (s : list byte) : list Z :=
  match fuel, s with
  | O, _ | _, [] => []
  | S fuel, _ => match next_char s with
                 | Some (ch, s) => ch :: lossy fuel s
                 | None => 0xfffd :: lossy fuel (drop (invalid_len s) s)
                 end
  end.
Definition from_utf8_lossy (s : list byte) : list Z := lossy (length s) s.

Definition decode_command_output (o : Output) : result DataPlaneError (list byte) :=
  require negb (MAX_COMMAND_OUTPUT_BYTES <? zlen (out_stdout o) + zlen (out_stderr o)) else ResponseTooLarge in
  if negb (out_success o) then
    let message := default (str "unknown Xray API error") (head (rev (lines (encode_chars (from_utf8_lossy (out_stderr o)))))) in
    Err (Command (encode_chars (take 512 (char_list message))))
  else if valid_utf8 (out_stdout o) then Ok (out_stdout o)
  else Err (Command (str "Xray returned non-UTF-8 output")).
Definition validate_session_id (session_id : list byte) : result DataPlaneError unit :=
  if (zlen session_id =? 12) && forallb is_ascii_alphanumeric session_id then Ok tt
  else Err (Command (str "session ID is invalid for Xray provisioning")).
Definition user_config_path (session_id : list byte) : list byte := temp_file (str "ket-xray-user-" ++ session_id ++ str ".json").
Definition write_user_config (path : list byte) (document : Value) : act W unit :=
  do! encoded := lift (encode document) in
  ask! failed := world_create path encoded in
  match failed with None => done_with tt | Some r => failing (IoFailed r) end.

(** [json_u64] and the walks over an answer. *)
Definition json_u64 (v : Value) : option Z :=
  match as_u64 v with Some n => Some n | None => match as_str v with Some s => parse_uint u64_max s | None => None end end.
Fixpoint collect_emails (v : Value) (emails : gset (list byte)) : gset (list byte) :=
  match v with
  | Object fields =>
    let emails := match json_get fields (str "email") ≫= as_str with Some email => {[email]} ∪ emails | None => emails end in
    fold_left (fun emails kv => collect_emails (snd kv) emails) fields emails
  | Array values => fold_left (fun emails nested => collect_emails nested emails) values emails
  | _ => emails
  end.
(** A statistic: its name and value. *)
Definition statistic (fields : list (list byte * Value)) : option (list byte * Z) :=
  match json_get fields (str "name") ≫= as_str, json_get fields (str "value") ≫= json_u64 with
  | Some name, Some n => Some (name, n)
  | _, _ => None
  end.
Definition add_stat (acc : Z * Z) (stat : list byte * Z) : Z * Z :=
  let '(sent, received) := acc in
  let '(name, n) := stat in
  if ends_with name (str ">>>uplink") then (sat_add64 sent n, received)
  else if ends_with name (str ">>>downlink") then (sent, sat_add64 received n)
  else (sent, received).
Fixpoint collect_stats (v : Value) (acc : Z * Z) : Z * Z :=
  match v with
  | Object fields =>
    let acc := match statistic fields with Some stat => add_stat acc stat | None => acc end in
    fold_left (fun acc kv => collect_stats (snd kv) acc) fields acc
  | Array values => fold_left (fun acc nested => collect_stats nested acc) values acc
  | _ => acc
  end.
Definition stat_email (name : list byte) : option (list byte) :=
  match strip_prefix (str "user>>>") name with
  | Some rest => match strip_suffix rest (str ">>>traffic>>>uplink") with
                 | Some email => Some email
                 | None => strip_suffix rest (str ">>>traffic>>>downlink")
                 end
  | None => None
  end.
Definition add_total (totals : gmap (list byte) Z) (stat : list byte * Z) : gmap (list byte) Z :=
  match stat_email (fst stat) with
  | Some email => <[email := sat_add64 (default 0 (totals !! email)) (snd stat)]> totals
  | None => totals
  end.
Fixpoint collect_user_totals (v : Value) (totals : gmap (list byte) Z) : gmap (list byte) Z :=
  match v with
  | Object fields =>
    let totals := match statistic fields with Some stat => add_total totals stat | None => totals end in
    fold_left (fun totals kv => collect_user_totals (snd kv) totals) fields totals
  | Array values => fold_left (fun totals nested => collect_user_totals nested totals) values totals
  | _ => totals
  end.
Fixpoint first_some {A B} (f : A -> option B) (l : list A) : option B :=
  match l with [] => None | a :: l => match f a with Some b => Some b | None => first_some f l end end.
Fixpoint find_numeric_field (names : list (list byte)) (v : Value) : option Z :=
  match v with
  | Object fields =>
    match first_some (fun name => json_get fields name ≫= json_u64) names with
    | Some n => Some n
    | None => (fix go l := match l with
                           | [] => None
                           | kv :: l => match find_numeric_field names (snd kv) with Some n => Some n | None => go l end
                           end) fields
    end
  | Array values =>
    (fix go l := match l with
                 | [] => None
                 | nested :: l => match find_numeric_field names nested with Some n => Some n | None => go l end
                 end) values
  | _ => None
  end.
Definition parse_xray_stats (output : list byte) : result DataPlaneError (Z * Z) :=
  let* value := decode output in Ok (collect_stats value (0, 0)).
Definition parse_xray_user_totals (output : list byte) : result DataPlaneError (gmap (list byte) Z) :=
  let* value := decode output in Ok (collect_user_totals value ∅).
Definition parse_xray_online (output : list byte) : result DataPlaneError Z :=
  let* value := decode output in
  let n := default 0 (find_numeric_field [str "value"; str "count"; str "online"] value) in
  if n <=? u32_max then Ok n else Err (Command (str "Xray online count exceeds u32")).
Definition parse_xray_online_result (output : result DataPlaneError (list byte)) : result DataPlaneError Z :=
  match output with
  | Ok output => parse_xray_online output
  | Err (Command message) =>
    if contains (str "code = NotFound") message && contains (str ">>>online not found") message then Ok 0 else Err (Command message)
  | Err e => Err e
  end.

Fixpoint chunks_fuel {A} (fuel size : nat) (l : list A) : list (list A) :=
  match fuel, l with
  | O, _ | _, [] => []
  | S fuel, _ => take size l :: chunks_fuel fuel size (drop size l)
  end.
Definition chunks {A} (size : nat) (l : list A) : list (list A) := chunks_fuel (length l) size l.

Section xray.
Context (c : XrayConfig).
Definition run_xray (arguments : list (list byte)) : act W (list byte) := fun w =>
  let '(outcome, w) := world_run (xr_binary_path c) arguments XRAY_COMMAND_TIMEOUT w in
  (match outcome with
   | RunTimeout => Err TimedOut
   | RunFailed r => Err (IoFailed r)
   | Ran output => decode_command_output output
   end, w).
Definition api_arguments (operation : list byte) : list (list byte) :=
  [str "api"; operation; str "--server=" ++ xr_api_server c; str "--timeout=3"].
Definition tag_argument (tag : list byte) : list byte := str "-tag=" ++ tag.
Definition inbound_emails (tag : list byte) : act W (gset (list byte)) :=
  do! output := run_xray (api_arguments (str "inbounduser") ++ [tag_argument tag]) in
  do! value := lift (decode output) in
  done_with (collect_emails value ∅).
Definition remove_chunk (tag : list byte) (chunk : list (list byte)) : act W unit :=
  do! _ := run_xray (api_arguments (str "rmu") ++ [tag_argument tag] ++ chunk) in
  do! present := inbound_emails tag in
  if existsb (fun email => bool_decide (email ∈ present)) chunk then failing (Command (str "Xray retained a removed user"))
  else done_with tt.
Definition remove_emails_from_tags (tags : list (list byte)) (emails : list (list byte)) : act W unit :=
  each (fun tag => each (remove_chunk tag) (chunks 100 emails)) tags.
Definition remove_emails (emails : list (list byte)) : act W unit := remove_emails_from_tags (inbound_tags c) emails.
Fixpoint emails_of_tags (tags : list (list byte)) (emails : gset (list byte)) : act W (gset (list byte)) :=
  match tags with
  | [] => done_with emails
  | tag :: tags => do! more := inbound_emails tag in emails_of_tags tags (emails ∪ more)
  end.
Definition ket_email (email : list byte) : bool := starts_with_str (str "session-") email && ends_with email (str "@ket.invalid").
Definition managed_emails : act W (list (list byte)) :=
  do! emails := emails_of_tags (inbound_tags c) ∅ in
  done_with (filter (fun email => ket_email email = true) (sort_by_key Datatypes.id (elements emails))).

(** [add_user]: what was added before a failure is removed again. *)
Definition undo_add (added : list (list byte)) (email : list byte) {A} (e : DataPlaneError) : act W A :=
  try! _ := remove_emails_from_tags added [email] in failing e.
Fixpoint add_to_tags (path email : list byte) (documents : list (list byte * Value)) (added : list (list byte)) : act W unit :=
  match documents with
  | [] => done_with tt
  | (tag, document) :: documents =>
    try! written := write_user_config path document in
    match written with
    | Err e => undo_add added email e
    | Ok _ =>
      try! result := run_xray (api_arguments (str "adu") ++ [path]) in
      ask! cleanup := world_remove path in
      match result with
      | Err e => undo_add added email e
      | Ok _ =>
        let added := added ++ [tag] in
        match cleanup with
        | Some r => undo_add added email (IoFailed r)
        | None =>
          try! present := inbound_emails tag in
          match present with
          | Err e => undo_add added email e
          | Ok present =>
            if bool_decide (email ∈ present) then add_to_tags path email documents added
            else undo_add added email (Command (str "Xray did not retain the provisioned user"))
          end
        end
      end
    end
  end.
Definition add_user (session_id : list byte) : act W unit :=
  do! _ := lift (validate_session_id session_id) in
  add_to_tags (user_config_path session_id) (session_email session_id)
    (zip (inbound_tags c) (user_documents c session_id)) [].
Fixpoint tags_healthy (tags : list (list byte)) (w : W) : bool * W :=
  match tags with
  | [] => (true, w)
  | tag :: tags =>
    let '(r, w) := run_xray (api_arguments (str "inboundusercount") ++ [tag_argument tag]) w in
    if is_ok r then tags_healthy tags w else (false, w)
  end.
Definition xray_traffic (session : SessionAllocation) : act W SessionTraffic :=
  do! _ := lift (validate_session_id (al_id session)) in
  let email := session_email (al_id session) in
  try! stats := run_xray (api_arguments (str "statsquery") ++ [str "-pattern=user>>>" ++ email ++ str ">>>traffic>>>"]) in
  try! online := run_xray (api_arguments (str "statsonline") ++ [str "-email=" ++ email]) in
  do! stats := lift stats in
  do! bytes := lift (parse_xray_stats stats) in
  do! online_connections := lift (parse_xray_online_result online) in
  ask! now := engine_time in
  done_with (mkTraffic true (fst bytes) (snd bytes) online_connections now).
Definition xray_usage (sessions : list SessionAllocation) : act W (list UsageReading) :=
  if bool_decide (sessions = []) then done_with [] else
  do! output := run_xray (api_arguments (str "statsquery") ++ [str "-pattern=user>>>session-"]) in
  do! per_email := lift (parse_xray_user_totals output) in
  done_with (omap (fun s => (fun bytes => reading_new (al_id s) 0 bytes) <$> per_email !! session_email (al_id s)) sessions).
Definition xray_kick (sessions : list SessionAllocation) : act W unit :=
  do! emails := lift (collect (fun s => let* _ := validate_session_id (al_id s) in Ok (session_email (al_id s))) sessions) in
  remove_emails emails.
Definition xray_reconcile (sessions : list SessionAllocation) : act W unit :=
  do! existing := managed_emails in
  do! _ := remove_emails existing in
  each (fun s => add_user (al_id s)) sessions.
Definition XrayControl : DataPlaneControl W := mkControl
  (tags_healthy (inbound_tags c)) (fun session => add_user (al_id session)) xray_reconcile xray_traffic xray_usage xray_kick.
End xray.

(** [from_config]. *)
Definition hysteria_control (c : HysteriaConfig) : result DataPlaneError (DataPlaneControl W) :=
  let base_url := slash_end (hy_stats_url c) in
  let* _ := manager_new base_url in
  Ok (HysteriaControl base_url (hy_stats_secret c)).
Definition control_of {A} (o : option A) (f : A -> result DataPlaneError (DataPlaneControl W)) : result DataPlaneError (list (DataPlaneControl W)) :=
  match o with Some a => let* c := f a in Ok [c] | None => Ok [] end.
Definition from_config (config : ServerConfig) : result DataPlaneError (DataPlaneControl W) :=
  let* hysteria := control_of (cfg_hysteria config) hysteria_control in
  let* xray := control_of (cfg_xray config) (fun x => Ok (XrayControl x)) in
  let* shadowsocks := control_of (cfg_shadowsocks config) (fun s => Ok (ShadowsocksControl s)) in
  let* wireguard := control_of (cfg_wireguard config) (fun g => let* _ := manager_new (wg_manager_url g) in Ok (WireGuardControl g)) in
  let* openvpn := control_of (cfg_openvpn config) (fun o => let* _ := manager_new (ov_manager_url o) in Ok (OpenVpnControl o)) in
  Ok (combine_controls (hysteria ++ xray ++ shadowsocks ++ wireguard ++ openvpn)).
End controls.
