(* ===== verification/DataPlaneProps.v ===== *)
(** What the engines' controls promise the API: readings an app accepts,
    totals that agree, and sessions taken back when an engine fails. *)

From Stdlib Require Import ZArith Lia.
From stdpp Require Import gmap strings.
From S2P Require Import Prelude Order Utf8 Str Net Tunnel Contract Control Validation Meter StdText Config Engines DataPlane EngineControls.

(** * Actions *)

(** What an action gives when it succeeds. *)
Definition yields {W A} (m : act W A) (Q : A -> Prop) : Prop := forall w a w', m w = (Ok a, w') -> Q a.
Section yields.
Context {W : Type}.
Lemma yields_bind {A B} (m : act W A) (k : A -> act W B) Q : (forall a, yields (k a) Q) -> yields (bind_act m k) Q.
Proof. intros Hk w b w'. unfold bind_act. destruct (m w) as [[a|e] w1]; [|done]. apply Hk. Qed.
Lemma yields_attempt {A B} (m : act W A) (k : result DataPlaneError A -> act W B) Q : (forall r, yields (k r) Q) -> yields (attempt m k) Q.
Proof. intros Hk w b w'. unfold attempt. destruct (m w) as [r w1]. apply Hk. Qed.
Lemma yields_done {A} (a : A) (Q : A -> Prop) : Q a -> yields (done_with (W := W) a) Q.
Proof. intros HQ w b w' [= <- <-]. done. Qed.
End yields.

(** * Readings *)

(** A reading the app accepts in a session's status. *)
Definition reading_ok (t : SessionTraffic) : Prop := traffic_consistent t = true /\ traffic_observed_at t <> 0.

(** An engine whose readings the app accepts, with a clock past 1970. *)
Class ClockRuns (W : Type) `{EngineClock W} : Prop := clock_runs (w : W) : (engine_time w).1 > 0.
Class TrafficSound {W} (c : DataPlaneControl W) : Prop := traffic_sound session : yields (traffic c session) reading_ok.

Section readings.
Context {W : Type} `{ClockRuns W}.

Lemma yields_clock {A} (k : Z -> act W A) Q : (forall now, now > 0 -> yields (k now) Q) -> yields (asking engine_time k) Q.
Proof. intros Hk w a w'. unfold asking. pose proof (clock_runs w) as Hc. destruct (engine_time w) as [now w1]. by apply Hk. Qed.
Lemma unavailable_ok (w : W) : reading_ok (unavailable_traffic w).1 /\ traffic_observed_at (unavailable_traffic w).1 > 0.
Proof. unfold unavailable_traffic, reading_ok. pose proof (clock_runs w) as Hc. destruct (engine_time w) as [now w1]. cbn in *. split; [split; [done|lia]|lia]. Qed.
Lemma yields_unavailable : yields (asking (unavailable_traffic (W := W)) (fun t => done_with t)) reading_ok.
Proof. intros w t w'. unfold asking. pose proof (unavailable_ok w) as [Ho _]. destruct (unavailable_traffic w) as [t' w1]. by intros [= <- <-]. Qed.
Lemma available_ok sent received online now : now > 0 -> reading_ok (mkTraffic true sent received online now).
Proof. split; cbn; [done|lia]. Qed.

#[export] Instance no_data_plane_sound : TrafficSound (NoDataPlane (W := W)).
Proof. intros session. apply yields_unavailable. Qed.

(** Readings add up to a reading. *)
Lemma add_traffic_ok a t : reading_ok a -> traffic_observed_at a > 0 -> reading_ok t -> reading_ok (add_traffic a t) /\ traffic_observed_at (add_traffic a t) > 0.
Proof.
  unfold reading_ok, traffic_consistent, add_traffic. cbn. intros [Ha _] Hp [Ht _]. split; [split; [|lia]|lia].
  destruct (available a), (available t); cbn in *; try done. bool_prop. unfold sat_add64, sat_add32, u64_max, u32_max.
  rewrite !andb_true_iff, !Z.eqb_eq. lia.
Qed.
Lemma traffic_each_ok (controls : list (DataPlaneControl W)) session a failures (w : W) : Forall (fun c => TrafficSound c) controls -> reading_ok a -> traffic_observed_at a > 0 ->
  reading_ok (traffic_each controls session a failures w).1.1.
Proof.
  intros HF. revert a failures w. induction HF as [|c controls Hc _ IH]; intros a failures w Ha Hp; cbn [traffic_each]; [done|].
  destruct (traffic c session w) as [[t|e] w1] eqn:Et; [|by apply IH]. apply Hc in Et. destruct (add_traffic_ok a t Ha Hp Et). by apply IH.
Qed.
Lemma composite_sound controls : Forall (fun c => TrafficSound c) controls -> TrafficSound (CompositeDataPlane (W := W) controls).
Proof.
  intros HF session w t w'. cbn [traffic CompositeDataPlane]. unfold composite_traffic. pose proof (unavailable_ok w) as [Ho Hp].
  destruct (unavailable_traffic w) as [a w1]. pose proof (traffic_each_ok controls session a [] w1 HF Ho Hp) as HT.
  destruct (traffic_each controls session a [] w1) as [[a' failures] w2]. cbn in HT. destruct (_ || _); [|done]. by intros [= <- <-].
Qed.
Lemma combine_sound controls : Forall (fun c => TrafficSound c) controls -> TrafficSound (combine_controls (W := W) controls).
Proof.
  intros HF. destruct controls as [|c [|c' controls]]; cbn [combine_controls]; [apply _|by apply Forall_inv in HF|by apply composite_sound].
Qed.

Context `{EngineWorld W, UriParser, Texts, HeaderValues, EngineJson, Hmac, Base64}.
Ltac reads := repeat first [apply yields_bind; intros ?|apply yields_attempt; intros ?|apply yields_clock; intros ? ?|apply yields_done, available_ok; done].
#[export] Instance openvpn_sound c : TrafficSound (OpenVpnControl (W := W) c).
Proof. intros session. cbn [traffic OpenVpnControl]. reads. Qed.
#[export] Instance wireguard_sound c : TrafficSound (WireGuardControl (W := W) c).
Proof. intros session. cbn [traffic WireGuardControl]. reads. Qed.
#[export] Instance hysteria_sound base secret : TrafficSound (HysteriaControl (W := W) base secret).
Proof. intros session. cbn [traffic HysteriaControl]. unfold hysteria_traffic. reads. Qed.
#[export] Instance shadowsocks_sound c : TrafficSound (ShadowsocksControl (W := W) c).
Proof. intros session. cbn [traffic ShadowsocksControl]. apply yields_unavailable. Qed.
#[export] Instance xray_sound c : TrafficSound (XrayControl (W := W) c).
Proof. intros session. cbn [traffic XrayControl]. unfold xray_traffic. reads. Qed.

(** Every engine the settings can configure, alone or with others. *)
Lemma from_config_sound config control : from_config (W := W) config = Ok control -> TrafficSound control.
Proof.
  assert (HC : forall A (o : option A) (f : A -> result DataPlaneError (DataPlaneControl W)) l,
    (forall a c, f a = Ok c -> TrafficSound c) -> control_of o f = Ok l -> Forall (fun c => TrafficSound c) l).
  { intros A o f l Hf. unfold control_of. destruct o as [a|]; [|intros [= <-]; constructor].
    destruct (f a) as [c|] eqn:E; [|done]. intros [= <-]. constructor; [by eapply Hf|constructor]. }
  unfold from_config.
  destruct (control_of (cfg_hysteria config) _) as [l1|] eqn:E1; [|done]. destruct (control_of (cfg_xray config) _) as [l2|] eqn:E2; [|done].
  destruct (control_of (cfg_shadowsocks config) _) as [l3|] eqn:E3; [|done]. destruct (control_of (cfg_wireguard config) _) as [l4|] eqn:E4; [|done].
  destruct (control_of (cfg_openvpn config) _) as [l5|] eqn:E5; [|done]. intros Hok. assert (control = combine_controls (l1 ++ l2 ++ l3 ++ l4 ++ l5)) as -> by congruence.
  apply combine_sound. repeat rewrite Forall_app.
  apply HC in E1, E2, E3, E4, E5; [by split_and!|..]; intros a c Hc; unfold hysteria_control in *; try (destruct (manager_new _); [|done]);
    injection Hc as <-; apply _.
Qed.
End readings.

(** * Xray's statistics *)

Section statistics.

(** The statistics of an answer, wherever they are nested. *)
Fixpoint statistics (v : Value) : list (list byte * Z) :=
  match v with
  | Object fields => option_list (statistic fields) ++ flat_map (fun kv => statistics (snd kv)) fields
  | Array values => flat_map statistics values
  | _ => []
  end.

Lemma fold_left_flat {A B C} (f : C -> B -> C) (g : A -> list B) (walk : C -> A -> C) l acc :
  Forall (fun a => forall acc, walk acc a = fold_left f (g a) acc) l -> fold_left walk l acc = fold_left f (flat_map g l) acc.
Proof.
  intros HF. revert acc. induction HF as [|a l Ha _ IH]; intros acc; [done|]. cbn [fold_left flat_map]. by rewrite fold_left_app, Ha, IH.
Qed.
(** The walks are folds over them. *)
Lemma collect_stats_fold v acc : collect_stats v acc = fold_left add_stat (statistics v) acc.
Proof.
  revert acc. induction v as [| | | |l IH|l IH] using Value_ind'; intros acc; cbn [collect_stats statistics]; try done.
  - apply (fold_left_flat add_stat statistics). eapply Forall_impl; [exact IH|]. done.
  - rewrite fold_left_app. rewrite (fold_left_flat add_stat (fun kv => statistics (snd kv))) by (eapply Forall_impl; [exact IH|]; done).
    by destruct (statistic l).
Qed.
Lemma collect_user_totals_fold v totals : collect_user_totals v totals = fold_left add_total (statistics v) totals.
Proof.
  revert totals. induction v as [| | | |l IH|l IH] using Value_ind'; intros totals; cbn [collect_user_totals statistics]; try done.
  - apply (fold_left_flat add_total statistics). eapply Forall_impl; [exact IH|]. done.
  - rewrite fold_left_app. rewrite (fold_left_flat add_total (fun kv => statistics (snd kv))) by (eapply Forall_impl; [exact IH|]; done).
    by destruct (statistic l).
Qed.

Lemma statistic_range fields name n : statistic fields = Some (name, n) -> 0 <= n <= u64_max.
Proof.
  unfold statistic. destruct (json_get fields (str "name") ≫= as_str); [|done]. destruct (json_get fields (str "value") ≫= json_u64) as [m|] eqn:E; [|done].
  intros [= <- <-]. destruct (json_get fields (str "value")) as [v|]; [|done]. cbn in E. unfold json_u64, as_u64 in E.
  destruct v as [|b|[z|]|t|vs|fs]; cbn in E; try done; [|by apply parse_uint_bound in E].
  destruct ((0 <=? z) && (z <=? u64_max)) eqn:Ez; cbn in E; [|done]. bool_prop. simplify_eq. lia.
Qed.
Lemma statistics_range v : Forall (fun stat => 0 <= snd stat <= u64_max) (statistics v).
Proof.
  assert (HL : forall A (g : A -> list (list byte * Z)) l, Forall (fun a => Forall (fun stat => 0 <= snd stat <= u64_max) (g a)) l ->
    Forall (fun stat => 0 <= snd stat <= u64_max) (flat_map g l)).
  { intros A g l HF. induction HF; cbn; [constructor|]. by apply Forall_app. }
  induction v as [| | | |l IH|l IH] using Value_ind'; cbn [statistics]; try constructor; [by apply HL|].
  apply Forall_app. split; [|by apply HL]. destruct (statistic l) as [[name n]|] eqn:E; [|constructor].
  constructor; [by eapply statistic_range|constructor].
Qed.

(** The sum of the statistics that [p] names. *)
Definition sum_of (p : list byte -> bool) (stats : list (list byte * Z)) : Z :=
  foldr (fun stat total => (if p (fst stat) then snd stat else 0) + total) 0 stats.
Definition uplink (name : list byte) : bool := ends_with name (str ">>>uplink").
Definition downlink (name : list byte) : bool := negb (uplink name) && ends_with name (str ">>>downlink").
Definition of_email (email name : list byte) : bool := bool_decide (stat_email name = Some email).

Lemma sum_of_nonneg p stats : Forall (fun stat => 0 <= snd stat <= u64_max) stats -> 0 <= sum_of p stats.
Proof. induction 1 as [|[name n] stats Hn _ IH]; [done|]. cbn [sum_of foldr fst snd] in *. unfold sum_of in IH. destruct (p name); lia. Qed.
Lemma fold_stats stats sent received : Forall (fun stat => 0 <= snd stat <= u64_max) stats -> 0 <= sent <= u64_max -> 0 <= received <= u64_max ->
  fold_left add_stat stats (sent, received) = (Z.min (sent + sum_of uplink stats) u64_max, Z.min (received + sum_of downlink stats) u64_max).
Proof.
  intros HF. revert sent received. induction HF as [|[name n] stats Hn HF IH]; intros sent received Hs Hr; cbn [fold_left sum_of foldr].
  - f_equal; lia.
  - pose proof (sum_of_nonneg uplink stats HF). pose proof (sum_of_nonneg downlink stats HF).
    fold (sum_of uplink stats) (sum_of downlink stats). cbn [add_stat fst snd] in *. unfold downlink at 1. fold (uplink name).
    destruct (uplink name); cbn [negb andb]; [|destruct (ends_with name (str ">>>downlink"))]; rewrite IH by (unfold sat_add64; lia); unfold sat_add64; f_equal; lia.
Qed.
Lemma fold_totals stats totals email : Forall (fun stat => 0 <= snd stat <= u64_max) stats -> 0 <= default 0 (totals !! email) <= u64_max ->
  default 0 (fold_left add_total stats totals !! email) = Z.min (default 0 (totals !! email) + sum_of (of_email email) stats) u64_max.
Proof.
  intros HF. revert totals. induction HF as [|[name n] stats Hn HF IH]; intros totals Ht; cbn [fold_left sum_of foldr]; [lia|].
  pose proof (sum_of_nonneg (of_email email) stats HF). fold (sum_of (of_email email) stats). cbn [fst snd] in *.
  unfold of_email at 1. unfold add_total at 2. cbn [fst snd]. destruct (stat_email name) as [e|]; [|rewrite IH by done; rewrite bool_decide_false by done; lia].
  destruct (decide (e = email)) as [->|Hne].
  - set (x := default 0 (totals !! email)) in *. rewrite bool_decide_true by done.
    assert (E : forall m, default 0 ((<[email := m]> totals : gmap (list byte) Z) !! email) = m) by (intros m; by rewrite lookup_insert_eq).
    rewrite IH; rewrite E; unfold sat_add64; lia.
  - rewrite IH; rewrite lookup_insert_ne by done; [|done]. rewrite bool_decide_false by congruence. lia.
Qed.

Lemma ends_with_app a y x : (length x <= length y)%nat -> ends_with (a ++ y) x = ends_with y x.
Proof.
  intros Hl. unfold ends_with. rewrite length_app, drop_app_ge by lia. f_equal. by replace (length a + length y - length x - length a)%nat with (length y - length x)%nat by lia.
Qed.
(** A statistic of a user's traffic is one of the two directions. *)
Lemma of_email_direction email name : of_email email name = true -> (uplink name = true /\ downlink name = false) \/ (uplink name = false /\ downlink name = true).
Proof.
  unfold of_email, stat_email, downlink, uplink. intros Hn%bool_decide_eq_true. unfold strip_prefix in Hn.
  destruct (starts_with_str (str "user>>>") name); [|done]. set (rest := drop _ name) in *.
  assert (Hs : forall suffix r, strip_suffix rest suffix = Some r -> exists a, name = a ++ suffix).
  { intros suffix r. unfold strip_suffix, ends_with. case_bool_decide as E; [|done]. intros _.
    exists (take (length (str "user>>>")) name ++ take (length rest - length suffix) rest). rewrite <- app_assoc.
    replace (take (length rest - length suffix) rest ++ suffix) with rest; [symmetry; apply take_drop|].
    transitivity (take (length rest - length suffix) rest ++ drop (length rest - length suffix) rest); [symmetry; apply take_drop|by rewrite E]. }
  destruct (strip_suffix rest (str ">>>traffic>>>uplink")) as [r|] eqn:E1.
  - apply Hs in E1 as [a ->]. left. rewrite !ends_with_app by (vm_compute; lia). done.
  - apply Hs in Hn as [a ->]. right. rewrite !ends_with_app by (vm_compute; lia). done.
Qed.
End statistics.

(** the bytes counted against a grant's allowance are the bytes its device
    sees: in an answer of Xray's statistics that are all of one user, however
    they are nested, the total the meter reads is the sum, saturating, of what
    the session's status reports as sent and received; and in any answer, a
    user's total is the saturating sum of that user's statistics alone. *)
Theorem xray_totals_agree v email :
  default 0 (collect_user_totals v ∅ !! email) = Z.min (sum_of (of_email email) (statistics v)) u64_max /\
  (Forall (fun stat => of_email email (fst stat) = true) (statistics v) ->
   let '(sent, received) := collect_stats v (0, 0) in default 0 (collect_user_totals v ∅ !! email) = sat_add64 sent received).
Proof.
  pose proof (statistics_range v) as HR. rewrite collect_stats_fold, collect_user_totals_fold, fold_stats by (done || unfold u64_max; lia).
  rewrite fold_totals by (done || rewrite lookup_empty; cbn; unfold u64_max; lia). rewrite lookup_empty. cbn [default from_option Datatypes.id].
  split; [done|]. intros HF. unfold sat_add64.
  assert (E : sum_of (of_email email) (statistics v) = sum_of uplink (statistics v) + sum_of downlink (statistics v)).
  { induction HF as [|[name n] stats Hn HF IH]; [done|]. apply Forall_cons in HR as [_ HR]. cbn [sum_of foldr fst snd] in *.
    rewrite Hn. specialize (IH HR). unfold sum_of in IH. destruct (of_email_direction _ _ Hn) as [[E1 E2]|[E1 E2]]; rewrite E1, E2; lia. }
  pose proof (sum_of_nonneg uplink _ HR). pose proof (sum_of_nonneg downlink _ HR). rewrite E. unfold u64_max. lia.
Qed.

(** * Taking a session back *)

(** An engine and the sessions it serves. *)
Record Engine (W : Type) := mkEngine { en_control : DataPlaneControl W; en_serves : W -> SessionAllocation -> Prop }.
Arguments mkEngine {W}. Arguments en_control {W}. Arguments en_serves {W}.
(** A provision that fails leaves nothing new, and a kick is obeyed. *)
Class EngineLaws {W} (e : Engine W) : Prop := {
  provision_failed s w err w' : provision (en_control e) s w = (Err err, w') -> en_serves e w' s -> en_serves e w s;
  kick_obeyed s w : ~ en_serves e (kick (en_control e) [s] w).2 s;
}.
(** What one engine does leaves the other alone. *)
Definition apart {W} (e e' : Engine W) : Prop := forall s w,
  (en_serves e' (provision (en_control e) s w).2 s <-> en_serves e' w s) /\ (en_serves e' (kick (en_control e) [s] w).2 s <-> en_serves e' w s).
Definition apart_from {W} (l : list (Engine W)) (e : Engine W) : Prop := Forall (fun e' => apart e' e) l.
Fixpoint mutually_apart {W} (l : list (Engine W)) : Prop :=
  match l with [] => True | e :: l => Forall (fun e' => apart e e' /\ apart e' e) l /\ mutually_apart l end.

Section rollback.
Context {W : Type} `{EngineClock W}.

Lemma kick_back_other (completed : list (Engine W)) e s w : apart_from completed e ->
  en_serves e (kick_back (map en_control completed) s w) s <-> en_serves e w s.
Proof.
  intros HF. revert w. induction HF as [|e' l He _ IH]; intros w; cbn [map kick_back]; [done|]. rewrite IH. apply He.
Qed.
Lemma kick_back_all (completed : list (Engine W)) s w : Forall (fun e => EngineLaws e) completed -> mutually_apart completed ->
  Forall (fun e => ~ en_serves e (kick_back (map en_control completed) s w) s) completed.
Proof.
  intros HL. revert w. induction HL as [|e l He _ IH]; intros w; cbn [mutually_apart map kick_back]; [constructor|]. intros [Ha Hm].
  constructor; [|by apply IH]. rewrite kick_back_other by (eapply Forall_impl; [exact Ha|]; naive_solver). apply kick_obeyed.
Qed.
Lemma provision_all_fails (rest completed : list (Engine W)) s w err w' :
  Forall (fun e => EngineLaws e) (rest ++ completed) -> mutually_apart rest -> mutually_apart completed ->
  Forall (fun e => Forall (fun e' => apart e e' /\ apart e' e) completed) rest ->
  provision_all (map en_control rest) (map en_control completed) s w = (Err err, w') ->
  Forall (fun e => ~ en_serves e w' s) completed /\ Forall (fun e => en_serves e w' s -> en_serves e w s) rest.
Proof.
  revert completed w. induction rest as [|e rest IH]; intros completed w HL Hr Hc Hx; cbn [map provision_all]; [done|].
  cbn [app] in HL. apply Forall_cons in HL as [He HL]. cbn [mutually_apart] in Hr. destruct Hr as [Her Hr]. apply Forall_cons in Hx as [Hxe Hx].
  destruct (provision (en_control e) s w) as [r w1] eqn:Ep. destruct r as [u|er].
  - intros Hp. apply (IH (e :: completed)) in Hp as [Hdone Hrest].
    + apply Forall_cons in Hdone as [Hn Hdone]. split; [done|]. constructor; [done|]. rewrite Forall_forall in Hrest, Her |- *.
      intros e' Hin Hs. apply Hrest in Hs; [|done]. destruct (Her e' Hin) as [Hap _]. destruct (Hap s w) as [Hprov _]. rewrite Ep in Hprov. by apply Hprov.
    + apply Forall_app in HL as [HL1 HL2]. apply Forall_app. split; [done|by constructor].
    + done.
    + split; [|done]. done.
    + rewrite Forall_forall in Hx, Her |- *. intros e' Hin. constructor; [by destruct (Her e' Hin)|by apply Hx].
  - intros Hp. assert (w' = kick_back (map en_control completed) s w1) as -> by congruence.
    apply Forall_app in HL as [_ HL]. split; [by apply kick_back_all|]. constructor.
    + rewrite kick_back_other by (eapply Forall_impl; [exact Hxe|]; naive_solver). by eapply provision_failed.
    + rewrite Forall_forall in Hx, Her |- *. intros e' Hin. rewrite kick_back_other by (eapply Forall_impl; [by apply Hx|]; naive_solver).
      destruct (Her e' Hin) as [Hap _]. destruct (Hap s w) as [Hprov _]. rewrite Ep in Hprov. by apply Hprov.
Qed.

(** several engines fail as one: when any of the engines refuses a session,
    those that had taken it drop it again, and afterwards no engine serves it
    that did not before - for engines that obey a kick, keep nothing of a
    session they refused, and leave each other alone. *)
Theorem composite_provision_rolls_back (engines : list (Engine W)) s w err w' :
  Forall (fun e => EngineLaws e) engines -> mutually_apart engines ->
  provision (CompositeDataPlane (map en_control engines)) s w = (Err err, w') ->
  Forall (fun e => en_serves e w' s -> en_serves e w s) engines.
Proof.
  intros HL Ha Hp. cbn [provision CompositeDataPlane] in Hp. apply (provision_all_fails engines []) in Hp as [_ Hp]; [done|by rewrite app_nil_r|done|done|].
  apply Forall_forall. intros e _. constructor.
Qed.
End rollback.

(** * Witnesses *)

(** Two engines in one world: the first takes sessions, the second refuses. *)
Definition Pair : Type := list SessionAllocation * list SessionAllocation.
Definition drop_session (s : SessionAllocation) (l : list SessionAllocation) : list SessionAllocation := filter (fun a => a <> s) l.
Definition first_control : DataPlaneControl Pair := mkControl
  (fun w => (true, w)) (fun s w => (Ok tt, (s :: w.1, w.2))) (fun _ => done_with tt) (fun _ => failing TimedOut) (fun _ => done_with [])
  (fun l w => (Ok tt, (foldr drop_session w.1 l, w.2))).
Definition second_control : DataPlaneControl Pair := mkControl
  (fun w => (false, w)) (fun _ => failing TimedOut) (fun _ => done_with tt) (fun _ => failing TimedOut) (fun _ => done_with [])
  (fun l w => (Ok tt, (w.1, foldr drop_session w.2 l))).
Definition first_engine : Engine Pair := mkEngine first_control (fun w s => s ∈ w.1).
Definition second_engine : Engine Pair := mkEngine second_control (fun w s => s ∈ w.2).
#[local] Instance first_laws : EngineLaws first_engine.
Proof. split; [done|]. intros s w. cbn. rewrite list_elem_of_filter. naive_solver. Qed.
#[local] Instance second_laws : EngineLaws second_engine.
Proof. split; [cbn; by intros s w err w' [= <- <-]|]. intros s w. cbn. rewrite list_elem_of_filter. naive_solver. Qed.
#[local] Instance pair_clock : EngineClock Pair := fun w => (1, w).
Lemma composite_provision_rolls_back_witness :
  provision (CompositeDataPlane [first_control; second_control]) (mkAllocation [] 0) ([], []) = (Err TimedOut, ([], [])) /\
  Forall (fun e => en_serves e ([], []) (mkAllocation [] 0) -> en_serves e ([], []) (mkAllocation [] 0)) [first_engine; second_engine].
Proof.
  split; [vm_compute; reflexivity|]. apply (composite_provision_rolls_back [first_engine; second_engine] (mkAllocation [] 0) ([], []) TimedOut ([], [])).
  - constructor; [apply first_laws|]. constructor; [apply second_laws|constructor].
  - split; [|split; [constructor|done]]. constructor; [|constructor]. split; intros s w; done.
  - vm_compute. reflexivity.
Defined.

Definition demo_stat (name : string) (n : Z) : Value := object [(str "name", JString (str name)); (str "value", Number (Some n))].
Definition demo_answer : Value :=
  object [(str "stat", Array [demo_stat "user>>>session-a@ket.invalid>>>traffic>>>uplink" 5; demo_stat "user>>>session-a@ket.invalid>>>traffic>>>downlink" 7])].
Lemma xray_totals_agree_witness : default 0 (collect_user_totals demo_answer ∅ !! str "session-a@ket.invalid") = 12.
Proof.
  assert (HB : forallb (fun stat => of_email (str "session-a@ket.invalid") (fst stat)) (statistics demo_answer) = true) by (vm_compute; reflexivity).
  rewrite forallb_Forall in HB. pose proof (proj2 (xray_totals_agree demo_answer (str "session-a@ket.invalid")) HB) as HT.
  assert (E : collect_stats demo_answer (0, 0) = (5, 7)) by (vm_compute; reflexivity). rewrite E in HT. exact HT.
Defined.
