(* ===== verification/Api.v ===== *)
(** Model of crates/ket-server/src/api/mod.rs and api/grants.rs: the handlers
    of the server's HTTP API over the access service and the data plane, and
    the server's background tasks.

    A handler is a function of the application's state; the clock, the random
    draws, the outcomes of the worker pool and of the disk are arguments, each
    in the order the handler comes to need it. *)

From Stdlib Require Import ZArith Lia SpecFloat.
From stdpp Require Import gmap strings.
From S2P Require Import Prelude Order Utf8 Str Vendor Invite Tunnel Seal Update Contract Control Validation Gateway StdText Config Engines DataPlane EngineControls Allowance Grant Model Activity Meter GrantAdmin Service.

(** * State *)

Record AppMetrics := mkMetrics {
  accepted_sessions : Z; rejected_sessions : Z; accepted_data_plane_auth : Z; rejected_data_plane_auth : Z;
}.
(** What changes of [AppState]; an atomic counter wraps at 64 bits. *)
Record App (W : Type) := mkApp { app_access : Service; app_engines : W; data_plane_ready : bool; app_metrics : AppMetrics }.
Arguments mkApp {W}.
Arguments app_access {W}. Arguments app_engines {W}. Arguments data_plane_ready {W}. Arguments app_metrics {W}.

Definition fetch_add (n : Z) : Z := (n + 1) mod 2 ^ 64.
Definition count_accepted (m : AppMetrics) : AppMetrics :=
  mkMetrics (fetch_add (accepted_sessions m)) (rejected_sessions m) (accepted_data_plane_auth m) (rejected_data_plane_auth m).
Definition count_rejected (m : AppMetrics) : AppMetrics :=
  mkMetrics (accepted_sessions m) (fetch_add (rejected_sessions m)) (accepted_data_plane_auth m) (rejected_data_plane_auth m).
Definition count_auth (ok : bool) (m : AppMetrics) : AppMetrics :=
  if ok then mkMetrics (accepted_sessions m) (rejected_sessions m) (fetch_add (accepted_data_plane_auth m)) (rejected_data_plane_auth m)
  else mkMetrics (accepted_sessions m) (rejected_sessions m) (accepted_data_plane_auth m) (fetch_add (rejected_data_plane_auth m)).

(** * Errors *)

Record ApiError := mkApiError { ae_status : Z; ae_code : list byte; ae_message : list byte; ae_update : option ClientUpdate }.
(** What a handler gives instead of an answer: an error, or a panic, which the
    outermost layer turns into a bare 500. *)
Inductive ApiFailure := Refused (e : ApiError) | Crashed (message : list byte).

Definition api_error (status : Z) (code message : list byte) : ApiError := mkApiError status code message None.
Definition client_update_required (update : ClientUpdate) : ApiError :=
  mkApiError 426 CLIENT_UPDATE_REQUIRED_CODE
    (str "update Ket to " ++ latest_version update ++ str " or newer to keep using this server") (Some update).
Definition unauthorized : ApiError := api_error 401 (str "unauthorized") (str "credentials are invalid").
Definition data_plane_unavailable : ApiError :=
  api_error 503 (str "data_plane_unavailable") (str "the node data plane is temporarily unavailable").
Definition data_plane_not_ready : ApiError :=
  api_error 503 (str "data_plane_unavailable") (str "the node data plane is temporarily unavailable").
Definition invalid_enrollment_nonce : ApiError := api_error 400 (str "invalid_request") (str "the enrollment nonce is invalid").
Definition api_internal : ApiError := api_error 500 (str "internal_error") (str "the server could not complete the request").
Definition grant_protocols_unavailable : ApiError :=
  api_error 409 (str "grant_protocols_unavailable") (str "the server no longer offers any protocol this invite allows").

(** [From<ServiceError>]. *)
Definition from_service_error (e : ServiceError) : ApiError :=
  match e with
  | InvalidInput message => api_error 422 (str "invalid_request") message
  | Unauthorized | Forbidden => unauthorized
  | GrantExpired => api_error 403 (str "grant_expired") (str "the access grant has expired")
  | GrantPaused => api_error 423 (str "grant_paused") (str "the server owner has paused this invite")
  | AllowanceUsed resets_at => api_error 423 (str "grant_allowance_used")
      (str "this invite has used its data allowance; it works again from " ++ utc_minute resets_at)
  | GrantCapacity => api_error 409 (str "grant_capacity_reached") (str "the access grant connection limit has been reached")
  | NodeCapacity => api_error 503 (str "node_capacity_reached") (str "the node session capacity has been reached")
  | Busy => api_error 429 (str "server_busy") (str "the server is temporarily busy; retry shortly")
  | NotFound => api_error 404 (str "not_found") (str "the requested resource does not exist")
  | _ => api_internal
  end.

(** [ApiError::into_response]: the status, the document and [Retry-After]. *)
Definition error_response (e : ApiError) : Z * ErrorResponse * option (list byte) :=
  (ae_status e, mkErrorResponse (ae_code e) (ae_message e) (ae_update e), if ae_status e =? 429 then Some (str "1") else None).

(** * Headers *)

Notation HeaderMap := (list (list byte * list byte)).
Fixpoint header_get (headers : HeaderMap) (name : list byte) : option (list byte) :=
  match headers with
  | [] => None
  | (k, v) :: headers => if eq_ignore_ascii_case k name then Some v else header_get headers name
  end.
(** [HeaderValue::to_str]: visible ASCII and tabs. *)
Definition header_text (value : list byte) : option (list byte) :=
  if forallb (fun b => ((32 <=? b2z b) && (b2z b <=? 126)) || (b2z b =? 9)) value then Some value else None.

Definition bearer_token (headers : HeaderMap) : result ApiError (list byte) :=
  match (header_get headers (str "authorization") ≫= header_text) ≫= strip_prefix (str "Bearer ") with
  | Some token => if bool_decide (token = []) then Err unauthorized else Ok token
  | None => Err unauthorized
  end.

(** * The session's transports *)

Section transports.
Context `{Hmac, Base64}.
Context (config : ServerConfig).

(** [transport_protocol]. *)
Definition transport_protocol (transport_id : list byte) : option TransportProtocol :=
  tp_protocol <$> head (filter (fun p => tp_id p = transport_id) (cfg_transports config)).

Definition engine_for {A} (o : option A) (id_of : A -> list byte) (id : list byte) : option A :=
  match o with Some a => if bool_decide (id_of a = id) then Some a else None | None => None end.
Definition set_port (p : TransportProfile) (port : Z) : TransportProfile :=
  mkProfile (tp_id p) (tp_display_name p) (tp_protocol p) (tp_endpoint p) port (tp_network p) (tp_priority p) (tp_tls_server_name p) (tp_options p).
Definition set_option (p : TransportProfile) (key value : list byte) : TransportProfile :=
  mkProfile (tp_id p) (tp_display_name p) (tp_protocol p) (tp_endpoint p) (tp_port p) (tp_network p) (tp_priority p) (tp_tls_server_name p)
    (<[key := value]> (tp_options p)).
Definition obfuscation_secrets (o : HysteriaObfuscation) : gmap (list byte) (list byte) :=
  match o with
  | Disabled => ∅
  | Salamander password | Gecko password => {[ str "obfs_password" := password ]}
  end.
Definition openvpn_secrets (o : OpenVpnConfig) (session_id : list byte) : gmap (list byte) (list byte) :=
  options_of [("ca_certificate_pem_b64"%string, base64_encode (ov_ca_certificate o));
              ("stunnel_ca_certificate_pem_b64"%string, base64_encode (ov_stunnel_ca_certificate o));
              ("tls_crypt_key_b64"%string, base64_encode (ov_tls_crypt_key o)); ("username"%string, session_id)].

(** The closure of [session_transports]; an [expect] that fails is an error. *)
Definition session_transport (created : CreatedSession) (profile : TransportProfile) : result ApiFailure SessionTransport :=
  let id := tp_id profile in
  match engine_for (cfg_hysteria config) hy_transport_id id with
  | Some hysteria =>
    Ok (mkTransport profile (Some (mkCredential (cs_data_plane_token created) (obfuscation_secrets (hy_obfuscation hysteria)))))
  | None =>
    match engine_for (cfg_shadowsocks config) ss_transport_id id with
    | Some shadowsocks =>
      let* port := ok_or (session_port shadowsocks (cs_resource_slot created))
                     (Crashed (str "validated Shadowsocks pool covers every session resource slot")) in
      Ok (mkTransport (set_port profile port) (Some (shadowsocks_credential shadowsocks (cs_id created))))
    | None =>
      match engine_for (cfg_wireguard config) wg_transport_id id with
      | Some wireguard =>
        let panic := Crashed (str "validated WireGuard capacity covers every session resource slot") in
        let* address := ok_or (client_address (cs_resource_slot created)) panic in
        let* credential := ok_or (wireguard_credential wireguard (cs_id created)) panic in
        Ok (mkTransport (set_option profile (str "client_address") address) (Some credential))
      | None =>
        match engine_for (cfg_openvpn config) ov_transport_id id with
        | Some openvpn => Ok (mkTransport profile (Some (mkCredential (cs_data_plane_token created) (openvpn_secrets openvpn (cs_id created)))))
        | None => Ok (mkTransport profile (cfg_xray config ≫= fun xray => xray_credential xray id (cs_id created)))
        end
      end
    end
  end.
Definition session_transports (created : CreatedSession) : result ApiFailure (list SessionTransport) :=
  collect (session_transport created) (filter (fun p => allows (cs_protocols created) (tp_protocol p) = true) (cfg_transports config)).

(** [protocols_offered_by] and [require_offered] of grants.rs. *)
Record OfferedProtocol := mkOffered { op_protocol : TransportProtocol; op_name : list byte; op_display_name : list byte }.
Fixpoint offer (transports : list TransportProfile) (offered : list OfferedProtocol) : list OfferedProtocol :=
  match transports with
  | [] => offered
  | t :: transports =>
    if existsb (fun known => bool_decide (op_protocol known = tp_protocol t)) offered then offer transports offered
    else offer transports (offered ++ [mkOffered (tp_protocol t) (short_name (tp_protocol t)) (tp_display_name t)])
  end.
Definition protocols_offered_by : list OfferedProtocol := offer (sort_by_key tp_priority (cfg_transports config)) [].
(** A [BTreeSet] of protocols is read in the order they are declared. *)
Definition requested_order (requested : gset TransportProtocol) : list TransportProtocol :=
  filter (fun p => p ∈ requested) all_protocols.
Definition require_offered (protocols : ProtocolAccess) : result ApiError unit :=
  match protocols with
  | All => Ok tt
  | Only requested =>
    let missing := filter (fun p => Forall (fun known => op_protocol known <> p) protocols_offered_by) (requested_order requested) in
    if bool_decide (missing = []) then Ok tt
    else Err (api_error 422 (str "invalid_request")
                (str "this server does not offer: " ++ join_str (str ", ") (map short_name missing)))
  end.
End transports.

(** * Handlers *)

(** What a handler draws from outside, by the operation of the service that
    needs it: the time, the pool, the disk, and the time a note is taken. *)
Record Enrolling := mkEnrolling { en_now : Z; en_token : list byte; en_random : list byte; en_pool : CryptoPool; en_io : Io; en_note : Z }.
Record Ending := mkEnding { ed_pool : CryptoPool; ed_now : Z; ed_io : Io; ed_note : Z }.
Record Renewing := mkRenewing { rn_pool : CryptoPool; rn_auth_now : Z; rn_now : Z; rn_io : Io; rn_note : Z }.
(** [build_node_status] counts sessions, reads the host and dates the answer. *)
Record NodeDraws := mkNodeDraws { nd_count_now : Z; nd_system : SystemSnapshot; nd_observed : Z }.
Record SessionDraws := mkSessionDraws {
  sd_updates_now : Z; sd_enrolling : Enrolling; sd_refuse_now : Z; sd_discard : Ending; sd_enrolled_now : Z;
  sd_renewing : Renewing; sd_view_now : Z; sd_node : NodeDraws;
}.

(** A response whose body is bytes. *)
Record ApiResponse := mkResponse { rs_status : Z; rs_headers : HeaderMap; rs_body : list byte }.

Section handlers.
Context `{SecretHashing, StateJson, NodeConfig, Ed25519, Hashes, Encodings, Hmac, Base64, HeaderValues}.
Context `{!Json SessionManifest}.
Context {W : Type} `{EngineClock W} (config : ServerConfig) (control : DataPlaneControl W).

Definition handler (A : Type) : Type := App W -> result ApiFailure A * App W.
Definition answer {A} (a : A) : handler A := fun app => (Ok a, app).
Definition refuse {A} (e : ApiError) : handler A := fun app => (Err (Refused e), app).
Definition from_result {A} (r : result ApiError A) : handler A := fun app =>
  (match r with Ok a => Ok a | Err e => Err (Refused e) end, app).
Definition bind_handler {A B} (m : handler A) (k : A -> handler B) : handler B := fun app =>
  let '(r, app) := m app in match r with Ok a => k a app | Err e => (Err e, app) end.
Notation "'let!' x ':=' m 'in' k" := (bind_handler m (fun x => k))
  (at level 200, x pattern, m at level 100, k at level 200, format "'[v' 'let!'  x  ':='  m  'in' '/' k ']'").

(** Calls of the service, with its error or with [?]. *)
Definition set_access (app : App W) (sv : Service) : App W := mkApp sv (app_engines app) (data_plane_ready app) (app_metrics app).
Definition ask_service {A} (m : M A) : handler (result ServiceError A) := fun app =>
  let '(sv, r) := m (app_access app) in (Ok r, set_access app sv).
Definition call {A} (m : M A) : handler A :=
  let! r := ask_service m in from_result (map_err from_service_error r).
Definition read_state {A} (f : PersistedState -> A) : handler A := fun app => (Ok (f (state (app_access app))), app).

(** Calls of the data plane; a panic ends the handler. *)
Definition set_engines (app : App W) (w : W) : App W := mkApp (app_access app) w (data_plane_ready app) (app_metrics app).
Definition ask_engine {A} (m : act W A) : handler (result DataPlaneError A) := fun app =>
  let '(r, w) := m (app_engines app) in
  (match r with Err (Panicked message) => Err (Crashed message) | r => Ok r end, set_engines app w).
Definition engine_healthy : handler bool := fun app =>
  let '(ok, w) := healthy control (app_engines app) in (Ok ok, set_engines app w).
Definition count (f : AppMetrics -> AppMetrics) : handler unit := fun app =>
  (Ok tt, mkApp (app_access app) (app_engines app) (data_plane_ready app) (f (app_metrics app))).
Definition is_ready : handler bool := fun app => (Ok (data_plane_ready app), app).

(** [kick_sessions]: a failure is logged. *)
Definition kick_sessions (sessions : list SessionAllocation) : handler unit :=
  let! _ := ask_engine (kick control sessions) in answer tt.
(** [record_activity]. *)
Definition record_activity (grant_id : list byte) (a : Activity) (now : Z) : handler unit :=
  let! _ := ask_service (note grant_id a now) in answer tt.

(** [refuse_session]. *)
Definition refuse_session (created : CreatedSession) (event : GrantActivityEvent) (now : Z) (e : Ending) : handler unit :=
  let! _ := record_activity (cs_grant_id created) (activity_enrollment event (Service.cs_client_name created)) now in
  let! ended := ask_service (discard_session (cs_token created) (ed_pool e) (ed_now e) (ed_io e) (ed_note e)) in
  match ended with
  | Ok session => kick_sessions [session]
  | Err _ => answer tt
  end.

(** [build_node_status]. *)
Definition percent32 (a b : Z) : spec_float := SFmul 24 128 (SFdiv 24 128 (f32 a) (f32 b)) (f32 100).
Definition percent64 (a b : Z) : spec_float := SFmul 53 1024 (SFdiv 53 1024 (f64 a) (f64 b)) (f64 100).
Definition memory_percent (s : SystemSnapshot) : spec_float :=
  match snap_memory_used_bytes s, snap_memory_total_bytes s with
  | Some used, Some total => if 0 <? total then percent64 used total else f64 0
  | _, _ => f64 0
  end.
Definition health_of (capacity : spec_float) (data_plane_healthy : bool) (s : SystemSnapshot) : HealthState :=
  if SFleb (f32 100) capacity then Saturated
  else if negb data_plane_healthy || SFleb (f32 85) capacity
          || match snap_cpu_load_percent s with Some load => SFleb (f32 90) load | None => false end
          || SFleb (f64 95) (memory_percent s)
  then Degraded else Healthy.
Definition build_node_status (d : NodeDraws) : handler NodeStatus :=
  let! active_sessions := read_state (fun st => active_session_count st (nd_count_now d)) in
  let capacity_percent := percent32 active_sessions (cfg_max_sessions config) in
  let system := nd_system d in
  let! ready := is_ready in
  let! data_plane_healthy := (if ready : bool then engine_healthy else answer false) in
  answer (mkNode (cfg_node_id config) (cfg_node_name config) (cfg_public_url config) (cfg_location config)
            (health_of capacity_percent data_plane_healthy system) active_sessions (cfg_max_sessions config) capacity_percent
            (snap_cpu_load_percent system) (snap_memory_used_bytes system) (snap_memory_total_bytes system)
            (snap_uptime_seconds system) (nd_observed d)).

(** [enrollment_nonce] and [signed_manifest_response]. *)
Definition enrollment_nonce (headers : HeaderMap) : result ApiError (option (list byte)) :=
  match header_get headers ENROLLMENT_NONCE_HEADER with
  | None => Ok None
  | Some value =>
    match header_text value with
    | Some text => match from_header_value text with Ok nonce => Ok (Some nonce) | Err _ => Err invalid_enrollment_nonce end
    | None => Err invalid_enrollment_nonce
    end
  end.
Definition signed_manifest_response (nonce : option (list byte)) (manifest : SessionManifest) : result ApiError ApiResponse :=
  let* body := ok_or (json_to_vec manifest) api_internal in
  let json := [(str "content-type", str "application/json")] in
  match nonce, cfg_invite_issuer config with
  | Some nonce, Some issuer =>
    let signature := sign_enrollment issuer nonce body in
    if header_value_ok signature then Ok (mkResponse 201 (json ++ [(NODE_SIGNATURE_HEADER, signature)]) body) else Err api_internal
  | _, _ => Ok (mkResponse 201 json body)
  end.

(** [create_session], from the admission on: other handlers may run between
    the two parts, and between the awaits of the second. *)
Definition finish_enrollment (nonce : option (list byte)) (updates : UpdateAdvice) (d : SessionDraws)
    (admitted : result ServiceError CreatedSession) : handler ApiResponse :=
  match admitted with
  | Err error => let! _ := count count_rejected in refuse (from_service_error error)
  | Ok created =>
    let allocation := mkAllocation (cs_id created) (cs_resource_slot created) in
    let! _ := kick_sessions (cs_expired_allocations created) in
    if is_required (advice_client updates) then
      let! _ := count count_rejected in
      let! _ := refuse_session created RefusedUpdateRequired (sd_refuse_now d) (sd_discard d) in
      refuse (client_update_required (advice_client updates))
    else
    let! provisioned := ask_engine (provision control allocation) in
    match provisioned with
    | Err _ =>
      let! _ := count count_rejected in
      let! _ := refuse_session created RefusedServerUnavailable (sd_refuse_now d) (sd_discard d) in
      refuse data_plane_unavailable
    | Ok _ =>
      let! _ := count count_accepted in
      let! transports := (fun app => (session_transports config created, app)) in
      if bool_decide (length transports = 0%nat) && negb (is_all (cs_protocols created)) then
        let! _ := count count_rejected in
        let! _ := refuse_session created RefusedNoProtocol (sd_refuse_now d) (sd_discard d) in
        refuse grant_protocols_unavailable
      else
      let! _ := record_activity (cs_grant_id created) (activity_session Enrolled (cs_id created) (Service.cs_client_name created)) (sd_enrolled_now d) in
      let! node := build_node_status (sd_node d) in
      from_result (signed_manifest_response nonce
        (mkSessionManifest (cs_token created) (cs_expires_at created) (cs_access_expires_at created) node transports (Some updates)))
    end
  end.
Definition request_updates (headers : HeaderMap) (now : Z) : UpdateAdvice :=
  updates_advice (cfg_client_updates config) (header_get headers CLIENT_HEADER ≫= header_text) now.
Definition request_admission (request : CreateSessionRequest) (e : Enrolling) : M CreatedSession :=
  create_session (cs_access_code request) (Contract.cs_client_name request) (en_now e) (en_token e) (en_random e) (en_pool e) (en_io e) (en_note e).
Definition create_session_handler (headers : HeaderMap) (request : CreateSessionRequest) (d : SessionDraws) : handler ApiResponse :=
  let! nonce := from_result (enrollment_nonce headers) in
  let! ready := is_ready in
  if negb ready then refuse data_plane_not_ready else
  let! admitted := ask_service (request_admission request (sd_enrolling d)) in
  finish_enrollment nonce (request_updates headers (sd_updates_now d)) d admitted.

(** [build_session_status]. *)
Definition build_session_status (session : SessionView) (updates : UpdateAdvice) (d : NodeDraws) : handler SessionStatus :=
  let! read := ask_engine (traffic control (mkAllocation (sv_id session) (sv_resource_slot session))) in
  let! traffic := match read with
                  | Ok traffic => answer traffic
                  | Err _ => fun app => let '(t, w) := unavailable_traffic (app_engines app) in (Ok t, set_engines app w)
                  end in
  let! node := build_node_status d in
  answer (mkSessionStatus (sv_id session) (sv_client_name session) (sv_expires_at session) (sv_access_expires_at session) node traffic
            (Some updates) (sv_allowance session)).

(** [session_status], [renew_session] and [release_session]. *)
Definition session_status_handler (headers : HeaderMap) (d : SessionDraws) : handler SessionStatus :=
  let! token := from_result (bearer_token headers) in
  let! session := call (session token (rn_pool (sd_renewing d)) (rn_auth_now (sd_renewing d)) (sd_view_now d)) in
  let updates := request_updates headers (sd_updates_now d) in
  build_session_status session updates (sd_node d).
Definition renew_session_handler (headers : HeaderMap) (d : SessionDraws) : handler SessionStatus :=
  let! token := from_result (bearer_token headers) in
  let updates := request_updates headers (sd_updates_now d) in
  let r := sd_renewing d in
  if is_required (advice_client updates) then
    let! session := call (session token (rn_pool r) (rn_auth_now r) (sd_view_now d)) in
    let! _ := record_activity (sv_grant_id session)
                (activity_session RefusedUpdateRequired (sv_id session) (sv_client_name session)) (sd_refuse_now d) in
    refuse (client_update_required (advice_client updates))
  else
    let! session := call (renew_session token (rn_pool r) (rn_auth_now r) (rn_now r) (rn_io r) (rn_note r)) in
    build_session_status session updates (sd_node d).
Definition release_session_handler (headers : HeaderMap) (e : Ending) : handler unit :=
  let! token := from_result (bearer_token headers) in
  let! session := call (release_session token (ed_pool e) (ed_now e) (ed_io e) (ed_note e)) in
  kick_sessions [session].

(** [authenticate_hysteria] and [authenticate_openvpn]; the times are those of
    the check and of its note. *)
Record HysteriaAuthResponse := mkHysteriaAuth { ha_ok : bool; ha_id : list byte }.
Definition authenticate_hysteria (auth : list byte) (now note_now : Z) : handler HysteriaAuthResponse :=
  let protocol := match cfg_hysteria config with Some hysteria => transport_protocol config (hy_transport_id hysteria) | None => None end in
  let! session := match protocol with
                  | Some protocol => ask_service (authenticate_data_plane auth protocol None now note_now)
                  | None => answer (Err Unauthorized)
                  end in
  match session with
  | Ok session => let! _ := count (count_auth true) in answer (mkHysteriaAuth true (sv_id session))
  | Err _ => let! _ := count (count_auth false) in answer (mkHysteriaAuth false [])
  end.
(** [ct_eq] on strings of one length is equality. *)
Definition same_secret (expected candidate : list byte) : bool :=
  (zlen expected =? zlen candidate) && bool_decide (expected = candidate).
Definition authenticate_openvpn (headers : HeaderMap) (username password : list byte) (now note_now : Z) : handler Z :=
  match cfg_openvpn config with
  | None => answer 404
  | Some openvpn =>
    let authorized := match bearer_token headers with Ok candidate => same_secret (ov_auth_token openvpn) candidate | Err _ => false end in
    let protocol := transport_protocol config (ov_transport_id openvpn) in
    let! session := match (if authorized then protocol else None) with
                    | Some protocol => ask_service (authenticate_data_plane password protocol (Some username) now note_now)
                    | None => answer (Err Unauthorized)
                    end in
    let ok := is_ok session in
    let! _ := count (count_auth ok) in
    answer (if ok then 204 else 401)
  end.

(** [health], [ready] and [node_status]. *)
Definition health_handler : handler Z := answer 204.
Definition ready_handler : handler (Z * list (list byte * list byte)) :=
  let! ready := is_ready in
  let! ok := (if ready : bool then engine_healthy else answer false) in
  answer (if ok : bool then (200, [(str "status", str "ready")])
          else (503, [(str "status", str "not_ready"); (str "reason", str "data_plane_unhealthy")])).
Definition node_status_handler (d : NodeDraws) : handler NodeStatus := build_node_status d.

(** [metrics]: the gauges and counters, each after its two comment lines. *)
Definition gauge (name help : string) (kind : string) : list byte :=
  str "# HELP " ++ str name ++ str " " ++ str help ++ [newline] ++ str "# TYPE " ++ str name ++ str " " ++ str kind ++ [newline].
Definition sample (name : string) (labels : list byte) (value : Z) : list byte :=
  str name ++ labels ++ str " " ++ show_u64 value ++ [newline].
Definition result_label (r : string) : list byte := str "{result=" ++ quote :: str r ++ [quote] ++ str "}".
Definition metrics_handler (now crypto_operations crypto_capacity : Z) : handler (list byte) := fun app =>
  let m := app_metrics app in
  (Ok (gauge "ket_active_sessions" "Current unexpired control-plane sessions." "gauge"
       ++ sample "ket_active_sessions" [] (active_session_count (state (app_access app)) now)
       ++ gauge "ket_session_capacity" "Configured maximum concurrent sessions." "gauge"
       ++ sample "ket_session_capacity" [] (cfg_max_sessions config)
       ++ gauge "ket_crypto_operations" "Current Argon2 operations running or waiting." "gauge"
       ++ sample "ket_crypto_operations" [] crypto_operations
       ++ gauge "ket_crypto_operation_capacity" "Maximum Argon2 operations allowed to run or wait." "gauge"
       ++ sample "ket_crypto_operation_capacity" [] crypto_capacity
       ++ gauge "ket_crypto_overload_total" "Secret-processing operations rejected before queuing." "counter"
       ++ sample "ket_crypto_overload_total" [] (crypto_overloads (app_access app))
       ++ gauge "ket_session_exchange_total" "Session exchange attempts by result." "counter"
       ++ sample "ket_session_exchange_total" (result_label "accepted") (accepted_sessions m)
       ++ sample "ket_session_exchange_total" (result_label "rejected") (rejected_sessions m)
       ++ gauge "ket_data_plane_auth_total" "Data-plane authentication attempts by result." "counter"
       ++ sample "ket_data_plane_auth_total" (result_label "accepted") (accepted_data_plane_auth m)
       ++ sample "ket_data_plane_auth_total" (result_label "rejected") (rejected_data_plane_auth m)), app).

(** * Administration (grants.rs) *)

Definition authorize_admin (headers : HeaderMap) : result ApiError unit :=
  let* supplied := bearer_token headers in
  if same_secret (admin_token config) supplied then Ok tt else Err unauthorized.

(** [attach_invite]: the grant's invite, where the node has a key. *)
Context `{!UrlParser, !Hpke}.
Definition attach_invite (g : CreateAccessGrantResponse) : CreateAccessGrantResponse * option (list byte) :=
  (g, match cfg_invite_issuer config with
      | None => None
      | Some issuer => match issue_invite issuer (response_access_code g) (response_expires_at g) with Ok invite => Some invite | Err _ => None end
      end).
Definition offered_protocols_handler (headers : HeaderMap) : handler (list OfferedProtocol) :=
  let! _ := from_result (authorize_admin headers) in answer (protocols_offered_by config).
Definition create_grant_handler (headers : HeaderMap) (request : CreateAccessGrantRequest) (d : GrantDraw)
    : handler (CreateAccessGrantResponse * option (list byte)) :=
  let! _ := from_result (authorize_admin headers) in
  let! _ := from_result (require_offered config (create_protocols request)) in
  let! g := call (create_grant request (d_now d) (d_code d) (d_salt d) (d_pool d) (d_io d)) in
  answer (attach_invite g).
Definition create_grant_batch_handler (headers : HeaderMap) (request : CreateAccessGrantBatchRequest) (draws : list GrantDraw)
    : handler (list (CreateAccessGrantResponse * option (list byte))) :=
  let! _ := from_result (authorize_admin headers) in
  let! _ := from_result (require_offered config (batch_protocols request)) in
  let! gs := call (create_grant_batch request draws) in
  answer (map attach_invite gs).
Definition list_grants_handler (headers : HeaderMap) (now : Z) : handler (list AccessGrantSummary) :=
  let! _ := from_result (authorize_admin headers) in read_state (fun st => list_grants st now).

Record ConnectedDevice := mkConnected {
  cd_session_id : list byte; cd_client_name : list byte; cd_connected_at : Z; cd_session_expires_at : Z; cd_traffic : SessionTraffic;
}.
Record AccessGrantDetails := mkDetails { gd_grant : AccessGrantSummary; gd_devices : list ConnectedDevice; gd_recent : list GrantActivity }.
Fixpoint connected_devices (devices : list GrantDevice) : handler (list ConnectedDevice) :=
  match devices with
  | [] => answer []
  | device :: devices =>
    let! read := ask_engine (traffic control (gd_allocation device)) in
    let! t := match read with
              | Ok t => answer t
              | Err _ => fun app => let '(t, w) := unavailable_traffic (app_engines app) in (Ok t, set_engines app w)
              end in
    let! rest := connected_devices devices in
    answer (mkConnected (al_id (gd_allocation device)) (gd_client_name device) (connected_at device)
              (Service.session_expires_at device) t :: rest)
  end.
Definition grant_details_handler (headers : HeaderMap) (id : list byte) (now : Z) : handler AccessGrantDetails :=
  let! _ := from_result (authorize_admin headers) in
  let! found := call (fun sv => (sv, grant_details (state sv) id now)) in
  let! devices := connected_devices (snd found) in
  fun app => (Ok (mkDetails (fst found) devices (recent (activity (app_access app)) (summary_id (fst found)))), app).
Definition update_grant_handler (headers : HeaderMap) (id : list byte) (request : UpdateAccessGrantRequest) (now : Z) (io : Io) (note_now : Z)
    : handler (AccessGrantSummary * Z) :=
  let! _ := from_result (authorize_admin headers) in
  let! _ := match new_protocols request with Some protocols => from_result (require_offered config protocols) | None => answer tt end in
  let! updated := call (update_grant id request now io note_now) in
  let! _ := kick_sessions (snd updated) in
  answer (fst updated, as_u32 (zlen (snd updated))).
Definition revoke_grant_handler (headers : HeaderMap) (id : list byte) (io : Io) : handler unit :=
  let! _ := from_result (authorize_admin headers) in
  let! revoked_sessions := call (revoke_grant id io) in
  kick_sessions revoked_sessions.

(** * Background tasks *)

(** One tick of the task that ends leases. *)
Definition expire_tick (now : Z) (io : Io) (note_now : Z) : handler unit :=
  let! expired := ask_service (expire_sessions now io note_now) in
  match expired with Ok expired => kick_sessions expired | Err _ => answer tt end.

(** [meter_allowances], with the meter it keeps. *)
Definition meter_allowances (meter : UsageMeter) (now record_now : Z) (io : Io) (note_now : Z) : handler UsageMeter :=
  let! sessions := read_state (fun st => metered_sessions st now) in
  if bool_decide (length sessions = 0%nat) then answer (fst (meter_take meter [] []))
  else
    let! readings := ask_engine (usage control (map allocation sessions)) in
    match readings with
    | Err _ => answer meter
    | Ok readings =>
      let '(meter, moved) := meter_take meter sessions readings in
      let! ended := ask_service (record_usage moved record_now io note_now) in
      match ended with
      | Ok ended => let! _ := (if bool_decide (length ended = 0%nat) then answer tt else kick_sessions ended) in answer meter
      | Err _ => answer meter
      end
    end.

(** [reconcile_data_planes]: at most [attempts] times; the waits are not
    modelled.  A failure is the last error. *)
Definition set_ready (ready : bool) : handler unit := fun app => (Ok tt, mkApp (app_access app) (app_engines app) ready (app_metrics app)).
Inductive ReconcileError := NoAllocations (e : ServiceError) | NotReconciled (e : DataPlaneError).
Fixpoint reconcile_attempts (attempts : nat) (sessions : list SessionAllocation) : handler (result ReconcileError unit) :=
  match attempts with
  | O => fun app => (Err (Crashed (str "bounded reconciliation loop always returns")), app)
  | S attempts =>
    let! r := ask_engine (reconcile control sessions) in
    match r with
    | Ok _ => let! _ := set_ready true in answer (Ok tt)
    | Err e => match attempts with O => answer (Err (NotReconciled e)) | S _ => reconcile_attempts attempts sessions end
    end
  end.
Definition reconcile_data_planes (now : Z) : handler (result ReconcileError unit) :=
  let! _ := set_ready false in
  let! sessions := read_state (fun st => active_session_allocations st now) in
  match sessions with
  | Err e => answer (Err (NoAllocations e))
  | Ok sessions => reconcile_attempts 20 sessions
  end.

(** * Routes *)

(** axum's [Json] extractor: the document, or the status it rejects with. *)
Class JsonExtract := { extract_session_request : HeaderMap -> list byte -> result (Z * list byte) CreateSessionRequest }.
Context `{JsonExtract, !Json SessionStatus, !Json ErrorResponse}.
(** A handler's answer on the wire; a body that cannot be written is axum's
    plain 500, and so is a panic. *)
Definition wire_failure (f : ApiFailure) : ApiResponse :=
  match f with
  | Crashed _ => mkResponse 500 [] (str "Service panicked")
  | Refused e =>
    match json_to_vec (mkErrorResponse (ae_code e) (ae_message e) (ae_update e)) with
    | Some body => mkResponse (ae_status e) ((str "content-type", str "application/json")
        :: (if ae_status e =? 429 then [(str "retry-after", str "1")] else [])) body
    | None => mkResponse 500 [] []
    end
  end.
Definition wire_status (r : result ApiFailure SessionStatus) : ApiResponse :=
  match r with
  | Ok s => match json_to_vec s with Some body => mkResponse 200 [(str "content-type", str "application/json")] body | None => mkResponse 500 [] [] end
  | Err f => wire_failure f
  end.
(** [session_routes]. *)
Definition session_routes (d : SessionDraws) (r : InnerRequest) (app : App W) : ApiResponse * App W :=
  if bool_decide (in_uri r = SESSIONS) then
    match in_method r with
    | Post =>
      match extract_session_request (in_headers r) (in_body r) with
      | Err (status, text) => (mkResponse status [] text, app)
      | Ok request =>
        let '(res, app) := create_session_handler (in_headers r) request d app in
        (match res with Ok response => response | Err f => wire_failure f end, app)
      end
    | _ => (mkResponse 405 [] [], app)
    end
  else if bool_decide (in_uri r = SESSIONS_CURRENT) then
    match in_method r with
    | Get => let '(res, app) := session_status_handler (in_headers r) d app in (wire_status res, app)
    | Put => let '(res, app) := renew_session_handler (in_headers r) d app in (wire_status res, app)
    | Delete => let '(res, app) := release_session_handler (in_headers r) (sd_discard d) app in
      (match res with Ok _ => mkResponse 204 [] [] | Err f => wire_failure f end, app)
    | Post => (mkResponse 405 [] [], app)
    end
  else (mkResponse 404 [] [], app).
(** The routes behind the sealed gateway. *)
Definition sealed_sessions (d : SessionDraws) (r : InnerRequest) (app : App W) : InnerResponse * App W :=
  let '(response, app) := session_routes d r app in (mkInnerResponse (rs_status response) (Some (rs_body response)), app).

(** [AppState::new]. *)
Definition app_ready : bool :=
  bool_decide (is_Some (cfg_xray config)) || bool_decide (is_Some (cfg_shadowsocks config))
  || bool_decide (is_Some (cfg_wireguard config)) || bool_decide (is_Some (cfg_openvpn config)).
Definition app_new (access : Service) (engines : W) : App W := mkApp access engines (negb app_ready) (mkMetrics 0 0 0 0).
End handlers.
