(* ===== verification/ApiTransports.v ===== *)
(** What a session's transports are with settings the server accepted: they
    never make the server panic, and the app's checks pass them. *)

From Stdlib Require Import ZArith Lia SpecFloat.
From stdpp Require Import gmap strings.
From S2P Require Import Prelude Order Utf8 Str Net Vendor Invite Tunnel Seal Update Contract Control Validation Gateway StdText Config ConfigProps Engines DataPlane EngineControls Allowance Grant Model Activity Meter GrantAdmin Service ServiceInv ServiceProps ServiceUsage Api.

(** [STANDARD] decodes canonical text only. *)
Class Base64Canonical `{Base64} : Prop := base64_canonical s l : base64_decode s = Some l -> s = base64_encode l.

(** * Printable secrets *)

Lemma graphic_secret s limit : Forall (fun b => graphic b = true) s -> s <> [] -> zlen s <= limit -> secret_ok s limit = true.
Proof.
  intros HF Hn Hl. unfold secret_ok, bounded_value_ok. rewrite bool_decide_false by done. cbn [negb andb].
  destruct (graphic_plain s HF) as [_ Hc]. rewrite Hc, graphic_chars by done. unfold zlen in *. rewrite length_map.
  by rewrite (proj2 (Z.leb_le _ _)) by done.
Qed.
Lemma forallb_graphic (p : byte -> bool) s : (forall b, p b = true -> graphic b = true) -> forallb p s = true -> Forall (fun b => graphic b = true) s.
Proof. intros Hp HF. apply forallb_Forall in HF. eapply Forall_impl; [exact HF|]. done. Qed.
Lemma base64_graphic b : is_base64 b = true -> graphic b = true.
Proof. destruct b; vm_compute; congruence. Qed.
Lemma base64url_graphic b : is_base64url b = true -> graphic b = true.
Proof. destruct b; vm_compute; congruence. Qed.
Lemma alphanumeric_graphic b : is_ascii_alphanumeric b = true -> graphic b = true.
Proof. destruct b; vm_compute; congruence. Qed.
Lemma hex_graphic b : is_Some (to_digit 16 b) -> graphic b = true.
Proof. intros [v Hv]. destruct b; vm_compute in Hv |- *; congruence. Qed.
Lemma zlen_pos {A} (l : list A) : 0 < zlen l -> l <> [].
Proof. intros Hl ->. by cbn in Hl. Qed.

Section base64.
Context `{Base64Laws}.
Lemma base64_secret l limit : l <> [] -> (zlen l + 2) / 3 * 4 <= limit -> secret_ok (base64_encode l) limit = true.
Proof.
  intros Hn Hl. apply graphic_secret; [apply (forallb_graphic _ _ base64_graphic), base64_alphabet| |by rewrite base64_length].
  apply zlen_pos. rewrite base64_length. assert (1 <= zlen l) by (destruct l; [done|unfold zlen; cbn [length]; lia]).
  pose proof (Z.div_le_mono 3 (zlen l + 2) 3 ltac:(lia) ltac:(lia)). change (3 / 3) with 1 in *. lia.
Qed.
End base64.

Lemma hex2_graphic b : Forall (fun c => graphic c = true) (hex2 b).
Proof. destruct b; vm_compute; by repeat constructor. Qed.
Lemma hex_run_graphic l : Forall (fun c => graphic c = true) (flat_map hex2 l).
Proof. induction l as [|b l IH]; cbn [flat_map]; [constructor|]. by rewrite Forall_app; split; [apply hex2_graphic|]. Qed.
Lemma hex_run_length l n : (length l <= n)%nat -> (length (flat_map hex2 l) <= 2 * n)%nat.
Proof.
  intros Hl. assert (length (flat_map hex2 l) = 2 * length l)%nat as ->; [|lia].
  clear Hl. induction l as [|b l IH]; [done|]. cbn [flat_map length]. rewrite length_app, IH. cbn. lia.
Qed.
Lemma uuid_secret bytes limit : 36 <= limit -> secret_ok (uuid_text bytes) limit = true.
Proof.
  intros Hl. unfold uuid_text. apply graphic_secret.
  - repeat (rewrite Forall_app; split; [apply hex_run_graphic|]; apply Forall_cons; split; [done|]). apply hex_run_graphic.
  - intros E%(f_equal length). rewrite length_app in E. cbn [length] in E. lia.
  - unfold zlen. repeat (rewrite length_app; cbn [length]).
    pose proof (hex_run_length (take 4 bytes) 4 ltac:(rewrite length_take; lia)).
    pose proof (hex_run_length (take 2 (drop 4 bytes)) 2 ltac:(rewrite length_take; lia)).
    pose proof (hex_run_length (take 2 (drop 6 bytes)) 2 ltac:(rewrite length_take; lia)).
    pose proof (hex_run_length (take 2 (drop 8 bytes)) 2 ltac:(rewrite length_take; lia)).
    pose proof (hex_run_length (take 6 (drop 10 bytes)) 6 ltac:(rewrite length_take; lia)). lia.
Qed.

(** * OpenVPN material *)

Lemma trim_chars_inside cs : exists a b, cs = a ++ trim_chars cs ++ b.
Proof.
  destruct (trim_start_suffix cs) as [pre E]. destruct (trim_start_suffix (rev (trim_start cs))) as [post E'].
  exists pre, (rev post). unfold trim_chars. rewrite E at 1. f_equal.
  rewrite <- (rev_involutive (trim_start cs)) at 1. rewrite E' at 1. by rewrite rev_app_distr.
Qed.
Lemma trim_length s : zlen (trim s) <= zlen s.
Proof.
  unfold trim. destruct (chars s) as [cs|] eqn:Ec; [|lia]. destruct (chars_inv _ _ Ec) as [_ Es].
  destruct (trim_chars_inside cs) as (a & b & E). rewrite Es. rewrite E at 2. rewrite !encode_chars_app, !zlen_app.
  pose proof (zlen_nonneg (encode_chars a)). pose proof (zlen_nonneg (encode_chars b)). lia.
Qed.
Lemma material_length m b e r : normalize_openvpn_material m b e = Some r -> 1 <= zlen r <= zlen m + 1.
Proof.
  unfold normalize_openvpn_material. intros Hr. break_in Hr. injection Hr as <-. rewrite zlen_app. change (zlen [newline]) with 1.
  pose proof (trim_length m). unfold slice_from, zlen in *. rewrite length_drop. lia.
Qed.

(** * A profile the server accepted *)

Record profile_wf (p : TransportProfile) : Prop := {
  pw_id : identifier_ok (tp_id p) MAX_TRANSPORT_ID_CHARS = true;
  pw_name : text_ok (tp_display_name p) MAX_NODE_TEXT_CHARS = true;
  pw_endpoint : endpoint_name_ok (tp_endpoint p) = true /\ endpoint_marks (tp_endpoint p) = false;
  pw_port : tp_port p <> 0;
  pw_server_name : forall name, tp_tls_server_name p = Some name -> endpoint_name_ok name = true;
  pw_options_size : (size (tp_options p) <= MAX_OPTION_ENTRIES)%nat;
  pw_options : map_Forall (fun k v => option_key_ok k = true /\ bounded_value_ok v MAX_OPTION_VALUE_CHARS = true) (tp_options p);
}.

Lemma server_profile_wf ids p : server_validate_transport ids p = Ok tt -> profile_wf p /\ tp_id p ∉ ids.
Proof.
  unfold server_validate_transport, server_validate_identifier, server_validate_text. intros Hp. bind_inv Hp.
  repeat match goal with E : ensure _ _ _ = Ok _ |- _ => apply ensure_ok' in E end. bool_prop. split; [|done].
  assert (HH : forall r : result ConfigError unit, is_ok r = true -> r = Ok tt) by (by intros [[]|]).
  split; try done.
  - match goal with E : is_ok _ = true |- _ => apply HH, hostname_endpoint in E; exact E end.
  - intros name Hn. rewrite Hn in *.
    match goal with E : validate_hostname name _ = Ok ?u |- _ => destruct u; apply hostname_endpoint in E; apply E end.
  - match goal with E : ensure_all _ _ = Ok ?u |- _ => destruct u; apply ensure_all_ok, entries_all in E; rename E into HO end.
    intros k v Hk. specialize (HO k v Hk). cbn in HO. unfold server_validate_option in HO. bind_inv HO.
    repeat match goal with E : _ = Ok _ |- _ => apply ensure_ok' in E end. done.
Qed.
Lemma server_profiles_wf ids l : server_validate_each ids l = Ok tt ->
  Forall profile_wf l /\ NoDup (map tp_id l) /\ Forall (fun p => tp_id p ∉ ids) l.
Proof.
  revert ids; induction l as [|p l IH]; intros ids; cbn [server_validate_each map].
  - intros _. split_and!; constructor.
  - intros Hp. destruct (server_validate_transport ids p) as [[]|] eqn:E; [|done].
    apply server_profile_wf in E as [Hw Hi]. apply IH in Hp as (HF & HN & HI). rewrite Forall_forall in HI.
    split_and!; [by constructor| |].
    + constructor; [|done]. intros (q & E & Hq)%elem_of_map. specialize (HI q Hq). rewrite <- E in HI. set_solver.
    + constructor; [done|]. apply Forall_forall. intros q Hq. specialize (HI q Hq). set_solver.
Qed.
Lemma server_transports_wf l : server_validate_transports l = Ok tt ->
  zlen l <= MAX_TRANSPORTS /\ Forall profile_wf l /\ NoDup (map tp_id l).
Proof.
  unfold server_validate_transports. intros Hl. bind_inv Hl. apply ensure_ok' in E. bool_prop.
  apply server_profiles_wf in Hl as (? & ? & _). done.
Qed.

(** * The session's transports *)

Section transports.
Context `{Base64Laws, !Base64Canonical, HmacLaws, Files, !FilesLaws}.
Context `{Ed25519, Hashes, Encodings, UrlParser, UrlOps, Hpke, UrlText, !Json (list TransportProfile)}.
Context (env : Environment) (c : ServerConfig) (Hc : from_env env = Ok c).
(** The one secret the settings do not bound as the app does. *)
Context (Hobfs : forall h password, cfg_hysteria c = Some h -> hy_obfuscation h = Salamander password \/ hy_obfuscation h = Gecko password ->
  bounded_value_ok password MAX_SECRET_CHARS = true).
Context (created : CreatedSession).
Context (Hid : valid_session_username (cs_id created) = true).
Context (Htoken : is_ok (split_session_token (cs_data_plane_token created)) = true).
Context (Hslot : 0 <= cs_resource_slot created < cfg_max_sessions c).

Definition credential_wf (protocol : TransportProtocol) (cr : TransportCredential) : Prop :=
  secret_ok (tc_auth cr) MAX_SECRET_CHARS = true /\ (size (tc_secrets cr) <= MAX_SECRET_ENTRIES)%nat /\
  map_Forall (fun k v => option_key_ok k = true /\ secret_ok v (secret_limit protocol k) = true) (tc_secrets cr).

Lemma wf_of_profile p cr : profile_wf p -> (forall x, cr = Some x -> credential_wf (tp_protocol p) x) -> transport_wf (mkTransport p cr).
Proof. intros [? ? ? ? ? ? ?] Hcr. by split. Qed.

Lemma alphanumeric_secret s limit : forallb is_ascii_alphanumeric s = true -> 0 < zlen s <= limit -> secret_ok s limit = true.
Proof.
  intros HF Hl. apply graphic_secret; [by apply (forallb_graphic _ _ alphanumeric_graphic)|apply zlen_pos; lia|lia].
Qed.
Lemma token_secret : secret_ok (cs_data_plane_token created) MAX_SECRET_CHARS = true.
Proof.
  unfold split_session_token in Htoken. destruct (validate_alphanumeric _ _) as [u|] eqn:Ea; [|done]. clear Htoken.
  unfold validate_alphanumeric in Ea. destruct (negb _ || negb _) eqn:Eo; [done|]. bool_prop. apply alphanumeric_secret; [done|].
  match goal with E : zlen _ = _ |- _ => rewrite E end. done.
Qed.
Lemma id_secret limit : 12 <= limit -> secret_ok (cs_id created) limit = true.
Proof. unfold valid_session_username in Hid. bool_prop. intros Hl. apply alphanumeric_secret; [done|]. lia. Qed.
Lemma hmac_secret key m : secret_ok (base64_encode (hmac_sha256 key m)) MAX_SECRET_CHARS = true.
Proof.
  pose proof (hmac_length key m) as Hl. apply base64_secret; [intros E; by rewrite E in Hl|]. unfold zlen. rewrite Hl. vm_compute. congruence.
Qed.
Lemma other_limit protocol k : openvpn_material k = false -> secret_limit protocol k = MAX_SECRET_CHARS.
Proof. intros Hk. unfold secret_limit. by rewrite Hk, andb_false_r. Qed.
Lemma material_secret m : from_material m -> secret_ok (base64_encode m) MAX_OPENVPN_ENCODED_MATERIAL_CHARS = true.
Proof.
  intros (path & e & t & b & d & Hf & Hl & Ht & Hm). rewrite (file_entry_len _ _ _ Hf Ht) in Hl. apply material_length in Hm.
  unfold MAX_OPENVPN_MATERIAL_BYTES in Hl. apply base64_secret; [apply zlen_pos; lia|].
  pose proof (Z.div_le_mono (zlen m + 2) 8195 3 ltac:(lia) ltac:(lia)). change (8195 / 3) with 2731 in *.
  change MAX_OPENVPN_ENCODED_MATERIAL_CHARS with 10924. lia.
Qed.

(** Options and secrets given as a list of distinct keys. *)
Lemma options_of_Forall (P : list byte -> list byte -> Prop) l :
  Forall (fun kv => P (str kv.1) kv.2) l -> map_Forall P (options_of l).
Proof.
  intros HF k v Hk. unfold options_of in Hk. apply elem_of_list_to_map_2, elem_of_map in Hk as ([k' v'] & [= -> ->] & Hin).
  rewrite Forall_forall in HF. apply (HF _ Hin).
Qed.
Lemma options_of_size l : (size (options_of l) <= length l)%nat.
Proof.
  unfold options_of. rewrite <- (length_map (fun '(k, v) => (str k, v)) l). induction (map _ l) as [|[k v] m IH]; [done|].
  cbn [list_to_map foldr length fst snd]. destruct (decide (is_Some ((list_to_map m : gmap _ _) !! k))) as [Hs|Hs].
  - rewrite map_size_insert_Some by done. lia.
  - rewrite map_size_insert_None by (by apply eq_None_not_Some). lia.
Qed.
Lemma wf_secrets protocol auth l :
  secret_ok auth MAX_SECRET_CHARS = true -> (length l <= MAX_SECRET_ENTRIES)%nat ->
  Forall (fun kv => option_key_ok (str kv.1) = true /\ secret_ok kv.2 (secret_limit protocol (str kv.1)) = true) l ->
  credential_wf protocol (mkCredential auth (options_of l)).
Proof.
  intros Ha Hl HF. split; [done|]. cbn [tc_secrets]. split; [pose proof (options_of_size l); lia|]. by apply options_of_Forall.
Qed.

Let W : config_wf c := from_env_wf env c Hc.
Lemma transports_wf : zlen (cfg_transports c) <= MAX_TRANSPORTS /\ Forall profile_wf (cfg_transports c) /\ NoDup (map tp_id (cfg_transports c)).
Proof. apply server_transports_wf, W. Qed.
Lemma same_profile p q : p ∈ cfg_transports c -> q ∈ cfg_transports c -> tp_id p = tp_id q -> p = q.
Proof.
  intros Hp Hq E. destruct transports_wf as (_ & _ & HN). apply list_elem_of_lookup in Hp as [i Hi]. apply list_elem_of_lookup in Hq as [j Hj].
  assert (i = j) as ->; [|congruence]. eapply (NoDup_lookup (map tp_id (cfg_transports c))); [done|..]; apply list_lookup_fmap_Some; eauto.
Qed.
Lemma engine_for_some {A} (o : option A) f id a : engine_for o f id = Some a -> o = Some a /\ f a = id.
Proof. unfold engine_for. destruct o as [x|]; [|done]. case_bool_decide; [|done]. by intros [= ->]. Qed.

Lemma hysteria_transport_wf h p : cfg_hysteria c = Some h -> profile_wf p ->
  transport_wf (mkTransport p (Some (mkCredential (cs_data_plane_token created) (obfuscation_secrets (hy_obfuscation h))))).
Proof.
  intros Hh Hp. apply wf_of_profile; [done|]. intros x [= <-]. destruct (wf_hysteria _ W h Hh) as [Ho _].
  assert (HP : forall password, hy_obfuscation h = Salamander password \/ hy_obfuscation h = Gecko password -> secret_long password ->
    credential_wf (tp_protocol p) (mkCredential (cs_data_plane_token created) (options_of [("obfs_password"%string, password)]))).
  { intros password Hk Hl. apply wf_secrets; [apply token_secret|cbn; unfold MAX_SECRET_ENTRIES; lia|]. constructor; [|constructor].
    cbn [fst snd]. rewrite other_limit by done. split; [done|]. unfold secret_ok. rewrite (Hobfs h password Hh Hk), andb_true_r.
    apply negb_true_iff, bool_decide_eq_false. apply zlen_pos. unfold secret_long in Hl. lia. }
  destruct (hy_obfuscation h) as [|password|password] eqn:Eo; cbn in Ho.
  - apply (wf_secrets _ _ []); [apply token_secret|cbn; lia|constructor].
  - apply HP; [by left|done].
  - apply HP; [by right|done].
Qed.
Lemma shadowsocks_transport_wf s p : cfg_shadowsocks c = Some s -> profile_wf p ->
  exists port, session_port s (cs_resource_slot created) = Some port /\
    transport_wf (mkTransport (set_port p port) (Some (shadowsocks_credential s (cs_id created)))).
Proof.
  intros Hs [? ? ? ? ? ? ?]. pose proof (wf_shadowsocks _ W s Hs) as Ws. destruct (session_port_ok _ s _ Ws Hslot) as [Ep _].
  destruct Ws as [[Hb _] _ _ _]. unfold is_port in Hb. eexists. split; [exact Ep|].
  apply wf_of_profile; [split; cbn; try done; lia|]. intros x [= <-]. apply (wf_secrets _ _ []); [apply hmac_secret|cbn; lia|constructor].
Qed.
Lemma show_ipv4_length n : zlen (show_ipv4 n) <= 15.
Proof.
  assert (HO : forall i, zlen (show_octet (octet i n)) <= 3).
  { intros i. assert (Hr : 0 <= octet i n < 256) by (unfold octet; apply Z.mod_pos_bound; lia).
    assert (HF : forallb (fun m => zlen (show_octet m) <=? 3) (seqZ 0 256) = true) by (vm_compute; reflexivity).
    rewrite forallb_Forall, Forall_forall in HF. specialize (HF (octet i n) ltac:(apply elem_of_seqZ; lia)). by bool_prop. }
  unfold show_ipv4. cbn [map join]. unfold zlen in *. repeat (rewrite length_app; cbn [length]).
  pose proof (HO 0). pose proof (HO 1). pose proof (HO 2). pose proof (HO 3). lia.
Qed.
Lemma address_value slot a : 0 <= slot -> client_address slot = Some a -> bounded_value_ok a MAX_OPTION_VALUE_CHARS = true.
Proof.
  intros Hs Ha. pose proof (client_address_parse _ _ Hs Ha) as [Hm Hp]. rewrite client_address_ip in Ha by lia.
  assert (Forall (fun b => graphic b = true) a) as HG.
  { eapply Forall_impl; [by eapply parse_ip_bytes|]. apply addr_byte_graphic. }
  unfold bounded_value_ok. destruct (graphic_plain a HG) as [_ ->]. rewrite graphic_chars by done. unfold zlen. rewrite length_map.
  assert (a = show_ipv4 (ipv4 10 66 0 2 + slot)) as -> by (unfold wireguard_ip, show_ip in Ha; congruence).
  pose proof (show_ipv4_length (ipv4 10 66 0 2 + slot)). rewrite (proj2 (Z.leb_le _ _)); [done|]. unfold MAX_OPTION_VALUE_CHARS, zlen in *. lia.
Qed.
Lemma wireguard_transport_wf g p : cfg_wireguard c = Some g -> p ∈ cfg_transports c -> profile_wf p -> tp_id p = wg_transport_id g ->
  exists address cr, client_address (cs_resource_slot created) = Some address /\ wireguard_credential g (cs_id created) = Some cr /\
    transport_wf (mkTransport (set_option p (str "client_address") address) (Some cr)).
Proof.
  intros Hg Hin Hp Hpid. destruct (wf_wireguard _ W g Hg) as [Hm _ _ (key & Hk & Hkl)].
  pose proof (client_address_ip (cs_resource_slot created) ltac:(lia)) as Ea.
  assert (Ep : p = wireguard_profile g) by (apply same_profile; [done|by apply (wf_advertises _ W)|done]).
  eexists _, _. split; [exact Ea|]. unfold wireguard_credential, managed_peer. change (client_address 0) with (Some (str "10.66.0.2")).
  cbn [peer_private_key peer_preshared_key]. split; [done|]. apply wf_of_profile.
  - destruct Hp as [? ? ? ? ? ? HO]. split; cbn [set_option tp_id tp_display_name tp_endpoint tp_port tp_tls_server_name tp_options]; try done.
    + rewrite Ep. cbn [wireguard_profile tp_options]. rewrite map_size_insert.
      pose proof (options_of_size [("address_allocation"%string, str "lease_slot"); ("allowed_ips"%string, str "0.0.0.0/0");
        ("keepalive_seconds"%string, str "25"); ("mtu"%string, str "1280"); ("path_prefix"%string, wg_path_prefix g);
        ("remote_address"%string, str "wireguard-agent:51820"); ("transport"%string, str "websocket_tls")]) as Hsz.
      cbn [length] in Hsz. unfold MAX_OPTION_ENTRIES. case_match; unfold id; lia.
    + apply map_Forall_insert_2; [|done]. split; [done|]. by eapply address_value; [|exact Ea]; lia.
  - intros x [= <-]. apply wf_secrets; [apply hmac_secret|cbn; unfold MAX_SECRET_ENTRIES; lia|].
    repeat (constructor; [cbn [fst snd]; rewrite other_limit by done; split; [done|]|]); [apply hmac_secret| |constructor].
    rewrite (base64_canonical _ _ Hk). apply base64_secret; [apply zlen_pos; lia|]. rewrite Hkl. vm_compute. congruence.
Qed.
Lemma openvpn_transport_wf o p : cfg_openvpn c = Some o -> p ∈ cfg_transports c -> profile_wf p -> tp_id p = ov_transport_id o ->
  transport_wf (mkTransport p (Some (mkCredential (cs_data_plane_token created) (openvpn_secrets o (cs_id created))))).
Proof.
  intros Ho Hin Hp Hpid. destruct (wf_openvpn _ W o Ho) as [_ (Hca & Hst & Htls) _].
  assert (Ep : p = openvpn_profile o) by (apply same_profile; [done|by apply (wf_advertises _ W)|done]).
  apply wf_of_profile; [done|]. intros x [= <-]. apply wf_secrets; [apply token_secret|cbn; unfold MAX_SECRET_ENTRIES; lia|].
  rewrite Ep. cbn [openvpn_profile tp_protocol].
  repeat (constructor; [cbn [fst snd]; split; [done|]|]); [by apply material_secret..| |constructor].
  rewrite other_limit by done. apply id_secret. done.
Qed.
Lemma xray_transport_wf p : profile_wf p ->
  transport_wf (mkTransport p (cfg_xray c ≫= fun x => xray_credential x (tp_id p) (cs_id created))).
Proof.
  intros Hp. apply wf_of_profile; [done|]. intros cr Hcr. destruct (cfg_xray c) as [x|] eqn:Ex; [|done]. cbn in Hcr.
  pose proof (wf_xray _ W x Ex) as Wx. unfold xray_credential in Hcr.
  destruct (xr_reality x) as [r|] eqn:Er; [case_bool_decide|].
  - injection Hcr as <-. destruct (xr_reality_wf _ Wx r Er) as [[_ (Hl & Hf & _) (Hs & Hh) _] _].
    apply wf_secrets; [by apply uuid_secret|cbn; unfold MAX_SECRET_ENTRIES; lia|].
    repeat (constructor; [cbn [fst snd]; rewrite other_limit by done; split; [done|]|]); [| |constructor].
    + apply graphic_secret; [by apply (forallb_graphic _ _ base64url_graphic)|apply zlen_pos; lia|rewrite Hl; done].
    + apply graphic_secret; [|apply zlen_pos; lia|rewrite Hs; done]. eapply Forall_impl; [exact Hh|]. apply hex_graphic.
  - destruct (xr_xhttp x) as [h|]; [case_bool_decide|]; try done. injection Hcr as <-.
    apply (wf_secrets _ _ []); [by apply uuid_secret|cbn; lia|constructor].
  - destruct (xr_xhttp x) as [h|]; [case_bool_decide|]; try done. injection Hcr as <-.
    apply (wf_secrets _ _ []); [by apply uuid_secret|cbn; lia|constructor].
Qed.

Lemma session_transport_wf p : p ∈ cfg_transports c ->
  exists t, session_transport c created p = Ok t /\ transport_wf t /\ tp_id (st_profile t) = tp_id p.
Proof.
  intros Hin. destruct transports_wf as (_ & HF & _). rewrite Forall_forall in HF. pose proof (HF p Hin) as Hp.
  unfold session_transport.
  destruct (engine_for (cfg_hysteria c) hy_transport_id (tp_id p)) as [h|] eqn:E1.
  { apply engine_for_some in E1 as [Hh _]. eexists. split; [done|]. split; [by apply hysteria_transport_wf|done]. }
  destruct (engine_for (cfg_shadowsocks c) ss_transport_id (tp_id p)) as [s|] eqn:E2.
  { apply engine_for_some in E2 as [Hs _]. destruct (shadowsocks_transport_wf s p Hs Hp) as (port & -> & Hw). eexists. by split. }
  destruct (engine_for (cfg_wireguard c) wg_transport_id (tp_id p)) as [g|] eqn:E3.
  { apply engine_for_some in E3 as [Hg Hi]. destruct (wireguard_transport_wf g p Hg Hin Hp) as (a & cr & -> & -> & Hw); [done|].
    eexists. by split. }
  destruct (engine_for (cfg_openvpn c) ov_transport_id (tp_id p)) as [o|] eqn:E4.
  { apply engine_for_some in E4 as [Ho Hi]. eexists. split; [done|]. split; [by apply openvpn_transport_wf|done]. }
  eexists. split; [done|]. split; [by apply xray_transport_wf|done].
Qed.
Lemma session_transports_wf : exists ts, session_transports c created = Ok ts /\ Forall transport_wf ts /\
  map (fun t => tp_id (st_profile t)) ts = map tp_id (filter (fun p => allows (cs_protocols created) (tp_protocol p) = true) (cfg_transports c)).
Proof.
  unfold session_transports. set (l := filter _ _).
  assert (HL : forall p, p ∈ l -> p ∈ cfg_transports c) by (intros p [_ Hp]%list_elem_of_filter; done). clearbody l.
  induction l as [|p l IH]; [exists []; split_and!; constructor|]. cbn [collect].
  destruct (session_transport_wf p) as (t & -> & Ht & Hi); [apply HL; left|].
  destruct IH as (ts & -> & HF & Hm); [intros q Hq; apply HL; by right|]. eexists. split; [done|].
  split; [by constructor|]. cbn [map]. by rewrite Hi, Hm.
Qed.
End transports.
