(* ===== verification/ApiDemo.v ===== *)
(** Concrete stand-ins for the libraries the server's settings and API call,
    with their laws, and the settings of a small node with every engine. *)

From Stdlib Require Import ZArith Lia SpecFloat.
From stdpp Require Import gmap strings.
From S2P Require Import Prelude Order Utf8 Str Net Vendor Instances Invite Tunnel Seal Update Contract Control Validation Gateway SealedDemo StdText Config ConfigProps Engines DataPlane EngineControls Meter Grant ApiTransports.

(** * Libraries *)

Definition base64_alphabet_bytes : list byte := str "ABCDEFGHIJKLMNOPQRSTUVWXYZabcdefghijklmnopqrstuvwxyz0123456789+/".
Definition equals : byte := z2b 61.
(** Unpadded text, then the padding to a multiple of four. *)
Definition padded (s : list byte) : list byte := s ++ replicate (Z.to_nat ((- zlen s) mod 4)) equals.
#[export] Instance demo_base64 : Base64 := {|
  base64_encode l := padded (rfc_encode 6 base64_alphabet_bytes l);
  base64_decode s :=
    match rfc_decode 6 base64_alphabet_bytes (trim_end_matches (fun b => bool_decide (b = equals)) s) with
    | Some l => if bool_decide (padded (rfc_encode 6 base64_alphabet_bytes l) = s) then Some l else None
    | None => None
    end;
|}.
Lemma trim_start_replicate n s : equals ∉ s -> trim_start_matches (fun b => bool_decide (b = equals)) (replicate n equals ++ s) = s.
Proof.
  intros Hs. induction n as [|n IH]; cbn [replicate app trim_start_matches]; [|by rewrite bool_decide_true].
  destruct s as [|b s]; [done|]. cbn. rewrite bool_decide_false; [done|]. intros ->. apply Hs. left.
Qed.
Lemma rev_replicate n : rev (replicate n equals) = replicate n equals.
Proof. induction n as [|n IH]; [done|]. cbn [replicate rev]. by rewrite IH, <- replicate_cons_app. Qed.
Lemma trim_padded s : equals ∉ s -> trim_end_matches (fun b => bool_decide (b = equals)) (padded s) = s.
Proof.
  intros Hs. unfold trim_end_matches, padded. rewrite rev_app_distr, rev_replicate, trim_start_replicate.
  - apply rev_involutive.
  - intros Hin. apply Hs. by apply list_elem_of_In, in_rev, list_elem_of_In.
Qed.
Definition is_equals (b : byte) : bool := bool_decide (b = equals).
Lemma rfc_no_equals l : equals ∉ rfc_encode 6 base64_alphabet_bytes l.
Proof.
  assert (HF : forallb (fun b => negb (is_equals b)) (rfc_encode 6 base64_alphabet_bytes l) = true) by (apply encode_alphabet; [lia|vm_compute; reflexivity]).
  rewrite forallb_Forall, Forall_forall in HF. intros Hin. specialize (HF _ Hin). unfold is_equals in HF. by rewrite bool_decide_true in HF.
Qed.
#[local] Ltac Zify.zify_post_hook ::= Z.div_mod_to_equations.
#[export] Instance demo_base64_laws : Base64Laws.
Proof.
  split; intros l; cbn [base64_decode base64_encode demo_base64].
  - rewrite trim_padded by apply rfc_no_equals. rewrite rfc_decode_encode; [by rewrite bool_decide_true|lia|].
    apply alphabet_index. vm_compute. reflexivity.
  - unfold padded. rewrite forallb_app, andb_true_iff. split; [apply encode_alphabet; [lia|vm_compute; reflexivity]|].
    apply forallb_Forall, Forall_replicate. by vm_compute.
  - unfold padded. rewrite zlen_app, rfc_length by lia. unfold zlen at 2. rewrite length_replicate.
    pose proof (zlen_nonneg l). lia.
Qed.
#[export] Instance demo_base64_canonical : Base64Canonical.
Proof.
  intros s l. cbn [base64_decode base64_encode demo_base64]. destruct (rfc_decode _ _ _) as [r|]; [|done].
  case_bool_decide; [|done]. by intros [= <-].
Qed.
#[export] Instance demo_hmac : Hmac := fun key m => sha256 (key ++ m).
#[export] Instance demo_hmac_laws : HmacLaws.
Proof. intros key m. apply sha256_length. Qed.
#[export] Instance demo_url_text : UrlText := fun _ => [].
#[export] Instance demo_profiles_json : Json (list TransportProfile) := {| json_to_vec _ := None; json_from_slice _ := None |}.

(** * Files and settings *)

Definition demo_certificate : list byte := str "-----BEGIN CERTIFICATE-----" ++ [newline] ++ str "MIIB" ++ [newline] ++ str "-----END CERTIFICATE-----" ++ [newline].
Definition demo_static_key : list byte :=
  str "# static key" ++ [newline] ++ str "-----BEGIN OpenVPN Static key V1-----" ++ [newline] ++ str "00ff" ++ [newline]
  ++ str "-----END OpenVPN Static key V1-----".
#[export] Instance demo_files : Files := fun path =>
  let file text := Some (mkFile true (zlen text) (Some text)) in
  if bool_decide (path = str "/ca.pem") then file demo_certificate
  else if bool_decide (path = str "/tls.key") then file demo_static_key else None.
#[export] Instance demo_files_laws : FilesLaws.
Proof. intros path e text. unfold file_entry, demo_files. repeat case_bool_decide; try done; intros [= <-] [= <-]; done. Qed.

Definition demo_secret : list byte := str "0123456789abcdef0123456789abcdef".
Definition demo_settings (obfs_password : list byte) : Environment := list_to_map (map (fun '(k, v) => (str k, v)) [
  ("KET_ADMIN_TOKEN"%string, str "admin-0123456789abcdef0123456789"); ("KET_PUBLIC_URL"%string, str "https://node.example.com"); ("KET_MAX_SESSIONS"%string, str "4"); ("KET_SESSION_TTL_SECONDS"%string, str "3600");
  ("KET_COUNTRY_CODE"%string, str "DE"); ("KET_LATITUDE"%string, str "52.52"); ("KET_LONGITUDE"%string, str "13.4");
  ("KET_HYSTERIA_ENABLED"%string, str "true"); ("KET_HYSTERIA_PUBLIC_HOST"%string, str "node.example.com");
  ("KET_HYSTERIA_STATS_SECRET"%string, demo_secret); ("KET_HYSTERIA_MASQUERADE_URL"%string, str "https://example.com/");
  ("KET_HYSTERIA_OBFS"%string, str "gecko"); ("KET_HYSTERIA_OBFS_PASSWORD"%string, obfs_password);
  ("KET_SHADOWSOCKS_ENABLED"%string, str "true"); ("KET_SHADOWSOCKS_PUBLIC_HOST"%string, str "192.0.2.7");
  ("KET_SHADOWSOCKS_PORT_START"%string, str "20000"); ("KET_SHADOWSOCKS_PORT_END"%string, str "20003");
  ("KET_SHADOWSOCKS_CREDENTIAL_KEY"%string, demo_secret);
  ("KET_WIREGUARD_ENABLED"%string, str "true"); ("KET_WIREGUARD_MANAGER_URL"%string, str "http://wireguard-agent:9500/");
  ("KET_WIREGUARD_MANAGER_TOKEN"%string, demo_secret); ("KET_WIREGUARD_CREDENTIAL_KEY"%string, demo_secret);
  ("KET_WIREGUARD_SERVER_PUBLIC_KEY"%string, base64_encode demo_secret); ("KET_WIREGUARD_WS_PATH_PREFIX"%string, str "ket-wireguard-path");
  ("KET_WIREGUARD_PUBLIC_HOST"%string, str "node.example.com"); ("KET_WIREGUARD_SNI"%string, str "node.example.com");
  ("KET_OPENVPN_ENABLED"%string, str "true"); ("KET_OPENVPN_MANAGER_URL"%string, str "http://openvpn-agent:9600");
  ("KET_OPENVPN_MANAGER_TOKEN"%string, demo_secret); ("KET_OPENVPN_AUTH_TOKEN"%string, str "openvpn-auth-0123456789abcdef0123");
  ("KET_OPENVPN_CA_CERT_PATH"%string, str "/ca.pem"); ("KET_OPENVPN_STUNNEL_CA_CERT_PATH"%string, str "/ca.pem");
  ("KET_OPENVPN_TLS_CRYPT_KEY_PATH"%string, str "/tls.key"); ("KET_OPENVPN_PUBLIC_HOST"%string, str "node.example.com");
  ("KET_OPENVPN_SNI"%string, str "node.example.com");
  ("KET_XRAY_ENABLED"%string, str "true"); ("KET_XHTTP_ENABLED"%string, str "true"); ("KET_XRAY_CREDENTIAL_KEY"%string, demo_secret);
  ("KET_XRAY_API_SERVER"%string, str "xray:10085"); ("KET_XRAY_PUBLIC_HOST"%string, str "node.example.com"); ("KET_XRAY_SNI"%string, str "www.example.org");
  ("KET_XRAY_SERVER_NAMES"%string, str "www.example.org, example.org"); ("KET_XRAY_REALITY_TARGET"%string, str "www.example.org:443");
  ("KET_XRAY_PRIVATE_KEY"%string, str "AAAAAAAAAAAAAAAAAAAAAAAAAAAAAAAAAAAAAAAAAAA"); ("KET_XRAY_PUBLIC_KEY"%string, str "BBBBBBBBBBBBBBBBBBBBBBBBBBBBBBBBBBBBBBBBBBB");
  ("KET_XRAY_SHORT_ID"%string, str "0123456789ABCDEF"); ("KET_XHTTP_PATH"%string, str "/ket/xhttp-stealth"); ("KET_XHTTP_PUBLIC_HOST"%string, str "node.example.com");
  ("KET_XHTTP_SNI"%string, str "node.example.com")]).
Definition demo_env : Environment := demo_settings demo_secret.
Definition no_config : ServerConfig :=
  mkServerConfig (mkSocket (V4 0) 0, 0) [] [] [] [] [] (mkLocation [] [] None S754_nan S754_nan) 0 0 [] None None None None None None
    (mkClientUpdates (mkPolicy (mkVersion 0 0 0) None Enforce []) (mkManifest 0 0 [])).
(** What the settings are read into. *)
Definition config_of (env : Environment) : ServerConfig := match from_env env with Ok c => c | Err _ => no_config end.
Definition demo_config : ServerConfig := config_of demo_env.
Lemma config_of_ok env : is_ok (from_env env) = true -> from_env env = Ok (config_of env).
Proof. unfold config_of. by destruct (from_env env). Qed.
Lemma demo_config_ok : from_env demo_env = Ok demo_config.
Proof. apply config_of_ok. vm_compute. reflexivity. Qed.
Example demo_config_reads :
  map tp_id (cfg_transports demo_config) = [str "hy2-primary"; str "openvpn-stunnel-primary"; str "vless-reality-primary";
    str "https-stealth-primary"; str "shadowsocks-2022-primary"; str "wireguard-tls-primary"].
Proof. vm_compute. reflexivity. Qed.
