(* ===== verification/ApiLogic.v ===== *)
(** A Hoare logic for the API's handlers, an engine that records what it is
    told, and the invariant of the whole server: what the engines serve is
    what the access service admits.

    Every handler and background task of the server keeps its invariant, and
    the states the server reaches by them. *)

From Stdlib Require Import ZArith Lia SpecFloat.
From stdpp Require Import gmap strings.
From S2P Require Import Prelude Order Utf8 Str Vendor Invite Tunnel Seal Update Contract Control Validation Gateway StdText Config Engines DataPlane EngineControls Allowance Grant Model Activity Meter GrantAdmin Service ServiceInv ServiceProps ServiceEnds Api.

(** * Triples *)

Section triples.
Context {W : Type}.
Implicit Types (P : App W -> Prop) (E : ApiFailure -> App W -> Prop).

(** From [P], the handler gives an answer and [Q], or fails and [E]. *)
Definition hoare {A} P (h : handler A) (Q : A -> App W -> Prop) E : Prop :=
  forall app, P app -> match h app with (Ok a, app') => Q a app' | (Err f, app') => E f app' end.

Lemma hoare_answer {A} P (a : A) Q E : (forall app, P app -> Q a app) -> hoare P (answer a) Q E.
Proof. intros HQ app HP. by apply HQ. Qed.
Lemma hoare_refuse {A} P e (Q : A -> App W -> Prop) E : (forall app, P app -> E (Refused e) app) -> hoare P (refuse e) Q E.
Proof. intros HE app HP. by apply HE. Qed.
Lemma hoare_from_result {A} P (r : result ApiError A) Q E :
  (forall app a, P app -> r = Ok a -> Q a app) -> (forall app e, P app -> r = Err e -> E (Refused e) app) -> hoare P (from_result r) Q E.
Proof. intros HQ HE app HP. unfold from_result. destruct r; eauto. Qed.
Lemma hoare_bind {A B} P (m : handler A) (k : A -> handler B) R Q E :
  hoare P m R E -> (forall a, hoare (R a) (k a) Q E) -> hoare P (bind_handler m k) Q E.
Proof.
  intros Hm Hk app HP. unfold bind_handler. specialize (Hm app HP). destruct (m app) as [[a|f] app']; [|done]. by apply Hk.
Qed.
Lemma hoare_then {A B} P (m : handler A) (k : A -> handler B) (Q : B -> App W -> Prop) :
  hoare P m (fun _ => P) (fun _ => P) -> (forall a, hoare P (k a) Q (fun _ => P)) -> hoare P (bind_handler m k) Q (fun _ => P).
Proof. apply hoare_bind. Qed.
Lemma hoare_weaken {A} P P' (h : handler A) (Q Q' : A -> App W -> Prop) E :
  hoare P h Q E -> (forall app, P' app -> P app) -> (forall a app, Q a app -> Q' a app) -> hoare P' h Q' E.
Proof. intros Hh HP HQ app Happ. specialize (Hh app (HP app Happ)). destruct (h app) as [[a|f] app']; auto. Qed.
Lemma hoare_run {A} P (h : handler A) R app : hoare P h (fun _ => R) (fun _ => R) -> P app -> R (h app).2.
Proof. intros Hh HP. specialize (Hh app HP). by destruct (h app) as [[a|f] app']. Qed.
End triples.

(** A handler that keeps a property of the state, whatever it answers. *)
Notation keeps P h := (hoare P h (fun _ => P) (fun _ => P)).

(** * What the engines are told *)

Inductive EngineCall :=
| Provisioned (session : SessionAllocation)
| Reconciled (sessions : list SessionAllocation) (ok : bool)
| Kicked (sessions : list SessionAllocation).

(** The sessions the engines serve after the calls, if they obey them; a call
    that fails counts as made. *)
Definition tell (serving : list SessionAllocation) (c : EngineCall) : list SessionAllocation :=
  match c with
  | Provisioned a => a :: serving
  | Reconciled l _ => l
  | Kicked l => filter (fun a => a ∉ l) serving
  end.
Definition told (calls : list EngineCall) : list SessionAllocation := fold_left tell calls [].
Lemma told_snoc calls c : told (calls ++ [c]) = tell (told calls) c.
Proof. unfold told. by rewrite fold_left_app. Qed.

Section traced.
Context {W : Type} `{EngineClock W}.

(** An engine, with the calls made of it. *)
Definition Traced : Type := W * list EngineCall.
#[export] Instance traced_clock : EngineClock Traced := fun '(w, calls) => let '(now, w) := engine_time w in (now, (w, calls)).
Definition trace_call {A} (m : act W A) (c : result DataPlaneError A -> list EngineCall) : act Traced A := fun '(w, calls) =>
  let '(r, w) := m w in (r, (w, calls ++ c r)).
Definition traced (control : DataPlaneControl W) : DataPlaneControl Traced := mkControl
  (fun '(w, calls) => let '(ok, w) := healthy control w in (ok, (w, calls)))
  (fun session => trace_call (provision control session) (fun _ => [Provisioned session]))
  (fun sessions => trace_call (reconcile control sessions) (fun r => [Reconciled sessions (is_ok r)]))
  (fun session => trace_call (traffic control session) (fun _ => []))
  (fun sessions => trace_call (usage control sessions) (fun _ => []))
  (fun sessions => trace_call (kick control sessions) (fun _ => [Kicked sessions])).
Definition calls (app : App Traced) : list EngineCall := (app_engines app).2.
End traced.

(** * The invariant *)

Section invariant.
Context `{SecretHashing, StateJson, NodeConfig, !StateJsonLaws}.
Context {W : Type} `{EngineClock W} (config : ServerConfig) (control : DataPlaneControl W).
Notation app := (App (@Traced W)).

(** The engines serve sessions of the service, save those about to be kicked;
    with engines to reconcile, the server is ready only after it has. *)
Record AppInv (pending : list SessionAllocation) (a : app) : Prop := {
  ai_access : reachable (app_access a);
  ai_told : forall s, s ∈ told (calls a) -> holds (state (app_access a)) s \/ s ∈ pending;
  ai_ready : data_plane_ready a = true -> app_ready config = false \/ exists l, Reconciled l true ∈ calls a;
}.
(** Two states of the server that agree on what the invariant reads. *)
Lemma inv_same pending (a b : app) :
  app_access b = app_access a -> calls b = calls a -> data_plane_ready b = data_plane_ready a -> AppInv pending a -> AppInv pending b.
Proof. intros E1 E2 E3 [? ? ?]. split; by rewrite ?E1, ?E2, ?E3. Qed.

Lemma inv_service {A} (m : M A) ended : accounted m ended ->
  hoare (AppInv []) (ask_service m) (fun r => AppInv (match r with Ok x => ended x | Err _ => [] end)) (fun _ => AppInv []).
Proof.
  intros Hm a [HR HT HY]. unfold ask_service. destruct (Hm _ HR) as [HR' HA]. destruct (m (app_access a)) as [sv r].
  cbn [fst snd] in *. split; [done| |done]. intros s Hs. destruct (HT s Hs) as [Hh|Hh]; [|by apply elem_of_nil in Hh]. by apply HA.
Qed.
(** The same, with what is known of the outcome. *)
Lemma inv_call {A} (m : M A) ended : accounted m ended ->
  hoare (AppInv []) (call m) (fun x => AppInv (ended x)) (fun _ => AppInv []).
Proof.
  intros Hm. eapply hoare_bind; [by apply inv_service|]. intros [x|e]; apply hoare_from_result; cbn; naive_solver.
Qed.
Lemma inv_read {A} (f : PersistedState -> A) : keeps (AppInv []) (read_state f).
Proof. by intros a Ha. Qed.

Lemma calls_grow {A} (m : act W A) c a r w' :
  trace_call m c (app_engines a) = (r, w') -> exists w, w' = (w, calls a ++ c r).
Proof. unfold trace_call, calls. destruct (app_engines a) as [w l]. destruct (m w) as [r' w'']. intros [= -> <-]. eauto. Qed.
(** A call of the engines leaves the service as it is. *)
Lemma inv_engine {A} (m : act W A) c (R : Service -> Prop) pending pending' :
  (forall r a s, AppInv pending a -> R (app_access a) -> s ∈ told (calls a ++ c r) -> holds (state (app_access a)) s \/ s ∈ pending') ->
  hoare (fun a => AppInv pending a /\ R (app_access a)) (ask_engine (trace_call m c))
    (fun _ a => AppInv pending' a /\ R (app_access a)) (fun _ => AppInv pending').
Proof.
  intros Hs a [Ha HR]. unfold ask_engine. destruct (trace_call m c (app_engines a)) as [r w'] eqn:E.
  apply calls_grow in E as [w ->].
  assert (HI : AppInv pending' (set_engines a (w, calls a ++ c r))).
  { pose proof Ha as [Hr HT HY]. split; cbn.
    - done.
    - intros s Hin. by eapply Hs.
    - intros [|(l & Hl)]%HY; [by left|]. right. exists l. unfold calls. cbn. apply elem_of_app. by left. }
  by destruct r as [x|[]].
Qed.
Lemma inv_quiet {A} (m : act W A) : keeps (AppInv []) (ask_engine (trace_call m (fun _ => []))).
Proof.
  eapply hoare_weaken; [apply (inv_engine m (fun _ => []) (fun _ => True) [] [])|done|by intros ? ? []].
  intros _ a s Ha _. rewrite app_nil_r. apply Ha.
Qed.
Lemma inv_kick (R : Service -> Prop) pending :
  hoare (fun a => AppInv pending a /\ R (app_access a)) (kick_sessions (traced control) pending)
    (fun _ a => AppInv [] a /\ R (app_access a)) (fun _ => AppInv []).
Proof.
  eapply hoare_bind; [apply (inv_engine _ _ R pending [])|intros ?; by apply hoare_answer].
  intros _ a s Ha _. rewrite told_snoc. cbn [tell]. intros [Hn Hs]%list_elem_of_filter. left. by destruct (ai_told _ _ Ha s Hs).
Qed.
Lemma inv_kicked pending : hoare (AppInv pending) (kick_sessions (traced control) pending) (fun _ => AppInv []) (fun _ => AppInv []).
Proof. by eapply hoare_weaken; [apply (inv_kick (fun _ => True))|..]; naive_solver. Qed.
Lemma inv_provision session :
  hoare (fun a => AppInv [] a /\ holds (state (app_access a)) session) (ask_engine (provision (traced control) session))
    (fun _ => AppInv []) (fun _ => AppInv []).
Proof.
  eapply hoare_weaken; [apply (inv_engine _ _ (fun sv => holds (state sv) session) [] [])|done|by intros ? ? []].
  intros _ a s Ha Hh. rewrite told_snoc. cbn [tell]. intros [->|Hs]%elem_of_cons; [by left|by apply Ha].
Qed.
Lemma inv_count f : keeps (AppInv []) (count f).
Proof. intros a Ha. by eapply inv_same; [..|exact Ha]. Qed.
Lemma inv_is_ready : keeps (AppInv []) is_ready.
Proof. by intros a Ha. Qed.
Lemma inv_healthy : keeps (AppInv []) (engine_healthy (traced control)).
Proof.
  intros a Ha. unfold engine_healthy. cbn. destruct (app_engines a) as [w l] eqn:E. destruct (healthy control w) as [ok w'].
  apply (inv_same [] a); [done| |done|done]. unfold calls. cbn. by rewrite E.
Qed.
Lemma inv_activity id x now : keeps (AppInv []) (record_activity id x now).
Proof.
  eapply hoare_bind; [apply inv_service, note_accounted|]. intros r. apply hoare_answer. unfold none_ended. by destruct r.
Qed.
Lemma inv_unavailable : keeps (AppInv []) (fun a => let '(t, w) := unavailable_traffic (app_engines a) in (Ok t, set_engines a w)).
Proof.
  intros a Ha. unfold unavailable_traffic, engine_time, traced_clock. destruct (app_engines a) as [w l] eqn:E. destruct (engine_time w) as [t w'].
  apply (inv_same [] a); [done| |done|done]. unfold calls. cbn. by rewrite E.
Qed.
End invariant.

Section handlers.
Context `{SecretHashing, StateJson, NodeConfig, !StateJsonLaws, Ed25519, Hashes, Encodings, Hmac, Base64, HeaderValues}.
Context `{!Json SessionManifest, !UrlParser, !Hpke}.
Context {W : Type} `{EngineClock W} (config : ServerConfig) (control : DataPlaneControl W).
Notation Inv := (AppInv (W := W) config []).
Notation engine := (traced control).

(** A step that keeps the invariant, by the rule for it. *)
Ltac kept := first
  [ apply inv_count | apply inv_is_ready | apply inv_healthy | apply inv_activity | apply inv_read | apply inv_unavailable | apply inv_quiet
  | apply hoare_answer; done | apply hoare_refuse; done | apply hoare_from_result; done ].
Ltac keep := repeat first
  [ kept
  | apply hoare_then; [solve [kept]|intros ?]
  | match goal with |- hoare _ (if ?b then _ else _) _ _ => destruct b | |- hoare _ (match ?x with _ => _ end) _ _ => destruct x end ].

Lemma node_status_keeps d : keeps Inv (build_node_status config engine d).
Proof. unfold build_node_status. keep. apply hoare_then; [destruct a0; kept|intros ?]. kept. Qed.

Lemma session_status_keeps session updates d : keeps Inv (build_session_status config engine session updates d).
Proof.
  unfold build_session_status. apply hoare_then; [apply inv_quiet|]. intros r. apply hoare_then; [destruct r; kept|]. intros t.
  apply hoare_then; [apply node_status_keeps|]. intros n. kept.
Qed.

(** A refused session is kicked when it was ended, and stays a session when not. *)
Lemma refuse_session_keeps created event now e : keeps Inv (refuse_session engine created event now e).
Proof.
  unfold refuse_session. apply hoare_then; [apply inv_activity|]. intros ?.
  eapply hoare_bind; [apply inv_service, end_session_accounted|]. intros [al|er]; [apply inv_kicked|kept].
Qed.

(** The session just admitted is one of the service's. *)
Lemma admitted_keeps request e :
  hoare (Inv : App (@Traced W) -> Prop) (ask_service (request_admission request e))
    (fun r (a : App (@Traced W)) => AppInv config (match r with Ok cs => cs_expired_allocations cs | Err _ => [] end) a /\
       (forall cs, r = Ok cs -> holds (state (app_access a)) (mkAllocation (cs_id cs) (cs_resource_slot cs)))) (fun _ => Inv).
Proof.
  intros a Ha. pose proof (inv_service config _ _ (create_session_accounted (cs_access_code request) (Contract.cs_client_name request)
    (en_now e) (en_token e) (en_random e) (en_pool e) (en_io e) (en_note e)) a Ha) as HS.
  unfold ask_service, request_admission in *. destruct (create_session _ _ _ _ _ _ _ _ (app_access a)) as [sv r] eqn:EC. split; [done|].
  intros cs ->. destruct (create_session_admission _ _ _ _ _ _ _ _ _ _ _ (reachable_inv _ (ai_access _ _ _ Ha)) EC)
    as (_ & ? & ? & ? & ? & _ & _ & _ & _ & HA). destruct HA as [_ _ _ _ _ _ _ _ _ _ _ _ _ _ (dp & _ & Est)].
  cbn [app_access set_access]. rewrite Est. eexists. split; [apply elem_of_app; right; left|done].
Qed.
Lemma finish_enrollment_keeps nonce updates d r :
  hoare (fun a : App (@Traced W) => AppInv config (match r with Ok cs => cs_expired_allocations cs | Err _ => [] end) a /\
           (forall cs, r = Ok cs -> holds (state (app_access a)) (mkAllocation (cs_id cs) (cs_resource_slot cs))))
    (finish_enrollment config engine nonce updates d r) (fun _ => Inv) (fun _ => Inv).
Proof.
  unfold finish_enrollment. destruct r as [cs|er].
  - eapply hoare_bind; [apply (inv_kick config control (fun sv => forall c, Ok cs = Ok c -> holds (state sv) _))|]. intros ?.
    destruct (is_required _).
    { eapply (hoare_bind _ _ _ (fun _ => Inv)); [by intros x [Hx _]; apply (inv_count config count_rejected x)|]. intros ?.
      apply hoare_then; [apply refuse_session_keeps|]. intros ?. kept. }
    eapply hoare_bind; [eapply hoare_weaken; [apply (inv_provision config control)|naive_solver|done]|]. intros [u|er].
    + apply hoare_then; [kept|]. intros ?. apply hoare_then.
      { intros x Hx. by destruct (session_transports config cs). }
      intros ts. destruct (_ && _).
      * apply hoare_then; [kept|]. intros ?. apply hoare_then; [apply refuse_session_keeps|]. intros ?. kept.
      * apply hoare_then; [kept|]. intros ?. apply hoare_then; [apply node_status_keeps|]. intros n. kept.
    + apply hoare_then; [kept|]. intros ?. apply hoare_then; [apply refuse_session_keeps|]. intros ?. kept.
  - eapply (hoare_bind _ _ _ (fun _ => Inv)); [by intros x [Hx _]; apply (inv_count config count_rejected x)|]. intros ?. kept.
Qed.
Lemma create_session_keeps headers request d : keeps Inv (create_session_handler config engine headers request d).
Proof.
  unfold create_session_handler. apply hoare_then; [kept|]. intros nonce. apply hoare_then; [kept|]. intros [|]; cbn [negb]; [|kept].
  eapply hoare_bind; [apply admitted_keeps|]. intros r. apply finish_enrollment_keeps.
Qed.

Lemma inv_asked {A} (m : M A) : accounted m none_ended -> keeps Inv (call m : handler (W := @Traced W) A).
Proof. intros Hm. by apply inv_call. Qed.
Lemma session_status_handler_keeps headers d : keeps Inv (session_status_handler config engine headers d).
Proof.
  unfold session_status_handler. apply hoare_then; [kept|]. intros token. apply hoare_then; [apply inv_asked, session_accounted|]. intros v.
  apply session_status_keeps.
Qed.
Lemma renew_session_keeps headers d : keeps Inv (renew_session_handler config engine headers d).
Proof.
  unfold renew_session_handler. apply hoare_then; [kept|]. intros token. destruct (is_required _).
  - apply hoare_then; [apply inv_asked, session_accounted|]. intros v. keep.
  - apply hoare_then; [apply inv_asked, renew_session_accounted|]. intros v. apply session_status_keeps.
Qed.
Lemma release_session_keeps headers e : keeps Inv (release_session_handler engine headers e).
Proof.
  unfold release_session_handler. apply hoare_then; [kept|]. intros token.
  eapply hoare_bind; [apply inv_call, end_session_accounted|]. intros al. apply inv_kicked.
Qed.
Lemma inv_sign_in auth protocol username now t : keeps Inv (ask_service (authenticate_data_plane auth protocol username now t) : handler (W := @Traced W) _).
Proof.
  eapply hoare_weaken; [apply inv_service, authenticate_data_plane_accounted|done|]. intros r a. by destruct r.
Qed.
Lemma authenticate_hysteria_keeps auth now t : keeps Inv (authenticate_hysteria config auth now t : handler (W := @Traced W) _).
Proof.
  unfold authenticate_hysteria. apply hoare_then; [case_match; [apply inv_sign_in|kept]|]. intros r. keep.
Qed.
Lemma authenticate_openvpn_keeps headers u p now t : keeps Inv (authenticate_openvpn config headers u p now t : handler (W := @Traced W) _).
Proof.
  unfold authenticate_openvpn. destruct (cfg_openvpn config); [|kept]. apply hoare_then; [case_match; [apply inv_sign_in|kept]|]. intros r. keep.
Qed.
Lemma ready_keeps : keeps Inv (ready_handler engine).
Proof. unfold ready_handler. apply hoare_then; [kept|]. intros [|]; (apply hoare_then; [kept|]); intros ?; kept. Qed.

Lemma create_grant_keeps headers request d : keeps Inv (create_grant_handler config headers request d : handler (W := @Traced W) _).
Proof.
  unfold create_grant_handler. do 2 (apply hoare_then; [kept|]; intros ?). apply hoare_then; [apply inv_asked, create_grant_accounted|]. intros g. kept.
Qed.
Lemma create_grant_batch_keeps headers request draws : keeps Inv (create_grant_batch_handler config headers request draws : handler (W := @Traced W) _).
Proof.
  unfold create_grant_batch_handler. do 2 (apply hoare_then; [kept|]; intros ?).
  apply hoare_then; [apply inv_asked, create_grant_batch_accounted|]. intros g. kept.
Qed.
Lemma connected_devices_keeps devices : keeps Inv (connected_devices engine devices).
Proof.
  induction devices as [|d devices IH]; cbn [connected_devices]; [kept|]. apply hoare_then; [apply inv_quiet|]. intros r.
  apply hoare_then; [destruct r; kept|]. intros t. apply hoare_then; [done|]. intros rest. kept.
Qed.
Lemma list_grants_keeps headers now : keeps Inv (list_grants_handler config headers now : handler (W := @Traced W) _).
Proof. unfold list_grants_handler. apply hoare_then; [kept|]. intros ?. kept. Qed.
Lemma offered_protocols_keeps headers : keeps Inv (offered_protocols_handler config headers : handler (W := @Traced W) _).
Proof. unfold offered_protocols_handler. apply hoare_then; [kept|]. intros ?. kept. Qed.
Lemma grant_details_keeps headers id now : keeps Inv (grant_details_handler config engine headers id now).
Proof.
  unfold grant_details_handler. apply hoare_then; [kept|]. intros ?. apply hoare_then.
  - apply inv_asked. intros sv HR. split; [done|]. apply accounts_refl.
  - intros found. apply hoare_then; [apply connected_devices_keeps|]. intros ds x Hx. done.
Qed.
Lemma update_grant_keeps headers id request now io t : keeps Inv (update_grant_handler config engine headers id request now io t).
Proof.
  unfold update_grant_handler. apply hoare_then; [kept|]. intros ?. apply hoare_then; [destruct (new_protocols request); kept|]. intros ?.
  eapply hoare_bind; [apply inv_call, update_grant_accounted|]. intros r. eapply hoare_bind; [apply inv_kicked|]. intros ?. by apply hoare_answer.
Qed.
Lemma revoke_grant_keeps headers id io : keeps Inv (revoke_grant_handler config engine headers id io).
Proof.
  unfold revoke_grant_handler. apply hoare_then; [kept|]. intros ?.
  eapply hoare_bind; [apply inv_call, revoke_grant_accounted|]. intros r. apply inv_kicked.
Qed.
Lemma expire_tick_keeps now io t : keeps Inv (expire_tick engine now io t).
Proof.
  unfold expire_tick. eapply hoare_bind; [apply inv_service, expire_sessions_accounted|]. intros [l|e]; [apply inv_kicked|kept].
Qed.
Lemma meter_allowances_keeps meter now record_now io t : keeps Inv (meter_allowances engine meter now record_now io t).
Proof.
  unfold meter_allowances. apply hoare_then; [apply inv_read|]. intros ss. case_bool_decide; [kept|].
  apply hoare_then; [apply inv_quiet|]. intros [rs|e]; [|kept]. destruct (meter_take meter ss rs) as [meter' moved].
  eapply hoare_bind; [apply inv_service, record_usage_accounted|]. intros [ended|e]; [|by apply hoare_answer].
  eapply (hoare_bind _ _ _ (fun _ => Inv)); [|intros ?; by apply hoare_answer].
  case_bool_decide as Hl; [|apply inv_kicked]. apply nil_length_inv in Hl as ->. kept.
Qed.

(** Reconciling tells the engines the sessions of the service, and makes the
    server ready when they took them. *)
Lemma inv_not_ready : keeps Inv (set_ready false : handler (W := @Traced W) _).
Proof. intros a [? ? ?]. by split. Qed.
Lemma allocations_held st now l : active_session_allocations st now = Ok l -> Forall (holds st) l.
Proof.
  unfold active_session_allocations. intros HC%collect_ok_forall2. apply Forall_forall. intros a Ha.
  apply list_elem_of_lookup in Ha as [i Hi]. destruct (Forall2_lookup_r _ _ _ _ _ HC Hi) as (s & Hs & E).
  exists s. split; [|done]. apply list_elem_of_lookup_2 in Hs. by apply list_elem_of_filter in Hs as [_ ?].
Qed.
Definition holding (l : list SessionAllocation) (sv : Service) : Prop := Forall (holds (state sv)) l.
Lemma reconcile_attempts_keeps n l :
  hoare (fun a : App (@Traced W) => Inv a /\ holding l (app_access a)) (reconcile_attempts engine n l) (fun _ => Inv) (fun _ => Inv).
Proof.
  induction n as [|n IH]; cbn [reconcile_attempts]; [by intros a [Ha _]|].
  eapply (hoare_bind _ _ _ (fun r a => (Inv a /\ holding l (app_access a)) /\ (is_ok r = true -> Reconciled l true ∈ calls a))).
  - intros a Ha. pose proof (inv_engine config (reconcile control l) (fun r => [Reconciled l (is_ok r)]) (holding l) [] []) as HE.
    lapply HE; [clear HE; intros HE|].
    + specialize (HE a Ha). unfold ask_engine in *. cbn [reconcile engine traced] in *.
      destruct (trace_call _ _ (app_engines a)) as [r w'] eqn:Ec. apply calls_grow in Ec as [w ->].
      destruct r as [[]|[]]; (split; [done|]) || done; cbn; try done; intros _; apply elem_of_app; right; left.
    + intros r b s Hb Hh. rewrite told_snoc. cbn [tell]. intros Hs. left. unfold holding in Hh. rewrite Forall_forall in Hh. by apply Hh.
  - intros [u|e].
    + eapply (hoare_bind _ _ _ (fun _ => Inv)); [|intros ?; by apply hoare_answer].
      intros a [[[? ? ?] _] Hr]. split; [done|done|]. intros _. right. exists l. by apply Hr.
    + destruct n as [|n]; [by apply hoare_answer; intros a [[? _] _]|]. eapply hoare_weaken; [exact IH|by intros a [? _]|done].
Qed.
Lemma reconcile_keeps now : keeps Inv (reconcile_data_planes engine now).
Proof.
  unfold reconcile_data_planes. apply hoare_then; [apply inv_not_ready|]. intros ?.
  eapply (hoare_bind _ _ _ (fun r a => Inv a /\ forall l, r = Ok l -> holding l (app_access a))).
  - intros x Hx. split; [done|]. intros l. apply allocations_held.
  - intros [l|e]; [|by apply hoare_answer; intros x [? _]].
    eapply hoare_weaken; [apply reconcile_attempts_keeps|intros x [Hx Hl]; split; [done|by apply Hl]|done].
Qed.
End handlers.
