(* ===== verification/ApiManifest.v ===== *)
(** The documents the server answers with are documents the app accepts. *)

From Stdlib Require Import ZArith Lia SpecFloat.
From stdpp Require Import gmap strings.
From S2P Require Import Prelude Order Utf8 Str Net Vendor Invite Tunnel Seal Update Contract Control Validation Gateway FloatBounds StdText Config ConfigProps Engines DataPlane EngineControls Allowance Grant Model Activity Meter GrantAdmin Service ServiceInv ServiceProps ServiceGrants ServiceEnds Api ApiTransports ApiLogic.

#[local] Notation in_range := Validation.in_range.

(** * The host's telemetry *)

Lemma clamp_finite mb eb x : nonnegative x -> in_range (S754_zero false) (S754_finite false mb eb) (clamp (S754_zero false) (S754_finite false mb eb) x) = true.
Proof.
  assert (Hself : in_range (S754_zero false) (S754_finite false mb eb) (S754_finite false mb eb) = true).
  { unfold in_range, SFleb. cbn [is_finite SFcompare andb]. rewrite Z.compare_refl. change (Pos.compare_cont Eq mb mb) with (mb ?= mb)%positive. by rewrite Pos.compare_refl. }
  destruct x as [s|s| |s m e]; cbn [nonnegative]; [by intros ->|by intros ->|done|]. intros ->. unfold clamp, SFltb. cbn [SFcompare].
  destruct (eb ?= e) eqn:Ee; [|done|].
  - apply Z.compare_eq in Ee as <-. change (Pos.compare_cont Eq mb m) with (mb ?= m)%positive.
    destruct (Pos.compare_spec mb m) as [<-|Hl|Hl]; [done|done|]. unfold in_range, SFleb. cbn [is_finite SFcompare andb].
    rewrite Z.compare_refl. change (Pos.compare_cont Eq m mb) with (m ?= mb)%positive. by rewrite (proj2 (Pos.compare_lt_iff _ _)).
  - unfold in_range, SFleb. cbn [is_finite SFcompare andb]. rewrite Z.compare_antisym, Ee. done.
Qed.
Lemma clamp_range x : nonnegative x -> in_range (f32 0) (f32 100) (clamp (f32 0) (f32 100) x) = true.
Proof. apply (clamp_finite 13107200 (-17)). Qed.
Lemma cpu_load_range content n v : n < 2 ^ 24 -> 0 <= n -> parse_cpu_load_percent content n = Some v -> in_range (f32 0) (f32 100) v = true.
Proof.
  intros Hn Hn0. unfold parse_cpu_load_percent. destruct (Z.eqb_spec n 0); [done|]. destruct (head _) as [field|]; [|done].
  destruct (parse_f32 field) as [load|]; [|done]. destruct (negb _ || _) eqn:E; [done|]. bool_prop. intros [= <-].
  apply clamp_range, load_nonnegative; [done| |lia]. destruct load; cbn in *; try done.
Qed.

(** A snapshot the app can show. *)
Record host_wf (s : SystemSnapshot) : Prop := {
  hw_cpu : forall v, snap_cpu_load_percent s = Some v -> in_range (f32 0) (f32 100) v = true;
  hw_memory : match snap_memory_used_bytes s, snap_memory_total_bytes s with
              | None, None => True
              | Some used, Some total => 0 < total /\ used <= total
              | _, _ => False
              end;
}.
(** The server's readings are, of a host that has memory. *)
Lemma snapshot_host loadavg processors meminfo uptime :
  (forall n, processors = Some n -> 0 <= n < 2 ^ 24) -> (forall m, meminfo ≫= parse_memory = Some m -> 0 < snd m) ->
  host_wf (snapshot loadavg processors meminfo uptime).
Proof.
  intros Hp Hm. split; cbn [snapshot snap_cpu_load_percent snap_memory_used_bytes snap_memory_total_bytes].
  - intros v. destruct loadavg as [content|], processors as [n|]; try done. specialize (Hp n eq_refl). apply cpu_load_range; lia.
  - destruct (meminfo ≫= parse_memory) as [[used total]|] eqn:E; [|done]. cbn. specialize (Hm _ eq_refl). cbn in Hm.
    destruct meminfo as [content|]; [|done]. apply parse_memory_bound in E. lia.
Qed.

Section documents.
Context `{SecretHashing, StateJson, NodeConfig, !StateJsonLaws, HeaderValues}.
Context `{Base64Laws, !Base64Canonical, HmacLaws, Files, !FilesLaws}.
Context `{Ed25519, Hashes, Encodings, UrlParser, UrlOps, Hpke, UrlText, !Json (list TransportProfile), !Json SessionManifest}.
Context {W : Type} `{EngineClock W} (control : DataPlaneControl W).
(** The settings, and that the service runs with their limits. *)
Context (env : Environment) (c : ServerConfig) (Hc : from_env env = Ok c).
Context (Hmax : max_sessions = cfg_max_sessions c) (Hfew : cfg_max_sessions c < 2 ^ 24).
(** What the settings do not check as the app does. *)
Context (Hurl : validate_public_url (cfg_public_url c) = Ok tt).
Context (Hobfs : forall h password, cfg_hysteria c = Some h -> hy_obfuscation h = Salamander password \/ hy_obfuscation h = Gecko password ->
  bounded_value_ok password MAX_SECRET_CHARS = true).

Definition up (a : App W) : Prop := reachable (app_access a).
Lemma up_engine {A} (m : act W A) P : hoare (fun a => up a /\ P (app_access a)) (ask_engine m) (fun _ a => up a /\ P (app_access a)) (fun _ => up).
Proof. intros a [Ha HP]. unfold ask_engine. destruct (m (app_engines a)) as [r w]. by destruct r as [|[]]. Qed.

(** The node a handler reports. *)
Definition node_draws_wf (d : NodeDraws) : Prop := host_wf (nd_system d) /\ nd_observed d <> 0.
Lemma active_count_bound sv now : reachable sv -> 0 <= active_session_count (state sv) now <= cfg_max_sessions c.
Proof.
  intros HR. pose proof (inv_capacity sv (reachable_inv _ HR)) as Hcap. pose proof (live_count_le now (sessions (state sv))) as Hl.
  pose proof (live_count_nonneg now (sessions (state sv))). rewrite Hmax in Hcap. unfold active_session_count.
  pose proof (from_env_wf env c Hc) as Wc. destruct (ConfigProps.wf_sessions _ Wc). rewrite as_u32_id; lia.
Qed.
Lemma node_status_wf d n (a a' : App W) : up a -> node_draws_wf d -> build_node_status c control d a = (Ok n, a') -> node_wf n.
Proof.
  intros Ha [Hh Ho] Hn. pose proof (from_env_wf env c Hc) as Wc. destruct (active_count_bound _ (nd_count_now d) Ha) as [Ha0 Ha1].
  destruct (ConfigProps.wf_sessions _ Wc) as [Hs1 Hs2]. pose proof (wf_node _ Wc) as Hm. unfold validate_node_metadata, validate_location in Hm. bind_inv Hm.
  unfold server_validate_identifier, server_validate_text in *.
  repeat match goal with E : ensure _ _ _ = Ok _ |- _ => apply ensure_ok' in E end. bool_prop.
  assert (En : exists hl, n = mkNode (cfg_node_id c) (cfg_node_name c) (cfg_public_url c) (cfg_location c) hl
    (active_session_count (state (app_access a)) (nd_count_now d)) (cfg_max_sessions c)
    (percent32 (active_session_count (state (app_access a)) (nd_count_now d)) (cfg_max_sessions c))
    (snap_cpu_load_percent (nd_system d)) (snap_memory_used_bytes (nd_system d)) (snap_memory_total_bytes (nd_system d))
    (snap_uptime_seconds (nd_system d)) (nd_observed d)).
  { revert Hn. unfold build_node_status, bind_handler, read_state, is_ready, engine_healthy, answer.
    destruct (data_plane_ready a); [destruct (healthy control (app_engines a))|]; intros Hn; injection Hn as <- _; eexists; reflexivity. }
  destruct En as [hl ->]. split; cbn [node_id node_display_name public_url location active_sessions session_capacity capacity_percent
    cpu_load_percent node_observed_at]; try assumption.
  - by apply validate_public_url_ok.
  - split; [|done]. unfold zlen in *. lia.
  - intros city Hcity. rewrite Hcity in *. by match goal with E : ensure _ _ _ = Ok _ |- _ => apply ensure_ok' in E end.
  - split; lia.
  - apply share_in_range; lia.
  - apply Hh.
  - destruct Hh as [_ Hmem]. unfold memory_ok. cbn [memory_used_bytes memory_total_bytes]. destruct (snap_memory_used_bytes _), (snap_memory_total_bytes _); try done.
    rewrite andb_true_iff, Z.ltb_lt, Z.leb_le. done.
Qed.

(** What an admitted session has. *)
Record created_wf (cs : CreatedSession) : Prop := {
  cw_id : valid_session_username (cs_id cs) = true;
  cw_token : is_ok (split_session_token (cs_token cs)) = true;
  cw_data_plane_token : is_ok (split_session_token (cs_data_plane_token cs)) = true;
  cw_slot : 0 <= cs_resource_slot cs < cfg_max_sessions c;
  cw_access : forall e, cs_access_expires_at cs = Some e -> cs_expires_at cs <= e;
}.
Lemma admitted_wf request e sv sv' cs : reachable sv -> request_admission request e sv = (sv', Ok cs) -> created_wf cs /\ cs_token cs = en_token e.
Proof.
  intros HR HA. destruct (create_session_admission _ _ _ _ _ _ _ _ _ _ _ (reachable_inv _ HR) HA) as (_ & ? & ? & ? & g & _ & _ & _ & _ & HD).
  destruct HD as [_ Hid Htok _ _ _ _ _ _ Hslot _ Hexp (_ & Hae & _) _ (dp & Hdp & _)]. split; [|done].
  apply split_session_token_inv in Hid as Hparts. cbn in Hparts. destruct Hparts as (_ & Hl & _ & Hal & _).
  apply free_slot_some in Hslot as [Hr _]. split; [|by rewrite Htok, Hid|by rewrite Hdp|by rewrite <- Hmax|].
  - unfold valid_session_username, zlen. by rewrite Hl, Hal.
  - intros t. rewrite Hae, Hexp. unfold lease_end. intros ->. lia.
Qed.

(** A document the app accepts until its lease ends, on a node that offers
    any transport. *)
Definition acceptable (token : list byte) (response : ApiResponse) : Prop :=
  rs_status response = 201 /\ exists m, json_to_vec m = Some (rs_body response) /\ session_token m = token /\
    forall now, now < Contract.session_expires_at m -> cfg_transports c <> [] -> validate_manifest m now = Ok tt.

Lemma up_kick P l : hoare (fun a => up a /\ P (app_access a)) (kick_sessions control l) (fun _ a => up a /\ P (app_access a)) (fun _ => up).
Proof. unfold kick_sessions. eapply hoare_bind; [apply up_engine|]. intros ?. by apply hoare_answer. Qed.
Lemma up_activity id x now : hoare up (record_activity id x now) (fun _ => up) (fun _ _ => True).
Proof.
  unfold record_activity. eapply (hoare_bind _ _ _ (fun _ => up)); [|intros ?; by apply hoare_answer]. intros a Ha. unfold ask_service.
  destruct (note_accounted id x now _ Ha) as [HR _]. by destruct (note id x now (app_access a)).
Qed.
Lemma all_allowed (l : list TransportProfile) protocols :
  is_all protocols = true -> filter (fun p => allows protocols (tp_protocol p) = true) l = l.
Proof. intros Hp. apply filter_all, Forall_forall. intros p _. by destruct protocols. Qed.
Lemma manifest_acceptable cs n ts updates nonce response :
  created_wf cs -> node_wf n -> session_transports c cs = Ok ts -> ts <> [] \/ is_all (cs_protocols cs) = true ->
  signed_manifest_response c nonce (mkSessionManifest (cs_token cs) (cs_expires_at cs) (cs_access_expires_at cs) n ts updates) = Ok response ->
  acceptable (cs_token cs) response.
Proof.
  intros [Hi Ht Hd Hs Ha] Hn Hts Hne Hr. set (m := mkSessionManifest _ _ _ _ _ _) in *.
  destruct (session_transports_wf env c Hc Hobfs cs Hi Hd Hs) as (ts' & Ets & HF & Hids). assert (ts' = ts) as -> by congruence.
  destruct (transports_wf env c Hc) as (Hlen & _ & HN).
  assert (HV : forall now, now < Contract.session_expires_at m -> cfg_transports c <> [] -> validate_manifest m now = Ok tt).
  { intros now Hnow Hcfg. unfold validate_manifest. rewrite !seq_ok, !is_ok_unit, validate_node_ok, checked_ok, validate_transports_ok.
    destruct (expiry_ok (manifest_access_expires_at m) (Contract.session_expires_at m) now) as [_ Hexp]. cbn [m session_token manifest_node transports].
    destruct Hexp as [E1 E2]; [split; [done|]; intros t Hta; specialize (Ha t Hta); cbn [m Contract.session_expires_at] in *; lia|].
    assert (Hsub : map (fun t => tp_id (st_profile t)) ts `sublist_of` map tp_id (cfg_transports c)) by (rewrite Hids; apply sublist_map, sublist_filter).
    split_and!; try done.
    - by destruct (split_session_token (cs_token cs)).
    - rewrite andb_true_iff, negb_true_iff, bool_decide_eq_false, Z.leb_le. split.
      + destruct Hne as [|Hall]; [done|]. intros ->. rewrite all_allowed in Hids by done. by destruct (cfg_transports c).
      + apply sublist_length in Hsub. rewrite !length_map in Hsub. unfold zlen in *. lia.
    - by eapply sublist_NoDup.
    - apply Forall_forall. intros t _. apply not_elem_of_nil. }
  unfold signed_manifest_response in Hr. destruct (json_to_vec m) as [body|] eqn:Ej; [|done]. cbn [ok_or] in Hr.
  assert (rs_status response = 201 /\ rs_body response = body) as [E1 E2].
  { destruct nonce, (cfg_invite_issuer c); [destruct (header_value_ok _)|..]; try done; assert (Ht' := Hr); injection Ht' as <-; done. }
  split; [done|]. exists m. split; [by rewrite E2|]. done.
Qed.
Lemma finish_acceptable nonce updates d cs :
  created_wf cs -> node_draws_wf (sd_node d) ->
  hoare up (finish_enrollment c control nonce updates d (Ok cs)) (fun response _ => acceptable (cs_token cs) response) (fun _ _ => True).
Proof.
  intros Hcs Hd. unfold finish_enrollment.
  assert (Hrefuse : forall e (m : handler (W := W) unit), hoare up (bind_handler m (fun _ => refuse e)) (fun response _ => acceptable (cs_token cs) response) (fun _ _ => True)).
  { intros e m a _. unfold bind_handler. by destruct (m a) as [[]]. }
  assert (Hcount : forall f (k : unit -> handler (W := W) ApiResponse), (forall u, hoare up (k u) (fun response _ => acceptable (cs_token cs) response) (fun _ _ => True)) ->
    hoare up (bind_handler (count f) k) (fun response _ => acceptable (cs_token cs) response) (fun _ _ => True)).
  { intros f k Hk a Ha. unfold bind_handler, count. apply Hk. by destruct a. }
  eapply (hoare_bind _ _ _ (fun _ => up)); [intros a Ha; pose proof (up_kick (fun _ => True) (cs_expired_allocations cs) a (conj Ha I)) as HK;
    destruct (kick_sessions _ _ a) as [[]]; naive_solver|]. intros _.
  destruct (is_required _); [apply Hcount; intros _; apply Hrefuse|].
  eapply (hoare_bind _ _ _ (fun _ => up)); [intros a Ha; unfold ask_engine; destruct (provision _ _ _) as [r w]; by destruct r as [|[]]|].
  intros [u|e]; [|apply Hcount; intros _; apply Hrefuse]. apply Hcount. intros _.
  eapply (hoare_bind _ _ _ (fun ts a => up a /\ session_transports c cs = Ok ts)); [intros a Ha; by destruct (session_transports c cs)|].
  intros ts. destruct (bool_decide _ && _) eqn:Eb; [intros a [Ha _]; by apply Hcount; [intros _; apply Hrefuse|]|].
  eapply (hoare_bind _ _ _ (fun _ a => up a /\ session_transports c cs = Ok ts)).
  { intros a [Ha Hts]. pose proof (up_activity (cs_grant_id cs) (activity_session Enrolled (cs_id cs) (Service.cs_client_name cs)) (sd_enrolled_now d) a Ha) as HA.
    destruct (record_activity _ _ _ a) as [[]]; done. }
  intros _. eapply (hoare_bind _ _ _ (fun n _ => node_wf n /\ session_transports c cs = Ok ts)).
  { intros a [Ha Hts]. destruct (build_node_status c control (sd_node d) a) as [[n|]] eqn:En; [|done]. split; [by eapply node_status_wf|done]. }
  intros n. apply hoare_from_result; [|done]. intros a response [Hn Hts]. apply manifest_acceptable; [done..|].
  apply andb_false_iff in Eb as [E|E]; [left; case_bool_decide; [done|]; by intros ->|right; by apply negb_false_iff].
Qed.

(** C9: an enrollment the server accepts is one the app accepts: with settings
    the server took, on a node that offers any transport, for fewer than 2^24
    sessions, and whose public URL without its last slashes and obfuscation
    password the app's own checks pass, every answer to an enrollment is a 201
    whose document, until its lease ends, passes every check of the app - the
    node's name, place, load and capacity, and one to 32 transports with
    distinct identifiers, endpoints, options and secrets within its bounds. *)
Theorem enrollment_document_accepted headers request d a a' response :
  reachable (app_access a) -> node_draws_wf (sd_node d) ->
  create_session_handler c control headers request d a = (Ok response, a') ->
  acceptable (en_token (sd_enrolling d)) response.
Proof.
  intros HR Hd. unfold create_session_handler, bind_handler at 1, from_result. destruct (enrollment_nonce headers) as [nonce|]; [|done].
  unfold bind_handler at 1, is_ready. destruct (data_plane_ready a); cbn [negb]; [|done]. unfold bind_handler, ask_service.
  destruct (request_admission request (sd_enrolling d) (app_access a)) as [sv r] eqn:EA.
  destruct (create_session_accounted (cs_access_code request) (Contract.cs_client_name request) (en_now (sd_enrolling d)) (en_token (sd_enrolling d))
    (en_random (sd_enrolling d)) (en_pool (sd_enrolling d)) (en_io (sd_enrolling d)) (en_note (sd_enrolling d)) _ HR) as [HR' _].
  unfold request_admission in EA. rewrite EA in HR'. destruct r as [cs|e]; [|done]. destruct (admitted_wf _ _ _ _ _ HR EA) as [Hcs <-].
  intros Hf. pose proof (finish_acceptable nonce (request_updates c headers (sd_updates_now d)) d cs Hcs Hd (set_access a sv) HR') as HA.
  by rewrite Hf in HA.
Qed.
End documents.
