(* ===== verification/ApiProps.v ===== *)
(** Theorems about the server as a whole: what its engines serve, what a
    refused enrollment leaves, who may administer it, and who learns that it
    is a Ket server. *)

From Stdlib Require Import ZArith Lia SpecFloat.
From stdpp Require Import gmap strings.
From S2P Require Import Prelude Order Utf8 Str Net Vendor Instances Invite Tunnel Seal Update Contract Control Validation Gateway SealedDemo StdText Config ConfigProps Engines DataPlane EngineControls Allowance Grant Model Activity Meter GrantAdmin Service ServiceInv ServiceDemo ServiceProps ServiceGrants ServiceEnds Api ApiTransports ApiDemo ApiLogic ApiManifest.

(** * The server's runs *)

(** A request to the server, or a run of one of its background tasks. *)
Inductive ApiOp :=
| CreateSessionOp (headers : HeaderMap) (request : CreateSessionRequest) (d : SessionDraws)
| SessionStatusOp (headers : HeaderMap) (d : SessionDraws)
| RenewSessionOp (headers : HeaderMap) (d : SessionDraws)
| ReleaseSessionOp (headers : HeaderMap) (e : Ending)
| HysteriaAuthOp (auth : list byte) (now note_now : Z)
| OpenVpnAuthOp (headers : HeaderMap) (username password : list byte) (now note_now : Z)
| ReadyOp
| NodeStatusOp (d : NodeDraws)
| CreateGrantOp (headers : HeaderMap) (request : CreateAccessGrantRequest) (d : GrantDraw)
| CreateGrantBatchOp (headers : HeaderMap) (request : CreateAccessGrantBatchRequest) (draws : list GrantDraw)
| ListGrantsOp (headers : HeaderMap) (now : Z)
| OfferedProtocolsOp (headers : HeaderMap)
| MetricsOp (now crypto_operations crypto_capacity : Z)
| GrantDetailsOp (headers : HeaderMap) (id : list byte) (now : Z)
| UpdateGrantOp (headers : HeaderMap) (id : list byte) (request : UpdateAccessGrantRequest) (now : Z) (io : Io) (note_now : Z)
| RevokeGrantOp (headers : HeaderMap) (id : list byte) (io : Io)
| ExpireTask (now : Z) (io : Io) (note_now : Z)
| MeterTask (meter : UsageMeter) (now record_now : Z) (io : Io) (note_now : Z)
| ReconcileTask (now : Z).

Section runs.
Context `{SecretHashing, StateJson, NodeConfig, Ed25519, Hashes, Encodings, Hmac, Base64, HeaderValues}.
Context `{!Json SessionManifest, !UrlParser, !Hpke}.
Context {W : Type} `{EngineClock W} (config : ServerConfig) (control : DataPlaneControl W).

(** A request from its start to its end, with nothing in between; ApiTasks has
    the requests that overlap. *)
Definition api_exec (op : ApiOp) (app : App (@Traced W)) : App (@Traced W) :=
  let engine := traced control in
  match op with
  | CreateSessionOp headers request d => (create_session_handler config engine headers request d app).2
  | SessionStatusOp headers d => (session_status_handler config engine headers d app).2
  | RenewSessionOp headers d => (renew_session_handler config engine headers d app).2
  | ReleaseSessionOp headers e => (release_session_handler engine headers e app).2
  | HysteriaAuthOp auth now t => (authenticate_hysteria config auth now t app).2
  | OpenVpnAuthOp headers u p now t => (authenticate_openvpn config headers u p now t app).2
  | ReadyOp => (ready_handler engine app).2
  | NodeStatusOp d => (node_status_handler config engine d app).2
  | CreateGrantOp headers request d => (create_grant_handler config headers request d app).2
  | CreateGrantBatchOp headers request draws => (create_grant_batch_handler config headers request draws app).2
  | ListGrantsOp headers now => (list_grants_handler config headers now app).2
  | OfferedProtocolsOp headers => (offered_protocols_handler config headers app).2
  | MetricsOp now operations capacity => (metrics_handler config now operations capacity app).2
  | GrantDetailsOp headers id now => (grant_details_handler config engine headers id now app).2
  | UpdateGrantOp headers id request now io t => (update_grant_handler config engine headers id request now io t app).2
  | RevokeGrantOp headers id io => (revoke_grant_handler config engine headers id io app).2
  | ExpireTask now io t => (expire_tick engine now io t app).2
  | MeterTask meter now record_now io t => (meter_allowances engine meter now record_now io t app).2
  | ReconcileTask now => (reconcile_data_planes engine now app).2
  end.

(** The states of a server that loaded its state, had told its engines
    nothing, and served one request after the other. *)
Inductive api_reachable : App (@Traced W) -> Prop :=
| api_start d lio sio now sv w : load d lio sio now = Ok sv -> api_reachable (app_new config sv (w, []))
| api_step op app : api_reachable app -> api_reachable (api_exec op app).

Context `{!StateJsonLaws}.
Lemma api_exec_inv op app : AppInv config [] app -> AppInv config [] (api_exec op app).
Proof.
  intros HI. destruct op; cbn [api_exec]; eapply hoare_run; try exact HI.
  - apply create_session_keeps.
  - apply session_status_handler_keeps.
  - apply renew_session_keeps.
  - apply release_session_keeps.
  - apply authenticate_hysteria_keeps.
  - apply authenticate_openvpn_keeps.
  - apply ready_keeps.
  - apply node_status_keeps.
  - apply create_grant_keeps.
  - apply create_grant_batch_keeps.
  - apply list_grants_keeps.
  - apply offered_protocols_keeps.
  - by intros a Ha.
  - apply grant_details_keeps.
  - apply update_grant_keeps.
  - apply revoke_grant_keeps.
  - apply expire_tick_keeps.
  - apply meter_allowances_keeps.
  - apply reconcile_keeps.
Qed.
Lemma api_inv app : api_reachable app -> AppInv config [] app.
Proof.
  induction 1 as [d lio sio now sv w HL|op app _ IH]; [|by apply api_exec_inv].
  split; [by eapply reachable_load|by intros s Hs%elem_of_nil|]. cbn. intros Hr%negb_true_iff. by left.
Qed.
End runs.

(** * Administration *)

Section admin.
Context `{SecretHashing, StateJson, NodeConfig, Ed25519, Hashes, Encodings, Hmac, Base64, HeaderValues}.
Context `{!UrlParser, !Hpke}.
Context {W : Type} `{EngineClock W} (config : ServerConfig) (control : DataPlaneControl W).

Lemma same_secret_iff a b : same_secret a b = true <-> a = b.
Proof.
  unfold same_secret. rewrite andb_true_iff, bool_decide_eq_true, Z.eqb_eq. split; [by intros []|]. by intros ->.
Qed.
Lemma authorize_admin_iff headers : authorize_admin config headers = Ok tt <-> bearer_token headers = Ok (admin_token config).
Proof.
  unfold authorize_admin. destruct (bearer_token headers) as [t|e]; [|done]. destruct (same_secret (admin_token config) t) eqn:E.
  - apply same_secret_iff in E as <-. done.
  - split; [done|]. intros [= ->]. by rewrite (proj2 (same_secret_iff _ _) eq_refl) in E.
Qed.
Lemma authorize_admin_err headers : bearer_token headers <> Ok (admin_token config) -> authorize_admin config headers = Err unauthorized.
Proof.
  rewrite <- authorize_admin_iff. unfold authorize_admin, bearer_token.
  destruct (_ ≫= strip_prefix _) as [t|]; [|done]. case_bool_decide; [done|]. by destruct (same_secret _ _).
Qed.

(** C24: only the admin token administers: without it as the bearer token, every
    request of the administration - listing, creating one or many, reading,
    changing or revoking grants, and the protocols on offer - is answered 401
    with the same error and changes nothing, of the service, the engines or
    the counters. *)
Theorem admin_requires_token headers (app : App W) :
  bearer_token headers <> Ok (admin_token config) ->
  offered_protocols_handler config headers app = (Err (Refused unauthorized), app) /\
  (forall request d, create_grant_handler config headers request d app = (Err (Refused unauthorized), app)) /\
  (forall request draws, create_grant_batch_handler config headers request draws app = (Err (Refused unauthorized), app)) /\
  (forall now, list_grants_handler config headers now app = (Err (Refused unauthorized), app)) /\
  (forall id now, grant_details_handler config control headers id now app = (Err (Refused unauthorized), app)) /\
  (forall id request now io t, update_grant_handler config control headers id request now io t app = (Err (Refused unauthorized), app)) /\
  (forall id io, revoke_grant_handler config control headers id io app = (Err (Refused unauthorized), app)).
Proof.
  intros HB%authorize_admin_err.
  assert (HA : forall A (k : unit -> handler (W := W) A), bind_handler (from_result (authorize_admin config headers)) k app = (Err (Refused unauthorized), app)).
  { intros A k. by rewrite HB. }
  split_and!; intros; apply HA.
Qed.
End admin.

(** * Enrollment *)

Section enrollment.
Context `{SecretHashing, StateJson, NodeConfig, !StateJsonLaws, Ed25519, Hashes, Encodings, Hmac, Base64, HeaderValues}.
Context `{!Json SessionManifest}.
Context {W : Type} `{EngineClock W} (config : ServerConfig) (control : DataPlaneControl W).

(** The handler, from its guards on. *)
Lemma create_session_unfold headers request d (app : App W) nonce :
  enrollment_nonce headers = Ok nonce -> data_plane_ready app = true ->
  create_session_handler config control headers request d app =
    let '(sv, admitted) := request_admission request (sd_enrolling d) (app_access app) in
    finish_enrollment config control nonce (request_updates config headers (sd_updates_now d)) d admitted (set_access app sv).
Proof.
  intros Hn Hr. unfold create_session_handler, bind_handler at 1, from_result. rewrite Hn. unfold bind_handler at 1, is_ready. rewrite Hr.
  cbn [negb]. unfold bind_handler, ask_service. by destruct (request_admission request (sd_enrolling d) (app_access app)).
Qed.
Lemma create_session_guarded headers request d (app : App W) :
  (exists nonce, enrollment_nonce headers = Ok nonce) /\ data_plane_ready app = true \/
  exists e, create_session_handler config control headers request d app = (Err (Refused e), app) /\ (ae_status e = 400 \/ ae_status e = 503).
Proof.
  unfold create_session_handler, bind_handler at 1, from_result. unfold enrollment_nonce.
  destruct (header_get headers ENROLLMENT_NONCE_HEADER) as [v|]; [destruct (header_text v) as [t|]; [destruct (from_header_value t)|]|].
  2,3: right; eexists; split; [reflexivity|by left].
  all: destruct (data_plane_ready app) eqn:Er; [left; split; [by eexists|done]|right].
  all: unfold bind_handler at 1, is_ready; rewrite Er; eexists; split; [reflexivity|by right].
Qed.

Lemma bearer_token_err headers e : bearer_token headers = Err e -> e = unauthorized.
Proof. unfold bearer_token. destruct (_ ≫= strip_prefix _) as [t|]; [case_bool_decide|]; congruence. Qed.
(** A refusal after a call of the service is the service's or comes later. *)
Lemma call_outcome {A B} (m : M A) (k : A -> handler (W := W) B) app e app' :
  bind_handler (call m) k app = (Err (Refused e), app') ->
  (exists sv a, m (app_access app) = (sv, Ok a) /\ k a (set_access app sv) = (Err (Refused e), app')) \/ exists er, from_service_error er = e.
Proof.
  unfold bind_handler, call, bind_handler, ask_service. destruct (m (app_access app)) as [sv [a|er]]; cbn; [by eauto|].
  intros Hh. right. exists er. congruence.
Qed.
Lemma session_status_not_refused view updates d (app app' : App W) e :
  build_session_status config control view updates d app <> (Err (Refused e), app').
Proof.
  assert (HN : hoare (fun _ => True) (build_session_status config control view updates d) (fun _ _ => True)
    (fun f _ => match f with Refused _ => False | Crashed _ => True end)).
  { unfold build_session_status. eapply (hoare_bind _ _ _ (fun _ _ => True)).
    { intros a _. unfold ask_engine. destruct (traffic _ _ _) as [r w]. by destruct r as [|[]]. }
    intros r. eapply (hoare_bind _ _ _ (fun _ _ => True)).
    { destruct r; intros x _; [done|]. by destruct (unavailable_traffic _). }
    intros t. eapply (hoare_bind _ _ _ (fun _ _ => True)); [|by intros n a _].
    intros a _. unfold build_node_status, bind_handler, read_state, is_ready, engine_healthy, answer.
    destruct (data_plane_ready a); [by destruct (healthy control (app_engines a))|done]. }
  intros E. specialize (HN app I). by rewrite E in HN.
Qed.

Lemma create_session_refused headers request d (app : App W) sv er :
  request_admission request (sd_enrolling d) (app_access app) = (sv, Err er) ->
  create_session_handler config control headers request d app =
    match enrollment_nonce headers with
    | Err e => (Err (Refused e), app)
    | Ok _ => if data_plane_ready app then (Err (Refused (from_service_error er)), (count count_rejected (set_access app sv)).2)
              else (Err (Refused data_plane_not_ready), app)
    end.
Proof.
  intros HA. unfold create_session_handler, bind_handler at 1, from_result. destruct (enrollment_nonce headers); [|done].
  unfold bind_handler at 1, is_ready. destruct (data_plane_ready app); [|done]. cbn [negb]. unfold bind_handler at 1, ask_service. by rewrite HA.
Qed.

(** Statuses of the service's own errors. *)
Lemma service_error_status e : ae_status (from_service_error e) <> 426.
Proof. destruct e; done. Qed.

(** the order to update is told to holders of a valid access code only: an
    enrollment answered 426 was first admitted with the code it carried, and
    the answer to one the service refuses does not depend on what the app says
    of itself; a renewal answered 426 carried the token of a running
    session. *)
Theorem update_order_after_credentials headers request d (app app' : App W) e :
  ae_status e = 426 ->
  (create_session_handler config control headers request d app = (Err (Refused e), app') ->
     exists sv cs, request_admission request (sd_enrolling d) (app_access app) = (sv, Ok cs)) /\
  (renew_session_handler config control headers d app = (Err (Refused e), app') ->
     exists token sv view, bearer_token headers = Ok token /\
       session token (rn_pool (sd_renewing d)) (rn_auth_now (sd_renewing d)) (sd_view_now d) (app_access app) = (sv, Ok view)) /\
  (forall headers2 sv er, request_admission request (sd_enrolling d) (app_access app) = (sv, Err er) ->
     enrollment_nonce headers2 = enrollment_nonce headers ->
     create_session_handler config control headers2 request d app = create_session_handler config control headers request d app).
Proof.
  intros He. split_and!.
  - intros Hh. destruct (create_session_guarded headers request d app) as [[[nonce Hn] Hr]|(e' & Hg & Hs)].
    + rewrite (create_session_unfold _ _ _ _ _ Hn Hr) in Hh. destruct (request_admission _ _ _) as [sv [cs|er]]; [by eauto|].
      exfalso. unfold finish_enrollment, bind_handler, count, refuse in Hh. assert (from_service_error er = e) as <- by congruence.
      by apply (service_error_status er).
    + rewrite Hg in Hh. assert (e' = e) as -> by congruence. lia.
  - intros Hh. unfold renew_session_handler, bind_handler at 1, from_result in Hh.
    destruct (bearer_token headers) as [token|et] eqn:Eb.
    2:{ apply bearer_token_err in Eb as ->. assert (unauthorized = e) as <- by congruence. done. }
    destruct (is_required _).
    + destruct (call_outcome _ _ _ _ _ Hh) as [(sv & v & Es & _)|(er & Ee)]; [by eauto|]. subst e. by destruct (service_error_status er).
    + destruct (call_outcome _ _ _ _ _ Hh) as [(sv & v & _ & Hb)|(er & Ee)]; [|subst e; by destruct (service_error_status er)].
      by apply session_status_not_refused in Hb.
  - intros headers2 sv er HA Hn. by rewrite !(create_session_refused _ _ _ _ sv er HA), Hn.
Qed.

(** What [store] answers does not depend on what the disk held. *)
Lemma store_outcome d d' st io : (store_file d st io).2 = (store_file d' st io).2.
Proof. unfold store_file. by case_match. Qed.
Lemma live_only_old now st cs new :
  Forall (fun s => s_id s <> cs_id cs) (live_sessions now st) -> s_id new = cs_id cs ->
  filter (fun s => s_id s <> cs_id cs) (live_sessions now st ++ [new]) = live_sessions now st.
Proof.
  intros HF Hn. rewrite filter_app, filter_all by done. rewrite filter_cons_False by (by rewrite Hn; intros []). by rewrite app_nil_r.
Qed.

(** The discard of a session just admitted. *)
Lemma discard_admitted sv sv' grant secret name now token random cs pool t io note_now :
  admission (state sv) grant secret name now token random (state sv') cs grant ->
  used_up_until grant t = None -> t < lease_end grant now ->
  (store_file None (with_sessions (state sv) (live_sessions now (state sv))) io).2 = Ok tt ->
  state (discard_session (cs_token cs) pool t io note_now sv').1 = with_sessions (state sv) (live_sessions now (state sv)).
Proof.
  intros [_ Hid Htok _ Hg2 Hgid _ [Hp _] _ _ Hnew Hexp _ _ (dp & _ & Es)] Hu Ht Hio.
  set (new := mkSession _ _ _ _ _ _ _ _ _) in Es. set (live := live_sessions now (state sv)) in *.
  assert (El : lookup_session (state sv') (cs_id cs) = Ok (new, grant)).
  { apply lookup_session_ok. rewrite Es. split; [by apply (find_session_new _ _ new)|]. cbn. rewrite <- Hg2. by destruct (state sv). }
  assert (Ha : admits new grant t = true).
  { unfold admits. cbn [new s_expires_at]. rewrite Hexp, Hp, Hu, (proj2 (Z.ltb_lt _ _)) by done.
    destruct (g_expires_at grant) as [e|] eqn:Ee; [|done]. unfold lease_end in Ht. rewrite Ee in Ht. by rewrite (proj2 (Z.ltb_lt _ _)) by lia. }
  unfold discard_session, end_session, bind at 1. erewrite authenticate_complete; [|by rewrite Htok|exact El|done|done|done].
  assert (Ef : filter (fun s => s_id s <> s_id new) (sessions (state sv')) = live) by (rewrite Es; by apply (live_only_old now (state sv) cs)).
  assert (Ew : with_sessions (state sv') live = with_sessions (state sv) live) by (by rewrite Es).
  unfold end_commit, session_allocation, required_resource_slot, bind, Service.lift, locked, commit, bind, store. cbn [new s_resource_slot].
  cbn iota beta. change (s_id (mkSession _ _ _ _ _ _ _ _ _)) with (s_id new). rewrite Ef, Ew.
  pose proof (store_outcome None (disk sv') (with_sessions (state sv) live) io) as Eo. rewrite Hio in Eo.
  destruct (store_file (disk sv') _ io) as [d r]. cbn in Eo. by subst r.
Qed.

Lemma collect_err {A B} (f : A -> result ApiFailure B) l e : collect f l = Err e -> exists a, f a = Err e.
Proof. induction l as [|a l IH]; cbn; [done|]. destruct (f a) eqn:E; [|intros [= <-]; eauto]. by destruct (collect f l); [|intros [= <-]; apply IH]. Qed.
Lemma session_transports_crash cs f : session_transports config cs = Err f -> exists x, f = Crashed x.
Proof.
  intros [p Hp]%collect_err. unfold session_transport, ok_or in Hp. destruct (engine_for (cfg_hysteria config) _ _); [done|].
  destruct (engine_for (cfg_shadowsocks config) _ _) as [s|]; [destruct (session_port s _); [done|]; injection Hp as <-; eauto|].
  destruct (engine_for (cfg_wireguard config) _ _) as [g|]; [|by destruct (engine_for (cfg_openvpn config) _ _)].
  destruct (client_address _); [destruct (wireguard_credential g _)|]; [done|injection Hp as <-; eauto..].
Qed.
Lemma signed_manifest_internal nonce m e : signed_manifest_response config nonce m = Err e -> e = api_internal.
Proof.
  unfold signed_manifest_response. destruct (json_to_vec m); cbn; [|by intros [= <-]]. repeat case_match; try done; by intros [= <-].
Qed.

(** Handlers on a service in a given state. *)
Definition in_state (st : PersistedState) (a : App W) : Prop := state (app_access a) = st.
Lemma engine_in_state {A} st (m : act W A) : hoare (in_state st) (ask_engine m) (fun _ => in_state st) (fun f _ => exists x, f = Crashed x).
Proof. intros a Ha. unfold ask_engine. destruct (m (app_engines a)) as [r w]. destruct r as [x|[]]; eauto. Qed.
Lemma kick_in_state st l : hoare (in_state st) (kick_sessions control l) (fun _ => in_state st) (fun f _ => exists x, f = Crashed x).
Proof. unfold kick_sessions. eapply hoare_bind; [apply engine_in_state|]. intros ?. by apply hoare_answer. Qed.
Lemma count_in_state st f E : hoare (in_state st) (count f) (fun _ => in_state st) E.
Proof. by intros a Ha. Qed.
Lemma activity_in_state st id x now E : hoare (in_state st) (record_activity id x now) (fun _ => in_state st) E.
Proof.
  intros a Ha. unfold record_activity, bind_handler, ask_service. destruct (note_spec id x now (app_access a)) as (log & -> & _). done.
Qed.
Lemma refuse_session_in_state st st' cs event now e :
  (forall sv, state sv = st -> state (discard_session (cs_token cs) (ed_pool e) (ed_now e) (ed_io e) (ed_note e) sv).1 = st') ->
  hoare (in_state st) (refuse_session control cs event now e) (fun _ => in_state st') (fun f _ => exists x, f = Crashed x).
Proof.
  intros Hd. unfold refuse_session. eapply hoare_bind; [apply activity_in_state|]. intros ?.
  eapply (hoare_bind _ _ _ (fun _ => in_state st')); [|intros [al|er]; [apply kick_in_state|by apply hoare_answer]].
  intros b Hb. unfold ask_service. specialize (Hd (app_access b) Hb). by destruct (discard_session _ _ _ _ _ (app_access b)).
Qed.
(** A refusal other than the server's own failure, from [st] on. *)
Definition left_in (st : PersistedState) (f : ApiFailure) (a : App W) : Prop :=
  match f with Refused e => ae_status e <> 500 -> in_state st a | Crashed _ => True end.
Lemma hoare_crash {A} P (h : handler (W := W) A) Q st : hoare P h Q (fun f _ => exists x, f = Crashed x) -> hoare P h Q (left_in st).
Proof. intros Hh a Ha. specialize (Hh a Ha). destruct (h a) as [[|f]]; [done|]. by destruct Hh as [x ->]. Qed.
Lemma finish_leaves st st' nonce updates d cs :
  (forall sv, state sv = st ->
     state (discard_session (cs_token cs) (ed_pool (sd_discard d)) (ed_now (sd_discard d)) (ed_io (sd_discard d)) (ed_note (sd_discard d)) sv).1 = st') ->
  hoare (in_state st) (finish_enrollment config control nonce updates d (Ok cs)) (fun _ _ => True) (left_in st').
Proof.
  intros Hd. unfold finish_enrollment.
  assert (Hrefuse : forall event now er, hoare (in_state st)
    (bind_handler (refuse_session control cs event now (sd_discard d)) (fun _ => refuse (A := ApiResponse) er)) (fun _ _ => True) (left_in st')).
  { intros event now er. apply (hoare_bind _ _ _ (fun _ => in_state st')); [by apply hoare_crash, refuse_session_in_state|]. intros ?. apply hoare_refuse. by intros b Hb _. }
  eapply hoare_bind; [apply hoare_crash, kick_in_state|]. intros ?.
  destruct (is_required _); [eapply hoare_bind; [apply count_in_state|]; intros ?; apply Hrefuse|].
  eapply hoare_bind; [apply hoare_crash, engine_in_state|]. intros [u|er]; (eapply hoare_bind; [apply count_in_state|]; intros ?); [|apply Hrefuse].
  eapply (hoare_bind _ _ _ (fun _ => in_state st)).
  { intros b Hb. destruct (session_transports config cs) as [ts|f] eqn:Et; [done|]. by apply session_transports_crash in Et as [x ->]. }
  intros ts. destruct (_ && _); [eapply hoare_bind; [apply count_in_state|]; intros ?; apply Hrefuse|].
  eapply hoare_bind; [apply activity_in_state|]. intros ?. eapply (hoare_bind _ _ _ (fun _ _ => True)).
  { intros b Hb. unfold build_node_status, bind_handler, read_state, is_ready, engine_healthy, answer.
    destruct (data_plane_ready b); [by destruct (healthy control (app_engines b))|done]. }
  intros n. apply hoare_from_result; [done|]. intros b er _ ->%signed_manifest_internal. by intros Hne.
Qed.

(** a refused enrollment leaves nothing behind: unless the refusal is the
    server's own failure, the grants and the sessions afterwards are those of
    before, less at most the sessions whose lease had ended - whether the
    service refused it, or the app must update, an engine failed or the grant
    allows no protocol on offer, where the session just admitted is
    discarded. *)
Theorem refused_enrollment_leaves_nothing headers request d (app app' : App W) e :
  reachable (app_access app) ->
  let st := state (app_access app) in let now := en_now (sd_enrolling d) in let t := ed_now (sd_discard d) in
  create_session_handler config control headers request d app = (Err (Refused e), app') -> ae_status e <> 500 ->
  (forall parts g, split_access_code (cs_access_code request) = Ok parts -> find_grant st (part_id parts) = Some g ->
     used_up_until g t = None /\ t < lease_end g now) ->
  (store_file None (with_sessions st (live_sessions now st)) (ed_io (sd_discard d))).2 = Ok tt ->
  state (app_access app') = st \/ state (app_access app') = with_sessions st (live_sessions now st).
Proof.
  intros HR st now t Hh He Hg Hio. destruct (create_session_guarded headers request d app) as [[[nonce Hn] Hr]|(e' & Hg' & _)].
  2:{ rewrite Hg' in Hh. left. assert (app' = app) as -> by congruence. done. }
  destruct (request_admission request (sd_enrolling d) (app_access app)) as [sv [cs|er]] eqn:EA.
  - right. pose proof EA as EA'. apply create_session_admission in EA' as (_ & parts & name & g & g' & Ep & _ & Ef & -> & HA); [|by apply reachable_inv].
    destruct (Hg parts g Ep Ef) as [Hu Ht]. rewrite (create_session_unfold _ _ _ _ _ Hn Hr), EA in Hh.
    pose proof (finish_leaves (state sv) (with_sessions st (live_sessions now st)) nonce (request_updates config headers (sd_updates_now d)) d cs) as HF.
    lapply HF; [clear HF; intros HF|].
    + specialize (HF (set_access app sv) eq_refl). rewrite Hh in HF. by apply HF.
    + intros sv' Es. rewrite <- Es in HA. by eapply discard_admitted.
  - left. rewrite (create_session_refused _ _ _ _ _ _ EA), Hn, Hr in Hh. assert (app' = (count count_rejected (set_access app sv)).2) as -> by congruence.
    cbn [count snd app_access set_access]. unfold st.
    pose proof (create_session_refused_state (cs_access_code request) (Contract.cs_client_name request) now (en_token (sd_enrolling d))
      (en_random (sd_enrolling d)) (en_pool (sd_enrolling d)) (en_io (sd_enrolling d)) (en_note (sd_enrolling d)) _ HR) as HU.
    unfold request_admission in EA. fold now in EA. rewrite EA in HU. exact HU.
Qed.
End enrollment.

(** * Counters *)

Section counters.
Context `{SecretHashing, StateJson, NodeConfig, Ed25519, Hashes, Encodings, Hmac, Base64, HeaderValues}.
Context `{!Json SessionManifest}.
Context {W : Type} `{EngineClock W} (config : ServerConfig) (control : DataPlaneControl W).

Definition counted (m : AppMetrics) (a : App W) : Prop := app_metrics a = m.
(** A panic, with the counters as they were. *)
Definition crash_counted (m : AppMetrics) (f : ApiFailure) (a : App W) : Prop := (exists y, f = Crashed y) /\ counted m a.
Lemma counted_engine {A} m (x : act W A) : hoare (counted m) (ask_engine x) (fun _ => counted m) (crash_counted m).
Proof. intros a Ha. unfold ask_engine, crash_counted. destruct (x (app_engines a)) as [r w]. destruct r as [y|[]]; eauto. Qed.
Lemma counted_kick m l : hoare (counted m) (kick_sessions control l) (fun _ => counted m) (crash_counted m).
Proof. unfold kick_sessions. eapply hoare_bind; [apply counted_engine|]. intros ?. by apply hoare_answer. Qed.
Lemma counted_service {A} m (x : M A) E : hoare (counted m) (ask_service x) (fun _ => counted m) E.
Proof. intros a Ha. unfold ask_service. by destruct (x (app_access a)). Qed.
Lemma counted_activity m id x now E : hoare (counted m) (record_activity id x now) (fun _ => counted m) E.
Proof. unfold record_activity. eapply hoare_bind; [apply counted_service|]. intros ?. by apply hoare_answer. Qed.
Lemma counted_refuse m cs event now e :
  hoare (counted m) (refuse_session control cs event now e) (fun _ => counted m) (crash_counted m).
Proof.
  unfold refuse_session. eapply hoare_bind; [apply counted_activity|]. intros ?. eapply hoare_bind; [apply counted_service|].
  intros [al|er]; [apply counted_kick|by apply hoare_answer].
Qed.
Lemma counted_count m f E : hoare (counted m) (count f) (fun _ => counted (f m)) E.
Proof. intros a Ha. unfold count, counted in *. cbn. by rewrite Ha. Qed.

(** The counters after an enrollment that reached the service, by its
    outcome: a server error is one of the service, counted as rejected, or one
    of the document, after the session was counted as accepted. *)
Definition enrollment_counts (r : result ApiFailure ApiResponse) (m m' : AppMetrics) : Prop :=
  match r with
  | Ok _ => m' = count_accepted m
  | Err (Refused e) =>
    if bool_decide (ae_code e = str "grant_protocols_unavailable") then m' = count_rejected (count_accepted m)
    else if ae_status e =? 500 then m' = count_accepted m \/ m' = count_rejected m
    else m' = count_rejected m
  | Err (Crashed _) => m' ∈ [m; count_accepted m; count_rejected m; count_rejected (count_accepted m)]
  end.
Definition counts_as (m : AppMetrics) (f : ApiFailure) (a : App W) : Prop := enrollment_counts (Err f) m (app_metrics a).
Lemma counts_crash {A} P (h : handler (W := W) A) Q m m' : m' ∈ [m; count_accepted m; count_rejected m; count_rejected (count_accepted m)] ->
  hoare P h Q (crash_counted m') -> hoare P h Q (counts_as m).
Proof.
  intros Hm Hh a Ha. specialize (Hh a Ha). destruct (h a) as [[|f]]; [done|]. destruct Hh as [[x ->] Hc].
  unfold counts_as, enrollment_counts. by rewrite Hc.
Qed.
(** A refusal once the session was discarded. *)
Lemma refusal_counts m m' cs event now e er : m' ∈ [m; count_accepted m; count_rejected m; count_rejected (count_accepted m)] ->
  enrollment_counts (Err (Refused er)) m m' -> hoare (counted m')
    (bind_handler (refuse_session control cs event now e) (fun _ => refuse (A := ApiResponse) er)) (fun _ => counted (count_accepted m)) (counts_as m).
Proof.
  intros Hm He. eapply hoare_bind; [eapply counts_crash, counted_refuse; exact Hm|]. intros ?. apply hoare_refuse. intros b Hb. unfold counts_as. by rewrite Hb.
Qed.
Lemma service_error_counts m er : enrollment_counts (Err (Refused (from_service_error er))) m (count_rejected m).
Proof.
  unfold enrollment_counts. assert (ae_code (from_service_error er) <> str "grant_protocols_unavailable") as Hc by (by destruct er).
  rewrite bool_decide_false by exact Hc. destruct er; cbn; auto.
Qed.
#[local] Ltac among := rewrite !elem_of_cons; tauto.
Lemma finish_counts m nonce updates d r :
  hoare (counted m) (finish_enrollment config control nonce updates d r) (fun _ => counted (count_accepted m)) (counts_as m).
Proof.
  unfold finish_enrollment. destruct r as [cs|er].
  2:{ eapply hoare_bind; [apply counted_count|]. intros ?. apply hoare_refuse. intros b Hb. unfold counts_as. rewrite Hb. apply service_error_counts. }
  eapply hoare_bind; [eapply counts_crash, counted_kick; among|]. intros ?.
  destruct (is_required _); [eapply hoare_bind; [apply counted_count|]; intros ?; by apply refusal_counts; [among|]|].
  eapply hoare_bind; [eapply counts_crash, counted_engine; among|].
  intros [u|er]; (eapply hoare_bind; [apply counted_count|]; intros ?); [|by apply refusal_counts; [among|]].
  eapply (hoare_bind _ _ _ (fun _ => counted (count_accepted m))).
  { intros b Hb. destruct (session_transports config cs) as [ts|f] eqn:Et; [done|]. apply session_transports_crash in Et as [x ->].
    unfold counts_as, enrollment_counts. rewrite Hb. among. }
  intros ts. destruct (_ && _); [eapply hoare_bind; [apply counted_count|]; intros ?; by apply refusal_counts; [among|]|].
  eapply hoare_bind; [apply counted_activity|]. intros ?. eapply (hoare_bind _ _ _ (fun _ => counted (count_accepted m))).
  { intros b Hb. unfold build_node_status, bind_handler, read_state, is_ready, engine_healthy, answer.
    destruct (data_plane_ready b); [by destruct (healthy control (app_engines b))|done]. }
  intros n. apply hoare_from_result; [done|]. intros b er Hb Hs. apply signed_manifest_internal in Hs as ->. unfold counts_as. rewrite Hb. by left.
Qed.

(** C38: an enrollment that reaches the service is counted by its outcome: a
    document is counted once as accepted, a refusal once as rejected, except
    where the grant allows no protocol on offer - that one attempt is counted
    both as accepted and as rejected. A server error is counted once, as one or
    the other, and a panic at most once as each. *)
Theorem no_protocol_counted_twice headers request d (app app' : App W) r :
  is_ok (enrollment_nonce headers) = true -> data_plane_ready app = true ->
  create_session_handler config control headers request d app = (r, app') ->
  enrollment_counts r (app_metrics app) (app_metrics app').
Proof.
  intros Hn Hr Hh. destruct (enrollment_nonce headers) as [nonce|] eqn:En; [|done]. rewrite (create_session_unfold _ _ _ _ _ _ _ En Hr) in Hh.
  destruct (request_admission _ _ _) as [sv a]. pose proof (finish_counts (app_metrics app) nonce (request_updates config headers (sd_updates_now d)) d a (set_access app sv) eq_refl) as HF.
  rewrite Hh in HF. by destruct r as [x|[e|x]].
Qed.
End counters.

(** * A session revoked while it is provisioned *)

Section race.
Context `{SecretHashing, StateJson, NodeConfig, !StateJsonLaws, Ed25519, Hashes, Encodings, Hmac, Base64, HeaderValues}.
Context `{!Json SessionManifest, !UrlParser, !Hpke}.
Context {W : Type} `{EngineClock W} (config : ServerConfig) (control : DataPlaneControl W).
Notation engine := (traced control).

Definition serving (st : PersistedState) (al : SessionAllocation) (a : App (@Traced W)) : Prop := in_state st a /\ al ∈ told (calls a).
Lemma finish_serves st nonce updates d cs :
  hoare (in_state st) (finish_enrollment config engine nonce updates d (Ok cs))
    (fun _ => serving st (mkAllocation (cs_id cs) (cs_resource_slot cs))) (fun _ _ => True).
Proof.
  unfold finish_enrollment. set (al := mkAllocation _ _). set (Q := fun (_ : ApiResponse) => serving st al).
  assert (Hrefuse : forall (P : App (@Traced W) -> Prop) e (m : handler (W := @Traced W) unit), hoare P (bind_handler m (fun _ => refuse e)) Q (fun _ _ => True)).
  { intros P e m a _. unfold bind_handler. by destruct (m a) as [[]]. }
  assert (Hloud : forall A P (h : handler (W := @Traced W) A) R E, hoare P h R E -> hoare P h R (fun _ _ => True)).
  { intros A P h R E Hh a Ha. specialize (Hh a Ha). by destruct (h a) as [[]]. }
  eapply hoare_bind; [eapply Hloud, kick_in_state|]. intros ?.
  destruct (is_required _); [eapply hoare_bind; [apply count_in_state|]; intros ?; apply Hrefuse|].
  eapply (hoare_bind _ _ _ (fun _ => serving st al)).
  { intros b Hb. unfold ask_engine. cbn [provision traced]. destruct (trace_call _ _ (app_engines b)) as [r w'] eqn:Ec. apply calls_grow in Ec as [w ->].
    assert (serving st al (set_engines b (w, calls b ++ [Provisioned al]))) by (split; [done|]; unfold calls at 1; cbn [app_engines set_engines snd]; rewrite told_snoc; left).
    by destruct r as [|[]]. }
  intros [u|er]; [|apply (hoare_bind _ _ _ (fun _ => serving st al)); [by intros b Hb|intros ?; apply Hrefuse]].
  eapply (hoare_bind _ _ _ (fun _ => serving st al)); [by intros b Hb|]. intros ?.
  eapply (hoare_bind _ _ _ (fun _ => serving st al)); [intros b Hb; by destruct (session_transports config cs)|]. intros ts.
  destruct (_ && _); [eapply (hoare_bind _ _ _ (fun _ => serving st al)); [by intros b Hb|intros ?; apply Hrefuse]|].
  eapply (hoare_bind _ _ _ (fun _ => serving st al)).
  { intros b [Hb Hc]. pose proof (activity_in_state st (cs_grant_id cs) (activity_session Enrolled (cs_id cs) (Service.cs_client_name cs)) (sd_enrolled_now d) (fun _ _ => True) b Hb) as HA.
    unfold record_activity, bind_handler, ask_service, answer in *. destruct (note _ _ _ _) as [sv r]. done. }
  intros ?. eapply (hoare_bind _ _ _ (fun _ => serving st al)); [|intros n; by apply hoare_from_result].
  intros b [Hb Hc]. unfold build_node_status, bind_handler, read_state, is_ready, engine_healthy, answer.
  destruct (data_plane_ready b); [|done]. cbn [healthy traced]. destruct (app_engines b) as [w l] eqn:Ew. destruct (healthy control w) as [ok w2].
  split; [done|]. unfold calls in *. rewrite Ew in Hc. done.
Qed.

(** C37: the await between admitting a session and provisioning it is a window:
    when the grant is revoked there, the revocation ends the session and kicks
    it from the engines before they know it, the enrollment then provisions
    it and answers with its credentials, and the engines are left serving a
    session that the service does not have - until the server restarts, as
    nothing else reconciles them. *)
Theorem provision_race_outlives_session request d headers io nonce updates (app app2 app3 : App (@Traced W)) sv cs u response :
  reachable (app_access app) ->
  request_admission request (sd_enrolling d) (app_access app) = (sv, Ok cs) ->
  revoke_grant_handler config engine headers (cs_grant_id cs) io (set_access app sv) = (Ok u, app2) ->
  finish_enrollment config engine nonce updates d (Ok cs) app2 = (Ok response, app3) ->
  let al := mkAllocation (cs_id cs) (cs_resource_slot cs) in
  al ∈ told (calls app3) /\ (forall s, s ∈ sessions (state (app_access app3)) -> s_id s <> cs_id cs).
Proof.
  intros HR HA Hrev Hf al. pose proof (finish_serves (state (app_access app2)) nonce updates d cs app2 eq_refl) as HS. rewrite Hf in HS.
  destruct HS as [Hst Htold]. split; [done|]. intros s. rewrite Hst. clear Hst Htold Hf.
  destruct (create_session_admission _ _ _ _ _ _ _ _ _ _ _ (reachable_inv _ HR) HA) as (HI & ? & ? & ? & g & _ & _ & _ & _ & HD).
  destruct HD as [_ _ _ _ _ Hgid _ _ _ _ Hnew _ _ _ (dp & _ & Est)].
  unfold revoke_grant_handler, bind_handler at 1, from_result in Hrev. destruct (authorize_admin config headers); [|done].
  unfold bind_handler at 1, call, bind_handler at 1, ask_service in Hrev. cbn [app_access set_access] in Hrev.
  pose proof (revoke_grant_triple sv (cs_grant_id cs) io HI sv (conj eq_refl (conj eq_refl (conj eq_refl eq_refl)))) as HT.
  destruct (revoke_grant (cs_grant_id cs) io sv) as [sv2 [ended|er]]; [|done]. cbn [map_err from_result] in Hrev.
  destruct HT as (_ & Es2 & _).
  match type of Hrev with kick_sessions _ _ ?a = _ => pose proof (kick_in_state engine (state sv2) ended a eq_refl) as HK end.
  rewrite Hrev in HK. rewrite HK, Es2, Est. cbn [sessions with_sessions]. intros [Hg Hs]%list_elem_of_filter.
  apply elem_of_app in Hs as [Hs|[->|Hs%elem_of_nil]%elem_of_cons]; [|by rewrite Hgid in Hg|done].
  rewrite Forall_forall in Hnew. by apply Hnew.
Qed.
End race.
