(* ===== verification/ApiTasks.v ===== *)
(** The server with many requests in progress at once.

    A handler gives way to others wherever it awaits: at every lock of the
    access service and every call of an engine. Here each handler of
    api/mod.rs and api/grants.rs, and each background task, is cut into turns
    at those places; run alone, the turns are the handler. The server's runs
    interleave the turns of any number of requests in any order, and a request
    may be cut off between two turns, as happens to one whose client hangs
    up. *)

From Stdlib Require Import ZArith Lia SpecFloat.
From stdpp Require Import gmap strings.
From S2P Require Import Prelude Order Utf8 Str Vendor Invite Tunnel Seal Update Contract Control Validation Gateway StdText Config Engines DataPlane EngineControls Allowance Grant Model Activity Meter GrantAdmin Service ServiceInv ServiceProps ServiceEnds Api ApiLogic ApiProps.

(** * Turns *)

Section turns.
Context {W : Type}.

(** What is left of a handler: its outcome, a turn and what follows, or a kick
    of sessions that the handler has ended. *)
Inductive Work (A : Type) : Type :=
| Finishes (r : result ApiFailure A)
| Turn {X : Type} (h : handler (W := W) X) (k : X -> Work A)
| Kicks (l : list SessionAllocation) (k : Work A).
Fixpoint work_bind {A B} (p : Work A) (f : A -> Work B) : Work B :=
  match p with
  | Finishes _ (Ok a) => f a
  | Finishes _ (Err e) => Finishes B (Err e)
  | Turn _ h k => Turn B h (fun x => work_bind (k x) f)
  | Kicks _ l k => Kicks B l (work_bind k f)
  end.
(** All the turns, one after the other. *)
Fixpoint alone {A} (control : DataPlaneControl W) (p : Work A) : handler (W := W) A :=
  match p with
  | Finishes _ r => fun app => (r, app)
  | Turn _ h k => bind_handler h (fun x => alone control (k x))
  | Kicks _ l k => bind_handler (kick_sessions control l) (fun _ => alone control k)
  end.
End turns.
Arguments Finishes {W A}.
Arguments Turn {W A X}.
Arguments Kicks {W A}.
Notation "'turn!' x ':=' h 'in' k" := (Turn h (fun x => k))
  (at level 200, x pattern, h at level 100, k at level 200, format "'[v' 'turn!'  x  ':='  h  'in' '/' k ']'").
Notation "'part!' x ':=' p 'in' k" := (work_bind p (fun x => k))
  (at level 200, x pattern, p at level 100, k at level 200, format "'[v' 'part!'  x  ':='  p  'in' '/' k ']'").
Notation gives a := (Finishes (Ok a)).
Notation refuses e := (Finishes (Err (Refused e))).
Definition work_result {W A} (r : result ApiError A) : Work (W := W) A :=
  Finishes (match r with Ok a => Ok a | Err e => Err (Refused e) end).

Section tasks.
Context `{SecretHashing, StateJson, NodeConfig, Ed25519, Hashes, Encodings, Hmac, Base64, HeaderValues}.
Context `{!Json SessionManifest, !UrlParser, !Hpke}.
Context {W : Type} `{EngineClock W} (config : ServerConfig) (control : DataPlaneControl W).
Notation work := (Work (W := W)).

(** The service's operations, a turn per lock. *)
Definition admission_turns (request : CreateSessionRequest) (e : Enrolling) : work (result ServiceError CreatedSession) :=
  turn! found := read_state (fun st => enrollment st (cs_access_code request) (Contract.cs_client_name request)) in
  match found with
  | Err error => gives (Err error)
  | Ok (grant, secret, client_name) =>
    turn! admitted := ask_service (admit_session grant secret client_name (en_now e) (en_token e) (en_random e) (en_pool e) (en_io e) (en_note e)) in
    match admitted with
    | Ok created => gives (Ok created)
    | Err error =>
      match enrollment_refusal error with
      | Some event => turn! _ := ask_service (note (g_id grant) (activity_enrollment event client_name) (en_note e)) in gives (Err error)
      | None => gives (Err error)
      end
    end
  end.
Definition end_turns (token : list byte) (event : option GrantActivityEvent) (e : Ending) : work (result ServiceError SessionAllocation) :=
  turn! found := ask_service (authenticate token (ed_pool e) (ed_now e)) in
  match found with
  | Err error => gives (Err error)
  | Ok (record, _) => turn! ended := ask_service (end_commit record event (ed_io e) (ed_note e)) in gives ended
  end.
Definition session_turns (token : list byte) (pool : CryptoPool) (now view_now : Z) : work SessionView :=
  turn! found := call (authenticate token pool now) in
  work_result (map_err from_service_error (let* slot := required_resource_slot found.1 in
    Ok (session_view found.1 found.2 slot (s_expires_at found.1) view_now))).
Definition renew_turns (token : list byte) (r : Renewing) : work SessionView :=
  turn! found := call (authenticate token (rn_pool r) (rn_auth_now r)) in
  turn! view := call (renew_commit found.1 found.2 (rn_now r) (rn_io r) (rn_note r)) in
  gives view.
Definition sign_in_turns (token : list byte) (protocol : TransportProtocol) (username : option (list byte)) (now note_now : Z)
    : work (result ServiceError SessionView) :=
  match split_session_token token with
  | Err _ => gives (Err Unauthorized)
  | Ok parts =>
    turn! result := read_state (fun st => verify_data_plane st parts protocol username now) in
    turn! _ := ask_service (note_sign_in (part_id parts) (sign_in_event result) protocol note_now) in
    gives (map_err (fun _ => Unauthorized) result)
  end.
Fixpoint grants_turns (request : CreateAccessGrantBatchRequest) (label_prefix : list byte) (index : Z) (draws : list GrantDraw)
    : work (list CreateAccessGrantResponse) :=
  match draws with
  | [] => gives []
  | d :: draws =>
    turn! g := call (create_grant
        (Build_CreateAccessGrantRequest (label_prefix ++ str "-" ++ show_u64 index) (batch_max_connections request)
           (batch_valid_for_minutes request) (batch_protocols request) (batch_allowance request))
        (d_now d) (d_code d) (d_salt d) (d_pool d) (d_io d)) in
    part! gs := grants_turns request label_prefix (index + 1) draws in
    gives (g :: gs)
  end.
Definition grant_batch_turns (request : CreateAccessGrantBatchRequest) (draws : list GrantDraw) : work (list CreateAccessGrantResponse) :=
  if negb ((batch_count request =? 0) || (100 <? batch_count request)) then
    part! label_prefix := work_result (map_err from_service_error (validate_text (batch_label_prefix request) "label_prefix" MAX_LABEL_LENGTH)) in
    grants_turns request label_prefix 1 (take (Z.to_nat (batch_count request)) draws)
  else refuses (from_service_error (InvalidInput (str "count must be between 1 and 100"))).

(** The parts the handlers share. *)
Definition refuse_session_turns (created : CreatedSession) (event : GrantActivityEvent) (now : Z) (e : Ending) : work unit :=
  turn! _ := record_activity (cs_grant_id created) (activity_enrollment event (Service.cs_client_name created)) now in
  part! ended := end_turns (cs_token created) None e in
  match ended with
  | Ok session => Kicks [session] (gives tt)
  | Err _ => gives tt
  end.
Definition node_status_turns (d : NodeDraws) : work NodeStatus :=
  turn! active_sessions := read_state (fun st => active_session_count st (nd_count_now d)) in
  let capacity_percent := percent32 active_sessions (cfg_max_sessions config) in
  let system := nd_system d in
  turn! ready := is_ready in
  turn! data_plane_healthy := (if ready : bool then engine_healthy control else answer false) in
  gives (mkNode (cfg_node_id config) (cfg_node_name config) (cfg_public_url config) (cfg_location config)
            (health_of capacity_percent data_plane_healthy system) active_sessions (cfg_max_sessions config) capacity_percent
            (snap_cpu_load_percent system) (snap_memory_used_bytes system) (snap_memory_total_bytes system)
            (snap_uptime_seconds system) (nd_observed d)).
(** A session's traffic, or that it is unavailable. *)
Definition traffic_turns (al : SessionAllocation) : work SessionTraffic :=
  turn! read := ask_engine (traffic control al) in
  turn! t := match read with
             | Ok t => answer t
             | Err _ => fun app => let '(t, w) := unavailable_traffic (app_engines app) in (Ok t, set_engines app w)
             end in
  gives t.
Definition session_status_turns (session : SessionView) (updates : UpdateAdvice) (d : NodeDraws) : work SessionStatus :=
  part! t := traffic_turns (mkAllocation (sv_id session) (sv_resource_slot session)) in
  part! node := node_status_turns d in
  gives (mkSessionStatus (sv_id session) (sv_client_name session) (sv_expires_at session) (sv_access_expires_at session) node t
               (Some updates) (sv_allowance session)).

(** The handlers. *)
Definition create_session_task (headers : HeaderMap) (request : CreateSessionRequest) (d : SessionDraws) : work ApiResponse :=
  let updates := request_updates config headers (sd_updates_now d) in
  part! nonce := work_result (enrollment_nonce headers) in
  turn! ready := is_ready in
  if negb ready then refuses data_plane_not_ready else
  part! admitted := admission_turns request (sd_enrolling d) in
  match admitted with
  | Err error => turn! _ := count count_rejected in refuses (from_service_error error)
  | Ok created =>
    Kicks (cs_expired_allocations created) (
    if is_required (advice_client updates) then
      turn! _ := count count_rejected in
      part! _ := refuse_session_turns created RefusedUpdateRequired (sd_refuse_now d) (sd_discard d) in
      refuses (client_update_required (advice_client updates))
    else
    turn! provisioned := ask_engine (provision control (mkAllocation (cs_id created) (cs_resource_slot created))) in
    match provisioned with
    | Err _ =>
      turn! _ := count count_rejected in
      part! _ := refuse_session_turns created RefusedServerUnavailable (sd_refuse_now d) (sd_discard d) in
      refuses data_plane_unavailable
    | Ok _ =>
      turn! _ := count count_accepted in
      part! transports := Finishes (session_transports config created) in
      if bool_decide (length transports = 0%nat) && negb (is_all (cs_protocols created)) then
        turn! _ := count count_rejected in
        part! _ := refuse_session_turns created RefusedNoProtocol (sd_refuse_now d) (sd_discard d) in
        refuses grant_protocols_unavailable
      else
      turn! _ := record_activity (cs_grant_id created) (activity_session Enrolled (cs_id created) (Service.cs_client_name created)) (sd_enrolled_now d) in
      part! node := node_status_turns (sd_node d) in
      work_result (signed_manifest_response config nonce
        (mkSessionManifest (cs_token created) (cs_expires_at created) (cs_access_expires_at created) node transports (Some updates)))
    end)
  end.
Definition session_status_task (headers : HeaderMap) (d : SessionDraws) : work SessionStatus :=
  part! token := work_result (bearer_token headers) in
  part! session := session_turns token (rn_pool (sd_renewing d)) (rn_auth_now (sd_renewing d)) (sd_view_now d) in
  session_status_turns session (request_updates config headers (sd_updates_now d)) (sd_node d).
Definition renew_session_task (headers : HeaderMap) (d : SessionDraws) : work SessionStatus :=
  part! token := work_result (bearer_token headers) in
  let updates := request_updates config headers (sd_updates_now d) in
  let r := sd_renewing d in
  if is_required (advice_client updates) then
    part! session := session_turns token (rn_pool r) (rn_auth_now r) (sd_view_now d) in
    turn! _ := record_activity (sv_grant_id session)
                 (activity_session RefusedUpdateRequired (sv_id session) (sv_client_name session)) (sd_refuse_now d) in
    refuses (client_update_required (advice_client updates))
  else
    part! session := renew_turns token r in
    session_status_turns session updates (sd_node d).
(** An error of the service refuses the request. *)
Definition or_refuse {A} (p : work (result ServiceError A)) : work A := part! r := p in work_result (map_err from_service_error r).
Definition release_session_task (headers : HeaderMap) (e : Ending) : work unit :=
  part! token := work_result (bearer_token headers) in
  part! session := or_refuse (end_turns token (Some Left) e) in
  Kicks [session] (gives tt).
Definition authenticate_hysteria_task (auth : list byte) (now note_now : Z) : work HysteriaAuthResponse :=
  let protocol := match cfg_hysteria config with Some hysteria => transport_protocol config (hy_transport_id hysteria) | None => None end in
  part! session := match protocol with
                   | Some protocol => sign_in_turns auth protocol None now note_now
                   | None => gives (Err Unauthorized)
                   end in
  match session with
  | Ok session => turn! _ := count (count_auth true) in gives (mkHysteriaAuth true (sv_id session))
  | Err _ => turn! _ := count (count_auth false) in gives (mkHysteriaAuth false [])
  end.
Definition authenticate_openvpn_task (headers : HeaderMap) (username password : list byte) (now note_now : Z) : work Z :=
  match cfg_openvpn config with
  | None => gives 404
  | Some openvpn =>
    let authorized := match bearer_token headers with Ok candidate => same_secret (ov_auth_token openvpn) candidate | Err _ => false end in
    let protocol := transport_protocol config (ov_transport_id openvpn) in
    part! session := match (if authorized then protocol else None) with
                     | Some protocol => sign_in_turns password protocol (Some username) now note_now
                     | None => gives (Err Unauthorized)
                     end in
    turn! _ := count (count_auth (is_ok session)) in
    gives (if is_ok session then 204 else 401)
  end.
Definition ready_task : work (Z * list (list byte * list byte)) :=
  turn! ready := is_ready in
  turn! ok := (if ready : bool then engine_healthy control else answer false) in
  gives (if ok : bool then (200, [(str "status", str "ready")])
             else (503, [(str "status", str "not_ready"); (str "reason", str "data_plane_unhealthy")])).
Definition create_grant_task (headers : HeaderMap) (request : CreateAccessGrantRequest) (d : GrantDraw)
    : work (CreateAccessGrantResponse * option (list byte)) :=
  part! _ := work_result (authorize_admin config headers) in
  part! _ := work_result (require_offered config (create_protocols request)) in
  turn! g := call (create_grant request (d_now d) (d_code d) (d_salt d) (d_pool d) (d_io d)) in
  gives (attach_invite config g).
Definition create_grant_batch_task (headers : HeaderMap) (request : CreateAccessGrantBatchRequest) (draws : list GrantDraw)
    : work (list (CreateAccessGrantResponse * option (list byte))) :=
  part! _ := work_result (authorize_admin config headers) in
  part! _ := work_result (require_offered config (batch_protocols request)) in
  part! gs := grant_batch_turns request draws in
  gives (map (attach_invite config) gs).
Definition list_grants_task (headers : HeaderMap) (now : Z) : work (list AccessGrantSummary) :=
  part! _ := work_result (authorize_admin config headers) in
  turn! gs := read_state (fun st => list_grants st now) in
  gives gs.
Definition offered_protocols_task (headers : HeaderMap) : work (list OfferedProtocol) :=
  part! _ := work_result (authorize_admin config headers) in
  gives (protocols_offered_by config).
Fixpoint connected_devices_turns (devices : list GrantDevice) : work (list ConnectedDevice) :=
  match devices with
  | [] => gives []
  | device :: devices =>
    part! t := traffic_turns (gd_allocation device) in
    part! rest := connected_devices_turns devices in
    gives (mkConnected (al_id (gd_allocation device)) (gd_client_name device) (connected_at device)
                 (Service.session_expires_at device) t :: rest)
  end.
Definition grant_details_task (headers : HeaderMap) (id : list byte) (now : Z) : work AccessGrantDetails :=
  part! _ := work_result (authorize_admin config headers) in
  turn! found := call (fun sv => (sv, grant_details (state sv) id now)) in
  part! devices := connected_devices_turns (snd found) in
  turn! details := (fun app => (Ok (mkDetails (fst found) devices (recent (activity (app_access app)) (summary_id (fst found)))), app)) in
  gives details.
Definition update_grant_task (headers : HeaderMap) (id : list byte) (request : UpdateAccessGrantRequest) (now : Z) (io : Io) (note_now : Z)
    : work (AccessGrantSummary * Z) :=
  part! _ := work_result (authorize_admin config headers) in
  part! _ := match new_protocols request with Some protocols => work_result (require_offered config protocols) | None => gives tt end in
  turn! updated := call (update_grant id request now io note_now) in
  Kicks (snd updated) (gives (fst updated, as_u32 (zlen (snd updated)))).
Definition revoke_grant_task (headers : HeaderMap) (id : list byte) (io : Io) : work unit :=
  part! _ := work_result (authorize_admin config headers) in
  turn! revoked_sessions := call (revoke_grant id io) in
  Kicks revoked_sessions (gives tt).

(** The background tasks. *)
Definition expire_task (now : Z) (io : Io) (note_now : Z) : work unit :=
  turn! expired := ask_service (expire_sessions now io note_now) in
  match expired with Ok expired => Kicks expired (gives tt) | Err _ => gives tt end.
Definition meter_task (meter : UsageMeter) (now record_now : Z) (io : Io) (note_now : Z) : work UsageMeter :=
  turn! sessions := read_state (fun st => metered_sessions st now) in
  if bool_decide (length sessions = 0%nat) then gives (fst (meter_take meter [] []))
  else
    turn! readings := ask_engine (usage control (map allocation sessions)) in
    match readings with
    | Err _ => gives meter
    | Ok readings =>
      let '(meter, moved) := meter_take meter sessions readings in
      turn! ended := ask_service (record_usage moved record_now io note_now) in
      match ended with
      | Ok ended => if bool_decide (length ended = 0%nat) then gives meter else Kicks ended (gives meter)
      | Err _ => gives meter
      end
    end.
Fixpoint reconcile_turns (attempts : nat) (sessions : list SessionAllocation) : work (result ReconcileError unit) :=
  match attempts with
  | O => Finishes (Err (Crashed (str "bounded reconciliation loop always returns")))
  | S attempts =>
    turn! r := ask_engine (reconcile control sessions) in
    match r with
    | Ok _ => turn! _ := set_ready true in gives (Ok tt)
    | Err e => match attempts with O => gives (Err (NotReconciled e)) | S _ => reconcile_turns attempts sessions end
    end
  end.
Definition reconcile_task (now : Z) : work (result ReconcileError unit) :=
  turn! _ := set_ready false in
  turn! sessions := read_state (fun st => active_session_allocations st now) in
  match sessions with
  | Err e => gives (Err (NoAllocations e))
  | Ok sessions => reconcile_turns 20 sessions
  end.

(** What comes to the server, as turns; its answer is left out. *)
Definition unanswered {A} (p : work A) : work unit := part! _ := p in gives tt.
Definition task_of (op : ApiOp) : work unit :=
  match op with
  | CreateSessionOp headers request d => unanswered (create_session_task headers request d)
  | SessionStatusOp headers d => unanswered (session_status_task headers d)
  | RenewSessionOp headers d => unanswered (renew_session_task headers d)
  | ReleaseSessionOp headers e => unanswered (release_session_task headers e)
  | HysteriaAuthOp auth now t => unanswered (authenticate_hysteria_task auth now t)
  | OpenVpnAuthOp headers u p now t => unanswered (authenticate_openvpn_task headers u p now t)
  | ReadyOp => unanswered ready_task
  | NodeStatusOp d => unanswered (node_status_turns d)
  | CreateGrantOp headers request d => unanswered (create_grant_task headers request d)
  | CreateGrantBatchOp headers request draws => unanswered (create_grant_batch_task headers request draws)
  | ListGrantsOp headers now => unanswered (list_grants_task headers now)
  | OfferedProtocolsOp headers => unanswered (offered_protocols_task headers)
  | MetricsOp now operations capacity => turn! _ := metrics_handler config now operations capacity in gives tt
  | GrantDetailsOp headers id now => unanswered (grant_details_task headers id now)
  | UpdateGrantOp headers id request now io t => unanswered (update_grant_task headers id request now io t)
  | RevokeGrantOp headers id io => unanswered (revoke_grant_task headers id io)
  | ExpireTask now io t => unanswered (expire_task now io t)
  | MeterTask meter now record_now io t => unanswered (meter_task meter now record_now io t)
  | ReconcileTask now => unanswered (reconcile_task now)
  end.
End tasks.

(** * Alone, the turns are the handlers *)

Section alone.
Context `{SecretHashing, StateJson, NodeConfig, Ed25519, Hashes, Encodings, Hmac, Base64, HeaderValues}.
Context `{!Json SessionManifest, !UrlParser, !Hpke}.
Context {W : Type} `{EngineClock W} (config : ServerConfig) (control : DataPlaneControl W).
Notation runs p := (alone control p).

(** Two handlers that do the same in every state. *)
Definition same {A} (h h' : handler (W := W) A) : Prop := forall app, h app = h' app.
Lemma same_refl {A} (h : handler (W := W) A) : same h h.
Proof. done. Qed.
Lemma same_bind {A B} (m m' : handler (W := W) A) (k k' : A -> handler (W := W) B) :
  same m m' -> (forall a, same (k a) (k' a)) -> same (bind_handler m k) (bind_handler m' k').
Proof. intros Hm Hk app. unfold bind_handler. rewrite Hm. destruct (m' app) as [[a|e] app']; [apply Hk|done]. Qed.
Lemma alone_bind {A B} (p : Work A) (f : A -> Work B) : same (runs (work_bind p f)) (bind_handler (runs p) (fun a => runs (f a))).
Proof.
  induction p as [[a|e]|X h k IH|l k IH]; intros app; cbn [work_bind alone]; [done..| |]; unfold bind_handler.
  - destruct (h app) as [[x|e] app']; [apply IH|done].
  - destruct (kick_sessions control l app) as [[x|e] app']; [apply IH|done].
Qed.
Lemma alone_part {A B} (p : Work A) (f : A -> Work B) h k :
  same (runs p) h -> (forall a, same (runs (f a)) (k a)) -> same (runs (work_bind p f)) (bind_handler h k).
Proof. intros Hp Hf app. rewrite alone_bind. by apply same_bind. Qed.
Lemma alone_turn {A X} (h : handler (W := W) X) (f : X -> Work A) k :
  (forall x, same (runs (f x)) (k x)) -> same (runs (Turn h f)) (bind_handler h k).
Proof. intros Hf. by apply same_bind. Qed.
Lemma alone_kicks {A} l (p : Work A) k : same (runs p) (k tt) -> same (runs (Kicks l p)) (bind_handler (kick_sessions control l) k).
Proof. intros Hp. apply same_bind; [done|]. by intros []. Qed.
(** A turn that ends a handler. *)
Lemma alone_last {A} (h : handler (W := W) A) : same (runs (turn! x := h in gives x)) h.
Proof. intros app. cbn [alone]. unfold bind_handler. by destruct (h app) as [[] ?]. Qed.
Lemma alone_last_kick l : same (runs (Kicks l (gives tt))) (kick_sessions control l).
Proof. intros app. cbn [alone]. unfold bind_handler. by destruct (kick_sessions control l app) as [[[]|] ?]. Qed.
(** One step on both sides. *)
Ltac together := repeat first
  [ apply same_refl
  | apply alone_last | apply alone_last_kick
  | apply alone_turn; intros ?
  | apply alone_kicks
  | apply alone_part; [apply same_refl|intros ?]
  | match goal with |- same (alone _ (if ?b then _ else _)) _ => destruct b | |- same (alone _ (match ?x with _ => _ end)) _ => destruct x end ].

(** Operations of the service. *)
Ltac in_service := intros app; cbn [alone]; unfold bind_handler, read_state, ask_service, call, bind_handler, ask_service, bind, locked, lift.
Lemma admission_alone request e : same (runs (admission_turns request e)) (ask_service (request_admission request e)).
Proof.
  unfold admission_turns, request_admission, create_session. in_service.
  destruct (enrollment _ _ _) as [[[grant secret] name]|error]; [|by destruct app]. cbn [alone]. unfold bind_handler, ask_service, note_refusal.
  destruct (admit_session _ _ _ _ _ _ _ _ _ (app_access app)) as [sv [created|error]]; [done|]. cbn [alone].
  destruct (enrollment_refusal error) as [event|]; [|done]. cbn [alone]. unfold bind_handler, ask_service. cbn [app_access set_access].
  by destruct (note _ _ _ sv).
Qed.
Lemma end_alone token event e : same (runs (end_turns token event e)) (ask_service (end_session token event (ed_pool e) (ed_now e) (ed_io e) (ed_note e))).
Proof.
  unfold end_turns, end_session. in_service. destruct (authenticate _ _ _ (app_access app)) as [sv [[record g]|error]]; [|done].
  cbn [alone]. unfold bind_handler, ask_service. cbn [app_access set_access]. by destruct (end_commit _ _ _ _ sv).
Qed.
Lemma session_alone token pool now view_now : same (runs (session_turns token pool now view_now)) (call (session token pool now view_now)).
Proof.
  unfold session_turns, session. in_service. destruct (authenticate _ _ _ (app_access app)) as [sv [[record g]|error]]; [|done].
  cbn. by destruct (required_resource_slot record).
Qed.
Lemma renew_alone token r : same (runs (renew_turns token r)) (call (renew_session token (rn_pool r) (rn_auth_now r) (rn_now r) (rn_io r) (rn_note r))).
Proof.
  unfold renew_turns, renew_session. in_service. destruct (authenticate _ _ _ (app_access app)) as [sv [[record g]|error]]; [|done].
  cbn [alone map_err from_result]. unfold bind_handler, call, bind_handler, ask_service. cbn [app_access set_access fst snd].
  by destruct (renew_commit _ _ _ _ _ sv) as [sv' [view|error]].
Qed.
Lemma sign_in_alone token protocol username now t :
  same (runs (sign_in_turns token protocol username now t)) (ask_service (authenticate_data_plane token protocol username now t)).
Proof.
  unfold sign_in_turns, authenticate_data_plane. destruct (split_session_token token) as [parts|error]; [|by intros []].
  in_service. cbn [map_err]. destruct (note_sign_in_runs (part_id parts) (sign_in_event (verify_data_plane (state (app_access app)) parts protocol username now)) protocol t (app_access app))
    as (ops & _ & E). unfold note_sign_in, bind, locked in *. by rewrite E.
Qed.
Lemma grants_alone request prefix index draws : same (runs (grants_turns request prefix index draws)) (call (create_grants request prefix index draws)).
Proof.
  revert index. induction draws as [|d draws IH]; intros index; cbn [grants_turns create_grants]; [by intros []|].
  intros app. cbn [alone]. unfold bind_handler at 1, call at 1, bind_handler at 1, ask_service, call, bind_handler, ask_service, bind.
  destruct (create_grant _ _ _ _ _ _ (app_access app)) as [sv [g|error]]; [|done]. cbn [map_err from_result]. rewrite alone_bind. unfold bind_handler.
  rewrite IH. unfold call, bind_handler, ask_service. cbn [app_access set_access]. by destruct (create_grants _ _ _ _ sv) as [sv' [gs|error]].
Qed.
Lemma grant_batch_alone request draws : same (runs (grant_batch_turns request draws)) (call (create_grant_batch request draws)).
Proof.
  unfold grant_batch_turns, create_grant_batch. destruct (negb _); [|by intros []]. destruct (validate_text _ _ _) as [prefix|error]; [|by intros []].
  cbn [map_err work_result work_bind]. apply grants_alone.
Qed.

(** Parts. *)
Lemma refuse_session_alone created event now e : same (runs (refuse_session_turns created event now e)) (refuse_session control created event now e).
Proof.
  unfold refuse_session_turns, refuse_session. apply alone_turn. intros _. apply alone_part; [apply end_alone|]. intros [al|error]; together.
Qed.
Lemma node_status_alone d : same (runs (node_status_turns config control d)) (build_node_status config control d).
Proof. unfold node_status_turns, build_node_status. together. Qed.
Lemma session_status_alone view updates d : same (runs (session_status_turns config control view updates d)) (build_session_status config control view updates d).
Proof.
  unfold session_status_turns, build_session_status, traffic_turns. cbn [work_bind]. do 2 (apply alone_turn; intros ?).
  apply alone_part; [apply node_status_alone|]. intros ?. together.
Qed.

(** Handlers. *)
Lemma create_session_alone headers request d :
  same (runs (create_session_task config control headers request d)) (create_session_handler config control headers request d).
Proof.
  unfold create_session_task, create_session_handler. apply alone_part; [done|]. intros nonce. apply alone_turn. intros [|]; cbn [negb]; [|done].
  apply alone_part; [apply admission_alone|]. unfold finish_enrollment. intros [created|error]; [|by together]. apply alone_kicks.
  destruct (is_required _); [apply alone_turn; intros _; apply alone_part; [apply refuse_session_alone|]; intros ?; together|].
  apply alone_turn. intros [[]|error]; apply alone_turn; intros _; [|apply alone_part; [apply refuse_session_alone|]; intros ?; together].
  apply alone_part; [done|]. intros transports. destruct (_ && _); apply alone_turn; intros _.
  - apply alone_part; [apply refuse_session_alone|]. intros ?. together.
  - apply alone_part; [apply node_status_alone|]. intros ?. together.
Qed.
Lemma session_status_task_alone headers d : same (runs (session_status_task config control headers d)) (session_status_handler config control headers d).
Proof.
  unfold session_status_task, session_status_handler. apply alone_part; [done|]. intros token. apply alone_part; [apply session_alone|]. intros ?.
  apply session_status_alone.
Qed.
Lemma renew_session_alone headers d : same (runs (renew_session_task config control headers d)) (renew_session_handler config control headers d).
Proof.
  unfold renew_session_task, renew_session_handler. apply alone_part; [done|]. intros token. destruct (is_required _).
  - apply alone_part; [apply session_alone|]. intros ?. together.
  - apply alone_part; [apply renew_alone|]. intros ?. apply session_status_alone.
Qed.
Lemma release_session_alone headers e : same (runs (release_session_task headers e)) (release_session_handler control headers e).
Proof.
  unfold release_session_task, release_session_handler, call. apply alone_part; [done|]. intros token. apply alone_part; [|intros ?; together].
  apply alone_part; [apply end_alone|]. intros ?. together.
Qed.
Lemma hysteria_alone auth now t : same (runs (authenticate_hysteria_task config auth now t)) (authenticate_hysteria config auth now t).
Proof.
  unfold authenticate_hysteria_task, authenticate_hysteria. apply alone_part; [case_match; [apply sign_in_alone|done]|]. intros ?. together.
Qed.
Lemma openvpn_alone headers u p now t : same (runs (authenticate_openvpn_task config headers u p now t)) (authenticate_openvpn config headers u p now t).
Proof.
  unfold authenticate_openvpn_task, authenticate_openvpn. destruct (cfg_openvpn config); [|done].
  apply alone_part; [case_match; [apply sign_in_alone|done]|]. intros ?. together.
Qed.
Lemma create_grant_batch_alone headers request draws :
  same (runs (create_grant_batch_task config headers request draws)) (create_grant_batch_handler config headers request draws).
Proof.
  unfold create_grant_batch_task, create_grant_batch_handler. do 2 (apply alone_part; [done|]; intros ?).
  apply alone_part; [apply grant_batch_alone|]. intros ?. together.
Qed.
Lemma connected_devices_alone devices : same (runs (connected_devices_turns control devices)) (connected_devices control devices).
Proof.
  induction devices as [|d devices IH]; cbn [connected_devices_turns connected_devices]; [done|]. unfold traffic_turns. cbn [work_bind].
  do 2 (apply alone_turn; intros ?). apply alone_part; [done|]. intros ?. together.
Qed.
Lemma grant_details_alone headers id now : same (runs (grant_details_task config control headers id now)) (grant_details_handler config control headers id now).
Proof.
  unfold grant_details_task, grant_details_handler. apply alone_part; [done|]. intros ?. apply alone_turn. intros ?.
  apply alone_part; [apply connected_devices_alone|]. intros ?. together.
Qed.
Lemma update_grant_alone headers id request now io t :
  same (runs (update_grant_task config headers id request now io t)) (update_grant_handler config control headers id request now io t).
Proof.
  unfold update_grant_task, update_grant_handler. apply alone_part; [done|]. intros ?. apply alone_part; [by case_match|]. intros ?. together.
Qed.
Lemma meter_alone meter now record_now io t : same (runs (meter_task control meter now record_now io t)) (meter_allowances control meter now record_now io t).
Proof.
  unfold meter_task, meter_allowances. apply alone_turn. intros ss. case_bool_decide; [done|]. apply alone_turn. intros [rs|e]; [|done].
  destruct (meter_take meter ss rs) as [meter' moved]. apply alone_turn. intros [ended|e]; [|done]. case_bool_decide; [done|]. together.
Qed.
Lemma reconcile_turns_alone n l : same (runs (reconcile_turns control n l)) (reconcile_attempts control n l).
Proof.
  induction n as [|n IH]; cbn [reconcile_turns reconcile_attempts]; [done|]. apply alone_turn. intros [u|e]; [by together|]. by destruct n.
Qed.
Lemma reconcile_alone now : same (runs (reconcile_task control now)) (reconcile_data_planes control now).
Proof. unfold reconcile_task, reconcile_data_planes. do 2 (apply alone_turn; intros ?). destruct x0; [apply reconcile_turns_alone|done]. Qed.
Lemma unanswered_alone {A} (p : Work A) h app : same (runs p) h -> (runs (unanswered p) app).2 = (h app).2.
Proof. intros Hp. unfold unanswered. rewrite alone_bind. unfold bind_handler. rewrite Hp. by destruct (h app) as [[] ?]. Qed.
End alone.

(** * The server's runs *)

(** What a task kicks in its next turn; [owes] says it of a part that has
    finished. *)
Definition next_kicks {W A} (owes : A -> list SessionAllocation) (p : Work (W := W) A) : list SessionAllocation :=
  match p with
  | Finishes (Ok a) => owes a
  | Kicks l _ => l
  | _ => []
  end.
Definition about_to_kick {W A} (p : Work (W := W) A) : list SessionAllocation := next_kicks (fun _ => []) p.
(** The allocations of the sessions of a state. *)
Definition allocations (st : PersistedState) : list SessionAllocation :=
  omap (fun s => match session_allocation s with Ok a => Some a | Err _ => None end) (sessions st).
Lemma elem_allocations st a : a ∈ allocations st <-> holds st a.
Proof.
  unfold allocations, holds. rewrite list_elem_of_omap. split; intros (s & Hs & E); exists s; (split; [done|]); destruct (session_allocation s); congruence.
Qed.

(** The server at work: its tasks in progress, and of its past, the
    allocations of every session it had ([issued]), those the engines were told
    to serve when the service had them no more ([late]), and those that a task
    was about to kick when it was cut off ([left_over]). *)
Record Server (W : Type) := mkServer {
  s_app : App (@Traced W); in_progress : list (Work (W := @Traced W) unit);
  issued : list SessionAllocation; late : list SessionAllocation; left_over : list SessionAllocation;
}.
Arguments mkServer {W}.
Arguments s_app {W}. Arguments in_progress {W}. Arguments issued {W}. Arguments late {W}. Arguments left_over {W}.

(** A request comes, a task has its next turn, or a task is cut off. *)
Inductive Event := Comes (op : ApiOp) | Goes_on (task : nat) | Cut_off (task : nat).

Section server.
Context `{SecretHashing, StateJson, NodeConfig, Ed25519, Hashes, Encodings, Hmac, Base64, HeaderValues}.
Context `{!Json SessionManifest, !UrlParser, !Hpke}.
Context {W : Type} `{EngineClock W} (config : ServerConfig) (control : DataPlaneControl W).
Notation app := (App (@Traced W)).
Notation task := (Work (W := @Traced W) unit).
Notation engine := (traced control).

Definition next_turn (t : task) (a : app) : task * app :=
  match t with
  | Finishes r => (Finishes r, a)
  | Turn h k => let '(r, a) := h a in (match r with Ok x => k x | Err e => Finishes (Err e) end, a)
  | Kicks l k => let '(r, a) := kick_sessions engine l a in (match r with Ok _ => k | Err e => Finishes (Err e) end, a)
  end.
Definition access_state (a : app) : PersistedState := state (app_access a).
(** The ids that a turn gives to sessions were never another session's. *)
Definition ids_fresh (known : list SessionAllocation) (b : app) : Prop :=
  Forall (fun x => x ∈ known \/ al_id x ∉ map al_id known) (allocations (access_state b)).
#[export] Instance ids_fresh_dec known b : Decision (ids_fresh known b).
Proof. unfold ids_fresh. apply _. Defined.
Definition happens (e : Event) (s : Server W) : option (Server W) :=
  match e with
  | Comes op => Some (mkServer (s_app s) (in_progress s ++ [task_of config engine op]) (issued s) (late s) (left_over s))
  | Goes_on i =>
    t ← in_progress s !! i;
    let '(t, a) := next_turn t (s_app s) in
    guard (ids_fresh (issued s) a);;
    Some (mkServer a (<[i := t]> (in_progress s)) (issued s ++ allocations (access_state a))
            (late s ++ filter (fun x => x ∉ told (calls (s_app s)) /\ x ∉ allocations (access_state a)) (told (calls a))) (left_over s))
  | Cut_off i =>
    t ← in_progress s !! i;
    Some (mkServer (s_app s) (delete i (in_progress s)) (issued s) (late s) (left_over s ++ about_to_kick t))
  end.
Definition server_start (sv : Service) (w : W) : Server W := mkServer (app_new config sv (w, [])) [] (allocations (state sv)) [] [].
Inductive server_reachable : Server W -> Prop :=
| server_starts d lio sio now sv w : load d lio sio now = Ok sv -> server_reachable (server_start sv w)
| server_goes_on e s s' : server_reachable s -> happens e s = Some s' -> server_reachable s'.

(** A task without interruption does what the handler does. *)
Lemma task_alone op a : (alone engine (task_of config engine op) a).2 = api_exec config control op a.
Proof.
  destruct op; cbn [task_of api_exec].
  - apply unanswered_alone, create_session_alone.
  - apply unanswered_alone, session_status_task_alone.
  - apply unanswered_alone, renew_session_alone.
  - apply unanswered_alone, release_session_alone.
  - apply unanswered_alone, hysteria_alone.
  - apply unanswered_alone, openvpn_alone.
  - apply unanswered_alone. unfold ready_task, ready_handler. by do 2 (apply alone_turn; intros ?).
  - apply unanswered_alone, node_status_alone.
  - apply unanswered_alone. unfold create_grant_task, create_grant_handler. do 2 (apply alone_part; [done|]; intros ?). by apply alone_turn; intros ?.
  - apply unanswered_alone, create_grant_batch_alone.
  - apply unanswered_alone. unfold list_grants_task, list_grants_handler. apply alone_part; [done|]. intros ?. apply alone_last.
  - apply unanswered_alone. unfold offered_protocols_task, offered_protocols_handler. by apply alone_part.
  - done.
  - apply unanswered_alone, grant_details_alone.
  - apply unanswered_alone, update_grant_alone.
  - apply unanswered_alone. unfold revoke_grant_task, revoke_grant_handler. apply alone_part; [done|]. intros ?. apply alone_turn. intros ?. apply alone_last_kick.
  - apply unanswered_alone. unfold expire_task, expire_tick. apply alone_turn. intros []; [apply alone_last_kick|done].
  - apply unanswered_alone, meter_alone.
  - apply unanswered_alone, reconcile_alone.
Qed.
End server.

(** * What a task promises, whatever others do between its turns *)

Section promises.
Context `{SecretHashing, StateJson, NodeConfig, !StateJsonLaws, Ed25519, Hashes, Encodings, Hmac, Base64, HeaderValues}.
Context `{!Json SessionManifest, !UrlParser, !Hpke}.
Context {W : Type} `{EngineClock W} (config : ServerConfig) (control : DataPlaneControl W).
Notation app := (App (@Traced W)).
Notation work := (Work (W := @Traced W)).
Notation engine := (traced control).
Implicit Types (K : list SessionAllocation) (C : list EngineCall).

(** Between turns: [K] are the allocations issued so far, one to an id. *)
Record stands K (a : app) : Prop := {
  sd_access : reachable (app_access a);
  sd_issued : forall x, holds (access_state a) x -> x ∈ K;
  sd_ids : forall x y, x ∈ K -> y ∈ K -> al_id x = al_id y -> x = y;
}.
(** A turn from [a] to [b] whose task then owes the kicks [owed]. *)
Record moves K (a b : app) (owed : list SessionAllocation) : Prop := {
  mv_access : reachable (app_access b);
  mv_ends : accounts (access_state a) (access_state b) owed;
  mv_tells : forall x, x ∈ told (calls b) -> x ∈ told (calls a) \/ x ∈ K \/ holds (access_state b) x;
  mv_calls : calls a ⊆ calls b;
  mv_ready : data_plane_ready b = true -> data_plane_ready a = true \/ exists l, Reconciled l true ∈ calls b;
}.
(** From a time when [K] were issued and the calls [C] were made: every turn is
    such a move, and at the end [Q] holds of the result. *)
Fixpoint promises {A} (p : work A) K C (owes : A -> list SessionAllocation) (Q : A -> list SessionAllocation -> list EngineCall -> Prop) : Prop :=
  match p with
  | Finishes (Ok x) => Q x K C
  | Finishes (Err _) => True
  | Kicks _ k => forall K' C', K ⊆ K' -> C ⊆ C' -> promises k K' C' owes Q
  | Turn h k => forall a K', K ⊆ K' -> C ⊆ calls a -> stands K' a ->
    match h a with
    | (Ok x, b) => moves K' a b (next_kicks owes (k x)) /\ promises (k x) (K' ++ allocations (access_state b)) (calls b) owes Q
    | (Err _, b) => moves K' a b []
    end
  end.

Lemma accounts_more st st' owed owed' : owed ⊆ owed' -> accounts st st' owed -> accounts st st' owed'.
Proof. intros Hs Ha x Hx. destruct (Ha x Hx); [by left|right; by apply Hs]. Qed.
Lemma moves_more K a b owed owed' : owed ⊆ owed' -> moves K a b owed -> moves K a b owed'.
Proof. intros Hs [? ? ? ? ?]. split; [done|by eapply accounts_more|done..]. Qed.
Lemma promises_bind {A B} (p : work A) (f : A -> work B) K C owes owes' Q :
  (forall x, owes x ⊆ next_kicks owes' (f x)) ->
  promises p K C owes (fun x K' C' => promises (f x) K' C' owes' Q) -> promises (work_bind p f) K C owes' Q.
Proof.
  intros Ho. revert K C. induction p as [[x|e]|X h k IH|l k IH]; intros K C Hp; cbn [work_bind promises] in *; [done..| |].
  - intros a K' HK HC Ha. specialize (Hp a K' HK HC Ha). destruct (h a) as [[x|e] b]; [|done]. destruct Hp as [Hm Hp]. split; [|by apply IH].
    eapply moves_more; [|exact Hm]. destruct (k x) as [[y|e]|Y h' k'|l k']; cbn [next_kicks work_bind]; [apply Ho|done..].
  - intros K' C' HK HC. by apply IH, Hp.
Qed.
Definition nothing {A} (_ : A) : list SessionAllocation := [].
(** A part that owes nothing when it is over. *)
Lemma promises_part {A B} (p : work A) (f : A -> work B) K C owes Q :
  promises p K C nothing (fun x K' C' => promises (f x) K' C' owes Q) -> promises (work_bind p f) K C owes Q.
Proof. apply promises_bind. intros x y Hy%elem_of_nil. done. Qed.
Lemma promises_weaken {A} (p : work A) K C owes (Q Q' : A -> list SessionAllocation -> list EngineCall -> Prop) :
  (forall x K' C', K ⊆ K' -> C ⊆ C' -> Q x K' C' -> Q' x K' C') -> promises p K C owes Q -> promises p K C owes Q'.
Proof.
  revert K C. induction p as [[x|e]|X h k IH|l k IH]; intros K C HQ Hp; cbn [promises] in *; [by apply HQ|done| |].
  - intros a K' HK HC Ha. specialize (Hp a K' HK HC Ha). destruct (h a) as [[x|e] b]; [|done]. destruct Hp as [Hm Hp]. split; [done|].
    eapply IH; [|exact Hp]. intros y K2 C2 HK2 HC2. apply HQ; [set_solver|]. pose proof (mv_calls _ _ _ _ Hm). set_solver.
  - intros K' C' HK HC. eapply IH; [|by apply Hp]. intros y K2 C2 HK2 HC2. apply HQ; set_solver.
Qed.
(** Later, when more was issued and more calls were made. *)
Lemma promises_later (p : work unit) K C K' C' owes : K ⊆ K' -> C ⊆ C' ->
  promises p K C owes (fun _ _ _ => True) -> promises p K' C' owes (fun _ _ _ => True).
Proof.
  intros HK HC. destruct p as [[x|e]|X h k|l k]; cbn [promises]; [done..| |].
  - intros Hp a K2 HK2 HC2 Ha. apply Hp; [set_solver..|done].
  - intros Hp K2 C2 HK2 HC2. apply Hp; set_solver.
Qed.

(** * Moves *)

Lemma moves_refl K a owed : stands K a -> moves K a a owed.
Proof. intros [? ? ?]. split; [done|apply accounts_refl|by left|done|by left]. Qed.
(** A turn that changes none of what matters here. *)
Lemma moves_same K a b owed : stands K a -> app_access b = app_access a -> calls b = calls a -> data_plane_ready b = data_plane_ready a -> moves K a b owed.
Proof. intros Ha E1 E2 E3. destruct (moves_refl K a owed Ha). split; unfold access_state in *; rewrite ?E1, ?E2, ?E3; done. Qed.
Lemma moves_service {A} (m : M A) ended K a : stands K a -> accounted m ended ->
  moves K a (set_access a (m (app_access a)).1) (match (m (app_access a)).2 with Ok x => ended x | Err _ => [] end).
Proof.
  intros Ha Hm. destruct (Hm _ (sd_access _ _ Ha)) as [HR HA]. split; [done|done|by left|done|by left].
Qed.
Lemma moves_engine {A} (m : act W A) c K a r w' : stands K a -> trace_call m c (app_engines a) = (r, w') ->
  (forall x, x ∈ told (calls a ++ c r) -> x ∈ told (calls a) \/ x ∈ K) -> moves K a (set_engines a w') [].
Proof.
  intros Ha Ec Ht. apply calls_grow in Ec as [w ->]. split; cbn [access_state app_access set_engines].
  - apply Ha.
  - apply accounts_refl.
  - intros x Hx. destruct (Ht x Hx); tauto.
  - unfold calls. cbn. set_solver.
  - by left.
Qed.

(** A handler all of whose effects are such, owing nothing. *)
Definition steady {A} (h : handler (W := @Traced W) A) : Prop := forall K a, stands K a -> moves K a (h a).2 [].
Lemma promises_steady {A X} (h : handler (W := @Traced W) X) (k : X -> work A) K C owes Q : steady h ->
  (forall x K' C', K ⊆ K' -> C ⊆ C' -> promises (k x) K' C' owes Q) -> promises (Turn h k) K C owes Q.
Proof.
  intros Hh Hk a K' HK HC Ha. specialize (Hh K' a Ha). destruct (h a) as [[x|e] b]; [|done]. cbn [snd] in Hh. split.
  - eapply moves_more; [|done]. intros y Hy%elem_of_nil. done.
  - apply Hk; [set_solver|]. pose proof (mv_calls _ _ _ _ Hh). set_solver.
Qed.
Lemma steady_same {A} (h : handler (W := @Traced W) A) :
  (forall a, app_access (h a).2 = app_access a /\ calls (h a).2 = calls a /\ data_plane_ready (h a).2 = data_plane_ready a) -> steady h.
Proof. intros Hh K a Ha. destruct (Hh a) as (? & ? & ?). by apply moves_same. Qed.
Lemma steady_answer {A} (x : A) : steady (answer x).
Proof. by apply steady_same. Qed.
Lemma steady_read {A} (f : PersistedState -> A) : steady (read_state f).
Proof. by apply steady_same. Qed.
Lemma steady_count f : steady (count f).
Proof. by apply steady_same. Qed.
Lemma steady_is_ready : steady is_ready.
Proof. by apply steady_same. Qed.
Lemma steady_metrics now operations capacity : steady (metrics_handler config now operations capacity).
Proof. by apply steady_same. Qed.
Lemma steady_healthy : steady (engine_healthy engine).
Proof.
  apply steady_same. intros a. unfold engine_healthy, calls. cbn. destruct (app_engines a) as [w l]. by destruct (healthy control w).
Qed.
Lemma steady_unavailable : steady (fun a => let '(t, w) := unavailable_traffic (app_engines a) in (Ok t, set_engines a w)).
Proof.
  apply steady_same. intros a. unfold unavailable_traffic, engine_time, traced_clock, calls. destruct (app_engines a) as [w l]. by destruct (engine_time w).
Qed.
Lemma steady_quiet {A} (m : act W A) : steady (ask_engine (trace_call m (fun _ => []))).
Proof.
  intros K a Ha. unfold ask_engine. destruct (trace_call m _ (app_engines a)) as [r w'] eqn:Ec. cbn [snd].
  eapply moves_engine; [done|exact Ec|]. intros x. rewrite app_nil_r. by left.
Qed.
Lemma steady_service {A} (m : M A) : accounted m none_ended -> steady (ask_service m).
Proof.
  intros Hm K a Ha. pose proof (moves_service m none_ended K a Ha Hm) as Hs. unfold ask_service. destruct (m (app_access a)) as [sv r]. cbn [fst snd] in *.
  by destruct r.
Qed.
Lemma steady_then {A B} (h : handler (W := @Traced W) A) (r : A -> result ApiError B) : steady h -> steady (bind_handler h (fun x => from_result (r x))).
Proof. intros Hh K a Ha. specialize (Hh K a Ha). unfold bind_handler. by destruct (h a) as [[] b]. Qed.
Lemma steady_call {A} (m : M A) : accounted m none_ended -> steady (call m).
Proof. intros Hm. by apply steady_then, steady_service. Qed.
Lemma steady_activity id x now : steady (record_activity id x now).
Proof. apply (steady_then (ask_service (note id x now)) (fun _ => Ok tt)), steady_service, note_accounted. Qed.

(** * The tasks *)

Definition anything {A} (_ : A) (_ : list SessionAllocation) (_ : list EngineCall) : Prop := True.
(** A task, or a part of one, that owes nothing when it is over. *)
Definition calm {A} (p : work A) : Prop := forall K C, promises p K C nothing anything.
Lemma calm_finish {A} (r : result ApiFailure A) : calm (Finishes r).
Proof. intros K C. by destruct r. Qed.
Lemma calm_turn {A X} (h : handler (W := @Traced W) X) (k : X -> work A) : steady h -> (forall x, calm (k x)) -> calm (Turn h k).
Proof. intros Hh Hk K C. apply promises_steady; [done|]. intros x K' C' _ _. apply Hk. Qed.
Lemma calm_part {A B} (p : work A) (f : A -> work B) : calm p -> (forall x, calm (f x)) -> calm (work_bind p f).
Proof. intros Hp Hf K C. apply promises_part. eapply promises_weaken; [|apply Hp]. intros x K' C' _ _ _. apply Hf. Qed.
Lemma calm_kicks {A} l (k : work A) : calm k -> calm (Kicks l k).
Proof. intros Hk K C K' C' _ _. apply Hk. Qed.
(** A turn that ends sessions, and then kicks them. *)
Lemma calm_ends {A B} (m : M A) ended (k : result ServiceError A -> work B) : accounted m ended ->
  (forall x, ended x ⊆ about_to_kick (k (Ok x))) -> (forall r, calm (k r)) -> calm (Turn (ask_service m) k).
Proof.
  intros Hm Ho Hk K C a K' HK HC Ha. pose proof (moves_service m ended K' a Ha Hm) as Hs. unfold ask_service.
  destruct (m (app_access a)) as [sv r]. cbn [fst snd] in Hs. split; [|apply Hk]. eapply moves_more; [|exact Hs]. destruct r; [apply Ho|set_solver].
Qed.
Lemma calm_call_ends {A B} (m : M A) ended (k : A -> work B) : accounted m ended ->
  (forall x, ended x ⊆ about_to_kick (k x)) -> (forall x, calm (k x)) -> calm (Turn (call m) k).
Proof.
  intros Hm Ho Hk K C a K' HK HC Ha. pose proof (moves_service m ended K' a Ha Hm) as Hs. unfold call, bind_handler, ask_service.
  destruct (m (app_access a)) as [sv [x|e]]; cbn [fst snd map_err from_result] in *; [|done]. split; [|apply Hk]. eapply moves_more; [apply Ho|exact Hs].
Qed.
#[local] Hint Resolve steady_answer steady_read steady_count steady_is_ready steady_metrics steady_healthy steady_unavailable steady_quiet
  steady_activity : core.
Ltac calmly := repeat first
  [ apply calm_finish | apply calm_kicks
  | apply calm_part; [solve [auto|apply calm_finish|case_match; apply calm_finish]|intros ?]
  | apply calm_turn; [solve [auto|apply steady_quiet|case_match; auto|by apply steady_same]|intros ?]
  | match goal with |- calm (if ?b then _ else _) => destruct b | |- calm (match ?x with _ => _ end) => destruct x end ].

Lemma node_status_calm d : calm (node_status_turns config engine d).
Proof. unfold node_status_turns. calmly. Qed.
Lemma traffic_calm al : calm (traffic_turns engine al).
Proof. unfold traffic_turns. calmly. Qed.
#[local] Hint Resolve node_status_calm traffic_calm : core.
Lemma session_status_calm view updates d : calm (session_status_turns config engine view updates d).
Proof. unfold session_status_turns. calmly. Qed.
Lemma session_turns_calm token pool now view_now : calm (session_turns token pool now view_now).
Proof. unfold session_turns. apply calm_turn; [apply steady_call, authenticate_accounted|]. intros ?. calmly. Qed.
Lemma sign_in_calm token protocol username now t : calm (sign_in_turns token protocol username now t).
Proof.
  unfold sign_in_turns. destruct (split_session_token token); [|calmly]. apply calm_turn; [auto|]. intros ?.
  apply calm_turn; [apply steady_service, note_sign_in_accounted|]. intros ?. calmly.
Qed.
Lemma grants_calm request prefix index draws : calm (grants_turns request prefix index draws).
Proof.
  revert index. induction draws as [|d draws IH]; intros index; cbn [grants_turns]; [calmly|].
  apply calm_turn; [apply steady_call, create_grant_accounted|]. intros ?. calmly.
Qed.
Lemma devices_calm devices : calm (connected_devices_turns engine devices).
Proof. induction devices as [|d devices IH]; cbn [connected_devices_turns]; calmly. Qed.

(** A record authenticated has an allocation that was issued, and as an id is
    one session's, ends that session. *)
Definition ends_one (r : result ServiceError SessionAllocation) : list SessionAllocation := match r with Ok al => [al] | Err _ => [] end.
Lemma authenticated_issued token pool now sv sv' s g : reachable sv -> authenticate token pool now sv = (sv', Ok (s, g)) ->
  sv' = sv /\ is_Some (s_resource_slot s) /\ exists al, session_allocation s = Ok al /\ holds (state sv) al.
Proof.
  intros HR EA. pose proof (authenticated_slot _ _ _ _ _ _ _ (reachable_inv _ HR) EA) as Hs.
  apply authenticate_ok in EA as (-> & parts & _ & El & _). apply lookup_session_ok in El as [Es _]. apply find_session_some in Es as [Hin _].
  split; [done|]. split; [done|]. destruct Hs as [slot Hs]. exists (mkAllocation (s_id s) slot).
  assert (E : session_allocation s = Ok (mkAllocation (s_id s) slot)) by (unfold session_allocation, required_resource_slot; by rewrite Hs).
  split; [done|by exists s].
Qed.
Lemma issued_once K (a : app) s al u : stands K a -> session_allocation s = Ok al -> al ∈ K -> u ∈ sessions (access_state a) -> s_id u = s_id s ->
  session_allocation u = session_allocation s.
Proof.
  intros Ha Es HK Hu E. pose proof (assigned_some _ (core_slots _ (inv_core _ (reachable_inv _ (sd_access _ _ Ha))))) as HF.
  rewrite Forall_forall in HF. destruct (HF u Hu) as [slot Hs].
  assert (Eu : session_allocation u = Ok (mkAllocation (s_id u) slot)) by (unfold session_allocation, required_resource_slot; by rewrite Hs).
  rewrite Eu, Es. f_equal. apply (sd_ids _ _ Ha); [apply (sd_issued _ _ Ha); by exists u|done|]. apply session_allocation_inv in Es as [-> _]. done.
Qed.
Lemma end_promises token event e K C : promises (end_turns token event e) K C ends_one anything.
Proof.
  intros a K' HK HC Ha. pose proof (moves_service _ _ K' a Ha (authenticate_accounted token (ed_pool e) (ed_now e))) as Hm. unfold ask_service at 1.
  destruct (authenticate token (ed_pool e) (ed_now e) (app_access a)) as [sv [[s g]|error]] eqn:EA; cbn [fst snd] in Hm; [|by split].
  split; [done|]. apply authenticated_issued in EA as (-> & _ & al & Es & Hh); [|apply Ha]. intros a2 K2 HK2 HC2 Ha2. unfold ask_service.
  assert (Hal : al ∈ K2) by (apply HK2, elem_of_app; right; by apply elem_allocations).
  pose proof (end_commit_accounts s event (ed_io e) (ed_note e) _ (sd_access _ _ Ha2) (fun u => issued_once K2 a2 s al u Ha2 Es Hal)) as HA.
  pose proof (reachable_step (EndSession s event (ed_io e) (ed_note e)) _ (sd_access _ _ Ha2) I) as HR. cbn [exec forget_result fst] in HR.
  destruct (end_commit s event (ed_io e) (ed_note e) (app_access a2)) as [sv2 r]. cbn [fst snd] in *. split; [|done].
  split; [done|exact HA|by left|done|by left].
Qed.
Lemma refuse_session_calm created event now e : calm (refuse_session_turns created event now e).
Proof.
  unfold refuse_session_turns. apply calm_turn; [auto|]. intros _ K C. eapply promises_bind; [|eapply promises_weaken; [|apply end_promises]].
  - by intros [al|error].
  - intros [al|error] K' C' _ _ _; [apply calm_kicks, calm_finish|done].
Qed.
#[local] Hint Resolve refuse_session_calm session_status_calm session_turns_calm sign_in_calm grants_calm devices_calm : core.
Lemma release_calm headers e : calm (release_session_task headers e).
Proof.
  unfold release_session_task. apply calm_part; [apply calm_finish|]. intros token K C.
  eapply (promises_bind _ _ _ _ (fun al => [al])); [done|]. unfold or_refuse. eapply promises_bind; [|eapply promises_weaken; [|apply end_promises]].
  - by intros [al|error].
  - intros [al|error] K' C' _ _ _; [apply calm_kicks, calm_finish|done].
Qed.
Lemma renew_turns_calm token r : calm (renew_turns token r).
Proof.
  unfold renew_turns. intros K C a K' HK HC Ha. pose proof (steady_call _ (authenticate_accounted token (rn_pool r) (rn_auth_now r)) K' a Ha) as Hm.
  unfold call at 1, bind_handler, ask_service at 1. unfold call, bind_handler, ask_service in Hm.
  destruct (authenticate token (rn_pool r) (rn_auth_now r) (app_access a)) as [sv [[s g]|error]] eqn:EA; cbn [map_err from_result snd] in *; [|done].
  split; [done|]. apply authenticated_issued in EA as (-> & Hs & _); [|apply Ha]. apply calm_turn; [by apply steady_call, renew_commit_accounted|].
  intros ?. calmly.
Qed.

(** An admission names the sessions it ended, and issued the new one's
    allocation. *)
Definition ends_expired (r : result ServiceError CreatedSession) : list SessionAllocation :=
  match r with Ok created => cs_expired_allocations created | Err _ => [] end.
Lemma admission_promises request e K C : promises (admission_turns request e) K C ends_expired
  (fun r K' _ => forall created, r = Ok created -> mkAllocation (cs_id created) (cs_resource_slot created) ∈ K').
Proof.
  unfold admission_turns. apply promises_steady; [auto|]. intros [[[grant secret] name]|error] K1 C1 _ _; [|by intros ? ?].
  intros a K' HK HC Ha.
  pose proof (moves_service _ _ K' a Ha (admit_session_accounted grant secret name (en_now e) (en_token e) (en_random e) (en_pool e) (en_io e) (en_note e))) as Hm.
  pose proof (admit_session_triple _ grant secret name (en_now e) (en_token e) (en_random e) (en_pool e) (en_io e) (en_note e)
    (reachable_inv _ (sd_access _ _ Ha)) _ (conj eq_refl (conj eq_refl (conj eq_refl eq_refl)))) as HT.
  unfold ask_service at 1. destruct (admit_session _ _ _ _ _ _ _ _ _ (app_access a)) as [sv [created|error]]; cbn [fst snd] in Hm.
  - split; [done|]. intros ? [= <-]. destruct HT as (_ & g & HA). destruct (admission_accounts _ _ _ _ _ _ _ _ _ _ HA) as [_ Hh].
    apply elem_of_app. right. by apply elem_allocations.
  - split; [destruct (enrollment_refusal error); exact Hm|]. destruct (enrollment_refusal error) as [event|]; [|by intros ? ?].
    apply promises_steady; [apply steady_service, note_accounted|]. intros _ K2 C2 _ _. by intros ? ?.
Qed.
Lemma create_session_calm headers request d : calm (create_session_task config engine headers request d).
Proof.
  unfold create_session_task. apply calm_part; [apply calm_finish|]. intros nonce. apply calm_turn; [auto|]. intros [|]; cbn [negb]; [|calmly].
  intros K C. eapply promises_bind; [|eapply promises_weaken; [|apply admission_promises]].
  { intros [created|error] x; [done|]. by intros ?%elem_of_nil. }
  intros [created|error] K1 C1 _ _ HK1; [|apply calm_turn; [auto|intros _; apply calm_finish]].
  specialize (HK1 created eq_refl). intros K2 C2 HK2 _.
  destruct (is_required _); [apply calm_turn; [auto|]; intros _; apply calm_part; [apply refuse_session_calm|intros _; apply calm_finish]|].
  intros a K3 HK3 HC3 Ha. unfold ask_engine. cbn [provision traced]. destruct (trace_call _ _ (app_engines a)) as [r w'] eqn:Ec.
  assert (Hm : forall owed, moves K3 a (set_engines a w') owed).
  { intros owed. eapply (moves_more _ _ _ []); [set_solver|]. eapply moves_engine; [done|exact Ec|]. intros x. cbn beta. rewrite told_snoc. cbn [tell].
    intros [->|Hx]%elem_of_cons; [right; by apply HK3, HK2|by left]. }
  clear Ec. destruct r as [[]|error]; [|destruct error; try (by apply Hm)]; (split; [apply Hm|]); apply calm_turn; try (by auto); intros _; calmly.
Qed.

(** Reconciling tells the engines sessions that were issued. *)
Lemma reconcile_promises n l K C : l ⊆ K -> promises (reconcile_turns engine n l) K C nothing anything.
Proof.
  revert K C. induction n as [|n IH]; intros K C Hl; cbn [reconcile_turns]; [done|]. intros a K' HK HC Ha. unfold ask_engine. cbn [reconcile traced].
  destruct (trace_call _ _ (app_engines a)) as [r w'] eqn:Ec.
  assert (Hm : forall owed, moves K' a (set_engines a w') owed).
  { intros owed. eapply (moves_more _ _ _ []); [set_solver|]. eapply moves_engine; [done|exact Ec|]. intros x. cbn beta. rewrite told_snoc. cbn [tell].
    right. set_solver. }
  apply calls_grow in Ec as [w ->]. destruct r as [[]|error].
  - split; [apply Hm|]. intros b K2 HK2 HC2 Hb. cbn [set_ready]. split; [|done]. destruct (moves_refl K2 b [] Hb). split; try done. intros _. right. exists l.
    apply HC2. unfold calls. cbn. apply elem_of_app. right. left.
  - destruct error; try apply Hm; (split; [apply Hm|]); destruct n; try done; apply IH; set_solver.
Qed.
Lemma reconcile_calm now : calm (reconcile_task engine now).
Proof.
  unfold reconcile_task. intros K C. apply promises_steady; [by intros K' a [? ? ?]; split; try done; [apply accounts_refl|by left]|].
  intros _ K1 C1 _ _ a K2 HK2 HC2 Ha. cbn [read_state]. destruct (active_session_allocations (state (app_access a)) now) as [l|e] eqn:El.
  - split; [by apply moves_refl|]. apply reconcile_promises. intros x Hx. apply elem_of_app. right. apply elem_allocations.
    apply allocations_held in El. rewrite Forall_forall in El. by apply El.
  - split; [by apply moves_refl|done].
Qed.

Lemma unanswered_calm {A} (p : work A) : calm p -> calm (unanswered p).
Proof. intros Hp. apply calm_part; [done|]. intros ?. apply calm_finish. Qed.
Lemma task_calm op : calm (task_of config engine op).
Proof.
  destruct op; cbn [task_of]; try apply unanswered_calm.
  - apply create_session_calm.
  - unfold session_status_task. calmly; auto.
  - unfold renew_session_task. calmly; auto. apply calm_part; [apply renew_turns_calm|auto].
  - apply release_calm.
  - unfold authenticate_hysteria_task. apply calm_part; [case_match; calmly; auto|]. intros ?. calmly.
  - unfold authenticate_openvpn_task. destruct (cfg_openvpn config); [|calmly]. apply calm_part; [case_match; calmly; auto|]. intros ?. calmly.
  - unfold ready_task. calmly.
  - auto.
  - unfold create_grant_task. calmly. apply calm_turn; [apply steady_call, create_grant_accounted|]. intros ?. calmly.
  - unfold create_grant_batch_task, grant_batch_turns. calmly; auto. apply calm_part; [|intros ?; calmly]. calmly; auto.
  - unfold list_grants_task. calmly.
  - unfold offered_protocols_task. calmly.
  - calmly.
  - unfold grant_details_task. calmly.
  - unfold update_grant_task. calmly. eapply calm_call_ends; [apply update_grant_accounted|done|]. intros ?. calmly.
  - unfold revoke_grant_task. calmly. eapply calm_call_ends; [apply revoke_grant_accounted|done|]. intros ?. calmly.
  - unfold expire_task. eapply calm_ends; [apply expire_sessions_accounted|done|]. intros ?. calmly.
  - unfold meter_task. calmly. eapply calm_ends; [apply record_usage_accounted| |intros ?; calmly].
    intros ended. case_bool_decide as Hl; [|done]. apply nil_length_inv in Hl as ->. done.
  - apply reconcile_calm.
Qed.
End promises.

(** * The invariant of the server at work *)

Section invariant.
Context `{SecretHashing, StateJson, NodeConfig, !StateJsonLaws, Ed25519, Hashes, Encodings, Hmac, Base64, HeaderValues}.
Context `{!Json SessionManifest, !UrlParser, !Hpke}.
Context {W : Type} `{EngineClock W} (config : ServerConfig) (control : DataPlaneControl W).
Notation app := (App (@Traced W)).
Notation task := (Work (W := @Traced W) unit).
Notation engine := (traced control).

Lemma kick_moves K (a : app) l owed : stands K a ->
  let b := (kick_sessions engine l a).2 in moves K a b owed /\ told (calls b) = filter (fun x => x ∉ l) (told (calls a)).
Proof.
  intros Ha. unfold kick_sessions, bind_handler, ask_engine. cbn [kick traced]. destruct (trace_call _ _ (app_engines a)) as [r w'] eqn:Ec.
  assert (moves K a (set_engines a w') owed).
  { eapply (moves_more _ _ _ []); [set_solver|]. eapply moves_engine; [done|exact Ec|]. intros x. cbn beta. rewrite told_snoc. cbn [tell].
    intros [_ Hx]%list_elem_of_filter. by left. }
  apply calls_grow in Ec as [w ->].
  assert (told (calls (set_engines a (w, calls a ++ [Kicked l]))) = filter (fun x => x ∉ l) (told (calls a))) by apply told_snoc.
  destruct r as [x|error]; [done|]. by destruct error.
Qed.
(** The next turn of a task that keeps its promises. *)
Lemma turn_moves (t : task) K (a : app) : promises t K (calls a) nothing anything -> stands K a ->
  let '(t', b) := next_turn control t a in
  moves K a b (about_to_kick t') /\ promises t' (K ++ allocations (access_state b)) (calls b) nothing anything /\
  (forall x, x ∈ about_to_kick t -> x ∉ told (calls b)).
Proof.
  intros Hp Ha. destruct t as [r|X h k|l k]; cbn [next_turn].
  - split_and!; [by apply moves_refl|by destruct r|]. destruct r; by intros x ?%elem_of_nil.
  - specialize (Hp a K). destruct (h a) as [[x|e] b]; (lapply Hp; [clear Hp; intros Hp|done]); specialize (Hp ltac:(done) Ha).
    + destruct Hp as [Hm Hp]. split_and!; [done|done|]. by intros y ?%elem_of_nil.
    + split_and!; [done|done|]. by intros y ?%elem_of_nil.
  - destruct (kick_moves K a l (about_to_kick k) Ha) as [Hm Et]. destruct (kick_moves K a l [] Ha) as [Hm' _].
    destruct (kick_sessions engine l a) as [[u|e] b]; cbn [snd] in *; split_and!; try done.
    + apply Hp; [set_solver|]. by apply (mv_calls _ _ _ _ Hm).
    + intros x Hx. rewrite Et, list_elem_of_filter. by intros [? _].
    + intros x Hx. rewrite Et, list_elem_of_filter. by intros [? _].
Qed.

Definition covered (s : Server W) (x : SessionAllocation) : Prop :=
  holds (access_state (s_app s)) x \/ (exists t, t ∈ in_progress s /\ x ∈ about_to_kick t) \/ x ∈ late s \/ x ∈ left_over s.
Record ServerInv (s : Server W) : Prop := {
  si_stands : stands (issued s) (s_app s);
  si_told : forall x, x ∈ told (calls (s_app s)) -> x ∈ issued s /\ covered s x;
  si_ready : data_plane_ready (s_app s) = true -> app_ready config = false \/ exists l, Reconciled l true ∈ calls (s_app s);
  si_tasks : forall t, t ∈ in_progress s -> promises t (issued s) (calls (s_app s)) nothing anything;
}.
Lemma fresh_once K (b : app) : (forall x y, x ∈ K -> y ∈ K -> al_id x = al_id y -> x = y) -> Inv (app_access b) -> ids_fresh K b ->
  forall x y, x ∈ K ++ allocations (access_state b) -> y ∈ K ++ allocations (access_state b) -> al_id x = al_id y -> x = y.
Proof.
  intros HK HI HF. unfold ids_fresh in HF. rewrite Forall_forall in HF.
  assert (Hnew : forall x y, x ∈ K -> y ∈ allocations (access_state b) -> al_id x = al_id y -> x = y).
  { intros x y Hx Hy E. destruct (HF y Hy) as [|Hn]; [by apply HK|]. destruct Hn. rewrite <- E. apply elem_of_map. eauto. }
  intros x y [Hx|Hx]%elem_of_app [Hy|Hy]%elem_of_app E; [by apply HK|by apply Hnew|symmetry; by apply Hnew|].
  apply elem_allocations in Hx as (s & Hs & Es), Hy as (u & Hu & Eu).
  assert (s = u) as -> by (eapply (NoDup_key_inj s_id); [apply (core_wf _ (inv_core _ HI))|done|done|];
    apply session_allocation_inv in Es as [<- _], Eu as [<- _]; done). congruence.
Qed.
Lemma turn_covers (s : Server W) i t t' b : ServerInv s -> in_progress s !! i = Some t -> next_turn control t (s_app s) = (t', b) -> ids_fresh (issued s) b ->
  ServerInv (mkServer b (<[i := t']> (in_progress s)) (issued s ++ allocations (access_state b))
    (late s ++ filter (fun x => x ∉ told (calls (s_app s)) /\ x ∉ allocations (access_state b)) (told (calls b))) (left_over s)).
Proof.
  intros [HS HT HY HP] Hi En HF. assert (Hin : t ∈ in_progress s) by (by eapply list_elem_of_lookup_2).
  assert (Hlen : (i < length (in_progress s))%nat) by (by eapply lookup_lt_Some).
  pose proof (turn_moves t _ _ (HP t Hin) HS) as HM. rewrite En in HM. destruct HM as ([HR HE HL HC HD] & HP' & HK). split; cbn [s_app in_progress issued late left_over].
  - split; [done| |].
    + intros x Hx. apply elem_of_app. right. by apply elem_allocations.
    + apply fresh_once; [apply HS|by apply reachable_inv|done].
  - intros x Hx. split; [rewrite elem_of_app, elem_allocations; destruct (HL x Hx) as [Hb|[|]]; [left; by apply HT|tauto..]|].
    unfold covered. cbn [s_app in_progress late left_over]. destruct (decide (x ∈ allocations (access_state b))) as [Hh|Hh]; [left; by apply elem_allocations|].
    destruct (decide (x ∈ told (calls (s_app s)))) as [Ht|Ht].
    + destruct (HT x Ht) as [_ [Ho|[(u & Hu & Hk)|[|]]]].
      * destruct (HE x Ho) as [|Hk]; [tauto|]. right. left. exists t'. split; [|done]. by eapply list_elem_of_lookup_2, list_lookup_insert_eq.
      * right. left. apply list_elem_of_lookup in Hu as [j Hj]. destruct (decide (j = i)) as [->|Hne].
        { assert (u = t) as -> by congruence. by destruct (HK x Hk). }
        exists u. split; [|done]. eapply list_elem_of_lookup_2. by rewrite list_lookup_insert_ne.
      * right. right. left. apply elem_of_app. by left.
      * tauto.
    + right. right. left. apply elem_of_app. right. by apply list_elem_of_filter.
  - intros Hr. destruct (HD Hr) as [Hr'|]; [|by right]. destruct (HY Hr') as [|(l & Hl)]; [by left|]. right. exists l. by apply HC.
  - intros u Hu. apply list_elem_of_lookup in Hu as [j Hj]. apply list_lookup_insert_Some in Hj as [(-> & <- & _)|[Hne Hj]]; [done|].
    eapply promises_later; [..|apply HP; by eapply list_elem_of_lookup_2]; [set_solver|done].
Qed.
Lemma elem_delete {A} (l : list A) i x y : l !! i = Some x -> y ∈ l -> y = x \/ y ∈ delete i l.
Proof.
  intros Hi Hy. rewrite <- (take_drop_middle _ _ _ Hi) in Hy. rewrite delete_take_drop. set_solver.
Qed.
Lemma cut_off_covers (s : Server W) i t : ServerInv s -> in_progress s !! i = Some t ->
  ServerInv (mkServer (s_app s) (delete i (in_progress s)) (issued s) (late s) (left_over s ++ about_to_kick t)).
Proof.
  intros [HS HT HY HP] Hi. split; cbn [s_app in_progress issued]; [done| |done|].
  - intros x Hx. destruct (HT x Hx) as [HI HC]. split; [done|]. unfold covered in *. cbn [s_app in_progress late left_over]. rewrite elem_of_app.
    destruct HC as [|[(u & Hu & Hk)|[|]]]; [tauto| |tauto..]. destruct (elem_delete _ _ _ _ Hi Hu) as [->|]; [tauto|]. right. left. by exists u.
  - intros u Hu. apply HP. by eapply list_elem_of_delete_inv.
Qed.
Lemma comes_covers (s : Server W) op : ServerInv s ->
  ServerInv (mkServer (s_app s) (in_progress s ++ [task_of config engine op]) (issued s) (late s) (left_over s)).
Proof.
  intros [HS HT HY HP]. split; cbn [s_app in_progress issued]; [done| |done|].
  - intros x Hx. destruct (HT x Hx) as [HI HC]. split; [done|]. unfold covered in *. cbn [s_app in_progress late left_over].
    destruct HC as [|[(u & Hu & Hk)|]]; [tauto| |tauto]. right. left. exists u. split; [|done]. apply elem_of_app. by left.
  - intros u [Hu|[->|Hu%elem_of_nil]%elem_of_cons]%elem_of_app; [by apply HP|apply task_calm|done].
Qed.
Lemma server_inv s : server_reachable config control s -> ServerInv s.
Proof.
  induction 1 as [d lio sio now sv w HL|e s s' _ IH Hs].
  - pose proof (reachable_load d lio sio now sv HL) as HR. split; cbn [server_start s_app in_progress issued].
    + split; [done|intros x; apply elem_allocations|]. apply (fresh_once [] (app_new config sv (w, []))); [by intros x y ?%elem_of_nil|by apply reachable_inv|].
      apply Forall_forall. intros x _. right. by intros ?%elem_of_nil.
    + by intros x ?%elem_of_nil.
    + cbn. intros Hr%negb_true_iff. by left.
    + by intros t ?%elem_of_nil.
  - destruct e as [op|i|i]; cbn [happens] in Hs.
    + injection Hs as <-. by apply comes_covers.
    + apply bind_Some in Hs as (t & Ht & Hs). destruct (next_turn control t (s_app s)) as [t' b] eqn:En.
      case_guard; [|done]. injection Hs as <-. by eapply turn_covers.
    + apply bind_Some in Hs as (t & Ht & Hs). injection Hs as <-. by apply cut_off_covers.
Qed.

(** C2: requests and background tasks in any number run at once, their turns
    interleaved in any order and any of them cut off, with any outcome of the
    disk, the worker pool and the engines, and with ids that no two sessions
    share. Whatever session the engines have been told to serve and not to
    drop is one that the access service had; and the service has it still, or
    a task in progress kicks it in its next turn, or it had already ended when
    the engines were told of it, or the task that ended it was cut off before
    its kick. The service's own invariant holds, and a server with engines to
    reconcile is ready only after they took the sessions. Each task run
    without interruption is its handler; and where every request runs so, one
    after the other, the engines serve sessions of the service only. *)
Theorem engines_serve_sessions s :
  server_reachable config control s ->
  (forall x, x ∈ told (calls (s_app s)) ->
     x ∈ issued s /\
     (holds (state (app_access (s_app s))) x \/ (exists t, t ∈ in_progress s /\ x ∈ about_to_kick t) \/ x ∈ late s \/ x ∈ left_over s)) /\
  reachable (app_access (s_app s)) /\
  (data_plane_ready (s_app s) = true -> app_ready config = false \/ exists l, Reconciled l true ∈ calls (s_app s)) /\
  (forall op a, (alone engine (task_of config engine op) a).2 = api_exec config control op a) /\
  (forall a x, api_reachable config control a -> x ∈ told (calls a) -> holds (state (app_access a)) x).
Proof.
  intros [HS HT HY _]%server_inv. split_and!; [done|apply HS|done|apply task_alone|].
  intros a x Ha Hx. apply api_inv in Ha as [_ Ha _]; [|done]. by destruct (Ha x Hx) as [|Hn%elem_of_nil].
Qed.
End invariant.
