(* ===== verification/ApiWitness.v ===== *)
(** The server of the example settings at work: witnesses of the theorems
    about it, and a setting it takes that its apps refuse.

    The status documents of a running session are ones its app accepts. *)

From Stdlib Require Import ZArith Lia SpecFloat.
From stdpp Require Import gmap strings.
From S2P Require Import Prelude Order Utf8 Str Net Vendor Instances Invite Tunnel Seal Update Contract Control Validation Gateway SealedDemo FloatBounds StdText Config ConfigProps Engines DataPlane EngineControls DataPlaneProps Allowance Grant Model Activity Meter GrantAdmin Service ServiceInv ServiceDemo ServiceProps ServiceGrants ServiceEnds Api ApiTransports ApiDemo ApiLogic ApiManifest ApiProps ApiTasks.

(** * A secret no app takes *)

Section password.
Context `{Hmac, Base64}.

(** The settings put this password on a transport of theirs. *)
Definition advertises_password (c : ServerConfig) (protocol : TransportProtocol) (password : list byte) : bool :=
  match cfg_hysteria c with
  | Some h =>
    existsb (fun p => bool_decide (tp_id p = hy_transport_id h) && bool_decide (tp_protocol p = protocol)) (cfg_transports c)
    && match hy_obfuscation h with Gecko p | Salamander p => bool_decide (p = password) | Disabled => false end
  | None => false
  end.
Lemma unfit_password_refused c protocol password created ts ids :
  advertises_password c protocol password = true -> bounded_value_ok password MAX_SECRET_CHARS = false ->
  allows (cs_protocols created) protocol = true -> session_transports c created = Ok ts -> validate_transports ids ts <> Ok tt.
Proof.
  unfold advertises_password. destruct (cfg_hysteria c) as [h|] eqn:Eh; [|done]. intros [Hp Ho]%andb_true_iff Hl Ha Hts [HF _]%validate_transports_ok.
  apply existsb_exists in Hp as (p & Hin & Hp). bool_prop.
  apply collect_ok_forall2 in Hts. assert (Hf : p ∈ filter (fun p => allows (cs_protocols created) (tp_protocol p) = true) (cfg_transports c)).
  { apply list_elem_of_filter. split; [congruence|by apply list_elem_of_In]. }
  apply list_elem_of_lookup in Hf as [i Hi]. destruct (Forall2_lookup_l _ _ _ _ _ Hts Hi) as (t & Ht & E).
  rewrite Forall_lookup in HF. specialize (HF i t Ht). unfold session_transport, engine_for in E. rewrite Eh, bool_decide_true in E by congruence.
  assert (t = mkTransport p (Some (mkCredential (cs_data_plane_token created) {[ str "obfs_password" := password ]}))) as ->.
  { unfold obfuscation_secrets in E. destruct (hy_obfuscation h); [done|..]; bool_prop; congruence. }
  destruct (wf_credential _ HF _ eq_refl) as (_ & _ & HM). cbn [tc_secrets] in HM.
  destruct (HM (str "obfs_password") password (lookup_singleton_eq _ _)) as [_ Hs]. cbn [st_profile] in Hs.
  rewrite other_limit in Hs by done. unfold secret_ok in Hs. by rewrite Hl, andb_false_r in Hs.
Qed.
End password.

Lemma ok_value {E A} (r : result E A) (a : A) : is_ok r = true -> r = Ok (match r with Ok x => x | Err _ => a end).
Proof. by destruct r. Qed.
Definition tab_password : list byte := demo_secret ++ [z2b 9].
Definition tab_config : ServerConfig := config_of (demo_settings tab_password).
(** C40: the settings ask of an obfuscation password only that it is long enough,
    and the app bounds it to 4096 characters without control characters: with a
    tab in it the server starts and advertises it, and no document it answers
    an enrollment with that has the transport is one an app accepts. *)
Theorem obfuscation_password_unchecked :
  from_env (demo_settings tab_password) = Ok tab_config /\
  forall created ts m now, allows (cs_protocols created) XorScrambled = true -> session_transports tab_config created = Ok ts ->
    transports m = ts -> validate_manifest m now <> Ok tt.
Proof.
  split.
  - apply config_of_ok. vm_compute. reflexivity.
  - intros created ts m now Ha Hts Em Hv. unfold validate_manifest in Hv. rewrite !seq_ok in Hv. destruct Hv as (_ & _ & _ & _ & _ & Hv).
    rewrite Em in Hv. revert Hv. apply (unfit_password_refused tab_config XorScrambled tab_password created); [vm_compute; reflexivity..|done|done].
Qed.

(** * The example server *)

#[export] Instance demo_manifest_json : Json SessionManifest := {| json_to_vec m := Some (session_token m); json_from_slice _ := None |}.
#[export] Instance demo_engine_clock : EngineClock unit := fun w => (demo_now, w).
Definition demo_engine : DataPlaneControl unit := NoDataPlane.
(** Engines that refuse every session. *)
Definition broken_engine : DataPlaneControl unit :=
  mkControl (fun w => (false, w)) (fun _ => failing TimedOut) (fun _ => done_with tt) (fun _ => failing TimedOut) (fun _ => done_with []) (fun _ => done_with tt).

Definition demo_admin : HeaderMap := [(str "authorization", str "Bearer admin-0123456789abcdef0123456789")].
Definition demo_host : SystemSnapshot :=
  snapshot (Some (str "0.50 0.40 0.30 1/200 1234")) (Some 2) (Some (str "MemTotal: 1000 kB" ++ [newline] ++ str "MemAvailable: 400 kB")) None.
Definition demo_node_draws : NodeDraws := mkNodeDraws demo_now demo_host demo_now.
Definition demo_ending : Ending := mkEnding PoolRuns demo_now IoOk demo_now.
Definition demo_draws : SessionDraws :=
  mkSessionDraws demo_now (mkEnrolling demo_now (demo_token (str "01")) demo_random PoolRuns IoOk demo_now) demo_now demo_ending demo_now
    (mkRenewing PoolRuns demo_now demo_now IoOk demo_now) demo_now demo_node_draws.
Definition demo_enrollment (code : list byte) : CreateSessionRequest := mkCreateSession code (str "Phone").
Definition demo_ops : list ApiOp :=
  [ReconcileTask demo_now; CreateGrantOp demo_admin demo_request (mkDraw demo_now demo_code [] PoolRuns IoOk); CreateSessionOp [] (demo_enrollment demo_code) demo_draws].
Definition demo_start : App (@Traced unit) := app_new demo_config demo_service (tt, []).
Definition demo_server (control : DataPlaneControl unit) (ops : list ApiOp) : App (@Traced unit) :=
  fold_left (fun app op => api_exec demo_config control op app) ops demo_start.
Lemma demo_server_reachable control ops : api_reachable demo_config control (demo_server control ops).
Proof.
  unfold demo_server. assert (HS : api_reachable demo_config control demo_start) by (eapply api_start, demo_loaded).
  revert HS. generalize demo_start. induction ops as [|op ops IH]; intros app HS; [done|]. cbn [fold_left]. by apply IH, api_step.
Qed.
Definition demo_allocation : SessionAllocation := mkAllocation (str "Session00001") 0.

(** A run of events, as far as they can happen. *)
Definition schedule (control : DataPlaneControl unit) (events : list Event) : Server unit :=
  fold_left (fun s e => default s (happens demo_config control e s)) events (server_start demo_config demo_service tt).
Lemma schedule_reachable control events : server_reachable demo_config control (schedule control events).
Proof.
  unfold schedule. assert (HS : server_reachable demo_config control (server_start demo_config demo_service tt)) by (eapply server_starts, demo_loaded).
  revert HS. generalize (server_start (W := unit) demo_config demo_service tt). induction events as [|e events IH]; intros s HS; [done|].
  cbn [fold_left]. apply IH. destruct (happens demo_config control e s) as [s'|] eqn:E; [by eapply server_goes_on|done].
Qed.
Definition demo_revocation : ApiOp := RevokeGrantOp demo_admin (str "Grant00001") IoOk.
(** The engines are reconciled and a grant is made; a device enrolls, and its
    grant is revoked between the admission and the provisioning. *)
Definition demo_events : list Event :=
  map Comes (take 2 demo_ops) ++ repeat (Goes_on 0) 6 ++ repeat (Goes_on 1) 3 ++ map Comes (drop 2 demo_ops)
  ++ repeat (Goes_on 2) 4 ++ [Comes demo_revocation] ++ repeat (Goes_on 3) 3 ++ repeat (Goes_on 2) 9.
Definition demo_busy : Server unit := schedule demo_engine demo_events.
(** The session provisioned late was one of the service's. *)
Lemma engines_serve_sessions_witness : demo_allocation ∈ issued demo_busy.
Proof.
  apply (engines_serve_sessions demo_config demo_engine demo_busy (schedule_reachable demo_engine demo_events)). apply (bool_decide_unpack _). by vm_compute.
Defined.
Example demo_busy_is : (told (calls (s_app demo_busy)), allocations (state (app_access (s_app demo_busy))), late demo_busy, left_over demo_busy)
  = ([demo_allocation], [], [demo_allocation], []).
Proof. vm_compute. reflexivity. Qed.

Lemma admin_requires_token_witness :
  revoke_grant_handler demo_config (traced demo_engine) [] (str "Grant00001") IoOk (demo_server demo_engine demo_ops)
    = (Err (Refused unauthorized), demo_server demo_engine demo_ops).
Proof. apply (admin_requires_token demo_config (traced demo_engine) [] (demo_server demo_engine demo_ops)). by vm_compute. Defined.

(** The outcome of a handler, taken apart. *)
Lemma answered {A} (o : result ApiFailure A * App (@Traced unit)) (a : A) : is_ok o.1 = true -> o = (Ok (match o.1 with Ok x => x | Err _ => a end), o.2).
Proof. by destruct o as [[]]. Qed.
Lemma answered_with {A} (o : result ApiFailure A * App (@Traced unit)) r : o.1 = r -> o = (r, o.2).
Proof. by destruct o; intros <-. Qed.
Definition refusal {A} (r : result ApiFailure A) : option ApiError := match r with Err (Refused e) => Some e | _ => None end.
Lemma refused {A} (o : result ApiFailure A * App (@Traced unit)) e : refusal o.1 = Some e -> o = (Err (Refused e), o.2).
Proof. destruct o as [[|[|]] ?]; cbn; congruence. Qed.
Definition no_response : ApiResponse := mkResponse 0 [] [].

Definition demo_before : App (@Traced unit) := demo_server demo_engine (take 2 demo_ops).
Lemma demo_access_reachable control ops : reachable (app_access (demo_server control ops)).
Proof. apply (api_inv demo_config control), demo_server_reachable. Qed.

(** The app takes the document of the example enrollment. *)
Definition demo_outcome : result ApiFailure ApiResponse * App (@Traced unit) := create_session_handler demo_config (traced demo_engine) [] (demo_enrollment demo_code) demo_draws demo_before.
Definition demo_response : ApiResponse := match demo_outcome.1 with Ok r => r | Err _ => no_response end.
Definition hysteria_password_ok (c : ServerConfig) : bool :=
  match cfg_hysteria c with
  | Some h => match hy_obfuscation h with Salamander p | Gecko p => bounded_value_ok p MAX_SECRET_CHARS | Disabled => true end
  | None => true
  end.
Lemma hysteria_password_bounded c h password : hysteria_password_ok c = true -> cfg_hysteria c = Some h ->
  hy_obfuscation h = Salamander password \/ hy_obfuscation h = Gecko password -> bounded_value_ok password MAX_SECRET_CHARS = true.
Proof. unfold hysteria_password_ok. intros Hc Eh. rewrite Eh in Hc. by intros [E|E]; rewrite E in Hc. Qed.
Lemma enrollment_document_accepted_witness : acceptable demo_config (demo_token (str "01")) demo_response.
Proof.
  apply (enrollment_document_accepted (traced demo_engine) demo_env demo_config demo_config_ok) with (headers := []) (request := demo_enrollment demo_code)
    (d := demo_draws) (a := demo_before) (a' := demo_outcome.2).
  - vm_compute. reflexivity.
  - by vm_compute.
  - vm_compute. reflexivity.
  - intros h password. apply hysteria_password_bounded. vm_compute. reflexivity.
  - apply demo_access_reachable.
  - split; [|done]. apply snapshot_host; [intros n [= <-]; lia|]. intros m. vm_compute. by intros [= <-].
  - apply answered. vm_compute. reflexivity.
Defined.

(** An engine fails: the session admitted for the enrollment is gone again. *)
Definition broken_before : App (@Traced unit) := demo_server broken_engine (take 2 demo_ops).
Definition broken_outcome : result ApiFailure ApiResponse * App (@Traced unit) := create_session_handler demo_config (traced broken_engine) [] (demo_enrollment demo_code) demo_draws broken_before.
Definition discard_allowed (st : PersistedState) (code : list byte) (now t : Z) : bool :=
  match split_access_code code with
  | Ok parts => match find_grant st (part_id parts) with
                | Some g => bool_decide (used_up_until g t = None) && (t <? lease_end g now)
                | None => true
                end
  | Err _ => true
  end.
Lemma discard_allowed_spec st code now t parts g : discard_allowed st code now t = true ->
  split_access_code code = Ok parts -> find_grant st (part_id parts) = Some g -> used_up_until g t = None /\ t < lease_end g now.
Proof. unfold discard_allowed. intros Hd Ep Eg. rewrite Ep, Eg in Hd. by bool_prop. Qed.
Lemma refused_enrollment_leaves_nothing_witness :
  state (app_access broken_outcome.2) = state (app_access broken_before) \/
  state (app_access broken_outcome.2) = with_sessions (state (app_access broken_before)) (live_sessions demo_now (state (app_access broken_before))).
Proof.
  apply (refused_enrollment_leaves_nothing demo_config (traced broken_engine) [] (demo_enrollment demo_code) demo_draws broken_before broken_outcome.2
    data_plane_unavailable (demo_access_reachable broken_engine (take 2 demo_ops))).
  - apply refused. vm_compute. reflexivity.
  - done.
  - intros parts g. apply discard_allowed_spec. vm_compute. reflexivity.
  - vm_compute. reflexivity.
Defined.

Lemma update_order_after_credentials_witness :
  create_session_handler demo_config (traced demo_engine) [(CLIENT_HEADER, str "ket-android/1.0.0")] (demo_enrollment (str "Grant00001Secret0000000000000009")) demo_draws demo_before
  = create_session_handler demo_config (traced demo_engine) [] (demo_enrollment (str "Grant00001Secret0000000000000009")) demo_draws demo_before.
Proof.
  set (wrong := demo_enrollment (str "Grant00001Secret0000000000000009")).
  apply (proj2 (proj2 (update_order_after_credentials demo_config (traced demo_engine) [] wrong demo_draws demo_before demo_before
    (client_update_required (mkUpdateAdvice Required [] None None [])) eq_refl)) _ (request_admission wrong (sd_enrolling demo_draws) (app_access demo_before)).1 Unauthorized).
  - apply (result_of (request_admission wrong (sd_enrolling demo_draws) (app_access demo_before))). vm_compute. reflexivity.
  - done.
Defined.

(** A node that offers nothing, and a grant for one protocol. *)
Definition bare_config : ServerConfig :=
  mkServerConfig (bind_address demo_config) (state_path demo_config) (admin_token demo_config) (cfg_public_url demo_config) (cfg_node_id demo_config)
    (cfg_node_name demo_config) (cfg_location demo_config) 4 3600 [] None None None None None None (cfg_client_updates demo_config).
Definition narrow_request : CreateAccessGrantRequest := Build_CreateAccessGrantRequest (str "Narrow") 2 1440 (Only {[ Hysteria2 ]}) None.
Definition narrow_app : App (@Traced unit) :=
  mkApp (exec (CreateGrant narrow_request demo_now demo_code [] PoolRuns IoOk) demo_service).1 (tt, []) true (mkMetrics 0 0 0 0).
Definition narrow_outcome : result ApiFailure ApiResponse * App (@Traced unit) := create_session_handler bare_config (traced demo_engine) [] (demo_enrollment demo_code) demo_draws narrow_app.
Lemma no_protocol_counted_twice_witness : app_metrics narrow_outcome.2 = mkMetrics 1 1 0 0.
Proof.
  apply (no_protocol_counted_twice bare_config (traced demo_engine) [] (demo_enrollment demo_code) demo_draws narrow_app narrow_outcome.2
    (Err (Refused grant_protocols_unavailable))); [done|done|].
  apply refused. vm_compute. reflexivity.
Defined.

(** The grant revoked between the admission and the provisioning. *)
Definition raced : Service * result ServiceError CreatedSession := request_admission (demo_enrollment demo_code) (sd_enrolling demo_draws) (app_access demo_before).
Definition raced_session : CreatedSession := match raced.2 with Ok cs => cs | Err _ => demo_created end.
Definition race_revoked : result ApiFailure unit * App (@Traced unit) := revoke_grant_handler demo_config (traced demo_engine) demo_admin (cs_grant_id raced_session) IoOk (set_access demo_before raced.1).
Definition race_outcome : result ApiFailure ApiResponse * App (@Traced unit) := finish_enrollment demo_config (traced demo_engine) None (request_updates demo_config [] demo_now) demo_draws (Ok raced_session) race_revoked.2.
Lemma provision_race_outlives_session_witness : demo_allocation ∈ told (calls race_outcome.2).
Proof.
  apply (provision_race_outlives_session demo_config demo_engine (demo_enrollment demo_code) demo_draws demo_admin IoOk None (request_updates demo_config [] demo_now)
    demo_before race_revoked.2 race_outcome.2 raced.1 raced_session tt (match race_outcome.1 with Ok r => r | Err _ => no_response end)).
  - apply demo_access_reachable.
  - apply (result_of raced). apply ok_value. vm_compute. reflexivity.
  - apply answered_with. vm_compute. reflexivity.
  - apply answered. vm_compute. reflexivity.
Defined.

Lemma some_case {A} (o : option A) (P : A -> Prop) : bool_decide (is_Some o) = true -> (forall a, o = Some a -> P a) -> exists a, o = Some a /\ P a.
Proof. intros [a E]%bool_decide_eq_true HP. exists a. auto. Qed.
Lemma demo_slots : cfg_max_sessions demo_config = 4.
Proof. vm_compute. reflexivity. Qed.
Lemma slots_have_resources_witness :
  exists s, cfg_shadowsocks demo_config = Some s /\ exists p, session_port s 3 = Some p /\ ss_port_start s <= p <= ss_port_end s.
Proof.
  apply some_case; [vm_compute; reflexivity|]. intros s Hs.
  destruct (proj1 (slots_have_resources demo_env demo_config 3 0 demo_config_ok ltac:(rewrite demo_slots; lia) ltac:(rewrite demo_slots; lia)) s Hs)
    as (p & Hp & _ & Hr & _). exists p. split; [exact Hp|exact Hr].
Defined.

Lemma chars_length s cs : chars s = Some cs -> zlen cs <= zlen s.
Proof.
  intros [_ ->]%chars_inv. unfold zlen. induction cs as [|c cs IH]; [done|]. unfold encode_chars in *. cbn [flat_map length].
  rewrite length_app. pose proof (encode_char_length c). lia.
Qed.
(** A name the server stored is one the app shows. *)
Lemma stored_text value maximum : valid_text value maximum = true -> text_ok value maximum = true.
Proof.
  unfold valid_text, text_ok, any_control, char_list. destruct (chars value) as [cs|] eqn:Ec; [|by rewrite andb_false_r].
  intros Hv. bool_prop. cbn [default from_option Datatypes.id]. rewrite !andb_true_iff, bool_decide_eq_true, negb_true_iff, bool_decide_eq_false, Z.leb_le.
  split_and!; try done; [pose proof (chars_length _ _ Ec); lia|]. by apply negb_true_iff.
Qed.

(** What a running session reports. *)
Section views.
Context `{SecretHashing, StateJson, NodeConfig, !StateJsonLaws}.

Record view_wf (token : list byte) (v : SessionView) : Prop := {
  vw_id : exists parts, split_session_token token = Ok parts /\ sv_id v = part_id parts;
  vw_name : text_ok (sv_client_name v) 96 = true;
  vw_expiry : forall e, sv_access_expires_at v = Some e -> sv_expires_at v <= e;
  vw_allowance : forall a, sv_allowance v = Some a -> allowance_is_valid (status_allowance a) = true;
}.
(** The record and the grant an authenticated token names. *)
Lemma authenticated_wf sv sv' token pool now s g : Inv sv -> authenticate token pool now sv = (sv', Ok (s, g)) ->
  sv' = sv /\ (exists parts, split_session_token token = Ok parts /\ s_id s = part_id parts) /\ text_ok (s_client_name s) 96 = true /\
  (forall e, g_expires_at g = Some e -> s_expires_at s <= e) /\ (forall a t, status g t = Some a -> allowance_is_valid (status_allowance a) = true).
Proof.
  intros HI HA. apply authenticate_ok in HA as (-> & parts & Ep & El & _ & _). apply lookup_session_ok in El as [Es Eg].
  apply find_session_some in Es as [Hs Esid]. apply find_grant_some in Eg as [Hg Egid].
  pose proof (core_wf _ (inv_core _ HI)) as Hwf. pose proof (wf_sessions _ Hwf) as HF. rewrite Forall_forall in HF.
  destruct (HF s Hs) as (_ & g' & Hg' & Eg' & Hv). assert (g' = g) as -> by (eapply (NoDup_key_inj g_id); [apply Hwf|done|done|congruence]).
  pose proof (wf_grants _ Hwf) as HG. rewrite Forall_forall in HG. destruct (HG g Hg) as [_ Hvg].
  split_and!; [done|by eauto| | |].
  - unfold validate_session in Hv. repeat break_hyp Hv; by apply stored_text.
  - intros e He. unfold validate_session in Hv. rewrite He in Hv. repeat break_hyp Hv. bool_prop. lia.
  - intros a t. unfold status. destruct (g_allowance g) as [al|] eqn:Ea; [|done]. cbn. intros [= <-]. cbn.
    unfold validate_grant in Hvg. rewrite Ea in Hvg. repeat break_hyp Hvg; done.
Qed.
Lemma session_view_wf sv sv' token pool now view_now v : reachable sv -> session token pool now view_now sv = (sv', Ok v) -> view_wf token v.
Proof.
  intros HR%reachable_inv. unfold session, bind. destruct (authenticate token pool now sv) as [sv1 [[s g]|e]] eqn:EA; [|done].
  destruct (authenticated_wf _ _ _ _ _ _ _ HR EA) as (_ & Hid & Hn & He & Ha). unfold lift. destruct (required_resource_slot s); [|done].
  cbn. intros [= _ <-]. split; cbn; [done..|]. intros al. apply Ha.
Qed.
Lemma renewed_view_wf sv sv' token pool auth_now now io t v : reachable sv -> renew_session token pool auth_now now io t sv = (sv', Ok v) -> view_wf token v.
Proof.
  intros HR%reachable_inv. unfold renew_session, bind. destruct (authenticate token pool auth_now sv) as [sv1 [[s g]|e]] eqn:EA; [|done].
  pose proof (authenticated_slot _ _ _ _ _ _ _ HR EA) as Hslot.
  destruct (authenticated_wf _ _ _ _ _ _ _ HR EA) as (-> & Hid & Hn & He & Ha). intros Hr.
  pose proof (renew_commit_triple sv s g now io t HR Hslot sv (conj eq_refl (conj eq_refl (conj eq_refl eq_refl)))) as HT.
  unfold renew_commit in *. rewrite Hr in HT. destruct HT as (_ & _ & slot & _ & ->). split; cbn; [done|done| |].
  - intros e Ee. unfold lease_end. rewrite Ee. lia.
  - intros al. apply Ha.
Qed.
End views.

Section documents.
Context `{SecretHashing, StateJson, NodeConfig, !StateJsonLaws}.
Context `{Base64, Files, Ed25519, Hashes, Encodings, UrlParser, UrlOps, Hpke, UrlText, !Json (list TransportProfile)}.
Context {W : Type} `{ClockRuns W} (control : DataPlaneControl W) `{!TrafficSound control}.
Context (env : Environment) (c : ServerConfig) (Hc : from_env env = Ok c).
Context (Hmax : max_sessions = cfg_max_sessions c) (Hfew : cfg_max_sessions c < 2 ^ 24).
Context (Hurl : validate_public_url (cfg_public_url c) = Ok tt).

Lemma status_document token v updates d s (a a' : App W) :
  reachable (app_access a) -> node_draws_wf d -> view_wf token v -> build_session_status c control v updates d a = (Ok s, a') ->
  forall now, now < status_expires_at s -> validate_status s token (status_client_name s) now = Ok tt.
Proof.
  intros HR Hd [(parts & Ep & Eid) Hn He Ha] Hs now Hnow. unfold build_session_status, bind_handler at 1, ask_engine in Hs.
  destruct (traffic control _ (app_engines a)) as [r w] eqn:Et.
  assert (HT : exists t a2, reading_ok t /\ reachable (app_access a2) /\
    bind_handler (build_node_status c control d) (fun n => answer (mkSessionStatus (sv_id v) (sv_client_name v) (sv_expires_at v) (sv_access_expires_at v) n t
      (Some updates) (sv_allowance v))) a2 = (Ok s, a')).
  { destruct r as [t|e].
    - exists t, (set_engines a w). split; [by eapply traffic_sound|]. done.
    - destruct e; try done; (unfold bind_handler at 1 in Hs; cbv beta iota in Hs; pose proof (unavailable_ok (app_engines (set_engines a w))) as [Hu _];
        destruct (unavailable_traffic _) as [t w2]; exists t, (set_engines (set_engines a w) w2); done). }
  destruct HT as (t & a2 & [Ht Ho] & HR2 & Hb). unfold bind_handler in Hb.
  destruct (build_node_status c control d a2) as [[n|] a3] eqn:En; [|done].
  pose proof (node_status_wf control env c Hc Hmax Hfew Hurl d n a2 a3 HR2 Hd En) as Hw.
  assert (s = mkSessionStatus (sv_id v) (sv_client_name v) (sv_expires_at v) (sv_access_expires_at v) n t (Some updates) (sv_allowance v)) as -> by (unfold answer in Hb; congruence).
  cbn [status_expires_at status_client_name] in *. unfold validate_status. rewrite Ep. cbn [map_err]. unfold Validation.validate_text, validate_traffic.
  rewrite !seq_ok, !is_ok_unit, !seq_ok, !is_ok_unit, validate_node_ok, !checked_ok, !bool_decide_eq_true, negb_true_iff, Z.eqb_neq.
  cbn [status_session_id status_client_name status_node status_traffic status_data_allowance status_access_expires_at status_expires_at].
  destruct (expiry_ok (sv_access_expires_at v) (sv_expires_at v) now) as [_ Hexp].
  destruct Hexp as [E1 E2]; [split; [done|]; intros e Ee; specialize (He e Ee); lia|].
  split_and!; try done. destruct (sv_allowance v) as [al|]; [by apply Ha|done].
Qed.

(** With any engines whose readings are sound. *)
Lemma status_document_sound headers d (a a' : App W) s token :
  reachable (app_access a) -> node_draws_wf (sd_node d) -> bearer_token headers = Ok token ->
  session_status_handler c control headers d a = (Ok s, a') \/ renew_session_handler c control headers d a = (Ok s, a') ->
  forall now, now < status_expires_at s -> validate_status s token (status_client_name s) now = Ok tt.
Proof.
  intros HR Hd Ht Hs. destruct Hs as [Hs|Hs].
  - unfold session_status_handler, bind_handler at 1, from_result in Hs. rewrite Ht in Hs. unfold bind_handler at 1, call, bind_handler at 1, ask_service in Hs.
    destruct (session_accounted token (rn_pool (sd_renewing d)) (rn_auth_now (sd_renewing d)) (sd_view_now d) _ HR) as [HR' _].
    destruct (session token _ _ _ (app_access a)) as [sv [v|er]] eqn:Es; [|done]. cbn [map_err from_result] in Hs.
    eapply (status_document token v); [|exact Hd|eapply session_view_wf; [exact HR|exact Es]|exact Hs]. done.
  - unfold renew_session_handler, bind_handler at 1, from_result in Hs. rewrite Ht in Hs. destruct (is_required _).
    { exfalso. unfold bind_handler at 1, call, bind_handler at 1, ask_service in Hs.
      destruct (session token _ _ _ (app_access a)) as [sv [v|er]]; [|done]. cbn [map_err from_result] in Hs. unfold bind_handler in Hs.
      by destruct (record_activity _ _ _ _) as [[]]. }
    unfold bind_handler at 1, call, bind_handler at 1, ask_service in Hs.
    destruct (renew_session_accounted token (rn_pool (sd_renewing d)) (rn_auth_now (sd_renewing d)) (rn_now (sd_renewing d)) (rn_io (sd_renewing d)) (rn_note (sd_renewing d)) _ HR) as [HR' _].
    destruct (renew_session token _ _ _ _ _ (app_access a)) as [sv [v|er]] eqn:Es; [|done]. cbn [map_err from_result] in Hs.
    eapply (status_document token v); [|exact Hd|eapply renewed_view_wf; [exact HR|exact Es]|exact Hs]. done.
Qed.
End documents.

Section configured.
Context `{SecretHashing, StateJson, NodeConfig, !StateJsonLaws}.
Context `{Base64, Files, Ed25519, Hashes, Encodings, UrlParser, UrlOps, Hpke, UrlText, !Json (list TransportProfile)}.
Context {W : Type} `{ClockRuns W, EngineWorld W, UriParser, Texts, HeaderValues, EngineJson, Hmac}.

(** a running session's app accepts what the server tells it: with settings
    the server took and the engines they configure, whatever those answer or
    fail with, every answer to a status request and to a renewal is a document
    that passes the app's checks for the token it was asked with, until the
    lease it names ends. *)
Theorem status_document_accepted env c (control : DataPlaneControl W) headers d (a a' : App W) s token now :
  from_env env = Ok c -> max_sessions = cfg_max_sessions c -> cfg_max_sessions c < 2 ^ 24 -> validate_public_url (cfg_public_url c) = Ok tt ->
  from_config c = Ok control ->
  reachable (app_access a) -> node_draws_wf (sd_node d) -> bearer_token headers = Ok token ->
  session_status_handler c control headers d a = (Ok s, a') \/ renew_session_handler c control headers d a = (Ok s, a') ->
  now < status_expires_at s -> validate_status s token (status_client_name s) now = Ok tt.
Proof.
  intros Hc Hmax Hfew Hurl Hf HR Hd Ht Hs Hnow. pose proof (from_config_sound _ _ Hf) as HT.
  eapply (status_document_sound control env c Hc Hmax Hfew Hurl); [exact HR|exact Hd|exact Ht|exact Hs|exact Hnow].
Qed.
End configured.

(** * Witness *)

Definition null_json {T} : Json T := {| json_to_vec _ := None; json_from_slice _ := None |}.
#[local] Instance null_engine_json : EngineJson :=
  {| json_peer := null_json; json_reconcile_peers := null_json; json_remove_peers := null_json; json_peers := null_json; json_openvpn := null_json;
     json_reconcile_openvpn := null_json; json_remove_openvpn := null_json; json_names := null_json; json_hysteria := null_json;
     json_online := null_json; json_ports := null_json; json_add := null_json; json_value := null_json |}.
(** Engines that never answer. *)
#[local] Instance silent_world : EngineWorld unit :=
  {| world_http _ w := (HttpTimeout, w); world_udp _ _ _ w := (UdpTimeout, w); world_run _ _ _ w := (RunTimeout, w);
     world_create _ _ w := (None, w); world_remove _ w := (None, w); temp_file name := name |}.
#[local] Instance demo_uri : UriParser := fun _ => Some (Some (str "http"), true).
#[local] Instance demo_texts : Texts := {| status_text _ := []; json_error := [] |}.
#[local] Instance demo_clock_runs : ClockRuns unit.
Proof. intros w. done. Qed.

Definition silent_control : DataPlaneControl unit := match from_config demo_config with Ok c => c | Err _ => NoDataPlane end.
Definition status_app : App unit := mkApp (app_access (demo_server demo_engine demo_ops)) tt true (mkMetrics 0 0 0 0).
Lemma access_of_app (sv : Service) (w : unit) ready m : reachable sv -> reachable (app_access (mkApp sv w ready m)).
Proof. done. Qed.
Lemma status_app_reachable : reachable (app_access status_app).
Proof. apply access_of_app, demo_access_reachable. Qed.
Definition status_headers : HeaderMap := [(str "authorization", str "Bearer " ++ demo_token (str "01"))].
Lemma renewed_until (o : result ApiFailure SessionStatus * App unit) now (P : SessionStatus -> Prop) :
  match o.1 with Ok s => now <? status_expires_at s | Err _ => false end = true ->
  (forall s a', o = (Ok s, a') -> now < status_expires_at s -> P s) -> exists s, P s.
Proof. destruct o as [[s|e] a']; cbn; [|done]. intros Hn%Z.ltb_lt HP. exists s. by eapply HP. Qed.
Lemma silent_control_ok : from_config demo_config = Ok silent_control.
Proof. apply ok_value. vm_compute. reflexivity. Qed.
Lemma demo_draws_wf : node_draws_wf (sd_node demo_draws).
Proof. split; [|done]. apply snapshot_host; [intros n [= <-]; lia|]. intros m. vm_compute. by intros [= <-]. Qed.
Lemma demo_url_shown : validate_public_url (cfg_public_url demo_config) = Ok tt.
Proof. vm_compute. reflexivity. Qed.
(** The example session renews while no engine answers. *)
Lemma status_document_accepted_witness :
  exists s, validate_status s (demo_token (str "01")) (status_client_name s) (demo_now + 10) = Ok tt.
Proof.
  apply (renewed_until (renew_session_handler demo_config silent_control status_headers demo_draws status_app) (demo_now + 10)); [vm_compute; reflexivity|].
  intros s a' E Hnow. apply (status_document_accepted demo_env demo_config silent_control status_headers demo_draws status_app a' s (demo_token (str "01")) (demo_now + 10)
    demo_config_ok ltac:(rewrite demo_slots; vm_compute; reflexivity) ltac:(rewrite demo_slots; lia) demo_url_shown silent_control_ok status_app_reachable demo_draws_wf eq_refl
    (or_intror E) Hnow).
Defined.
