(* ===== verification/Agents.v ===== *)
(** What the agents beside WireGuard and OpenVPN share
    (crates/ket-server/src/wireguard_agent.rs and openvpn_agent.rs): programs
    they run, the firewall they install, the checks on interface names and
    bearer tokens, and the answers of their APIs. *)

From Stdlib Require Import ZArith Lia.
From stdpp Require Import gmap strings.
From S2P Require Import Prelude Order Utf8 Str Net Tunnel Grant Contract Validation StdText Config Engines DataPlane EngineControls Api.

(** * Tasks *)

(** A task changes the world and gives a value or an error. *)
Definition task (W E A : Type) : Type := W -> result E A * W.
Section tasks.
Context {W : Type}.
Definition give {E A} (a : A) : task W E A := fun w => (Ok a, w).
Definition abandon {E A} (e : E) : task W E A := fun w => (Err e, w).
Definition of_result {E A} (r : result E A) : task W E A := fun w => (r, w).
Definition bind_task {E A B} (m : task W E A) (k : A -> task W E B) : task W E B := fun w =>
  let '(r, w) := m w in match r with Ok a => k a w | Err e => (Err e, w) end.
Definition fails_as {E F A} (f : E -> F) (m : task W E A) : task W F A := fun w => let '(r, w) := m w in (map_err f r, w).
Definition whatever {E F A B} (m : task W E A) (k : result E A -> task W F B) : task W F B := fun w => let '(r, w) := m w in k r w.
Fixpoint for_each {E A} (f : A -> task W E unit) (l : list A) : task W E unit :=
  match l with [] => give tt | a :: l => bind_task (f a) (fun _ => for_each f l) end.

Lemma bind_task_inv {E A B} (m : task W E A) (k : A -> task W E B) w r w' : bind_task m k w = (r, w') ->
  (exists a w1, m w = (Ok a, w1) /\ k a w1 = (r, w')) \/ (exists e, m w = (Err e, w') /\ r = Err e).
Proof.
  unfold bind_task. destruct (m w) as [[a|e] w1]; intros Hk; [left; by exists a, w1|right]. exists e.
  by assert (w1 = w' /\ r = Err e) as [-> ->] by (split; congruence).
Qed.
Lemma of_result_inv {E A} (x r : result E A) (w w' : W) : of_result x w = (r, w') -> r = x /\ w' = w.
Proof. unfold of_result. split; congruence. Qed.
Lemma fails_as_inv {E F A} (f : E -> F) (m : task W E A) w r w' : fails_as f m w = (r, w') ->
  exists r0, m w = (r0, w') /\ r = map_err f r0.
Proof. unfold fails_as. destruct (m w) as [r0 w1]. intros Hk. exists r0. split; congruence. Qed.
End tasks.
Notation "'run!' x ':=' m 'in' k" := (bind_task m (fun x => k))
  (at level 200, x pattern, m at level 100, k at level 200, format "'[v' 'run!'  x  ':='  m  'in' '/' k ']'") : ket_scope.

(** * Programs *)

(** An [anyhow] error of an agent, by what it says. *)
Definition Failure := list byte.
(** A program, its arguments and what it reads: its output, or why it could
    not be run to its end. *)
Class Shell (W : Type) := shell : list byte -> list (list byte) -> option (list byte) -> W -> result Failure Output * W.

(** What a program that failed says: [from_utf8_lossy], trimmed. *)
Definition complaint (program : list byte) (o : Output) : Failure :=
  program ++ str " failed: " ++ encode_chars (trim_chars (from_utf8_lossy (out_stderr o))).

(** * Settings *)

Definition interface_byte (b : byte) : bool := is_ascii_alphanumeric b || bool_decide (b ∈ str "-_").
Definition validate_interface (interface label : list byte) : result ConfigError unit :=
  ensure (negb (bool_decide (interface = [])) && (zlen interface <=? 15) && forallb interface_byte interface) label
    (str "is not a valid Linux interface name").
(** [parse().ok().filter(|count| (1..=65_533).contains(count))]. *)
Definition pool_count (count : list byte) : option Z :=
  match parse_uint u64_max count with Some n => if (1 <=? n) && (n <=? 65533) then Some n else None | None => None end.

(** * Requests and answers *)

(** The candidate of [authorize] and its comparison. *)
Definition manager_authorized (manager_token : list byte) (authorization : option (list byte)) : bool :=
  match (authorization ≫= header_text) ≫= strip_prefix (str "Bearer ") with
  | Some candidate => same_secret manager_token candidate
  | None => false
  end.
Record AgentError := mkAgentError { ag_status : Z; ag_code : list byte; ag_message : list byte }.
Definition manager_unauthorized : AgentError := mkAgentError 401 (str "unauthorized") (str "manager authentication failed").

Record AgentRequest := mkAgentRequest { aq_method : HttpMethod; aq_path : list byte; aq_authorization : option (list byte); aq_body : list byte }.
Record AgentResponse := mkAgentResponse { ap_status : Z; ap_body : list byte }.
(** axum's [Json]: reading a body, within the router's limit, or the answer it
    refuses with; writing one. *)
Class Extract (T : Type) := extract : list byte -> result AgentResponse T.
Definition json_response {T} `{Json T, Texts} (status : Z) (v : T) : AgentResponse :=
  match json_to_vec v with Some body => mkAgentResponse status body | None => mkAgentResponse 500 json_error end.
Definition error_answer `{Json AgentError, Texts} (e : AgentError) : AgentResponse := json_response (ag_status e) e.
(** A handler's [Result<StatusCode, ApiError>] and [Result<Json<T>, ApiError>]. *)
Definition status_answer `{Json AgentError, Texts} (r : result AgentError Z) : AgentResponse :=
  match r with Ok status => mkAgentResponse status [] | Err e => error_answer e end.
Definition answer_json {T} `{Json AgentError, Texts, !Json T} (r : result AgentError T) : AgentResponse :=
  match r with Ok v => json_response 200 v | Err e => error_answer e end.
(** A route whose handler takes a JSON body. *)
Definition with_json {W T} `{Extract T} (body : list byte) (handler : T -> W -> AgentResponse * W) (w : W) : AgentResponse * W :=
  match extract body with Ok v => handler v w | Err refusal => (refusal, w) end.

(** * The firewall *)

Section firewall.
Context {W : Type} (run_command : list byte -> list (list byte) -> task W Failure Output).

Definition ensure_iptables_table (table : list byte) (rule : list (list byte)) : task W Failure unit :=
  let iptables := str "iptables" in
  whatever (run_command iptables (str "-t" :: table :: str "-C" :: rule)) (fun checked =>
  if is_ok checked then give tt
  else run! _ := run_command iptables (str "-t" :: table :: str "-A" :: rule) in give tt).
Definition ensure_iptables (rule : list (list byte)) : task W Failure unit := ensure_iptables_table (str "filter") rule.

Definition rejected_networks : list (list byte) := map str
  ["10.0.0.0/8"; "100.64.0.0/10"; "127.0.0.0/8"; "169.254.0.0/16"; "172.16.0.0/12"; "192.168.0.0/16"; "224.0.0.0/4"]%string.
Definition install_rules (interface egress_interface leases : list byte) : task W Failure unit :=
  run! _ := for_each (fun destination => ensure_iptables
              [str "FORWARD"; str "-i"; interface; str "-d"; destination; str "-j"; str "REJECT"]) rejected_networks in
  run! _ := ensure_iptables [str "FORWARD"; str "-i"; interface; str "-p"; str "tcp"; str "-m"; str "multiport"; str "--dports";
                             str "25,465,587"; str "-j"; str "REJECT"] in
  run! _ := ensure_iptables [str "FORWARD"; str "-i"; interface; str "-j"; str "ACCEPT"] in
  run! _ := ensure_iptables [str "FORWARD"; str "-o"; interface; str "-m"; str "conntrack"; str "--ctstate"; str "RELATED,ESTABLISHED";
                             str "-j"; str "ACCEPT"] in
  ensure_iptables_table (str "nat") [str "POSTROUTING"; str "-s"; leases; str "-o"; egress_interface; str "-j"; str "MASQUERADE"].
End firewall.
