(* ===== verification/WireGuardAgent.v ===== *)
(** Model of crates/ket-server/src/wireguard_agent.rs: the service beside a
    WireGuard interface that installs, lists and removes the peers the server
    asks for, through the programs [wg], [ip] and [iptables].

    A WireGuard interface as [wg] shows and changes it, and what the agent
    reads of it: the text of [wg show dump] and its parsing, one
    peer per line. *)

From Stdlib Require Import ZArith Lia.
From stdpp Require Import gmap strings.
From S2P Require Import Prelude Order Utf8 Str Net SharePolicy Tunnel Grant Contract Control Validation StdText Config ConfigProps Engines DataPlane EngineControls Api ApiTransports ControlProps Agents.

Definition MAX_COMMAND_OUTPUT_BYTES : Z := 32 * 1024 * 1024.

(** * Settings and checks *)

Record AgentConfig := mkAgentConfig {
  wa_bind_address : SocketAddr * Z; wa_interface : list byte; wa_egress_interface : list byte; wa_listen_port : Z;
  wa_private_key : list byte; wa_manager_token : list byte; wa_max_peers : Z;
}.

Section checks.
Context `{Base64}.

(** 32 bytes in standard Base64. *)
Definition key_ok (key : list byte) : bool := match base64_decode key with Some decoded => zlen decoded =? 32 | None => false end.
Definition validate_key (key label : list byte) : result Failure unit :=
  if key_ok key then Ok tt else Err (label ++ str " is not a 32-byte standard-base64 WireGuard key").
Definition in_lease_pool (address : Z) : bool :=
  let host := octet 2 address * 256 + octet 3 address in
  (octet 0 address =? 10) && (octet 1 address =? 66) && (2 <=? host) && (host <=? 65534).
(** [parse::<Ipv4Addr>()]. *)
Definition parse_ipv4 (s : list byte) : option Z := if 15 <? zlen s then None else parse_with read_ipv4_addr s.
Definition valid_address (address : list byte) : result Failure unit :=
  let* address := ok_or (parse_ipv4 address) (str "peer address is not IPv4") in
  if in_lease_pool address then Ok tt else Err (str "peer address is outside the Ket WireGuard lease pool").
Definition validate_peer (peer : ManagedPeer) : result Failure unit :=
  let* _ := validate_key (peer_private_key peer) (str "peer private key") in
  let* _ := validate_key (peer_preshared_key peer) (str "peer preshared key") in
  valid_address (peer_address peer).

(** [AgentConfig::from_env]. *)
Definition agent_from_env (env : Environment) : result ConfigError AgentConfig :=
  let* bind_address := ok_or (parse_socket_addr (value env (str "KET_WIREGUARD_AGENT_BIND") (str "0.0.0.0:8788")))
                         (Bail (str "KET_WIREGUARD_AGENT_BIND") (str "must be a socket address")) in
  let interface := value env (str "KET_WIREGUARD_INTERFACE") (str "ketwg0") in
  let egress_interface := value env (str "KET_WIREGUARD_EGRESS_INTERFACE") (str "eth0") in
  let* _ := validate_interface interface (str "KET_WIREGUARD_INTERFACE") in
  let* _ := validate_interface egress_interface (str "KET_WIREGUARD_EGRESS_INTERFACE") in
  let listen_port := value env (str "KET_WIREGUARD_LISTEN_PORT") (str "51820") in
  let* listen_port := ok_or (match parse_uint u16_max listen_port with Some port => if 0 <? port then Some port else None | None => None end)
                        (Bail (str "KET_WIREGUARD_LISTEN_PORT") (str "must be a non-zero port")) in
  let* private_key := required env (str "KET_WIREGUARD_SERVER_PRIVATE_KEY") in
  let* _ := ensure (key_ok private_key) (str "KET_WIREGUARD_SERVER_PRIVATE_KEY") (str "is not a 32-byte standard-base64 WireGuard key") in
  let* manager_token := required env (str "KET_WIREGUARD_MANAGER_TOKEN") in
  let* _ := ensure (32 <=? zlen manager_token) (str "KET_WIREGUARD_MANAGER_TOKEN") (str "must contain at least 32 characters") in
  let* max_peers := ok_or (pool_count (value env (str "KET_WIREGUARD_MAX_PEERS") (str "1000")))
                      (Bail (str "KET_WIREGUARD_MAX_PEERS") (str "must be between 1 and 65533")) in
  Ok (mkAgentConfig bind_address interface egress_interface listen_port private_key manager_token max_peers).

(** * What [wg show dump] prints *)

Definition tab : byte := z2b 9.
Definition parse_u64 (what : string) (s : list byte) : result Failure Z :=
  ok_or (parse_uint u64_max s) (str "wg " ++ str what ++ str " counter is invalid").
Definition parse_peer_row (line : list byte) : result Failure PeerStatus :=
  match split_on tab line with
  | [public_key; _; _; allowed; handshake; received; sent; _] =>
    let* _ := validate_key public_key (str "peer public key") in
    match split_on (z2b 44) allowed with
    | [allowed] =>
      let* address := ok_or (strip_suffix allowed (str "/32")) (str "wg peer is missing its IPv4 lease") in
      let* _ := valid_address address in
      let* latest_handshake := parse_u64 "handshake" handshake in
      let* bytes_received := parse_u64 "receive" received in
      let* bytes_sent := parse_u64 "send" sent in
      Ok (mkPeerStatus public_key address latest_handshake bytes_received bytes_sent)
    | _ => Err (str "wg peer has unexpected allowed IPs")
    end
  | _ => Err (str "wg returned a malformed peer row")
  end.
(** The first line is the interface's. *)
Definition parse_peer_statuses (output : list byte) : result Failure (list PeerStatus) :=
  collect parse_peer_row (filter (fun line => line <> []) (drop 1 (lines output))).
End checks.

(** * Operations *)

Section agent.
Context {W : Type} `{Shell W, Base64}.

Definition validate_output (program : list byte) (output : Output) : result Failure Output :=
  require negb ((MAX_COMMAND_OUTPUT_BYTES <? zlen (out_stdout output)) || (MAX_COMMAND_OUTPUT_BYTES <? zlen (out_stderr output)))
    else program ++ str " returned too much output" in
  if out_success output then Ok output else Err (complaint program output).
Definition run_with (program : list byte) (arguments : list (list byte)) (input : option (list byte)) : task W Failure Output :=
  run! output := shell program arguments input in of_result (validate_output program output).
Definition run_command (program : list byte) (arguments : list (list byte)) : task W Failure Output := run_with program arguments None.
Definition run_secret_command (program : list byte) (arguments : list (list byte)) (secret : list byte) : task W Failure Output :=
  run_with program arguments (Some (secret ++ [newline])).
(** [String::from_utf8] of what a program printed. *)
Definition printed (output : Output) (complaint : string) : result Failure (list byte) :=
  if valid_utf8 (out_stdout output) then Ok (out_stdout output) else Err (str complaint).

Context (config : AgentConfig).

Definition derive_public_key (private_key : list byte) : task W Failure (list byte) :=
  run! output := run_secret_command (str "wg") [str "pubkey"] private_key in
  run! public_key := of_result (printed output "wg returned a non-UTF-8 public key") in
  run! _ := of_result (validate_key (trim public_key) (str "derived peer public key")) in
  give (trim public_key).
Definition install_peer (peer : ManagedPeer) : task W Failure unit :=
  run! public_key := derive_public_key (peer_private_key peer) in
  run! _ := run_secret_command (str "wg")
              [str "set"; wa_interface config; str "peer"; public_key; str "preshared-key"; str "/dev/stdin"; str "allowed-ips";
               peer_address peer ++ str "/32"] (peer_preshared_key peer) in
  give tt.
Definition remove_public_key (public_key : list byte) : task W Failure unit :=
  run! _ := of_result (validate_key public_key (str "peer public key")) in
  run! _ := run_command (str "wg") [str "set"; wa_interface config; str "peer"; public_key; str "remove"] in
  give tt.
Definition peer_statuses : task W Failure (list PeerStatus) :=
  run! output := run_command (str "wg") [str "show"; wa_interface config; str "dump"] in
  run! output := of_result (printed output "wg dump was not UTF-8") in
  of_result (parse_peer_statuses output).

(** [install_firewall] and [initialize_interface]. *)
Definition install_firewall : task W Failure unit :=
  install_rules run_command (wa_interface config) (wa_egress_interface config) (str "10.66.0.0/16").
Definition initialize_interface : task W Failure unit :=
  let ip := str "ip" in let interface := wa_interface config in
  run! _ := whatever (run_command ip [str "link"; str "show"; str "dev"; interface]) (fun shown =>
              if is_ok shown then give tt
              else run! _ := run_command ip [str "link"; str "add"; str "dev"; interface; str "type"; str "wireguard"] in give tt) in
  run! _ := run_secret_command (str "wg")
              [str "set"; interface; str "listen-port"; show_u64 (wa_listen_port config); str "private-key"; str "/dev/stdin"]
              (wa_private_key config) in
  run! _ := run_command ip [str "address"; str "replace"; str "10.66.0.1/16"; str "dev"; interface] in
  run! _ := run_command ip [str "link"; str "set"; str "dev"; interface; str "mtu"; str "1280"; str "up"] in
  install_firewall.

(** * Handlers *)

Definition invalid_peer : AgentError := mkAgentError 400 (str "invalid_peer") (str "peer request is invalid").
Definition internal_error : AgentError := mkAgentError 503 (str "wireguard_unavailable") (str "WireGuard operation failed").
Definition internal {A} (m : task W Failure A) : task W AgentError A := fails_as (fun _ => internal_error) m.
Definition check_peer (r : result Failure unit) : task W AgentError unit := of_result (map_err (fun _ => invalid_peer) r).

Definition health : task W AgentError Z :=
  run! _ := internal (run_command (str "wg") [str "show"; wa_interface config]) in give 204.
Definition list_peers : task W AgentError (list PeerStatus) := internal peer_statuses.
Definition upsert_peer (peer : ManagedPeer) : task W AgentError Z :=
  run! _ := check_peer (validate_peer peer) in
  run! _ := internal (install_peer peer) in
  give 204.
(** The loop that checks the peers of a request; [desired] holds the addresses
    before. *)
Fixpoint desired_addresses (peers : list ManagedPeer) (desired : gset (list byte)) : result AgentError (gset (list byte)) :=
  match peers with
  | [] => Ok desired
  | peer :: peers =>
    let* _ := map_err (fun _ => invalid_peer) (validate_peer peer) in
    require bool_decide (peer_address peer ∉ desired) else invalid_peer in
    desired_addresses peers ({[peer_address peer]} ∪ desired)
  end.
Definition remove_where (p : list byte -> bool) : task W AgentError unit :=
  run! current := internal peer_statuses in
  for_each (fun s => if p (ps_address s) then internal (remove_public_key (ps_public_key s)) else give tt) current.
Definition reconcile_peers (request : ReconcilePeers) : task W AgentError Z :=
  let peers := reconcile_peers_of request in
  if wa_max_peers config <? zlen peers then abandon invalid_peer else
  run! desired := of_result (desired_addresses peers ∅) in
  run! _ := remove_where (fun address => bool_decide (address ∉ desired)) in
  run! _ := for_each (fun peer => internal (install_peer peer)) peers in
  give 204.
Definition remove_peers (request : RemovePeers) : task W AgentError Z :=
  if wa_max_peers config <? zlen (remove_addresses request) then abandon invalid_peer else
  let addresses : gset (list byte) := list_to_set (remove_addresses request) in
  if existsb (fun address => negb (is_ok (valid_address address))) (remove_addresses request) then abandon invalid_peer else
  run! _ := remove_where (fun address => bool_decide (address ∈ addresses)) in
  give 204.

(** The router of [run], behind [authorize]. *)
Context `{Texts, EngineJson, !Json AgentError, !Extract ManagedPeer, !Extract ReconcilePeers, !Extract RemovePeers}.
Definition status_of (m : task W AgentError Z) (w : W) : AgentResponse * W := let '(r, w) := m w in (status_answer r, w).
Definition serve (r : AgentRequest) (w : W) : AgentResponse * W :=
  let path := aq_path r in
  if negb (manager_authorized (wa_manager_token config) (aq_authorization r)) then (error_answer manager_unauthorized, w)
  else if bool_decide (path = str "/healthz") then
    match aq_method r with HttpGet => status_of health w | _ => (mkAgentResponse 405 [], w) end
  else if bool_decide (path = str "/v1/peers") then
    match aq_method r with
    | HttpGet => let '(r, w) := list_peers w in (answer_json r, w)
    | HttpPut => with_json (aq_body r) (fun peer => status_of (upsert_peer peer)) w
    | HttpPost => (mkAgentResponse 405 [], w)
    end
  else if bool_decide (path = str "/v1/peers/reconcile") then
    match aq_method r with HttpPut => with_json (aq_body r) (fun q => status_of (reconcile_peers q)) w | _ => (mkAgentResponse 405 [], w) end
  else if bool_decide (path = str "/v1/peers/remove") then
    match aq_method r with HttpPost => with_json (aq_body r) (fun q => status_of (remove_peers q)) w | _ => (mkAgentResponse 405 [], w) end
  else (mkAgentResponse 404 [], w).
End agent.

(** * The interface *)

(** A peer: its keys, where it was last seen, the networks it may use, and its
    counters. *)
Record WgPeer := mkWg {
  wp_key : list byte; wp_psk : list byte; wp_endpoint : list byte; wp_allowed : list (list byte);
  wp_handshake : Z; wp_received : Z; wp_sent : Z; wp_keepalive : list byte;
}.
Definition with_allowed (allowed : list (list byte)) (p : WgPeer) : WgPeer :=
  mkWg (wp_key p) (wp_psk p) (wp_endpoint p) allowed (wp_handshake p) (wp_received p) (wp_sent p) (wp_keepalive p).
Definition with_psk (psk : list byte) (p : WgPeer) : WgPeer :=
  mkWg (wp_key p) psk (wp_endpoint p) (wp_allowed p) (wp_handshake p) (wp_received p) (wp_sent p) (wp_keepalive p).

(** [wg set <interface> peer <key> preshared-key <psk> allowed-ips <network>]:
    a network belongs to one peer, so whoever had it loses it. *)
Definition wg_set (key psk network : list byte) (peers : list WgPeer) : list WgPeer :=
  if bool_decide (key ∈ map wp_key peers) then
    map (fun p => if bool_decide (wp_key p = key) then with_allowed [network] (with_psk psk p)
                  else with_allowed (filter (fun n => n <> network) (wp_allowed p)) p) peers
  else
    map (fun p => with_allowed (filter (fun n => n <> network) (wp_allowed p)) p) peers
    ++ [mkWg key psk (str "(none)") [network] 0 0 0 (str "off")].
(** [wg set <interface> peer <key> remove]. *)
Definition wg_remove (key : list byte) (peers : list WgPeer) : list WgPeer := filter (fun p => wp_key p <> key) peers.
(** [wg show <interface> dump], after the line of the interface. *)
Definition allowed_text (allowed : list (list byte)) : list byte :=
  match allowed with [] => str "(none)" | _ => join (z2b 44) allowed end.
Definition dump_line (p : WgPeer) : list byte :=
  join tab [wp_key p; wp_psk p; wp_endpoint p; allowed_text (wp_allowed p); show_u64 (wp_handshake p); show_u64 (wp_received p);
            show_u64 (wp_sent p); wp_keepalive p].
Definition dump (interface_line : list byte) (peers : list WgPeer) : list byte :=
  interface_line ++ newline :: flat_map (fun p => dump_line p ++ [newline]) peers.

(** Text without tabs, line ends and commas. *)
Definition plain_field (s : list byte) : Prop := Forall (fun b => graphic b = true /\ b <> z2b 44) s.
Definition is_counter (n : Z) : Prop := 0 <= n <= u64_max.
Record peer_wf `{Base64} (p : WgPeer) : Prop := {
  pw_key : key_ok (wp_key p) = true;
  pw_fields : plain_field (wp_psk p) /\ plain_field (wp_endpoint p) /\ plain_field (wp_keepalive p);
  pw_allowed : Forall plain_field (wp_allowed p);
  pw_counters : is_counter (wp_handshake p) /\ is_counter (wp_received p) /\ is_counter (wp_sent p);
}.

(** The documented behaviour of [wg] on an interface of the world: what a
    command does when it succeeds; when it does not, nothing or that. *)
Definition succeeded (r : result Failure Output) (text : list byte) : Prop :=
  exists o, r = Ok o /\ out_success o = true /\ out_stdout o = text.
Class WgDevice (W : Type) := {
  wg_peers : W -> list WgPeer;
  wg_public : list byte -> list byte;
}.
Class WgLaws (W : Type) `{Shell W, Base64, !WgDevice W} (interface : list byte) : Prop := {
  public_ok k : key_ok (wg_public k) = true;
  device_wf w : Forall peer_wf (wg_peers w) /\ NoDup (map wp_key (wg_peers w));
  wg_pubkey k w r w' : shell (str "wg") [str "pubkey"] (Some (k ++ [newline])) w = (r, w') ->
    wg_peers w' = wg_peers w /\ forall o, r = Ok o -> out_success o = true -> out_stdout o = wg_public k ++ [newline];
  wg_set_spec key psk network w r w' :
    shell (str "wg") [str "set"; interface; str "peer"; key; str "preshared-key"; str "/dev/stdin"; str "allowed-ips"; network]
      (Some (psk ++ [newline])) w = (r, w') ->
    wg_peers w' = wg_set key psk network (wg_peers w) \/
    wg_peers w' = wg_peers w /\ forall o, r = Ok o -> out_success o = false;
  wg_remove_spec key w r w' :
    shell (str "wg") [str "set"; interface; str "peer"; key; str "remove"] None w = (r, w') ->
    wg_peers w' = wg_remove key (wg_peers w) \/
    wg_peers w' = wg_peers w /\ forall o, r = Ok o -> out_success o = false;
  wg_dump_spec w r w' :
    shell (str "wg") [str "show"; interface; str "dump"] None w = (r, w') ->
    wg_peers w' = wg_peers w /\ forall o, r = Ok o -> out_success o = true ->
      exists line, Forall (fun b => graphic b = true \/ b = tab) line /\ out_stdout o = dump line (wg_peers w);
}.

(** * Reading the dump *)

(** A peer of the agent's: one lease and no other network. *)
Definition lease (address : list byte) : list byte := address ++ str "/32".
Definition managed_at (address : list byte) (p : WgPeer) : Prop := wp_allowed p = [lease address] /\ valid_address address = Ok tt.
Definition status_of_peer (address : list byte) (p : WgPeer) : PeerStatus :=
  mkPeerStatus (wp_key p) address (wp_handshake p) (wp_received p) (wp_sent p).

Lemma show_u64_reads n : is_counter n -> parse_uint u64_max (show_u64 n) = Some n /\ forallb is_ascii_digit (show_u64 n) = true.
Proof.
  intros [Hn Hm]. destruct (canonical_digits_exist 19 n) as (s & Hc & Hl & <-); [unfold u64_max in Hm; change (10 ^ Z.of_nat 20) with 100000000000000000000; lia|].
  assert (show_u64 (parse_digits s) = s) as ->.
  { unfold show_u64. rewrite dec_digits_parse; [apply app_nil_r|done|]. change (Z.of_nat 20) with 20 in *. lia. }
  destruct Hc as (Hne & Hd & _). split; [|done]. unfold parse_uint. destruct s as [|b s]; [done|]. rewrite bool_decide_false.
  - unfold parse_unsigned. rewrite bool_decide_false by done. rewrite Hd. by rewrite (proj2 (Z.leb_le _ _)).
  - intros ->. by cbn in Hd.
Qed.
Lemma plain_field_free s b : plain_field s -> graphic b = false \/ b = z2b 44 -> b ∉ s.
Proof. intros HF Hb Hin. unfold plain_field in HF. rewrite Forall_forall in HF. destruct (HF b Hin) as [Hg Hc]. destruct Hb as [Hb|Hb]; congruence. Qed.

Lemma split_join sep pieces : pieces <> [] -> Forall (fun p => sep ∉ p) pieces -> split_on sep (join sep pieces) = pieces.
Proof.
  intros Hne HF. induction HF as [|p pieces Hp HF IH]; [done|]. destruct pieces as [|q pieces].
  - by apply split_on_single.
  - change (join sep (p :: q :: pieces)) with (p ++ sep :: join sep (q :: pieces)). rewrite split_on_app by done. by rewrite IH.
Qed.
Lemma end_lines_app pieces rest : rest <> [] -> end_lines (pieces ++ rest) = map strip_cr pieces ++ end_lines rest.
Proof.
  intros Hr. induction pieces as [|p pieces IH]; [done|]. cbn [app map]. rewrite <- IH.
  destruct (pieces ++ rest) as [|x l] eqn:E; [apply app_eq_nil in E; tauto|]. done.
Qed.
Lemma lines_of_lines (l : list (list byte)) : Forall (fun x => newline ∉ x /\ z2b 13 ∉ x) l -> lines (flat_map (fun x => x ++ [newline]) l) = l.
Proof.
  intros HF. unfold lines. assert (E : split_on newline (flat_map (fun x => x ++ [newline]) l) = l ++ [[]]).
  { induction HF as [|x l [Hx _] HF IH]; [done|]. cbn [flat_map]. rewrite <- app_assoc. cbn [app]. rewrite split_on_app by done. by rewrite IH. }
  rewrite E, end_lines_app by done. cbn [end_lines]. rewrite bool_decide_true, app_nil_r by done.
  clear E. induction HF as [|x l [_ Hx] HF IH]; [done|]. cbn [map]. rewrite IH. f_equal.
  unfold strip_cr. destruct (strip_suffix x [z2b 13]) as [y|] eqn:E; [|done]. apply strip_suffix_some in E. subst x.
  exfalso. apply Hx, elem_of_app. right. by left.
Qed.

Section reading.
Context `{Base64Laws, !Base64Canonical}.

Lemma key_plain k : key_ok k = true -> plain_field k /\ k <> [].
Proof.
  unfold key_ok. destruct (base64_decode k) as [l|] eqn:E; [|done]. apply base64_canonical in E. subst k. intros Hl%Z.eqb_eq. split.
  - pose proof (base64_alphabet l) as HA. apply forallb_Forall in HA. eapply Forall_impl; [exact HA|].
    intros b Hb. split; [by apply base64_graphic|]. intros ->. by vm_compute in Hb.
  - apply zlen_pos. rewrite base64_length, Hl. done.
Qed.
Lemma digits_plain n : is_counter n -> plain_field (show_u64 n).
Proof.
  intros [_ Hd]%show_u64_reads. apply forallb_Forall in Hd. eapply Forall_impl; [exact Hd|].
  intros b Hb. destruct b; vm_compute in Hb; try discriminate; split; done.
Qed.
(** A field of the dump has no tab or line end. *)
Definition field_text (s : list byte) : Prop := Forall (fun b => graphic b = true) s.
Lemma plain_field_text s : plain_field s -> field_text s.
Proof. intros HF. eapply Forall_impl; [exact HF|]. naive_solver. Qed.
Lemma field_free s b : field_text s -> graphic b = false -> b ∉ s.
Proof. intros HF Hb Hin. unfold field_text in HF. rewrite Forall_forall in HF. specialize (HF b Hin). congruence. Qed.
Lemma trim_line s : field_text s -> s <> [] -> trim (s ++ [newline]) = s.
Proof.
  intros HF Hne. assert (HA : forallb is_ascii (s ++ [newline]) = true).
  { rewrite forallb_app, andb_true_iff. split; [|done]. apply forallb_Forall. eapply Forall_impl; [exact HF|]. intros b Hb. unfold graphic in Hb. bool_prop.
    apply Z.ltb_lt. lia. }
  assert (HW : Forall (fun c => is_whitespace c = false) (map b2z s)).
  { rewrite Forall_fmap. eapply Forall_impl; [exact HF|]. intros b Hb. destruct b; vm_compute in Hb |- *; congruence. }
  unfold trim. pose proof (chars_ascii _ HA) as Hc. rewrite Hc. apply chars_inv in Hc as [_ Hs]. rewrite map_app in Hs |- *. cbn [map] in *.
  rewrite encode_chars_app in Hs. unfold trim_chars.
  assert (ES : forall l, Forall (fun c => is_whitespace c = false) l -> l <> [] -> forall t, trim_start (l ++ t) = l ++ t).
  { intros l Hl Hn t. destruct Hl as [|c l Hc _]; [done|]. cbn [app trim_start]. by rewrite Hc. }
  rewrite ES by (done || by destruct s). rewrite rev_app_distr. cbn [rev app trim_start].
  change (is_whitespace (b2z newline)) with true. cbn iota.
  assert (HR : Forall (fun c => is_whitespace c = false) (rev (map b2z s))) by (rewrite rev_alt; by apply Forall_reverse).
  assert (HN : rev (map b2z s) <> []) by (intros E%(f_equal length); rewrite length_rev, length_map in E; by destruct s).
  rewrite <- (app_nil_r (rev (map b2z s))), (ES _ HR HN).
  rewrite app_nil_r, rev_involutive. change (encode_chars [b2z newline]) with [newline] in Hs. by apply app_inj_tail in Hs as [<- _].
Qed.
Lemma allowed_field l : Forall plain_field l -> field_text (allowed_text l).
Proof.
  intros HF. destruct l as [|x l]; [by repeat constructor|]. unfold allowed_text.
  induction HF as [|y l' Hy HF IH]; [constructor|]. destruct l' as [|z l'].
  - by apply plain_field_text.
  - change (join (z2b 44) (y :: z :: l')) with (y ++ z2b 44 :: join (z2b 44) (z :: l')). unfold field_text. rewrite Forall_app, Forall_cons.
    split_and!; [by apply plain_field_text|done|exact IH].
Qed.
Lemma row_fields p : peer_wf p -> Forall field_text
  [wp_key p; wp_psk p; wp_endpoint p; allowed_text (wp_allowed p); show_u64 (wp_handshake p); show_u64 (wp_received p); show_u64 (wp_sent p); wp_keepalive p].
Proof.
  intros [Hk (F1 & F2 & F3) Ha (F4 & F5 & F6)]. apply key_plain in Hk as [Hk _].
  repeat constructor; try (apply plain_field_text; assumption); try (by apply plain_field_text, digits_plain). by apply allowed_field.
Qed.
Lemma dump_line_bytes p b : peer_wf p -> graphic b = false -> b <> tab -> b ∉ dump_line p.
Proof.
  intros Hp%row_fields Hb Ht. unfold dump_line. induction Hp as [|x l Hx HF IH]; [by apply not_elem_of_nil|]. destruct l as [|y l].
  - by apply field_free.
  - change (join tab (x :: y :: l)) with (x ++ tab :: join tab (y :: l)). rewrite elem_of_app, elem_of_cons.
    pose proof (field_free x b Hx Hb). tauto.
Qed.
Lemma parse_row_fields p : peer_wf p -> split_on tab (dump_line p) =
  [wp_key p; wp_psk p; wp_endpoint p; allowed_text (wp_allowed p); show_u64 (wp_handshake p); show_u64 (wp_received p); show_u64 (wp_sent p); wp_keepalive p].
Proof.
  intros Hp%row_fields. unfold dump_line. apply split_join; [done|]. eapply Forall_impl; [exact Hp|]. intros s Hs. by apply field_free.
Qed.
(** A row is read exactly where the peer has one lease. *)
Lemma parse_row_managed p address : peer_wf p -> managed_at address p -> parse_peer_row (dump_line p) = Ok (status_of_peer address p).
Proof.
  intros Hp [Ha Hv]. unfold parse_peer_row. rewrite parse_row_fields, Ha by done. destruct Hp as [Hk _ Hal (F4 & F5 & F6)].
  unfold validate_key. rewrite Hk. cbn [allowed_text join]. rewrite Ha, Forall_singleton in Hal.
  rewrite split_on_single by (by apply plain_field_free; [|right]). unfold lease.
  assert (E : strip_suffix (address ++ str "/32") (str "/32") = Some address) by (by apply strip_suffix_some).
  rewrite E. cbn [ok_or]. rewrite Hv. unfold parse_u64. by rewrite (proj1 (show_u64_reads _ F4)), (proj1 (show_u64_reads _ F5)), (proj1 (show_u64_reads _ F6)).
Qed.
Lemma parse_row_lease p s : peer_wf p -> parse_peer_row (dump_line p) = Ok s -> managed_at (ps_address s) p /\ s = status_of_peer (ps_address s) p.
Proof.
  intros Hp. unfold parse_peer_row. rewrite parse_row_fields by done. destruct Hp as [Hk _ Hal (F4 & F5 & F6)].
  unfold validate_key. rewrite Hk. destruct (wp_allowed p) as [|x [|y l]] eqn:Ea; cbn [allowed_text].
  - assert (E : split_on (z2b 44) (str "(none)") = [str "(none)"]) by reflexivity. rewrite E.
    assert (E2 : strip_suffix (str "(none)") (str "/32") = None) by reflexivity. by rewrite E2.
  - rewrite Forall_singleton in Hal. cbn [join]. rewrite split_on_single by (by apply plain_field_free; [|right]).
    destruct (strip_suffix x (str "/32")) as [a|] eqn:Ex; [|done]. cbn [ok_or]. apply strip_suffix_some in Ex. subst x.
    destruct (valid_address a) as [[]|] eqn:Ev; [|done]. unfold parse_u64. rewrite (proj1 (show_u64_reads _ F4)), (proj1 (show_u64_reads _ F5)), (proj1 (show_u64_reads _ F6)). cbn [ok_or].
    intros E. assert (s = mkPeerStatus (wp_key p) a (wp_handshake p) (wp_received p) (wp_sent p)) as -> by congruence. cbn [ps_address]. done.
  - rewrite split_join; [|done|]; [done|]. eapply Forall_impl; [exact Hal|]. intros q Hq. by apply plain_field_free; [|right].
Qed.
End reading.
