(* ===== verification/WireGuardProps.v ===== *)
(** What the WireGuard agent does to its interface, and what the server's
    control achieves through it.

    A WireGuard interface in memory: witnesses of the theorems on the agent. *)

From Stdlib Require Import ZArith Lia.
From stdpp Require Import gmap strings.
From S2P Require Import Prelude Order Utf8 Str Net SharePolicy Instances Tunnel Grant Contract Control Validation SealedDemo Meter StdText Config ConfigProps Engines DataPlane EngineControls Api ApiTransports ControlProps ApiDemo Agents WireGuardAgent.

(** * Programs and the interface *)

Section device.
Context {W : Type} `{Shell W, Base64Laws, !Base64Canonical, !WgDevice W} (config : AgentConfig) `{!WgLaws W (wa_interface config)}.

Lemma run_with_spec program arguments input w r w' : run_with program arguments input w = (r, w') ->
  exists s, shell program arguments input w = (s, w') /\ forall o, r = Ok o -> s = Ok o /\ out_success o = true.
Proof.
  intros [(o & w1 & Es & Hr)|(e & Es & ->)]%bind_task_inv; [|by eexists]. apply of_result_inv in Hr as [-> ->]. eexists. split; [exact Es|].
  intros o'. unfold validate_output. destruct (negb _); [|done]. destruct (out_success o) eqn:Eo; [|done]. intros [= <-]. done.
Qed.
Lemma printed_spec o what text : printed o what = Ok text -> text = out_stdout o.
Proof. unfold printed. by destruct (valid_utf8 _); intros [= <-]. Qed.

(** The dump, line by line. *)
Lemma dump_rows line w : Forall (fun b => graphic b = true \/ b = tab) line ->
  filter (fun line => line <> []) (drop 1 (lines (dump line (wg_peers w)))) = map dump_line (wg_peers w).
Proof.
  intros Hl. destruct (device_wf (interface := wa_interface config) w) as [Hw _].
  assert (E : dump line (wg_peers w) = flat_map (fun x => x ++ [newline]) (line :: map dump_line (wg_peers w))).
  { unfold dump. cbn [flat_map]. rewrite <- app_assoc. cbn [app]. do 2 f_equal. by rewrite !flat_map_concat_map, map_map. }
  rewrite E, lines_of_lines.
  - cbn [drop]. apply filter_all. rewrite Forall_fmap. eapply Forall_impl; [exact Hw|]. intros p [Hk _ _ _]. apply key_plain in Hk as [_ Hk].
    cbn. unfold dump_line. cbn [join]. destruct (wp_key p); [done|]. by cbn [app].
  - constructor.
    + rewrite Forall_forall in Hl. split; intros Hin; destruct (Hl _ Hin) as [E2|E2]; vm_compute in E2; discriminate.
    + rewrite Forall_fmap. eapply Forall_impl; [exact Hw|]. intros p Hp. split; by apply dump_line_bytes.
Qed.
Lemma rows_read peers l : Forall peer_wf peers -> Forall2 (fun row s => parse_peer_row row = Ok s) (map dump_line peers) l ->
  Forall2 (fun p s => managed_at (ps_address s) p /\ s = status_of_peer (ps_address s) p) peers l.
Proof.
  intros Hw. revert l. induction Hw as [|p ps Hp _ IH]; intros l HC; cbn [map] in HC.
  - inversion HC. constructor.
  - inversion HC as [|? s ? l' HP HC']. subst. constructor; [by apply parse_row_lease|by apply IH].
Qed.
Lemma peer_statuses_spec w r w' : peer_statuses config w = (r, w') ->
  wg_peers w' = wg_peers w /\
  forall l, r = Ok l -> Forall2 (fun p s => managed_at (ps_address s) p /\ s = status_of_peer (ps_address s) p) (wg_peers w) l.
Proof.
  intros [(o & w1 & ER & Hr)|(e & ER & ->)]%bind_task_inv; apply run_with_spec in ER as (s & ES & Ho);
    apply (wg_dump_spec (interface := wa_interface config)) in ES as [Ew Hd]; [|done].
  destruct (Ho o eq_refl) as [-> Hs]. destruct (Hd o eq_refl Hs) as (line & Hl & Eo).
  apply bind_task_inv in Hr as [(text & w2 & [Ep ->]%of_result_inv & [-> ->]%of_result_inv)|(e & [_ ->]%of_result_inv & ->)]; [|done].
  split; [done|]. intros l. symmetry in Ep. apply printed_spec in Ep as ->. unfold parse_peer_statuses. rewrite Eo, dump_rows by done.
  destruct (device_wf (interface := wa_interface config) w) as [Hw _]. intros HC%collect_ok_forall2.
  by apply rows_read.
Qed.

Lemma derive_public_key_spec k w r w' : derive_public_key k w = (r, w') -> wg_peers w' = wg_peers w /\ (forall key, r = Ok key -> key = wg_public k).
Proof.
  intros [(o & w1 & ER & Hr)|(e & ER & ->)]%bind_task_inv; apply run_with_spec in ER as (s & ES & Ho);
    apply (wg_pubkey (interface := wa_interface config)) in ES as [Ew Hd]; [|done].
  destruct (Ho o eq_refl) as [-> Hs]. specialize (Hd o eq_refl Hs).
  apply bind_task_inv in Hr as [(text & w2 & [Ep ->]%of_result_inv & Hr)|(e & [_ ->]%of_result_inv & ->)]; [|done].
  symmetry in Ep. apply printed_spec in Ep as ->.
  apply bind_task_inv in Hr as [(u & w2 & [_ ->]%of_result_inv & [-> ->]%of_result_inv)|(e & [_ ->]%of_result_inv & ->)]; [|done].
  split; [done|]. intros key [= <-]. rewrite Hd.
  pose proof (public_ok (interface := wa_interface config) k) as HK. apply key_plain in HK as [HP HN]. apply trim_line; [by apply plain_field_text|done].
Qed.
Lemma install_peer_spec peer w r w' : install_peer config peer w = (r, w') ->
  let set := wg_set (wg_public (peer_private_key peer)) (peer_preshared_key peer) (lease (peer_address peer)) (wg_peers w) in
  (wg_peers w' = set \/ wg_peers w' = wg_peers w) /\ (r = Ok tt -> wg_peers w' = set).
Proof.
  intros [(key & w1 & HD & Hr)|(e & HD & ->)]%bind_task_inv; apply derive_public_key_spec in HD as [Ew Hk]; [|naive_solver].
  rewrite (Hk key eq_refl) in Hr. rewrite <- Ew.
  apply bind_task_inv in Hr as [(o & w2 & HS & [-> ->]%of_result_inv)|(e & HS & ->)]; apply run_with_spec in HS as (s & ES & Ho);
    apply (wg_set_spec (interface := wa_interface config)) in ES; [|naive_solver].
  destruct (Ho o eq_refl) as [-> Hs]. destruct ES as [E|[_ Hf]]; [by auto|]. specialize (Hf o eq_refl). congruence.
Qed.
Lemma remove_public_key_spec key w r w' : remove_public_key config key w = (r, w') ->
  (wg_peers w' = wg_remove key (wg_peers w) \/ wg_peers w' = wg_peers w) /\ (r = Ok tt -> wg_peers w' = wg_remove key (wg_peers w)).
Proof.
  intros [(u & w1 & [_ ->]%of_result_inv & Hr)|(e & [_ ->]%of_result_inv & ->)]%bind_task_inv; [|naive_solver].
  apply bind_task_inv in Hr as [(o & w2 & HS & [-> ->]%of_result_inv)|(e & HS & ->)]; apply run_with_spec in HS as (s & ES & Ho);
    apply (wg_remove_spec (interface := wa_interface config)) in ES; [|naive_solver].
  destruct (Ho o eq_refl) as [-> Hs]. destruct ES as [E|[_ Hf]]; [by auto|]. specialize (Hf o eq_refl). congruence.
Qed.

(** * Removing *)

(** The address of a peer's one lease. *)
Definition lease_of (p : WgPeer) : option (list byte) := match wp_allowed p with [n] => strip_suffix n (str "/32") | _ => None end.
Definition leased (f : list byte -> bool) (p : WgPeer) : bool := match lease_of p with Some address => f address | None => false end.
Lemma lease_of_managed a p : managed_at a p -> lease_of p = Some a.
Proof. intros [E _]. unfold lease_of. rewrite E. by apply strip_suffix_some. Qed.

Lemma internal_inv {A} (m : task W Failure A) w r w' : internal m w = (r, w') -> exists r0, m w = (r0, w') /\ r = map_err (fun _ => internal_error) r0.
Proof. apply fails_as_inv. Qed.
Lemma remove_each_spec (f : list byte -> bool) l w r w' :
  for_each (fun s => if f (ps_address s) then internal (remove_public_key config (ps_public_key s)) else give tt) l w = (r, w') ->
  wg_peers w' `sublist_of` wg_peers w /\
  (r = Ok tt -> wg_peers w' = filter (fun p => wp_key p ∉ map ps_public_key (filter (fun s => f (ps_address s) = true) l)) (wg_peers w)).
Proof.
  revert w. induction l as [|s l IH]; intros w; cbn [for_each].
  - unfold give. intros E. assert (w' = w) as -> by congruence. split; [done|]. intros _. symmetry. apply filter_all, Forall_forall. intros p _. apply not_elem_of_nil.
  - intros [([] & w1 & Hs & Hl)|(e & Hs & ->)]%bind_task_inv.
    + destruct (IH w1 Hl) as [Hsub Hok]. destruct (f (ps_address s)) eqn:Ef.
      * apply internal_inv in Hs as ([[]|] & Hs & Er); [|done]. apply remove_public_key_spec in Hs as [_ Hr]. specialize (Hr eq_refl).
        split; [etrans; [exact Hsub|]; rewrite Hr; apply sublist_filter|]. intros Hk. rewrite (Hok Hk), Hr. unfold wg_remove. rewrite list_filter_filter.
        apply list_filter_iff. intros p. rewrite filter_cons_True by done. cbn [map]. rewrite not_elem_of_cons. tauto.
      * assert (w1 = w) as -> by (unfold give in Hs; congruence). split; [done|]. intros Hk. rewrite (Hok Hk). by rewrite filter_cons_False by (by rewrite Ef).
    + destruct (f (ps_address s)); [|done]. apply internal_inv in Hs as (r0 & Hs & _). apply remove_public_key_spec in Hs as [[->| ->] _]; [|done].
      split; [apply sublist_filter|done].
Qed.
(** Every peer whose lease is asked for is removed, and no other. *)
Lemma remove_where_spec (f : list byte -> bool) w r w' : remove_where config f w = (r, w') ->
  wg_peers w' `sublist_of` wg_peers w /\
  (~ Forall (fun p => exists a, managed_at a p) (wg_peers w) -> r = Err internal_error /\ wg_peers w' = wg_peers w) /\
  (r = Ok tt -> Forall (fun p => exists a, managed_at a p) (wg_peers w) /\ wg_peers w' = filter (fun p => leased f p = false) (wg_peers w)).
Proof.
  intros [(l & w1 & HS & HL)|(e & HS & ->)]%bind_task_inv; apply internal_inv in HS as (r0 & HS & Er); apply peer_statuses_spec in HS as [Ew Hl].
  - destruct r0 as [l0|]; [|done]. assert (l0 = l) as -> by (cbn in Er; congruence). specialize (Hl l eq_refl).
    assert (HM : Forall (fun p => exists a, managed_at a p) (wg_peers w)) by (eapply Forall2_Forall_l; [exact Hl|]; apply Forall_forall; naive_solver).
    apply remove_each_spec in HL as [Hsub Hok]. rewrite Ew in Hsub, Hok. split; [done|]. split; [done|]. intros Hk. split; [done|]. rewrite (Hok Hk).
    apply filter_ext_elem. intros p Hp. destruct (device_wf (interface := wa_interface config) w) as [_ HN]. clear Hok Hk HM. split.
    + intros Hn. apply list_elem_of_lookup in Hp as [i Hi]. destruct (Forall2_lookup_l _ _ _ _ _ Hl Hi) as (s & Hs & Hm & Es).
      unfold leased. rewrite (lease_of_managed _ _ Hm). destruct (f (ps_address s)) eqn:Ef; [|done]. exfalso. apply Hn. apply elem_of_map. exists s.
      split; [by rewrite Es|]. apply list_elem_of_filter. split; [done|]. by eapply list_elem_of_lookup_2.
    + intros Hf (s & Ek & [Hs Hin]%list_elem_of_filter)%elem_of_map. apply list_elem_of_lookup in Hin as [j Hj].
      destruct (Forall2_lookup_r _ _ _ _ _ Hl Hj) as (q & Hq & Hm & Es). assert (q = p) as ->.
      { apply list_elem_of_lookup in Hp as [i Hi]. assert (i = j) as ->; [|congruence]. eapply NoDup_lookup; [exact HN|..].
        - rewrite list_lookup_fmap, Hi. done.
        - rewrite list_lookup_fmap, Hq. cbn. rewrite Ek, Es. done. }
      unfold leased in Hf. rewrite (lease_of_managed _ _ Hm) in Hf. congruence.
  - split; [by rewrite Ew|]. split; [|done]. intros _. destruct r0 as [l|]; [done|]. cbn in Er. split; [congruence|done].
Qed.

(** * Installing *)

Lemma elem_of_set key psk network peers q : q ∈ wg_set key psk network peers <->
  (exists p, p ∈ peers /\ wp_key p = key /\ q = with_allowed [network] (with_psk psk p)) \/
  (exists p, p ∈ peers /\ wp_key p <> key /\ q = with_allowed (filter (fun n => n <> network) (wp_allowed p)) p) \/
  (key ∉ map wp_key peers /\ q = mkWg key psk (str "(none)") [network] 0 0 0 (str "off")).
Proof.
  unfold wg_set. case_bool_decide as Hk.
  - rewrite elem_of_map. split.
    + intros (p & -> & Hp). case_bool_decide; naive_solver.
    + intros [(p & Hp & Ek & ->)|[(p & Hp & Ek & ->)|[? _]]]; [..|done]; exists p; split; [|done| |done]; by case_bool_decide.
  - rewrite elem_of_app, elem_of_map, list_elem_of_singleton. split.
    + intros [(p & -> & Hp)| ->]; [|by auto]. right. left. exists p. split_and!; [done| |done]. intros E. apply Hk, elem_of_map. by exists p.
    + intros [(p & Hp & Ek & ->)|[(p & Hp & Ek & ->)|[? ->]]]; [|naive_solver..]. destruct Hk. apply elem_of_map. by exists p.
Qed.
(** A peer of a request, as the interface has it. *)
Definition installed (r : ManagedPeer) (p : WgPeer) : Prop :=
  wp_key p = wg_public (peer_private_key r) /\ wp_psk p = peer_preshared_key r /\ wp_allowed p = [lease (peer_address r)].
Definition set_of (r : ManagedPeer) : list WgPeer -> list WgPeer :=
  wg_set (wg_public (peer_private_key r)) (peer_preshared_key r) (lease (peer_address r)).
Lemma lease_inj a b : lease a = lease b -> a = b.
Proof. apply app_inv_tail. Qed.
Lemma set_installs r peers : exists p, p ∈ set_of r peers /\ installed r p.
Proof.
  destruct (decide (wg_public (peer_private_key r) ∈ map wp_key peers)) as [(p & Ek & Hp)%elem_of_map|Hn].
  - exists (with_allowed [lease (peer_address r)] (with_psk (peer_preshared_key r) p)). split; [apply elem_of_set; left; by eauto|]. by split.
  - eexists. split; [apply elem_of_set; right; right; by split|]. by split.
Qed.
Lemma set_keeps r r' p peers : p ∈ peers -> installed r' p -> wg_public (peer_private_key r) <> wg_public (peer_private_key r') ->
  peer_address r <> peer_address r' -> p ∈ set_of r peers.
Proof.
  intros Hp (Hk & Hs & Ha) Hne Had. apply elem_of_set. right. left. exists p. split_and!; [done|congruence|].
  rewrite Ha. rewrite filter_cons_True, filter_nil by (intros E%lease_inj; congruence). rewrite <- Ha. by destruct p.
Qed.
(** What the installations of a request leave: its peers, and of the others
    only what no peer of the request took. *)
Lemma install_all rs peers done :
  NoDup (map (fun r => wg_public (peer_private_key r)) (done ++ rs)) -> NoDup (map peer_address (done ++ rs)) ->
  (forall r, r ∈ done -> exists p, p ∈ peers /\ installed r p) ->
  (forall p n, p ∈ peers -> n ∈ wp_allowed p -> (exists r, r ∈ done /\ installed r p) \/ n ∉ map (fun r => lease (peer_address r)) done) ->
  let after := fold_left (fun l r => set_of r l) rs peers in
  (forall r, r ∈ done ++ rs -> exists p, p ∈ after /\ installed r p) /\
  (forall p n, p ∈ after -> n ∈ wp_allowed p ->
     (exists r, r ∈ done ++ rs /\ installed r p) \/
     n ∉ map (fun r => lease (peer_address r)) (done ++ rs) /\ exists q, q ∈ peers /\ wp_key q = wp_key p /\ n ∈ wp_allowed q).
Proof.
  revert peers done. induction rs as [|r rs IH]; intros peers done HK HA Hin Hall; cbn [fold_left].
  - rewrite app_nil_r. split; [done|]. intros p n Hp Hn. destruct (Hall p n Hp Hn); [by left|right]. split; [done|]. by exists p.
  - assert (Hr : forall r', r' ∈ done -> wg_public (peer_private_key r) <> wg_public (peer_private_key r') /\ peer_address r <> peer_address r').
    { intros r' Hr'. rewrite !map_app in HK, HA. cbn [map] in HK, HA. apply NoDup_app in HK as (_ & HK & _), HA as (_ & HA & _).
      split; intros E.
      - apply (HK (wg_public (peer_private_key r'))); [apply elem_of_map; by exists r'|rewrite <- E; left].
      - apply (HA (peer_address r')); [apply elem_of_map; by exists r'|rewrite <- E; left]. }
    destruct (IH (set_of r peers) (done ++ [r])) as [H1' H2'].
    + by rewrite <- app_assoc.
    + by rewrite <- app_assoc.
    + intros r' [Hr'| ->%list_elem_of_singleton]%elem_of_app; [|apply set_installs]. destruct (Hin r' Hr') as (p & Hp & Hi). exists p. split; [|done].
      destruct (Hr r' Hr'). by eapply set_keeps.
    + intros p n Hp Hn. apply elem_of_set in Hp as [(q & Hq & Ek & ->)|[(q & Hq & Ek & ->)|[Hno ->]]]; cbn [wp_allowed with_allowed] in Hn.
      * left. exists r. split; [apply elem_of_app; right; by left|]. by split.
      * apply list_elem_of_filter in Hn as [Hne Hn]. destruct (Hall q n Hq Hn) as [(r' & Hr' & Hi)|Hno].
        -- left. exists r'. split; [apply elem_of_app; by left|]. destruct Hi as (K1 & K2 & K3). split_and!; [done..|]. cbn [wp_allowed with_allowed].
           rewrite K3. rewrite filter_cons_True, filter_nil; [done|]. intros E%lease_inj. by destruct (Hr r' Hr').
        -- right. rewrite map_app, not_elem_of_app. split; [done|]. cbn [map]. rewrite list_elem_of_singleton. done.
      * left. exists r. split; [apply elem_of_app; right; by left|]. by split.
    + rewrite <- app_assoc in H1', H2'. split; [exact H1'|]. intros p n Hp Hn. destruct (H2' p n Hp Hn) as [?|[Hno (q & Hq & Ek & Hnq)]]; [by left|].
      right. split; [done|]. apply elem_of_set in Hq as [(q' & Hq' & Ek' & ->)|[(q' & Hq' & Ek' & ->)|[_ ->]]]; cbn [wp_allowed with_allowed wp_key] in *.
      * apply list_elem_of_singleton in Hnq as ->. exfalso. apply Hno. apply elem_of_map. exists r. split; [done|]. apply elem_of_app. right. by left.
      * exists q'. apply list_elem_of_filter in Hnq as [_ Hnq]. done.
      * apply list_elem_of_singleton in Hnq as ->. exfalso. apply Hno. apply elem_of_map. exists r. split; [done|]. apply elem_of_app. right. by left.
Qed.
Lemma install_each_spec rs w r w' : for_each (fun peer => internal (install_peer config peer)) rs w = (r, w') -> r = Ok tt ->
  wg_peers w' = fold_left (fun l r => set_of r l) rs (wg_peers w).
Proof.
  revert w. induction rs as [|peer rs IH]; intros w; cbn [for_each fold_left].
  - unfold give. intros E _. by assert (w' = w) as -> by congruence.
  - intros [([] & w1 & Hs & Hl)|(e & Hs & ->)]%bind_task_inv; [|done]. intros Hr. rewrite (IH w1 Hl Hr). f_equal.
    apply internal_inv in Hs as ([[]|] & Hs & Er); [|done]. by apply install_peer_spec in Hs as [_ ->].
Qed.
Lemma desired_spec peers desired s : desired_addresses peers desired = Ok s ->
  s = desired ∪ list_to_set (map peer_address peers) /\ NoDup (map peer_address peers) /\ Forall (fun p => validate_peer p = Ok tt) peers /\
  Forall (fun p => peer_address p ∉ desired) peers.
Proof.
  revert desired. induction peers as [|p peers IH]; intros desired; cbn [desired_addresses map].
  - intros [= <-]. split_and!; [set_solver|constructor..].
  - destruct (validate_peer p) as [[]|] eqn:Ev; [|done]. cbn [map_err]. case_bool_decide as Hd; [|done].
    intros (-> & HN & HV & HF)%IH. rewrite Forall_forall in HF. split_and!.
    + rewrite list_to_set_cons. set_solver.
    + constructor; [|done]. intros (q & E & Hq)%elem_of_map. specialize (HF q Hq). set_solver.
    + by constructor.
    + constructor; [done|]. apply Forall_forall. intros q Hq. specialize (HF q Hq). set_solver.
Qed.

(** * The agent's requests *)

Lemma upsert_spec peer w r w' : upsert_peer config peer w = (r, w') -> r = Ok 204 ->
  validate_peer peer = Ok tt /\ wg_peers w' = set_of peer (wg_peers w).
Proof.
  intros [([] & w1 & [Hv ->]%of_result_inv & Hr)|(e & _ & ->)]%bind_task_inv; [|done].
  intros ->. apply bind_task_inv in Hr as [([] & w2 & Hi & [_ ->]%of_result_inv)|(e & _ & ?)]; [|done].
  apply internal_inv in Hi as ([[]|] & Hi & Er); [|done]. apply install_peer_spec in Hi as [_ Hi]. split; [|by apply Hi].
  by destruct (validate_peer peer) as [[]|].
Qed.

(** after a reconciliation the interface serves the request: each of its
    peers has its keys and its lease, and any peer that may send at all is one
    of the request's - for a request whose public keys are distinct. *)
Theorem reconcile_serves_request request w w' :
  reconcile_peers config request w = (Ok 204, w') ->
  NoDup (map (fun r => wg_public (peer_private_key r)) (reconcile_peers_of request)) ->
  (forall r, r ∈ reconcile_peers_of request -> exists p, p ∈ wg_peers w' /\ installed r p) /\
  (forall p, p ∈ wg_peers w' -> wp_allowed p <> [] -> exists r, r ∈ reconcile_peers_of request /\ installed r p).
Proof.
  unfold reconcile_peers. set (rs := reconcile_peers_of request). destruct (_ <? _); [done|].
  intros [(desired & w1 & [Hd ->]%of_result_inv & Hr)|(e & _ & ?)]%bind_task_inv HK; [|done].
  symmetry in Hd. apply desired_spec in Hd as (Hd & HN & _ & _). rewrite union_empty_l_L in Hd.
  apply bind_task_inv in Hr as [([] & w2 & Hrem & Hr)|(e & _ & ?)]; [|done].
  apply remove_where_spec in Hrem as (_ & _ & Hrem). destruct (Hrem eq_refl) as [HM E2].
  apply bind_task_inv in Hr as [([] & w3 & Hi & [_ ->]%of_result_inv)|(e & _ & ?)]; [|done]. apply install_each_spec in Hi as ->; [|done].
  destruct (install_all rs (wg_peers w2) []) as [HA HB]; [done|done|by intros r ?%not_elem_of_nil|intros p n _ _; right; apply not_elem_of_nil|].
  split; [exact HA|]. intros p Hp Hne. destruct (wp_allowed p) as [|n l] eqn:Ea; [done|].
  destruct (HB p n Hp) as [?|[Hno (q & Hq & _ & Hn)]]; [rewrite Ea; left|done|]. exfalso. rewrite E2 in Hq. apply list_elem_of_filter in Hq as [Hl Hq].
  rewrite Forall_forall in HM. destruct (HM q Hq) as [a Ha]. unfold leased in Hl. rewrite (lease_of_managed _ _ Ha) in Hl.
  apply bool_decide_eq_false in Hl. destruct Ha as [Ea' _]. rewrite Ea' in Hn. apply list_elem_of_singleton in Hn as ->.
  destruct (decide (a ∈ desired)) as [Hin|]; [|done]. rewrite Hd in Hin. apply elem_of_list_to_set, elem_of_map in Hin as (r & -> & Hr).
  apply Hno, elem_of_map. by exists r.
Qed.

(** What asks for the list of peers first. *)
Inductive ListingOp := ListPeers | Reconcile (request : ReconcilePeers) | Remove (request : RemovePeers).
Definition run_op (op : ListingOp) (w : W) : bool * W :=
  match op with
  | ListPeers => let '(r, w) := list_peers config w in (is_ok r, w)
  | Reconcile request => let '(r, w) := reconcile_peers config request w in (is_ok r, w)
  | Remove request => let '(r, w) := remove_peers config request w in (is_ok r, w)
  end.
Fixpoint run_ops (ops : list ListingOp) (w : W) : list bool * W :=
  match ops with [] => ([], w) | op :: ops => let '(ok, w) := run_op op w in let '(oks, w) := run_ops ops w in (ok :: oks, w) end.
Lemma unmanaged_stuck op w : ~ Forall (fun p => exists a, managed_at a p) (wg_peers w) ->
  (run_op op w).1 = false /\ wg_peers (run_op op w).2 = wg_peers w.
Proof.
  intros HM. destruct op as [|request|request]; cbn [run_op].
  - destruct (list_peers config w) as [r w'] eqn:E. apply internal_inv in E as ([l|] & E & ->); apply peer_statuses_spec in E as [Ew Hl]; [|done].
    exfalso. apply HM. eapply Forall2_Forall_l; [by apply Hl|]. apply Forall_forall. naive_solver.
  - destruct (reconcile_peers config request w) as [r w'] eqn:E. unfold reconcile_peers in E.
    destruct (_ <? _); [apply of_result_inv in E as [-> ->]; done|].
    apply bind_task_inv in E as [(desired & w1 & [_ ->]%of_result_inv & Hr)|(e & [_ ->]%of_result_inv & ->)]; [|done].
    apply bind_task_inv in Hr as [([] & w2 & Hrem & _)|(e & Hrem & ->)];
      apply remove_where_spec in Hrem as (_ & Hrem & _); destruct (Hrem HM); done.
  - destruct (remove_peers config request w) as [r w'] eqn:E. unfold remove_peers in E.
    destruct (_ <? _); [apply of_result_inv in E as [-> ->]; done|]. destruct (existsb _ _); [apply of_result_inv in E as [-> ->]; done|].
    apply bind_task_inv in E as [([] & w2 & Hrem & _)|(e & Hrem & ->)];
      apply remove_where_spec in Hrem as (_ & Hrem & _);
      destruct (Hrem HM); done.
Qed.

(** C32: a lease given to a new session while the interface still has the peer
    of the old one stops the agent: the old peer is left without a lease, which
    the agent takes for a broken dump, so that from then on it refuses to list,
    to reconcile and to remove peers, whatever it is asked, and the interface
    stays as it is. *)
Theorem lease_reuse_stops_agent peer old w w' ops :
  old ∈ wg_peers w -> wp_allowed old = [lease (peer_address peer)] -> wp_key old <> wg_public (peer_private_key peer) ->
  upsert_peer config peer w = (Ok 204, w') ->
  Forall (fun ok => ok = false) (run_ops ops w').1 /\ wg_peers (run_ops ops w').2 = wg_peers w'.
Proof.
  intros Hin Ha Hk Hu. apply upsert_spec in Hu as [_ Hu]; [|done].
  assert (HM : ~ Forall (fun p => exists a, managed_at a p) (wg_peers w')).
  { rewrite Forall_forall. intros HM. destruct (HM (with_allowed [] old)) as [a [E _]]; [|done]. rewrite Hu. apply elem_of_set. right. left. exists old.
    split_and!; [done..|]. by rewrite Ha, filter_cons_False, filter_nil by (intros E; by apply E). }
  clear Hu. revert w' HM. induction ops as [|op ops IH]; intros w' HM; cbn [run_ops]; [done|].
  destruct (unmanaged_stuck op w' HM) as [E1 E2]. destruct (run_op op w') as [ok w2]. cbn [fst snd] in E1, E2. subst ok.
  destruct (IH w2) as [H1' H2']; [by rewrite E2|]. destruct (run_ops ops w2) as [oks w3]. cbn [fst snd] in *. split; [by constructor|congruence].
Qed.
End device.

(** * The server and the agent together *)

(** What was written reads back at the other end. *)
Class ExtractLaws (T : Type) `{Json T, !Extract T} : Prop := extract_encoded v bytes : json_to_vec v = Some bytes -> extract bytes = Ok v.

Section together.
Context {W : Type} `{Shell W, Base64Laws, !Base64Canonical, !WgDevice W} (config : AgentConfig) `{!WgLaws W (wa_interface config)}.
Context `{EngineClock W, EngineWorld W, UriParser, Texts, HeaderValues, EngineJson, Hmac, !Json AgentError}.
Context `{!Extract ManagedPeer, !Extract ReconcilePeers, !Extract RemovePeers}.
Context `{!ExtractLaws ManagedPeer, !ExtractLaws RemovePeers}.
Context (c : WireGuardConfig).

(** The network between them: a request for the manager's URL is one for the
    agent, and its answer comes back. *)
Definition delivers : Prop := forall method path authorization json body timeout w,
  world_http (mkHttp method (wg_manager_url c ++ path) authorization json body timeout) w =
  let '(response, w) := serve config (mkAgentRequest method path (Some authorization) body) w in
  (HttpAnswer (ap_status response) (Ok (ap_body response)), w).
Context (Hnet : delivers).

(** A request of the control succeeds only if its handler did. *)
Definition agent_error (e : AgentError) : Prop := success (ag_status e) = false.
Lemma error_unsuccessful e : agent_error e -> success (ap_status (error_answer e)) = false.
Proof. intros He. unfold error_answer, json_response. by destruct (json_to_vec e). Qed.
Lemma status_success (m : task W AgentError Z) w : (forall e, (m w).1 = Err e -> agent_error e) ->
  success (ap_status (status_of m w).1) = true -> exists status, (m w).1 = Ok status /\ (status_of m w).2 = (m w).2.
Proof.
  unfold status_of. destruct (m w) as [[status|e] w']; cbn [fst snd status_answer]; [by eauto|]. intros He. rewrite error_unsuccessful by auto. done.
Qed.
Lemma control_request {T} `{Json T} method path (body : T) w bytes w' : wireguard_request c method path body w = (Ok bytes, w') ->
  exists encoded, json_to_vec body = Some encoded /\
    let '(response, w1) := serve config (mkAgentRequest method path (Some (bearer (wg_manager_token c))) encoded) w in
    success (ap_status response) = true /\ w1 = w'.
Proof.
  unfold wireguard_request, bind_act, lift, encode. destruct (json_to_vec body) as [encoded|]; [|done]. cbn [ok_or].
  unfold manager_uri. destruct (uri_parse _); [|done]. unfold build. destruct (header_value_ok _); [|done]. intros HS. exists encoded. split; [done|].
  unfold http_send in HS. rewrite Hnet in HS. destruct (serve config _ w) as [response w1]. destruct (success _); [|done]. cbn [negb] in HS.
  split; [done|]. destruct (_ <? _); [done|]. congruence.
Qed.
Lemma served_json {T} `{Json T, !Extract T, !ExtractLaws T} (v : T) encoded (handler : T -> W -> AgentResponse * W) w :
  json_to_vec v = Some encoded -> with_json encoded handler w = handler v w.
Proof. intros He. unfold with_json. by rewrite (extract_encoded v). Qed.

Lemma internal_fails {A} (m : task W Failure A) w e w' : internal m w = (Err e, w') -> agent_error e.
Proof. intros ([|] & _ & E)%internal_inv; cbn in E; [done|]. by assert (e = internal_error) as -> by congruence. Qed.
Lemma upsert_fails peer w e : (upsert_peer config peer w).1 = Err e -> agent_error e.
Proof.
  destruct (upsert_peer config peer w) as [r w'] eqn:E. cbn [fst]. intros ->.
  apply bind_task_inv in E as [([] & w1 & _ & Hr)|(e' & [He _]%of_result_inv & Ee)].
  - apply bind_task_inv in Hr as [([] & w2 & _ & [? _]%of_result_inv)|(e' & Hi & Ee)]; [done|]. assert (e' = e) as -> by congruence. by eapply internal_fails.
  - destruct (validate_peer peer); [done|]. cbn in He. by assert (e = invalid_peer) as -> by congruence.
Qed.
Lemma for_each_fails {A} (f : A -> task W AgentError unit) l w e w' : (forall a w e w', f a w = (Err e, w') -> agent_error e) ->
  for_each f l w = (Err e, w') -> agent_error e.
Proof.
  intros Hf. revert w. induction l as [|a l IH]; intros w; cbn [for_each]; [done|].
  intros [([] & w1 & _ & Hl)|(e' & Ha & Ee)]%bind_task_inv; [by eapply IH|]. assert (e' = e) as -> by congruence. by eapply Hf.
Qed.
Lemma remove_fails request w e : (remove_peers config request w).1 = Err e -> agent_error e.
Proof.
  destruct (remove_peers config request w) as [r w'] eqn:E. cbn [fst]. intros ->. unfold remove_peers in E.
  destruct (_ <? _); [apply of_result_inv in E as [E _]; by assert (e = invalid_peer) as -> by congruence|].
  destruct (existsb _ _); [apply of_result_inv in E as [E _]; by assert (e = invalid_peer) as -> by congruence|].
  apply bind_task_inv in E as [([] & w2 & _ & [? _]%of_result_inv)|(e' & Hr & Ee)]; [done|]. assert (e' = e) as -> by congruence.
  apply bind_task_inv in Hr as [(l & w2 & _ & Hl)|(e' & Hi & Ee')]; [|assert (e' = e) as -> by congruence; by eapply internal_fails].
  eapply for_each_fails; [|exact Hl]. intros s w1 e1 w1'. cbn. destruct (bool_decide _); [apply internal_fails|done].
Qed.
Lemma upsert_always peer w status : (upsert_peer config peer w).1 = Ok status -> status = 204.
Proof.
  destruct (upsert_peer config peer w) as [r w'] eqn:E. cbn [fst]. intros ->.
  apply bind_task_inv in E as [([] & w1 & _ & Hr)|(e' & _ & ?)]; [|done].
  apply bind_task_inv in Hr as [([] & w2 & _ & [? _]%of_result_inv)|(e' & _ & ?)]; [congruence|done].
Qed.

(** [provision] and [kick] of the control, as the interface sees them. *)
Lemma provision_through s w w' : provision (WireGuardControl c) s w = (Ok tt, w') ->
  exists peer, managed_peer c (al_id s) (al_resource_slot s) = Some peer /\ validate_peer peer = Ok tt /\ wg_peers w' = set_of peer (wg_peers w).
Proof.
  cbn [provision WireGuardControl]. unfold bind_act at 1, lift at 1, peer_of. destruct (managed_peer c _ _) as [peer|]; [|done]. cbn [ok_or].
  unfold bind_act at 1. destruct (wireguard_request c _ _ _ w) as [[bytes|] w1] eqn:ER; [|done]. unfold done_with. intros E. assert (w1 = w') as -> by congruence.
  exists peer. split; [done|]. apply control_request in ER as (encoded & He & HS). unfold serve in HS. cbn [aq_path aq_method aq_body aq_authorization] in HS.
  destruct (negb _); [destruct HS as [HS _]; by rewrite error_unsuccessful in HS|]. rewrite bool_decide_false in HS by done. rewrite bool_decide_true in HS by done.
  rewrite (served_json peer) in HS by done. destruct (status_of (upsert_peer config peer) w) as [response w1] eqn:Es. destruct HS as [Hs ->].
  destruct (status_success (upsert_peer config peer) w) as (status & Hr & Ew); [apply upsert_fails|by rewrite Es|]. rewrite Es in Ew. cbn [snd] in Ew. subst w'.
  pose proof (upsert_always _ _ _ Hr) as ->. destruct (upsert_peer config peer w) as [r w2] eqn:EU. by eapply upsert_spec.
Qed.
Lemma kick_through l w w' : kick (WireGuardControl c) l w = (Ok tt, w') ->
  exists addresses, Forall2 (fun s a => client_address (al_resource_slot s) = Some a) l addresses /\
    wg_peers w' = filter (fun p => leased (fun a => bool_decide (a ∈ addresses)) p = false) (wg_peers w).
Proof.
  cbn [kick WireGuardControl]. unfold bind_act at 1, lift at 1. destruct (collect address_of l) as [addresses|] eqn:EC; [|done].
  unfold bind_act at 1. destruct (wireguard_request c _ _ _ w) as [[bytes|] w1] eqn:ER; [|done]. unfold done_with. intros E. assert (w1 = w') as -> by congruence.
  exists addresses. split.
  { apply collect_ok_forall2 in EC. eapply Forall2_impl; [exact EC|]. intros s a. unfold address_of. destruct (client_address _); [|done]. cbn. congruence. }
  apply control_request in ER as (encoded & He & HS). unfold serve in HS. cbn [aq_path aq_method aq_body aq_authorization] in HS.
  destruct (negb _); [destruct HS as [HS _]; by rewrite error_unsuccessful in HS|]. do 3 rewrite bool_decide_false in HS by done. rewrite bool_decide_true in HS by done.
  rewrite (served_json (mkRemovePeers addresses)) in HS by done. destruct (status_of _ w) as [response w1] eqn:Es. destruct HS as [Hs ->].
  destruct (status_success (remove_peers config (mkRemovePeers addresses)) w) as (status & Hr & Ew); [apply remove_fails|by rewrite Es|].
  rewrite Es in Ew. cbn [snd] in Ew. subst w'. destruct (remove_peers config _ w) as [r w2] eqn:EU. cbn [fst snd] in *. subst r. unfold remove_peers in EU.
  destruct (_ <? _); [done|]. destruct (existsb _ _); [done|]. cbn [remove_addresses] in EU.
  apply bind_task_inv in EU as [([] & w3 & Hrem & [_ ->]%of_result_inv)|(e & _ & ?)]; [|done]. apply (remove_where_spec config) in Hrem as (_ & _ & Hrem).
  destruct (Hrem eq_refl) as [_ ->]. apply filter_ext_elem. intros p _. unfold leased. destruct (lease_of p) as [a|]; [|done].
  assert (HI : a ∈ (list_to_set addresses : gset (list byte)) <-> a ∈ addresses) by apply elem_of_list_to_set. by rewrite (bool_decide_ext _ _ HI).
Qed.

(** C11: what the server asks of WireGuard is what the interface does, through
    the HTTP request, the agent and [wg]: a session that is provisioned has a
    peer with its keys and the lease of its slot; a kick that succeeds leaves no
    peer with the lease of a slot it named; and where the lease and the keys
    were free, a kick takes back exactly what the provision added. *)
Theorem wireguard_control_reaches_interface s w w1 :
  provision (WireGuardControl c) s w = (Ok tt, w1) ->
  exists peer address, managed_peer c (al_id s) (al_resource_slot s) = Some peer /\ client_address (al_resource_slot s) = Some address /\
    (exists p, p ∈ wg_peers w1 /\ installed peer p /\ wp_allowed p = [lease address]) /\
    (forall l w2 w3 p, kick (WireGuardControl c) l w2 = (Ok tt, w3) -> s ∈ l -> p ∈ wg_peers w3 -> wp_allowed p <> [lease address]) /\
    (forall w2, wg_public (peer_private_key peer) ∉ map wp_key (wg_peers w) -> (forall p, p ∈ wg_peers w -> lease address ∉ wp_allowed p) ->
       kick (WireGuardControl c) [s] w1 = (Ok tt, w2) -> wg_peers w2 = wg_peers w).
Proof.
  intros (peer & Hp & Hv & Ew)%provision_through. exists peer. pose proof Hp as Hm. unfold managed_peer in Hp. destruct (client_address (al_resource_slot s)) as [address|] eqn:Ea; [|done].
  assert (Hpa : peer_address peer = address) by (assert (Hp' := Hp); injection Hp' as <-; done).
  exists address. split_and!; [exact Hm|done|..].
  - rewrite Ew. destruct (set_installs peer (wg_peers w)) as (p & Hin & Hi). exists p. split_and!; [done..|]. rewrite <- Hpa. apply Hi.
  - intros l w2 w3 p (addresses & HF & E3)%kick_through Hs Hin Hal. rewrite E3 in Hin. apply list_elem_of_filter in Hin as [Hl _].
    apply list_elem_of_lookup in Hs as [i Hi]. destruct (Forall2_lookup_l _ _ _ _ _ HF Hi) as (a & Ha & Ha'). assert (a = address) as -> by congruence.
    unfold leased, lease_of in Hl. rewrite Hal in Hl. assert (E : strip_suffix (lease address) (str "/32") = Some address) by (by apply strip_suffix_some).
    rewrite E in Hl. apply bool_decide_eq_false in Hl. apply Hl. by eapply list_elem_of_lookup_2.
  - intros w2 Hk Hfree (addresses & HF & E2)%kick_through. inversion HF as [|? a ? l' Ha HF']. inversion HF'. subst. rewrite E2, Ew.
    unfold set_of, wg_set. rewrite bool_decide_false by done. rewrite Ea in Ha. assert (a = peer_address peer) as -> by congruence.
    set (old := map _ _). assert (Eo : old = wg_peers w).
    { unfold old. rewrite <- (map_id (wg_peers w)) at 2. apply map_ext_in. intros p Hp'%list_elem_of_In. rewrite filter_all; [by destruct p|].
      apply Forall_forall. intros n Hn ->. by eapply Hfree. }
    rewrite Eo, filter_app. rewrite filter_all.
    + rewrite filter_cons_False, filter_nil; [apply app_nil_r|]. unfold leased, lease_of. cbn [wp_allowed].
      assert (E : strip_suffix (lease (peer_address peer)) (str "/32") = Some (peer_address peer)) by (by apply strip_suffix_some). rewrite E.
      rewrite bool_decide_true by left. done.
    + apply Forall_forall. intros p Hin. unfold leased, lease_of. destruct (wp_allowed p) as [|n [|n' l]] eqn:Eal; [done| |done].
      destruct (strip_suffix n (str "/32")) as [b|] eqn:E; [|done]. apply bool_decide_eq_false. intros ->%list_elem_of_singleton.
      apply strip_suffix_some in E as ->. apply (Hfree p Hin). rewrite Eal. by left.
Qed.
End together.

(** * An interface in memory *)

Definition plain_field_ok (s : list byte) : bool := forallb (fun b => graphic b && negb (bool_decide (b = z2b 44))) s.
Definition counter_ok (n : Z) : bool := (0 <=? n) && (n <=? u64_max).
Definition peer_ok (p : WgPeer) : bool :=
  key_ok (wp_key p) && plain_field_ok (wp_psk p) && plain_field_ok (wp_endpoint p) && plain_field_ok (wp_keepalive p)
  && forallb plain_field_ok (wp_allowed p) && counter_ok (wp_handshake p) && counter_ok (wp_received p) && counter_ok (wp_sent p).
Definition interface_ok (peers : list WgPeer) : bool := forallb peer_ok peers && bool_decide (NoDup (map wp_key peers)).
Lemma plain_field_ok_spec s : plain_field_ok s = true -> plain_field s.
Proof.
  intros HF%forallb_Forall. eapply Forall_impl; [exact HF|]. intros b Hb. cbn beta in Hb. apply andb_true_iff in Hb as [Hg Hc].
  apply negb_true_iff, bool_decide_eq_false in Hc. done.
Qed.
Lemma peer_ok_spec p : peer_ok p = true -> peer_wf p.
Proof.
  unfold peer_ok, counter_ok. rewrite !andb_true_iff, !Z.leb_le. intros (((((((Hk & Hp) & He) & Hka) & Ha) & Hh) & Hr) & Hs).
  split; [done|by split_and!; apply plain_field_ok_spec| |by split_and!]. apply forallb_Forall in Ha. eapply Forall_impl; [exact Ha|]. apply plain_field_ok_spec.
Qed.
Lemma interface_ok_spec peers : interface_ok peers = true -> Forall peer_wf peers /\ NoDup (map wp_key peers).
Proof.
  unfold interface_ok. rewrite andb_true_iff, bool_decide_eq_true. intros [HF HN]. split; [|done]. apply forallb_Forall in HF.
  eapply Forall_impl; [exact HF|]. apply peer_ok_spec.
Qed.

Definition World := list WgPeer.
#[export] Instance memory_device : WgDevice World := {|
  wg_peers w := if interface_ok w then w else [];
  wg_public k := base64_encode (hmac_sha256 (str "public") k);
|}.
Definition printing (text : list byte) : result Failure Output := Ok (mkOutput true text []).
Definition failing_with (text : string) : result Failure Output := Ok (mkOutput false [] (str text)).
Lemma printing_out t o : printing t = Ok o -> out_stdout o = t.
Proof. unfold printing. intros E. assert (o = mkOutput true t []) as -> by congruence. done. Qed.
Lemma failing_out t o : failing_with t = Ok o -> out_success o = false.
Proof. unfold failing_with. intros E. assert (o = mkOutput false [] (str t)) as -> by congruence. done. Qed.
(** A change that leaves the interface in order is made. *)
Definition change (new : list WgPeer) (w : World) : result Failure Output * World :=
  if interface_ok new then (printing [], new) else (failing_with "Invalid argument", w).
#[export] Instance memory_shell : Shell World := fun program arguments input w =>
  if bool_decide (program = str "wg") then
    match arguments, input with
    | [command], Some line =>
      (if bool_decide (command = str "pubkey") then printing (wg_public (take (length line - 1) line) ++ [newline]) else failing_with "usage", w)
    | [command; interface; what], None =>
      (if bool_decide (command = str "show") && bool_decide (what = str "dump") then printing (dump (str "interface") (wg_peers w))
       else failing_with "usage", w)
    | [command; interface; _; key; _; _; _; network], Some line =>
      if bool_decide (command = str "set") then change (wg_set key (take (length line - 1) line) network (wg_peers w)) w else (failing_with "usage", w)
    | [command; interface; _; key; what], None =>
      if bool_decide (command = str "set") && bool_decide (what = str "remove") then change (wg_remove key (wg_peers w)) w else (failing_with "usage", w)
    | _, _ => (failing_with "usage", w)
    end
  else (failing_with "not found", w).

Lemma take_line (s : list byte) : take (length (s ++ [newline]) - 1) (s ++ [newline]) = s.
Proof. rewrite length_app. cbn [length]. rewrite Nat.add_sub. apply take_app_length. Qed.
Lemma change_spec new w r w' : change new w = (r, w') ->
  wg_peers w' = new \/ wg_peers w' = wg_peers w /\ forall o, r = Ok o -> out_success o = false.
Proof.
  unfold change. destruct (interface_ok new) eqn:E; intros Hc.
  - left. assert (w' = new) as -> by congruence. cbn [wg_peers memory_device]. by rewrite E.
  - right. assert (w' = w /\ r = failing_with "Invalid argument") as [-> ->] by (split; congruence). split; [done|]. intros o. apply failing_out.
Qed.
Lemma forallb_graphic_line s : forallb graphic s = true -> Forall (fun b => graphic b = true \/ b = tab) s.
Proof. intros HF%forallb_Forall. eapply Forall_impl; [exact HF|]. by left. Qed.
#[export] Instance memory_laws interface : WgLaws World interface.
Proof.
  split.
  - intros k. unfold key_ok. cbn [wg_public memory_device]. rewrite base64_decode_encode. unfold zlen. by rewrite hmac_length.
  - intros w. cbn [wg_peers memory_device]. destruct (interface_ok w) eqn:E; [by apply interface_ok_spec|]. split; [constructor|apply NoDup_nil_2].
  - intros k w r w' E. cbv [shell memory_shell] in E. rewrite !bool_decide_true, take_line in E by done.
    assert (w' = w /\ r = printing (wg_public k ++ [newline])) as [-> ->] by (split; congruence). split; [done|]. intros o Ho _. exact (printing_out _ _ Ho).
  - intros key psk network w r w' E. cbv [shell memory_shell] in E. rewrite !bool_decide_true, take_line in E by done. by apply change_spec in E.
  - intros key w r w' E. cbv [shell memory_shell] in E. rewrite !bool_decide_true in E by done. by apply change_spec in E.
  - intros w r w' E. cbv [shell memory_shell] in E. rewrite !bool_decide_true in E by done. cbn [andb] in E.
    assert (w' = w /\ r = printing (dump (str "interface") (wg_peers w))) as [-> ->] by (split; congruence). split; [done|].
    intros o Ho _. exists (str "interface"). split; [|exact (printing_out _ _ Ho)]. apply forallb_graphic_line. vm_compute. reflexivity.
Qed.

(** * The agent on it *)

Definition demo_agent : AgentConfig :=
  mkAgentConfig (mkSocket (V4 0) 8788, 0) (str "ketwg0") (str "eth0") 51820 (wg_public (str "server")) demo_secret 10.
Definition demo_key (name : string) : list byte := base64_encode (hmac_sha256 (str "private") (str name)).
Definition demo_peer (name address : string) : ManagedPeer := mkPeer (demo_key name) (demo_key "psk") (str address).
Definition two_peers : ReconcilePeers := mkReconcilePeers [demo_peer "a" "10.66.0.2"; demo_peer "b" "10.66.0.3"].
(** The interface after the agent reconciled it with two sessions. *)
Definition reconciled : World := (reconcile_peers demo_agent two_peers []).2.
Lemma answers_with {A} (m : task World AgentError A) (w : World) a : (m w).1 = Ok a -> m w = (Ok a, (m w).2).
Proof. destruct (m w) as [r w']. cbn [fst snd]. by intros ->. Qed.

Lemma reconcile_serves_request_witness :
  (forall r, r ∈ reconcile_peers_of two_peers -> exists p, p ∈ wg_peers reconciled /\ installed r p) /\ length (wg_peers reconciled) = 2%nat.
Proof.
  split; [|vm_compute; reflexivity]. refine (proj1 (reconcile_serves_request demo_agent two_peers [] reconciled _ _)).
  - apply (answers_with (reconcile_peers demo_agent two_peers)). vm_compute. reflexivity.
  - apply (bool_decide_unpack _). vm_compute. exact I.
Defined.

(** The first address is given to another session without a removal. *)
Definition reused : World := (upsert_peer demo_agent (demo_peer "c" "10.66.0.2") reconciled).2.
Definition stuck_requests : list ListingOp := [ListPeers; Remove (mkRemovePeers [str "10.66.0.2"]); Reconcile (mkReconcilePeers [])].
Lemma lease_reuse_stops_agent_witness : exists old, old ∈ wg_peers reconciled /\
  Forall (fun ok => ok = false) (run_ops demo_agent stuck_requests reused).1 /\ wg_peers (run_ops demo_agent stuck_requests reused).2 = wg_peers reused.
Proof.
  assert (Hold : head (wg_peers reconciled) = Some (mkWg (wg_public (demo_key "a")) (demo_key "psk") (str "(none)") [lease (str "10.66.0.2")] 0 0 0 (str "off")))
    by (vm_compute; reflexivity).
  destruct (wg_peers reconciled) as [|old rest] eqn:E; [discriminate|]. exists old. split; [left|].
  apply (lease_reuse_stops_agent demo_agent (demo_peer "c" "10.66.0.2") old reconciled).
  - rewrite E. left.
  - assert (old = mkWg (wg_public (demo_key "a")) (demo_key "psk") (str "(none)") [lease (str "10.66.0.2")] 0 0 0 (str "off")) as -> by (cbn [head] in Hold; congruence).
    reflexivity.
  - assert (old = mkWg (wg_public (demo_key "a")) (demo_key "psk") (str "(none)") [lease (str "10.66.0.2")] 0 0 0 (str "off")) as -> by (cbn [head] in Hold; congruence).
    apply (bool_decide_unpack _). vm_compute. exact I.
  - apply (answers_with (upsert_peer demo_agent (demo_peer "c" "10.66.0.2"))). vm_compute. reflexivity.
Defined.

(** * The server's control over it *)

(** Documents of one text per line. *)
Definition to_lines (l : list (list byte)) : option (list byte) :=
  if negb (bool_decide (l = [])) && forallb (fun s => bool_decide (newline ∉ s)) l then Some (join newline l) else None.
Lemma to_lines_split l bytes : to_lines l = Some bytes -> split_on newline bytes = l.
Proof.
  unfold to_lines. destruct (_ && _) eqn:E; [|done]. apply andb_true_iff in E as [Hn HF]. intros Hb. assert (bytes = join newline l) as -> by congruence.
  apply split_join; [by apply negb_true_iff, bool_decide_eq_false in Hn|]. apply forallb_Forall in HF. eapply Forall_impl; [exact HF|].
  intros s Hs. by apply bool_decide_eq_true in Hs.
Qed.
Definition peer_lines (p : ManagedPeer) : list (list byte) := [peer_private_key p; peer_preshared_key p; peer_address p].
Definition peer_of_lines (l : list (list byte)) : option ManagedPeer :=
  match l with [private_key; preshared_key; address] => Some (mkPeer private_key preshared_key address) | _ => None end.
Definition null_json {T} : Json T := {| json_to_vec _ := None; json_from_slice _ := None |}.
#[local] Instance line_json : EngineJson :=
  {| json_peer := {| json_to_vec p := to_lines (peer_lines p); json_from_slice b := peer_of_lines (split_on newline b) |};
     json_remove_peers := {| json_to_vec q := to_lines (remove_addresses q); json_from_slice b := Some (mkRemovePeers (split_on newline b)) |};
     json_reconcile_peers := null_json; json_peers := null_json; json_openvpn := null_json;
     json_reconcile_openvpn := null_json; json_remove_openvpn := null_json; json_names := null_json; json_hysteria := null_json;
     json_online := null_json; json_ports := null_json; json_add := null_json; json_value := null_json |}.
Definition unreadable : AgentResponse := mkAgentResponse 422 [].
#[local] Instance extract_json {T} `{Json T} : Extract T := fun b => ok_or (json_from_slice b) unreadable.
#[local] Instance peer_extracts : ExtractLaws ManagedPeer.
Proof.
  intros v bytes E. cbn [json_to_vec json_peer line_json] in E. unfold extract, extract_json. cbn [json_from_slice json_peer line_json].
  rewrite (to_lines_split _ _ E). by destruct v.
Qed.
#[local] Instance removal_extracts : ExtractLaws RemovePeers.
Proof.
  intros v bytes E. cbn [json_to_vec json_remove_peers line_json] in E. unfold extract, extract_json. cbn [json_from_slice json_remove_peers line_json].
  rewrite (to_lines_split _ _ E). by destruct v.
Qed.
#[local] Instance agent_error_json : Json AgentError := null_json.
#[local] Instance demo_uri : UriParser := fun _ => Some (Some (str "http"), true).
#[local] Instance demo_texts : Texts := {| status_text _ := []; json_error := [] |}.
#[local] Instance world_clock : EngineClock World := fun w => (1, w).

Definition demo_manager : list byte := str "http://agent:8788".
Definition demo_wireguard : WireGuardConfig :=
  mkWireGuard (str "wg") demo_manager demo_secret demo_secret (demo_key "server") (str "node.example") 443 (str "node.example") (str "prefix").
#[local] Instance agent_world : EngineWorld World :=
  {| world_http r w :=
       let '(response, w) := serve demo_agent (mkAgentRequest (hr_method r) (drop (length demo_manager) (hr_uri r)) (Some (hr_authorization r)) (hr_body r)) w in
       (HttpAnswer (ap_status response) (Ok (ap_body response)), w);
     world_udp _ _ _ w := (UdpTimeout, w); world_run _ _ _ w := (RunTimeout, w);
     world_create _ _ w := (None, w); world_remove _ w := (None, w); temp_file name := name |}.
Lemma demo_delivers : delivers demo_agent demo_wireguard.
Proof.
  intros method path authorization json body timeout w. cbn [world_http agent_world hr_method hr_uri hr_authorization hr_body demo_wireguard wg_manager_url].
  by rewrite drop_app_length.
Qed.
Definition demo_allocation : SessionAllocation := mkAllocation (str "AbCdEf123456") 7.
Definition provisioned : World := (provision (WireGuardControl demo_wireguard) demo_allocation reconciled).2.
Definition kicked : World := (kick (WireGuardControl demo_wireguard) [demo_allocation] provisioned).2.
Lemma runs_to {A} (m : act World A) (w : World) a : (m w).1 = Ok a -> m w = (Ok a, (m w).2).
Proof. destruct (m w) as [r w']. cbn [fst snd]. by intros ->. Qed.
Lemma wireguard_control_reaches_interface_witness :
  length (wg_peers provisioned) = 3%nat /\ wg_peers kicked = wg_peers reconciled.
Proof.
  split; [vm_compute; reflexivity|].
  assert (HP : provision (WireGuardControl demo_wireguard) demo_allocation reconciled = (Ok tt, provisioned))
    by (apply (runs_to (provision (WireGuardControl demo_wireguard) demo_allocation)); vm_compute; reflexivity).
  destruct (wireguard_control_reaches_interface demo_agent demo_wireguard demo_delivers demo_allocation reconciled provisioned HP)
    as (peer & address & Hp & Ha & _ & _ & HK).
  assert (Ea : client_address 7 = Some (str "10.66.0.9")) by (vm_compute; reflexivity). cbn [al_resource_slot demo_allocation] in Ha.
  assert (address = str "10.66.0.9") as -> by congruence.
  assert (Ep : wg_public <$> (peer_private_key <$> managed_peer demo_wireguard (al_id demo_allocation) (al_resource_slot demo_allocation)) =
               Some (wg_public (derive_key demo_wireguard PRIVATE_KEY_CONTEXT (str "AbCdEf123456")))) by (vm_compute; reflexivity).
  rewrite Hp in Ep. cbn [fmap option_fmap option_map] in Ep. apply HK.
  - assert (Ek : wg_public (peer_private_key peer) = wg_public (derive_key demo_wireguard PRIVATE_KEY_CONTEXT (str "AbCdEf123456"))) by congruence.
    rewrite Ek. apply (bool_decide_unpack _). vm_compute. exact I.
  - assert (HF : forallb (fun p => bool_decide (lease (str "10.66.0.9") ∉ wp_allowed p)) (wg_peers reconciled) = true) by (vm_compute; reflexivity).
    intros p Hin. rewrite forallb_Forall, Forall_forall in HF. specialize (HF p Hin). by apply bool_decide_eq_true in HF.
  - apply (runs_to (kick (WireGuardControl demo_wireguard) [demo_allocation])). vm_compute. reflexivity.
Defined.
