(* ===== verification/OpenVpnAgent.v ===== *)
(** Model of crates/ket-server/src/openvpn_agent.rs and
    bin/ket-openvpn-auth.rs: the service beside OpenVPN that lists and ends its
    sessions over the management socket, and the program OpenVPN asks whether
    to let a user in. *)

From Stdlib Require Import ZArith Lia.
From stdpp Require Import gmap strings.
From S2P Require Import Prelude Order Utf8 Str Net Vendor Tunnel Grant Contract Control Validation StdText Config Engines DataPlane EngineControls Api Agents WireGuardAgent.

Definition MAX_COMMAND_OUTPUT_BYTES : Z := 1024 * 1024.
Definition MAX_MANAGEMENT_RESPONSE_BYTES : Z := 8 * 1024 * 1024.
Definition MANAGEMENT_TIMEOUT : Z := 5.
Definition MAX_CREDENTIAL_BYTES : Z := 1024.

(** * Settings *)

Record AgentConfig := mkAgentConfig {
  oa_bind_address : SocketAddr * Z; oa_manager_token : list byte; oa_openvpn_binary : list byte; oa_server_config : list byte;
  oa_runtime_config : list byte; oa_management_socket : list byte; oa_auth_url : list byte; oa_auth_token : list byte;
  oa_tunnel_interface : list byte; oa_egress_interface : list byte; oa_max_clients : Z;
}.

(** [Path::is_absolute]. *)
Definition is_absolute (path : list byte) : bool := starts_with (z2b 47) path.
Definition validate_auth_url `{UrlParser, UrlOps} (value : list byte) : result ConfigError unit :=
  let* parsed := ok_or (url_parse value) (Bail (str "KET_OPENVPN_AUTH_URL") (str "must be an absolute URL")) in
  ensure (plain_url [str "http"] parsed) (str "KET_OPENVPN_AUTH_URL")
    (str "must be an internal HTTP URL without credentials, a query, or a fragment").
Definition agent_from_env `{UrlParser, UrlOps} (env : Environment) : result ConfigError AgentConfig :=
  let* bind_address := ok_or (parse_socket_addr (value env (str "KET_OPENVPN_AGENT_BIND") (str "0.0.0.0:8789")))
                         (Bail (str "KET_OPENVPN_AGENT_BIND") (str "must be a socket address")) in
  let* manager_token := required env (str "KET_OPENVPN_MANAGER_TOKEN") in
  let* _ := ensure (32 <=? zlen manager_token) (str "KET_OPENVPN_MANAGER_TOKEN") (str "must contain at least 32 characters") in
  let openvpn_binary := value env (str "KET_OPENVPN_BINARY") (str "/usr/local/bin/openvpn") in
  let server_config := value env (str "KET_OPENVPN_SERVER_CONFIG") (str "/etc/openvpn/ket-server.conf") in
  let runtime_config := value env (str "KET_OPENVPN_RUNTIME_CONFIG") (str "/run/ket-openvpn/server-runtime.conf") in
  let* _ := ensure (is_absolute runtime_config) (str "KET_OPENVPN_RUNTIME_CONFIG") (str "must be an absolute path") in
  let management_socket := value env (str "KET_OPENVPN_MANAGEMENT_SOCKET") (str "/run/ket-openvpn/management.sock") in
  let* _ := ensure (is_absolute management_socket) (str "KET_OPENVPN_MANAGEMENT_SOCKET") (str "must be an absolute path") in
  let* auth_url := required env (str "KET_OPENVPN_AUTH_URL") in
  let* _ := validate_auth_url auth_url in
  let* auth_token := required env (str "KET_OPENVPN_AUTH_TOKEN") in
  let* _ := ensure (auth_token_ok auth_token) (str "KET_OPENVPN_AUTH_TOKEN") (str "must contain 32-512 non-control characters") in
  let tunnel_interface := value env (str "KET_OPENVPN_TUN_INTERFACE") (str "ketovpn0") in
  let egress_interface := value env (str "KET_OPENVPN_EGRESS_INTERFACE") (str "eth0") in
  let* _ := validate_interface tunnel_interface (str "KET_OPENVPN_TUN_INTERFACE") in
  let* _ := validate_interface egress_interface (str "KET_OPENVPN_EGRESS_INTERFACE") in
  let* max_clients := ok_or (pool_count (value env (str "KET_OPENVPN_MAX_CLIENTS") (str "1000")))
                        (Bail (str "KET_OPENVPN_MAX_CLIENTS") (str "must be between 1 and 65533")) in
  Ok (mkAgentConfig bind_address manager_token openvpn_binary server_config runtime_config management_socket auth_url auth_token
        tunnel_interface egress_interface max_clients).

(** * The configuration handed to OpenVPN *)

Definition double_quote : byte := z2b 34.
Definition backslash : byte := z2b 92.
(** [replace] of a character by text. *)
Definition replace_byte (from : byte) (to : list byte) (s : list byte) : list byte :=
  flat_map (fun b => if bool_decide (b = from) then to else [b]) s.
Definition quote_openvpn_value (value : list byte) : result Failure (list byte) :=
  require negb (bool_decide (value = []) || (2048 <? zlen value) || existsb is_control (char_list value))
    else str "OpenVPN runtime configuration value is invalid" in
  Ok (double_quote :: replace_byte double_quote [backslash; double_quote] (replace_byte backslash [backslash; backslash] value) ++ [double_quote]).
Definition render_runtime_config (c : AgentConfig) : result Failure (list byte) :=
  let* server_config := quote_openvpn_value (oa_server_config c) in
  let* auth_url := quote_openvpn_value (oa_auth_url c) in
  let* auth_token := quote_openvpn_value (oa_auth_token c) in
  Ok (str "config " ++ server_config ++ newline :: str "setenv KET_OPENVPN_AUTH_URL " ++ auth_url
      ++ newline :: str "setenv KET_OPENVPN_AUTH_TOKEN " ++ auth_token ++ [newline]).

(** * The management socket *)

(** A connection to the socket: what a step of it gives within
    [MANAGEMENT_TIMEOUT], and whether OpenVPN's process is running. *)
Class Management (W : Type) := {
  mg_connect : list byte -> W -> result Failure unit * W;
  mg_read : W -> result Failure (list byte) * W;
  mg_write : list byte -> W -> result Failure unit * W;
  mg_shutdown : W -> result Failure unit * W;
  mg_running : W -> bool;
}.

(** [iterate fuel step] takes up to [fuel] steps. *)
Fixpoint iterate {S R : Type} (fuel : positive) (step : S -> S + R) (s : S) : S + R :=
  match fuel with
  | xH => step s
  | xO p => match iterate p step s with inl s => iterate p step s | inr r => inr r end
  | xI p => match step s with
            | inl s => match iterate p step s with inl s => iterate p step s | inr r => inr r end
            | inr r => inr r
            end
  end.

(** The bytes up to the last line end. *)
Definition complete_lines (response : list byte) : list byte :=
  match rsplit_once newline response with Some (before, _) => before ++ [newline] | None => [] end.
Definition final_line (line : list byte) : bool :=
  let line := strip_cr line in
  bool_decide (line = str "END") || starts_with_str (str "SUCCESS:") line || starts_with_str (str "ERROR:") line.
Definition management_reply_complete (response : list byte) : bool := existsb final_line (split_on newline (complete_lines response)).
Definition has_line_end (response : list byte) : bool := bool_decide (newline ∈ response).

Section management.
Context {W : Type} `{Management W}.

(** One round of [read_management_until]. *)
Definition read_round (complete : list byte -> bool) (s : list byte * W) : (list byte * W) + (result Failure (list byte) * W) :=
  let '(output, w) := s in
  if complete output then inr (Ok output, w)
  else
    let '(r, w) := mg_read w in
    match r with
    | Err e => inr (Err e, w)
    | Ok [] => inr (Err (str "OpenVPN management closed before completing its response"), w)
    | Ok chunk =>
      if MAX_MANAGEMENT_RESPONSE_BYTES <? zlen (output ++ chunk) then inr (Err (str "OpenVPN management returned too much data"), w)
      else inl (output ++ chunk, w)
    end.
Definition READ_ROUNDS : positive := Z.to_pos (MAX_MANAGEMENT_RESPONSE_BYTES + 2).
Definition read_management_until (complete : list byte -> bool) (output : list byte) : task W Failure (list byte) := fun w =>
  match iterate READ_ROUNDS (read_round complete) (output, w) with
  | inr answer => answer
  | inl (_, w) => (Err [], w)
  end.

Definition command_byte (b : byte) : bool := negb ((b2z b <? 32) || (b2z b =? 127)) || bool_decide (b = tab).
Definition management_command (socket command : list byte) : task W Failure (list byte) :=
  if bool_decide (command = []) || (64 <? zlen command) || negb (forallb command_byte command)
  then abandon (str "invalid OpenVPN management command") else
  run! _ := mg_connect socket in
  run! output := read_management_until has_line_end [] in
  if negb (contains (str "OpenVPN Management Interface") (encode_chars (from_utf8_lossy output)))
  then abandon (str "OpenVPN management greeting is invalid") else
  run! _ := mg_write (command ++ [newline]) in
  run! output := read_management_until management_reply_complete output in
  run! _ := mg_write (str "quit" ++ [newline]) in
  run! _ := mg_shutdown in
  if valid_utf8 output then give output else abandon (str "OpenVPN management returned non-UTF-8 data").
End management.

(** * The status it reports *)

(** [parse_csv_line]; quotes and commas are single bytes of the text. *)
Definition comma : byte := z2b 44.
Fixpoint csv_fields (s : list byte) (quoted : bool) (field : list byte) : result Failure (list (list byte)) :=
  match s with
  | [] => if quoted then Err (str "OpenVPN status contains unterminated CSV quoting") else Ok [field]
  | b :: s' =>
    if bool_decide (b = double_quote) then
      match s' with
      | c :: s'' =>
        if quoted && bool_decide (c = double_quote) then csv_fields s'' quoted (field ++ [double_quote])
        else csv_fields s' (negb quoted) field
      | [] => csv_fields s' (negb quoted) field
      end
    else if bool_decide (b = comma) && negb quoted then let* fields := csv_fields s' quoted [] in Ok (field :: fields)
    else csv_fields s' quoted (field ++ [b])
  end.
Definition parse_csv_line (line : list byte) : result Failure (list (list byte)) := csv_fields line false [].
Definition parse_status_line (line : list byte) : result Failure (list (list byte)) :=
  if bool_decide (tab ∈ line) then Ok (split_on tab line) else parse_csv_line line.

(** The columns of a client's row, by their names in the header's. *)
Fixpoint columns (names : list (list byte)) (index : nat) (m : gmap (list byte) nat) : gmap (list byte) nat :=
  match names with [] => m | name :: names => columns names (S index) (<[name := index]> m) end.
Fixpoint status_rows (lines : list (list byte)) (header : option (gmap (list byte) nat)) (rows : list (list (list byte)))
    : result Failure (option (gmap (list byte) nat) * list (list (list byte))) :=
  match lines with
  | [] => Ok (header, rows)
  | line :: lines =>
    let* fields := parse_status_line line in
    if bool_decide (fields !! 0%nat = Some (str "HEADER")) && bool_decide (fields !! 1%nat = Some (str "CLIENT_LIST"))
    then status_rows lines (Some (columns (drop 2 fields) 1 ∅)) rows
    else if bool_decide (fields !! 0%nat = Some (str "CLIENT_LIST")) then status_rows lines header (rows ++ [fields])
    else status_rows lines header rows
  end.
Record StatusColumns := mkColumns { col_username : nat; col_address : nat; col_since : nat; col_received : nat; col_sent : nat }.
Definition column (header : gmap (list byte) nat) (name : string) : result Failure nat :=
  ok_or (header !! str name) (str "OpenVPN status omitted " ++ str name).
Definition client_status (c : StatusColumns) (fields : list (list byte)) : result Failure OpenVpnSessionStatus :=
  let field (position : nat) := ok_or (fields !! position) (str "OpenVPN status row is truncated") in
  let counter (position : nat) (message : string) := let* f := field position in ok_or (parse_uint u64_max f) (str message) in
  let* username := field (col_username c) in
  require valid_session_username username else str "OpenVPN status contains an unmanaged username" in
  let* virtual_address := field (col_address c) in
  let* address := ok_or (parse_ipv4 virtual_address) (str "OpenVPN status contains an invalid virtual address") in
  require (octet 0 address =? 10) && (octet 1 address =? 67) else str "OpenVPN status contains an address outside the lease network" in
  let* connected_since := counter (col_since c) "OpenVPN connected timestamp is invalid"%string in
  let* bytes_received := counter (col_received c) "OpenVPN receive counter is invalid"%string in
  let* bytes_sent := counter (col_sent c) "OpenVPN send counter is invalid"%string in
  Ok (mkOpenVpnStatus username virtual_address connected_since bytes_received bytes_sent).
Definition parse_status (response : list byte) : result Failure (list OpenVpnSessionStatus) :=
  let* read := status_rows (lines response) None [] in
  let* header := ok_or (fst read) (str "OpenVPN status omitted the client header") in
  let* username := column header "Username" in
  let* virtual_address := column header "Virtual Address" in
  let* connected_since := column header "Connected Since (time_t)" in
  let* bytes_received := column header "Bytes Received" in
  let* bytes_sent := column header "Bytes Sent" in
  collect (client_status (mkColumns username virtual_address connected_since bytes_received bytes_sent)) (snd read).

(** * Handlers *)

Definition invalid_request : AgentError := mkAgentError 400 (str "invalid_session_request") (str "session request is invalid").
Definition unavailable_error : AgentError := mkAgentError 503 (str "openvpn_unavailable") (str "OpenVPN operation failed").

Definition validate_usernames (usernames : list (list byte)) (maximum : Z) : result AgentError (gset (list byte)) :=
  require negb (maximum <? zlen usernames) else invalid_request in
  let set : gset (list byte) := list_to_set usernames in
  require negb ((maximum <? Z.of_nat (size set)) || existsb (fun name => negb (valid_session_username name)) (elements set)) else invalid_request in
  Ok set.

Section agent.
Context {W : Type} `{Management W} (config : AgentConfig).

Definition unavailable {A} (m : task W Failure A) : task W AgentError A := fails_as (fun _ => unavailable_error) m.
Definition command (text : list byte) : task W Failure (list byte) := management_command (oa_management_socket config) text.
Definition session_statuses : task W Failure (list OpenVpnSessionStatus) :=
  run! response := command (str "status 3") in of_result (parse_status response).
(** A [BTreeSet] is walked in order. *)
Definition in_order (names : gset (list byte)) : list (list byte) := sort_by_key Datatypes.id (elements names).
Definition kill_usernames (usernames : gset (list byte)) : task W Failure unit :=
  for_each (fun username =>
    run! response := command (str "kill " ++ username) in
    if contains (str "SUCCESS:") response then give tt else abandon (str "OpenVPN management rejected a session removal"))
    (in_order usernames).

Definition health : task W AgentError Z := fun w =>
  if negb (mg_running w) then (Err unavailable_error, w)
  else unavailable (run! response := command (str "pid") in
                    if contains (str "SUCCESS: pid=") response then give 204
                    else abandon (str "OpenVPN management did not return a process ID")) w.
Definition list_sessions : task W AgentError (list OpenVpnSessionStatus) := unavailable session_statuses.
Definition reconcile_sessions (request : ReconcileOpenVpnSessions) : task W AgentError Z :=
  run! desired := of_result (validate_usernames (reconcile_usernames request) (oa_max_clients config)) in
  run! current := unavailable session_statuses in
  let stale : gset (list byte) := list_to_set (filter (fun username => username ∉ desired) (map os_username current)) in
  run! _ := unavailable (kill_usernames stale) in
  give 204.
Definition remove_sessions (request : RemoveOpenVpnSessions) : task W AgentError Z :=
  run! requested := of_result (validate_usernames (remove_usernames request) (oa_max_clients config)) in
  run! current := unavailable session_statuses in
  let active : gset (list byte) := list_to_set (map os_username current) in
  run! _ := unavailable (kill_usernames (requested ∩ active)) in
  give 204.

(** The router of [run], behind [authorize]. *)
Context `{Texts, EngineJson, !Json AgentError, !Extract ReconcileOpenVpnSessions, !Extract RemoveOpenVpnSessions}.
Definition serve (r : AgentRequest) (w : W) : AgentResponse * W :=
  let path := aq_path r in
  if negb (manager_authorized (oa_manager_token config) (aq_authorization r)) then (error_answer manager_unauthorized, w)
  else if bool_decide (path = str "/healthz") then
    match aq_method r with HttpGet => status_of health w | _ => (mkAgentResponse 405 [], w) end
  else if bool_decide (path = str "/v1/sessions") then
    match aq_method r with HttpGet => let '(r, w) := list_sessions w in (answer_json r, w) | _ => (mkAgentResponse 405 [], w) end
  else if bool_decide (path = str "/v1/sessions/reconcile") then
    match aq_method r with HttpPut => with_json (aq_body r) (fun q => status_of (reconcile_sessions q)) w | _ => (mkAgentResponse 405 [], w) end
  else if bool_decide (path = str "/v1/sessions/remove") then
    match aq_method r with HttpPost => with_json (aq_body r) (fun q => status_of (remove_sessions q)) w | _ => (mkAgentResponse 405 [], w) end
  else (mkAgentResponse 404 [], w).
End agent.

(** [validate_output] and [install_firewall]. *)
Section firewall.
Context {W : Type} `{Shell W}.
Definition validate_output (program : list byte) (output : Output) : result Failure Output :=
  require negb (MAX_COMMAND_OUTPUT_BYTES <? zlen (out_stdout output) + zlen (out_stderr output)) else program ++ str " returned too much output" in
  if out_success output then Ok output else Err (complaint program output).
Definition run_command (program : list byte) (arguments : list (list byte)) : task W Failure Output :=
  run! output := shell program arguments None in of_result (validate_output program output).
Definition install_firewall (config : AgentConfig) : task W Failure unit :=
  install_rules run_command (oa_tunnel_interface config) (oa_egress_interface config) (str "10.67.0.0/16").
End firewall.

(** * ket-openvpn-auth *)

Record AuthRequest := mkAuthRequest { ar_username : list byte; ar_password : list byte }.
Definition username_and_password (contents : list byte) : result Failure AuthRequest :=
  require negb (bool_decide (z2b 0 ∈ contents) || bool_decide (z2b 13 ∈ contents)) else str "credentials contain invalid characters" in
  match lines contents with
  | [] => Err (str "username is missing")
  | [_] => Err (str "password is missing")
  | [username; password] =>
    match split_session_token password with
    | Err _ => Err (str "password has an invalid shape")
    | Ok token =>
      require bool_decide (part_id token = username) else str "username does not match the scoped token" in
      Ok (mkAuthRequest username password)
    end
  | _ => Err (str "credential file contains unexpected data")
  end.

Section openvpn_auth.
Context {W : Type} `{EngineWorld W, UriParser, HeaderValues, Files, !Json AuthRequest}.

Definition read_credentials (path : list byte) : result Failure AuthRequest :=
  let* metadata := ok_or (file_entry path) (str "No such file or directory") in
  require file_is_file metadata && negb (file_len metadata =? 0) && negb (MAX_CREDENTIAL_BYTES <? file_len metadata)
    else str "credential file is invalid" in
  let* contents := ok_or (file_text metadata) (str "stream did not contain valid UTF-8") in
  username_and_password contents.
Definition auth_request (env : Environment) (credentials : AuthRequest) : result Failure HttpRequest :=
  let* url := ok_or (env !! str "KET_OPENVPN_AUTH_URL") (str "KET_OPENVPN_AUTH_URL is required") in
  let* uri := ok_or (uri_parse url) (str "KET_OPENVPN_AUTH_URL is invalid") in
  require bool_decide (uri = (Some (str "http"), true)) else str "KET_OPENVPN_AUTH_URL must be an internal HTTP URL" in
  let* auth_token := ok_or (env !! str "KET_OPENVPN_AUTH_TOKEN") (str "KET_OPENVPN_AUTH_TOKEN is required") in
  require 32 <=? zlen auth_token else str "KET_OPENVPN_AUTH_TOKEN is invalid" in
  let* encoded := ok_or (json_to_vec credentials) (str "JSON") in
  require header_value_ok (bearer auth_token) else str "failed to parse header value" in
  Ok (mkHttp HttpPost url (bearer auth_token) true encoded 5).
(** [run]: the program succeeds where this gives [Ok]. *)
Definition openvpn_auth (env : Environment) (argument : option (list byte)) : task W Failure unit :=
  run! path := of_result (ok_or argument (str "credential file argument is required")) in
  run! credentials := of_result (read_credentials path) in
  run! request := of_result (auth_request env credentials) in
  fun w =>
  let '(outcome, w) := world_http request w in
  (match outcome with
   | HttpTimeout => Err (str "authentication request timed out")
   | HttpFailed reason => Err reason
   | HttpAnswer status body =>
     let* body := body in
     require negb (4096 <? zlen body) else str "authentication response is too large" in
     require status =? 204 else str "authentication was rejected" in
     Ok tt
   end, w).
End openvpn_auth.
