(* ===== verification/OpenVpnProps.v ===== *)
(** What the OpenVPN agent says on the management socket and reads there, and
    what lets a user in.

    An OpenVPN in memory, and a sign-in at the example server: witnesses of the
    theorems on the OpenVPN agent and its authentication program. *)

From Stdlib Require Import ZArith Lia.
From stdpp Require Import gmap strings.
From S2P Require Import Prelude Order Utf8 Str Net SharePolicy Vendor Instances Tunnel Grant Contract Control Validation SealedDemo Meter Model Activity GrantAdmin Service ServiceInv ServiceDemo ServiceProps StdText Config ConfigProps Engines DataPlane EngineControls Api ApiLogic ApiProps ApiTransports ControlProps ApiDemo Agents WireGuardAgent OpenVpnAgent.

(** * Reading ends *)

(** A step that goes on lowers a measure that does not get negative. *)
Lemma iterate_measure {S R} (step : S -> S + R) (m : S -> Z) : (forall s s', step s = inl s' -> 0 <= m s' < m s) ->
  forall fuel s s', iterate fuel step s = inl s' -> 0 <= m s' /\ m s' + Zpos fuel <= m s.
Proof.
  intros Hstep fuel. induction fuel as [p IH|p IH|]; intros s s'; cbn [iterate].
  - destruct (step s) as [s1|] eqn:E1; [|done]. destruct (iterate p step s1) as [s2|] eqn:E2; [|done]. intros E3.
    apply Hstep in E1. apply IH in E2, E3. lia.
  - destruct (iterate p step s) as [s2|] eqn:E2; [|done]. intros E3. apply IH in E2, E3. lia.
  - intros E%Hstep. lia.
Qed.

(** What every step keeps, the whole loop keeps; what every last step gives,
    the whole loop gives. *)
Lemma iterate_keeps {S R} (step : S -> S + R) (I : S -> Prop) (Q : R -> Prop) :
  (forall s, I s -> match step s with inl s' => I s' | inr r => Q r end) ->
  forall fuel s, I s -> match iterate fuel step s with inl s' => I s' | inr r => Q r end.
Proof.
  intros Hstep fuel. induction fuel as [p IH|p IH|]; intros s Hs; cbn [iterate]; [| |by apply Hstep].
  - specialize (Hstep s Hs). destruct (step s) as [s1|]; [|done]. specialize (IH s1 Hstep) as IH1.
    destruct (iterate p step s1) as [s2|]; [by apply IH|done].
  - specialize (IH s Hs) as IH1. destruct (iterate p step s) as [s2|]; [by apply IH|done].
Qed.

Section reading.
Context {W : Type} `{Management W}.

Lemma read_round_grows complete (s s' : list byte * W) : read_round complete s = inl s' ->
  let m := fun s : list byte * W => MAX_MANAGEMENT_RESPONSE_BYTES - zlen s.1 in 0 <= m s' < m s.
Proof.
  destruct s as [output w]. unfold read_round. destruct (complete output); [done|]. destruct (mg_read w) as [[[|b chunk]|e] w1]; [done| |done].
  destruct (_ <? _) eqn:El; [done|]. intros E. assert (s' = (output ++ b :: chunk, w1)) as -> by congruence. apply Z.ltb_ge in El.
  cbn [fst]. rewrite zlen_app in *. assert (1 <= zlen (b :: chunk)) by (unfold zlen; cbn [length]; lia). lia.
Qed.

(** What the loop keeps of the bytes read so far. *)
Definition read_so_far (output text : list byte) : Prop :=
  output `prefix_of` text /\ (text = output \/ zlen text <= MAX_MANAGEMENT_RESPONSE_BYTES).

Lemma read_round_so_far complete output (s : list byte * W) : read_so_far output s.1 ->
  match read_round complete s with
  | inl s' => read_so_far output s'.1
  | inr r => forall text, r.1 = Ok text -> complete text = true /\ read_so_far output text
  end.
Proof.
  destruct s as [out w]. cbn [fst]. intros [Hp Hl]. unfold read_round. destruct (complete out) eqn:Ec; [by intros text [= <-]|].
  destruct (mg_read w) as [[[|b chunk]|e] w2]; [done| |done]. destruct (_ <? _) eqn:El; [done|]. apply Z.ltb_ge in El.
  split; cbn [fst]; [by apply prefix_app_r|by right].
Qed.

(** C30: reading from the management socket ends, whatever OpenVPN sends and
    however it is cut into pieces: the loop comes to an answer within as many
    reads as the answer may have bytes, and one it gives is complete and within
    the limit or what had been read before. *)
Theorem management_read_ends complete output w :
  exists r w', iterate READ_ROUNDS (read_round complete) (output, w) = inr (r, w') /\
    read_management_until complete output w = (r, w') /\
    forall text, r = Ok text -> complete text = true /\ output `prefix_of` text /\ (text = output \/ zlen text <= MAX_MANAGEMENT_RESPONSE_BYTES).
Proof.
  pose proof (iterate_keeps (read_round complete) _ _ (read_round_so_far complete output) READ_ROUNDS (output, w)
    (conj (reflexivity _) (or_introl eq_refl))) as HI.
  destruct (iterate READ_ROUNDS (read_round complete) (output, w)) as [s|[r w']] eqn:E.
  - exfalso. apply (iterate_measure _ (fun s : list byte * W => MAX_MANAGEMENT_RESPONSE_BYTES - zlen s.1) (read_round_grows complete)) in E.
    cbn [fst] in E. pose proof (zlen_nonneg output). unfold READ_ROUNDS in E. rewrite Z2Pos.id in E by done. lia.
  - exists r, w'. split; [done|]. split; [unfold read_management_until; by rewrite E|exact HI].
Qed.
End reading.

(** * What the status says *)

(** OpenVPN's answer to [status 3]: its lines end in a carriage return and a
    line end, and a client is a row in the order of the header's names. *)
Record VpnClient := mkVpnClient {
  vc_common : list byte; vc_real : list byte; vc_virtual : list byte; vc_virtual6 : list byte; vc_received : Z; vc_sent : Z;
  vc_since_text : list byte; vc_since : Z; vc_username : list byte; vc_rest : list (list byte);
}.
Definition header_names : list (list byte) := map str
  ["HEADER"; "CLIENT_LIST"; "Common Name"; "Real Address"; "Virtual Address"; "Virtual IPv6 Address"; "Bytes Received"; "Bytes Sent";
   "Connected Since"; "Connected Since (time_t)"; "Username"; "Client ID"; "Peer ID"; "Data Channel Cipher"]%string.
Definition client_fields (c : VpnClient) : list (list byte) :=
  [str "CLIENT_LIST"; vc_common c; vc_real c; vc_virtual c; vc_virtual6 c; show_u64 (vc_received c); show_u64 (vc_sent c);
   vc_since_text c; show_u64 (vc_since c); vc_username c] ++ vc_rest c.
Definition ended (line : list byte) : list byte := line ++ [z2b 13; newline].
Definition status_reply (before : list (list byte)) (clients : list VpnClient) (after : list (list byte)) : list byte :=
  flat_map ended (before ++ join tab header_names :: map (join tab ∘ client_fields) clients ++ after).

Definition in_a_line (s : list byte) : Prop := newline ∉ s.
Definition in_a_field (s : list byte) : Prop := tab ∉ s /\ newline ∉ s.
Record client_wf (c : VpnClient) : Prop := {
  client_fields_wf : Forall in_a_field (client_fields c);
  client_counters : is_counter (vc_received c) /\ is_counter (vc_sent c) /\ is_counter (vc_since c);
}.
(** A line that is neither the header of the clients nor one of them. *)
Definition other_line (line : list byte) : Prop :=
  in_a_line line /\ exists fields, parse_status_line line = Ok fields /\ fields !! 0%nat <> Some (str "CLIENT_LIST") /\ fields !! 1%nat <> Some (str "CLIENT_LIST").
Definition signed_in (c : VpnClient) : Prop :=
  valid_session_username (vc_username c) = true /\
  exists address, parse_ipv4 (vc_virtual c) = Some address /\ octet 0 address = 10 /\ octet 1 address = 67.
Definition session_of (c : VpnClient) : OpenVpnSessionStatus :=
  mkOpenVpnStatus (vc_username c) (vc_virtual c) (vc_since c) (vc_received c) (vc_sent c).

Lemma lines_of_ended l : Forall in_a_line l -> lines (flat_map ended l) = l.
Proof.
  intros HF. unfold lines. assert (E : split_on newline (flat_map ended l) = map (fun x => x ++ [z2b 13]) l ++ [[]]).
  { induction HF as [|x l Hx HF IH]; [done|]. cbn [flat_map map]. unfold ended at 1. rewrite <- app_assoc. cbn [app].
    rewrite <- IH, <- split_on_app; [by rewrite <- app_assoc|]. rewrite elem_of_app, list_elem_of_singleton. intros [?|En]; [done|by vm_compute in En]. }
  rewrite E, end_lines_app by done. cbn [end_lines]. rewrite bool_decide_true, app_nil_r, map_map by done.
  rewrite <- (map_id l) at 2. apply map_ext. intros x. unfold strip_cr.
  by rewrite (proj2 (strip_suffix_some (x ++ [z2b 13]) [z2b 13] x) eq_refl).
Qed.
Lemma join_free sep b l : b <> sep -> Forall (fun p => b ∉ p) l -> b ∉ join sep l.
Proof.
  intros Hb HF. induction HF as [|p l Hp HF IH]; [by apply not_elem_of_nil|]. destruct l as [|q l]; [done|].
  change (join sep (p :: q :: l)) with (p ++ sep :: join sep (q :: l)). rewrite elem_of_app, elem_of_cons. tauto.
Qed.
Lemma tab_line l : Forall in_a_field l -> (1 < length l)%nat -> in_a_line (join tab l) /\ parse_status_line (join tab l) = Ok l.
Proof.
  intros HF Hl. split.
  - apply join_free; [done|]. eapply Forall_impl; [exact HF|]. by intros s [_ Hs].
  - unfold parse_status_line. rewrite bool_decide_true.
    + f_equal. apply split_join; [intros ->; cbn in Hl; lia|]. eapply Forall_impl; [exact HF|]. by intros s [Hs _].
    + destruct l as [|x [|y l]]; cbn [length] in Hl; [lia..|]. change (join tab (x :: y :: l)) with (x ++ tab :: join tab (y :: l)).
      apply elem_of_app. right. by left.
Qed.
Lemma other_rows l h rows rest : Forall other_line l -> status_rows (l ++ rest) h rows = status_rows rest h rows.
Proof.
  intros HF. revert h rows. induction HF as [|x l (_ & fields & Ef & N0 & N1) HF IH]; intros h rows; [done|]. cbn [app status_rows]. rewrite Ef.
  rewrite (bool_decide_false _ N1), andb_false_r, (bool_decide_false _ N0). apply IH.
Qed.
Lemma client_rows l h rows rest : Forall client_wf l ->
  status_rows (map (join tab ∘ client_fields) l ++ rest) h rows = status_rows rest h (rows ++ map client_fields l).
Proof.
  intros HF. revert rows. induction HF as [|c l Hc HF IH]; intros rows; [by rewrite app_nil_r|]. cbn [map app status_rows]. unfold compose at 1.
  rewrite (proj2 (tab_line _ (client_fields_wf c Hc) ltac:(unfold client_fields; cbn [app length]; lia))).
  assert (E0 : client_fields c !! 0%nat = Some (str "CLIENT_LIST")) by reflexivity. rewrite E0.
  rewrite bool_decide_false by (vm_compute; congruence). cbn [andb]. rewrite bool_decide_true by reflexivity. rewrite IH. by rewrite <- app_assoc.
Qed.
Lemma client_lines l : Forall client_wf l -> Forall in_a_line (map (join tab ∘ client_fields) l).
Proof.
  intros HF. rewrite Forall_fmap. eapply Forall_impl; [exact HF|]. intros c Hc. unfold compose.
  apply (tab_line _ (client_fields_wf c Hc)). unfold client_fields. cbn [app length]. lia.
Qed.
Lemma header_line : in_a_line (join tab header_names) /\ parse_status_line (join tab header_names) = Ok header_names.
Proof. apply tab_line; [|cbn; lia]. unfold in_a_field. by apply (bool_decide_unpack _). Qed.

(** The columns the header above gives. *)
Definition status_columns : StatusColumns := mkColumns 9 3 8 5 6.
Definition status_header : gmap (list byte) nat := columns (drop 2 header_names) 1 ∅.
Lemma header_columns : column status_header "Username" = Ok 9%nat /\ column status_header "Virtual Address" = Ok 3%nat /\
  column status_header "Connected Since (time_t)" = Ok 8%nat /\ column status_header "Bytes Received" = Ok 5%nat /\ column status_header "Bytes Sent" = Ok 6%nat.
Proof. split_and!; vm_compute; reflexivity. Qed.
Lemma parse_status_reply before clients after : Forall other_line before -> Forall client_wf clients -> Forall other_line after ->
  parse_status (status_reply before clients after) = collect (client_status status_columns) (map client_fields clients).
Proof.
  intros Hb Hc Ha. unfold parse_status, status_reply. rewrite lines_of_ended.
  - rewrite other_rows by done. cbn [status_rows]. rewrite (proj2 header_line). rewrite client_rows by done.
    rewrite <- (app_nil_r after), other_rows by done. rewrite !bool_decide_true by reflexivity. cbn [status_rows app andb]. fold status_header.
    destruct header_columns as (E1 & E2 & E3 & E4 & E5). cbn [ok_or fst snd]. by rewrite E1, E2, E3, E4, E5.
  - rewrite Forall_app, Forall_cons, Forall_app. split_and!; [|apply header_line|by apply client_lines|].
    all: eapply Forall_impl; [eassumption|]; by intros s [Hs _].
Qed.

Lemma client_status_signed_in c : client_wf c -> signed_in c -> client_status status_columns (client_fields c) = Ok (session_of c).
Proof.
  intros [_ (Hr & Hs & Ht)] (Hu & address & Ha & O0 & O1). unfold client_status.
  cbn [client_fields lookup list_lookup app status_columns col_username col_address col_since col_received col_sent ok_or].
  rewrite Hu, Ha. cbn [ok_or]. rewrite O0, O1. cbn [Z.eqb Pos.eqb andb].
  by rewrite (proj1 (show_u64_reads _ Hr)), (proj1 (show_u64_reads _ Hs)), (proj1 (show_u64_reads _ Ht)).
Qed.
Lemma client_status_pending c : valid_session_username (vc_username c) = false -> client_status status_columns (client_fields c) =
  Err (str "OpenVPN status contains an unmanaged username").
Proof. intros Hu. unfold client_status. cbn [client_fields lookup list_lookup app status_columns col_username ok_or]. by rewrite Hu. Qed.
Lemma collect_map {A B C E} (f : B -> result E C) (g : A -> B) (h : A -> C) (l : list A) :
  Forall (fun a => f (g a) = Ok (h a)) l -> collect f (map g l) = Ok (map h l).
Proof. intros HF. induction HF as [|a l Ha HF IH]; [done|]. cbn [map collect]. by rewrite Ha, IH. Qed.
Lemma collect_refuses {A B E} (f : A -> result E B) (l : list A) a e : a ∈ l -> f a = Err e -> exists e', collect f l = Err e'.
Proof.
  intros Hin Ha. induction l as [|b l IH]; [by apply not_elem_of_nil in Hin|]. cbn [collect]. destruct (f b) as [c|e1] eqn:Eb; [|by eexists].
  apply elem_of_cons in Hin as [->|Hin]; [congruence|]. destruct (IH Hin) as [e' ->]. by eexists.
Qed.

(** * What the agent tells OpenVPN *)

(** The messages handed to the socket, in order. *)
Class ManagementLog (W : Type) `{Management W} := {
  mg_sent : W -> list (list byte);
  sent_connect socket w : mg_sent (mg_connect socket w).2 = mg_sent w;
  sent_read w : mg_sent (mg_read w).2 = mg_sent w;
  sent_write bytes w : mg_sent (mg_write bytes w).2 = mg_sent w ++ [bytes];
  sent_shutdown w : mg_sent (mg_shutdown w).2 = mg_sent w;
}.
Definition message (command : list byte) : list byte := command ++ [newline].
Definition kill (username : list byte) : list byte := message (str "kill " ++ username).

Section messages.
Context {W : Type} `{ManagementLog W} (config : AgentConfig).
Implicit Types (w : W).

(** [m] sends the messages of some list of which [P] holds. *)
Definition sends {E A} (P : result E A -> list (list byte) -> Prop) (m : task W E A) : Prop :=
  forall w r w', m w = (r, w') -> exists l, mg_sent w' = mg_sent w ++ l /\ P r l.

Lemma sends_bind {E A B} (P : result E A -> list (list byte) -> Prop) (Q : A -> result E B -> list (list byte) -> Prop)
    (R : result E B -> list (list byte) -> Prop) (m : task W E A) (k : A -> task W E B) :
  sends P m -> (forall a, sends (Q a) (k a)) -> (forall a r l l', P (Ok a) l -> Q a r l' -> R r (l ++ l')) ->
  (forall e l, P (Err e) l -> R (Err e) l) -> sends R (run! a := m in k a).
Proof.
  intros Hm Hk Hok Herr w r w' [(a & w1 & E1 & E2)|(e & E1 & ->)]%bind_task_inv.
  - destruct (Hm _ _ _ E1) as (l & S1 & P1). destruct (Hk _ _ _ _ E2) as (l' & S2 & P2). exists (l ++ l'). split; [by rewrite S2, S1, app_assoc|eauto].
  - destruct (Hm _ _ _ E1) as (l & S1 & P1). eauto.
Qed.
Lemma sends_mono {E A} (P Q : result E A -> list (list byte) -> Prop) (m : task W E A) :
  (forall r l, P r l -> Q r l) -> sends P m -> sends Q m.
Proof. intros HPQ Hm w r w' (l & S & Hl)%Hm. eauto. Qed.
Lemma sends_result {E A} (r : result E A) : sends (fun r' l => r' = r /\ l = []) (of_result r).
Proof. intros w r' w' [-> ->]%of_result_inv. exists []. by rewrite app_nil_r. Qed.
Lemma sends_fails_as {E F A} (f : E -> F) (P : result E A -> list (list byte) -> Prop) (m : task W E A) :
  sends P m -> sends (fun r l => exists r0, P r0 l /\ r = map_err f r0) (fails_as f m).
Proof. intros Hm w r w' (r0 & Er & ->)%fails_as_inv. destruct (Hm _ _ _ Er) as (l & S & Hl). eauto. Qed.

(** A step that sends nothing. *)
Definition silent {E A} (m : task W E A) : Prop := sends (fun _ l => l = []) m.
Lemma silent_step {E A} (m : task W E A) : (forall w, mg_sent (m w).2 = mg_sent w) -> silent m.
Proof. intros Hm w r w' E1. exists []. specialize (Hm w). rewrite E1 in Hm. by rewrite app_nil_r. Qed.
Lemma silent_read complete output : silent (read_management_until complete output).
Proof.
  apply silent_step. intros w. unfold read_management_until.
  assert (HI : forall s : list byte * W, mg_sent s.2 = mg_sent w -> match read_round complete s with inl s' => mg_sent s'.2 = mg_sent w | inr r => mg_sent r.2 = mg_sent w end).
  { intros [out w1]. cbn [snd]. intros <-. unfold read_round. destruct (complete out); [done|]. pose proof (sent_read w1) as Hr.
    destruct (mg_read w1) as [[[|b chunk]|e] w2]; [done| |done]. by destruct (_ <? _). }
  apply (iterate_keeps _ _ (fun r => mg_sent r.2 = mg_sent w)) with (fuel := READ_ROUNDS) (s := (output, w)) in HI; [|done].
  destruct (iterate _ _ _) as [[]|]; exact HI.
Qed.
Lemma silent_bind {E A B} (P : result E B -> list (list byte) -> Prop) (m : task W E A) (k : A -> task W E B) :
  silent m -> (forall a, sends P (k a)) -> (forall e, P (Err e) []) -> sends P (run! a := m in k a).
Proof. intros Hm Hk He. eapply sends_bind; [exact Hm|exact Hk| |]; [by intros a r l l' ->|by intros e l ->]. Qed.

(** A command sends itself and the farewell, or stops before one of them. *)
Definition of_command (c : list byte) (r : result Failure (list byte)) (l : list (list byte)) : Prop :=
  (forall m, m ∈ l -> m = message c \/ m = message (str "quit")) /\ forall text, r = Ok text -> l = [message c; message (str "quit")].
Lemma sends_write bytes : sends (fun _ l => l = [bytes]) (mg_write bytes).
Proof. intros w r w' E1. exists [bytes]. pose proof (sent_write bytes w) as Hw. by rewrite E1 in Hw. Qed.
Lemma command_sends c : sends (of_command c) (command config c).
Proof.
  assert (He : forall e, of_command c (Err e) []) by (intros e; by split; [intros m Hm%elem_of_nil|]).
  assert (Ha : forall e, sends (of_command c) (abandon e)).
  { intros e. apply (sends_mono _ _ _ (fun r l Hl => Hl)). intros w r w' E1. exists []. unfold abandon in E1. rewrite app_nil_r.
    assert (r = Err e /\ w' = w) as [-> ->] by (split; congruence). auto. }
  unfold command, management_command. destruct (_ || _); [apply Ha|].
  apply silent_bind; [apply silent_step, sent_connect| |done]. intros _. apply silent_bind; [apply silent_read| |done]. intros output.
  destruct (negb _); [apply Ha|].
  eapply (sends_bind _ (fun _ r l => (l = [] \/ l = [message (str "quit")]) /\ forall text, r = Ok text -> l = [message (str "quit")])); [apply sends_write| | |].
  - intros _. apply silent_bind; [apply silent_read| |by intros e; split; [left|]]. intros reply.
    eapply (sends_bind _ (fun _ _ l => l = [])); [apply sends_write| | |].
    + intros _. apply silent_bind; [apply silent_step, sent_shutdown| |done]. intros _.
      destruct (valid_utf8 reply); apply silent_step; done.
    + intros _ r l l' -> ->. split; [by right|done].
    + intros e l ->. split; [by right|done].
  - intros _ r l l' -> [Hl Hok]. split.
    + intros m Hm. destruct Hl as [->| ->]; set_solver.
    + intros text Ht. by rewrite (Hok text Ht).
  - intros e l ->. split; [|done]. intros m Hm%list_elem_of_singleton. by left.
Qed.

Lemma statuses_send : sends (fun _ l => forall m, m ∈ l -> m = message (str "status 3") \/ m = message (str "quit")) (session_statuses config).
Proof.
  eapply (sends_bind _ (fun _ _ l => l = [])); [apply command_sends| | |].
  - intros text. by apply silent_step.
  - intros text r l l' [Hl _] ->. by rewrite app_nil_r.
  - by intros e l [Hl _].
Qed.
Lemma kills_send names : sends (fun r l => (forall m, m ∈ l -> m = message (str "quit") \/ exists u, u ∈ names /\ m = kill u) /\
  (r = Ok tt -> forall u, u ∈ names -> kill u ∈ l)) (kill_usernames config names).
Proof.
  apply sends_mono with (P := fun r l => (forall m, m ∈ l -> m = message (str "quit") \/ exists u, u ∈ in_order names /\ m = kill u) /\
    (r = Ok tt -> forall u, u ∈ in_order names -> kill u ∈ l)).
  { assert (E : forall u, u ∈ in_order names <-> u ∈ names) by (intros u; unfold in_order, sort_by_key; rewrite elem_of_sort_by; apply elem_of_elements).
    intros r l [Hl Hk]. split; [intros m [?|(u & Hu & ->)]%Hl; [by left|right]; exists u; by rewrite <- E|]. intros Hr u Hu%E. eauto. }
  unfold kill_usernames. induction (in_order names) as [|u us IH]; cbn [for_each].
  { intros w r w' E1. exists []. rewrite app_nil_r. split; [unfold give in E1; congruence|]. split; [by intros m Hm%elem_of_nil|by intros _ u Hu%elem_of_nil]. }
  eapply (sends_bind (fun r l => of_command (str "kill " ++ u) (match r with Ok _ => Ok [] | Err e => Err e end) l)); [|intros t; exact IH| |].
  - eapply (sends_bind _ (fun _ _ l => l = [])); [apply command_sends| | |].
    + intros text. by destruct (contains _ _); apply silent_step.
    + intros text r l l' [Hl Hok] ->. rewrite app_nil_r. split; [done|]. intros t _. by apply (Hok text).
    + intros e l Hl. exact Hl.
  - intros [] r l l' [Hl Hok] [Hl' Hok']. split.
    + intros m [Hm|Hm]%elem_of_app; [destruct (Hl m Hm) as [->| ->]; [right|by left]; exists u; by split; [left|]|].
      destruct (Hl' m Hm) as [?|(u' & Hu & ->)]; [by left|right]. exists u'. by split; [right|].
    + intros Hr u' [->|Hu]%elem_of_cons; apply elem_of_app; [left|right; by apply Hok'].
      rewrite (Hok [] eq_refl). by left.
  - intros e l [Hl _]. split; [|done]. intros m [->| ->]%Hl; [right|by left]. exists u. by split; [left|].
Qed.

(** The messages of a handler that may end the sessions of which [may_end]
    holds. *)
Definition told (may_end : list byte -> Prop) (l : list (list byte)) : Prop := forall m, m ∈ l ->
  m = message (str "status 3") \/ m = message (str "quit") \/ exists u, m = kill u /\ valid_session_username u = true /\ may_end u.
Definition listed_now (w : W) (u : list byte) : Prop := exists current w1, session_statuses config w = (Ok current, w1) /\ u ∈ map os_username current.

(** Sessions that are listed have the names the server gives. *)
Lemma statuses_valid w current w1 : session_statuses config w = (Ok current, w1) -> Forall (fun u => valid_session_username u = true) (map os_username current).
Proof.
  unfold session_statuses. intros [(text & w2 & _ & [E _]%of_result_inv)|(e & _ & E)]%bind_task_inv; [|done].
  unfold parse_status in E. destruct (status_rows _ _ _) as [[h rows]|]; [|done]. cbn [fst snd] in E.
  destruct (ok_or h _) as [header|]; [|done]. do 5 (destruct (column header _) as [?|]; [|done]).
  revert current E. induction rows as [|row rows IH]; intros current E; cbn [collect] in E; [by assert (current = []) as -> by congruence|].
  destruct (client_status _ row) as [s|] eqn:Es; [|done]. destruct (collect _ rows) as [l|]; [|done].
  assert (current = s :: l) as -> by congruence. cbn [map]. constructor; [|by apply IH].
  unfold client_status in Es. break_in Es. by assert (s = mkOpenVpnStatus _ _ _ _ _) as -> by (symmetry; injection Es; done).
Qed.

(** The end of both handlers: the sessions listed are asked for, and those of
    [names] ended. *)
Definition end_sessions (names : list OpenVpnSessionStatus -> gset (list byte)) : task W AgentError Z :=
  run! current := unavailable (session_statuses config) in
  run! _ := unavailable (kill_usernames config (names current)) in
  give 204.
Lemma end_sessions_told names may_end w r w' :
  (forall current w1, session_statuses config w = (Ok current, w1) -> forall u, u ∈ names current -> valid_session_username u = true /\ may_end u) ->
  end_sessions names w = (r, w') -> exists l, mg_sent w' = mg_sent w ++ l /\ told may_end l /\
  forall status, r = Ok status -> exists current w1, session_statuses config w = (Ok current, w1) /\ forall u, u ∈ names current -> kill u ∈ l.
Proof.
  intros HN [(current & w1 & (r0 & E1 & Er)%fails_as_inv & E2)|(e & (r0 & E1 & Er)%fails_as_inv & ->)]%bind_task_inv.
  - destruct r0 as [cur|]; [|done]. assert (cur = current) as -> by (cbn in Er; congruence).
    destruct (statuses_send _ _ _ E1) as (l & S1 & H1).
    apply bind_task_inv in E2 as [([] & w2 & (r1 & E2 & Er1)%fails_as_inv & E3)|(e & (r1 & E2 & Er1)%fails_as_inv & ->)].
    + destruct r1 as [[]|]; [|done]. destruct (kills_send _ _ _ _ E2) as (l' & S2 & H2 & H3).
      assert (w' = w2 /\ r = Ok 204) as [-> ->] by (unfold give in E3; split; congruence).
      exists (l ++ l'). split; [by rewrite S2, S1, app_assoc|]. split.
      * intros m [Hm|Hm]%elem_of_app; [destruct (H1 m Hm); auto|]. destruct (H2 m Hm) as [?|(u & Hu & ->)]; [auto|].
        right; right. exists u. by destruct (HN _ _ E1 u Hu).
      * intros status _. exists current, w1. split; [done|]. intros u Hu. apply elem_of_app. right. by apply H3.
    + destruct (kills_send _ _ _ _ E2) as (l' & S2 & H2 & _). exists (l ++ l'). split; [by rewrite S2, S1, app_assoc|]. split; [|done].
      intros m [Hm|Hm]%elem_of_app; [destruct (H1 m Hm); auto|]. destruct (H2 m Hm) as [?|(u & Hu & ->)]; [auto|].
      right; right. exists u. by destruct (HN _ _ E1 u Hu).
  - destruct (statuses_send _ _ _ E1) as (l & S1 & H1). exists l. split; [done|]. split; [|done]. intros m Hm. destruct (H1 m Hm); auto.
Qed.
Lemma validate_usernames_ok l maximum names : validate_usernames l maximum = Ok names -> (forall u, u ∈ names <-> u ∈ l) /\ forall u, u ∈ names -> valid_session_username u = true.
Proof.
  unfold validate_usernames. destruct (negb _); [|done]. destruct (negb (_ || _)) eqn:En; [|done]. intros E.
  assert (names = list_to_set l) as -> by congruence. apply negb_true_iff, orb_false_iff in En as [_ En]. split; [set_solver|].
  intros u Hu. destruct (valid_session_username u) eqn:Ev; [done|]. exfalso. rewrite <- not_true_iff_false in En. apply En, existsb_exists.
  exists u. split; [apply list_elem_of_In, elem_of_elements; set_solver|by rewrite Ev].
Qed.

(** C22: all the agent says to OpenVPN while it removes or reconciles sessions
    are the question for the sessions, the farewell, and orders to end single
    sessions named as the server names them: those of the request that are
    listed for a removal, those listed that the request does not have for a
    reconciliation. Where it answers 204, each of these was ordered. *)
Theorem agent_ends_only_named w :
  (forall request r w', remove_sessions config request w = (r, w') -> exists l, mg_sent w' = mg_sent w ++ l /\
    told (fun u => u ∈ remove_usernames request /\ listed_now w u) l /\
    forall status, r = Ok status -> exists current w1, session_statuses config w = (Ok current, w1) /\
      forall u, u ∈ remove_usernames request -> u ∈ map os_username current -> kill u ∈ l) /\
  (forall request r w', reconcile_sessions config request w = (r, w') -> exists l, mg_sent w' = mg_sent w ++ l /\
    told (fun u => u ∉ reconcile_usernames request /\ listed_now w u) l /\
    forall status, r = Ok status -> exists current w1, session_statuses config w = (Ok current, w1) /\
      forall u, u ∉ reconcile_usernames request -> u ∈ map os_username current -> kill u ∈ l).
Proof.
  assert (HE : forall may_end (e : AgentError), exists l, mg_sent w = mg_sent w ++ l /\ told may_end l /\
    forall (P : Prop) status, Err e = Ok (A := Z) status -> P) by (intros; exists []; rewrite app_nil_r; split; [done|split; [by intros m Hm%elem_of_nil|done]]).
  split; intros request r w' [(names & w1 & [En ->]%of_result_inv & E2)|(e & [_ ->]%of_result_inv & ->)]%bind_task_inv.
  - symmetry in En. apply validate_usernames_ok in En as [En Hv].
    apply (end_sessions_told (fun current => names ∩ list_to_set (map os_username current)) (fun u => u ∈ remove_usernames request /\ listed_now w u)) in E2
      as (l & S1 & H1 & H2).
    + exists l. split; [done|]. split; [done|]. intros status Hr. destruct (H2 status Hr) as (current & w1 & E1 & H3). exists current, w1. split; [done|]. set_solver.
    + intros current w1 E1 u [Hu Hc]%elem_of_intersection. split; [by apply Hv|]. split; [by apply En|]. exists current, w1. set_solver.
  - destruct (HE (fun u => u ∈ remove_usernames request /\ listed_now w u) e) as (l & S1 & H1 & H2). exists l. split; [done|]. split; [done|]. intros; by eapply H2.
  - symmetry in En. apply validate_usernames_ok in En as [En Hv].
    apply (end_sessions_told (fun current => list_to_set (filter (fun username => username ∉ names) (map os_username current)))
      (fun u => u ∉ reconcile_usernames request /\ listed_now w u)) in E2 as (l & S1 & H1 & H2).
    + exists l. split; [done|]. split; [done|]. intros status Hr. destruct (H2 status Hr) as (current & w1 & E1 & H3). exists current, w1. split; [done|].
      intros u Hu Hc. apply H3, elem_of_list_to_set, list_elem_of_filter. by rewrite En.
    + intros current w1 E1 u [Hu Hc]%elem_of_list_to_set%list_elem_of_filter. rewrite En in Hu. split; [|split; [done|by exists current, w1]].
      apply statuses_valid in E1. rewrite Forall_forall in E1. by apply E1.
  - destruct (HE (fun u => u ∉ reconcile_usernames request /\ listed_now w u) e) as (l & S1 & H1 & H2). exists l. split; [done|]. split; [done|]. intros; by eapply H2.
Qed.

Lemma statuses_of_reply text w w1 : command config (str "status 3") w = (Ok text, w1) -> session_statuses config w = (parse_status text, w1).
Proof. intros E. unfold session_statuses, bind_task. by rewrite E. Qed.

(** the sessions the agent lists are the clients OpenVPN reports, in its
    order, each with its name, address, time and counters, whatever other lines
    the report has around them. *)
Theorem status_lists_clients before clients after w w1 :
  Forall other_line before -> Forall client_wf clients -> Forall signed_in clients -> Forall other_line after ->
  command config (str "status 3") w = (Ok (status_reply before clients after), w1) ->
  list_sessions config w = (Ok (map session_of clients), w1).
Proof.
  intros Hb Hc Hs Ha E%statuses_of_reply. unfold list_sessions, unavailable, fails_as. rewrite E, parse_status_reply by done.
  rewrite (collect_map _ client_fields session_of); [done|]. apply Forall_forall. intros c Hin. rewrite Forall_forall in Hc, Hs. by apply client_status_signed_in; auto.
Qed.

(** C33: while OpenVPN reports one client that has not signed in, or any whose
    name is not a session's, the agent lists, reconciles and removes nothing:
    every such request is answered 503 and no session is ended. *)
Theorem pending_client_stops_agent before clients after c w w1 :
  Forall other_line before -> Forall client_wf clients -> Forall other_line after ->
  c ∈ clients -> valid_session_username (vc_username c) = false ->
  command config (str "status 3") w = (Ok (status_reply before clients after), w1) ->
  list_sessions config w = (Err unavailable_error, w1) /\
  (forall request, is_ok (validate_usernames (remove_usernames request) (oa_max_clients config)) = true ->
    remove_sessions config request w = (Err unavailable_error, w1)) /\
  (forall request, is_ok (validate_usernames (reconcile_usernames request) (oa_max_clients config)) = true ->
    reconcile_sessions config request w = (Err unavailable_error, w1)) /\
  mg_sent w1 = mg_sent w ++ [message (str "status 3"); message (str "quit")].
Proof.
  intros Hb Hc Ha Hin Hu E. destruct (command_sends _ _ _ _ E) as (l & S1 & _ & Hl). rewrite (Hl _ eq_refl) in S1. apply statuses_of_reply in E.
  assert (unavailable (session_statuses config) w = (Err unavailable_error, w1)) as EU.
  { unfold unavailable, fails_as. rewrite E, parse_status_reply by done.
    destruct (collect_refuses (client_status status_columns) (map client_fields clients) (client_fields c) _ (list_elem_of_fmap_2 _ _ _ Hin)
      (client_status_pending c Hu)) as [e ->]. done. }
  split; [exact EU|]. split_and!; [| |exact S1].
  all: intros request Hv; unfold remove_sessions, reconcile_sessions, bind_task, of_result; destruct (validate_usernames _ _); [|done]; by rewrite EU.
Qed.
End messages.

(** * Signing in *)

Section login.
Context {W E : Type} `{EngineWorld W, UriParser, HeaderValues, Files, !Json AuthRequest, !JsonLaws AuthRequest}.
Context `{SecretHashing, StateJson, NodeConfig} (server : ServerConfig) (route_app : W -> App E).
(** What the server's clock shows when it takes up the next request. *)
Context (server_clock : W -> Z).

(** The server's route answers at [url]: a 204 from there is one of its
    handler, at the time of its clock. *)
Definition auth_route (url : list byte) : Prop := forall q w body w', hr_uri q = url -> world_http q w = (HttpAnswer 204 body, w') ->
  exists request note_now, json_from_slice (hr_body q) = Some request /\
    authenticate_openvpn server [(str "authorization", hr_authorization q)] (ar_username request) (ar_password request) (server_clock w) note_now (route_app w) =
      (Ok 204, route_app w').

Lemma strip_prefix_some p s r : strip_prefix p s = Some r -> s = p ++ r.
Proof.
  unfold strip_prefix, starts_with_str. case_bool_decide as Hp; [|done]. intros Er. assert (r = drop (length p) s) as -> by congruence.
  rewrite <- Hp at 1. by rewrite take_drop.
Qed.
Lemma bearer_sent token candidate : bearer_token [(str "authorization", bearer token)] = Ok candidate -> candidate = token.
Proof.
  unfold bearer_token. cbn [header_get]. assert (eq_ignore_ascii_case (str "authorization") (str "authorization") = true) as -> by reflexivity.
  cbn [mbind option_bind]. unfold header_text. destruct (forallb _ _); [|done]. cbn [mbind option_bind].
  destruct (strip_prefix (str "Bearer ") (bearer token)) as [t|] eqn:Et; [|done].
  apply strip_prefix_some in Et. apply app_inv_head in Et. case_bool_decide; [done|]. congruence.
Qed.

(** What the program found in the file when it sent a request. *)
Lemma auth_inv env argument w w' : openvpn_auth env argument w = (Ok tt, w') -> exists path entry contents credentials request body,
  argument = Some path /\ file_entry path = Some entry /\ file_text entry = Some contents /\ username_and_password contents = Ok credentials /\
  auth_request env credentials = Ok request /\ world_http request w = (HttpAnswer 204 body, w').
Proof.
  intros [(path & w1 & [E1 ->]%of_result_inv & HR)|(e & _ & E1)]%bind_task_inv; [|done]. destruct argument as [p|]; [|done]. cbn in E1.
  assert (p = path) as -> by congruence.
  apply bind_task_inv in HR as [(credentials & w1 & [E2 ->]%of_result_inv & HR)|(e & _ & E2)]; [|done].
  apply bind_task_inv in HR as [(request & w1 & [E3 ->]%of_result_inv & HR)|(e & _ & E3)]; [|done].
  destruct (world_http request w) as [[|reason|status body] w1] eqn:EH; [done..|]. destruct body as [bytes|]; [|done].
  destruct (negb _); [|done]. destruct (status =? 204) eqn:Es; [|done]. apply Z.eqb_eq in Es as ->. assert (w1 = w') as -> by congruence.
  unfold read_credentials in E2. destruct (file_entry path) as [entry|] eqn:Ee; [|done]. cbn [ok_or] in E2. destruct (_ && _); [|done].
  destruct (file_text entry) as [contents|] eqn:Et; [|done]. cbn [ok_or] in E2.
  exists path, entry, contents, credentials, request, (Ok bytes). auto 10.
Qed.
Lemma credentials_inv contents credentials : username_and_password contents = Ok credentials -> exists secret,
  lines contents = [ar_username credentials; ar_username credentials ++ secret] /\ ar_password credentials = ar_username credentials ++ secret /\
  split_session_token (ar_password credentials) = Ok (mkParts (ar_username credentials) secret).
Proof.
  unfold username_and_password. destruct (negb _); [|done]. destruct (lines contents) as [|username [|password [|]]]; [done..| |done].
  destruct (split_session_token password) as [[id secret]|] eqn:Ep; [|done]. cbn [part_id]. case_bool_decide as Hid; [|done]. intros Ec.
  assert (credentials = mkAuthRequest username password) as -> by congruence. cbn [ar_username ar_password]. subst id.
  destruct (split_session_token_inv _ _ Ep) as (-> & _). cbn [part_id part_secret] in *. by exists secret.
Qed.

(** What the handler had checked when it answered 204. *)
Definition verified (app : App E) (password : list byte) (protocol : TransportProtocol) (username : list byte) (now : Z) : result ServiceError SessionView :=
  let* parts := map_err (fun _ => Unauthorized) (split_session_token password) in
  verify_data_plane (state (app_access app)) parts protocol (Some username) now.
Lemma authenticated_inv headers username password now note_now (app app' : App E) :
  authenticate_openvpn server headers username password now note_now app = (Ok 204, app') -> exists openvpn protocol view,
  cfg_openvpn server = Some openvpn /\ bearer_token headers = Ok (ov_auth_token openvpn) /\
  transport_protocol server (ov_transport_id openvpn) = Some protocol /\ verified app password protocol username now = Ok view.
Proof.
  unfold authenticate_openvpn. destruct (cfg_openvpn server) as [openvpn|]; [|done].
  destruct (bearer_token headers) as [candidate|]; [|done]. destruct (same_secret _ _) eqn:Ess; [|done].
  destruct (transport_protocol server _) as [protocol|] eqn:Ep; [|done].
  apply andb_true_iff in Ess as [_ <-%bool_decide_eq_true].
  unfold ask_service, bind_handler, authenticate_data_plane, bind, Service.lift, locked. unfold verified. destruct (split_session_token password) as [parts|]; [|done].
  cbn [map_err]. match goal with |- context [note_sign_in ?a ?b ?c ?d ?e] => destruct (note_sign_in a b c d e) as [sv [[]|]] end; [|by intros EX%(f_equal fst)].
  destruct (verify_data_plane _ _ _ _ _) as [view|] eqn:Ev; [|by intros EX%(f_equal fst)]. intros _. by exists openvpn, protocol, view.
Qed.
Lemma data_plane_inv st parts protocol username now view : verify_data_plane st parts protocol username now = Ok view -> exists s g,
  lookup_session st (part_id parts) = Ok (s, g) /\ s_data_plane_secret_hash s = Some (hash_token_secret (part_secret parts)) /\
  admits s g now = true /\ allows (g_protocols g) protocol = true.
Proof.
  unfold verify_data_plane. destruct (match username with Some _ => _ | None => _ end); [|done].
  destruct (lookup_session st _) as [[s g]|]; [|done]. destruct (s_data_plane_secret_hash s) as [h|] eqn:Ehash; [|done]. cbn [ok_or].
  destruct (verify_token_secret _ _) eqn:Ev; [|done]. destruct (admits s g now) eqn:Ea; [|done]. destruct (allows _ _) eqn:Ep; [|done]. intros _.
  unfold verify_token_secret in Ev. apply bool_decide_eq_true in Ev. exists s, g. split_and!; [done|congruence|done..].
Qed.

(** C12: OpenVPN is told to let a user in only for a session of the access
    service that admits it: the user's name is the session's identifier, the
    password its data-plane token, and by the server's clock at that request
    the lease runs and the grant exists, is not paused, has not ended, has data
    left and allows the protocol; and the program showed the server's own
    authentication token. *)
Theorem openvpn_login_sound env argument w w' url : env !! str "KET_OPENVPN_AUTH_URL" = Some url -> auth_route url ->
  openvpn_auth env argument w = (Ok tt, w') ->
  exists path entry contents username secret openvpn protocol s g,
    argument = Some path /\ file_entry path = Some entry /\ file_text entry = Some contents /\ lines contents = [username; username ++ secret] /\
    cfg_openvpn server = Some openvpn /\ env !! str "KET_OPENVPN_AUTH_TOKEN" = Some (ov_auth_token openvpn) /\
    transport_protocol server (ov_transport_id openvpn) = Some protocol /\
    lookup_session (state (app_access (route_app w))) username = Ok (s, g) /\ s_data_plane_secret_hash s = Some (hash_token_secret secret) /\
    admits s g (server_clock w) = true /\ allows (g_protocols g) protocol = true.
Proof.
  intros Hurl Hroute (path & entry & contents & credentials & request & body & -> & Ef & Et & Ec & Er & EH)%auth_inv.
  apply credentials_inv in Ec as (secret & El & Ep & Es).
  unfold auth_request in Er. rewrite Hurl in Er. cbn [ok_or] in Er. destruct (uri_parse url); [|done]. cbn [ok_or] in Er. destruct (bool_decide _); [|done].
  destruct (env !! str "KET_OPENVPN_AUTH_TOKEN") as [token|]; [|done]. cbn [ok_or] in Er. destruct (32 <=? zlen token); [|done].
  destruct (json_to_vec credentials) as [encoded|] eqn:Ej; [|done]. cbn [ok_or] in Er. destruct (header_value_ok _); [|done].
  assert (request = mkHttp HttpPost url (bearer token) true encoded 5) as -> by congruence.
  destruct (Hroute (mkHttp HttpPost url (bearer token) true encoded 5) w body w' eq_refl EH) as (credentials' & note_now & Ej' & EA). cbn [hr_body hr_authorization] in Ej', EA.
  apply json_roundtrip in Ej as [Ej _]. assert (credentials' = credentials) as -> by congruence. clear Ej Ej' EH.
  apply authenticated_inv in EA as (openvpn & protocol & view & Eo & Eb & Epr & EV). apply bearer_sent in Eb as <-.
  unfold verified in EV. rewrite Es in EV. apply data_plane_inv in EV as (s & g & Els & Eh & Ha & Hp).
  exists path, entry, contents, (ar_username credentials), secret, openvpn, protocol, s, g. auto 20.
Qed.
End login.

(** * An OpenVPN in memory *)

Record Vpn := mkVpn { vpn_clients : list VpnClient; vpn_sent : list (list byte); vpn_unread : list byte }.
Definition greeting_line : list byte := str ">INFO:OpenVPN Management Interface Version 5".
Definition vpn_reply (w : Vpn) (bytes : list byte) : list VpnClient * list byte :=
  if bool_decide (bytes = message (str "status 3")) then (vpn_clients w, status_reply [] (vpn_clients w) [str "END"])
  else match strip_prefix (str "kill ") bytes with
       | Some name => (filter (fun c => message (vc_username c) <> name) (vpn_clients w), ended (str "SUCCESS: common name found"))
       | None => (vpn_clients w, [])
       end.
#[export] Instance vpn_management : Management Vpn :=
  {| mg_connect _ w := (Ok tt, mkVpn (vpn_clients w) (vpn_sent w) (ended greeting_line));
     mg_read w := (Ok (vpn_unread w), mkVpn (vpn_clients w) (vpn_sent w) []);
     mg_write bytes w := let '(clients, reply) := vpn_reply w bytes in (Ok tt, mkVpn clients (vpn_sent w ++ [bytes]) reply);
     mg_shutdown w := (Ok tt, w); mg_running _ := true |}.
#[export] Instance vpn_log : ManagementLog Vpn.
Proof.
  refine {| mg_sent := vpn_sent |}; try done. intros bytes w. cbn [mg_write vpn_management]. by destruct (vpn_reply w bytes).
Defined.

Definition demo_openvpn_agent : AgentConfig :=
  mkAgentConfig (mkSocket (V4 0) 8789, 0) demo_secret (str "/openvpn") (str "/server.conf") (str "/run/server.conf") (str "/run/management.sock")
    (str "http://server/auth") demo_secret (str "ketovpn0") (str "eth0") 10.
Definition vpn_client (username address : string) : VpnClient :=
  mkVpnClient (str username) (str "198.51.100.1:1234") (str address) [] 42 19 (str "2026-07-21 00:00:00") 1784592000 (str username)
    [str "0"; str "0"; str "AES-256-GCM"].
Definition alice : VpnClient := vpn_client "AbCdEf123456" "10.67.0.2".
Definition bob : VpnClient := vpn_client "GhIjKl123456" "10.67.0.3".
(** One that has connected and not signed in. *)
Definition pending : VpnClient := vpn_client "UNDEF" "".
Definition vpn_of (clients : list VpnClient) : Vpn := mkVpn clients [] [].

Definition in_a_field_ok (s : list byte) : bool := bool_decide (tab ∉ s) && bool_decide (newline ∉ s).
Definition client_ok (c : VpnClient) : bool :=
  forallb in_a_field_ok (client_fields c) && forallb (fun n => (0 <=? n) && (n <=? u64_max)) [vc_received c; vc_sent c; vc_since c].
Lemma client_ok_spec c : client_ok c = true -> client_wf c.
Proof.
  unfold client_ok. rewrite andb_true_iff. intros [HF HC]. split.
  - apply forallb_Forall in HF. eapply Forall_impl; [exact HF|]. intros s Hs. unfold in_a_field_ok in Hs. by apply andb_true_iff in Hs as [? ?]; split; apply (bool_decide_eq_true_1 _).
  - cbn [forallb] in HC. rewrite !andb_true_iff, !Z.leb_le in HC. unfold is_counter. naive_solver.
Qed.
Lemma plain_line text : bool_decide (newline ∉ text) = true -> parse_status_line text = Ok [text] -> text <> str "CLIENT_LIST" -> other_line text.
Proof. intros Hn Hp Ht. split; [by apply (bool_decide_eq_true_1 _)|]. exists [text]. split; [done|]. split; [cbn [lookup list_lookup]; congruence|done]. Qed.
Lemma demo_lines : Forall other_line [greeting_line] /\ Forall other_line [str "END"].
Proof. split; (apply Forall_singleton, plain_line; [vm_compute; reflexivity..|vm_compute; congruence]). Qed.
Lemma runs_from {A E} (m : task Vpn E A) w r : (m w).1 = r -> m w = (r, (m w).2).
Proof. destruct (m w). cbn. by intros ->. Qed.

Definition asked (clients : list VpnClient) : Vpn := (command demo_openvpn_agent (str "status 3") (vpn_of clients)).2.
Lemma status_lists_clients_witness :
  list_sessions demo_openvpn_agent (vpn_of [alice; bob]) = (Ok [session_of alice; session_of bob], asked [alice; bob]).
Proof.
  apply (status_lists_clients demo_openvpn_agent [greeting_line] [alice; bob] [str "END"]).
  - apply demo_lines.
  - repeat (apply Forall_cons_2; [apply client_ok_spec; vm_compute; reflexivity|]). apply Forall_nil_2.
  - repeat (apply Forall_cons_2; [split; [vm_compute; reflexivity|]|]); [| |apply Forall_nil_2].
    + exists (ipv4 10 67 0 2). split_and!; vm_compute; reflexivity.
    + exists (ipv4 10 67 0 3). split_and!; vm_compute; reflexivity.
  - apply demo_lines.
  - apply runs_from. vm_compute. reflexivity.
Defined.
Lemma pending_client_stops_agent_witness :
  remove_sessions demo_openvpn_agent (mkRemoveOpenVpn [str "AbCdEf123456"]) (vpn_of [alice; pending]) = (Err unavailable_error, asked [alice; pending]).
Proof.
  refine (proj1 (proj2 (pending_client_stops_agent demo_openvpn_agent [greeting_line] [alice; pending] [str "END"] pending
    (vpn_of [alice; pending]) (asked [alice; pending]) _ _ _ _ _ _)) (mkRemoveOpenVpn [str "AbCdEf123456"]) _).
  - apply demo_lines.
  - repeat (apply Forall_cons_2; [apply client_ok_spec; vm_compute; reflexivity|]). apply Forall_nil_2.
  - apply demo_lines.
  - right. left.
  - vm_compute. reflexivity.
  - apply runs_from. vm_compute. reflexivity.
  - vm_compute. reflexivity.
Defined.
Definition removal : RemoveOpenVpnSessions := mkRemoveOpenVpn [str "AbCdEf123456"].
Definition removed : Vpn := (remove_sessions demo_openvpn_agent removal (vpn_of [alice; bob])).2.
Lemma agent_ends_only_named_witness : vpn_clients removed = [bob] /\ exists l, vpn_sent removed = l /\ kill (str "AbCdEf123456") ∈ l /\
  told (fun u => u ∈ remove_usernames removal /\ listed_now demo_openvpn_agent (vpn_of [alice; bob]) u) l.
Proof.
  split; [vm_compute; reflexivity|].
  destruct (proj1 (agent_ends_only_named demo_openvpn_agent (vpn_of [alice; bob])) removal (Ok 204) removed) as (l & S1 & H1 & H2).
  - apply runs_from. vm_compute. reflexivity.
  - exists l. split; [exact S1|]. split; [|exact H1]. rewrite <- (S1 : vpn_sent removed = l). apply (bool_decide_unpack _). vm_compute. exact I.
Defined.

(** * A sign-in *)

Definition AuthLines (r : AuthRequest) : option (list byte) :=
  if bool_decide (newline ∉ ar_username r) then Some (ar_username r ++ newline :: ar_password r) else None.
#[local] Instance auth_json : Json AuthRequest :=
  {| json_to_vec := AuthLines; json_from_slice b := match split_once newline b with Some (u, p) => Some (mkAuthRequest u p) | None => None end |}.
#[local] Instance auth_json_laws : JsonLaws AuthRequest.
Proof.
  intros [u p] bytes. cbn [json_to_vec json_from_slice auth_json]. unfold AuthLines. cbn [ar_username ar_password]. case_bool_decide as Hu; [|done]. intros E.
  assert (bytes = u ++ newline :: p) as -> by congruence. rewrite split_once_app by done. by split; [|destruct u].
Qed.
#[local] Instance http_uri : UriParser := fun _ => Some (Some (str "http"), true).
#[local] Instance credential_files : Files := fun _ =>
  Some (mkFile true 57 (Some (cs_id demo_created ++ newline :: cs_data_plane_token demo_created ++ [newline]))).
Definition auth_answer (q : HttpRequest) (app : App unit) : HttpOutcome * App unit :=
  match json_from_slice (hr_body q) with
  | Some r =>
    match authenticate_openvpn demo_config [(str "authorization", hr_authorization q)] (ar_username r) (ar_password r) (demo_now + 10) (demo_now + 10) app with
    | (Ok status, app) => (HttpAnswer status (Ok []), app)
    | (Err _, app) => (HttpAnswer 500 (Ok []), app)
    end
  | None => (HttpAnswer 422 (Ok []), app)
  end.
#[local] Instance auth_world : EngineWorld (App unit) :=
  {| world_http := auth_answer; world_udp _ _ _ w := (UdpTimeout, w); world_run _ _ _ w := (RunTimeout, w);
     world_create _ _ w := (None, w); world_remove _ w := (None, w); temp_file name := name |}.
Lemma demo_auth_route url : auth_route demo_config (fun app : App unit => app) (fun _ => demo_now + 10) url.
Proof.
  intros q w body w' _. cbn [world_http auth_world]. unfold auth_answer. destruct (json_from_slice (hr_body q)) as [r|]; [|done].
  destruct (authenticate_openvpn _ _ _ _ _ _ w) as [[status|e] app] eqn:E; [|done]. intros Hs. exists r, (demo_now + 10).
  split; [done|]. rewrite E. congruence.
Qed.
Definition auth_env : Environment := list_to_map [
  (str "KET_OPENVPN_AUTH_URL", str "http://server/auth"); (str "KET_OPENVPN_AUTH_TOKEN", str "openvpn-auth-0123456789abcdef0123")].
Definition auth_app : App unit := mkApp demo_one tt true (mkMetrics 0 0 0 0).
Definition signed_app : App unit := (openvpn_auth auth_env (Some (str "/tmp/credentials")) auth_app).2.
Lemma openvpn_login_sound_witness : exists s g, lookup_session (state demo_one) (cs_id demo_created) = Ok (s, g) /\ admits s g (demo_now + 10) = true /\
  accepted_data_plane_auth (app_metrics signed_app) = 1.
Proof.
  destruct (openvpn_login_sound demo_config (fun app : App unit => app) (fun _ => demo_now + 10) auth_env (Some (str "/tmp/credentials")) auth_app signed_app (str "http://server/auth"))
    as (path & entry & contents & username & secret & openvpn & protocol & s & g & Ep & Ef & Et & El & _ & _ & _ & Es & _ & Had & _).
  - vm_compute. reflexivity.
  - apply demo_auth_route.
  - unfold signed_app. assert (E : (openvpn_auth auth_env (Some (str "/tmp/credentials")) auth_app).1 = Ok tt) by (vm_compute; reflexivity).
    destruct (openvpn_auth auth_env (Some (str "/tmp/credentials")) auth_app) as [r w']. cbn [fst snd] in *. by rewrite E.
  - exists s, g. split; [|split; [exact Had|vm_compute; reflexivity]]. unfold file_entry, credential_files in Ef.
    assert (Hc : file_text entry = Some (cs_id demo_created ++ newline :: cs_data_plane_token demo_created ++ [newline]))
      by (replace entry with (mkFile true 57 (Some (cs_id demo_created ++ newline :: cs_data_plane_token demo_created ++ [newline]))) by congruence; reflexivity).
    assert (contents = cs_id demo_created ++ newline :: cs_data_plane_token demo_created ++ [newline]) as -> by congruence.
    assert (EL : head (lines (cs_id demo_created ++ newline :: cs_data_plane_token demo_created ++ [newline])) = Some (cs_id demo_created)) by (vm_compute; reflexivity).
    rewrite El in EL. cbn [head] in EL. assert (username = cs_id demo_created) as -> by congruence. exact Es.
Defined.
