(* ===== verification/ClientEngines.v ===== *)
(** The transports of the desktop app, as far as they depend on the session
    alone: what crates/ket-client-core/src/hysteria.rs, xray.rs, openvpn.rs,
    shadowsocks.rs and wireguard.rs ask of a transport, and the settings they
    write for their engines.

    OpenVPN key material between the two programs: what the server makes of a
    PEM file ([normalize_openvpn_material] of config.rs) read back by the
    desktop app ([decode_material] of openvpn.rs). *)

From Stdlib Require Import ZArith Lia.
From stdpp Require Import gmap strings.
From S2P Require Import Prelude Order Utf8 Str Net Bypass Tunnel Grant Contract Control Validation StdText Config ConfigProps Engines EngineControls ApiTransports WireGuardAgent OpenVpnAgent.

Global Instance Network_eq_dec : EqDecision Network.
Proof. solve_decision. Defined.

(** What stops an engine from being set up: an error, or a panic. *)
Inductive Fault := Fails (e : ClientError) | Panicked.
Definition transport_error (id message : list byte) (retryable : bool) : ClientError := TransportError id message retryable.
(** [expect], and an index of a map. *)
Definition expect_some {A} (o : option A) : result Fault A := ok_or o Panicked.
Definition checked_as {A} (r : result ClientError A) : result Fault A := map_err Fails r.
(** [serde_json::to_vec_pretty]. *)
Class PrettyJson := to_vec_pretty : Value -> option (list byte).

(** * Checks the transports share *)

Definition refuse_transport {A} (t : SessionTransport) (message : list byte) : result ClientError A :=
  Err (transport_error (tp_id (st_profile t)) message false).
(** [keys().find(|key| !known.contains(key))]. *)
Definition unknown_key (known : list string) (m : gmap (list byte) (list byte)) : option (list byte) :=
  head (filter (fun key => key ∉ map str known) (map fst (entries m))).
Definition reject_unknown (t : SessionTransport) (known : list string) (m : gmap (list byte) (list byte)) (complaint : list byte) : result ClientError unit :=
  match unknown_key known m with Some key => refuse_transport t (complaint ++ key) | None => Ok tt end.
Definition require_option (t : SessionTransport) (complaint : list byte) (kv : string * string) : result ClientError unit :=
  if bool_decide (tp_options (st_profile t) !! str (fst kv) = Some (str (snd kv))) then Ok tt else refuse_transport t (complaint ++ str (fst kv)).
(** A secret or an option that is there and not empty. *)
Definition nonempty_of (o : option (list byte)) : option (list byte) :=
  match o with Some v => if bool_decide (v = []) then None else Some v | None => None end.
Definition secret_of (t : SessionTransport) (key : string) : option (list byte) :=
  nonempty_of (st_credential t ≫= fun c => tc_secrets c !! str key).
Definition named_secret (t : SessionTransport) (name : string) (key : string) : result ClientError (list byte) :=
  match secret_of t key with Some v => Ok v | None => refuse_transport t (str name ++ str key ++ str " is missing") end.
Definition named_option (t : SessionTransport) (name : string) (key : string) : result ClientError (list byte) :=
  match nonempty_of (tp_options (st_profile t) !! str key) with
  | Some v => Ok v
  | None => refuse_transport t (str name ++ str " option " ++ str key ++ str " is missing")
  end.
Definition expected_option (t : SessionTransport) (name : string) (complaint : string) (kv : string * string) : result ClientError unit :=
  let* value := named_option t name (fst kv) in
  require bool_decide (value = str (snd kv)) else transport_error (tp_id (st_profile t)) (str complaint ++ str (fst kv)) false in Ok tt.
Definition the_credential (t : SessionTransport) (complaint : string) : result ClientError TransportCredential :=
  match st_credential t with Some c => Ok c | None => refuse_transport t (str complaint) end.

(** [valid_hostname] and [valid_endpoint]. *)
Definition host_label (label : list byte) : bool :=
  negb (bool_decide (label = [])) && (zlen label <=? 63) && negb (starts_with hyphen label) && negb (ends_with_byte hyphen label)
  && forallb (fun b => is_ascii_alphanumeric b || bool_decide (b = hyphen)) label.
Definition valid_hostname (value : list byte) : bool :=
  negb (bool_decide (value = [])) && (zlen value <=? 253) && negb (starts_with dot value) && negb (ends_with_byte dot value)
  && forallb host_label (split_on dot value).
Definition is_ip (value : list byte) : bool := bool_decide (is_Some (parse_ip value)).
Definition valid_endpoint (value : list byte) : bool := is_ip value || valid_hostname value.
(** The endpoint checks of hysteria.rs and xray.rs. *)
Definition plain_endpoint (p : TransportProfile) : bool :=
  negb (bool_decide (trim (tp_endpoint p) = []) || contains (str "://") (tp_endpoint p) || bool_decide (z2b 47 ∈ tp_endpoint p) || (tp_port p =? 0)).
(** [match address { V4(a) => a.to_string(), V6(a) => format!("[{a}]") }]. *)
Definition host_of (a : IpAddr) : list byte := match a with V4 _ => show_ip a | V6 _ => z2b 91 :: show_ip a ++ [z2b 93] end.
Definition authority_of (a : IpAddr) (port : Z) : list byte := host_of a ++ colon :: show_u64 port.
Definition loopback_address (port : Z) : list byte := str "127.0.0.1:" ++ show_u64 port.

(** * Hysteria *)

Definition HYSTERIA_OPTIONS : list string := ["inner_protocol"; "obfs"; "gecko_min_packet_size"; "gecko_max_packet_size"]%string.
Definition HYSTERIA_SECRETS : list string := ["obfs_password"]%string.
Definition validate_protocol_mode (t : SessionTransport) : result ClientError unit :=
  let options := tp_options (st_profile t) in
  let inner := options !! str "inner_protocol" in
  let obfs := default (str "none") (options !! str "obfs") in
  match tp_protocol (st_profile t) with
  | XorScrambled =>
    if bool_decide (inner = Some (str "hysteria2")) && bool_decide (obfs ∈ [str "salamander"; str "gecko"]) then Ok tt
    else refuse_transport t (str "XOR mode must wrap Hysteria2 with Salamander or Gecko obfuscation")
  | Hysteria2 => if bool_decide (inner = None) then Ok tt else refuse_transport t (str "plain Hysteria2 cannot declare an inner protocol")
  | _ => refuse_transport t (str "profile is not a Hysteria2 UDP transport")
  end.
Definition hysteria_supports (t : SessionTransport) : bool := bool_decide (tp_protocol (st_profile t) ∈ [Hysteria2; XorScrambled]).
Definition hysteria_validate (t : SessionTransport) : result ClientError unit :=
  let p := st_profile t in
  let* _ := if hysteria_supports t && bool_decide (tp_network p = Udp) then Ok tt else refuse_transport t (str "profile is not a Hysteria2 UDP transport") in
  let* _ := if plain_endpoint p then Ok tt else refuse_transport t (str "server endpoint is invalid") in
  let* _ := match tp_tls_server_name p with
            | Some name => if bool_decide (trim name = []) then refuse_transport t (str "TLS server name is required") else Ok tt
            | None => refuse_transport t (str "TLS server name is required")
            end in
  let* credential := the_credential t "transport credential is missing" in
  let* _ := if bool_decide (tc_auth credential = []) then refuse_transport t (str "transport credential is empty") else Ok tt in
  let* _ := reject_unknown t HYSTERIA_OPTIONS (tp_options p) (str "unsupported Hysteria2 option ") in
  let* _ := reject_unknown t HYSTERIA_SECRETS (tc_secrets credential) (str "unsupported Hysteria2 credential ") in
  validate_protocol_mode t.
Definition obfs_password (t : SessionTransport) : result ClientError (list byte) :=
  match secret_of t "obfs_password" with Some v => Ok v | None => refuse_transport t (str "obfuscation password is missing") end.
Definition packet_size (t : SessionTransport) (key : string) (default : Z) : result ClientError Z :=
  match tp_options (st_profile t) !! str key with
  | Some value => match parse_uint u16_max value with Some n => Ok n | None => refuse_transport t (str key ++ str " is invalid") end
  | None => Ok default
  end.
(** The [obfs] of [render_client_config]. *)
Definition hysteria_obfs (t : SessionTransport) (credential : TransportCredential) : result ClientError (option Value) :=
  match tp_options (st_profile t) !! str "obfs" with
  | None =>
    if bool_decide (is_Some (tc_secrets credential !! str "obfs_password"))
    then refuse_transport t (str "obfuscation password was supplied without an obfuscation mode") else Ok None
  | Some mode =>
    if bool_decide (mode = str "none") then
      if bool_decide (is_Some (tc_secrets credential !! str "obfs_password"))
      then refuse_transport t (str "obfuscation password was supplied without an obfuscation mode") else Ok None
    else if bool_decide (mode = str "salamander") then
      let* password := obfs_password t in
      Ok (Some (Object ["type" ::= text "salamander"; "salamander" ::= Object ["password" ::= JString password]]))
    else if bool_decide (mode = str "gecko") then
      let* password := obfs_password t in
      let* min_packet_size := packet_size t "gecko_min_packet_size" 512 in
      let* max_packet_size := packet_size t "gecko_max_packet_size" 1200 in
      let* _ := if (max_packet_size <? min_packet_size) || (2048 <? max_packet_size)
                then refuse_transport t (str "Gecko packet size bounds are invalid") else Ok tt in
      Ok (Some (Object ["type" ::= text "gecko"; "gecko" ::= Object ["password" ::= JString password; "minPacketSize" ::= number min_packet_size;
                          "maxPacketSize" ::= number max_packet_size]]))
    else refuse_transport t (str "unsupported Hysteria2 obfuscation mode")
  end.
Definition hysteria_document (t : SessionTransport) (server_address : IpAddr) (socks_port : Z) : result Fault Value :=
  let* _ := checked_as (hysteria_validate t) in
  let* credential := expect_some (st_credential t) in
  let* sni := expect_some (tp_tls_server_name (st_profile t)) in
  let* obfs := checked_as (hysteria_obfs t credential) in
  Ok (Object (["server" ::= JString (authority_of server_address (tp_port (st_profile t))); "auth" ::= JString (tc_auth credential);
               "tls" ::= Object ["sni" ::= JString sni]]
              ++ match obfs with Some obfs => ["obfs" ::= obfs] | None => [] end ++
              ["quic" ::= Object ["maxIdleTimeout" ::= text "30s"; "keepAlivePeriod" ::= text "10s"]; "fastOpen" ::= Bool false;
               "socks5" ::= Object ["listen" ::= JString (loopback_address socks_port); "disableUDP" ::= Bool false]])).
Definition encode_document `{PrettyJson} (t : SessionTransport) (complaint : string) (document : Value) : result Fault (list byte) :=
  match to_vec_pretty document with Some bytes => Ok bytes | None => checked_as (refuse_transport t (str complaint)) end.
Definition hysteria_render `{PrettyJson} (t : SessionTransport) (server_address : IpAddr) (socks_port : Z) : result Fault (list byte) :=
  let* document := hysteria_document t server_address socks_port in encode_document t "failed to encode Hysteria2 configuration" document.

(** [classify_diagnostic]. *)
Definition lowercase (s : list byte) : list byte := map to_ascii_lowercase s.
Definition contains_any (value : list byte) (needles : list string) : bool := existsb (fun needle => contains (str needle) value) needles.
Definition classify_diagnostic (line : list byte) : option (list byte) :=
  let normalized := lowercase line in
  if contains_any normalized ["permission denied"; "operation not permitted"]%string then Some (str "the Hysteria2 local proxy could not be initialized")
  else if contains_any normalized ["authentication failed"; "authentication error"]%string then Some (str "the server rejected the transport credential")
  else if contains_any normalized ["certificate"; "tls verification"]%string then Some (str "server certificate verification failed")
  else if contains_any normalized ["no recent network activity"; "connect error"]%string then Some (str "the Hysteria2 server did not respond")
  else if contains_any normalized ["network is unreachable"]%string then Some (str "the server network is unreachable")
  else None.

(** * VLESS over REALITY and HTTPS *)

Definition REALITY_OPTIONS : list string := ["encryption"; "fingerprint"; "flow"; "transport"]%string.
Definition REALITY_SECRETS : list string := ["reality_password"; "reality_short_id"]%string.
Definition XHTTP_OPTIONS : list string := ["encryption"; "fingerprint"; "mode"; "path"; "security"; "transport"]%string.
Definition FINGERPRINTS : list string := ["chrome"; "firefox"; "safari"; "ios"; "android"; "edge"; "random"]%string.
Definition FRAGMENT_TAG : string := "ket-fragment".

Definition reject_unknown_options (t : SessionTransport) (known : list string) (name : string) : result ClientError unit :=
  reject_unknown t known (tp_options (st_profile t)) (str "unsupported " ++ str name ++ str " option ").
Definition require_options (t : SessionTransport) (expected : list (string * string)) (name : string) : result ClientError unit :=
  check_all (require_option t (str "unsupported " ++ str name ++ str " ")) expected.
Definition validate_fingerprint (t : SessionTransport) (name : string) : result ClientError (list byte) :=
  match tp_options (st_profile t) !! str "fingerprint" with
  | Some value => if bool_decide (value ∈ map str FINGERPRINTS) then Ok value else refuse_transport t (str name ++ str " fingerprint is invalid")
  | None => refuse_transport t (str name ++ str " fingerprint is invalid")
  end.
Definition valid_xhttp_path (path : list byte) : bool :=
  (16 <=? zlen path) && (zlen path <=? 128) && starts_with (z2b 47) path && negb (ends_with_byte (z2b 47) path)
  && negb (contains (str "//") path) && forallb (fun b => is_ascii_alphanumeric b || bool_decide (b ∈ str "/-_")) path.
Definition is_ascii_hexdigit (b : byte) : bool := bool_decide (is_Some (to_digit 16 b)).
Definition valid_uuid (value : list byte) : bool :=
  (zlen value =? 36) &&
  forallb (fun '(index, b) => if bool_decide (index ∈ [8; 13; 18; 23]%nat) then bool_decide (b = hyphen) else is_ascii_hexdigit b)
    (zip (seq 0 (length value)) value).
(** [required_secret] of xray.rs. *)
Definition xray_secret (t : SessionTransport) (key : string) : result ClientError (list byte) := named_secret t "" key.

Definition validate_reality_transport (t : SessionTransport) (credential : TransportCredential) : result ClientError unit :=
  let name := "VLESS + REALITY"%string in
  let* _ := reject_unknown_options t REALITY_OPTIONS name in
  let* _ := require_options t [("encryption", "none"); ("flow", "xtls-rprx-vision"); ("transport", "raw")]%string name in
  let* _ := validate_fingerprint t "Reality" in
  let* _ := reject_unknown t REALITY_SECRETS (tc_secrets credential) (str "unsupported VLESS + REALITY credential ") in
  let* password := xray_secret t "reality_password" in
  let* _ := if (zlen password =? 43) && forallb (fun b => is_ascii_alphanumeric b || bool_decide (b ∈ str "-_")) password then Ok tt
            else refuse_transport t (str "Reality password is invalid") in
  let* short_id := xray_secret t "reality_short_id" in
  if (zlen short_id =? 16) && forallb is_ascii_hexdigit short_id then Ok tt else refuse_transport t (str "Reality short ID is invalid").
Definition validate_xhttp_transport (t : SessionTransport) (credential : TransportCredential) : result ClientError unit :=
  let name := "HTTPS Stealth"%string in
  let* _ := reject_unknown_options t XHTTP_OPTIONS name in
  let* _ := require_options t [("encryption", "none"); ("mode", "packet-up"); ("security", "tls"); ("transport", "xhttp")]%string name in
  let* _ := validate_fingerprint t name in
  let* _ := match tp_options (st_profile t) !! str "path" with
            | Some path => if valid_xhttp_path path then Ok tt else refuse_transport t (str "HTTPS Stealth path is invalid")
            | None => refuse_transport t (str "HTTPS Stealth path is invalid")
            end in
  if bool_decide (tc_secrets credential = ∅) then Ok tt else refuse_transport t (str "HTTPS Stealth credential contains unsupported secrets").
Definition xray_supports (t : SessionTransport) : bool := bool_decide (tp_protocol (st_profile t) ∈ [VlessXtlsReality; Stealth]).
(** The [unreachable!] after the protocols are checked is a panic. *)
Definition xray_validate (t : SessionTransport) : result Fault unit :=
  let p := st_profile t in
  let* _ := if bool_decide (tp_network p = Tcp) && xray_supports t then Ok tt
            else checked_as (refuse_transport t (str "profile is not a supported Xray TCP transport")) in
  let* _ := if plain_endpoint p then Ok tt else checked_as (refuse_transport t (str "server endpoint is invalid")) in
  let* sni := match tp_tls_server_name p with
              | Some name => if valid_hostname name then Ok name else checked_as (refuse_transport t (str "TLS server name is invalid"))
              | None => checked_as (refuse_transport t (str "TLS server name is invalid"))
              end in
  let* _ := if is_ip sni then checked_as (refuse_transport t (str "TLS server name must be a hostname")) else Ok tt in
  let* credential := checked_as (the_credential t "transport credential is missing") in
  let* _ := if valid_uuid (tc_auth credential) then Ok tt else checked_as (refuse_transport t (str "VLESS user ID is invalid")) in
  match tp_protocol p with
  | VlessXtlsReality => checked_as (validate_reality_transport t credential)
  | Stealth => checked_as (validate_xhttp_transport t credential)
  | _ => Err Panicked
  end.

Definition socks_inbound (socks_port : Z) : Value :=
  object ["tag" ::= text "ket-socks"; "listen" ::= text "127.0.0.1"; "port" ::= number socks_port; "protocol" ::= text "socks";
          "settings" ::= object ["auth" ::= text "noauth"; "udp" ::= Bool true];
          "sniffing" ::= object ["enabled" ::= Bool true; "destOverride" ::= Array [text "http"; text "tls"; text "quic"]; "routeOnly" ::= Bool true]].
Definition name_value (name : option (list byte)) : Value := match name with Some name => JString name | None => Null end.
(** The tag, the user and the stream settings of the two protocols. *)
Definition xray_stream (t : SessionTransport) (credential : TransportCredential) : result Fault (Value * Value * Value) :=
  let p := st_profile t in
  let option key := let* v := expect_some (tp_options p !! str key) in Ok (JString v) in
  let server_name := name_value (tp_tls_server_name p) in
  match tp_protocol p with
  | VlessXtlsReality =>
    let* encryption := option "encryption"%string in
    let* flow := option "flow"%string in
    let* network := option "transport"%string in
    let* fingerprint := option "fingerprint"%string in
    let* password := checked_as (xray_secret t "reality_password") in
    let* short_id := checked_as (xray_secret t "reality_short_id") in
    Ok (text "ket-reality", object ["id" ::= JString (tc_auth credential); "encryption" ::= encryption; "flow" ::= flow],
        object ["network" ::= network; "security" ::= text "reality";
                "realitySettings" ::= object ["show" ::= Bool false; "fingerprint" ::= fingerprint; "serverName" ::= server_name;
                  "password" ::= JString password; "shortId" ::= JString short_id; "spiderX" ::= text "/"]])
  | Stealth =>
    let* encryption := option "encryption"%string in
    let* network := option "transport"%string in
    let* security := option "security"%string in
    let* fingerprint := option "fingerprint"%string in
    let* path := option "path"%string in
    let* mode := option "mode"%string in
    Ok (text "ket-stealth", object ["id" ::= JString (tc_auth credential); "encryption" ::= encryption],
        object ["network" ::= network; "security" ::= security;
                "tlsSettings" ::= object ["fingerprint" ::= fingerprint; "serverName" ::= server_name; "alpn" ::= Array [text "h2"; text "http/1.1"]];
                "xhttpSettings" ::= object ["host" ::= server_name; "path" ::= path; "mode" ::= mode]])
  | _ => Err Panicked
  end.
Definition xray_document (t : SessionTransport) (server_address : IpAddr) (socks_port : Z) (connect_options : ConnectOptions) : result Fault Value :=
  let* _ := xray_validate t in
  let* credential := expect_some (st_credential t) in
  let* (tag, user, stream_settings) := xray_stream t credential in
  let outbound (stream_settings : Value) := object ["tag" ::= tag; "protocol" ::= text "vless";
    "settings" ::= object ["vnext" ::= Array [object ["address" ::= JString (show_ip server_address);
                             "port" ::= number (tp_port (st_profile t)); "users" ::= Array [user]]]];
    "streamSettings" ::= stream_settings] in
  let outbounds :=
    if split_tls_hello connect_options then
      [outbound (json_insert (str "sockopt") (object ["dialerProxy" ::= text FRAGMENT_TAG]) stream_settings);
       object ["tag" ::= text FRAGMENT_TAG; "protocol" ::= text "freedom";
               "settings" ::= object ["fragment" ::= object ["packets" ::= text "tlshello"; "length" ::= text "100-200"; "interval" ::= text "10-20"]]]]
    else [outbound stream_settings] in
  Ok (object ["log" ::= object ["loglevel" ::= text "warning"]; "inbounds" ::= Array [socks_inbound socks_port]; "outbounds" ::= Array outbounds]).
Definition xray_render `{PrettyJson} (t : SessionTransport) (server_address : IpAddr) (socks_port : Z) (o : ConnectOptions) : result Fault (list byte) :=
  let* document := xray_document t server_address socks_port o in encode_document t "failed to encode the Xray transport configuration" document.

(** * OpenVPN over stunnel *)

Definition OPENVPN_OPTIONS : list string := ["auth_mode"; "cipher"; "remote_cert_tls"; "tls_crypt"; "tls_minimum"; "transport"]%string.
Definition OPENVPN_SECRETS : list string := ["ca_certificate_pem_b64"; "stunnel_ca_certificate_pem_b64"; "tls_crypt_key_b64"; "username"]%string.
Definition MAX_CLIENT_MATERIAL_BYTES : Z := 8 * 1024.
Definition openvpn_secret (t : SessionTransport) (key : string) : result ClientError (list byte) := named_secret t "OpenVPN secret " key.

Section openvpn.
Context `{Base64}.

Definition decode_material (t : SessionTransport) (key : string) (begin_ end_ : list byte) : result ClientError (list byte) :=
  let complaint (why : string) := str "OpenVPN secret " ++ str key ++ str why in
  let* encoded := openvpn_secret t key in
  let* decoded := match base64_decode encoded with Some d => Ok d | None => refuse_transport t (complaint " is not base64"%string) end in
  let* _ := if bool_decide (decoded = []) || (MAX_CLIENT_MATERIAL_BYTES <? zlen decoded)
            then refuse_transport t (complaint " has an invalid size"%string) else Ok tt in
  let* _ := if valid_utf8 decoded then Ok tt else refuse_transport t (complaint " is not UTF-8"%string) in
  let trimmed := trim decoded in
  if negb (starts_with_str begin_ trimmed) || negb (ends_with trimmed end_) || bool_decide (z2b 0 ∈ trimmed)
     || existsb (fun line => 256 <? zlen line) (lines trimmed)
  then refuse_transport t (complaint " contains invalid key material"%string) else Ok decoded.

Definition scoped_credential (username password : list byte) : bool :=
  (zlen username =? 12) && forallb is_ascii_alphanumeric username && (zlen password =? 44) && forallb is_ascii_alphanumeric password
  && starts_with_str username password.
Definition openvpn_supports (t : SessionTransport) : bool := bool_decide (tp_protocol (st_profile t) = OpenVpnStunnel).
Definition openvpn_validate (t : SessionTransport) : result ClientError unit :=
  let p := st_profile t in
  let* _ := if openvpn_supports t && bool_decide (tp_network p = Tcp) && negb (tp_port p =? 0) && valid_endpoint (tp_endpoint p) then Ok tt
            else refuse_transport t (str "profile is not a valid OpenVPN stunnel transport") in
  let* sni := match tp_tls_server_name p with
              | Some name => if valid_hostname name && negb (is_ip name) then Ok name else refuse_transport t (str "OpenVPN TLS server name is invalid")
              | None => refuse_transport t (str "OpenVPN TLS server name is invalid")
              end in
  let* _ := if negb (bool_decide (sni = tp_endpoint p)) && negb (is_ip (tp_endpoint p))
            then refuse_transport t (str "OpenVPN endpoint and TLS identity do not match") else Ok tt in
  let* _ := match unknown_key OPENVPN_OPTIONS (tp_options p) with
            | Some _ => refuse_transport t (str "OpenVPN profile contains unsupported options")
            | None => Ok tt
            end in
  let* _ := check_all (expected_option t "OpenVPN" "unsupported OpenVPN ")
              [("auth_mode", "session_token"); ("cipher", "aes_256_gcm"); ("remote_cert_tls", "server"); ("tls_crypt", "v1");
               ("tls_minimum", "1.2"); ("transport", "stunnel_tls")]%string in
  let* credential := the_credential t "OpenVPN credential is missing" in
  let* _ := if negb (size (tc_secrets credential) =? 4)%nat || bool_decide (is_Some (unknown_key OPENVPN_SECRETS (tc_secrets credential)))
            then refuse_transport t (str "OpenVPN credential contains unsupported secrets") else Ok tt in
  let* username := openvpn_secret t "username" in
  let* _ := if scoped_credential username (tc_auth credential) then Ok tt else refuse_transport t (str "OpenVPN scoped credential is invalid") in
  let* _ := decode_material t "ca_certificate_pem_b64" BEGIN_CERTIFICATE END_CERTIFICATE in
  let* _ := decode_material t "stunnel_ca_certificate_pem_b64" BEGIN_CERTIFICATE END_CERTIFICATE in
  let* _ := decode_material t "tls_crypt_key_b64" BEGIN_STATIC_KEY END_STATIC_KEY in
  Ok tt.

(** [config_path] and [quote_openvpn_path]. *)
Definition config_path (path : list byte) (t : SessionTransport) : result ClientError (list byte) :=
  let path := replace_byte backslash [z2b 47] (encode_chars (from_utf8_lossy path)) in
  if bool_decide (path = []) || existsb (fun b => bool_decide (b ∈ [newline; z2b 13; z2b 0])) path
  then refuse_transport t (str "private runtime path is invalid") else Ok path.
Definition quote_openvpn_path (path : list byte) (t : SessionTransport) : result ClientError (list byte) :=
  let* path := config_path path t in
  Ok (double_quote :: replace_byte double_quote [backslash; double_quote] path ++ [double_quote]).

(** Lines of a configuration. *)
Definition document (l : list (list byte)) : list byte := flat_map (fun line => line ++ [newline]) l.
Definition render_stunnel_config (t : SessionTransport) (server_address : IpAddr) (local_port : Z) (ca_path : list byte) : result Fault (list byte) :=
  let* _ := checked_as (openvpn_validate t) in
  let* sni := expect_some (tp_tls_server_name (st_profile t)) in
  let* ca_path := checked_as (config_path ca_path t) in
  Ok (document [str "foreground = yes"; str "syslog = no"; str "debug = notice"; str "client = yes"; str "sslVersionMin = TLSv1.2"; [];
        str "[ket-openvpn]"; str "accept = " ++ loopback_address local_port; str "connect = " ++ authority_of server_address (tp_port (st_profile t));
        str "verifyChain = yes"; str "CAfile = " ++ ca_path; str "checkHost = " ++ sni; str "sni = " ++ sni]).

(** [BTreeSet] of the addresses of [server_addresses]. *)
Definition server_ips (server_addresses : list SocketAddr) : list IpAddr := dedup (sort_by_key Datatypes.id (map sa_ip server_addresses)).
Definition server_route (address : IpAddr) : list byte :=
  match address with
  | V4 _ => str "route " ++ show_ip address ++ str " 255.255.255.255 net_gateway"
  | V6 _ => str "route-ipv6 " ++ show_ip address ++ str "/128 net_gateway"
  end.
Definition bypass_route (prefix : IpPrefix) : list byte :=
  match ipv4_netmask prefix with
  | Some mask => str "route " ++ show_ip (p_address prefix) ++ z2b 32 :: show_ip (V4 mask) ++ str " net_gateway"
  | None => str "route-ipv6 " ++ show_ip (p_address prefix) ++ z2b 47 :: show_u64 (p_length prefix) ++ str " net_gateway"
  end.
(** The lines before the routes, on Linux. *)
Definition OPENVPN_INTERFACE : list byte := str "ketvpn0".
Definition openvpn_settings (carrier_port management_port : Z) (sni management_password_path : list byte) : list (list byte) :=
  [str "client"; str "dev ketvpn0"; str "dev-type tun"; str "proto tcp-client"; str "remote 127.0.0.1 " ++ show_u64 carrier_port; str "nobind";
   str "connect-retry 2 5"; str "connect-retry-max 3"; str "connect-timeout 10"; str "resolv-retry 0"; str "remote-cert-tls server";
   str "verify-x509-name " ++ sni ++ str " name"; str "tls-version-min 1.2"; str "tls-cert-profile preferred";
   str "data-ciphers AES-256-GCM:AES-128-GCM:CHACHA20-POLY1305"; str "data-ciphers-fallback AES-256-GCM"; str "auth SHA256";
   str "allow-compression no"; str "auth-retry none"; str "auth-nocache";
   str "pull-filter ignore " ++ double_quote :: str "redirect-gateway" ++ [double_quote]; str "redirect-gateway local def1 bypass-dhcp"; str "block-ipv6";
   str "persist-key"; str "persist-tun"; str "management 127.0.0.1 " ++ show_u64 management_port ++ z2b 32 :: management_password_path;
   str "management-log-cache 50"; str "verb 3"; str "mute 10"].
Definition render_openvpn_config (t : SessionTransport) (carrier_port management_port : Z) (management_password_path : list byte)
    (server_addresses : list SocketAddr) (bypass : list IpPrefix) : result Fault (list byte) :=
  let* _ := checked_as (openvpn_validate t) in
  let* credential := expect_some (st_credential t) in
  let* username := checked_as (openvpn_secret t "username") in
  let* ca := checked_as (decode_material t "ca_certificate_pem_b64" BEGIN_CERTIFICATE END_CERTIFICATE) in
  let* tls_crypt := checked_as (decode_material t "tls_crypt_key_b64" BEGIN_STATIC_KEY END_STATIC_KEY) in
  let* sni := expect_some (tp_tls_server_name (st_profile t)) in
  let* management_password_path := checked_as (quote_openvpn_path management_password_path t) in
  Ok (document (openvpn_settings carrier_port management_port sni management_password_path
        ++ map server_route (server_ips server_addresses) ++ map bypass_route bypass
        ++ [str "<ca>"; trim ca; str "</ca>"; str "<tls-crypt>"; trim tls_crypt; str "</tls-crypt>"; str "<auth-user-pass>"; username;
            tc_auth credential; str "</auth-user-pass>"])).
End openvpn.

(** [OpenVpnStartupState]. *)
Inductive OpenVpnStartupState :=
| Resolving | Connecting | Authenticating | AuthenticationFailed | TlsHandshakeFailed | GettingConfiguration | AssigningAddress | AddingRoutes
| StateConnected | Reconnecting | Exiting.
Definition startup_message (s : OpenVpnStartupState) : list byte := str
  match s with
  | Resolving => "OpenVPN startup timed out during DNS resolution"
  | Connecting => "OpenVPN startup timed out while reaching the server"
  | Authenticating => "OpenVPN startup timed out during server authentication"
  | AuthenticationFailed => "OpenVPN authentication was rejected"
  | TlsHandshakeFailed => "OpenVPN TLS handshake did not complete"
  | GettingConfiguration => "OpenVPN startup timed out while downloading server configuration"
  | AssigningAddress => "OpenVPN startup timed out while assigning the tunnel address"
  | AddingRoutes => "OpenVPN startup timed out while installing tunnel routes"
  | StateConnected => "OpenVPN connected"
  | Reconnecting => "OpenVPN kept restarting before tunnel readiness"
  | Exiting => "OpenVPN stopped before tunnel readiness"
  end.
Definition state_named (state detail : list byte) : option OpenVpnStartupState :=
  let named (name : string) := bool_decide (state = str name) in
  if named "RESOLVE"%string then Some Resolving
  else if named "CONNECTING"%string || named "TCP_CONNECT"%string || named "WAIT"%string then Some Connecting
  else if named "AUTH"%string || named "AUTH_PENDING"%string then Some Authenticating
  else if named "GET_CONFIG"%string then Some GettingConfiguration
  else if named "ASSIGN_IP"%string then Some AssigningAddress
  else if named "ADD_ROUTES"%string then Some AddingRoutes
  else if named "CONNECTED"%string && bool_decide (detail = str "SUCCESS") then Some StateConnected
  else if named "RECONNECTING"%string then Some Reconnecting
  else if named "EXITING"%string then Some Exiting
  else None.
Definition state_line (line : list byte) : option OpenVpnStartupState :=
  match split_on comma (default line (strip_prefix (str ">STATE:") line)) with
  | time :: state :: rest =>
    let detail := default [] (head rest) in
    match parse_uint u64_max time with
    | None => None
    | Some _ =>
      if eq_ignore_ascii_case detail (str "auth-failure") then Some AuthenticationFailed
      else if eq_ignore_ascii_case detail (str "tls-error") then Some TlsHandshakeFailed
      else state_named state detail
    end
  | _ => None
  end.
Fixpoint find_map {A B} (f : A -> option B) (l : list A) : option B :=
  match l with [] => None | a :: l => match f a with Some b => Some b | None => find_map f l end end.
Definition parse_openvpn_startup_state (response : list byte) : option OpenVpnStartupState := find_map state_line (lines response).

(** * Shadowsocks *)

Definition SHADOWSOCKS_OPTIONS : list string := ["method"; "mode"; "port_allocation"]%string.
Definition SHADOWSOCKS_METHOD : string := "2022-blake3-aes-256-gcm".
Section shadowsocks.
Context `{Base64}.
Definition shadowsocks_supports (t : SessionTransport) : bool := bool_decide (tp_protocol (st_profile t) = Shadowsocks2022).
Definition shadowsocks_endpoint (p : TransportProfile) : bool :=
  plain_endpoint p && (zlen (tp_endpoint p) <=? 253) && negb (bool_decide (z2b 92 ∈ tp_endpoint p))
  && negb (existsb is_whitespace (char_list (tp_endpoint p))).
Definition shadowsocks_validate (t : SessionTransport) : result ClientError unit :=
  let p := st_profile t in
  let* _ := if shadowsocks_supports t && bool_decide (tp_network p = TcpAndUdp) then Ok tt
            else refuse_transport t (str "profile is not a Shadowsocks 2022 TCP+UDP transport") in
  let* _ := if shadowsocks_endpoint p then Ok tt else refuse_transport t (str "server endpoint is invalid") in
  let* _ := if bool_decide (tp_tls_server_name p = None) then Ok tt
            else refuse_transport t (str "Shadowsocks 2022 must not declare a TLS server name") in
  let* _ := reject_unknown t SHADOWSOCKS_OPTIONS (tp_options p) (str "unsupported Shadowsocks 2022 option ") in
  let* _ := check_all (require_option t (str "unsupported Shadowsocks 2022 "))
              [("method", SHADOWSOCKS_METHOD); ("mode", "tcp_and_udp"); ("port_allocation", "lease_slot")]%string in
  let* credential := the_credential t "transport credential is missing" in
  let* _ := if bool_decide (tc_secrets credential = ∅) then Ok tt
            else refuse_transport t (str "Shadowsocks 2022 credential contains unsupported secrets") in
  match base64_decode (tc_auth credential) with
  | None => refuse_transport t (str "Shadowsocks 2022 key is invalid")
  | Some key => if zlen key =? 32 then Ok tt else refuse_transport t (str "Shadowsocks 2022 key must contain 32 bytes")
  end.
Definition shadowsocks_document (t : SessionTransport) (server_address : IpAddr) (socks_port : Z) : result Fault Value :=
  let* _ := checked_as (shadowsocks_validate t) in
  let* credential := expect_some (st_credential t) in
  Ok (Object ["server" ::= JString (show_ip server_address); "server_port" ::= number (tp_port (st_profile t)); "local_address" ::= text "127.0.0.1";
              "local_port" ::= number socks_port; "password" ::= JString (tc_auth credential); "method" ::= text SHADOWSOCKS_METHOD;
              "mode" ::= text "tcp_and_udp"; "timeout" ::= number 300; "udp_timeout" ::= number 300; "no_delay" ::= Bool true; "keep_alive" ::= number 30]).
Definition shadowsocks_render `{PrettyJson} (t : SessionTransport) (server_address : IpAddr) (socks_port : Z) : result Fault (list byte) :=
  let* document := shadowsocks_document t server_address socks_port in encode_document t "failed to encode the Shadowsocks configuration" document.
End shadowsocks.

(** * WireGuard over WebSocket TLS *)

Definition WIREGUARD_OPTIONS : list string :=
  ["address_allocation"; "allowed_ips"; "client_address"; "keepalive_seconds"; "mtu"; "path_prefix"; "remote_address"; "transport"]%string.
Definition WIREGUARD_SECRETS : list string := ["preshared_key"; "server_public_key"]%string.
Definition WIREGUARD_RESOLVERS : list string := ["1.1.1.1"; "1.0.0.1"]%string.
Definition wireguard_option (t : SessionTransport) (key : string) : result ClientError (list byte) := named_option t "WireGuard" key.
Definition wireguard_secret (t : SessionTransport) (key : string) : result ClientError (list byte) := named_secret t "WireGuard secret " key.
Definition validate_remote_address (t : SessionTransport) (value : list byte) : result ClientError unit :=
  match rsplit_once colon value with
  | None => refuse_transport t (str "WireGuard remote address is invalid")
  | Some (host, port) =>
    if valid_hostname host && match parse_uint u16_max port with Some port => 0 <? port | None => false end then Ok tt
    else refuse_transport t (str "WireGuard remote address is invalid")
  end.
Section wireguard.
Context `{Base64}.
Definition validate_wireguard_key (t : SessionTransport) (value : list byte) (name : string) : result ClientError unit :=
  if key_ok value then Ok tt else refuse_transport t (str name ++ str " is invalid").
Definition wireguard_supports (t : SessionTransport) : bool := bool_decide (tp_protocol (st_profile t) = WireGuard).
Definition wireguard_validate (t : SessionTransport) : result ClientError unit :=
  let p := st_profile t in
  let* _ := if wireguard_supports t && bool_decide (tp_network p = Tcp) && negb (tp_port p =? 0) && valid_endpoint (tp_endpoint p) then Ok tt
            else refuse_transport t (str "profile is not a valid WireGuard TLS transport") in
  let* sni := match tp_tls_server_name p with
              | Some name => if valid_hostname name then Ok name else refuse_transport t (str "WireGuard TLS server name is invalid")
              | None => refuse_transport t (str "WireGuard TLS server name is invalid")
              end in
  let* _ := if is_ip sni then refuse_transport t (str "WireGuard TLS server name must be a hostname") else Ok tt in
  let* _ := match unknown_key WIREGUARD_OPTIONS (tp_options p) with
            | Some _ => refuse_transport t (str "WireGuard TLS profile contains unsupported options")
            | None => Ok tt
            end in
  let* _ := check_all (expected_option t "WireGuard" "unsupported WireGuard TLS ")
              [("address_allocation", "lease_slot"); ("allowed_ips", "0.0.0.0/0"); ("keepalive_seconds", "25"); ("mtu", "1280");
               ("transport", "websocket_tls")]%string in
  let* address := wireguard_option t "client_address" in
  let* address := match parse_ipv4 address with Some a => Ok a | None => refuse_transport t (str "WireGuard client address is invalid") end in
  let* _ := if in_lease_pool address then Ok tt else refuse_transport t (str "WireGuard client address is outside the lease pool") in
  let* prefix := wireguard_option t "path_prefix" in
  let* _ := if (16 <=? zlen prefix) && (zlen prefix <=? 96) && forallb (fun b => is_ascii_alphanumeric b || bool_decide (b ∈ str "-_")) prefix then Ok tt
            else refuse_transport t (str "WireGuard WebSocket path prefix is invalid") in
  let* remote := wireguard_option t "remote_address" in
  let* _ := validate_remote_address t remote in
  let* credential := the_credential t "WireGuard credential is missing" in
  let* _ := if negb (size (tc_secrets credential) =? 2)%nat || bool_decide (is_Some (unknown_key WIREGUARD_SECRETS (tc_secrets credential)))
            then refuse_transport t (str "WireGuard credential contains unsupported secrets") else Ok tt in
  let* _ := validate_wireguard_key t (tc_auth credential) "WireGuard private key" in
  let* preshared_key := wireguard_secret t "preshared_key" in
  let* _ := validate_wireguard_key t preshared_key "WireGuard preshared key" in
  let* server_public_key := wireguard_secret t "server_public_key" in
  validate_wireguard_key t server_public_key "WireGuard server public key".
Definition wireguard_document (t : SessionTransport) (wireguard_port socks_port : Z) : result Fault Value :=
  let* _ := checked_as (wireguard_validate t) in
  let* credential := expect_some (st_credential t) in
  let* client_address := checked_as (wireguard_option t "client_address") in
  let* server_public_key := checked_as (wireguard_secret t "server_public_key") in
  let* preshared_key := checked_as (wireguard_secret t "preshared_key") in
  Ok (object ["log" ::= object ["loglevel" ::= text "warning"];
    "dns" ::= object ["servers" ::= Array (map text WIREGUARD_RESOLVERS); "queryStrategy" ::= text "UseIPv4"];
    "inbounds" ::= Array [socks_inbound socks_port];
    "outbounds" ::= Array [object ["tag" ::= text "ket-wireguard"; "protocol" ::= text "wireguard";
      "settings" ::= object ["secretKey" ::= JString (tc_auth credential); "address" ::= Array [JString (client_address ++ str "/32")];
        "noKernelTun" ::= Bool true; "mtu" ::= number 1280; "domainStrategy" ::= text "ForceIPv4";
        "peers" ::= Array [object ["publicKey" ::= JString server_public_key; "preSharedKey" ::= JString preshared_key;
          "endpoint" ::= JString (loopback_address wireguard_port); "allowedIPs" ::= Array [text "0.0.0.0/0"]; "keepAlive" ::= number 25]]]]]]).
Definition wireguard_render `{PrettyJson} (t : SessionTransport) (wireguard_port socks_port : Z) : result Fault (list byte) :=
  let* document := wireguard_document t wireguard_port socks_port in encode_document t "failed to encode the WireGuard Xray configuration" document.
Definition wstunnel_arguments (t : SessionTransport) (server_address : IpAddr) (local_port : Z) : result Fault (list (list byte)) :=
  let* _ := checked_as (wireguard_validate t) in
  let* sni := expect_some (tp_tls_server_name (st_profile t)) in
  let* path_prefix := checked_as (wireguard_option t "path_prefix") in
  let* remote_address := checked_as (wireguard_option t "remote_address") in
  Ok [str "client"; str "--no-color"; str "--log-lvl"; str "WARN"; str "--tls-sni-override"; sni; str "--tls-verify-certificate";
      str "--http-upgrade-path-prefix"; path_prefix; str "--http-headers"; str "Host: " ++ sni; str "--local-to-remote";
      str "udp://127.0.0.1:" ++ show_u64 local_port ++ colon :: remote_address ++ str "?timeout_sec=0";
      str "wss://" ++ authority_of server_address (tp_port (st_profile t))].
End wireguard.

(** * The engines the service has *)

Record ClientEngine := mkEngine { engine_supports : SessionTransport -> bool; engine_validate : SessionTransport -> result Fault unit }.
Section service.
Context `{Base64}.
Definition hysteria_engine : ClientEngine := mkEngine hysteria_supports (fun t => checked_as (hysteria_validate t)).
Definition xray_engine : ClientEngine := mkEngine xray_supports xray_validate.
Definition shadowsocks_engine : ClientEngine := mkEngine shadowsocks_supports (fun t => checked_as (shadowsocks_validate t)).
Definition openvpn_engine : ClientEngine := mkEngine openvpn_supports (fun t => checked_as (openvpn_validate t)).
Definition wireguard_engine : ClientEngine := mkEngine wireguard_supports (fun t => checked_as (wireguard_validate t)).
(** [serve_until]: an engine is offered when its programs are there. *)
Record EngineFiles := mkFiles {
  hysteria_path : bool; xray_path : bool; shadowsocks_path : bool; openvpn_path : bool; stunnel_path : bool; wstunnel_path : bool; bridge_path : bool;
}.
Definition service_engines (files : EngineFiles) : list ClientEngine :=
  (if hysteria_path files && bridge_path files then [hysteria_engine] else [])
  ++ (if xray_path files && bridge_path files then [xray_engine] else [])
  ++ (if shadowsocks_path files && bridge_path files then [shadowsocks_engine] else [])
  ++ (if openvpn_path files && stunnel_path files then [openvpn_engine] else [])
  ++ (if xray_path files && wstunnel_path files && bridge_path files then [wireguard_engine] else []).
(** [adapter_for] and the check each [connect] starts with. *)
Definition checked_engine (files : EngineFiles) (t : SessionTransport) : option (result Fault unit) :=
  (fun e => engine_validate e t) <$> List.find (fun e => engine_supports e t) (service_engines files).
End service.

#[local] Ltac Zify.zify_post_hook ::= Z.div_mod_to_equations.

(** * Where a text can be cut *)

Lemma encode_char_bytes c : is_char c = true -> (exists b, encode_char c = [b] /\ is_ascii b = true) \/ forallb (fun b => negb (is_ascii b)) (encode_char c) = true.
Proof.
  unfold is_char, encode_char, is_ascii. intros Hc. repeat case_match; [left; eexists; split; [done|]|right..]; bool_prop;
    repeat match goal with Hx : orb _ _ = true |- _ => apply orb_true_iff in Hx as [?|?]; bool_prop end; cbn [forallb];
    rewrite ?b2z_z2b_small by lia; first [apply Z.ltb_lt; lia|repeat match goal with |- context [?a <? ?b] => destruct (Z.ltb_spec a b); [lia|] end; done].
Qed.
(** Before an ASCII byte a text ends one character and starts another. *)
Lemma cut_at_ascii cs a b r : Forall (fun c => is_char c = true) cs -> encode_chars cs = a ++ b :: r -> is_ascii b = true ->
  exists cs1 cs2, cs = cs1 ++ cs2 /\ a = encode_chars cs1 /\ b :: r = encode_chars cs2.
Proof.
  intros HF. revert a. induction HF as [|c cs Hc HF IH]; intros a E Hb; [by destruct a|].
  destruct a as [|x a]; [by exists [], (c :: cs)|]. change (encode_chars (c :: cs)) with (encode_char c ++ encode_chars cs) in E.
  assert (HE : exists a', x :: a = encode_char c ++ a' /\ encode_chars cs = a' ++ b :: r).
  { destruct (encode_char_bytes c Hc) as [(y & Ey & _)|Hn].
    - rewrite Ey in E |- *. injection E as -> E. by exists a.
    - apply app_eq_inv in E as [(k & Ek & Er)|(k & Ek & Er)]; [|by exists k].
      destruct k as [|z k]; [exists []; rewrite app_nil_r in *; by split|]. injection Er as <- Er. exfalso. rewrite Ek, forallb_app in Hn.
      cbn [forallb] in Hn. rewrite Hb, andb_false_r in Hn. done. }
  destruct HE as (a' & -> & E'). destruct (IH a' E' Hb) as (cs1 & cs2 & -> & -> & ->). by exists (c :: cs1), cs2.
Qed.
Lemma valid_encode cs : Forall (fun c => is_char c = true) cs -> valid_utf8 (encode_chars cs) = true.
Proof. intros HF. unfold valid_utf8. by rewrite chars_encode. Qed.
Lemma find_at pattern s n : find pattern s = Some n -> take (length pattern) (drop n s) = pattern.
Proof.
  revert n. induction s as [|b s IH]; intros n; cbn [find]; case_bool_decide as Hp; [by intros [= <-]|done|by intros [= <-]|].
  destruct (find pattern s) as [m|]; [|done]. intros [= <-]. by apply IH.
Qed.

(** * Lines *)

Lemma end_lines_mono (P : list byte -> bool) (p q : list (list byte)) : q <> [] -> forallb P (end_lines (p ++ q)) = true -> forallb P (end_lines q) = true.
Proof.
  intros Hq. induction p as [|x p IH]; [done|]. cbn [app end_lines]. destruct (p ++ q) as [|y l] eqn:E; [by apply app_eq_nil in E as [_ ->]|].
  intros [_ HP]%andb_true_iff. by apply IH.
Qed.
Lemma existsb_not {A} (f : A -> bool) l : existsb f l = false <-> forallb (fun a => negb (f a)) l = true.
Proof. induction l as [|a l IH]; [done|]. cbn. rewrite orb_false_iff, andb_true_iff, negb_true_iff. by rewrite IH. Qed.
Lemma lines_after (P : list byte -> bool) p s : existsb P (lines (p ++ newline :: s)) = false -> existsb P (lines s) = false.
Proof.
  rewrite !existsb_not. unfold lines. rewrite split_on_sep. apply end_lines_mono. apply split_on_nonempty.
Qed.

(** * Material *)

Lemma ends_with_inv s suffix : ends_with s suffix = true -> exists a, s = a ++ suffix.
Proof. intros Hd%bool_decide_eq_true. exists (take (length s - length suffix) s). rewrite <- Hd at 2. by rewrite take_drop. Qed.
(** A text between marks that are not white space is its own trimming, a
    newline after it or not. *)
Lemma trim_envelope cs first rest_ last_ : Forall (fun c => is_char c = true) cs -> cs = 45 :: rest_ -> cs = first ++ [45] -> last_ = [10] \/ last_ = [] ->
  trim (encode_chars (cs ++ last_)) = encode_chars cs.
Proof.
  intros HF E1 E2 Hl. unfold trim. rewrite chars_encode by (apply Forall_app; split; [done|]; destruct Hl as [->| ->]; repeat constructor).
  f_equal. unfold trim_chars. assert (Es : trim_start (cs ++ last_) = cs ++ last_) by (by rewrite E1). rewrite Es, rev_app_distr.
  assert (Er : trim_start (rev last_ ++ rev cs) = rev cs) by (rewrite E2 at 1 2; rewrite rev_app_distr; destruct Hl as [->| ->]; reflexivity).
  by rewrite Er, rev_involutive.
Qed.
Definition dashed (s : list byte) : Prop := (exists r, s = z2b 45 :: r) /\ exists a, s = a ++ [z2b 45].
Lemma normalize_inv text begin_ end_ m : normalize_openvpn_material text begin_ end_ = Some m -> exists before envelope,
  trim text = before ++ envelope /\ m = envelope ++ [newline] /\ starts_with_str begin_ envelope = true /\ ends_with envelope end_ = true /\
  z2b 0 ∉ envelope /\ existsb (fun line => 256 <? zlen line) (lines envelope) = false.
Proof.
  unfold normalize_openvpn_material, slice_from. set (s := trim text). clearbody s.
  destruct (bool_decide _ || existsb _ (lines s)) eqn:E1; [done|]. apply orb_false_iff in E1 as [H0%bool_decide_eq_false Hlines].
  destruct (find begin_ s) as [n|]; [|done]. destruct (negb (n =? 0)%nat && _) eqn:E2; [done|]. destruct (existsb _ (lines (take n s))); [done|].
  destruct (negb (starts_with_str _ _) || _) eqn:E3; [done|]. apply orb_false_iff in E3 as [Hs%negb_false_iff He%negb_false_iff]. intros Hm.
  assert (m = drop n s ++ [newline]) as -> by congruence. exists (take n s), (drop n s). rewrite take_drop.
  split_and!; [done..| |]; [intros Hin; apply H0; rewrite <- (take_drop n s); apply elem_of_app; by right|].
  destruct (decide (n = 0%nat)) as [Hn|Hn]; [by rewrite Hn|]. rewrite (proj2 (Nat.eqb_neq n 0) Hn) in E2. cbn [negb andb] in E2. apply negb_false_iff, bool_decide_eq_true in E2.
  apply (lines_after _ (take (n - 1) s)). rewrite <- (take_drop_middle _ _ _ E2) in Hlines. by replace (S (n - 1)) with n in Hlines by lia.
Qed.
Lemma dash_char cs : Forall (fun c => is_char c = true) cs -> encode_chars cs = [z2b 45] -> cs = [45].
Proof. intros HF E. pose proof (chars_encode cs HF) as Ec. rewrite E in Ec. vm_compute in Ec. by injection Ec as <-. Qed.
Lemma envelope_chars text begin_ end_ m : valid_utf8 text = true -> dashed begin_ -> dashed end_ -> normalize_openvpn_material text begin_ end_ = Some m ->
  exists cs first rest_, Forall (fun c => is_char c = true) cs /\ cs = 45 :: rest_ /\ cs = first ++ [45] /\ m = encode_chars (cs ++ [10]) /\
    starts_with_str begin_ (encode_chars cs) = true /\ ends_with (encode_chars cs) end_ = true /\ z2b 0 ∉ encode_chars cs /\
    existsb (fun line => 256 <? zlen line) (lines (encode_chars cs)) = false.
Proof.
  intros HV [(rb & Eb) _] [_ (ae & Ee)] (before & envelope & Et & -> & Hs & He & H0 & Hl)%normalize_inv. unfold valid_utf8 in HV.
  destruct (chars text) as [ts|] eqn:Ets; [|done]. unfold trim in Et. rewrite Ets in Et. apply chars_inv in Ets as [HT _].
  destruct (trim_chars_inside ts) as (u & v & Ec). rewrite Ec in HT. apply Forall_app in HT as [_ [HT _]%Forall_app]. clear Ec u v.
  assert (exists r, envelope = z2b 45 :: r) as [r Er].
  { unfold starts_with_str in Hs. apply bool_decide_eq_true in Hs. rewrite Eb in Hs. destruct envelope as [|b r]; [done|]. cbn [length take] in Hs. exists r. congruence. }
  rewrite Er in Et. destruct (cut_at_ascii _ _ _ _ HT Et eq_refl) as (k & cs & Ek & _ & Ecs). rewrite <- Er in Ecs.
  rewrite Ek in HT. apply Forall_app in HT as [_ HT].
  destruct (ends_with_inv _ _ He) as [a Ea]. rewrite Ee, app_assoc, Ecs in Ea. destruct (cut_at_ascii cs (a ++ ae) (z2b 45) [] HT Ea eq_refl) as (k2 & k3 & Ek3 & _ & E3).
  assert (k3 = [45]) as -> by (apply dash_char; [by rewrite Ek3 in HT; apply Forall_app in HT as [_ ?]|done]).
  assert (exists r', cs = 45 :: r') as [r' Er'].
  { destruct cs as [|c cs]; [by rewrite Er in Ecs|]. apply Forall_cons in HT as [Hc _]. pose proof (next_char_encode c (encode_chars cs) Hc) as En.
    change (encode_char c ++ encode_chars cs) with (encode_chars (c :: cs)) in En. rewrite <- Ecs, Er in En. exists cs. assert (Ed : next_char (z2b 45 :: r) = Some (45, r)) by reflexivity. congruence. }
  rewrite Ecs in *. exists cs, k2, r'. split_and!; try done. by rewrite encode_chars_app.
Qed.

(** What the app reads of material the server took: what the server sent. *)
Lemma material_read text begin_ end_ m (t : SessionTransport) key `{Base64Laws} : valid_utf8 text = true -> dashed begin_ -> dashed end_ ->
  normalize_openvpn_material text begin_ end_ = Some m -> openvpn_secret t key = Ok (base64_encode m) ->
  decode_material t key begin_ end_ = if zlen m <=? MAX_CLIENT_MATERIAL_BYTES then Ok m
    else refuse_transport t (str "OpenVPN secret " ++ str key ++ str " has an invalid size").
Proof.
  intros HV Hb He Hn Hs. destruct (envelope_chars _ _ _ _ HV Hb He Hn) as (cs & first & rest_ & HF & E1 & E2 & Em & Hst & Hen & Hz0 & Hl).
  unfold decode_material. rewrite Hs, base64_decode_encode. assert (Hne : m <> []) by (rewrite Em, E1; done). rewrite (bool_decide_false (m = [])) by done.
  cbn [orb]. destruct (Z.leb_spec (zlen m) MAX_CLIENT_MATERIAL_BYTES) as [Hz|Hz]; [rewrite (proj2 (Z.ltb_ge _ _)) by lia|by rewrite (proj2 (Z.ltb_lt _ _)) by lia].
  assert (Hv : valid_utf8 m = true) by (rewrite Em; apply valid_encode, Forall_app; split; [done|repeat constructor]). rewrite Hv.
  assert (Ht : trim m = encode_chars cs) by (rewrite Em; eapply trim_envelope; eauto). rewrite Ht, Hst, Hen, Hl.
  by rewrite (bool_decide_false (z2b 0 ∈ _)) by done.
Qed.
Lemma material_encoded `{Base64Laws} text begin_ end_ m : normalize_openvpn_material text begin_ end_ = Some m -> base64_encode m <> [].
Proof.
  intros Hm E. apply material_length in Hm. pose proof (base64_length m) as Hl. rewrite E in Hl. change (zlen []) with 0 in Hl. lia.
Qed.
Lemma certificate_dashed_begin : dashed BEGIN_CERTIFICATE. Proof. split; [by eexists|by exists (take 26 BEGIN_CERTIFICATE)]. Qed.
Lemma certificate_dashed_end : dashed END_CERTIFICATE. Proof. split; [by eexists|by exists (take 24 END_CERTIFICATE)]. Qed.
Lemma key_dashed_begin : dashed BEGIN_STATIC_KEY. Proof. split; [by eexists|by exists (take 36 BEGIN_STATIC_KEY)]. Qed.
Lemma key_dashed_end : dashed END_STATIC_KEY. Proof. split; [by eexists|by exists (take 34 END_STATIC_KEY)]. Qed.

(** [fs::read_to_string] returns UTF-8 or fails. *)
Class FilesUtf8 `{Files} : Prop := file_entry_utf8 path e text : file_entry path = Some e -> file_text e = Some text -> valid_utf8 text = true.
