(* ===== verification/ClientEngineProps.v ===== *)
(** What the server advertises against what the engines of the desktop app
    take: every transport of a session is one its engine can be set up for,
    and the settings that break this.

    A small node against the desktop app: a session's transports checked by
    the engines, and OpenVPN settings the server takes and the app does not. *)

From Stdlib Require Import ZArith Lia.
From stdpp Require Import gmap strings.
From S2P Require Import Prelude Order Utf8 Str Net Bypass Vendor Instances Invite Tunnel Seal Update Contract Control Validation Gateway SealedDemo Grant Allowance StdText Config ConfigProps Engines DataPlane EngineControls Model Meter GrantAdmin Service ServiceDemo ServiceProps Api ApiTransports WireGuardAgent OpenVpnAgent ApiDemo ClientEngines.

(** * Options and secrets written as a list *)

Lemma unknown_key_none (known : list string) (m : gmap (list byte) (list byte)) : map_Forall (fun k _ => k ∈ map str known) m -> unknown_key known m = None.
Proof.
  intros HM. unfold unknown_key. destruct (filter _ _) as [|k l] eqn:E; [done|exfalso].
  assert (Hk : k ∈ filter (fun key => key ∉ map str known) (map fst (entries m))) by (rewrite E; left).
  apply list_elem_of_filter in Hk as [Hn ([k' v] & -> & Hin)%elem_of_map]. apply Hn. unfold entries, sort_by_key in Hin. rewrite elem_of_sort_by in Hin.
  apply elem_of_map_to_list in Hin. exact (HM k' v Hin).
Qed.
Lemma reject_unknown_ok (t : SessionTransport) (known : list string) (m : gmap (list byte) (list byte)) (complaint : list byte) : map_Forall (fun k _ => k ∈ map str known) m -> reject_unknown t known m complaint = Ok tt.
Proof. intros HM. unfold reject_unknown. by rewrite unknown_key_none. Qed.
Definition distinct_keys (l : list (string * list byte)) : bool := bool_decide (NoDup (map (fun kv => str kv.1) l)).
Lemma options_keys (l : list (string * list byte)) : map (fun kv => str kv.1) l = (map (fun '(k, v) => (str k, v)) l).*1.
Proof. induction l as [|[k v] l IH]; [done|]. cbn. by rewrite IH. Qed.
Lemma options_of_lookup l k v : distinct_keys l = true -> (k, v) ∈ l -> options_of l !! str k = Some v.
Proof.
  intros HN%bool_decide_eq_true Hin. unfold options_of. apply elem_of_list_to_map_1; [by rewrite <- options_keys|].
  apply list_elem_of_fmap. by exists (k, v).
Qed.
Lemma options_of_size_exact l : distinct_keys l = true -> size (options_of l) = length l.
Proof.
  intros HN%bool_decide_eq_true. unfold options_of. rewrite map_size_list_to_map by (by rewrite <- options_keys). by rewrite length_map.
Qed.
Lemma options_of_known (known : list string) (l : list (string * list byte)) : forallb (fun kv => bool_decide (str kv.1 ∈ map str known)) l = true ->
  map_Forall (fun k _ => k ∈ map str known) (options_of l).
Proof.
  intros HF. apply options_of_Forall. apply forallb_Forall in HF. eapply Forall_impl; [exact HF|]. intros kv Hk. by apply bool_decide_eq_true in Hk.
Qed.
Lemma engine_checks_ok {A} (f : A -> result ClientError unit) l : Forall (fun a => f a = Ok tt) l -> check_all f l = Ok tt.
Proof. intros HF. induction HF as [|a l Ha HF IH]; [done|]. cbn [check_all]. by rewrite Ha. Qed.

(** * Hosts *)

Lemma hostname_facts h name : validate_hostname h name = Ok tt ->
  trim h = h /\ h <> [] /\ zlen h <= 253 /\ contains (str "://") h = false /\ z2b 47 ∉ h /\ z2b 92 ∉ h /\ existsb is_whitespace (char_list h) = false /\
  valid_endpoint h = true.
Proof.
  unfold validate_hostname. intros Hh. destruct (ensure (hostname_shape h) _ _) eqn:E; [|done]. apply ensure_ok' in E. unfold hostname_shape in E.
  rewrite !andb_true_iff, !negb_true_iff, !bool_decide_eq_false, bool_decide_eq_true, Z.leb_le in E. unfold MAX_ENDPOINT_CHARS in E.
  destruct E as ((((((((Hn & Hl) & Ht) & Hu) & Hs) & Hb) & _) & _) & Hw).
  split_and!; try done. unfold valid_endpoint, is_ip. destruct (bool_decide (is_Some (parse_ip h))) eqn:Ei; [done|].
  cbn [orb]. destruct (ensure _ _ _) eqn:E2; [|done]. apply ensure_ok' in E2. rewrite !andb_true_iff in E2. destruct E2 as [[Hd He] HL].
  unfold valid_hostname. rewrite bool_decide_false by done. rewrite (proj2 (Z.leb_le _ _)) by done. rewrite Hd, He. exact HL.
Qed.
Lemma dns_name_facts h name : validate_dns_name h name = Ok tt -> valid_hostname h = true /\ is_ip h = false.
Proof.
  unfold validate_dns_name. destruct (validate_hostname h name) as [[]|] eqn:E; [|done]. intros Hi%ensure_ok'. apply negb_true_iff in Hi.
  apply hostname_facts in E as (_ & _ & _ & _ & _ & _ & _ & HV). unfold valid_endpoint, is_ip in *. rewrite Hi in HV. done.
Qed.
(** A profile the settings took. *)
Lemma profile_facts transports p : server_validate_transports transports = Ok tt -> p ∈ transports -> exists name, validate_hostname (tp_endpoint p) name = Ok tt /\ tp_port p <> 0 /\
  forall sni, tp_tls_server_name p = Some sni -> exists name, validate_hostname sni name = Ok tt.
Proof.
  unfold server_validate_transports. intros HV Hin. destruct (ensure _ _ _); [|done].
  revert HV. generalize ([] : list (list byte)). induction transports as [|q l IH]; intros ids; [by apply not_elem_of_nil in Hin|].
  cbn [server_validate_each]. destruct (server_validate_transport ids q) as [[]|] eqn:E; [|done].
  apply elem_of_cons in Hin as [->|Hin]; [intros _|by apply IH]. unfold server_validate_transport in E. bind_inv E.
  repeat match goal with E : ensure _ _ _ = Ok _ |- _ => apply ensure_ok' in E end.
  match goal with E : (is_ok _ && _) = true |- _ => apply andb_true_iff in E as [Hok Hp] end.
  exists (str "transport endpoint"). destruct (validate_hostname (tp_endpoint q) _) as [[]|]; [|done].
  apply negb_true_iff, Z.eqb_neq in Hp. split_and!; [done..|]. intros sni Hs. rewrite Hs in *.
  eexists. match goal with E : validate_hostname sni _ = Ok ?u |- _ => destruct u; exact E end.
Qed.
Lemma plain_endpoint_ok p name : validate_hostname (tp_endpoint p) name = Ok tt -> tp_port p <> 0 -> plain_endpoint p = true.
Proof.
  intros (Ht & Hn & _ & Hu & Hs & _)%hostname_facts Hp. unfold plain_endpoint. rewrite Ht, Hu, !bool_decide_false by done.
  by rewrite (proj2 (Z.eqb_neq _ _)).
Qed.

(** * What each engine is given *)

(** * User identifiers *)

Lemma hex2_shape b : exists x y, hex2 b = [x; y] /\ is_ascii_hexdigit x = true /\ is_ascii_hexdigit y = true.
Proof. destruct b; eexists _, _; (split; [reflexivity|split; reflexivity]). Qed.
Lemma uuid_valid bytes : length bytes = 16%nat -> valid_uuid (uuid_text bytes) = true.
Proof.
  intros Hl. do 16 (destruct bytes as [|? bytes]; [done|]). destruct bytes; [|done]. unfold uuid_text. cbn [take drop flat_map app].
  repeat match goal with |- context [hex2 ?b] => let x := fresh "x" in let y := fresh "y" in let E := fresh "E" in
    destruct (hex2_shape b) as (x & y & E & ? & ?); rewrite E; clear E end.
  cbn [app]. unfold valid_uuid. cbn [length seq zip zip_with forallb].
  repeat match goal with |- context [bool_decide (?n ∈ [8; 13; 18; 23]%nat)] =>
    first [rewrite (bool_decide_true (n ∈ [8; 13; 18; 23]%nat)) by (apply (bool_decide_unpack _); reflexivity)
          |rewrite (bool_decide_false (n ∈ [8; 13; 18; 23]%nat)) by (apply (bool_decide_unpack _); reflexivity)] end.
  repeat match goal with Hx : is_ascii_hexdigit _ = true |- _ => rewrite Hx; clear Hx end. reflexivity.
Qed.

#[local] Ltac Zify.zify_post_hook ::= Z.div_mod_to_equations.
Lemma lease_octets slot : 0 <= slot <= 65532 -> in_lease_pool (ipv4 10 66 0 2 + slot) = true.
Proof.
  intros Hs. unfold in_lease_pool, octet, ipv4. change (256 ^ (3 - 0)) with 16777216. change (256 ^ (3 - 1)) with 65536.
  change (256 ^ (3 - 2)) with 256. change (256 ^ (3 - 3)) with 1. rewrite !andb_true_iff, !Z.eqb_eq, !Z.leb_le. lia.
Qed.

Lemma forallb_impl_true {A} (f g : A -> bool) l : (forall a, f a = true -> g a = true) -> forallb f l = true -> forallb g l = true.
Proof. intros Hfg. rewrite !forallb_Forall. intros HF. eapply Forall_impl; [exact HF|]. exact Hfg. Qed.
Lemma is_base64url_letter b : is_base64url b = true -> is_ascii_alphanumeric b || bool_decide (b ∈ str "-_") = true.
Proof. destruct b; vm_compute; congruence. Qed.

Section advertised.
Context `{Base64Laws, !Base64Canonical, HmacLaws, Files, !FilesLaws}.
Context `{Ed25519, Hashes, Encodings, UrlParser, UrlOps, Hpke, UrlText, !Json (list TransportProfile)}.
Context (env : Environment) (c : ServerConfig) (Hc : from_env env = Ok c).
Context (created : CreatedSession).
(** The session's identifier and its data-plane token, as they are made. *)
Context (secret : list byte) (Htoken : split_session_token (cs_data_plane_token created) = Ok (mkParts (cs_id created) secret)).
Context (Hslot : 0 <= cs_resource_slot created < cfg_max_sessions c).
Let W : config_wf c := from_env_wf env c Hc.

(** Where the settings of an engine come from. *)
Lemma from_env_parts : wireguard_from_env env (cfg_max_sessions c) = Ok (cfg_wireguard c) /\
  openvpn_from_env env (cfg_max_sessions c) = Ok (cfg_openvpn c) /\ xray_from_env env = Ok (cfg_xray c).
Proof. clear W Htoken Hslot. revert Hc. unfold from_env. intros Hc'. bind_inv Hc'. injection Hc' as <-. cbn. auto. Qed.
Lemma dns_name_read name sni : required_dns_name env name = Ok sni -> valid_hostname sni = true /\ is_ip sni = false.
Proof. unfold required_dns_name. intros Hs. bind_inv Hs. injection Hs as <-. destruct a0. by eapply dns_name_facts. Qed.
Lemma wireguard_shape g : cfg_wireguard c = Some g -> valid_hostname (wg_sni g) = true /\ is_ip (wg_sni g) = false /\
  validate_wireguard_path_prefix (wg_path_prefix g) = Ok tt.
Proof.
  intros Hg. destruct from_env_parts as [E _]. rewrite Hg in E. unfold wireguard_from_env in E. bind_inv E. injection E as <-. cbn [wg_sni wg_path_prefix].
  match goal with E : required_dns_name _ _ = Ok _ |- _ => apply dns_name_read in E as [? ?] end. split_and!; [done..|].
  match goal with E : validate_wireguard_path_prefix _ = Ok ?u |- _ => by destruct u end.
Qed.
Lemma openvpn_shape o : cfg_openvpn c = Some o -> valid_hostname (ov_sni o) = true /\ is_ip (ov_sni o) = false /\
  exists n1 n2 n3, read_openvpn_material env n1 BEGIN_CERTIFICATE END_CERTIFICATE = Ok (ov_ca_certificate o) /\
    read_openvpn_material env n2 BEGIN_CERTIFICATE END_CERTIFICATE = Ok (ov_stunnel_ca_certificate o) /\
    read_openvpn_material env n3 BEGIN_STATIC_KEY END_STATIC_KEY = Ok (ov_tls_crypt_key o).
Proof.
  intros Ho. destruct from_env_parts as (_ & E & _). rewrite Ho in E. unfold openvpn_from_env in E. bind_inv E. injection E as <-.
  cbn [ov_sni ov_ca_certificate ov_stunnel_ca_certificate ov_tls_crypt_key].
  match goal with E : required_dns_name _ _ = Ok _ |- _ => apply dns_name_read in E as [? ?] end. split_and!; [done..|]. by eauto 10.
Qed.
Lemma xray_shape x : cfg_xray c = Some x ->
  (forall r, xr_reality x = Some r -> valid_hostname (re_sni r) = true /\ is_ip (re_sni r) = false /\ re_fingerprint r ∈ fingerprints) /\
  (forall h, xr_xhttp x = Some h -> valid_hostname (xh_sni h) = true /\ is_ip (xh_sni h) = false /\ xh_fingerprint h ∈ fingerprints /\
     validate_xhttp_path (xh_path h) = Ok tt).
Proof.
  intros Hx. destruct from_env_parts as (_ & _ & E). rewrite Hx in E. unfold xray_from_env in E. bind_inv E.
  destruct (negb a && negb a0) eqn:En; [discriminate E|]. bind_inv E. injection E as <-. cbn [xr_reality xr_xhttp].
  assert (HF : forall n fp, env_fingerprint env n = Ok fp -> fp ∈ fingerprints).
  { intros n fp Hf. unfold env_fingerprint in Hf. bind_inv Hf. injection Hf as <-.
    match goal with E : ensure _ _ _ = Ok _ |- _ => by apply ensure_ok', bool_decide_eq_true in E end. }
  split; [intros r ->|intros h ->].
  - destruct a; cbn in E7; [|done]. destruct (reality_from_env env) as [r'|] eqn:ER; [|done]. injection E7 as ->. unfold reality_from_env in ER. bind_inv ER.
    injection ER as <-. cbn [re_sni re_fingerprint]. match goal with E : required_dns_name _ _ = Ok _ |- _ => apply dns_name_read in E as [? ?] end.
    split_and!; [done..|]. by eapply HF.
  - destruct a0; cbn in E8; [|done]. destruct (xhttp_from_env env) as [h'|] eqn:EH; [|done]. injection E8 as ->. unfold xhttp_from_env in EH. bind_inv EH.
    injection EH as <-. cbn [xh_sni xh_fingerprint xh_path]. match goal with E : required_dns_name _ _ = Ok _ |- _ => apply dns_name_read in E as [? ?] end.
    split_and!; [done..|by eapply HF|]. match goal with E : validate_xhttp_path _ = Ok ?u |- _ => by destruct u end.
Qed.

Lemma obfuscation_known o : map_Forall (fun k _ => k ∈ map str HYSTERIA_SECRETS) (obfuscation_secrets o).
Proof.
  destruct o as [|password|password]; cbn [obfuscation_secrets]; [apply map_Forall_empty|..]; apply map_Forall_singleton; left.
Qed.
Lemma hysteria_usable h : cfg_hysteria c = Some h ->
  hysteria_validate (mkTransport (hysteria_profile h) (Some (mkCredential (cs_data_plane_token created) (obfuscation_secrets (hy_obfuscation h))))) = Ok tt.
Proof.
  intros Hh. destruct (profile_facts _ (hysteria_profile h) (wf_transports _ W)) as (name & He & Hp & Hs); [by apply (wf_advertises _ W)|].
  pose proof (plain_endpoint_ok _ _ He Hp) as HE. destruct (split_session_token_inv _ _ Htoken) as (Etok & _ & Hl & _). cbn [part_secret] in Hl.
  assert (Hauth : cs_data_plane_token created <> []) by (rewrite Etok; intros [_ E]%app_eq_nil; cbn [part_secret] in E; subst secret; by cbn in Hl).
  destruct (Hs (hy_sni h)) as (name' & (Htr & Hne & _)%hostname_facts); [unfold hysteria_profile; by destruct (hy_obfuscation h)|].
  unfold hysteria_validate, hysteria_supports. cbn [st_profile st_credential the_credential]. rewrite HE.
  assert (E1 : tp_tls_server_name (hysteria_profile h) = Some (hy_sni h)) by (unfold hysteria_profile; by destruct (hy_obfuscation h)). rewrite E1, Htr.
  rewrite (bool_decide_false (hy_sni h = [])), (bool_decide_false (tc_auth _ = [])) by done.
  rewrite (reject_unknown_ok _ HYSTERIA_SECRETS) by apply obfuscation_known.
  rewrite (reject_unknown_ok _ HYSTERIA_OPTIONS) by (unfold hysteria_profile; destruct (hy_obfuscation h); apply options_of_known; reflexivity).
  unfold hysteria_profile, validate_protocol_mode. by destruct (hy_obfuscation h).
Qed.
Lemma shadowsocks_usable s port : cfg_shadowsocks c = Some s -> session_port s (cs_resource_slot created) = Some port ->
  shadowsocks_validate (mkTransport (set_port (shadowsocks_profile s) port) (Some (shadowsocks_credential s (cs_id created)))) = Ok tt.
Proof.
  intros Hs Hport. destruct (profile_facts _ (shadowsocks_profile s) (wf_transports _ W)) as (name & He & Hp & _); [by apply (wf_advertises _ W)|].
  destruct (session_port_ok _ s _ (wf_shadowsocks _ W s Hs) Hslot) as [Ep _]. destruct (wf_shadowsocks _ W s Hs) as [[Hb _] _ _ _].
  unfold is_port in Hb. assert (Hpn : port <> 0) by (assert (port = ss_port_start s + cs_resource_slot created) by congruence; lia).
  pose proof (hostname_facts _ _ He) as (_ & _ & Hl & _ & _ & Hbs & Hw & _).
  unfold shadowsocks_validate, shadowsocks_supports, shadowsocks_endpoint. cbn [st_profile st_credential the_credential set_port].
  rewrite (plain_endpoint_ok _ name) by done. cbn [set_port tp_endpoint shadowsocks_profile tp_protocol tp_network tp_tls_server_name tp_options] in *.
  rewrite (proj2 (Z.leb_le _ _)), Hw, (bool_decide_false (z2b 92 ∈ ss_public_host s)) by done. cbn [negb andb].
  rewrite reject_unknown_ok by (apply options_of_known; reflexivity).
  rewrite engine_checks_ok by (repeat (apply Forall_cons; split; [reflexivity|]); by apply Forall_nil).
  cbn [shadowsocks_credential tc_secrets tc_auth]. unfold session_key. rewrite base64_decode_encode. unfold zlen. by rewrite hmac_length.
Qed.
Ltac listed := solve [repeat (left || right)].
Lemma expected_ok t name complaint k v : named_option t name k = Ok (str v) -> expected_option t name complaint (k, v) = Ok tt.
Proof. intros E. unfold expected_option. cbn [fst snd]. rewrite E. by rewrite bool_decide_true. Qed.
Lemma hmac_key_ok key m : key_ok (base64_encode (hmac_sha256 key m)) = true.
Proof. unfold key_ok. rewrite base64_decode_encode. unfold zlen. by rewrite hmac_length. Qed.
Lemma nonempty_some v : v <> [] -> nonempty_of (Some v) = Some v.
Proof. intros Hv. unfold nonempty_of. by rewrite bool_decide_false. Qed.
Lemma lease_address slot a : 0 <= slot -> client_address slot = Some a -> exists n, parse_ipv4 a = Some n /\ in_lease_pool n = true /\ a <> [].
Proof.
  intros Hs Ha. destruct (client_address_parse _ _ Hs Ha) as [Hm Hp]. rewrite client_address_ip in Ha by lia.
  assert (a = show_ipv4 (ipv4 10 66 0 2 + slot)) as -> by (unfold wireguard_ip, show_ip in Ha; congruence). clear Ha.
  exists (ipv4 10 66 0 2 + slot). assert (Hr : 0 <= ipv4 10 66 0 2 + slot < 2 ^ 32) by (unfold ipv4; change (2 ^ 32) with 4294967296; lia).
  pose proof (read_ipv4_show _ [] Hr I) as HR. rewrite app_nil_r in HR. split_and!.
  - unfold parse_ipv4, parse_with. rewrite (proj2 (Z.ltb_ge _ _)) by apply show_ipv4_length. by rewrite HR.
  - apply lease_octets. lia.
  - intros E. by rewrite E in HR.
Qed.
Lemma wireguard_usable g address credential : cfg_wireguard c = Some g -> client_address (cs_resource_slot created) = Some address ->
  wireguard_credential g (cs_id created) = Some credential ->
  wireguard_validate (mkTransport (set_option (wireguard_profile g) (str "client_address") address) (Some credential)) = Ok tt.
Proof.
  intros Hg Ha Hcr. destruct (profile_facts _ (wireguard_profile g) (wf_transports _ W)) as (name & He & Hp & _); [by apply (wf_advertises _ W)|].
  pose proof (hostname_facts _ _ He) as (_ & _ & _ & _ & _ & _ & _ & HE). destruct (wireguard_shape g Hg) as (Hsni & Hip & Hprefix).
  destruct (wf_wireguard _ W g Hg) as [_ _ _ (key & Hk & Hkl)]. destruct (lease_address _ _ (proj1 Hslot) Ha) as (n & Hn & Hpool & Hne).
  unfold wireguard_credential, managed_peer in Hcr. change (client_address 0) with (Some (str "10.66.0.2")) in Hcr. cbn [peer_private_key peer_preshared_key] in Hcr.
  assert (Hpub : key_ok (wg_server_public_key g) = true) by (unfold key_ok; by rewrite Hk, Hkl).
  set (private := derive_key g PRIVATE_KEY_CONTEXT (cs_id created)) in *. set (psk := derive_key g PRESHARED_KEY_CONTEXT (cs_id created)) in *.
  assert (Hpriv : key_ok private = true /\ key_ok psk = true) by (split; apply hmac_key_ok). destruct Hpriv as [Hpriv Hpsk]. clearbody private psk.
  assert (credential = mkCredential private (options_of [("preshared_key"%string, psk); ("server_public_key"%string, wg_server_public_key g)])) as -> by congruence.
  clear Hcr. set (t := mkTransport _ _).
  assert (Ho : tp_options (st_profile t) = options_of [("client_address"%string, address); ("address_allocation"%string, str "lease_slot");
    ("allowed_ips"%string, str "0.0.0.0/0"); ("keepalive_seconds"%string, str "25"); ("mtu"%string, str "1280"); ("path_prefix"%string, wg_path_prefix g);
    ("remote_address"%string, str "wireguard-agent:51820"); ("transport"%string, str "websocket_tls")]) by reflexivity.
  assert (HO : forall k v, (k, v) ∈ [("client_address"%string, address); ("address_allocation"%string, str "lease_slot");
    ("allowed_ips"%string, str "0.0.0.0/0"); ("keepalive_seconds"%string, str "25"); ("mtu"%string, str "1280"); ("path_prefix"%string, wg_path_prefix g);
    ("remote_address"%string, str "wireguard-agent:51820"); ("transport"%string, str "websocket_tls")] -> v <> [] -> named_option t "WireGuard" k = Ok v).
  { intros k v Hin Hv. unfold named_option. rewrite Ho, (options_of_lookup _ k v) by (done || reflexivity). by rewrite nonempty_some. }
  assert (HS : forall k v, (k, v) ∈ [("preshared_key"%string, psk); ("server_public_key"%string, wg_server_public_key g)] -> v <> [] -> wireguard_secret t k = Ok v).
  { intros k v Hin Hv. unfold wireguard_secret, named_secret, secret_of. cbn [t st_credential mbind option_bind tc_secrets].
    rewrite (options_of_lookup _ k v) by (done || reflexivity). by rewrite nonempty_some. }
  apply ensure_ok' in Hprefix. unfold wireguard_validate. rewrite Ho.
  rewrite unknown_key_none by (apply options_of_known; reflexivity).
  rewrite engine_checks_ok by (repeat (apply Forall_cons; split; [apply expected_ok, HO; [listed|done]|]); by apply Forall_nil).
  unfold wireguard_option. rewrite (HO "client_address"%string address) by (done || listed). rewrite Hn, Hpool.
  rewrite (HO "path_prefix"%string (wg_path_prefix g)); [|listed|intros E; by rewrite E in Hprefix]. rewrite Hprefix.
  rewrite (HO "remote_address"%string (str "wireguard-agent:51820")) by (done || listed).
  cbn [t st_profile set_option wireguard_profile tp_protocol tp_network tp_port tp_endpoint tp_tls_server_name st_credential the_credential tc_secrets tc_auth].
  rewrite (proj2 (Z.eqb_neq (wg_public_port g) 0)) by exact Hp. cbn [wireguard_profile tp_endpoint] in HE. rewrite HE, Hsni, Hip.
  rewrite options_of_size_exact by reflexivity. rewrite unknown_key_none by (apply options_of_known; reflexivity).
  rewrite (HS "preshared_key"%string psk) by (listed || apply (key_plain _ Hpsk)).
  rewrite (HS "server_public_key"%string (wg_server_public_key g)) by (listed || apply (key_plain _ Hpub)).
  unfold validate_wireguard_key. rewrite Hpriv, Hpsk, Hpub. reflexivity.
Qed.
Lemma session_uuid_valid x id : valid_uuid (session_uuid x id) = true.
Proof.
  apply uuid_valid. unfold set_bits. rewrite !length_alter, length_take, hmac_length. reflexivity.
Qed.
Lemma known_fingerprint f : f ∈ fingerprints -> f ∈ map str FINGERPRINTS.
Proof.
  intros Hf. assert (HF : forallb (fun f => bool_decide (f ∈ map str FINGERPRINTS)) fingerprints = true) by (vm_compute; reflexivity).
  rewrite forallb_Forall, Forall_forall in HF. exact (bool_decide_eq_true_1 _ (HF f Hf)).
Qed.
Lemma required_ok t complaint k v : tp_options (st_profile t) !! str k = Some (str v) -> require_option t complaint (k, v) = Ok tt.
Proof. intros E. unfold require_option. cbn [fst snd]. by rewrite bool_decide_true. Qed.
Lemma fingerprint_ok t name f : tp_options (st_profile t) !! str "fingerprint" = Some f -> f ∈ fingerprints -> validate_fingerprint t name = Ok f.
Proof. intros E Hf. unfold validate_fingerprint. rewrite E. by rewrite bool_decide_true by (by apply known_fingerprint). Qed.
(** What [xray_validate] asks of both protocols. *)
Lemma xray_usable p sni cr : p ∈ cfg_transports c -> tp_network p = Tcp -> tp_tls_server_name p = Some sni -> valid_hostname sni = true -> is_ip sni = false ->
  valid_uuid (tc_auth cr) = true -> let t := mkTransport p (Some cr) in
  (tp_protocol p = VlessXtlsReality /\ validate_reality_transport t cr = Ok tt) \/ (tp_protocol p = Stealth /\ validate_xhttp_transport t cr = Ok tt) ->
  xray_validate t = Ok tt.
Proof.
  intros Hin Hnet Hsni Hv Hi Hu t Hproto. destruct (profile_facts _ p (wf_transports _ W) Hin) as (name & He & Hp & _).
  unfold xray_validate, xray_supports. cbn [t st_profile st_credential the_credential checked_as map_err]. rewrite Hnet, Hsni, Hv, Hi, Hu.
  rewrite (plain_endpoint_ok _ _ He Hp). by destruct Hproto as [[-> E]|[-> E]]; fold t; rewrite E.
Qed.
Lemma reality_usable x r : cfg_xray c = Some x -> xr_reality x = Some r ->
  xray_validate (mkTransport (reality_profile r) (Some (mkCredential (session_uuid x (cs_id created))
    (options_of [("reality_password"%string, re_public_key r); ("reality_short_id"%string, re_short_id r)])))) = Ok tt.
Proof.
  intros Hx Hr. destruct (proj1 (xray_shape x Hx) r Hr) as (Hsni & Hip & Hfp). destruct (xr_reality_wf _ (wf_xray _ W x Hx) r Hr) as [[_ (Hkl & Hkf & _) (Hsl & Hsf) _] _].
  eapply xray_usable; [by eapply (wf_advertises _ W)|done|done|done|done|apply session_uuid_valid|]. left. split; [done|].
  set (t := mkTransport _ _). set (options := [("encryption"%string, str "none"); ("fingerprint"%string, re_fingerprint r); ("flow"%string, str "xtls-rprx-vision"); ("transport"%string, str "raw")]).
  assert (Ho : tp_options (st_profile t) = options_of options) by reflexivity.
  assert (HS : forall k v, (k, v) ∈ [("reality_password"%string, re_public_key r); ("reality_short_id"%string, re_short_id r)] -> v <> [] -> xray_secret t k = Ok v).
  { intros k v Hin Hv. unfold xray_secret, named_secret, secret_of. cbn [t st_credential mbind option_bind tc_secrets].
    rewrite (options_of_lookup _ k v) by (done || reflexivity). by rewrite nonempty_some. }
  unfold validate_reality_transport, reject_unknown_options, require_options. rewrite Ho.
  rewrite reject_unknown_ok by (apply options_of_known; reflexivity).
  rewrite engine_checks_ok by (repeat (apply Forall_cons; split; [apply required_ok; rewrite Ho; apply options_of_lookup; [reflexivity|listed]|]); by apply Forall_nil).
  rewrite (fingerprint_ok t _ (re_fingerprint r)) by (done || (rewrite Ho; apply options_of_lookup; [reflexivity|listed])).
  cbn [tc_secrets]. rewrite reject_unknown_ok by (apply options_of_known; reflexivity).
  rewrite (HS "reality_password"%string (re_public_key r)); [|listed|intros E; by rewrite E in Hkl]. rewrite Hkl.
  rewrite (forallb_impl_true _ _ _ is_base64url_letter Hkf). rewrite (HS "reality_short_id"%string (re_short_id r)); [|listed|intros E; by rewrite E in Hsl].
  rewrite Hsl. assert (Hhex : forallb is_ascii_hexdigit (re_short_id r) = true).
  { apply forallb_Forall. eapply Forall_impl; [exact Hsf|]. intros b Hb. unfold is_ascii_hexdigit. by rewrite bool_decide_true. }
  by rewrite Hhex.
Qed.
Lemma xhttp_usable x h : cfg_xray c = Some x -> xr_xhttp x = Some h ->
  xray_validate (mkTransport (xhttp_profile h) (Some (mkCredential (session_uuid x (cs_id created)) ∅))) = Ok tt.
Proof.
  intros Hx Hh. destruct (proj2 (xray_shape x Hx) h Hh) as (Hsni & Hip & Hfp & Hpath).
  eapply xray_usable; [by eapply (wf_advertises _ W)|done|done|done|done|apply session_uuid_valid|]. right. split; [done|].
  set (t := mkTransport _ _). set (options := [("encryption"%string, str "none"); ("fingerprint"%string, xh_fingerprint h); ("mode"%string, str "packet-up");
    ("path"%string, xh_path h); ("security"%string, str "tls"); ("transport"%string, str "xhttp")]).
  assert (Ho : tp_options (st_profile t) = options_of options) by reflexivity.
  apply ensure_ok' in Hpath. change (valid_xhttp_path (xh_path h) = true) in Hpath.
  unfold validate_xhttp_transport, reject_unknown_options, require_options. rewrite Ho.
  rewrite reject_unknown_ok by (apply options_of_known; reflexivity).
  rewrite engine_checks_ok by (repeat (apply Forall_cons; split; [apply required_ok; rewrite Ho; apply options_of_lookup; [reflexivity|listed]|]); by apply Forall_nil).
  rewrite (fingerprint_ok t _ (xh_fingerprint h)) by (done || (rewrite Ho; apply options_of_lookup; [reflexivity|listed])).
  rewrite (options_of_lookup options "path" (xh_path h)) by (reflexivity || listed). by rewrite Hpath.
Qed.
(** ** OpenVPN *)

Context `{!FilesUtf8}.
(** What the settings leave open and the app asks for: the host is an address
    or the name of the certificate, and no material is longer than the file
    it was read from may be. *)
Definition openvpn_matches (o : OpenVpnConfig) : Prop := (ov_sni o = ov_public_host o \/ is_ip (ov_public_host o) = true) /\
  Forall (fun m => zlen m <= MAX_CLIENT_MATERIAL_BYTES) [ov_ca_certificate o; ov_stunnel_ca_certificate o; ov_tls_crypt_key o].
Lemma read_material_text n begin_ end_ m : read_openvpn_material env n begin_ end_ = Ok m -> exists text, valid_utf8 text = true /\
  normalize_openvpn_material text begin_ end_ = Some m.
Proof.
  unfold read_openvpn_material. intros Hm. bind_inv Hm. destruct (file_entry a) as [x|] eqn:Ef; [|done]. injection E0 as ->.
  destruct (file_text a0) as [t|] eqn:Et; [|done]. injection E2 as ->. destruct (normalize_openvpn_material a2 begin_ end_) as [r|] eqn:En; [|done].
  injection Hm as ->. exists a2. split; [by eapply file_entry_utf8|done].
Qed.
Lemma openvpn_usable o : cfg_openvpn c = Some o -> openvpn_matches o ->
  openvpn_validate (mkTransport (openvpn_profile o) (Some (mkCredential (cs_data_plane_token created) (openvpn_secrets o (cs_id created))))) = Ok tt.
Proof.
  intros Ho [Hhost Hsize]. destruct (profile_facts _ (openvpn_profile o) (wf_transports _ W)) as (name & He & Hp & _); [by apply (wf_advertises _ W)|].
  pose proof (hostname_facts _ _ He) as (_ & _ & _ & _ & _ & _ & _ & HE). destruct (openvpn_shape o Ho) as (Hsni & Hip & n1 & n2 & n3 & R1 & R2 & R3).
  destruct (split_session_token_inv _ _ Htoken) as (Etok & Hidl & Hsl & Hida & Hsa). cbn [part_id part_secret] in *.
  set (t := mkTransport _ _). set (secrets := [("ca_certificate_pem_b64"%string, base64_encode (ov_ca_certificate o));
    ("stunnel_ca_certificate_pem_b64"%string, base64_encode (ov_stunnel_ca_certificate o));
    ("tls_crypt_key_b64"%string, base64_encode (ov_tls_crypt_key o)); ("username"%string, cs_id created)]).
  set (options := [("auth_mode"%string, str "session_token"); ("cipher"%string, str "aes_256_gcm"); ("remote_cert_tls"%string, str "server");
    ("tls_crypt"%string, str "v1"); ("tls_minimum"%string, str "1.2"); ("transport"%string, str "stunnel_tls")]).
  assert (Ho' : tp_options (st_profile t) = options_of options) by reflexivity.
  assert (HO : forall k v, (k, v) ∈ options -> v <> [] -> named_option t "OpenVPN" k = Ok v).
  { intros k v Hin Hv. unfold named_option. rewrite Ho', (options_of_lookup _ k v) by (done || reflexivity). by rewrite nonempty_some. }
  assert (HS : forall k v, (k, v) ∈ secrets -> v <> [] -> openvpn_secret t k = Ok v).
  { intros k v Hin Hv. unfold openvpn_secret, named_secret, secret_of. cbn [t st_credential mbind option_bind tc_secrets]. unfold openvpn_secrets.
    fold secrets. rewrite (options_of_lookup _ k v) by (done || reflexivity). by rewrite nonempty_some. }
  assert (HM : forall k m n b e, (k, base64_encode m) ∈ secrets -> zlen m <= MAX_CLIENT_MATERIAL_BYTES -> dashed b -> dashed e ->
    read_openvpn_material env n b e = Ok m -> decode_material t k b e = Ok m).
  { intros k m n b e Hin Hz Hb He' (text & HV & Hn)%read_material_text. rewrite (material_read text b e m) by (done || (apply HS; [done|by eapply material_encoded])).
    by rewrite (proj2 (Z.leb_le _ _)). }
  rewrite !Forall_cons in Hsize. destruct Hsize as (Z1 & Z2 & Z3 & _).
  unfold openvpn_validate, openvpn_supports. rewrite Ho', unknown_key_none by (apply options_of_known; reflexivity).
  rewrite engine_checks_ok by (repeat (apply Forall_cons; split; [apply expected_ok, HO; [listed|done]|]); by apply Forall_nil).
  rewrite (HS "username"%string (cs_id created)); [|listed|intros E; by rewrite E in Hidl].
  rewrite (HM "ca_certificate_pem_b64"%string (ov_ca_certificate o) n1) by (listed || done || apply certificate_dashed_begin || apply certificate_dashed_end).
  rewrite (HM "stunnel_ca_certificate_pem_b64"%string (ov_stunnel_ca_certificate o) n2) by (listed || done || apply certificate_dashed_begin || apply certificate_dashed_end).
  rewrite (HM "tls_crypt_key_b64"%string (ov_tls_crypt_key o) n3) by (listed || done || apply key_dashed_begin || apply key_dashed_end).
  cbn [t st_profile openvpn_profile tp_protocol tp_network tp_port tp_endpoint tp_tls_server_name st_credential the_credential tc_secrets tc_auth].
  rewrite (proj2 (Z.eqb_neq (ov_public_port o) 0)) by exact Hp. cbn [openvpn_profile tp_endpoint] in HE. rewrite HE, Hsni, Hip.
  unfold openvpn_secrets. fold secrets. rewrite options_of_size_exact by reflexivity. rewrite unknown_key_none by (apply options_of_known; reflexivity).
  assert (Hc' : scoped_credential (cs_id created) (cs_data_plane_token created) = true).
  { unfold scoped_credential, starts_with_str, zlen in *. rewrite Etok, length_app, forallb_app, Hida, Hsa, Hidl, take_app_length' by done.
    rewrite bool_decide_true by done. rewrite Nat2Z.inj_add, Hsl. done. }
  assert (Hm : negb (bool_decide (ov_sni o = ov_public_host o)) && negb (is_ip (ov_public_host o)) = false)
    by (destruct Hhost as [->| ->]; [by rewrite bool_decide_true|by rewrite andb_false_r]).
  rewrite Hc'. cbn [bool_decide andb negb]. by rewrite Hm.
Qed.

(** What the app reads of each material. *)
Definition openvpn_session (o : OpenVpnConfig) : SessionTransport :=
  mkTransport (openvpn_profile o) (Some (mkCredential (cs_data_plane_token created) (openvpn_secrets o (cs_id created)))).
Lemma material_sent o k m n b e : (k, base64_encode m) ∈ [("ca_certificate_pem_b64"%string, base64_encode (ov_ca_certificate o));
    ("stunnel_ca_certificate_pem_b64"%string, base64_encode (ov_stunnel_ca_certificate o));
    ("tls_crypt_key_b64"%string, base64_encode (ov_tls_crypt_key o)); ("username"%string, cs_id created)] ->
  dashed b -> dashed e -> read_openvpn_material env n b e = Ok m -> is_ok (decode_material (openvpn_session o) k b e) = true -> zlen m <= MAX_CLIENT_MATERIAL_BYTES.
Proof.
  intros Hin Hb He (text & HV & Hn)%read_material_text. rewrite (material_read text b e m); [|done..|].
  - destruct (Z.leb_spec (zlen m) MAX_CLIENT_MATERIAL_BYTES); done.
  - unfold openvpn_secret, named_secret, secret_of. cbn [openvpn_session st_credential mbind option_bind tc_secrets]. unfold openvpn_secrets.
    rewrite (options_of_lookup _ k (base64_encode m)) by (done || reflexivity). by rewrite nonempty_some by (by eapply material_encoded).
Qed.
Lemma openvpn_session_ok o : cfg_openvpn c = Some o -> openvpn_validate (openvpn_session o) = Ok tt -> openvpn_matches o.
Proof.
  intros Ho HV. destruct (openvpn_shape o Ho) as (Hsni & Hip & n1 & n2 & n3 & R1 & R2 & R3). unfold openvpn_validate in HV. bind_inv HV. split.
  - match goal with E : match tp_tls_server_name _ with _ => _ end = Ok ?sni |- _ => cbn [openvpn_session st_profile openvpn_profile tp_tls_server_name] in E; rewrite Hsni, Hip in E;
      cbn [negb andb] in E; assert (sni = ov_sni o) as Esni by congruence; rewrite Esni in * end.
    match goal with E : (if negb (bool_decide (ov_sni o = _)) && _ then _ else _) = Ok _ |- _ => cbn [openvpn_session st_profile openvpn_profile tp_endpoint] in E; revert E end.
    destruct (decide (ov_sni o = ov_public_host o)) as [Eh|Eh]; [intros _; by left|]. rewrite (bool_decide_false _ Eh).
    destruct (is_ip (ov_public_host o)); [intros _; by right|intros HD; discriminate HD].
  - repeat match goal with E : decode_material _ _ _ _ = Ok ?m |- _ => apply (f_equal is_ok) in E; cbn [is_ok] in E end.
    rewrite !Forall_cons. split_and!; [..|by apply Forall_nil].
    + eapply (material_sent o "ca_certificate_pem_b64"); [listed|apply certificate_dashed_begin|apply certificate_dashed_end|exact R1|done].
    + eapply (material_sent o "stunnel_ca_certificate_pem_b64"); [listed|apply certificate_dashed_begin|apply certificate_dashed_end|exact R2|done].
    + eapply (material_sent o "tls_crypt_key_b64"); [listed|apply key_dashed_begin|apply key_dashed_end|exact R3|done].
Qed.

(** ** Every transport of a session *)

Definition all_engines : list ClientEngine := [hysteria_engine; xray_engine; shadowsocks_engine; openvpn_engine; wireguard_engine].
(** An engine takes the transport on, and any that does accepts it. *)
Definition supported (t : SessionTransport) : bool := existsb (fun e => engine_supports e t) all_engines.
Definition usable (t : SessionTransport) : Prop := supported t = true /\ forall e, e ∈ all_engines -> engine_supports e t = true -> engine_validate e t = Ok tt.
Lemma usable_cases t : supported t = true -> (hysteria_supports t = true -> hysteria_validate t = Ok tt) -> (xray_supports t = true -> xray_validate t = Ok tt) ->
  (shadowsocks_supports t = true -> shadowsocks_validate t = Ok tt) -> (openvpn_supports t = true -> openvpn_validate t = Ok tt) ->
  (wireguard_supports t = true -> wireguard_validate t = Ok tt) -> usable t.
Proof.
  intros U0 U1 U2 U3 U4 U5. split; [done|]. intros e He Hs. unfold all_engines in He. rewrite !elem_of_cons in He.
  destruct He as [->|[->|[->|[->|[->|He]]]]]; cbn [engine_validate engine_supports hysteria_engine xray_engine shadowsocks_engine openvpn_engine wireguard_engine] in *;
    rewrite ?U1, ?U2, ?U3, ?U4, ?U5 by done; [done..|by apply elem_of_nil in He].
Qed.
(** The engine of a protocol is the only one asked. *)
Ltac by_protocol P := match goal with |- usable ?t =>
  let E := fresh in assert (E : tp_protocol (st_profile t) = P) by (reflexivity || done);
  apply usable_cases; unfold supported, all_engines; cbn [existsb engine_supports hysteria_engine xray_engine shadowsocks_engine openvpn_engine wireguard_engine];
  unfold hysteria_supports, xray_supports, shadowsocks_supports, openvpn_supports, wireguard_supports; rewrite E; [reflexivity|..];
  let S := fresh in intros S; first [discriminate S|clear S] end.
Lemma hysteria_any h t : st_profile t = hysteria_profile h -> hysteria_validate t = Ok tt -> usable t.
Proof.
  intros Et HU. assert (HP : tp_protocol (hysteria_profile h) = Hysteria2 \/ tp_protocol (hysteria_profile h) = XorScrambled)
    by (unfold hysteria_profile; destruct (hy_obfuscation h); auto).
  rewrite <- Et in HP. destruct HP as [E|E]; [by_protocol Hysteria2|by_protocol XorScrambled]; done.
Qed.
Lemma xray_any p id : p ∈ cfg_transports c -> is_Some (cfg_xray c ≫= fun x => xray_credential x (tp_id p) id) -> id = cs_id created ->
  usable (mkTransport p (cfg_xray c ≫= fun x => xray_credential x (tp_id p) id)).
Proof.
  intros Hin HS ->. destruct (cfg_xray c) as [x|] eqn:Ex; [|by destruct HS]. cbn [mbind option_bind] in *. unfold xray_credential in *.
  assert (HX : forall h, xr_xhttp x = Some h -> xh_transport_id h = tp_id p -> usable (mkTransport p (Some (mkCredential (session_uuid x (cs_id created)) ∅)))).
  { intros h Hh Hi. assert (p = xhttp_profile h) as -> by (eapply (same_profile env c Hc); [done|by eapply (wf_advertises _ W)|done]).
    pose proof (xhttp_usable x h Ex Hh) as HU. by_protocol Stealth. exact HU. }
  destruct (xr_reality x) as [r|] eqn:Er; [case_bool_decide as Hi|].
  - assert (p = reality_profile r) as -> by (eapply (same_profile env c Hc); [done|by eapply (wf_advertises _ W)|done]).
    pose proof (reality_usable x r Ex Er) as HU. by_protocol VlessXtlsReality. exact HU.
  - destruct (xr_xhttp x) as [h|] eqn:Eh; [case_bool_decide|]; [by eapply HX|by destruct HS..].
  - destruct (xr_xhttp x) as [h|] eqn:Eh; [case_bool_decide|]; [by eapply HX|by destruct HS..].
Qed.
Lemma session_transport_usable p t : (forall o, cfg_openvpn c = Some o -> openvpn_matches o) -> p ∈ cfg_transports c -> session_transport c created p = Ok t ->
  is_Some (st_credential t) -> usable t.
Proof.
  intros Hov Hin. assert (HP : forall q, q ∈ cfg_transports c -> tp_id p = tp_id q -> p = q) by (intros q Hq; by eapply (same_profile env c Hc)).
  unfold session_transport.
  destruct (engine_for (cfg_hysteria c) hy_transport_id (tp_id p)) as [h|] eqn:E1.
  { apply engine_for_some in E1 as [Hh Hi]. assert (p = hysteria_profile h) as -> by (apply HP; [by apply (wf_advertises _ W)|by rewrite <- Hi; unfold hysteria_profile; destruct (hy_obfuscation h)]).
    intros [= <-] _. eapply hysteria_any; [done|]. by apply hysteria_usable. }
  destruct (engine_for (cfg_shadowsocks c) ss_transport_id (tp_id p)) as [s|] eqn:E2.
  { apply engine_for_some in E2 as [Hs Hi]. assert (p = shadowsocks_profile s) as -> by (apply HP; [by apply (wf_advertises _ W)|done]).
    destruct (session_port s _) as [port|] eqn:Ep; [|done]. intros [= <-] _. pose proof (shadowsocks_usable s port Hs Ep) as HU.
    by_protocol Shadowsocks2022. exact HU. }
  destruct (engine_for (cfg_wireguard c) wg_transport_id (tp_id p)) as [g|] eqn:E3.
  { apply engine_for_some in E3 as [Hg Hi]. assert (p = wireguard_profile g) as -> by (apply HP; [by apply (wf_advertises _ W)|done]).
    destruct (client_address _) as [address|] eqn:Ea; [|done]. destruct (wireguard_credential g _) as [cr|] eqn:Ecr; [|done]. intros Ht _. cbn [ok_or] in Ht.
    assert (t = mkTransport (set_option (wireguard_profile g) (str "client_address") address) (Some cr)) as -> by congruence.
    pose proof (wireguard_usable g address cr Hg Ea Ecr) as HU.
    by_protocol WireGuard. exact HU. }
  destruct (engine_for (cfg_openvpn c) ov_transport_id (tp_id p)) as [o|] eqn:E4.
  { apply engine_for_some in E4 as [Ho Hi]. assert (p = openvpn_profile o) as -> by (apply HP; [by apply (wf_advertises _ W)|done]).
    intros Ht _. assert (t = mkTransport (openvpn_profile o) (Some (mkCredential (cs_data_plane_token created) (openvpn_secrets o (cs_id created))))) as -> by congruence.
    pose proof (openvpn_usable o Ho (Hov o Ho)) as HU.
    by_protocol OpenVpnStunnel. exact HU. }
  intros Ht HS. assert (t = mkTransport p (cfg_xray c ≫= fun x => xray_credential x (tp_id p) (cs_id created))) as -> by congruence. by apply xray_any.
Qed.
Lemma installed_known files e : e ∈ service_engines files -> e ∈ all_engines.
Proof.
  unfold service_engines, all_engines. rewrite !elem_of_app, !elem_of_cons. intros HE.
  repeat match goal with HE : _ \/ _ |- _ => destruct HE as [HE|HE] end; case_match; rewrite ?list_elem_of_singleton, ?elem_of_nil in HE; tauto.
Qed.
Definition every_file : EngineFiles := mkFiles true true true true true true true.
Lemma usable_checked files t : usable t -> (checked_engine files t = None \/ checked_engine files t = Some (Ok tt)) /\ checked_engine every_file t = Some (Ok tt).
Proof.
  intros [HX HU]. unfold checked_engine. split.
  - destruct (List.find _ _) as [e|] eqn:Ef; [right|by left]. apply List.find_some in Ef as [Hin Hs].
    cbn. rewrite (HU e); [done| |done]. by eapply installed_known, list_elem_of_In.
  - change (service_engines every_file) with all_engines. destruct (List.find _ all_engines) as [e|] eqn:Ef.
    + apply List.find_some in Ef as [Hin Hs]. cbn. by rewrite (HU e) by (done || by apply list_elem_of_In).
    + apply existsb_exists in HX as (e & Hin & Hs). by rewrite (List.find_none _ _ Ef e Hin) in Hs.
Qed.
Lemma collect_elem {E A B} (f : A -> result E B) l ts t : collect f l = Ok ts -> t ∈ ts -> exists a, a ∈ l /\ f a = Ok t.
Proof.
  revert ts. induction l as [|a l IH]; intros ts; cbn [collect]; [intros [= <-] Ht; by apply elem_of_nil in Ht|].
  destruct (f a) as [b|] eqn:Ef; [|done]. destruct (collect f l) as [bs|]; [|done]. intros [= <-] Ht.
  apply elem_of_cons in Ht as [->|Ht]; [exists a; split; [left|done]|]. destruct (IH bs eq_refl Ht) as (a' & Ha & Hf). exists a'. split; [by right|done].
Qed.

(** C10: What the server advertises, the app can use. Of settings the server
    takes, every transport of a session's manifest that carries a credential
    is accepted by the engine of the desktop app that takes its protocol on
    (endpoint, TLS name, options, secrets, keys, addresses and, for OpenVPN,
    the key material decoded from the manifest), whichever engines are
    installed, and with every engine installed there is one. Two things the settings leave open are assumed for OpenVPN:
    that its host is an address or the name of its certificate, and that no
    normalised material is above 8 KiB. *)
Theorem advertised_transports_usable ts t files : (forall o, cfg_openvpn c = Some o -> openvpn_matches o) ->
  session_transports c created = Ok ts -> t ∈ ts -> is_Some (st_credential t) ->
  (checked_engine files t = None \/ checked_engine files t = Some (Ok tt)) /\ checked_engine every_file t = Some (Ok tt).
Proof.
  intros Hov Hts Ht Hcr. unfold session_transports in Hts. destruct (collect_elem _ _ _ _ Hts Ht) as (p & [_ Hp]%list_elem_of_filter & Hs).
  apply usable_checked. by eapply session_transport_usable.
Qed.

(** An engine with the identifier of a profile of another protocol. *)
Lemma engine_for_other {A} (o : option A) f (profile : A -> TransportProfile) q : (forall a, o = Some a -> profile a ∈ cfg_transports c) ->
  (forall a, tp_id (profile a) = f a) -> (forall a, tp_protocol (profile a) <> tp_protocol q) -> q ∈ cfg_transports c -> engine_for o f (tp_id q) = None.
Proof.
  intros HA Hf HP Hq. destruct (engine_for o f (tp_id q)) as [a|] eqn:Ea; [exfalso|done]. apply engine_for_some in Ea as [Ho Hi].
  apply (HP a). f_equal. eapply (same_profile env c Hc); [by apply HA|done|by rewrite Hf].
Qed.
Lemma openvpn_session_sent o : cfg_openvpn c = Some o -> openvpn_profile o ∈ cfg_transports c -> session_transport c created (openvpn_profile o) = Ok (openvpn_session o).
Proof.
  intros Ho Hin. destruct (wf_advertises _ W) as (A1 & _ & A3 & A4 & _). unfold session_transport.
  rewrite (engine_for_other _ _ hysteria_profile), (engine_for_other _ _ shadowsocks_profile), (engine_for_other _ _ wireguard_profile); try done;
    try (intros h; unfold hysteria_profile; by destruct (hy_obfuscation h)).
  rewrite Ho. unfold engine_for. by rewrite bool_decide_true.
Qed.
(** C34: Which OpenVPN settings the app can use. The server takes OpenVPN
    settings with any public host beside the certificate's name and with key
    files of up to 8 KiB; of those it takes, a session's OpenVPN transport is
    accepted by the app exactly when the host is an address or is that name,
    and each material, with the newline the server ends it with, is at most
    8 KiB. With a host name apart from the certificate's, or a file that fills
    the limit without a final newline, every session's OpenVPN transport is
    refused though the server started. *)
Theorem openvpn_usable_exactly o : cfg_openvpn c = Some o ->
  openvpn_profile o ∈ cfg_transports c /\ session_transport c created (openvpn_profile o) = Ok (openvpn_session o) /\
  (checked_engine every_file (openvpn_session o) = Some (Ok tt) <-> openvpn_matches o).
Proof.
  intros Ho. assert (Hin : openvpn_profile o ∈ cfg_transports c) by (by apply (wf_advertises _ W)). split; [done|]. split; [by apply openvpn_session_sent|].
  assert (Ec : checked_engine every_file (openvpn_session o) = Some (checked_as (openvpn_validate (openvpn_session o)))) by reflexivity.
  rewrite Ec. split.
  - destruct (openvpn_validate (openvpn_session o)) as [[]|] eqn:EV; [intros _; by apply openvpn_session_ok|intros HD; discriminate HD].
  - intros HM. unfold openvpn_session. by rewrite (openvpn_usable o Ho HM).
Qed.
End advertised.

#[export] Instance demo_files_utf8 : FilesUtf8.
Proof.
  intros path e text. unfold file_entry, demo_files. repeat case_bool_decide; try done; intros [= <-]; cbn [file_text];
    intros HT; [assert (text = demo_certificate) as -> by congruence|assert (text = demo_static_key) as -> by congruence]; vm_compute; reflexivity.
Qed.

Lemma demo_token_split : split_session_token (cs_data_plane_token demo_created) = Ok (mkParts (cs_id demo_created) demo_random).
Proof. vm_compute. reflexivity. Qed.
Lemma demo_slot : 0 <= cs_resource_slot demo_created < cfg_max_sessions demo_config.
Proof. assert (cfg_max_sessions demo_config = 4) as -> by (vm_compute; reflexivity). cbn. lia. Qed.
Definition demo_transports : list SessionTransport := match session_transports demo_config demo_created with Ok ts => ts | Err _ => [] end.
Lemma demo_transports_ok : session_transports demo_config demo_created = Ok demo_transports.
Proof. unfold demo_transports. destruct (session_transports demo_config demo_created) eqn:E; [done|]. apply (f_equal is_ok) in E. vm_compute in E. discriminate E. Qed.
Definition matches (o : OpenVpnConfig) : bool := (bool_decide (ov_sni o = ov_public_host o) || is_ip (ov_public_host o)) &&
  forallb (fun m => zlen m <=? MAX_CLIENT_MATERIAL_BYTES) [ov_ca_certificate o; ov_stunnel_ca_certificate o; ov_tls_crypt_key o].
Lemma matches_spec o : openvpn_matches o <-> matches o = true.
Proof.
  unfold openvpn_matches, matches. rewrite andb_true_iff, orb_true_iff, bool_decide_eq_true, forallb_Forall, !Forall_cons, !Z.leb_le. naive_solver.
Qed.
Definition transport_at (i : nat) : SessionTransport := nth i demo_transports (mkTransport (mkProfile [] [] Hysteria2 [] 0 Udp 0 None ∅) None).
Lemma nth_elem {A} (l : list A) i d : (i <? length l)%nat = true -> nth i l d ∈ l.
Proof. intros Hi%Nat.ltb_lt. apply list_elem_of_In. by apply nth_In. Qed.
Lemma transport_at_in i : (i <? length demo_transports)%nat = true -> transport_at i ∈ demo_transports.
Proof. exact (nth_elem demo_transports i _). Qed.

(** The OpenVPN transport of the demo session, read by every engine. *)
Lemma advertised_transports_usable_witness : checked_engine every_file (transport_at 1) = Some (Ok tt) /\ tp_id (st_profile (transport_at 1)) = str "openvpn-stunnel-primary".
Proof.
  split; [|vm_compute; reflexivity].
  refine (proj2 (advertised_transports_usable demo_env demo_config demo_config_ok demo_created demo_random demo_token_split demo_slot demo_transports (transport_at 1) every_file _ demo_transports_ok _ _)).
  - intros o Ho. apply matches_spec. assert (E : match cfg_openvpn demo_config with Some o => matches o | None => false end = true) by (vm_compute; reflexivity).
    rewrite Ho in E. exact E.
  - apply transport_at_in. vm_compute. reflexivity.
  - apply (bool_decide_unpack _). vm_compute. exact I.
Defined.

(** The same node with another host name in front of its OpenVPN. *)
Definition renamed_env : Environment := <[str "KET_OPENVPN_PUBLIC_HOST" := str "vpn.example.com"]> demo_env.
Definition renamed_config : ServerConfig := config_of renamed_env.
Lemma renamed_config_ok : from_env renamed_env = Ok renamed_config.
Proof. apply config_of_ok. vm_compute. reflexivity. Qed.
Definition renamed_openvpn : OpenVpnConfig := match cfg_openvpn renamed_config with Some o => o | None => mkOpenVpn [] [] [] [] [] 0 [] [] [] [] end.
Lemma renamed_openvpn_ok : cfg_openvpn renamed_config = Some renamed_openvpn.
Proof. unfold renamed_openvpn. destruct (cfg_openvpn renamed_config) eqn:E; [done|]. apply (f_equal (fun o => bool_decide (is_Some o))) in E. vm_compute in E. discriminate E. Qed.
Lemma openvpn_usable_exactly_witness : is_ok (from_env renamed_env) = true /\ checked_engine every_file (openvpn_session demo_created renamed_openvpn) <> Some (Ok tt).
Proof.
  split; [rewrite renamed_config_ok; reflexivity|]. intros HC.
  destruct (openvpn_usable_exactly renamed_env renamed_config renamed_config_ok demo_created demo_random demo_token_split renamed_openvpn renamed_openvpn_ok) as (_ & _ & [HM _]).
  apply HM, matches_spec in HC. vm_compute in HC. discriminate HC.
Defined.
