(* ===== verification/BridgeDiagnostics.v ===== *)
(** What the full-route bridge says when it ends
    (ket-client-core/src/full_route.rs): its error output read in pieces and
    sorted into a fixed list of causes, and that the pieces do not matter. *)

From Stdlib Require Import ZArith Lia Sorted.
From stdpp Require Import gmap strings.
From S2P Require Import Prelude Utf8 Str Validation EngineControls ClientEngines.

Inductive BridgeDiagnostic :=
| Permission | Wintun | TunDevice | DnsSetup | RouteSetup | AddressConflict | ResourceBusy | NetworkUnavailable | MissingComponent.
Definition bridge_message (d : BridgeDiagnostic) : list byte :=
  str match d with
      | Permission => "permission was denied while configuring protected routes"
      | Wintun => "the Wintun driver could not be initialized"
      | TunDevice => "the TUN interface could not be created or retained"
      | DnsSetup => "protected DNS routing could not be configured"
      | RouteSetup => "system routes could not be configured"
      | AddressConflict => "a required local address or port is already in use"
      | ResourceBusy => "a required networking device is busy"
      | NetworkUnavailable => "the underlying network became unreachable"
      | MissingComponent => "a required operating-system networking component is missing"
      end%string.
Definition priority (d : BridgeDiagnostic) : Z :=
  match d with
  | Permission => 9 | Wintun => 8 | TunDevice => 7 | DnsSetup => 6 | RouteSetup => 5 | AddressConflict => 4 | ResourceBusy => 3
  | NetworkUnavailable => 2 | MissingComponent => 1
  end.

Definition classify_bridge_diagnostic (output : list byte) : option BridgeDiagnostic :=
  let normalized := lowercase output in
  if contains_any normalized ["permission denied"; "operation not permitted"; "access is denied"; "requires elevation"; "administrator privileges"]%string
  then Some Permission
  else if contains_any normalized ["wintun"; "wireguardnt"]%string then Some Wintun
  else if contains_any normalized ["create tun"; "open tun"; "tun device"; "tun interface"; "tap device"; "utun"]%string then Some TunDevice
  else if contains_any normalized ["dns"; "resolv.conf"; "systemd-resolved"]%string then Some DnsSetup
  else if contains_any normalized ["ip route"; "ip rule"; "netsh"; "routing table"; "add route"]%string then Some RouteSetup
  else if contains (str "address already in use") normalized then Some AddressConflict
  else if contains_any normalized ["device or resource busy"; "resource busy"]%string then Some ResourceBusy
  else if contains_any normalized ["network is unreachable"; "no route to host"; "network is down"]%string then Some NetworkUnavailable
  else if contains_any normalized ["no such file or directory"; "system cannot find the file specified"; "module could not be found"]%string
  then Some MissingComponent
  else None.

(** [collect_bridge_diagnostic], over what each [read] returns; an empty read
    ends the output, as an error does. *)
Definition TAIL_BYTES : nat := 128.
Definition lossy_text (s : list byte) : list byte := encode_chars (from_utf8_lossy s).
Definition prefer (selected candidate : option BridgeDiagnostic) : option BridgeDiagnostic :=
  match candidate with
  | Some c => match selected with Some current => if priority current <? priority c then Some c else selected | None => Some c end
  | None => selected
  end.
Fixpoint collect_loop (tail : list byte) (selected : option BridgeDiagnostic) (reads : list (list byte)) : option BridgeDiagnostic :=
  match reads with
  | [] => selected
  | chunk :: reads =>
    if bool_decide (chunk = []) then selected
    else
      let scan := tail ++ chunk in
      let selected := prefer selected (classify_bridge_diagnostic (lossy_text scan)) in
      collect_loop (drop (length scan - TAIL_BYTES) scan) selected reads
  end.
Definition collect_bridge_diagnostic (reads : list (list byte)) : option BridgeDiagnostic := collect_loop [] None reads.

(** * Text with its invalid parts replaced *)

Definition foreign (s : list byte) : Prop := s <> [] /\ forallb (fun b => negb (is_ascii b)) s = true.
(** The same ASCII text, between runs of other bytes that need not agree. *)
Inductive same_ascii : list byte -> list byte -> Prop :=
| same_nil : same_ascii [] []
| same_letter b s t : is_ascii b = true -> same_ascii s t -> same_ascii (b :: s) (b :: t)
| same_other p q s t : foreign p -> foreign q -> same_ascii s t -> same_ascii (p ++ s) (q ++ t).
Lemma same_sym s t : same_ascii s t -> same_ascii t s.
Proof. induction 1; by constructor. Qed.
Lemma ascii_next b s : is_ascii b = true -> next_char (b :: s) <> None.
Proof. unfold is_ascii. cbn [next_char]. intros E. by rewrite E. Qed.
Lemma invalid_foreign s : s <> [] -> next_char s = None -> foreign (take (invalid_len s) s).
Proof.
  intros Hs Hn. destruct s as [|a s]; [done|]. assert (Ha : is_ascii a = false).
  { destruct (is_ascii a) eqn:E; [|done]. by destruct (ascii_next a s E). }
  assert (HC : forall b, (0x80 <=? b2z b) && (b2z b <=? 0xbf) = true -> is_ascii b = false).
  { intros b [Hb _]%andb_true_iff. unfold is_ascii. bool_prop. apply Z.ltb_ge. lia. }
  clear Hn Hs. unfold invalid_len. destruct s as [|b s]; [split; [done|]; cbn; by rewrite Ha|].
  repeat case_match; (split; [done|]); cbn [take forallb]; rewrite Ha; cbn [negb andb]; try done;
    repeat match goal with E : _ && _ = true |- _ => apply andb_true_iff in E as [? ?] end; by rewrite ?HC by (by apply andb_true_iff).
Qed.
Lemma lossy_same fuel s : (length s <= fuel)%nat -> same_ascii s (encode_chars (lossy fuel s)).
Proof.
  revert s. induction fuel as [|fuel IH]; intros s Hl; [destruct s; [constructor|cbn in Hl; lia]|].
  destruct s as [|a s]; [constructor|]. cbn [lossy]. destruct (next_char (a :: s)) as [[ch r]|] eqn:En.
  - apply next_char_inv in En as [Hc E]. rewrite E. assert (Hr : (length r <= fuel)%nat).
    { apply (f_equal length) in E. rewrite length_app in E. pose proof (encode_char_length ch). cbn [length] in *. lia. }
    change (encode_chars (ch :: lossy fuel r)) with (encode_char ch ++ encode_chars (lossy fuel r)).
    destruct (encode_char_bytes ch Hc) as [(b & Eb & Hb)|Hf]; [rewrite Eb; apply same_letter; [done|by apply IH]|].
    assert (foreign (encode_char ch)) by (split; [intros E0; pose proof (encode_char_length ch) as Hz; rewrite E0 in Hz; cbn in Hz; lia|done]).
    apply same_other; [done|done|by apply IH].
  - pose proof (invalid_foreign (a :: s) ltac:(done) En) as HF. rewrite <- (take_drop (invalid_len (a :: s)) (a :: s)) at 1.
    change (encode_chars (0xfffd :: ?l)) with (encode_char 0xfffd ++ encode_chars l). apply same_other; [done|by split|]. apply IH.
    rewrite length_drop. assert (1 <= invalid_len (a :: s))%nat by (destruct HF as [HF _]; destruct (invalid_len (a :: s)); [done|lia]). cbn [length] in *. lia.
Qed.
Lemma lower_ascii b : is_ascii (to_ascii_lowercase b) = is_ascii b.
Proof.
  unfold to_ascii_lowercase, is_ascii, is_ascii_uppercase. destruct ((65 <=? b2z b) && (b2z b <=? 90)) eqn:E; [|done]. bool_prop.
  rewrite b2z_z2b_small by lia. rewrite !(proj2 (Z.ltb_lt _ _)) by lia. done.
Qed.
Lemma foreign_lower s : foreign s -> foreign (lowercase s).
Proof. intros [Hn HF]. split; [by destruct s|]. unfold lowercase. apply forallb_Forall in HF. apply forallb_Forall, Forall_map. eapply Forall_impl; [exact HF|].
  intros b. cbn. by rewrite lower_ascii.
Qed.
Lemma same_lower s t : same_ascii s t -> same_ascii (lowercase s) (lowercase t).
Proof.
  induction 1 as [|b s t Hb HS IH|p q s t Hp Hq HS IH]; [constructor| |].
  - apply same_letter; [by rewrite lower_ascii|done].
  - unfold lowercase. rewrite !map_app. apply same_other; [by apply foreign_lower..|done].
Qed.

(** * Occurrences *)

Lemma contains_spec n s : contains n s = true <-> exists a b, s = a ++ n ++ b.
Proof.
  induction s as [|x s IH]; cbn [contains]; rewrite orb_true_iff, bool_decide_eq_true.
  - split; [intros [E|]; [|done]; exists [], []; rewrite take_nil in E; by rewrite <- E|]. intros (a & b & E). left.
    symmetry in E. apply app_eq_nil in E as [-> E]. apply app_eq_nil in E as [-> ->]. done.
  - split.
    + intros [E|Hc]; [exists [], (drop (length n) (x :: s)); cbn [app]; rewrite <- E at 1; by rewrite take_drop|].
      apply IH in Hc as (a & b & ->). by exists (x :: a), b.
    + intros ([|y a] & b & E); [left; cbn [app] in E; rewrite E; by rewrite take_app_length|]. injection E as <- ->. right. apply IH. by exists a, b.
Qed.
Lemma foreign_head p s x r : foreign p -> p ++ s = x :: r -> is_ascii x = false.
Proof. intros [Hn HF] E. destruct p as [|y p]; [done|]. injection E as <- _. cbn in HF. apply andb_true_iff in HF as [Hy _]. by apply negb_true_iff. Qed.
Lemma same_prefix n s t : forallb is_ascii n = true -> same_ascii s t -> (exists b, s = n ++ b) -> exists b, t = n ++ b.
Proof.
  intros Hn HS. revert n Hn. induction HS as [|b s t Hb HS IH|p q s t Hp Hq HS IH]; intros n Hn [r E].
  - symmetry in E. apply app_eq_nil in E as [-> _]. by exists [].
  - destruct n as [|x n]; [by exists (b :: t)|]. injection E as <- E. apply andb_true_iff in Hn as [_ Hn].
    destruct (IH n Hn) as [r' ->]; [by exists r|]. by exists r'.
  - destruct n as [|x n]; [by exists (q ++ t)|]. apply andb_true_iff in Hn as [Hx _]. by rewrite (foreign_head _ _ _ _ Hp E) in Hx.
Qed.
Lemma same_occurs n s t : n <> [] -> forallb is_ascii n = true -> same_ascii s t -> (exists a b, s = a ++ n ++ b) -> exists a b, t = a ++ n ++ b.
Proof.
  intros Hne Hn HS. induction HS as [|b s t Hb HS IH|p q s t Hp Hq HS IH]; intros (a & r & E).
  - symmetry in E. apply app_eq_nil in E as [_ E]. by apply app_eq_nil in E as [-> _].
  - destruct a as [|x a].
    + destruct (same_prefix n (b :: s) (b :: t)) as [r' E']; [done|by constructor|by exists r|]. by exists [], r'.
    + injection E as <- E. destruct IH as (a' & r' & ->); [by exists a, r|]. by exists (b :: a'), r'.
  - assert (exists a', a = p ++ a' /\ s = a' ++ n ++ r) as (a' & -> & E').
    { apply app_eq_inv in E as [(k & Ek & Er)|(k & Ek & Er)]; [|by exists k].
      destruct k as [|x k]; [exists []; rewrite app_nil_r in Ek; cbn in Er; by rewrite app_nil_r|]. exfalso.
      destruct n as [|y n]; [done|]. injection Er as -> _. destruct Hp as [_ HF]. rewrite Ek, forallb_app in HF. cbn in HF, Hn.
      apply andb_true_iff in Hn as [Hy _]. rewrite Hy, andb_false_r in HF. done. }
    destruct IH as (a2 & r2 & ->); [by exists a', r|]. exists (q ++ a2), r2. by rewrite <- app_assoc.
Qed.
Lemma contains_lossy n s : n <> [] -> forallb is_ascii n = true -> contains n (lowercase (lossy_text s)) = contains n (lowercase s).
Proof.
  intros Hne Hn. pose proof (same_lower _ _ (lossy_same (length s) s ltac:(lia))) as HS. apply eq_true_iff_eq. rewrite !contains_spec.
  split; intros HC; (eapply same_occurs; [done|done| |exact HC]); [by apply same_sym|exact HS].
Qed.
(** An occurrence across two pieces lies in the end of the first and the
    second. *)
Lemma contains_pieces n p chunk : (length n <= S TAIL_BYTES)%nat ->
  contains n (p ++ chunk) = contains n p || contains n (drop (length p - TAIL_BYTES) p ++ chunk).
Proof.
  intros Hn. apply eq_true_iff_eq. rewrite orb_true_iff, !contains_spec. split.
  - intros (a & b & E). destruct (decide (length a + length n <= length p)%nat) as [Hl|Hl].
    + left. exists a, (drop (length a + length n) p). apply (f_equal (take (length p))) in E. rewrite take_app_length in E. rewrite E.
      rewrite app_assoc, take_app_ge by (rewrite length_app; lia). rewrite <- app_assoc. f_equal. f_equal.
      rewrite drop_app_ge by lia. replace (length a + length n - length a)%nat with (length n) by lia. rewrite length_app.
      rewrite drop_app_ge by lia. rewrite Nat.sub_diag. by rewrite drop_0.
    + right. exists (drop (length p - TAIL_BYTES) a), b.
      apply (f_equal (drop (length p - TAIL_BYTES))) in E. rewrite drop_app_le in E by lia. rewrite E. by rewrite drop_app_le by lia.
  - intros [(a & b & ->)|(a & b & E)]; [exists a, (b ++ chunk); by rewrite <- !app_assoc|].
    exists (take (length p - TAIL_BYTES) p ++ a), b. rewrite <- app_assoc, <- E, app_assoc, take_drop. done.
Qed.

(** * The causes as a table *)

Definition RULES : list (BridgeDiagnostic * list string) := [
  (Permission, ["permission denied"; "operation not permitted"; "access is denied"; "requires elevation"; "administrator privileges"]);
  (Wintun, ["wintun"; "wireguardnt"]); (TunDevice, ["create tun"; "open tun"; "tun device"; "tun interface"; "tap device"; "utun"]);
  (DnsSetup, ["dns"; "resolv.conf"; "systemd-resolved"]); (RouteSetup, ["ip route"; "ip rule"; "netsh"; "routing table"; "add route"]);
  (AddressConflict, ["address already in use"]); (ResourceBusy, ["device or resource busy"; "resource busy"]);
  (NetworkUnavailable, ["network is unreachable"; "no route to host"; "network is down"]);
  (MissingComponent, ["no such file or directory"; "system cannot find the file specified"; "module could not be found"])]%string.
Definition first_hit (hit : BridgeDiagnostic * list string -> bool) (rules : list (BridgeDiagnostic * list string)) : option BridgeDiagnostic := fst <$> List.find hit rules.
Lemma classify_table s : classify_bridge_diagnostic s = first_hit (fun r => contains_any (lowercase s) r.2) RULES.
Proof.
  unfold classify_bridge_diagnostic, first_hit, RULES. cbn [List.find snd fst]. repeat (case_match; [reflexivity|]).
  change (contains_any (lowercase s) ["address already in use"%string]) with (contains (str "address already in use") (lowercase s) || false).
  rewrite orb_false_r. repeat (case_match; try reflexivity).
Qed.
Lemma first_hit_prefer f g rules : StronglySorted (fun r r' : BridgeDiagnostic * list string => priority r'.1 < priority r.1) rules ->
  first_hit (fun r => f r || g r) rules = prefer (first_hit f rules) (first_hit g rules).
Proof.
  unfold first_hit. induction 1 as [|r rules HS IH HF]; [done|]. cbn [List.find].
  assert (HL : forall h x, fst <$> List.find h rules = Some x -> priority x < priority r.1).
  { intros h x Hx. apply fmap_Some in Hx as (r' & [Hin _]%List.find_some & ->). rewrite Forall_forall in HF. by apply HF, list_elem_of_In. }
  destruct (f r) eqn:Ef; cbn [orb].
  - destruct (g r); cbn [fmap option_fmap option_map prefer]; [by rewrite Z.ltb_irrefl|].
    destruct (fst <$> List.find g rules) as [x|] eqn:Eg; cbn [prefer]; [|done]. by rewrite (proj2 (Z.ltb_ge _ _)) by (apply HL in Eg; lia).
  - destruct (g r); [|done]. cbn [fmap option_fmap option_map prefer]. destruct (fst <$> List.find f rules) as [x|] eqn:Eg; [|done].
    by rewrite (proj2 (Z.ltb_lt _ _)) by (by apply HL in Eg).
Qed.
Lemma rules_sorted : StronglySorted (fun r r' : BridgeDiagnostic * list string => priority r'.1 < priority r.1) RULES.
Proof. unfold RULES. repeat (constructor; [|repeat (constructor; [cbn; lia|]); constructor]). constructor. Qed.
Definition needle_ok (n : string) : bool := negb (bool_decide (str n = [])) && forallb is_ascii (str n) && (length (str n) <=? S TAIL_BYTES)%nat.
Lemma rules_needles r : r ∈ RULES -> Forall (fun n => str n <> [] /\ forallb is_ascii (str n) = true /\ (length (str n) <= S TAIL_BYTES)%nat) r.2.
Proof.
  intros Hr. assert (HF : forallb (fun r => forallb needle_ok r.2) RULES = true) by (vm_compute; reflexivity).
  rewrite forallb_Forall, Forall_forall in HF. specialize (HF r Hr). apply forallb_Forall in HF. eapply Forall_impl; [exact HF|]. intros n Hn.
  unfold needle_ok in Hn. rewrite !andb_true_iff, negb_true_iff, bool_decide_eq_false, Nat.leb_le in Hn. tauto.
Qed.
Lemma first_hit_ext f g rules : (forall r, r ∈ rules -> f r = g r) -> first_hit f rules = first_hit g rules.
Proof.
  unfold first_hit. induction rules as [|r rules IH]; intros HE; [done|]. cbn [List.find]. rewrite (HE r) by left. destruct (g r); [done|].
  apply IH. intros r' Hr'. apply HE. by right.
Qed.
Lemma existsb_ext_Forall {A} (P : A -> Prop) (f g : A -> bool) l : Forall P l -> (forall a, P a -> f a = g a) -> existsb f l = existsb g l.
Proof. intros HF HE. induction HF as [|a l Ha HF IH]; [done|]. cbn. by rewrite (HE a Ha), IH. Qed.
Lemma existsb_orb {A} (f g : A -> bool) l : existsb (fun a => f a || g a) l = existsb f l || existsb g l.
Proof. induction l as [|a l IH]; [done|]. cbn. rewrite IH. by destruct (f a), (g a), (existsb f l). Qed.
(** The cause of a whole output, from its parts. *)
Definition cause (s : list byte) : option BridgeDiagnostic := first_hit (fun r => contains_any (lowercase s) r.2) RULES.
Lemma cause_lossy s : classify_bridge_diagnostic (lossy_text s) = cause s.
Proof.
  rewrite classify_table. apply first_hit_ext. intros r Hr. unfold contains_any. eapply existsb_ext_Forall; [by apply rules_needles|].
  intros n (Hne & Ha & _). by apply contains_lossy.
Qed.
Lemma lowercase_drop k s : lowercase (drop k s) = drop k (lowercase s).
Proof. unfold lowercase. apply (fmap_drop to_ascii_lowercase). Qed.
Lemma cause_pieces p chunk : cause (p ++ chunk) = prefer (cause p) (cause (drop (length p - TAIL_BYTES) p ++ chunk)).
Proof.
  unfold cause. rewrite <- first_hit_prefer by apply rules_sorted. apply first_hit_ext. intros r Hr. unfold contains_any. rewrite <- existsb_orb.
  eapply existsb_ext_Forall; [by apply rules_needles|]. intros n (_ & _ & Hl). unfold lowercase. rewrite !map_app. fold (lowercase p). fold (lowercase chunk).
  fold (lowercase (drop (length p - TAIL_BYTES) p)). rewrite lowercase_drop. assert (El : length p = length (lowercase p)) by (unfold lowercase; by rewrite length_map).
  rewrite El. by apply contains_pieces.
Qed.
Lemma collect_loop_whole p reads : Forall (fun r => r <> []) reads -> collect_loop (drop (length p - TAIL_BYTES) p) (cause p) reads = cause (p ++ concat reads).
Proof.
  intros HF. revert p. induction HF as [|chunk reads Hc HF IH]; intros p; [cbn [collect_loop concat]; by rewrite app_nil_r|].
  cbn [collect_loop concat]. rewrite bool_decide_false by done. rewrite cause_lossy, <- cause_pieces, app_assoc, <- IH. f_equal.
  rewrite !length_app, length_drop. destruct (decide (length p <= TAIL_BYTES)%nat) as [Hl|Hl].
  - replace (length p - TAIL_BYTES)%nat with 0%nat by lia. rewrite drop_0. f_equal. lia.
  - rewrite <- (drop_app_le p chunk) by lia. rewrite drop_drop. f_equal. lia.
Qed.

(** C23: The cause the bridge's error output is put down to does not depend on
    how the output arrives. The app reads it in pieces and keeps the last 128
    bytes of what it read beside each next piece; the cause it selects over
    the pieces, cut anywhere, also inside a phrase or a character, is the one
    of the whole output at once. *)
Theorem diagnostic_whatever_pieces reads : Forall (fun r => r <> []) reads ->
  collect_bridge_diagnostic reads = classify_bridge_diagnostic (lossy_text (concat reads)).
Proof. intros HF. rewrite cause_lossy. exact (collect_loop_whole [] reads HF). Qed.
Lemma diagnostic_whatever_pieces_witness : collect_bridge_diagnostic [str "Access is de"; [z2b 0xff]; str "Operation not per"; str "mitted"] = Some Permission.
Proof. rewrite diagnostic_whatever_pieces by (repeat constructor; discriminate). vm_compute. reflexivity. Defined.
