(* ===== verification/FullRoute.v ===== *)
(** Tunnels that route the whole machine (ket-client-core/src/full_route.rs):
    the bridge with the system resolver, the leak guard and the route keeper
    it runs under, the loops that wait for it to settle, and the tasks that
    supervise a tunnel until it ends. What is started and what ends is kept as
    a log; a value that goes out of scope ends what it owns, in the order the
    language drops it. *)

From Stdlib Require Import ZArith Lia.
From stdpp Require Import gmap strings.
From S2P Require Import Prelude Order Utf8 Str Net Bypass Contract Grant ClientEngines BridgeDiagnostics.

(** * Owned values *)

(** [DnsHeld] is a resolver lease not restored yet, and [LinkHeld] the tunnel
    link that a lease has made systemd-resolved's resolver. *)
Inductive Possession := ConfigFile (label : list byte) | EngineProcess | CarrierProcess | BridgeProcess | DnsHeld | LinkHeld | GuardHeld | KeeperHeld.
#[export] Instance Resource_eq_dec : EqDecision Possession.
Proof. solve_decision. Defined.
Inductive Act := Begins (r : Possession) | Ends (r : Possession).

(** A function with its locals, the latest first, each with what it owns in
    drop order. *)
Inductive Progress (A : Type) := Returns (a : A) | Raises (e : Fault) | Waits.
Arguments Returns {A}.
Arguments Raises {A}.
Arguments Waits {A}.
Definition Locals : Type := list (list Possession).
Definition Frame (A : Type) : Type := Locals -> list Act * Locals * Progress A.
Definition f_ret {A} (a : A) : Frame A := fun owned => ([], owned, Returns a).
Definition f_raise {A} (e : Fault) : Frame A := fun owned => ([], owned, Raises e).
Definition f_bind {A B} (m : Frame A) (f : A -> Frame B) : Frame B := fun owned =>
  match m owned with
  | (log, owned, Returns a) => let '(log', owned, r) := f a owned in (log ++ log', owned, r)
  | (log, owned, Raises e) => (log, owned, Raises e)
  | (log, owned, Waits) => (log, owned, Waits)
  end.
Notation "'loc!' x := m 'in' k" := (f_bind m (fun x => k)) (at level 10, x pattern, m at level 200, k at level 200, format "'[v' 'loc!'  x  :=  m  'in' '/' k ']'").
(** A new local that owns [r]. *)
Definition own (r : Possession) : Frame unit := fun owned => ([Begins r], [r] :: owned, Returns tt).
(** What the code ends itself: its owner has nothing left to end. *)
Definition ends (r : Possession) : Frame unit := fun owned => ([Ends r], map (filter (fun x => x <> r)) owned, Returns tt).
(** A process of a local stopped and another put in its place. *)
Definition restarts (r : Possession) : Frame unit := fun owned => ([Ends r; Begins r], owned, Returns tt).
(** Locals dropped, the latest first. A lease that is dropped restores the
    resolver; [again] is whether that works, and where it does not, the error
    is ignored and the resolver stays as it is. *)
Definition drops (again : bool) (owned : Locals) : list Act := map Ends (filter (fun r => again = true \/ r <> DnsHeld) (concat owned)).
(** A call that returns a value owning [value]; one that fails drops what it
    had. *)
Definition call_frame {A} (again : bool) (m : Frame A) (value : list Possession) : Frame A := fun owned =>
  match m [] with
  | (log, _, Returns a) => (log, value :: owned, Returns a)
  | (log, locals, Raises e) => (log ++ drops again locals, owned, Raises e)
  | (log, locals, Waits) => (log, locals ++ owned, Waits)
  end.
Definition f_lift {A} (r : result Fault A) : Frame A := match r with Ok a => f_ret a | Err e => f_raise e end.
Definition f_await {A} (o : option (result ClientError A)) : Frame (result ClientError A) :=
  match o with Some r => f_ret r | None => fun owned => ([], owned, Waits) end.
Definition f_require (ok : bool) (e : ClientError) : Frame unit := if ok then f_ret tt else f_raise (Fails e).

(** * The bridge *)

Definition TUNNEL_INTERFACE : list byte := str "ket0".
Definition second_ms : Z := 1000.
Definition TUNNEL_INTERFACE_TIMEOUT : Z := 10 * second_ms.

(** [timeout(.., status())] of a version check. *)
Inductive Check := CheckTimedOut | CheckUnavailable | CheckRan (success : bool).
Definition bridge_check (id : list byte) (c : Check) : result ClientError unit :=
  match c with
  | CheckTimedOut => Err (transport_error id (str "tun2proxy check timed out") true)
  | CheckUnavailable => Err (transport_error id (str "tun2proxy executable is unavailable") false)
  | CheckRan true => Ok tt
  | CheckRan false => Err (transport_error id (str "tun2proxy executable failed its version check") false)
  end.

Definition arguments (socks_port : Z) (server_addresses : list SocketAddr) : list (list byte) :=
  [str "--setup"; str "--proxy"; str "socks5://127.0.0.1:" ++ show_u64 socks_port; str "--dns"; str "virtual"; str "--verbosity"; str "error";
   str "--exit-on-fatal-error"; str "--ipv6-enabled"; str "--tun"; TUNNEL_INTERFACE]
  ++ concat (map (fun a => [str "--bypass"; show_ip a]) (server_ips server_addresses)).

(** What the calls of [start] come to. *)
Record BridgePlan := mkBridgePlan { dns_acquires : bool; guard_engages : bool; keeper_engages : bool; bridge_spawns : bool; stderr_captured : bool }.
(** The fields of [FullRouteProcess], in the order they are dropped. *)
Definition bridge_value : list Possession := [BridgeProcess; DnsHeld; GuardHeld; KeeperHeld].
Definition bridge_start (id : list byte) (plan : BridgePlan) : Frame unit :=
  let failed (why : string) := transport_error id (str why) false in
  loc! _ := f_require (dns_acquires plan) (failed "failed to route system DNS through the protected tunnel"%string) in
  loc! _ := own DnsHeld in
  loc! _ := f_require (guard_engages plan) (failed "failed to block DNS outside the protected tunnel"%string) in
  loc! _ := own GuardHeld in
  loc! _ := f_require (keeper_engages plan) (failed "failed to keep the server reachable outside the protected tunnel"%string) in
  loc! _ := own KeeperHeld in
  loc! _ := f_require (bridge_spawns plan) (failed "failed to launch the full-route bridge"%string) in
  loc! _ := own BridgeProcess in
  if stderr_captured plan then f_ret tt
  else
    loc! _ := ends BridgeProcess in
    f_raise (Fails (failed "failed to capture full-route bridge diagnostics"%string)).

(** * Settling *)

(** [try_wait]. *)
Inductive Inspection := CannotInspect | Alive | Exited (status : list byte).
(** An [io::Result] whose error is looked at for [NotFound]. *)
Inductive IoAnswer := IoFine | IoMissing | IoRefused.
Definition and_then (a b : IoAnswer) : IoAnswer := match a with IoFine => b | _ => a end.
(** What one round of a settling loop finds; times are milliseconds since the
    loop started. *)
Record Round := mkRound {
  r_engine : Inspection; r_carrier : Inspection; r_bridge : Inspection; r_diagnostic : option BridgeDiagnostic;
  r_guard : IoAnswer; r_route : IoAnswer; r_elapsed : Z; r_now : Z;
}.
Definition bridge_exit_message (exit : list byte) (diagnostic : option BridgeDiagnostic) : list byte :=
  str "full-route bridge exited unexpectedly (" ++ exit ++ str ")"
  ++ match diagnostic with Some d => str ": " ++ bridge_message d | None => [] end.
(** [admit_tunnel] of the bridge. *)
Definition bridge_admit_tunnel (id : list byte) (guard route : IoAnswer) : result ClientError bool :=
  match and_then guard route with
  | IoFine => Ok true
  | IoMissing => Ok false
  | IoRefused => Err (transport_error id (str "failed to keep DNS inside the protected tunnel") false)
  end.
Definition bridge_exit_if_stopped (id : list byte) (o : Round) : result ClientError (option (list byte)) :=
  match r_bridge o with
  | CannotInspect => Err (transport_error id (str "failed to inspect the route bridge") false)
  | Alive => Ok None
  | Exited exit => Ok (Some (bridge_exit_message exit (r_diagnostic o)))
  end.
Definition bridge_settle_step (id : list byte) (o : Round) : result ClientError bool :=
  let* stopped := bridge_exit_if_stopped id o in
  match stopped with
  | Some message => Err (transport_error id message false)
  | None =>
    let* admitted := bridge_admit_tunnel id (r_guard o) (r_route o) in
    if admitted then Ok true
    else if TUNNEL_INTERFACE_TIMEOUT <=? r_elapsed o
    then Err (transport_error id (str "the full-route bridge did not create its tunnel interface") false)
    else Ok false
  end.
Definition still_running (id : list byte) (inspect_failed stopped : list byte) (i : Inspection) : result ClientError unit :=
  match i with
  | CannotInspect => Err (transport_error id inspect_failed false)
  | Alive => Ok tt
  | Exited _ => Err (transport_error id stopped true)
  end.
Definition engine_running (id name : list byte) (i : Inspection) : result ClientError unit :=
  still_running id (str "failed to inspect the " ++ name ++ str " process") (name ++ str " stopped while enabling the full-route tunnel") i.
(** The loops, over the rounds they make; none left, and it still waits. *)
Fixpoint settle (step : Round -> result ClientError bool) (rounds : list Round) : option (result ClientError unit) :=
  match rounds with
  | [] => None
  | o :: rounds =>
    match step o with
    | Err e => Some (Err e)
    | Ok true => Some (Ok tt)
    | Ok false => settle step rounds
    end
  end.
Definition wait_until_stable (id engine_name : list byte) (settle_time : Z) : list Round -> option (result ClientError unit) := settle (fun o =>
  let* _ := engine_running id engine_name (r_engine o) in
  let* protected := bridge_settle_step id o in
  Ok (protected && (settle_time <=? r_now o))).
Definition wait_until_three_stable (id engine_name carrier_name : list byte) (settle_time : Z) : list Round -> option (result ClientError unit) := settle (fun o =>
  let* _ := engine_running id engine_name (r_engine o) in
  let* _ := engine_running id carrier_name (r_carrier o) in
  let* protected := bridge_settle_step id o in
  Ok (protected && (settle_time <=? r_now o))).
Definition pair_running (id name : list byte) (i : Inspection) : result ClientError unit :=
  still_running id (str "failed to inspect " ++ name) (name ++ str " stopped while enabling the tunnel") i.
Definition wait_until_pair_stable (id engine_name carrier_name : list byte) (settle_time : Z) : list Round -> option (result ClientError unit) := settle (fun o =>
  let* _ := pair_running id engine_name (r_engine o) in
  let* _ := pair_running id carrier_name (r_carrier o) in
  Ok (settle_time <=? r_now o)).

(** [route_tunnel] of the lease, where systemd-resolved runs: whether one of the
    rounds that are made routes the tunnel's link. *)
Fixpoint routed (checks : Round -> result ClientError unit) (id : list byte) (rounds : list Round) : bool :=
  match rounds with
  | [] => false
  | o :: rounds =>
    match (let* _ := checks o in bridge_settle_step id o) with
    | Err _ => false
    | Ok true => true
    | Ok false => routed checks id rounds
    end
  end.
(** The link becomes part of the lease, ahead of it in drop order. *)
Definition with_link (value : list Possession) : list Possession := concat (map (fun r => if bool_decide (r = DnsHeld) then [LinkHeld; DnsHeld] else [r]) value).
Definition routes_link (routed : bool) : Frame unit := fun owned =>
  if routed then ([Begins LinkHeld], map with_link owned, Returns tt) else ([], owned, Returns tt).

(** * Supervision *)

Definition stop_child (r : Possession) : Frame unit := ends r.
(** [restore] of the lease, whose link goes first; [restored] is what putting
    the resolver back returns. A lease that could not be restored is dropped,
    and tried once more, with the bridge. *)
Definition drop_lease_link (owned : Locals) : list Act * Locals * Progress unit :=
  if bool_decide (LinkHeld ∈ concat owned) then ends LinkHeld owned else f_ret tt owned.
Definition restore_dns (restored : bool) : Frame bool :=
  loc! _ := drop_lease_link in
  if restored then loc! _ := ends DnsHeld in f_ret true else f_ret false.
Definition stop_bridge (restored : bool) : Frame bool :=
  loc! _ := ends BridgeProcess in
  loc! _ := ends GuardHeld in
  loc! _ := ends KeeperHeld in
  restore_dns restored.

(** [wait()] of a process: how it exited, or that waiting failed. *)
Definition Exit : Type := option (list byte).
Definition exit_message (name : list byte) (e : Exit) : list byte :=
  match e with None => str "failed to wait for " ++ name | Some exit => name ++ str " exited unexpectedly (" ++ exit ++ str ")" end.
Definition bridge_exit (e : Exit) (diagnostic : option BridgeDiagnostic) : list byte :=
  match e with None => str "failed to wait for the full-route bridge" | Some exit => bridge_exit_message exit diagnostic end.
Definition append_dns_cleanup_failure (message : list byte) (cleanup : bool) : list byte :=
  if cleanup then message else message ++ str "; system DNS restoration failed".
Definition publish_stopped_or_dns_failure (cleanup : bool) : TunnelStatus :=
  if cleanup then Stopped else Failed (str "system DNS restoration failed after tunnel shutdown").

(** What ends a wait of the supervisor; with it, what cleaning up comes to. *)
Inductive Happening :=
| EngineExits (e : Exit) | CarrierExits (e : Exit) | BridgeExits (e : Exit) (diagnostic : option BridgeDiagnostic) | StopAsked
| NetworkReports (report : NetworkReport) (relaunched : bool).
(** A process that exited is gone before anything else is done. *)
Definition supervise_processes (engine_name : list byte) (restored : bool) (h : Happening) : Frame TunnelStatus :=
  match h with
  | EngineExits e =>
    loc! _ := ends EngineProcess in
    loc! cleanup := stop_bridge restored in
    f_ret (Failed (append_dns_cleanup_failure (exit_message engine_name e) cleanup))
  | BridgeExits e diagnostic =>
    loc! _ := ends BridgeProcess in
    loc! _ := stop_child EngineProcess in
    loc! cleanup := restore_dns restored in
    f_ret (Failed (append_dns_cleanup_failure (bridge_exit e diagnostic) cleanup))
  | StopAsked =>
    loc! cleanup := stop_bridge restored in
    loc! _ := stop_child EngineProcess in
    f_ret (publish_stopped_or_dns_failure cleanup)
  | CarrierExits _ | NetworkReports _ _ => fun owned => ([], owned, Waits)
  end.
(** [moved_to_another_network]. *)
Definition moved (seen : Z) (report : NetworkReport) : bool := (seen <? generation report) && negb (offline report).
Fixpoint supervise_three_processes (engine_name carrier_name : list byte) (restored : bool) (seen : Z) (hs : list Happening) : Frame TunnelStatus :=
  match hs with
  | [] => fun owned => ([], owned, Waits)
  | EngineExits e :: _ =>
    loc! _ := ends EngineProcess in
    loc! cleanup := stop_bridge restored in
    loc! _ := stop_child CarrierProcess in
    f_ret (Failed (append_dns_cleanup_failure (exit_message engine_name e) cleanup))
  | CarrierExits e :: _ =>
    loc! _ := ends CarrierProcess in
    loc! cleanup := stop_bridge restored in
    loc! _ := stop_child EngineProcess in
    f_ret (Failed (append_dns_cleanup_failure (exit_message carrier_name e) cleanup))
  | BridgeExits e diagnostic :: _ =>
    loc! _ := ends BridgeProcess in
    loc! _ := stop_child CarrierProcess in
    loc! _ := stop_child EngineProcess in
    loc! cleanup := restore_dns restored in
    f_ret (Failed (append_dns_cleanup_failure (bridge_exit e diagnostic) cleanup))
  | StopAsked :: _ =>
    loc! cleanup := stop_bridge restored in
    loc! _ := stop_child CarrierProcess in
    loc! _ := stop_child EngineProcess in
    f_ret (publish_stopped_or_dns_failure cleanup)
  | NetworkReports report relaunched :: hs =>
    if moved seen report then
      if relaunched then
        loc! _ := restarts CarrierProcess in
        supervise_three_processes engine_name carrier_name restored (generation report) hs
      else
        loc! _ := stop_child CarrierProcess in
        loc! cleanup := stop_bridge restored in
        loc! _ := stop_child EngineProcess in
        f_ret (Failed (append_dns_cleanup_failure (carrier_name ++ str " could not start again on the new network") cleanup))
    else supervise_three_processes engine_name carrier_name restored seen hs
  end.
Definition supervise_two_processes (engine_name carrier_name : list byte) (restored : bool) (h : Happening) : Frame TunnelStatus :=
  match h with
  | EngineExits e =>
    loc! _ := ends EngineProcess in
    loc! _ := stop_child CarrierProcess in
    loc! cleanup := restore_dns restored in
    f_ret (Failed (append_dns_cleanup_failure (exit_message engine_name e) cleanup))
  | CarrierExits e =>
    loc! _ := ends CarrierProcess in
    loc! _ := stop_child EngineProcess in
    loc! cleanup := restore_dns restored in
    f_ret (Failed (append_dns_cleanup_failure (exit_message carrier_name e) cleanup))
  | StopAsked =>
    loc! _ := stop_child EngineProcess in
    loc! _ := stop_child CarrierProcess in
    loc! cleanup := restore_dns restored in
    f_ret (publish_stopped_or_dns_failure cleanup)
  | BridgeExits _ _ | NetworkReports _ _ => fun owned => ([], owned, Waits)
  end.
(** A supervisor's task over what it was given; it drops it when it ends. *)
Definition supervised (again : bool) (m : Frame TunnelStatus) (owned : Locals) : list Act * option TunnelStatus :=
  match m owned with
  | (log, rest_, Returns status) => (log ++ drops again rest_, Some status)
  | (log, rest_, Raises _) => (log ++ drops again rest_, None)
  | (log, _, Waits) => (log, None)
  end.

(** * The tunnel's handle *)

(** [FullRouteTunnel::stop]: the status it finds, whether the command was
    taken, and the status the wait ends with, if it ends in time. *)
Definition tunnel_stop (id : list byte) (before : TunnelStatus) (sent : bool) (after_ : option TunnelStatus) : result ClientError unit :=
  match before with
  | Connected =>
    if negb sent then Err (transport_error id (str "transport supervisor is unavailable") true)
    else match after_ with
         | None => Err (transport_error id (str "transport shutdown timed out") true)
         | Some Stopped => Ok tt
         | Some (Failed message) => Err (transport_error id message true)
         | Some Connected => Err (transport_error id (str "transport shutdown did not complete") true)
         end
  | _ => Ok tt
  end.
