(* ===== verification/Adapters.v ===== *)
(** The engines of the desktop app at work ([probe] and [connect] of
    ket-client-core/src/hysteria.rs, xray.rs, shadowsocks.rs, wireguard.rs and
    openvpn.rs): the checks before a tunnel, the waits for an engine to come
    up, and the tunnel put together piece by piece. *)

From Stdlib Require Import ZArith Lia.
From stdpp Require Import gmap strings.
From S2P Require Import Prelude Order Utf8 Str Net Bypass Contract Grant Validation StdText Config ClientEngines BridgeDiagnostics FullRoute.

(** * Probing *)

Definition named_check (id name : list byte) (c : Check) : result ClientError unit :=
  match c with
  | CheckTimedOut => Err (transport_error id (name ++ str " check timed out") true)
  | CheckUnavailable => Err (transport_error id (name ++ str " executable is unavailable") false)
  | CheckRan true => Ok tt
  | CheckRan false => Err (transport_error id (name ++ str " executable failed its version check") false)
  end.
Definition hysteria_check (id : list byte) (c : Check) : result ClientError unit :=
  match c with CheckTimedOut => Err (transport_error id (str "engine check timed out") true) | _ => named_check id (str "Hysteria2") c end.
(** [timeout(.., lookup_host(..))]. *)
Inductive Lookup := LookupTimedOut | LookupFailed | LookupFound (addresses : list SocketAddr).
#[export] Instance SocketAddr_eq_dec : EqDecision SocketAddr.
Proof. solve_decision. Defined.
Definition address_is_ipv4 (a : SocketAddr) : bool := match sa_ip a with V4 _ => true | V6 _ => false end.
(** [sort_by_key(|address| (!address.is_ipv4(), *address))] and [dedup]. *)
Definition address_key (a : SocketAddr) : bool * (IpAddr * Z) := (negb (address_is_ipv4 a), (sa_ip a, sa_port a)).
Definition resolve_server (id : list byte) (lookup : Lookup) : result ClientError (list SocketAddr) :=
  match lookup with
  | LookupTimedOut => Err (DnsResolution id (str "DNS timed out"))
  | LookupFailed => Err (DnsResolution id (str "server DNS lookup failed"))
  | LookupFound found =>
    match dedup (sort_by_key address_key found) with
    | [] => Err (DnsResolution id (str "server DNS returned no addresses"))
    | addresses => Ok addresses
    end
  end.
(** What the checks of a probe come to. *)
Record ProbePlan := mkProbePlan { pp_engine : Check; pp_second : Check; pp_bridge : Check; pp_lookup : Lookup; pp_elapsed : Z }.
Section probes.
Context `{Base64}.
Definition transport_id (t : SessionTransport) : list byte := tp_id (st_profile t).
Definition finish_probe (t : SessionTransport) (plan : ProbePlan) : result Fault ProbeReport :=
  let* addresses := checked_as (resolve_server (transport_id t) (pp_lookup plan)) in Ok (mkProbe addresses (pp_elapsed plan)).
Definition hysteria_probe (t : SessionTransport) (plan : ProbePlan) : result Fault ProbeReport :=
  let* _ := checked_as (hysteria_validate t) in
  let* _ := checked_as (hysteria_check (transport_id t) (pp_engine plan)) in
  let* _ := checked_as (bridge_check (transport_id t) (pp_bridge plan)) in
  finish_probe t plan.
Definition xray_probe (t : SessionTransport) (plan : ProbePlan) : result Fault ProbeReport :=
  let* _ := xray_validate t in
  let* _ := checked_as (named_check (transport_id t) (str "Xray") (pp_engine plan)) in
  let* _ := checked_as (bridge_check (transport_id t) (pp_bridge plan)) in
  finish_probe t plan.
Definition shadowsocks_probe (t : SessionTransport) (plan : ProbePlan) : result Fault ProbeReport :=
  let* _ := checked_as (shadowsocks_validate t) in
  let* _ := checked_as (named_check (transport_id t) (str "Shadowsocks") (pp_engine plan)) in
  let* _ := checked_as (bridge_check (transport_id t) (pp_bridge plan)) in
  finish_probe t plan.
Definition wireguard_probe (t : SessionTransport) (plan : ProbePlan) : result Fault ProbeReport :=
  let* _ := checked_as (wireguard_validate t) in
  let* _ := checked_as (named_check (transport_id t) (str "Xray") (pp_engine plan)) in
  let* _ := checked_as (named_check (transport_id t) (str "wstunnel") (pp_second plan)) in
  let* _ := checked_as (bridge_check (transport_id t) (pp_bridge plan)) in
  finish_probe t plan.
Definition openvpn_probe (t : SessionTransport) (plan : ProbePlan) : result Fault ProbeReport :=
  let* _ := checked_as (openvpn_validate t) in
  let* _ := checked_as (named_check (transport_id t) (str "OpenVPN") (pp_engine plan)) in
  let* _ := checked_as (named_check (transport_id t) (str "stunnel") (pp_second plan)) in
  finish_probe t plan.
End probes.

(** * Waiting for an engine *)

(** [wait_until_ready] of Hysteria: the engine, the time and the next line of
    its diagnostics, round by round. *)
Inductive LineRead := ReadLine (line : list byte) | LinesClosed | ReadFailed | NoLineYet.
Record StartRound := mkStart { s_engine : Inspection; s_now : Z; s_line : LineRead }.
Fixpoint ready_loop (id : list byte) (deadline : Z) (connected socks_ready : bool) (diagnostic : option (list byte)) (rounds : list StartRound) :
    option (result ClientError unit) :=
  if connected && socks_ready then Some (Ok tt)
  else match rounds with
  | [] => None
  | o :: rounds =>
    match s_engine o with
    | CannotInspect => Some (Err (transport_error id (str "failed to inspect transport process") false))
    | Exited status => Some (Err (transport_error id (default (str "Hysteria2 exited during startup (" ++ status ++ str ")") diagnostic) true))
    | Alive =>
      if deadline <=? s_now o then Some (Err (transport_error id (default (str "Hysteria2 connection timed out") diagnostic) true))
      else match s_line o with
      | ReadLine line =>
        ready_loop id deadline (connected || contains (str "connected to server") line) (socks_ready || contains (str "SOCKS5 server listening") line)
          (match classify_diagnostic line with Some d => Some d | None => diagnostic end) rounds
      | LinesClosed => Some (Err (transport_error id (str "Hysteria2 diagnostics closed during startup") true))
      | ReadFailed => Some (Err (transport_error id (str "failed to read Hysteria2 diagnostics") true))
      | NoLineYet => ready_loop id deadline connected socks_ready diagnostic rounds
      end
    end
  end.
Definition wait_until_ready (id : list byte) (startup_timeout : Z) (rounds : list StartRound) : option (result ClientError unit) :=
  ready_loop id startup_timeout false false None rounds.

(** [wait_for_socks]: Xray's and Shadowsocks'. *)
Record SocksRound := mkSocks { k_engine : Inspection; k_connects : bool; k_now : Z }.
Fixpoint wait_for_socks (id name : list byte) (startup_timeout : Z) (rounds : list SocksRound) : option (result ClientError unit) :=
  match rounds with
  | [] => None
  | o :: rounds =>
    match k_engine o with
    | CannotInspect => Some (Err (transport_error id (str "failed to inspect the " ++ name ++ str " process") false))
    | Exited status => Some (Err (transport_error id (name ++ str " exited during startup (" ++ status ++ str ")") true))
    | Alive =>
      if k_connects o then Some (Ok tt)
      else if startup_timeout <=? k_now o then Some (Err (transport_error id (name ++ str " local proxy startup timed out") true))
      else wait_for_socks id name startup_timeout rounds
    end
  end.
(** [wait_for_process]: five looks at a carrier. *)
Fixpoint wait_for_process (id name : list byte) (left_ : nat) (looks : list Inspection) : option (result ClientError unit) :=
  match left_ with
  | O => Some (Ok tt)
  | S left_ =>
    match looks with
    | [] => None
    | CannotInspect :: _ => Some (Err (transport_error id (str "failed to inspect " ++ name) false))
    | Exited status :: _ => Some (Err (transport_error id (name ++ str " exited during startup (" ++ status ++ str ")") true))
    | Alive :: looks => wait_for_process id name left_ looks
    end
  end.
(** [wait_for_listener]: rounds until the time limit around them fires. *)
Inductive ListenRound := Listens (carrier : Inspection) (connects : bool) | ListenTimedOut.
Fixpoint wait_for_listener (id : list byte) (rounds : list ListenRound) : option (result ClientError unit) :=
  match rounds with
  | [] => None
  | ListenTimedOut :: _ => Some (Err (transport_error id (str "stunnel startup timed out") true))
  | Listens CannotInspect _ :: _ => Some (Err (transport_error id (str "failed to inspect stunnel") false))
  | Listens (Exited status) _ :: _ => Some (Err (transport_error id (str "stunnel exited during startup (" ++ status ++ str ")") true))
  | Listens Alive true :: _ => Some (Ok tt)
  | Listens Alive false :: rounds => wait_for_listener id rounds
  end.
(** [wait_for_openvpn]: what the management interface answered, if it did. *)
Inductive ManageRound := Manages (engine : Inspection) (response : option (list byte)) | ManageTimedOut.
Fixpoint wait_for_openvpn (id : list byte) (last_state : option OpenVpnStartupState) (rounds : list ManageRound) : option (result ClientError unit) :=
  match rounds with
  | [] => None
  | ManageTimedOut :: _ =>
    Some (Err (transport_error id (match last_state with Some s => startup_message s | None => str "OpenVPN startup timed out" end) true))
  | Manages CannotInspect _ :: _ => Some (Err (transport_error id (str "failed to inspect OpenVPN") false))
  | Manages (Exited status) _ :: _ => Some (Err (transport_error id (str "OpenVPN exited during startup (" ++ status ++ str ")") true))
  | Manages Alive response :: rounds =>
    match response ≫= parse_openvpn_startup_state with
    | Some StateConnected => Some (Ok tt)
    | Some AuthenticationFailed => Some (Err (transport_error id (startup_message AuthenticationFailed) false))
    | Some s => wait_for_openvpn id (Some s) rounds
    | None => wait_for_openvpn id last_state rounds
    end
  end.

(** ** The management interface *)

Definition MAX_CLIENT_MANAGEMENT_BYTES : Z := 64 * 1024.
(** [read_until]: what each read returns; an empty one ends the stream. *)
Fixpoint read_until (marker response : list byte) (reads : list (list byte)) : bool :=
  if MAX_CLIENT_MANAGEMENT_BYTES <? zlen response then false
  else match reads with
  | [] => false
  | chunk :: reads =>
    if bool_decide (chunk = []) then false
    else let response := response ++ chunk in if contains marker response then true else read_until marker response reads
  end.
(** [openvpn_state]: the prompt, then what is sent, and the answer read to
    its end. *)
Definition state_command (password : list byte) : list byte := password ++ [newline] ++ str "state" ++ [newline] ++ str "quit" ++ [newline].
Definition openvpn_state (prompt : list (list byte)) (sent : bool) (answer : option (list byte)) : option (list byte) :=
  if negb (read_until (str "ENTER PASSWORD:") [] prompt) then None
  else if negb sent then None
  else match answer with
  | None => None
  | Some response =>
    let response := take (Z.to_nat (MAX_CLIENT_MANAGEMENT_BYTES + 1)) response in
    if MAX_CLIENT_MANAGEMENT_BYTES <? zlen response then None else if valid_utf8 response then Some response else None
  end.

(** ** The path check of Shadowsocks *)

Definition PATH_CHECK_ADDRESS : list byte := [z2b 1; z2b 1; z2b 1; z2b 1].
Definition PATH_CHECK_PORT : Z := 443.
Definition path_request : list byte := [z2b 5; z2b 1; z2b 0; z2b 1] ++ PATH_CHECK_ADDRESS ++ to_be 2 PATH_CHECK_PORT.
(** [read_exact]. *)
Definition read_exactly (n : nat) (s : list byte) : option (list byte * list byte) :=
  if (length s <? n)%nat then None else Some (take n s, drop n s).
(** What the local proxy says, all of it; [false] is an error of the check. *)
Definition socks_path (said : list byte) : bool :=
  match read_exactly 2 said with
  | Some (greeting, said) =>
    if negb (bool_decide (greeting = [z2b 5; z2b 0])) then false
    else match read_exactly 4 said with
    | Some ([version; code; _; kind], said) =>
      if negb (b2z version =? 5) || negb (b2z code =? 0) then false
      else
        let rest_of (n : nat) (said : list byte) := match read_exactly (n + 2) said with Some _ => true | None => false end in
        if b2z kind =? 1 then rest_of 4%nat said
        else if b2z kind =? 4 then rest_of 16%nat said
        else if b2z kind =? 3 then
          match read_exactly 1 said with Some ([len], said) => rest_of (Z.to_nat (b2z len)) said | _ => false end
        else false
    | _ => false
    end
  | None => false
  end.
(** The check within its time; [None] is the limit. *)
Definition shadowsocks_path (id : list byte) (checked : option (option (list byte))) : result ClientError unit :=
  match checked with
  | None => Err (transport_error id (str "Shadowsocks path check timed out") true)
  | Some (Some said) => if socks_path said then Ok tt
                        else Err (transport_error id (str "the Shadowsocks path could not reach its verification endpoint") true)
  | Some None => Err (transport_error id (str "the Shadowsocks path could not reach its verification endpoint") true)
  end.
(** [verify_tunnel_path] of Xray: the proxy, the client and the request. *)
Record PathPlan := mkPath { path_proxy : bool; path_client : bool; path_sent : bool }.
Definition verify_tunnel_path (id : list byte) (p : PathPlan) : result ClientError unit :=
  if negb (path_proxy p) then Err (transport_error id (str "failed to configure the local tunnel verification proxy") false)
  else if negb (path_client p) then Err (transport_error id (str "failed to initialize certificate verification") false)
  else if path_sent p then Ok tt else Err (transport_error id (str "the Xray path failed certificate-verified TLS") true).

(** * Connecting *)

(** A file of the runtime directory: its path, or why it was not made. *)
Definition create_config (id : list byte) (label : string) (made : result (list byte) (list byte)) : Frame (list byte) :=
  match made with
  | Ok path => loc! _ := own (ConfigFile (str label)) in f_ret path
  | Err message => f_raise (Fails (transport_error id message false))
  end.
Definition drop_config (label : string) : Frame unit := ends (ConfigFile (str label)).
Definition first_address (id : list byte) (probe : ProbeReport) : Frame SocketAddr :=
  match resolved_addresses probe with
  | a :: _ => f_ret a
  | [] => f_raise (Fails (transport_error id (str "the server address was not resolved") true))
  end.
(** [reserve_proxy_port] and [reserve_udp_port]. *)
Definition reserve_port (id : list byte) (what : string) (port : option Z) : Frame Z :=
  match port with Some p => f_ret p | None => f_raise (Fails (transport_error id (str "failed to reserve a local " ++ str what ++ str " port") true)) end.
Definition stop_each (stops : list Possession) : Frame unit := foldr (fun p k => loc! _ := stop_child p in k) (f_ret tt) stops.
(** A step that, on failure, stops what it names, in that order. *)
Definition or_stop (r : result ClientError unit) (stops : list Possession) : Frame unit :=
  match r with
  | Ok _ => f_ret tt
  | Err e => loc! _ := stop_each stops in f_raise (Fails e)
  end.
(** A wait for the tunnel to settle that takes the bridge down if it fails. *)
Definition or_stop_bridge (r : result ClientError unit) (restored : bool) (stops : list Possession) : Frame unit :=
  match r with
  | Ok _ => f_ret tt
  | Err e =>
    loc! _ := stop_bridge restored in
    loc! _ := stop_each stops in
    f_raise (Fails e)
  end.
Definition SETTLE_MS : Z := 1200.
Definition failed_step (id : list byte) (why : string) : ClientError := transport_error id (str why) false.

(** What happens to the calls of the bridged adapters; [t_restored_again] is
    what the restore of a dropped lease comes to, and [t_resolved] whether
    systemd-resolved runs. *)
Record TunnelPlan := mkTunnelPlan {
  t_port : option Z; t_udp_port : option Z; t_config : result (list byte) (list byte); t_test : Check; t_spawns : bool; t_stderr : bool;
  t_start : list StartRound; t_socks : list SocksRound; t_path : PathPlan; t_socks_path : option (option (list byte));
  t_carrier_spawns : bool; t_carrier : list Inspection; t_bridge : BridgePlan; t_rounds : list Round; t_restored : bool; t_restored_again : bool; t_resolved : bool;
}.
Section connecting.
Context `{Base64, PrettyJson}.
Definition hysteria_connect (t : SessionTransport) (probe : ProbeReport) (plan : TunnelPlan) : Frame unit :=
  let id := transport_id t in
  loc! _ := f_lift (checked_as (hysteria_validate t)) in
  loc! server := first_address id probe in
  loc! socks_port := reserve_port id "proxy" (t_port plan) in
  loc! document := f_lift (hysteria_render t (sa_ip server) socks_port) in
  loc! path := create_config id "hysteria" (t_config plan) in
  loc! _ := f_require (t_spawns plan) (failed_step id "failed to launch the Hysteria2 engine") in
  loc! _ := own EngineProcess in
  loc! _ := f_require (t_stderr plan) (failed_step id "failed to capture Hysteria2 diagnostics") in
  loc! ready := f_await (wait_until_ready id (20 * second_ms) (t_start plan)) in
  loc! _ := or_stop ready [EngineProcess] in
  loc! _ := call_frame (t_restored_again plan) (bridge_start id (t_bridge plan)) bridge_value in
  loc! _ := routes_link (t_resolved plan && routed (fun o => engine_running id (str "Hysteria2") (r_engine o)) id (t_rounds plan)) in
  loc! stable := f_await (wait_until_stable id (str "Hysteria2") SETTLE_MS (t_rounds plan)) in
  loc! _ := or_stop_bridge stable (t_restored plan) [EngineProcess] in
  drop_config "hysteria".
(** The engine's own test of its configuration. *)
Definition config_test (id : list byte) (failed rejected : string) (c : Check) : Frame unit :=
  match c with
  | CheckRan true => f_ret tt
  | CheckRan false => f_raise (Fails (failed_step id rejected))
  | _ => f_raise (Fails (failed_step id failed))
  end.
Definition xray_connect (t : SessionTransport) (probe : ProbeReport) (options : ConnectOptions) (plan : TunnelPlan) : Frame unit :=
  let id := transport_id t in
  loc! _ := f_lift (xray_validate t) in
  loc! server := first_address id probe in
  loc! socks_port := reserve_port id "proxy" (t_port plan) in
  loc! document := f_lift (xray_render t (sa_ip server) socks_port options) in
  loc! path := create_config id "xray" (t_config plan) in
  loc! _ := config_test id "failed to validate the Xray configuration" "Xray rejected the transport configuration" (t_test plan) in
  loc! _ := f_require (t_spawns plan) (failed_step id "failed to launch the Xray engine") in
  loc! _ := own EngineProcess in
  loc! up := f_await (wait_for_socks id (str "Xray") (20 * second_ms) (t_socks plan)) in
  loc! _ := or_stop up [EngineProcess] in
  loc! sni := f_lift (expect_some (tp_tls_server_name (st_profile t))) in
  loc! _ := or_stop (verify_tunnel_path id (t_path plan)) [EngineProcess] in
  loc! _ := call_frame (t_restored_again plan) (bridge_start id (t_bridge plan)) bridge_value in
  loc! _ := routes_link (t_resolved plan && routed (fun o => engine_running id (str "Xray") (r_engine o)) id (t_rounds plan)) in
  loc! stable := f_await (wait_until_stable id (str "Xray") SETTLE_MS (t_rounds plan)) in
  loc! _ := or_stop_bridge stable (t_restored plan) [EngineProcess] in
  drop_config "xray".
Definition shadowsocks_connect (t : SessionTransport) (probe : ProbeReport) (plan : TunnelPlan) : Frame unit :=
  let id := transport_id t in
  loc! _ := f_lift (checked_as (shadowsocks_validate t)) in
  loc! server := first_address id probe in
  loc! socks_port := reserve_port id "proxy" (t_port plan) in
  loc! document := f_lift (shadowsocks_render t (sa_ip server) socks_port) in
  loc! path := create_config id "shadowsocks" (t_config plan) in
  loc! _ := f_require (t_spawns plan) (failed_step id "failed to launch the Shadowsocks engine") in
  loc! _ := own EngineProcess in
  loc! up := f_await (wait_for_socks id (str "Shadowsocks") (20 * second_ms) (t_socks plan)) in
  loc! _ := or_stop up [EngineProcess] in
  loc! _ := or_stop (shadowsocks_path id (t_socks_path plan)) [EngineProcess] in
  loc! _ := call_frame (t_restored_again plan) (bridge_start id (t_bridge plan)) bridge_value in
  loc! _ := routes_link (t_resolved plan && routed (fun o => engine_running id (str "Shadowsocks") (r_engine o)) id (t_rounds plan)) in
  loc! stable := f_await (wait_until_stable id (str "Shadowsocks") SETTLE_MS (t_rounds plan)) in
  loc! _ := or_stop_bridge stable (t_restored plan) [EngineProcess] in
  drop_config "shadowsocks".
Definition wireguard_connect (t : SessionTransport) (probe : ProbeReport) (plan : TunnelPlan) : Frame unit :=
  let id := transport_id t in
  loc! _ := f_lift (checked_as (wireguard_validate t)) in
  loc! server := first_address id probe in
  loc! socks_port := reserve_port id "proxy" (t_port plan) in
  loc! wireguard_port := reserve_port id "WireGuard" (t_udp_port plan) in
  loc! document := f_lift (wireguard_render t wireguard_port socks_port) in
  loc! path := create_config id "wireguard" (t_config plan) in
  loc! _ := config_test id "failed to validate the WireGuard Xray configuration" "Xray rejected the WireGuard configuration" (t_test plan) in
  loc! launch := f_lift (wstunnel_arguments t (sa_ip server) wireguard_port) in
  loc! _ := f_require (t_carrier_spawns plan) (failed_step id "failed to launch the WebSocket TLS carrier") in
  loc! _ := own CarrierProcess in
  loc! carried := f_await (wait_for_process id (str "wstunnel") 5 (t_carrier plan)) in
  loc! _ := or_stop carried [CarrierProcess] in
  loc! _ := f_require (t_spawns plan) (failed_step id "failed to launch the WireGuard Xray engine") in
  loc! _ := own EngineProcess in
  loc! up := f_await (wait_for_socks id (str "Xray") (25 * second_ms) (t_socks plan)) in
  loc! _ := or_stop up [EngineProcess; CarrierProcess] in
  loc! _ := or_stop (verify_tunnel_path id (t_path plan)) [EngineProcess; CarrierProcess] in
  loc! _ := call_frame (t_restored_again plan) (bridge_start id (t_bridge plan)) bridge_value in
  loc! _ := routes_link (t_resolved plan && routed (fun o => let* _ := engine_running id (str "Xray WireGuard") (r_engine o) in
                                                             engine_running id (str "wstunnel") (r_carrier o)) id (t_rounds plan)) in
  loc! stable := f_await (wait_until_three_stable id (str "Xray WireGuard") (str "wstunnel") SETTLE_MS (t_rounds plan)) in
  loc! _ := or_stop_bridge stable (t_restored plan) [EngineProcess; CarrierProcess] in
  drop_config "wireguard".

(** OpenVPN with its own interface: no bridge, four files. *)
Record OpenVpnPlan := mkOpenVpnPlan {
  o_carrier_port : option Z; o_management_port : option Z; o_password_file : result (list byte) (list byte); o_ca_file : result (list byte) (list byte);
  o_stunnel_file : result (list byte) (list byte); o_client_file : result (list byte) (list byte); o_carrier_spawns : bool; o_listen : list ListenRound;
  o_dns : bool; o_spawns : bool; o_manage : list ManageRound; o_route : IoAnswer; o_rounds : list Round; o_restored_again : bool; o_resolved : bool;
}.
Definition openvpn_connect (t : SessionTransport) (probe : ProbeReport) (options : ConnectOptions) (plan : OpenVpnPlan) : Frame unit :=
  let id := transport_id t in
  loc! _ := f_lift (checked_as (openvpn_validate t)) in
  loc! server := first_address id probe in
  loc! carrier_port := reserve_port id "proxy" (o_carrier_port plan) in
  loc! management_port := reserve_port id "proxy" (o_management_port plan) in
  loc! _ := (if carrier_port =? management_port
             then f_raise (Fails (transport_error id (str "failed to allocate distinct local control ports") true)) else f_ret tt) in
  loc! password_path := create_config id "openvpn-management" (o_password_file plan) in
  loc! stunnel_ca := f_lift (checked_as (decode_material t "stunnel_ca_certificate_pem_b64" BEGIN_CERTIFICATE END_CERTIFICATE)) in
  loc! ca_path := create_config id "openvpn-stunnel-ca" (o_ca_file plan) in
  loc! stunnel_document := f_lift (render_stunnel_config t (sa_ip server) carrier_port ca_path) in
  loc! stunnel_path := create_config id "openvpn-stunnel" (o_stunnel_file plan) in
  loc! _ := f_require (o_carrier_spawns plan) (failed_step id "failed to launch the stunnel carrier") in
  loc! _ := own CarrierProcess in
  loc! listening := f_await (wait_for_listener id (o_listen plan)) in
  loc! _ := or_stop listening [CarrierProcess] in
  loc! document := f_lift (render_openvpn_config t carrier_port management_port password_path (resolved_addresses probe) (bypass options)) in
  loc! client_path := create_config id "openvpn-client" (o_client_file plan) in
  loc! _ := or_stop (if o_dns plan then Ok tt else Err (failed_step id "failed to route system DNS through OpenVPN")) [CarrierProcess] in
  loc! _ := own DnsHeld in
  loc! _ := or_stop (if o_spawns plan then Ok tt else Err (failed_step id "failed to launch the OpenVPN engine")) [CarrierProcess] in
  loc! _ := own EngineProcess in
  loc! managed := f_await (wait_for_openvpn id None (o_manage plan)) in
  loc! _ := or_stop managed [EngineProcess; CarrierProcess] in
  loc! _ := or_stop (match o_route plan with IoFine => Ok tt | _ => Err (failed_step id "failed to keep DNS inside the protected tunnel") end)
              [EngineProcess; CarrierProcess] in
  loc! _ := routes_link (o_resolved plan) in
  loc! stable := f_await (wait_until_pair_stable id (str "OpenVPN") (str "stunnel") SETTLE_MS (o_rounds plan)) in
  loc! _ := or_stop stable [EngineProcess; CarrierProcess] in
  loc! _ := drop_config "openvpn-client" in
  loc! _ := drop_config "openvpn-management" in
  loc! _ := drop_config "openvpn-stunnel" in
  drop_config "openvpn-stunnel-ca".
End connecting.
