(* ===== verification/AdaptersProps.v ===== *)
(** Tunnels from their first step to their end: what runs and what protects
    it, that nothing is left behind, and that every wait ends.

    A tunnel of a small node from the first step to the last. *)

From Stdlib Require Import ZArith Lia.
From stdpp Require Import gmap strings.
From S2P Require Import Prelude Order Utf8 Str Net Bypass Contract Grant Validation Config ClientEngines BridgeDiagnostics FullRoute Adapters ApiDemo ClientEngineProps.

(** * A log read back *)

Definition apply_act (held : list Possession) (a : Act) : list Possession :=
  match a with Begins r => r :: held | Ends r => filter (fun x => x <> r) held end.
(** What is held after a log. *)
Definition run_held (held : list Possession) (log : list Act) : list Possession := fold_left apply_act log held.
(** A rule kept at every point of a log. *)
Fixpoint guarded (rule : list Possession -> bool) (held : list Possession) (log : list Act) : bool :=
  rule held && match log with [] => true | a :: log => guarded rule (apply_act held a) log end.
Lemma guarded_app rule held log log' : guarded rule held (log ++ log') = true <-> guarded rule held log = true /\ guarded rule (run_held held log) log' = true.
Proof.
  revert held. induction log as [|a log IH]; intros held; cbn [app guarded].
  - rewrite andb_true_r. split; [intros HG; split; [|done]; by destruct log'; cbn in HG; apply andb_true_iff in HG as [? _]|]. by intros [_ HG].
  - rewrite !andb_true_iff, IH. cbn. tauto.
Qed.
Lemma run_held_app held log log' : run_held held (log ++ log') = run_held (run_held held log) log'.
Proof. unfold run_held. apply fold_left_app. Qed.
Definition in_held (r : Possession) (held : list Possession) : bool := bool_decide (r ∈ held).
(** The machine is routed into the bridge only under the tunnel's resolver,
    the leak guard and the kept routes. *)
Definition bridge_rule (held : list Possession) : bool :=
  negb (in_held BridgeProcess held) || (in_held DnsHeld held && in_held GuardHeld held && in_held KeeperHeld held).
(** OpenVPN runs only under the tunnel's resolver. *)
Definition openvpn_rule (held : list Possession) : bool := negb (in_held EngineProcess held) || in_held DnsHeld held.

(** * A logic of frames *)

(** Nothing is left, or only a resolver whose restore failed in the drop. *)
Definition released (again : bool) (held : list Possession) : Prop := held = [] \/ (again = false /\ held = [DnsHeld]).

Section frames.
Context (rule : list Possession -> bool) (again : bool).
(** What a frame that fails leaves once its locals are dropped. *)
Definition dropped (held : list Possession) (owned : Locals) : Prop :=
  guarded rule held (drops again owned) = true /\ released again (run_held held (drops again owned)).
Definition safe {A} (m : Frame A) (held : list Possession) (owned : Locals) (Q : A -> list Possession -> Locals -> Prop) : Prop :=
  let '(log, owned', r) := m owned in
  guarded rule held log = true /\
  match r with
  | Returns a => Q a (run_held held log) owned'
  | Raises _ => dropped (run_held held log) owned'
  | Waits => True
  end.
Lemma safe_bind {A B} (m : Frame A) (f : A -> Frame B) held owned Q1 Q :
  safe m held owned Q1 -> (forall a held' owned', Q1 a held' owned' -> safe (f a) held' owned' Q) -> safe (f_bind m f) held owned Q.
Proof.
  unfold safe, f_bind. intros Hm Hf. destruct (m owned) as [[log owned'] [a|e|]]; [|done..]. destruct Hm as [HG HQ]. specialize (Hf a _ _ HQ). unfold safe in Hf.
  destruct (f a owned') as [[log' owned''] r]. rewrite guarded_app, run_held_app. tauto.
Qed.
Definition stays_at {A} (held : list Possession) (owned : Locals) : A -> list Possession -> Locals -> Prop := fun _ held' owned' => held' = held /\ owned' = owned.
Lemma safe_ret {A} (a : A) held owned (Q : A -> list Possession -> Locals -> Prop) : rule held = true -> Q a held owned -> safe (f_ret a) held owned Q.
Proof. intros HR HQ. split; [cbn; by rewrite HR|done]. Qed.
Lemma dropped_rule held owned : dropped held owned -> rule held = true.
Proof. intros [HG _]. destruct (drops again owned); cbn in HG; by apply andb_true_iff in HG as [? _]. Qed.
Lemma safe_lift {A} (r : result Fault A) held owned : dropped held owned -> safe (f_lift r) held owned (stays_at held owned).
Proof. intros HD. pose proof (dropped_rule _ _ HD) as HR. destruct r; [by apply safe_ret|]. split; [cbn; by rewrite HR|done]. Qed.
Lemma safe_require ok e held owned : dropped held owned -> safe (f_require ok e) held owned (stays_at held owned).
Proof. intros HD. pose proof (dropped_rule _ _ HD) as HR. destruct ok; [by apply safe_ret|]. split; [cbn; by rewrite HR|done]. Qed.
Lemma safe_raise {A} e held owned (Q : A -> list Possession -> Locals -> Prop) : dropped held owned -> safe (f_raise e) held owned Q.
Proof. intros HD. split; [cbn; by rewrite (dropped_rule _ _ HD)|done]. Qed.
Lemma safe_await {A} (o : option (result ClientError A)) held owned : rule held = true ->
  safe (f_await o) held owned (fun a held' owned' => stays_at held owned a held' owned' /\ o = Some a).
Proof. intros HR. destruct o; [by apply safe_ret|]. split; [cbn; by rewrite HR|done]. Qed.
Lemma safe_link b held owned : rule held = true -> (b = true -> rule (LinkHeld :: held) = true) ->
  safe (routes_link b) held owned (stays_at (if b then LinkHeld :: held else held) (if b then map with_link owned else owned)).
Proof. intros HR HL. unfold safe, routes_link. destruct b; cbn; rewrite HR, ?HL; done. Qed.
(** A step whose log and locals do not depend on anything. *)
Lemma safe_step {A} (m : Frame A) held owned log owned' a : m owned = (log, owned', Returns a) -> guarded rule held log = true ->
  safe m held owned (stays_at (run_held held log) owned').
Proof. intros Em HG. unfold safe. rewrite Em. by split. Qed.
Lemma safe_first id probe held owned : dropped held owned -> safe (first_address id probe) held owned (stays_at held owned).
Proof. intros HD. unfold first_address. destruct (resolved_addresses probe); [by apply safe_raise|]. apply safe_ret; [by eapply dropped_rule|done]. Qed.
Lemma safe_port id what port held owned : dropped held owned -> safe (reserve_port id what port) held owned (stays_at held owned).
Proof. intros HD. unfold reserve_port. destruct port; [|by apply safe_raise]. apply safe_ret; [by eapply dropped_rule|done]. Qed.
Lemma safe_config id label made held owned : dropped held owned -> rule (ConfigFile (str label) :: held) = true ->
  safe (create_config id label made) held owned (stays_at (ConfigFile (str label) :: held) ([ConfigFile (str label)] :: owned)).
Proof.
  intros HD HR. unfold create_config. destruct made as [path|message]; [|by apply safe_raise]. unfold safe, f_bind, own, f_ret, stays_at. cbn.
  rewrite (dropped_rule _ _ HD), HR. done.
Qed.
Lemma safe_test id failed rejected c held owned : dropped held owned -> safe (config_test id failed rejected c) held owned (stays_at held owned).
Proof.
  intros HD. unfold config_test. destruct c as [| |[]]; [by apply safe_raise..| |by apply safe_raise]. apply safe_ret; [by eapply dropped_rule|done].
Qed.
(** A step that stops processes before it fails. *)
Lemma safe_or_stop r stops held owned : rule held = true ->
  safe (loc! _ := stop_each stops in f_raise (Fails NotEnrolled)) held owned (fun (_ : unit) _ _ => False) ->
  safe (or_stop r stops) held owned (stays_at held owned).
Proof.
  intros HR HS. unfold or_stop. destruct r as [[]|e]; [by apply safe_ret|]. unfold safe, f_bind in *.
  destruct (stop_each stops owned) as [[log owned'] [[]|e'|]]; cbn in *; tauto.
Qed.
Lemma safe_or_stop_bridge r restored stops held owned : rule held = true ->
  (forall restored, safe (loc! _ := stop_bridge restored in loc! _ := stop_each stops in f_raise (Fails NotEnrolled))
     held owned (fun (_ : unit) _ _ => False)) ->
  safe (or_stop_bridge r restored stops) held owned (fun a held' owned' => stays_at held owned a held' owned' /\ r = Ok tt).
Proof.
  intros HR HS. unfold or_stop_bridge. destruct r as [[]|e]; [by apply safe_ret|]. specialize (HS restored). unfold safe, f_bind in *.
  destruct (stop_bridge restored owned) as [[log owned'] [x|e'|]]; [|done..]. destruct (stop_each stops owned') as [[log' owned''] [[]|e'|]]; cbn in *; tauto.
Qed.
End frames.

(** * The adapters *)

(** The link is routed by the time a wait for the bridge ends well. *)
Lemma settled_routed checks id limit rounds :
  settle (fun o => let* _ := checks o in let* protected := bridge_settle_step id o in Ok (protected && (limit <=? r_now o))) rounds = Some (Ok tt) ->
  routed checks id rounds = true.
Proof.
  induction rounds as [|o rounds IH]; [done|]. cbn [settle routed]. destruct (checks o); [|done]. cbn beta iota.
  destruct (bridge_settle_step id o) as [[]|]; [done|by apply IH|done].
Qed.
Lemma stable_routed id name limit rounds : wait_until_stable id name limit rounds = Some (Ok tt) ->
  routed (fun o => engine_running id name (r_engine o)) id rounds = true.
Proof. apply settled_routed. Qed.
Lemma three_stable_routed id name carrier limit rounds : wait_until_three_stable id name carrier limit rounds = Some (Ok tt) ->
  routed (fun o => let* _ := engine_running id name (r_engine o) in engine_running id carrier (r_carrier o)) id rounds = true.
Proof.
  intros Hs. apply (settled_routed _ _ limit). rewrite <- Hs. unfold wait_until_three_stable. clear Hs. induction rounds as [|o rounds IH]; [done|].
  cbn [settle]. rewrite IH. by destruct (engine_running id name (r_engine o)).
Qed.

(** A bridge, with the link where systemd-resolved runs. *)
Definition bridge_held (resolved : bool) : list Possession :=
  (if resolved then [LinkHeld] else []) ++ [BridgeProcess; KeeperHeld; GuardHeld; DnsHeld].
Definition bridge_owned (resolved : bool) : list Possession := if resolved then with_link bridge_value else bridge_value.
Ltac computed := vm_compute; repeat split; first [reflexivity|by left|by right|idtac].
(** The next call of a frame whose held and owned values are known. *)
Ltac step :=
  lazymatch goal with
  | |- safe _ _ (f_bind (call_frame _ (bridge_start ?id ?plan) _) _) ?held ?owned _ =>
    eapply (safe_bind _ _ _ _ _ _ (stays_at (BridgeProcess :: KeeperHeld :: GuardHeld :: DnsHeld :: held) (bridge_value :: owned)));
      [destruct plan as [[] [] [] [] []]; computed|]
  | |- safe _ _ (f_bind (f_lift _) _) _ _ _ => eapply safe_bind; [apply safe_lift; computed|]
  | |- safe _ _ (f_bind (f_require _ _) _) _ _ _ => eapply safe_bind; [apply safe_require; computed|]
  | |- safe _ _ (f_bind (first_address _ _) _) _ _ _ => eapply safe_bind; [apply safe_first; computed|]
  | |- safe _ _ (f_bind (reserve_port _ _ _) _) _ _ _ => eapply safe_bind; [apply safe_port; computed|]
  | |- safe _ _ (f_bind (create_config _ _ _) _) _ _ _ => eapply safe_bind; [apply safe_config; [computed|computed]|]
  | |- safe _ _ (f_bind (config_test _ _ _ _) _) _ _ _ => eapply safe_bind; [apply safe_test; computed|]
  | |- safe _ _ (f_bind (f_await _) _) _ _ _ => eapply safe_bind; [apply safe_await; computed|]
  | |- safe _ _ (f_bind (routes_link ?b) _) _ _ _ => eapply safe_bind; [apply safe_link; [computed|intros _; computed]|destruct b eqn:?]
  | |- safe _ _ (f_bind (or_stop _ _) _) _ _ _ => eapply safe_bind; [apply safe_or_stop; [computed|computed]|]
  | |- safe _ _ (f_bind (or_stop_bridge _ _ _) _) _ _ _ => eapply safe_bind; [apply safe_or_stop_bridge; [computed|intros []; computed]|]
  | |- safe _ _ (f_bind (own _) _) _ _ _ => eapply safe_bind; [eapply safe_step; [reflexivity|computed]|]
  | |- safe _ _ (f_bind (if ?b then f_raise _ else f_ret tt) _) ?held ?owned _ =>
    eapply (safe_bind _ _ _ _ _ _ (stays_at held owned)); [destruct b; [apply safe_raise; computed|apply safe_ret; computed]|]
  end; let a := fresh "a" in first [intros a ? ? [-> ->]|intros a ? ? [[-> ->] ?]]; cbn [run_held fold_left apply_act].
(** The end of a bridged adapter: the link is held where systemd-resolved
    runs. *)
Ltac linked routed_by :=
  match goal with
  | E : _ && _ = true |- _ => apply andb_true_iff in E as [-> _]
  | E : t_resolved ?plan && _ = false, Ew : _ = Some ?r, Er : ?r = Ok tt |- _ =>
    rewrite Er in Ew; apply routed_by in Ew; rewrite Ew, andb_true_r in E; rewrite E
  end; computed.
Section adapters.
Context `{Base64, PrettyJson}.
Definition bridged_after (resolved : bool) (others : list Possession) (owners : Locals) (_ : unit) (held : list Possession) (owned : Locals) : Prop :=
  held = bridge_held resolved ++ others /\ owned = bridge_owned resolved :: owners.
Lemma hysteria_connect_safe t probe plan : safe bridge_rule (t_restored_again plan) (hysteria_connect t probe plan) [] []
  (bridged_after (t_resolved plan) [EngineProcess] [[EngineProcess]; []]).
Proof. unfold hysteria_connect. destruct (t_restored_again plan); repeat step; linked stable_routed. Qed.
Lemma xray_connect_safe t probe options plan : safe bridge_rule (t_restored_again plan) (xray_connect t probe options plan) [] []
  (bridged_after (t_resolved plan) [EngineProcess] [[EngineProcess]; []]).
Proof. unfold xray_connect. destruct (t_restored_again plan); repeat step; linked stable_routed. Qed.
Lemma shadowsocks_connect_safe t probe plan : safe bridge_rule (t_restored_again plan) (shadowsocks_connect t probe plan) [] []
  (bridged_after (t_resolved plan) [EngineProcess] [[EngineProcess]; []]).
Proof. unfold shadowsocks_connect. destruct (t_restored_again plan); repeat step; linked stable_routed. Qed.
Lemma wireguard_connect_safe t probe plan : safe bridge_rule (t_restored_again plan) (wireguard_connect t probe plan) [] []
  (bridged_after (t_resolved plan) [EngineProcess; CarrierProcess] [[EngineProcess]; [CarrierProcess]; []]).
Proof. unfold wireguard_connect. destruct (t_restored_again plan); repeat step; linked three_stable_routed. Qed.
Definition lease_value (resolved : bool) : list Possession := if resolved then [LinkHeld; DnsHeld] else [DnsHeld].
Lemma openvpn_connect_safe t probe options plan : safe openvpn_rule (o_restored_again plan) (openvpn_connect t probe options plan) [] []
  (fun _ held owned => held = (if o_resolved plan then [LinkHeld] else []) ++ [EngineProcess; DnsHeld; CarrierProcess] /\
     concat owned = EngineProcess :: lease_value (o_resolved plan) ++ [CarrierProcess]).
Proof. unfold openvpn_connect. destruct (o_restored_again plan); repeat step; computed. Qed.

(** * Supervision *)

(** A task that owns all that is held keeps the rule, and leaves nothing when
    it ends. *)
Definition task_safe (rule : list Possession -> bool) (again : bool) (m : Frame TunnelStatus) (held : list Possession) (owned : Locals) : Prop :=
  let '(log, ended) := supervised again m owned in guarded rule held log = true /\ (ended <> None -> released again (run_held held log)).
Ltac evaluated := vm_compute; repeat split; intros; first [done|by left|by right].
Lemma supervise_safe name restored again resolved h : task_safe bridge_rule again (supervise_processes name restored h)
  (bridge_held resolved ++ [EngineProcess]) [bridge_owned resolved; [EngineProcess]].
Proof. destruct h, restored, again, resolved; evaluated. Qed.
Lemma supervise_two_safe name carrier restored again (resolved : bool) h : task_safe openvpn_rule again (supervise_two_processes name carrier restored h)
  ((if resolved then [LinkHeld] else []) ++ [EngineProcess; DnsHeld; CarrierProcess]) [lease_value resolved; [CarrierProcess]; [EngineProcess]].
Proof. destruct h, restored, again, resolved; evaluated. Qed.
Lemma task_restarts again m rule held owned : guarded rule held [Ends CarrierProcess; Begins CarrierProcess] = true ->
  task_safe rule again m (run_held held [Ends CarrierProcess; Begins CarrierProcess]) owned -> task_safe rule again (loc! _ := restarts CarrierProcess in m) held owned.
Proof.
  unfold task_safe, supervised, f_bind, restarts. intros HG. destruct (m owned) as [[log rest_] [s|e|]]; intros [HG' HE].
  - change (Ends CarrierProcess :: Begins CarrierProcess :: log ++ drops again rest_) with ([Ends CarrierProcess; Begins CarrierProcess] ++ log ++ drops again rest_).
    rewrite <- app_assoc, guarded_app, run_held_app. tauto.
  - rewrite <- app_assoc, guarded_app, run_held_app. tauto.
  - rewrite guarded_app, run_held_app. tauto.
Qed.
Definition three_held (resolved : bool) : list Possession := bridge_held resolved ++ [EngineProcess; CarrierProcess].
Definition three_owned (resolved : bool) : Locals := [bridge_owned resolved; [CarrierProcess]; [EngineProcess]].
Lemma supervise_three_safe name carrier restored again resolved seen hs held :
  held = three_held resolved \/ held = run_held (three_held resolved) [Ends CarrierProcess; Begins CarrierProcess] ->
  task_safe bridge_rule again (supervise_three_processes name carrier restored seen hs) held (three_owned resolved).
Proof.
  revert seen held. induction hs as [|h hs IH]; intros seen held Hh; [destruct Hh as [->| ->], resolved; evaluated|].
  destruct h as [e|e|e diag| |report relaunched]; cbn [supervise_three_processes];
    [destruct Hh as [->| ->], restored, again, resolved; evaluated..|].
  destruct (moved seen report); [|by apply IH]. destruct relaunched; [|destruct Hh as [->| ->], restored, again, resolved; evaluated].
  apply task_restarts; [by destruct Hh as [->| ->], resolved; vm_compute|]. apply IH. right. by destruct Hh as [->| ->], resolved.
Qed.

(** * Whole tunnels *)

Inductive Adapter := HysteriaAdapter | XrayAdapter | ShadowsocksAdapter | WireGuardAdapter | OpenVpnAdapter.
Definition adapter_rule (a : Adapter) : list Possession -> bool := match a with OpenVpnAdapter => openvpn_rule | _ => bridge_rule end.
(** Connecting; then, if it works, the task the tunnel was handed to, over
    what happens to it. *)
Definition life (again : bool) (connect : Frame unit) (supervisor : Frame TunnelStatus) (moved_ : Locals) : list Act * option (result Fault TunnelStatus) :=
  match connect [] with
  | (log, _, Returns _) => let '(log', ended) := supervised again supervisor moved_ in (log ++ log', Ok <$> ended)
  | (log, locals, Raises e) => (log ++ drops again locals, Some (Err e))
  | (log, _, Waits) => (log, None)
  end.
Definition adapter_connect (a : Adapter) (t : SessionTransport) (probe : ProbeReport) (options : ConnectOptions) (plan : TunnelPlan) (oplan : OpenVpnPlan) : Frame unit :=
  match a with
  | HysteriaAdapter => hysteria_connect t probe plan
  | XrayAdapter => xray_connect t probe options plan
  | ShadowsocksAdapter => shadowsocks_connect t probe plan
  | WireGuardAdapter => wireguard_connect t probe plan
  | OpenVpnAdapter => openvpn_connect t probe options oplan
  end.
(** Whether the restore of a dropped lease works, and whether systemd-resolved
    runs. *)
Definition adapter_again (a : Adapter) (plan : TunnelPlan) (oplan : OpenVpnPlan) : bool :=
  match a with OpenVpnAdapter => o_restored_again oplan | _ => t_restored_again plan end.
Definition adapter_resolved (a : Adapter) (plan : TunnelPlan) (oplan : OpenVpnPlan) : bool :=
  match a with OpenVpnAdapter => o_resolved oplan | _ => t_resolved plan end.
Definition adapter_supervisor (a : Adapter) (restored : bool) (seen : Z) (h : Happening) (hs : list Happening) : Frame TunnelStatus :=
  match a with
  | HysteriaAdapter => supervise_processes (str "Hysteria2") restored h
  | XrayAdapter => supervise_processes (str "Xray") restored h
  | ShadowsocksAdapter => supervise_processes (str "Shadowsocks") restored h
  | WireGuardAdapter => supervise_three_processes (str "Xray WireGuard") (str "wstunnel") restored seen (h :: hs)
  | OpenVpnAdapter => supervise_two_processes (str "OpenVPN") (str "stunnel") restored h
  end.
(** What the supervisor is given. *)
Definition adapter_owned (a : Adapter) (resolved : bool) : Locals :=
  match a with
  | WireGuardAdapter => three_owned resolved
  | OpenVpnAdapter => [lease_value resolved; [CarrierProcess]; [EngineProcess]]
  | _ => [bridge_owned resolved; [EngineProcess]]
  end.
Definition tunnel_life (a : Adapter) (t : SessionTransport) (probe : ProbeReport) (options : ConnectOptions) (plan : TunnelPlan) (oplan : OpenVpnPlan)
    (restored : bool) (seen : Z) (h : Happening) (hs : list Happening) : list Act * option (result Fault TunnelStatus) :=
  life (adapter_again a plan oplan) (adapter_connect a t probe options plan oplan) (adapter_supervisor a restored seen h hs)
    (adapter_owned a (adapter_resolved a plan oplan)).
(** What is held when connecting has succeeded. *)
Definition held_connected (a : Adapter) (resolved : bool) : list Possession :=
  match a with
  | WireGuardAdapter => three_held resolved
  | OpenVpnAdapter => (if resolved then [LinkHeld] else []) ++ [EngineProcess; DnsHeld; CarrierProcess]
  | _ => bridge_held resolved ++ [EngineProcess]
  end.
Lemma safe_weaken {A} rule again (m : Frame A) held owned (Q Q' : A -> list Possession -> Locals -> Prop) :
  safe rule again m held owned Q -> (forall a h o, Q a h o -> Q' a h o) -> safe rule again m held owned Q'.
Proof. unfold safe. destruct (m owned) as [[log locals] [a|e|]]; naive_solver. Qed.
Lemma connect_safe a t probe options plan oplan : safe (adapter_rule a) (adapter_again a plan oplan) (adapter_connect a t probe options plan oplan) [] []
  (fun _ held _ => held = held_connected a (adapter_resolved a plan oplan)).
Proof.
  destruct a; cbn [adapter_rule adapter_again adapter_resolved adapter_connect held_connected]; eapply safe_weaken.
  all: first [apply hysteria_connect_safe|apply xray_connect_safe|apply shadowsocks_connect_safe|apply wireguard_connect_safe|apply openvpn_connect_safe|idtac].
  all: by intros ? ? ? [? _].
Qed.
Lemma supervisor_safe a restored seen h hs again resolved :
  task_safe (adapter_rule a) again (adapter_supervisor a restored seen h hs) (held_connected a resolved) (adapter_owned a resolved).
Proof.
  destruct a; cbn [adapter_rule adapter_supervisor held_connected adapter_owned];
    first [apply supervise_safe|apply supervise_two_safe|apply supervise_three_safe; by left].
Qed.

(** C4: No tunnel runs unprotected, and none leaves anything behind. However
    the calls of [connect] come out and whatever then happens to the tunnel,
    with any of the five engines: at every moment the bridge process runs, the
    resolver lease, the leak guard and the kept routes of the tunnel are held
    (for OpenVPN: the lease while the engine runs); where systemd-resolved
    runs, connecting succeeds only once the tunnel's link is its resolver; and
    once connecting has failed or the tunnel has ended, every process has been
    stopped, every private file removed, the guard, the routes and the link
    released, and the resolver restored, unless the restore of the dropped
    lease, whose error is ignored, failed. *)
Theorem tunnel_never_unprotected a t probe options plan oplan restored seen h hs :
  let '(log, ended) := tunnel_life a t probe options plan oplan restored seen h hs in
  guarded (adapter_rule a) [] log = true /\
  (forall log' locals, adapter_connect a t probe options plan oplan [] = (log', locals, Returns tt) ->
     adapter_resolved a plan oplan = true -> LinkHeld ∈ run_held [] log') /\
  (ended <> None -> run_held [] log = [] \/ (adapter_again a plan oplan = false /\ run_held [] log = [DnsHeld])).
Proof.
  pose proof (connect_safe a t probe options plan oplan) as HC. pose proof (supervisor_safe a restored seen h hs (adapter_again a plan oplan) (adapter_resolved a plan oplan)) as HT.
  unfold tunnel_life, life, safe, task_safe in *. destruct (adapter_connect a t probe options plan oplan []) as [[log locals] [[]|e|]]; destruct HC as [HG HQ].
  - rewrite <- HQ in HT. destruct (supervised _ _ _) as [log' ended]. rewrite guarded_app, run_held_app. destruct HT as [HG' HE]. split_and!; [done|done| |].
    + intros log0 l0 E Hr. assert (log0 = log) as -> by congruence. rewrite HQ, Hr. destruct a; left.
    + intros HN. apply HE. by destruct ended.
  - destruct HQ as [HD HE]. rewrite guarded_app, run_held_app. done.
  - done.
Qed.
End adapters.

(** * How a tunnel ends *)

Definition ended_as (r : list Act * option TunnelStatus) : option TunnelStatus := r.2.
(** The task was asked to stop before anything else ended it. *)
Fixpoint stop_first (seen : Z) (hs : list Happening) : bool :=
  match hs with
  | StopAsked :: _ => true
  | NetworkReports report relaunched :: hs => if moved seen report then relaunched && stop_first (generation report) hs else stop_first seen hs
  | _ => false
  end.
(** What a task reports depends on what restoring the resolver returns. *)
Ltac reports restored :=
  destruct restored; unfold ended_as, supervised, stop_bridge, restore_dns, drop_lease_link, f_bind, ends, stop_child, f_ret; cbn;
  repeat match goal with |- context [bool_decide ?P] => destruct (bool_decide P); cbn end; split; intros; destruct_and?; simplify_eq; done.
Lemma three_status again name carrier restored seen hs owned :
  ended_as (supervised again (supervise_three_processes name carrier restored seen hs) owned) = Some Stopped <-> stop_first seen hs = true /\ restored = true.
Proof.
  revert seen. induction hs as [|h hs IH]; intros seen; [cbn; naive_solver|].
  destruct h as [e|e|e diag| |report relaunched]; cbn [supervise_three_processes stop_first]; [reports restored..|].
  destruct (moved seen report); [|apply IH]. destruct relaunched; cbn [andb]; [|reports restored].
  rewrite <- (IH (generation report)). unfold ended_as, supervised, f_bind, restarts.
  by destruct (supervise_three_processes name carrier restored (generation report) hs owned) as [[log rest_] [s|e|]].
Qed.

(** A tunnel reports that it stopped exactly when it was asked to and the
    system resolver was restored, for every kind of tunnel; what the app then
    gets from [stop] is success in that case, and an error otherwise. A
    carrier is started again only when the machine is on a network it was not
    on before. *)
Theorem stopped_exactly_when_restored again engine carrier restored seen hs h id owned :
  (ended_as (supervised again (supervise_three_processes engine carrier restored seen hs) owned) = Some Stopped <-> stop_first seen hs = true /\ restored = true) /\
  (ended_as (supervised again (supervise_processes engine restored h) owned) = Some Stopped <-> h = StopAsked /\ restored = true) /\
  (ended_as (supervised again (supervise_two_processes engine carrier restored h) owned) = Some Stopped <-> h = StopAsked /\ restored = true) /\
  (tunnel_stop id Connected true (ended_as (supervised again (supervise_processes engine restored StopAsked) owned)) = Ok tt <-> restored = true).
Proof.
  split; [apply three_status|]. split_and!; [destruct h; unfold supervise_processes, supervise_two_processes; reports restored..|]. unfold tunnel_stop, supervise_processes. reports restored.
Qed.

(** * Every wait ends *)

Lemma settle_ends (step : Round -> result ClientError bool) rounds o : o ∈ rounds -> step o <> Ok false -> settle step rounds <> None.
Proof.
  intros Hin Hs. induction rounds as [|x rounds IH]; [by apply elem_of_nil in Hin|]. cbn [settle]. apply elem_of_cons in Hin as [->|Hin].
  - destruct (step x) as [[]|]; done.
  - destruct (step x) as [[]|]; [done|by apply IH|done].
Qed.
Lemma bridge_step_timed id o : TUNNEL_INTERFACE_TIMEOUT <= r_elapsed o -> bridge_settle_step id o <> Ok false.
Proof.
  intros Ht. unfold bridge_settle_step, bridge_exit_if_stopped, bridge_admit_tunnel. destruct (r_bridge o); [done| |done].
  destruct (and_then _ _); [done| |done]. by rewrite (proj2 (Z.leb_le _ _)).
Qed.
Lemma settled_by (checks : result ClientError unit) id limit o : TUNNEL_INTERFACE_TIMEOUT <= r_elapsed o -> limit <= r_now o ->
  (let* _ := checks in let* protected := bridge_settle_step id o in Ok (protected && (limit <=? r_now o))) <> Ok false.
Proof.
  intros Ht Hl. destruct checks; [|done]. pose proof (bridge_step_timed id o Ht) as HB. destruct (bridge_settle_step id o) as [[]|]; [|done..].
  by rewrite (proj2 (Z.leb_le _ _)).
Qed.
Lemma ready_ends id deadline connected socks_ready diagnostic rounds o : o ∈ rounds -> deadline <= s_now o ->
  ready_loop id deadline connected socks_ready diagnostic rounds <> None.
Proof.
  intros Hin Hd. revert connected socks_ready diagnostic. induction rounds as [|x rounds IH]; intros c s d; [by apply elem_of_nil in Hin|].
  cbn [ready_loop]. destruct (c && s); [done|]. destruct (s_engine x); [done| |done]. apply elem_of_cons in Hin as [->|Hin].
  - by rewrite (proj2 (Z.leb_le _ _)).
  - destruct (deadline <=? s_now x); [done|]. destruct (s_line x); [by apply IH|done..|by apply IH].
Qed.
Lemma socks_ends id name limit rounds o : o ∈ rounds -> limit <= k_now o -> wait_for_socks id name limit rounds <> None.
Proof.
  intros Hin Hd. induction rounds as [|x rounds IH]; [by apply elem_of_nil in Hin|]. cbn [wait_for_socks]. destruct (k_engine x); [done| |done].
  destruct (k_connects x); [done|]. apply elem_of_cons in Hin as [->|Hin]; [by rewrite (proj2 (Z.leb_le _ _))|]. destruct (limit <=? k_now x); [done|by apply IH].
Qed.
Lemma process_ends id name n looks : (n <= length looks)%nat -> wait_for_process id name n looks <> None.
Proof.
  revert looks. induction n as [|n IH]; intros looks Hn; [done|]. destruct looks as [|[] looks]; cbn in *; [lia|done|apply IH; lia|done].
Qed.
(** Every wait for a tunnel ends. The loops that wait for an engine, its
    carrier or the bridge have an answer by the first round at which their
    time is up, whatever they find before and in it: for the bridge, the time
    its interface may take and the time to settle. *)
Theorem waits_end id name carrier limit rounds start socks looks :
  (forall o, o ∈ rounds -> TUNNEL_INTERFACE_TIMEOUT <= r_elapsed o -> limit <= r_now o ->
     wait_until_stable id name limit rounds <> None /\ wait_until_three_stable id name carrier limit rounds <> None) /\
  (forall o, o ∈ rounds -> limit <= r_now o -> wait_until_pair_stable id name carrier limit rounds <> None) /\
  (forall o, o ∈ start -> limit <= s_now o -> wait_until_ready id limit start <> None) /\
  (forall o, o ∈ socks -> limit <= k_now o -> wait_for_socks id name limit socks <> None) /\
  ((5 <= length looks)%nat -> wait_for_process id name 5 looks <> None).
Proof.
  split_and!; [..|apply process_ends].
  - intros o Hin Ht Hl. split; (eapply settle_ends; [exact Hin|]); [by apply settled_by|].
    destruct (engine_running id name (r_engine o)) as [u|e]; [by apply settled_by|done].
  - intros o Hin Hl. eapply settle_ends; [exact Hin|]. cbn beta. destruct (pair_running id name _); [|done]. destruct (pair_running id carrier _); [|done].
    by rewrite (proj2 (Z.leb_le _ _)).
  - intros o Hin Hl. by eapply ready_ends.
  - intros o Hin Hl. by eapply socks_ends.
Qed.

#[local] Instance demo_pretty : PrettyJson := fun _ => Some (str "{}").
Definition demo_probe : ProbeReport := mkProbe [mkSocket (V4 3221225985) 443] 0.
Definition demo_round : Round := mkRound Alive Alive Alive None IoFine IoFine 1300 1300.
Definition demo_tunnel_plan : TunnelPlan := mkTunnelPlan (Some 10808) (Some 10809) (Ok (str "/run/ket/hysteria.json")) (CheckRan true) true true
  [mkStart Alive 10 (ReadLine (str "connected to server")); mkStart Alive 20 (ReadLine (str "SOCKS5 server listening")); mkStart Alive 25000 NoLineYet]
  [mkSocks Alive true 5] (mkPath true true true) (Some None) true (replicate 5 Alive) (mkBridgePlan true true true true true) [demo_round] true true true.
Definition demo_openvpn_plan : OpenVpnPlan :=
  mkOpenVpnPlan None None (Err []) (Err []) (Err []) (Err []) false [] false false [] IoFine [] true true.
Definition demo_life : list Act * option (result Fault TunnelStatus) :=
  tunnel_life HysteriaAdapter (transport_at 0) demo_probe (mkOptions false []) demo_tunnel_plan demo_openvpn_plan true 0 StopAsked [].
(** The tunnel comes up, is asked to stop, and stops. *)
Example demo_life_is : demo_life =
  (map Begins [ConfigFile (str "hysteria"); EngineProcess; DnsHeld; GuardHeld; KeeperHeld; BridgeProcess; LinkHeld] ++
   map Ends [ConfigFile (str "hysteria"); BridgeProcess; GuardHeld; KeeperHeld; LinkHeld; DnsHeld; EngineProcess], Some (Ok Stopped)).
Proof. vm_compute. reflexivity. Qed.
Lemma tunnel_never_unprotected_witness : guarded bridge_rule [] demo_life.1 = true /\ run_held [] demo_life.1 = [].
Proof.
  pose proof (tunnel_never_unprotected HysteriaAdapter (transport_at 0) demo_probe (mkOptions false []) demo_tunnel_plan demo_openvpn_plan true 0 StopAsked []) as HT.
  change (tunnel_life _ _ _ _ _ _ _ _ _ _) with demo_life in HT. rewrite demo_life_is in HT |- *. destruct HT as (HG & _ & HE).
  split; [exact HG|]. destruct (HE ltac:(discriminate)) as [HD|[HF _]]; [exact HD|discriminate HF].
Defined.
Lemma waits_end_witness : wait_until_ready (str "hy2") 20000 (t_start demo_tunnel_plan) <> None.
Proof.
  destruct (waits_end (str "hy2") [] [] 20000 [] (t_start demo_tunnel_plan) [] []) as (_ & _ & HW & _).
  apply (HW (mkStart Alive 25000 NoLineYet)); [right; right; left|cbn; lia].
Defined.
