(* ===== verification/SystemDns.v ===== *)
(** The system resolver of the desktop app's tunnel
    (ket-client-core/src/system_dns): the file [/etc/resolv.conf] rewritten
    for the lifetime of a tunnel, the original saved beside it, and the
    repair of a crash. Every call into the operating system takes the next of
    a list of events, which says whether it succeeds, is refused, or the
    program dies in it. *)

From Stdlib Require Import ZArith Lia.
From stdpp Require Import gmap strings.
From S2P Require Import Prelude Utf8 Str.

(** * Files and what happens to calls *)

Inductive Entry := Missing | Regular (content : list byte) | Irregular.
(** The resolver as its path leads to, the saved state and its temporary, and
    what systemd-resolved was told. *)
Record DnsDisk := mkDnsDisk { resolver : Entry; saved : Entry; temporary : Entry; told : list (list (list byte)) }.
Inductive Place := Resolver | Saved | Temporary.
Definition entry (p : Place) (d : DnsDisk) : Entry := match p with Resolver => resolver d | Saved => saved d | Temporary => temporary d end.
Definition put (p : Place) (e : Entry) (d : DnsDisk) : DnsDisk :=
  match p with
  | Resolver => mkDnsDisk e (saved d) (temporary d) (told d)
  | Saved => mkDnsDisk (resolver d) e (temporary d) (told d)
  | Temporary => mkDnsDisk (resolver d) (saved d) e (told d)
  end.

Inductive ErrorKind := NotFound | InvalidData | InvalidInput | OtherError.
(** The call does its work; it fails; the process ends in it. A write that
    fails or dies has written [written] bytes. *)
Inductive Event := Goes | Refused (written : nat) | Dies (written : nat).
Inductive IoOutcome (A : Type) := Done (a : A) | Failed (e : ErrorKind) | Died.
Arguments Done {A}.
Arguments Failed {A}.
Arguments Died {A}.
Definition DnsIo (A : Type) : Type := list Event -> DnsDisk -> IoOutcome A * list Event * DnsDisk.

Definition io_ret {A} (a : A) : DnsIo A := fun evs d => (Done a, evs, d).
Definition io_fail {A} (e : ErrorKind) : DnsIo A := fun evs d => (Failed e, evs, d).
Definition io_bind {A B} (m : DnsIo A) (f : A -> DnsIo B) : DnsIo B := fun evs d =>
  match m evs d with
  | (Done a, evs, d) => f a evs d
  | (Failed e, evs, d) => (Failed e, evs, d)
  | (Died, evs, d) => (Died, evs, d)
  end.
(** A result looked at rather than returned with [?]. *)
Definition looked_at {A} (m : DnsIo A) : DnsIo (result ErrorKind A) := fun evs d =>
  match m evs d with
  | (Done a, evs, d) => (Done (Ok a), evs, d)
  | (Failed e, evs, d) => (Done (Err e), evs, d)
  | (Died, evs, d) => (Died, evs, d)
  end.
Notation "'do!' x := m 'in' k" := (io_bind m (fun x => k)) (at level 10, x pattern, m at level 200, k at level 200, format "'[v' 'do!'  x  :=  m  'in' '/' k ']'").
(** One call: its work on the disk, and what an interrupted call leaves. *)
Definition os_call {A} (work : DnsDisk -> IoOutcome A * DnsDisk) (cut : nat -> DnsDisk -> DnsDisk) : DnsIo A := fun evs d =>
  match evs with
  | Refused n :: evs => (Failed OtherError, evs, cut n d)
  | Dies n :: evs => (Died, evs, cut n d)
  | Goes :: evs => let '(r, d) := work d in (r, evs, d)
  | [] => let '(r, d) := work d in (r, [], d)
  end.
Definition looks {A} (work : DnsDisk -> IoOutcome A) : DnsIo A := os_call (fun d => (work d, d)) (fun _ d => d).

(** ** The calls *)

Record Metadata := mkMetadata { meta_is_file : bool; meta_len : Z }.
Definition metadata (p : Place) : DnsIo Metadata := looks (fun d =>
  match entry p d with Missing => Failed NotFound | Regular c => Done (mkMetadata true (zlen c)) | Irregular => Done (mkMetadata false 0) end).
Definition open_read (p : Place) : DnsIo unit := looks (fun d => match entry p d with Missing => Failed NotFound | _ => Done tt end).
(** [take(limit)] then [read_to_end]. *)
Definition read_up_to (limit : Z) (p : Place) : DnsIo (list byte) := looks (fun d =>
  match entry p d with Regular c => Done (take (Z.to_nat limit) c) | _ => Failed OtherError end).
Definition open_truncate (p : Place) : DnsIo unit := os_call (fun d =>
  match entry p d with Missing => (Failed NotFound, d) | Regular _ => (Done tt, put p (Regular []) d) | Irregular => (Failed OtherError, d) end) (fun _ d => d).
(** [create(true)]; [O_NOFOLLOW] refuses a link. *)
Definition open_create (p : Place) : DnsIo unit := os_call (fun d =>
  match entry p d with Irregular => (Failed OtherError, d) | _ => (Done tt, put p (Regular []) d) end) (fun _ d => d).
Definition write_content (p : Place) (content : list byte) : DnsIo unit :=
  os_call (fun d => (Done tt, put p (Regular content) d)) (fun n d => put p (Regular (take n content)) d).
Definition sync_all : DnsIo unit := looks (fun _ => Done tt).
Definition create_dir_all : DnsIo unit := looks (fun _ => Done tt).
Definition set_permissions : DnsIo unit := looks (fun _ => Done tt).
Definition rename (from to : Place) : DnsIo unit := os_call (fun d =>
  match entry from d, entry to d with
  | Missing, _ => (Failed NotFound, d)
  | _, Irregular => (Failed OtherError, d)
  | e, _ => (Done tt, put from Missing (put to e d))
  end) (fun _ d => d).
Definition remove_file (p : Place) : DnsIo unit := os_call (fun d =>
  match entry p d with Missing => (Failed NotFound, d) | _ => (Done tt, put p Missing d) end) (fun _ d => d).

(** * The module's functions *)

Definition MAX_RESOLVER_BYTES : Z := 64 * 1024.
Definition resolver_line (s : string) : list byte := str s ++ [z2b 10].
Definition VIRTUAL_DNS_CONFIGURATION : list byte := resolver_line "nameserver 198.18.0.1".
Definition OPENVPN_DNS_CONFIGURATION : list byte :=
  resolver_line "nameserver 1.1.1.1" ++ resolver_line "nameserver 1.0.0.1" ++ resolver_line "options timeout:2 attempts:2".
Definition configurations : list (list byte) := [VIRTUAL_DNS_CONFIGURATION; OPENVPN_DNS_CONFIGURATION].

Definition read_bounded_file (p : Place) : DnsIo (list byte) :=
  do! m := metadata p in
  if negb (meta_is_file m) || (MAX_RESOLVER_BYTES <? meta_len m) then io_fail InvalidData
  else
    do! _ := open_read p in
    do! content := read_up_to (MAX_RESOLVER_BYTES + 1) p in
    if MAX_RESOLVER_BYTES <? zlen content then io_fail InvalidData else io_ret content.
Definition read_optional_state : DnsIo (option (list byte)) :=
  do! m := looked_at (metadata Saved) in
  match m with
  | Ok m =>
    if negb (meta_is_file m) || (MAX_RESOLVER_BYTES <? meta_len m) then io_fail InvalidData
    else do! content := read_bounded_file Saved in io_ret (Some content)
  | Err NotFound => io_ret None
  | Err e => io_fail e
  end.
Definition write_in_place (p : Place) (content : list byte) : DnsIo unit :=
  do! m := metadata p in
  if negb (meta_is_file m) then io_fail InvalidData
  else
    do! _ := open_truncate p in
    do! _ := write_content p content in
    sync_all.
Definition sync_parent : DnsIo unit := do! _ := looks (fun _ => Done tt) in sync_all.
(** [state_path.parent()] is there for every path but the root's. *)
Definition persist_state (has_parent : bool) (content : list byte) : DnsIo unit :=
  if negb has_parent then io_fail InvalidInput
  else
    do! _ := create_dir_all in
    do! _ := set_permissions in
    do! _ := open_create Temporary in
    do! _ := write_content Temporary content in
    do! _ := sync_all in
    do! _ := rename Temporary Saved in
    sync_parent.
Definition remove_state (has_parent : bool) : DnsIo unit :=
  do! r := looked_at (remove_file Saved) in
  match r with
  | Ok _ => if has_parent then sync_parent else io_ret tt
  | Err NotFound => io_ret tt
  | Err e => io_fail e
  end.
Definition recover_at (has_parent : bool) : DnsIo unit :=
  do! original := read_optional_state in
  match original with
  | None => io_ret tt
  | Some original =>
    do! current := read_bounded_file Resolver in
    do! _ := (if bool_decide (current ∈ configurations) then write_in_place Resolver original else io_ret tt) in
    remove_state has_parent
  end.
Definition acquire_at (has_parent : bool) (configuration : list byte) : DnsIo unit :=
  do! _ := recover_at has_parent in
  do! original := read_bounded_file Resolver in
  do! _ := persist_state has_parent original in
  do! r := looked_at (write_in_place Resolver configuration) in
  match r with
  | Err e =>
    do! _ := looked_at (write_in_place Resolver original) in
    do! _ := looked_at (remove_state has_parent) in
    io_fail e
  | Ok _ => io_ret tt
  end.

(** * Leases *)

(** The link systemd-resolved was told about, by interface. *)
Record ResolvedRoute := mkRoute { route_resolvers : list (list byte); route_link : option (list byte) }.
Record SystemDnsLease := mkLease { lease_active : bool; lease_resolved : option ResolvedRoute }.
Record SystemDnsManager := mkManager { dns_configuration : list byte; dns_resolvers : list (list byte) }.
Definition virtual_dns : SystemDnsManager := mkManager VIRTUAL_DNS_CONFIGURATION [str "198.18.0.1"].
Definition openvpn_dns : SystemDnsManager := mkManager OPENVPN_DNS_CONFIGURATION [str "1.1.1.1"; str "1.0.0.1"].

(** [resolvectl], [configuration] and [ResolvedLink]: a link dropped, also by
    a command that fails, is reverted. *)
Definition resolvectl (arguments : list (list byte)) : DnsIo unit :=
  os_call (fun d => (Done tt, mkDnsDisk (resolver d) (saved d) (temporary d) (told d ++ [arguments]))) (fun _ d => d).
Definition configuration (interface : list byte) (resolvers : list (list byte)) : list (list (list byte)) :=
  [str "dns" :: interface :: resolvers; [str "domain"; interface; str "~."]; [str "default-route"; interface; str "yes"]].
Definition drop_link (interface : list byte) : DnsIo unit := do! _ := looked_at (resolvectl [str "revert"; interface]) in io_ret tt.
Fixpoint run_commands (commands : list (list (list byte))) : DnsIo unit :=
  match commands with [] => io_ret tt | c :: commands => do! _ := resolvectl c in run_commands commands end.
Definition route_all_lookups (exists_ : bool) (interface : list byte) (resolvers : list (list byte)) : DnsIo (list byte) :=
  if negb exists_ then io_fail NotFound
  else
    do! r := looked_at (run_commands (configuration interface resolvers)) in
    match r with
    | Ok _ => io_ret interface
    | Err e => do! _ := drop_link interface in io_fail e
    end.

Section leases.
(** Whether the process is root's, whether systemd-resolved runs, whether it
    owns the resolver file, and whether the state path has a parent. *)
Context (root running owns has_parent : bool).
Definition inactive : SystemDnsLease := mkLease false None.
Definition acquire (m : SystemDnsManager) : DnsIo SystemDnsLease :=
  if root then
    do! lease := (if running && owns then io_ret inactive
                  else do! _ := acquire_at has_parent (dns_configuration m) in io_ret (mkLease true None)) in
    io_ret (if running then mkLease (lease_active lease) (Some (mkRoute (dns_resolvers m) None)) else lease)
  else io_ret inactive.
Definition route_tunnel (exists_ : bool) (interface : list byte) (lease : SystemDnsLease) : DnsIo SystemDnsLease :=
  match lease_resolved lease with
  | Some (mkRoute resolvers None) =>
    do! link := route_all_lookups exists_ interface resolvers in
    io_ret (mkLease (lease_active lease) (Some (mkRoute resolvers (Some link))))
  | _ => io_ret lease
  end.
(** [restore] leaves the lease behind also when it fails. *)
Definition restore (lease : SystemDnsLease) : DnsIo (SystemDnsLease * result ErrorKind unit) :=
  do! resolved := match lease_resolved lease with
                  | Some (mkRoute resolvers (Some link)) => do! _ := drop_link link in io_ret (Some (mkRoute resolvers None))
                  | other => io_ret other
                  end in
  if negb (lease_active lease) then io_ret (mkLease false resolved, Ok tt)
  else
    do! r := looked_at (recover_at has_parent) in
    match r with
    | Ok _ => io_ret (mkLease false resolved, Ok tt)
    | Err e => io_ret (mkLease true resolved, Err e)
    end.
Definition drop_lease (lease : SystemDnsLease) : DnsIo unit := do! _ := restore lease in io_ret tt.
(** [recover_system_dns], which the tunnel service runs as it starts. *)
Definition recover_system_dns : DnsIo unit := recover_at has_parent.
End leases.
