(* ===== verification/SystemDnsProps.v ===== *)
(** The system resolver: taken over and given back, a failure undone, and
    what a crash can and cannot lose. *)

From Stdlib Require Import ZArith Lia.
From stdpp Require Import gmap strings.
From S2P Require Import Prelude Utf8 Str SystemDns.

(** * A logic of interrupted runs *)

(** Which events a run is taken over: any crashes, one refused call, none. *)
Inductive Mode := Crashing | OneFault | Quiet.
#[local] Instance Mode_eq_dec : EqDecision Mode.
Proof. solve_decision. Defined.
Fixpoint permitted (m : Mode) (evs : list Event) : Prop :=
  match evs with
  | [] => True
  | Goes :: evs => permitted m evs
  | Refused _ :: evs => match m with OneFault => permitted Quiet evs | _ => False end
  | Dies _ :: evs => match m with Crashing => permitted m evs | _ => False end
  end.
(** The events left after a failure: a refused call ([OtherError]) was the
    one of its run. *)
Definition after (m : Mode) (e : ErrorKind) : Mode := match m, e with OneFault, OtherError => Quiet | _, _ => m end.
Definition runs {A} (mode : Mode) (m : DnsIo A) (d : DnsDisk) (Q : A -> DnsDisk -> Prop) (F : ErrorKind -> DnsDisk -> Prop) (D : DnsDisk -> Prop) : Prop :=
  forall evs, permitted mode evs ->
  match m evs d with
  | (Done a, evs', d') => permitted mode evs' /\ Q a d'
  | (Failed e, evs', d') => permitted (after mode e) evs' /\ F e d'
  | (Died, _, d') => D d'
  end.

Section rules.
Context {A B : Type} (mode : Mode).
Implicit Types (D : DnsDisk -> Prop) (F : ErrorKind -> DnsDisk -> Prop).
Lemma runs_ret (a : A) d (Q : A -> DnsDisk -> Prop) F D : Q a d -> runs mode (io_ret a) d Q F D.
Proof. intros HQ evs He. by split. Qed.
Lemma runs_bind (m : DnsIo A) (f : A -> DnsIo B) d Q1 (Q : B -> DnsDisk -> Prop) F D :
  runs mode m d Q1 F D -> (forall a d', Q1 a d' -> runs mode (f a) d' Q F D) -> runs mode (io_bind m f) d Q F D.
Proof.
  intros Hm Hf evs He. specialize (Hm evs He). unfold io_bind. destruct (m evs d) as [[[a|e|] evs'] d']; [|done..].
  destruct Hm as [He' HQ]. by apply Hf.
Qed.
Lemma runs_mono (m : DnsIo A) d (Q Q' : A -> DnsDisk -> Prop) F F' D D' : runs mode m d Q F D -> (forall a d, Q a d -> Q' a d) -> (forall e d, F e d -> F' e d) ->
  (forall d, D d -> D' d) -> runs mode m d Q' F' D'.
Proof. intros Hm HQ HF HD evs He. specialize (Hm evs He). destruct (m evs d) as [[[a|e|] evs'] d']; naive_solver. Qed.
(** A result looked at: a failure goes on with the events it left. *)
Lemma runs_attempt (m : DnsIo A) (f : result ErrorKind A -> DnsIo B) d Q1 F1 (Q : B -> DnsDisk -> Prop) F D : runs mode m d Q1 F1 D ->
  (forall a d', Q1 a d' -> runs mode (f (Ok a)) d' Q F D) ->
  (forall e d', F1 e d' -> forall evs, permitted (after mode e) evs ->
     match f (Err e) evs d' with
     | (Done b, evs', d') => permitted mode evs' /\ Q b d' | (Failed e, evs', d') => permitted (after mode e) evs' /\ F e d' | (Died, _, d') => D d'
     end) -> runs mode (io_bind (looked_at m) f) d Q F D.
Proof.
  intros Hm HO HE evs He. specialize (Hm evs He). unfold io_bind, looked_at. destruct (m evs d) as [[[a|e|] evs'] d']; [| |done].
  - destruct Hm as [He' HQ]. by apply HO.
  - destruct Hm as [He' HF]. by apply HE.
Qed.
Lemma runs_call (work : DnsDisk -> IoOutcome A * DnsDisk) cut d (Q : A -> DnsDisk -> Prop) F D :
  match work d with (Done a, d') => Q a d' | (Failed e, d') => F e d' /\ (mode = OneFault -> e <> OtherError) | (Died, d') => D d' end ->
  (mode = Crashing -> forall n, D (cut n d)) -> (mode = OneFault -> forall n, F OtherError (cut n d)) -> runs mode (os_call work cut) d Q F D.
Proof.
  intros HW HD HF evs He. unfold os_call. destruct evs as [|[|n|n] evs].
  - destruct (work d) as [[a|e|] d']; [by split| |done]. split; [done|]. by destruct HW.
  - destruct (work d) as [[a|e|] d']; [by split| |done]. destruct HW as [HF' HN]. split; [|done]. unfold after. destruct mode, e; try done. by destruct (HN eq_refl).
  - destruct mode; [done| |done]. split; [done|]. by apply HF.
  - destruct mode; [|done..]. by apply HD.
Qed.
End rules.
Lemma runs_looks {A} mode (work : DnsDisk -> IoOutcome A) d (Q : A -> DnsDisk -> Prop) F (D : DnsDisk -> Prop) :
  match work d with Done a => Q a d | Failed e => F e d /\ (mode = OneFault -> e <> OtherError) | Died => D d end ->
  (mode = Crashing -> D d) -> (mode = OneFault -> F OtherError d) -> runs mode (looks work) d Q F D.
Proof. intros HW HD HF. apply runs_call; [|intros E _; by apply HD|intros E _; by apply HF]. by destruct (work d). Qed.

(** * The functions *)

Definition bounded (e : Entry) : Prop := match e with Regular c => zlen c <= MAX_RESOLVER_BYTES | _ => False end.
Lemma read_bounded_runs mode p d c (Q : list byte -> DnsDisk -> Prop) F (D : DnsDisk -> Prop) : entry p d = Regular c -> zlen c <= MAX_RESOLVER_BYTES ->
  Q c d -> (mode = Crashing -> D d) -> (mode = OneFault -> F OtherError d) -> runs mode (read_bounded_file p) d Q F D.
Proof.
  intros Ep Hc HQ HD HF. unfold read_bounded_file.
  apply (runs_bind _ _ _ _ (fun m d' => m = mkMetadata true (zlen c) /\ d' = d)).
  { apply runs_looks; [|done..]. by rewrite Ep. }
  intros m d' [-> ->]. cbn [meta_is_file meta_len negb orb]. rewrite (proj2 (Z.ltb_ge _ _)) by done.
  apply (runs_bind _ _ _ _ (fun _ d' => d' = d)). { apply runs_looks; [|done..]. by rewrite Ep. }
  intros [] d' ->. apply (runs_bind _ _ _ _ (fun c' d' => c' = c /\ d' = d)).
  { apply runs_looks; [|done..]. rewrite Ep. split; [|done]. apply take_ge. unfold zlen, MAX_RESOLVER_BYTES in *. lia. }
  intros c' d' [-> ->]. rewrite (proj2 (Z.ltb_ge _ _)) by done. by apply runs_ret.
Qed.
Lemma write_in_place_runs mode d r c (Q : unit -> DnsDisk -> Prop) F (D : DnsDisk -> Prop) : resolver d = Regular r ->
  (forall r', r' = r \/ (exists n, r' = take n c) -> (mode = Crashing -> D (put Resolver (Regular r') d)) /\ (mode = OneFault -> F OtherError (put Resolver (Regular r') d))) ->
  Q tt (put Resolver (Regular c) d) -> runs mode (write_in_place Resolver c) d Q F D.
Proof.
  intros Er HT HQ. unfold write_in_place. assert (Ed : put Resolver (Regular r) d = d) by (destruct d; cbn in *; by rewrite Er).
  assert (Hd : (mode = Crashing -> D d) /\ (mode = OneFault -> F OtherError d)) by (rewrite <- Ed; apply HT; by left). destruct Hd as [HD HF].
  assert (H0 : (mode = Crashing -> D (put Resolver (Regular []) d)) /\ (mode = OneFault -> F OtherError (put Resolver (Regular []) d))) by (apply HT; right; by exists 0%nat). destruct H0 as [HD0 HF0].
  assert (Hc : (mode = Crashing -> D (put Resolver (Regular c) d)) /\ (mode = OneFault -> F OtherError (put Resolver (Regular c) d)))
    by (apply HT; right; exists (length c); by rewrite take_ge by lia). destruct Hc as [HDc HFc].
  apply (runs_bind _ _ _ _ (fun m d' => m = mkMetadata true (zlen r) /\ d' = d)).
  { apply runs_looks; [|auto..]. cbn [entry]. by rewrite Er. }
  intros m d' [-> ->]. cbn [meta_is_file negb]. apply (runs_bind _ _ _ _ (fun _ d' => d' = put Resolver (Regular []) d)).
  { apply runs_call; [|auto..]. cbn [entry]. by rewrite Er. }
  intros [] d' ->. apply (runs_bind _ _ _ _ (fun _ d' => d' = put Resolver (Regular c) d)).
  { apply runs_call; [done|..]; intros E n; destruct (HT (take n c)) as [HDn HFn]; eauto. }
  intros [] d' ->. by apply runs_looks.
Qed.
Lemma sync_parent_runs mode d (Q : unit -> DnsDisk -> Prop) F (D : DnsDisk -> Prop) : Q tt d -> (mode = Crashing -> D d) -> (mode = OneFault -> F OtherError d) -> runs mode sync_parent d Q F D.
Proof. intros HQ HD HF. unfold sync_parent. apply (runs_bind _ _ _ _ (fun _ d' => d' = d)); [by apply runs_looks|]. intros [] d' ->. by apply runs_looks. Qed.
Lemma runs_fail {A} mode e d (Q : A -> DnsDisk -> Prop) F (D : DnsDisk -> Prop) : e <> OtherError -> F e d -> runs mode (io_fail e) d Q F D.
Proof. intros Hn HF evs He. split; [|done]. unfold after. by destruct mode, e. Qed.

(** The state file not yet, or already, in place; the rest as it was. *)
Definition persisting (content : list byte) (d d' : DnsDisk) : Prop :=
  resolver d' = resolver d /\ (saved d' = saved d \/ saved d' = Regular content) /\ temporary d' <> Irregular.
Lemma persist_state_runs mode hp d content (Q : unit -> DnsDisk -> Prop) F (D : DnsDisk -> Prop) : saved d <> Irregular -> temporary d <> Irregular ->
  (forall d', persisting content d d' -> (mode = Crashing -> D d') /\ forall e, F e d') ->
  (forall d', persisting content d d' -> saved d' = Regular content -> Q tt d') -> runs mode (persist_state hp content) d Q F D.
Proof.
  intros Hs Ht HK HQ. unfold persist_state. assert (K0 : persisting content d d) by (split_and!; auto).
  assert (HT : forall c, persisting content d (put Temporary (Regular c) d)) by (intros c; split_and!; cbn; auto).
  destruct hp; cbn [negb]; [|apply runs_fail; [done|by apply HK]].
  apply (runs_bind _ _ _ _ (fun _ d' => d' = d)); [apply runs_looks; [done|intros E; by apply HK..]|]. intros [] d' ->.
  apply (runs_bind _ _ _ _ (fun _ d' => d' = d)); [apply runs_looks; [done|intros E; by apply HK..]|]. intros [] d' ->.
  apply (runs_bind _ _ _ _ (fun _ d' => d' = put Temporary (Regular []) d)).
  { apply runs_call; [|intros E _; by apply HK..]. cbn [entry]. by destruct (temporary d). }
  intros [] d' ->. apply (runs_bind _ _ _ _ (fun _ d' => d' = put Temporary (Regular content) d)).
  { apply runs_call; [done|..]; intros E n; by apply (HK _ (HT (take n content))). }
  intros [] d' ->. apply (runs_bind _ _ _ _ (fun _ d' => d' = put Temporary (Regular content) d)).
  { apply runs_looks; [done|intros E; by apply (HK _ (HT content))..]. }
  intros [] d' ->. apply (runs_bind _ _ _ _ (fun _ d' => d' = put Temporary Missing (put Saved (Regular content) d))).
  { apply runs_call; [|intros E _; by apply (HK _ (HT content))..]. cbn [entry put temporary saved]. by destruct (saved d). }
  intros [] d' ->. assert (KN : persisting content d (put Temporary Missing (put Saved (Regular content) d))) by (split_and!; cbn; auto).
  apply sync_parent_runs; [by apply HQ|intros E; by apply HK..].
Qed.
(** The state file still there, or gone. *)
Definition removing (d d' : DnsDisk) : Prop := d' = d \/ d' = put Saved Missing d.
Lemma remove_state_runs mode hp d c (Q : unit -> DnsDisk -> Prop) F (D : DnsDisk -> Prop) : saved d = Regular c ->
  (forall d', removing d d' -> (mode = Crashing -> D d') /\ (mode = OneFault -> F OtherError d')) -> Q tt (put Saved Missing d) -> runs mode (remove_state hp) d Q F D.
Proof.
  intros Es HK HQ. unfold remove_state. apply (runs_attempt _ _ _ _ (fun _ d' => d' = put Saved Missing d) (fun e d' => e = OtherError /\ d' = d /\ mode = OneFault)).
  - apply runs_call; [|intros E _; apply HK; [by left|done]|done]. cbn [entry]. by rewrite Es.
  - intros [] d' ->. assert (KM : removing d (put Saved Missing d)) by (by right).
    destruct hp; [apply sync_parent_runs; [done|intros E; by apply HK..]|by apply runs_ret].
  - intros e d' (-> & -> & Em) evs He. cbn. assert (KD : removing d d) by (by left). split; [by destruct mode|]. by apply HK.
Qed.

(** ** Recovery *)

(** A resolver that no write was cut short in: the original, or one of Ket's. *)
Definition settled (orig : list byte) (d : DnsDisk) : Prop := exists r, resolver d = Regular r /\ (r = orig \/ r ∈ configurations).
(** While the state file holds the original. *)
Definition restoring (orig : list byte) (d : DnsDisk) : Prop :=
  (resolver d = Regular orig /\ saved d = Missing) \/ (saved d = Regular orig /\ exists r, resolver d = Regular r).
Definition clean (orig : list byte) (d : DnsDisk) : Prop := resolver d = Regular orig /\ saved d = Missing.
Definition plain (d : DnsDisk) : Prop := temporary d <> Irregular.
Lemma configurations_short r : r ∈ configurations -> zlen r <= MAX_RESOLVER_BYTES.
Proof.
  intros Hr. assert (HF : forallb (fun r => zlen r <=? MAX_RESOLVER_BYTES) configurations = true) by (vm_compute; reflexivity).
  rewrite forallb_Forall, Forall_forall in HF. by apply Z.leb_le, HF.
Qed.
Section original.
Context (orig : list byte) (Horig : zlen orig <= MAX_RESOLVER_BYTES) (hp : bool).
Lemma read_optional_missing mode d (Q : option (list byte) -> DnsDisk -> Prop) F (D : DnsDisk -> Prop) : saved d = Missing -> Q None d -> (mode = Crashing -> D d) -> (mode = OneFault -> F OtherError d) ->
  runs mode read_optional_state d Q F D.
Proof.
  intros Es HQ HD HF. unfold read_optional_state.
  apply (runs_attempt _ _ _ _ (fun _ _ => False) (fun e d' => (e = NotFound \/ (e = OtherError /\ mode = OneFault)) /\ d' = d)); [|done|].
  - apply runs_looks; [|done|auto]. cbn [entry]. rewrite Es. auto.
  - intros e d' [[->|[-> Em]] ->] evs He; cbn; [destruct mode; by split|]. split; [by destruct mode|auto].
Qed.
Lemma read_optional_saved mode d (Q : option (list byte) -> DnsDisk -> Prop) F (D : DnsDisk -> Prop) : saved d = Regular orig -> Q (Some orig) d -> (mode = Crashing -> D d) -> (mode = OneFault -> F OtherError d) ->
  runs mode read_optional_state d Q F D.
Proof.
  intros Es HQ HD HF. unfold read_optional_state.
  apply (runs_attempt _ _ _ _ (fun m d' => m = mkMetadata true (zlen orig) /\ d' = d) (fun e d' => e = OtherError /\ d' = d /\ mode = OneFault)).
  - apply runs_looks; [|done|done]. cbn [entry]. by rewrite Es.
  - intros m d' [-> ->]. cbn [meta_is_file meta_len negb orb]. rewrite (proj2 (Z.ltb_ge _ _)) by done.
    apply (runs_bind _ _ _ _ (fun c d' => c = orig /\ d' = d)); [by apply (read_bounded_runs _ _ _ orig)|]. intros c d' [-> ->]. by apply runs_ret.
  - intros e d' (-> & -> & Em) evs He. cbn. split; [by destruct mode|auto].
Qed.
(** Recovery of a settled disk gives the original back; a crash in it keeps
    the original in one of the two files. *)
Lemma recover_runs mode d (F : ErrorKind -> DnsDisk -> Prop) (D : DnsDisk -> Prop) : settled orig d -> restoring orig d -> plain d ->
  (forall d', restoring orig d' -> plain d' -> (mode = Crashing -> D d') /\ (mode = OneFault -> F OtherError d')) ->
  runs mode (recover_at hp) d (fun _ d' => clean orig d' /\ plain d') F D.
Proof.
  intros (r & Er & Hr) HR HP HK. unfold recover_at. destruct (HK d HR HP) as [HD HF]. destruct HR as [[Er' Es]|[Es _]].
  { apply (runs_bind _ _ _ _ (fun o d' => o = None /\ d' = d)); [by apply read_optional_missing|]. intros o d' [-> ->]. by apply runs_ret. }
  assert (HR : forall r', restoring orig (put Resolver (Regular r') d)) by (intros r'; right; cbn; eauto).
  apply (runs_bind _ _ _ _ (fun o d' => o = Some orig /\ d' = d)); [by apply read_optional_saved|]. intros o d' [-> ->].
  assert (Hlen : zlen r <= MAX_RESOLVER_BYTES) by (destruct Hr as [->|Hr]; [done|by apply configurations_short]).
  apply (runs_bind _ _ _ _ (fun c d' => c = r /\ d' = d)); [by apply (read_bounded_runs _ _ _ r)|]. intros c d' [-> ->].
  apply (runs_bind _ _ _ _ (fun _ d' => d' = put Resolver (Regular orig) d)).
  - case_bool_decide as Hin.
    + apply (write_in_place_runs _ _ r); [done| |done]. intros r' _. by apply HK.
    + apply runs_ret. destruct Hr as [->|Hr]; [|done]. destruct d; cbn in *. by rewrite Er.
  - intros [] d' ->. apply (remove_state_runs _ _ _ orig); [done| |done]. intros d' Hd'.
    apply HK; destruct Hd' as [->| ->]; [apply HR|by left|done|done].
Qed.

(** ** Taking over *)

Lemma allowed_after mode e evs : mode <> OneFault -> permitted mode evs -> permitted (after mode e) evs.
Proof. by destruct mode, e. Qed.
(** Undoing after a failure: nothing is refused any more. *)
Definition undo : DnsIo unit := do! _ := looked_at (write_in_place Resolver orig) in do! _ := looked_at (remove_state hp) in io_ret tt.
Lemma undo_runs mode d r (D : DnsDisk -> Prop) : (forall d', restoring orig d' -> plain d' -> mode = Crashing -> D d') -> mode <> OneFault -> saved d = Regular orig -> resolver d = Regular r -> plain d ->
  runs mode undo d (fun _ d' => clean orig d' /\ plain d') (fun _ _ => False) D.
Proof.
  intros HD Hm Es Er HP. unfold undo.
  assert (HR : forall r', restoring orig (put Resolver (Regular r') d) /\ plain (put Resolver (Regular r') d)) by (intros r'; split; [right; cbn; eauto|done]).
  apply (runs_attempt _ _ _ _ (fun _ d' => d' = put Resolver (Regular orig) d) (fun _ _ => False)).
  - apply (write_in_place_runs _ _ r); [done| |done]. intros r' _. split; [by apply HD; apply HR|done].
  - intros [] d' ->. apply (runs_attempt _ _ _ _ (fun _ d' => d' = put Saved Missing (put Resolver (Regular orig) d)) (fun _ _ => False)).
    + apply (remove_state_runs _ _ _ orig); [done| |done]. intros d' [->| ->]; (split; [apply HD|done]); [by apply HR..|by left|done].
    + intros [] d' ->. by apply runs_ret.
    + done.
  - done.
Qed.
(** Taken over, the original saved. *)
Definition taken (configuration : list byte) (d : DnsDisk) : Prop := resolver d = Regular configuration /\ saved d = Regular orig.
Lemma acquire_runs mode d configuration (D : DnsDisk -> Prop) : (forall d', restoring orig d' -> plain d' -> mode = Crashing -> D d') -> settled orig d -> restoring orig d -> plain d -> (mode = OneFault -> clean orig d) ->
  runs mode (acquire_at hp configuration) d (fun _ d' => taken configuration d' /\ plain d')
    (fun _ d' => resolver d' = Regular orig /\ restoring orig d' /\ plain d') D.
Proof.
  intros HD HS HR HP HC. unfold acquire_at. apply (runs_bind _ _ _ _ (fun _ d' => clean orig d' /\ plain d')).
  { destruct (decide (mode = OneFault)) as [Em|Em].
    - specialize (HC Em). destruct HC as [Er Es]. unfold recover_at. apply (runs_bind _ _ _ _ (fun o d' => o = None /\ d' = d)).
      + apply read_optional_missing; [done|done|by apply HD|]. intros _. by split_and!.
      + intros o d' [-> ->]. by apply runs_ret.
    - apply recover_runs; [done..|]. intros d' HR' HP'. split; [by apply HD|done]. }
  clear d HS HR HP HC. intros [] d [[Er Es] HP].
  apply (runs_bind _ _ _ _ (fun c d' => c = orig /\ d' = d)).
  { apply (read_bounded_runs _ _ _ orig); [done|done|done|by apply HD; [left|]|]. intros _. split_and!; [done|by left|done]. }
  intros c d' [-> ->]. apply (runs_bind _ _ _ _ (fun _ d' => resolver d' = Regular orig /\ saved d' = Regular orig /\ plain d')).
  { apply persist_state_runs; [by rewrite Es|done|..].
    - intros d' (Er' & Hs' & HP'). rewrite Er, Es in *. assert (restoring orig d') by (destruct Hs' as [Hs'|Hs']; [by left|right; eauto]). split; [by apply HD|]. intros e. by split_and!.
    - intros d' (Er' & _ & HP') Hs'. rewrite Er in *. by split_and!. }
  clear d Er Es HP. intros [] d (Er & Es & HP).
  assert (HR : forall r', saved (put Resolver (Regular r') d) = Regular orig /\ restoring orig (put Resolver (Regular r') d) /\ plain (put Resolver (Regular r') d))
    by (intros r'; split_and!; [done|right; cbn; eauto|done]).
  apply (runs_attempt _ _ _ _ (fun _ d' => d' = put Resolver (Regular configuration) d)
    (fun e d' => mode = OneFault /\ e = OtherError /\ exists r, d' = put Resolver (Regular r) d)).
  - apply (write_in_place_runs _ _ orig); [done| |done]. intros r' _. split; [by apply HD; apply HR|eauto].
  - intros [] d' ->. apply runs_ret. by split.
  - intros e d' (Em & -> & r & ->) evs He. rewrite Em in *. cbn [after] in He.
    destruct (HR r) as (Es' & _ & HP'). pose proof (undo_runs Quiet (put Resolver (Regular r) d) r (fun _ => False) ltac:(done) ltac:(done) Es' eq_refl HP' evs He) as HU.
    unfold undo, io_bind in *. destruct (looked_at (write_in_place Resolver orig) evs _) as [[[x|x|] evs1] d1]; [|by destruct HU|done].
    destruct (looked_at (remove_state hp) evs1 d1) as [[[y|y|] evs2] d2]; [|by destruct HU|done].
      cbn in HU |- *. destruct HU as (He2 & [Er2 Es2] & HP2). split_and!; [done|done|by left|done].
Qed.
End original.

(** * Leases over the life of a machine *)

Lemma quiet_one_fault evs : permitted Quiet evs -> permitted OneFault evs.
Proof. induction evs as [|[|n|n] evs IH]; intros He; [done|by apply IH|by destruct He|by destruct He]. Qed.
Definition same_files (d d' : DnsDisk) : Prop := resolver d' = resolver d /\ saved d' = saved d /\ temporary d' = temporary d.
Lemma drop_link_runs mode interface d (F : ErrorKind -> DnsDisk -> Prop) : runs mode (drop_link interface) d (fun _ d' => same_files d d') F (fun d' => same_files d d').
Proof.
  unfold drop_link. apply (runs_attempt _ _ _ _ (fun _ d' => same_files d d') (fun e d' => same_files d d' /\ e = OtherError /\ mode = OneFault)).
  - apply runs_call; [done..|]. by intros E n.
  - intros [] d' Hd. by apply runs_ret.
  - intros e d' (Hd & -> & ->) evs He. split; [by apply quiet_one_fault|done].
Qed.
Lemma same_restoring orig d d' : same_files d d' -> settled orig d /\ restoring orig d /\ plain d -> settled orig d' /\ restoring orig d' /\ plain d'.
Proof. intros (Er & Es & Et). unfold settled, restoring, plain. by rewrite Er, Es, Et. Qed.

(** What runs against the disk: a tunnel that takes the resolver over, one
    that gives it back, a service that starts. *)
Inductive DnsOp :=
| Acquires (root running owns : bool) (m : SystemDnsManager)
| Restores (lease : SystemDnsLease)
| Starts.
Definition dns_run (hp : bool) (op : DnsOp) : DnsIo unit :=
  match op with
  | Acquires root running owns m => do! _ := acquire root running owns hp m in io_ret tt
  | Restores lease => do! _ := restore hp lease in io_ret tt
  | Starts => recover_system_dns hp
  end.
Definition dns_good (orig : list byte) (d : DnsDisk) : Prop := restoring orig d /\ plain d.
Lemma dns_run_good orig hp op d : zlen orig <= MAX_RESOLVER_BYTES -> settled orig d -> dns_good orig d ->
  runs Crashing (dns_run hp op) d (fun _ => dns_good orig) (fun _ => dns_good orig) (dns_good orig).
Proof.
  intros Ho HS [HR HP]. assert (HG : forall d', clean orig d' /\ plain d' -> dns_good orig d') by (intros d' [HC HP']; split; [by left|done]).
  destruct op as [root running owns m|lease|]; cbn [dns_run].
  - assert (HA : runs Crashing (acquire root running owns hp m) d (fun _ => dns_good orig) (fun _ => dns_good orig) (dns_good orig)).
    { unfold acquire. destruct root; [|by apply runs_ret].
      apply (runs_bind _ _ _ _ (fun _ => dns_good orig)); [|intros l d' Hd; by apply runs_ret].
      destruct (running && owns); [by apply runs_ret|]. apply (runs_bind _ _ _ _ (fun _ => dns_good orig)); [|intros [] d' Hd; by apply runs_ret].
      eapply runs_mono; [apply (acquire_runs orig Ho hp Crashing _ _ (dns_good orig)); [by split|done..]|..].
      - intros [] d' [[Er Es] HP']. split; [right; eauto|done].
      - intros e d' (_ & HR' & HP'). by split.
      - done. }
    apply (runs_bind _ _ _ _ (fun _ => dns_good orig)); [done|]. intros l d' Hd. by apply runs_ret.
  - assert (HL : runs Crashing (match lease_resolved lease with
        | Some (mkRoute resolvers (Some link)) => do! _ := drop_link link in io_ret (Some (mkRoute resolvers None)) | other => io_ret other end) d
        (fun _ d' => settled orig d' /\ dns_good orig d') (fun _ => dns_good orig) (dns_good orig)).
    { destruct (lease_resolved lease) as [[rs [link|]]|]; [|by apply runs_ret..].
      apply (runs_bind _ _ _ _ (fun _ d' => settled orig d' /\ dns_good orig d')); [|intros [] d' Hd; by apply runs_ret].
      eapply runs_mono; [apply (drop_link_runs _ _ _ (fun _ _ => False))|..]; [|done|].
      - intros [] d' Hd. destruct (same_restoring orig d d' Hd) as (? & ? & ?); [done|]. by split.
      - intros d' Hd. destruct (same_restoring orig d d' Hd) as (? & ? & ?); [done|]. by split. }
    apply (runs_bind _ _ _ _ (fun _ => dns_good orig)); [|intros l d' Hd; by apply runs_ret]. unfold restore.
    eapply runs_bind; [exact HL|]. intros o d' [HS' [HR' HP']]. destruct (lease_active lease); cbn [negb]; [|by apply runs_ret].
    apply (runs_attempt _ _ _ _ (fun _ => dns_good orig) (fun _ _ => False)); [|intros [] d'' Hd; by apply runs_ret|done].
    eapply runs_mono; [apply (recover_runs orig Ho hp Crashing d' (fun _ _ => False) (dns_good orig)); [done..|by split]|..]; [intros []; apply HG|done|done].
  - eapply runs_mono; [apply (recover_runs orig Ho hp Crashing d (fun _ _ => False) (dns_good orig)); [done..|by split]|..]; [intros []; apply HG|done|done].
Qed.

Section life.
Context (orig : list byte) (hp : bool).
(** Every disk a sequence of runs leads to, each of which may crash at any
    call; [torn] when one of them started with a resolver file that an earlier
    one had begun to write and not finished. *)
Inductive lived : bool -> DnsDisk -> Prop :=
| lived_new d : clean orig d -> plain d -> lived false d
| lived_run op evs torn d : lived torn d -> permitted Crashing evs -> settled orig d -> lived torn (dns_run hp op evs d).2
| lived_torn op evs torn d : lived torn d -> permitted Crashing evs -> ~ settled orig d -> lived true (dns_run hp op evs d).2.
Lemma lived_good d : zlen orig <= MAX_RESOLVER_BYTES -> lived false d -> dns_good orig d.
Proof.
  intros Ho HL. remember false as torn eqn:Et. induction HL as [d HC HP|op evs torn d HL IH He HS|]; [split; [by left|done]| |done]. specialize (IH Et).
  pose proof (dns_run_good orig hp op d Ho HS IH evs He) as HG. destruct (dns_run hp op evs d) as [[[[]|e|] evs'] d']; cbn in *; tauto.
Qed.
(** C13: A crash of the tunnel service is repaired on its next start, unless it
    cut a write of the resolver file short. However tunnels take the system
    resolver over and give it back, and wherever the program dies in between:
    as long as no run started from a resolver file that a crash had left
    half written, the original configuration is in the resolver file or in the
    state file beside it; and if the resolver file is not half written now, the
    recovery the service starts with puts the original back and removes the
    state file. *)
Theorem dns_crash_repaired d : zlen orig <= MAX_RESOLVER_BYTES -> lived false d ->
  (resolver d = Regular orig \/ saved d = Regular orig) /\
  (settled orig d -> exists evs d', recover_system_dns hp [] d = (Done tt, evs, d') /\ resolver d' = Regular orig /\ saved d' = Missing).
Proof.
  intros Ho HL. destruct (lived_good d Ho HL) as [HR HP]. split; [destruct HR as [[]|[]]; auto|]. intros HS.
  pose proof (recover_runs orig Ho hp Quiet d (fun _ _ => False) (fun _ => False) HS HR HP ltac:(done) [] I) as HQ. unfold recover_system_dns.
  destruct (recover_at hp [] d) as [[[[]|e|] evs'] d']; [|by destruct HQ|done]. destruct HQ as (_ & [Er Es] & _). eauto.
Qed.
End life.

(** C26: Taking the resolver over is all or nothing. From a machine with its
    own configuration, if at most one call of the takeover is refused, either
    the tunnel's configuration is in place and the original is saved, or the
    takeover fails and the resolver file holds the original. *)
Theorem dns_takeover_undone orig hp conf d evs : zlen orig <= MAX_RESOLVER_BYTES -> clean orig d -> temporary d <> Irregular -> permitted OneFault evs ->
  match acquire_at hp conf evs d with
  | (Done _, _, d') => resolver d' = Regular conf /\ saved d' = Regular orig
  | (Failed _, _, d') => resolver d' = Regular orig
  | (Died, _, _) => False
  end.
Proof.
  intros Ho HC HP He. assert (HS : settled orig d) by (destruct HC as [Er _]; exists orig; auto).
  pose proof (acquire_runs orig Ho hp OneFault d conf (fun _ => False) ltac:(done) HS (or_introl HC) HP (fun _ => HC) evs He) as HA.
  destruct (acquire_at hp conf evs d) as [[[[]|e|] evs'] d']; [by destruct HA as (_ & [Er Es] & _)|by destruct HA as (_ & Er & _)|done].
Qed.

(** C35: A write cut short loses the resolver. The resolver file is truncated
    and then written, and recovery only puts the original back over one of
    Ket's own configurations: if the program dies between the two, the next
    start finds an empty file, takes it for a new network's configuration,
    and removes the saved original. *)
Theorem torn_write_loses_resolver orig conf : zlen orig <= MAX_RESOLVER_BYTES -> exists evs d d' rest_,
  permitted Crashing evs /\ (acquire_at true conf evs (mkDnsDisk (Regular orig) Missing Missing [])) = (Died, [], d) /\
  saved d = Regular orig /\ resolver d = Regular [] /\
  recover_system_dns true [] d = (Done tt, rest_, d') /\ resolver d' = Regular [] /\ saved d' = Missing.
Proof.
  intros Ho. exists (replicate 14 Goes ++ [Dies 0]), (mkDnsDisk (Regular []) (Regular orig) Missing []), (mkDnsDisk (Regular []) Missing Missing []), [].
  assert (HL : (MAX_RESOLVER_BYTES <? zlen orig) = false) by (by apply Z.ltb_ge).
  assert (HT : take (Z.to_nat (MAX_RESOLVER_BYTES + 1)) orig = orig) by (apply take_ge; unfold zlen, MAX_RESOLVER_BYTES in *; lia).
  split_and!; [done| |done|done| |done|done].
  - unfold acquire_at, recover_at, read_optional_state, read_bounded_file, io_bind, looked_at, metadata, open_read, read_up_to, looks, os_call.
    cbn -[MAX_RESOLVER_BYTES Z.to_nat zlen take]. repeat (first [rewrite HL|rewrite HT]; cbn -[MAX_RESOLVER_BYTES Z.to_nat zlen take]). reflexivity.
  - unfold recover_system_dns, recover_at, read_optional_state, read_bounded_file, io_bind, looked_at, metadata, open_read, read_up_to, looks, os_call.
    cbn -[MAX_RESOLVER_BYTES Z.to_nat zlen take]. repeat (first [rewrite HL|rewrite HT]; cbn -[MAX_RESOLVER_BYTES Z.to_nat zlen take]). reflexivity.
Qed.

(** * Examples *)

Definition demo_resolver : list byte := resolver_line "nameserver 192.0.2.53".
Definition demo_disk : DnsDisk := mkDnsDisk (Regular demo_resolver) Missing Missing [].
(** The service dies once its tunnel's configuration is written. *)
Definition demo_crash_events : list Event := replicate 15 Goes ++ [Dies 0].
Definition demo_crashed : DnsDisk := (dns_run true (Acquires true false false virtual_dns) demo_crash_events demo_disk).2.
Lemma demo_crashed_is : demo_crashed = mkDnsDisk (Regular VIRTUAL_DNS_CONFIGURATION) (Regular demo_resolver) Missing [].
Proof. vm_compute. reflexivity. Qed.
Lemma demo_short : zlen demo_resolver <= MAX_RESOLVER_BYTES.
Proof. vm_compute. congruence. Qed.
Lemma dns_crash_repaired_witness : exists evs d', recover_system_dns true [] demo_crashed = (Done tt, evs, d') /\ resolver d' = Regular demo_resolver /\ saved d' = Missing.
Proof.
  assert (HL : lived demo_resolver true false demo_crashed) by (apply lived_run; [by apply lived_new|vm_compute; exact I|by exists demo_resolver; auto]).
  apply (dns_crash_repaired demo_resolver true demo_crashed demo_short HL). rewrite demo_crashed_is. exists VIRTUAL_DNS_CONFIGURATION. split; [done|right; left].
Defined.
Lemma dns_takeover_undone_witness : exists evs e d', acquire_at true VIRTUAL_DNS_CONFIGURATION (replicate 14 Goes ++ [Refused 3]) demo_disk = (Failed e, evs, d') /\
  resolver d' = Regular demo_resolver.
Proof.
  pose proof (dns_takeover_undone demo_resolver true VIRTUAL_DNS_CONFIGURATION demo_disk (replicate 14 Goes ++ [Refused 3]) demo_short (conj eq_refl eq_refl) ltac:(done) I) as HT.
  destruct (acquire_at true _ _ _) as [[[[]|e|] evs'] d'] eqn:E; [|by exists evs', e, d'|done].
  apply (f_equal (fun r => match r with (Failed _, _, _) => true | _ => false end)) in E. vm_compute in E. discriminate E.
Defined.
Lemma torn_write_loses_resolver_witness : exists evs d d' rest_,
  permitted Crashing evs /\ (acquire_at true OPENVPN_DNS_CONFIGURATION evs (mkDnsDisk (Regular demo_resolver) Missing Missing [])) = (Died, [], d) /\
  saved d = Regular demo_resolver /\ resolver d = Regular [] /\
  recover_system_dns true [] d = (Done tt, rest_, d') /\ resolver d' = Regular [] /\ saved d' = Missing.
Proof. exact (torn_write_loses_resolver demo_resolver OPENVPN_DNS_CONFIGURATION demo_short). Defined.
